(* ===== verification/_CoqProject ===== *)
-Q . S2P
Prelude.v
CString.v
NsName.v
NsWire.v
NsText.v
NsNtop.v
NsPton.v
NsPack.v
NsParse.v
NsRecords.v
Epoll.v
Signalfd.v
Eglut.v
EglutInput.v
EglutWindow.v
EglutWayland.v
SetjmpCookie.v
Base64.v
Sha1.v
Qsort.v
Tsearch.v
Hsearch.v
Inet.v
NsTtl.v
NsSamedomain.v
NsHost.v
Time64.v
ResPacket.v
ResTtl.v
ResCache.v
ResCacheRep.v
ResCacheOps.v
ResStats.v
ResNet.v
ResServers.v
ResNetRep.v
ResNetSpec.v
ResMkquery.v
ResQuery.v
ResServersSpec.v
ResState.v
ResSearch.v
ResHistory.v
