(* ===== verification/Prelude.v ===== *)
(** * A verification of the C code of the mcpe launcher

    The launcher runs the Android build of a game on a desktop system: it loads
    the game's library with a port of Android's dynamic linker, gives it the
    functions of the Android C library it expects, and a window. The C code of
    the repository that has logic of its own is

    - [src/eglut]: a small window toolkit over Xlib and EGL;
    - [src/epoll-shim]: Linux's epoll and signalfd on a BSD kqueue;
    - [src/mcpelauncher-linker/bionic/libc]: parts of Android's C library, of
      which this development takes the DNS message and name routines, the
      resolver's queries and its cache of answers and of name servers, the
      address conversions, the 64-bit calendar, Base64, SHA-1, quicksort,
      search trees, hash tables and string functions;
    - [src/libc-shim/src/bionic/setjmp_cookie.c].

    ** How the code is modelled

    A C function is a Rocq function in the monad [M S A] of this file: it takes
    a state and gives an outcome and a state. An outcome is a value, an error
    ([Err e], the error return with [errno = e]), undefined behaviour ([Undef])
    or [NoFuel]. The state is what the function writes: the destination buffer,
    the structure a pointer leads to, the kernel. It is returned in every case,
    so an error return keeps what was written before it. A buffer is a list of
    octets, a pointer into it an offset ([Z]); [rd] and [wr] check every access
    against the length of the list and are [Undef] outside. Integers are [Z]
    with the conversions written out ([u8], [u16], [u32], [s8], [s32], [u64])
    where the width matters. A local array is run with [on_local], from
    arbitrary contents unless the code initialises it.

    A [while] or [for] is [loop fuel body], where the definition [..._step] is
    the body; it gives [Next] or [Done]. The theorems use [wp m s Q E]: from
    [s], [m] returns with [Q] or fails with [E]; [wp] is false of [Undef] and
    [NoFuel]. So each such theorem says that the function terminates (the fuel
    the definition gives is enough), that no access is out of bounds, and what
    the result is, for every input in its hypotheses.

    Fuel: a scan of a text or a message has the length of the array and one
    more; [ns_name_unpack2] has [dstsiz + eom + 1], since a round writes to the
    destination or adds to the count of octets that the code compares with the
    length of the message; the recursion of [qsort] has the number of elements
    and one more, its inner loops the same; the padding of SHA-1 has 65, one
    more than a block; decimal and hexadecimal digits have the number of digits
    of the type. A walk along a collision chain or the MRU list of the
    resolver's cache has the number of entries in the heap and one more, the
    scan of its search domains the size of their buffer, 256, a loop over
    servers, samples or buckets their number and one more; a descent in a
    search tree has the number of its nodes and one more, a probe of a hash
    table the number of its places and one more: the first 2^k places of a probe
    are all different. The loops of the calendar have constants: 431 years in a
    cycle of 400 with the way there, 403 and 803 years counted one by one, 13
    months. A query is sent again without EDNS0 as often as [patience], a
    measure of the network, allows. The event loop of eglut over X does not
    end: its fuel is an argument, the number of rounds, and the theorems are
    about any number of them. That over Wayland ends when the platform has no
    answers left; more fuel than a measure of these is enough.

    ** The files

    - [Prelude.v] (this file): the monad, [wp] and its rules, the tactic
      [wp_step], lists indexed by [Z], checked access, [filled] (a buffer filled
      up to a position and untouched behind the size given), integers.
    - [CString.v]: [strlcpy.c], [strlcat.c], [strcasecmp.c], [strsep.c],
      [strtok.c], [strcmp.c] of [upstream-openbsd/lib/libc/string]. [cstr] says that a
      string is stored at an offset, [is_cstr] that a buffer is one. Theorems: a copy and an append are a copy
      of the concatenation, for every size; comparison without case;
      [strtok_r].
    - [NsName.v]: the operations of [dns/nameser/ns_name.c]. [NsWire.v]:
      [name_at] says what name is encoded at a position of a message, through
      compression pointers; [ns_name_unpack2] and [ns_name_skip] agree with it
      on arbitrary octets, but for one read behind the message. [NsText.v],
      [NsNtop.v]: the presentation format, and that [ns_name_ntop] and
      [ns_name_uncompress] print it. [NsPton.v]: [ns_name_pton2] implements a
      reference parser and reads back what [ns_name_ntop] prints. [NsPack.v]:
      what [ns_name_pack] writes spells the name through pointers to names
      written before, and [ns_name_compress] is undone by
      [ns_name_uncompress].
    - [NsParse.v], [NsRecords.v]: [dns/nameser/ns_parse.c], [ns_netint.c],
      [dn_expand] and [dn_skipname]. [ns_initparse] succeeds exactly on
      well-formed messages ([parsed]) and sets up the handle; [ns_parserr] and
      [ns_parserr2] return the asked record from any state of the handle, and
      any sequence of calls stays within the message.
    - [NsTtl.v], [NsSamedomain.v], [NsHost.v]: [dns/nameser/ns_ttl.c],
      [ns_samedomain.c], and the character checks of [dns/resolv/res_comp.c].
    - [Inet.v]: [inet_pton.c] and [inet_ntop.c], against a grammar of address
      texts ([address6], [quad]) and the text RFC 5952 recommends ([text6]).
    - [Base64.v], [Sha1.v], [Qsort.v]: [base64.c] (round trip; the decoder
      accepts nothing but encodings), [sha1.c] (equal to a reference digest of
      the concatenated data), [qsort.c] (a permutation for any comparison
      function, sorted for a total preorder).
    - [Tsearch.v]: [tsearch.c] and [tfind.c]: linked nodes in a heap. [is_tree f
      t] says that they are the search tree [t] and nothing else; a link is
      reached through a [context], a tree with a hole. Insertion and deletion
      are those of the sorted list of the nodes; a walk is the list of visits.
    - [Hsearch.v]: [hsearch_r.c], [hcreate_r.c], [hdestroy_r.c] and [hcreate.c]
      of [upstream-freebsd]: a table with quadratic probing that is doubled. It
      [represents] a map from strings to entries.
    - [Time64.v]: [bionic/time64.c]. [gmtime64_r] and [timegm64] are inverse for
      every 64-bit time, [localtime64_r] and [mktime64] apply the offset that
      the system has in a year of the same calendar that 32 bits can hold.
    - [Epoll.v]: [epoll-shim/src/epoll.c]. The kernel is the class [Kernel] of
      its calls, with the class of their documented laws. [epoll_ctl] and
      [epoll_wait] against Linux's contract. [Signalfd.v]: [signalfd.c] and
      [common.c]: the linked list of contexts implements a finite map, the
      mutex is free after every call, in every reachable state.
    - [ResPacket.v], [ResTtl.v]: the first half of [dns/resolv/res_cache.c]:
      which queries are cached ([query_ok]), their hash and their comparison,
      and how long an answer is kept, with the routines of [NsParse.v].
    - [ResCache.v]: the second half, the operations on one cache: entries in a
      heap, linked into the collision chains of the table and into the list of
      the most recently used ones. [ResCacheRep.v]: [cache_rep c l] says that
      the heap, the table and the list of [c] hold the answers [l], the last
      used first; looking up is finding the first match in [l].
      [ResCacheOps.v]: what removing, adding and flushing do to [l].
    - [ResStats.v]: [dns/resolv/res_stats.c], the ring buffer of the samples of
      a server ([ring]) and the choice of the usable servers.
    - [ResNet.v], [ResServers.v]: the interface of the cache: the list of
      networks behind its mutex, looking up, adding, pending requests,
      flushing, deleting ([ResNet.v]); setting the name servers and search
      domains of a network and reading them back ([ResServers.v]). The system
      is the class [System]. [ResState.v]: copying what is set into the
      [res_state] of a caller. [ResNetRep.v]: [net_rep s m] says that the state
      [s] implements the map [m] from networks to views (answers, pending
      requests, counters). [ResNetSpec.v]: look-up and addition refine the
      operations on [m], and the comparison of keys identifies the queries
      that differ at most in id and TC. [ResServersSpec.v], [ResState.v]: what
      is set is what is reported and used. [ResHistory.v]: every history of
      calls keeps the invariant, and the next call returns.
    - [ResMkquery.v]: [dns/resolv/res_mkquery.c]: the query that is made parses
      back to the question, with or without EDNS0, and the cache takes it.
      [ResQuery.v]: [res_query.c] (and [strncpy.c]): one query with its errors,
      and the search over the domains of the client, against an abstract search
      over names. [ResSearch.v]: setting the servers and domains of a network
      and searching, composed.
    - [Eglut.v], [EglutInput.v]: the event loop and the handling of events of
      [eglut/src/eglut_x11.c], [xinput.c] and [eglut.c], over classes of the
      Xlib and EGL calls, with arbitrary callbacks of the application.
      Theorems: relative motion, repeated keys, dropped files, which redisplays
      are drawn. [EglutWindow.v]: initialisation, the choice of a
      configuration, windows and the functions on the current window.
      [EglutWayland.v]: [eglut_wayland.c], over the class [Wayland]: the objects
      of the client in a store, their events, and a whole session that leaves
      none of them.
    - [SetjmpCookie.v]: the cookie and the signal flag of setjmp.

    The components call each other as in the code: [NsParse.v] uses the name
    routines of [NsName.v] through their [wp] lemmas, [Signalfd.v] uses the
    [Kernel] class of [Epoll.v], [NsSamedomain.v] the string functions;
    [ResTtl.v] calls [ns_parserr] for every record, and [ResNet.v] puts the
    cache of [ResCache.v], the lifetimes of [ResTtl.v] and the statistics of
    [ResStats.v] together; [ResQuery.v] calls [ResMkquery.v], which calls
    [NsName.v], and is given [_resolv_populate_res_for_net] of [ResState.v] by
    [ResSearch.v].

    ** What is assumed of other code

    The classes [Kernel], [Xlib], [Platform], [Wayland] and [System] hold the calls
    into code that is not modelled; their laws are classes of their own or
    named hypotheses, with an instance each that shows they can hold. Of the resolver's system
    ([SystemOk]): a new entry has an address that is not in use, the cache is
    run in its local mode (in the other one the first look-up divides by zero,
    which is proved), the clock reads less than 2^62, a thread that waits gets the
    mutex back with a consistent state that other threads may have changed, and
    an address found by [getaddrinfo] fits [sockaddr_storage]. [getaddrinfo]
    is in the repository; only what the cache relies on is stated of it. The
    network ([res_nsend]) may do anything to the client but answers within its
    buffer, and refuses EDNS0 only so often. The system's [mktime] and
    [localtime_r] are any functions that shift by an offset which depends on
    the time. The callbacks of a Wayland program leave the objects of the
    back end alone.

    ** What is not modelled

    C++ (the linker proper, the launcher, the user interface), generated code
    (glad), the vendored Android tools. Of the C code: the PNG reader of eglut (a
    sequence of libpng calls), the Objective-C calls of
    [osx10_10_compat.c], the resolver's socket code and [getaddrinfo] (what
    they do is input and output), [ns_print.c] (formatting only), the zone files
    and formats of [tzcode], gdtoa, regular expressions and file patterns,
    the environment, stdio, locale: third-party code, most of it over the
    system or the locale. Of [res_cache.c] only the printing for debugging is
    left out. Time-outs, signals delivered during a call and threads are outside
    the model, but for the mutexes of [Signalfd.v] and [ResNet.v] and what others
    do while a thread waits for a pending request; a pending request is its
    hash, without the condition variable. Allocation fails where the model
    says so ([Signalfd.v], entries and networks of [ResNet.v], nodes of
    [Tsearch.v], tables of [Hsearch.v]) and succeeds elsewhere. The C locale is
    assumed. *)
From stdpp Require Export base tactics numbers list gmap.
From Stdlib Require Export ZArith Lia.

#[global] Open Scope Z_scope.

(** ** Outcomes of a C function *)

(** What a call does: it returns a value; it returns its error value with
    [errno] set; its behaviour is undefined (an access outside an object); or
    the fuel of a loop ran out, which the theorems exclude. *)
Inductive outcome (A : Type) : Type :=
  | Ret (a : A)
  | Err (e : Z)
  | Undef
  | NoFuel.
Arguments Ret {A} a.
Arguments Err {A} e.
Arguments Undef {A}.
Arguments NoFuel {A}.

(** The state is returned in every case: an error return leaves the bytes
    written before it. *)
Definition M (S A : Type) : Type := S -> outcome A * S.

#[global] Instance M_ret S : MRet (M S) := fun A a s => (Ret a, s).
#[global] Instance M_bind S : MBind (M S) := fun A B k m s =>
  match m s with
  | (Ret a, s') => k a s'
  | (Err e, s') => (Err e, s')
  | (Undef, s') => (Undef, s')
  | (NoFuel, s') => (NoFuel, s')
  end.

Section operations.
Context {S : Type}.

Definition fail {A} (e : Z) : M S A := fun s => (Err e, s).
Definition undef {A} : M S A := fun s => (Undef, s).
Definition nofuel {A} : M S A := fun s => (NoFuel, s).
Definition getS : M S S := fun s => (Ret s, s).
Definition setS (s' : S) : M S unit := fun _ => (Ret tt, s').

Definition updS (f : S -> S) : M S unit := fun s => (Ret tt, f s).

(** [if (b) { errno = e; return -1; }] *)
Definition fail_if (b : bool) (e : Z) : M S unit :=
  if b then fail e else mret tt.

(** An access is defined only where [b] holds. *)
Definition require (b : bool) : M S unit :=
  if b then mret tt else undef.

(** The result of a call inspected by its caller ([if (f() < 0) ...]): the
    error return becomes a value. *)
Definition try {A} (m : M S A) : M S (A + Z) := fun s =>
  match m s with
  | (Ret a, s') => (Ret (inl a), s')
  | (Err e, s') => (Ret (inr e), s')
  | (Undef, s') => (Undef, s')
  | (NoFuel, s') => (NoFuel, s')
  end.
End operations.

(** A call whose state is a part of the caller's state. *)
Definition zoom {S T A} (get : S -> T) (put : T -> S -> S) (m : M T A) : M S A :=
  fun s => let '(o, t) := m (get s) in (o, put t s).

(** A call on an array of the caller's frame, [t] being what the array holds
    before it; the call returns what it leaves there. *)
Definition on_local {S T A} (t : T) (m : M T A) : M S (A * T) := fun s =>
  match m t with
  | (Ret a, t') => (Ret (a, t'), s)
  | (Err e, _) => (Err e, s)
  | (Undef, _) => (Undef, s)
  | (NoFuel, _) => (NoFuel, s)
  end.

(** ** Loops *)

(** One iteration either goes on with new local variables or leaves the loop. *)
Inductive step (L R : Type) : Type :=
  | Next (l : L)
  | Done (r : R).
Arguments Next {L R} l.
Arguments Done {L R} r.

Fixpoint loop {S L R} (fuel : nat) (body : L -> M S (step L R)) (l : L) : M S R :=
  match fuel with
  | O => nofuel
  | S fuel' =>
      st ← body l;
      match st with
      | Next l' => loop fuel' body l'
      | Done r => mret r
      end
  end.

(** ** Bytes and buffers *)

Definition zlen {A} (l : list A) : Z := Z.of_nat (length l).

Definition znth {A} (l : list A) (i : Z) : option A :=
  if i <? 0 then None else l !! Z.to_nat i.

Definition zupd {A} (l : list A) (i : Z) (v : A) : list A :=
  if i <? 0 then l else <[Z.to_nat i := v]> l.

Definition ztake {A} (i : Z) (l : list A) : list A := take (Z.to_nat i) l.
Definition zdrop {A} (i : Z) (l : list A) : list A := drop (Z.to_nat i) l.

#[global] Arguments zlen : simpl never.
#[global] Arguments znth : simpl never.
#[global] Arguments zupd : simpl never.
#[global] Arguments ztake : simpl never.
#[global] Arguments zdrop : simpl never.

(** [l[i]] for an object that the function only reads. *)
Definition rd {S A} (l : list A) (i : Z) : M S A :=
  match znth l i with
  | Some v => mret v
  | None => undef
  end.

(** [buf[i]] and [buf[i] = v] where the buffer is the state. *)
Definition rdS {A} (i : Z) : M (list A) A := fun b => rd b i b.

Definition wr {A} (i : Z) (v : A) : M (list A) unit := fun b =>
  if (0 <=? i) && (i <? zlen b) then (Ret tt, zupd b i v) else (Undef, b).

(** [m] on the element [l[i]], in place. *)
Definition on_elem {A B} (i : Z) (m : M A B) : M (list A) B := fun l =>
  match znth l i with
  | Some a => zoom (fun _ => a) (fun a l => zupd l i a) m l
  | None => (Undef, l)
  end.

Definition is_byte (v : Z) : Prop := 0 <= v < 256.
Definition bytes (l : list Z) : Prop := Forall is_byte l.

(** The buffer from index [d] on, as the object a pointer into it denotes. *)
Definition at_off {A B} (d : Z) (m : M (list A) B) : M (list A) B :=
  zoom (zdrop d) (fun t b => ztake d b ++ t) m.

(** ** A program logic for the outcomes *)

(** [wp m s Q E]: from [s], [m] terminates without undefined behaviour, a
    returned value satisfies [Q] and an error return satisfies [E]. *)
Definition wp {S A} (m : M S A) (s : S) (Q : A -> S -> Prop) (E : Z -> S -> Prop) : Prop :=
  match m s with
  | (Ret a, s') => Q a s'
  | (Err e, s') => E e s'
  | (Undef, _) | (NoFuel, _) => False
  end.

Section wp.
Context {S : Type}.
Implicit Types (s : S).

Lemma wp_ret {A} (a : A) s Q E : Q a s -> wp (mret a) s Q E.
Proof. done. Qed.

Lemma wp_fail {A} e s (Q : A -> S -> Prop) E : E e s -> wp (fail e) s Q E.
Proof. done. Qed.

Lemma wp_bind {A B} (m : M S A) (k : A -> M S B) s Q E :
  wp m s (fun a s' => wp (k a) s' Q E) E -> wp (m ≫= k) s Q E.
Proof. unfold wp, mbind, M_bind. destruct (m s) as [[]?]; done. Qed.

Lemma wp_bind_inv {A B} (m : M S A) (k : A -> M S B) s Q E :
  wp (m ≫= k) s Q E -> wp m s (fun a s' => wp (k a) s' Q E) E.
Proof. unfold wp, mbind, M_bind. destruct (m s) as [[]?]; done. Qed.

Lemma wp_mono {A} (m : M S A) s (Q Q' : A -> S -> Prop) (E E' : Z -> S -> Prop) :
  wp m s Q E -> (forall a s', Q a s' -> Q' a s') -> (forall e s', E e s' -> E' e s') ->
  wp m s Q' E'.
Proof. unfold wp. destruct (m s) as [[]?]; eauto. Qed.

Lemma wp_conseq {A} (m : M S A) s (Q Q' : A -> S -> Prop) E :
  wp m s Q E -> (forall a s', Q a s' -> Q' a s') -> wp m s Q' E.
Proof. intros. by eapply wp_mono. Qed.

(** A computation that does from [s] what [m'] does from [s']. *)
Lemma wp_run {A} (m m' : M S A) s s' (Q : A -> S -> Prop) E :
  m s = m' s' -> wp m' s' Q E -> wp m s Q E.
Proof. unfold wp. by intros ->. Qed.

Lemma wp_and {A} (m : M S A) s (Q Q' : A -> S -> Prop) (E E' : Z -> S -> Prop) :
  wp m s Q E -> wp m s Q' E' ->
  wp m s (fun a s' => Q a s' /\ Q' a s') (fun e s' => E e s' /\ E' e s').
Proof. unfold wp. destruct (m s) as [[]?]; eauto. Qed.

(** An error return refutes what excludes it. *)
Lemma wp_refute {A} (m : M S A) s (Q : A -> S -> Prop) E (P : Prop) :
  wp m s Q E -> (P -> wp m s (fun _ _ => True) (fun _ _ => False)) -> wp m s Q (fun e s' => E e s' /\ ~ P).
Proof. unfold wp. destruct (m s) as [[]?]; tauto. Qed.

Lemma wp_fail_if b e s (Q : unit -> S -> Prop) E :
  (b = true -> E e s) -> (b = false -> Q tt s) -> wp (fail_if b e) s Q E.
Proof. destruct b; unfold fail_if, wp; cbn; auto. Qed.

Lemma wp_require b s (Q : unit -> S -> Prop) E :
  b = true -> Q tt s -> wp (require b) s Q E.
Proof. intros ->. done. Qed.

Lemma wp_getS s Q E : Q s s -> wp getS s Q E.
Proof. done. Qed.

Lemma wp_setS s s' Q E : Q tt s' -> wp (setS s') s Q E.
Proof. done. Qed.

Lemma wp_updS f s Q E : Q tt (f s) -> wp (updS f) s Q E.
Proof. done. Qed.

Lemma wp_try {A} (m : M S A) s (Q : A + Z -> S -> Prop) E :
  wp m s (fun a s' => Q (inl a) s') (fun e s' => Q (inr e) s') -> wp (try m) s Q E.
Proof. unfold wp, try. destruct (m s) as [[]?]; done. Qed.

(** The loop rule: an invariant on the locals and the state and a measure
    that each further iteration decreases; fuel above the measure is enough. *)
Lemma wp_loop {L R} (I : L -> S -> Prop) (mu : L -> S -> nat)
    (body : L -> M S (step L R)) fuel l s Q E :
  I l s -> (mu l s < fuel)%nat ->
  (forall l s, I l s ->
     wp (body l) s
        (fun st s' => match st with
                      | Next l' => I l' s' /\ (mu l' s' < mu l s)%nat
                      | Done r => Q r s'
                      end) E) ->
  wp (loop fuel body l) s Q E.
Proof.
  intros HI Hf Hb. revert l s HI Hf. induction fuel as [|fuel IH]; intros l s HI Hf; [lia|].
  cbn [loop]. apply wp_bind. eapply wp_mono; [apply Hb, HI| |done].
  intros [l'|r] s' Hst; [|done]. destruct Hst. apply IH; [done|lia].
Qed.

(** One iteration, for proofs by induction on the data the loop walks. *)
Lemma wp_loop_S {L R} (body : L -> M S (step L R)) fuel l s Q E :
  wp (body l) s (fun st s' => match st with
                              | Next l' => wp (loop fuel body l') s' Q E
                              | Done r => Q r s'
                              end) E ->
  wp (loop (Datatypes.S fuel) body l) s Q E.
Proof. intros H. cbn [loop]. apply wp_bind. eapply wp_mono; [exact H|intros []; auto|done]. Qed.

Lemma wp_eq {A} (m : M S A) s (Q : A -> S -> Prop) E :
  wp m s Q E <->
  (exists a s', m s = (Ret a, s') /\ Q a s') \/ (exists e s', m s = (Err e, s') /\ E e s').
Proof.
  unfold wp. split.
  - destruct (m s) as [[] s0]; eauto; done.
  - by intros [(x & s' & -> & H)|(x & s' & -> & H)].
Qed.
End wp.

Lemma wp_zoom {S T A} (get : S -> T) (put : T -> S -> S) (m : M T A) s Q E :
  wp m (get s) (fun a t => Q a (put t s)) (fun e t => E e (put t s)) ->
  wp (zoom get put m) s Q E.
Proof. unfold wp, zoom. destruct (m (get s)) as [[]?]; done. Qed.

Lemma wp_on_local {S T A} (t : T) (m : M T A) (s : S) (Q : A * T -> S -> Prop) E :
  wp m t (fun a t' => Q (a, t') s) (fun e _ => E e s) -> wp (on_local t m) s Q E.
Proof. unfold wp, on_local. destruct (m t) as [[]?]; done. Qed.

Lemma loop_S {S L R} (body : L -> M S (step L R)) fuel l :
  loop (Datatypes.S fuel) body l =
    (st ← body l; match st with Next l' => loop fuel body l' | Done r => mret r end).
Proof. done. Qed.

#[global] Arguments loop : simpl never.
#[global] Arguments wp : simpl never.

(** ** Lemmas on buffers *)

Section buffers.
Context {A : Type}.
Implicit Types (l b w : list A).

Lemma zlen_nonneg l : 0 <= zlen l.
Proof. unfold zlen. lia. Qed.

Lemma zlen_app l b : zlen (l ++ b) = zlen l + zlen b.
Proof. unfold zlen. rewrite length_app. lia. Qed.

Lemma zlen_cons (x : A) l : zlen (x :: l) = zlen l + 1.
Proof. unfold zlen. cbn. lia. Qed.

Lemma zlen_nil : zlen (@nil A) = 0.
Proof. done. Qed.

Lemma zlen_zupd l i v : zlen (zupd l i v) = zlen l.
Proof. unfold zlen, zupd. case_match; [done|]. by rewrite length_insert. Qed.

Lemma zlen_take l i : 0 <= i <= zlen l -> zlen (ztake i l) = i.
Proof. unfold zlen, ztake. intros. rewrite length_take. lia. Qed.

Lemma znth_Some l i v : znth l i = Some v -> 0 <= i < zlen l.
Proof.
  unfold znth, zlen. case_match eqn:Hi; [done|]. intros H%lookup_lt_Some. lia.
Qed.

Lemma znth_lt l i : 0 <= i < zlen l -> exists v, znth l i = Some v.
Proof.
  unfold znth, zlen. intros H. case_match eqn:Hi; [lia|].
  destruct (lookup_lt_is_Some_2 l (Z.to_nat i)) as [v Hv]; [lia|eauto].
Qed.

Lemma znth_None l i : i < 0 \/ zlen l <= i -> znth l i = None.
Proof.
  unfold znth, zlen. intros H. case_match eqn:Hi; [done|]. apply lookup_ge_None. lia.
Qed.

Lemma znth_app_l l b i : i < zlen l -> znth (l ++ b) i = znth l i.
Proof. unfold znth, zlen. intros. case_match; [done|]. apply lookup_app_l. lia. Qed.

Lemma znth_app_r l b i : zlen l <= i -> znth (l ++ b) i = znth b (i - zlen l).
Proof.
  unfold znth, zlen. intros. case_match; [lia|]. case_match; [lia|].
  rewrite lookup_app_r by lia. f_equal. lia.
Qed.

Lemma znth_cons_0 (x : A) l : znth (x :: l) 0 = Some x.
Proof. done. Qed.

Lemma znth_cons_S (x : A) l i : 0 < i -> znth (x :: l) i = znth l (i - 1).
Proof.
  unfold znth. intros. case_match; [lia|]. case_match; [lia|].
  replace (Z.to_nat i) with (S (Z.to_nat (i - 1))) by lia. done.
Qed.

Lemma znth_middle l (x : A) b : znth (l ++ x :: b) (zlen l) = Some x.
Proof. rewrite znth_app_r by lia. by rewrite Z.sub_diag. Qed.

Lemma znth_zupd_eq l i v : 0 <= i < zlen l -> znth (zupd l i v) i = Some v.
Proof.
  unfold znth, zupd, zlen. intros. case_match; [lia|].
  apply list_lookup_insert_eq. lia.
Qed.

Lemma znth_zupd_ne l i j v : i <> j -> znth (zupd l i v) j = znth l j.
Proof.
  unfold znth, zupd. intros. destruct (j <? 0) eqn:?; [done|].
  destruct (i <? 0) eqn:?; [done|]. apply list_lookup_insert_ne. lia.
Qed.

Lemma zupd_middle l (x : A) b v : zupd (l ++ x :: b) (zlen l) v = l ++ v :: b.
Proof.
  unfold zupd, zlen. destruct (Z.ltb_spec (Z.of_nat (length l)) 0); [lia|]. rewrite Nat2Z.id.
  rewrite insert_app_r_alt by lia. by rewrite Nat.sub_diag.
Qed.

Lemma zupd_app_l l b i v : i < zlen l -> zupd (l ++ b) i v = zupd l i v ++ b.
Proof. unfold zupd, zlen. intros. destruct (Z.ltb_spec i 0); [done|]. apply insert_app_l. lia. Qed.

Lemma ztake_ztake l i j : i <= j -> ztake i (ztake j l) = ztake i l.
Proof. unfold ztake. intros. rewrite take_take. f_equal. lia. Qed.
End buffers.

(** Lists with the same elements. *)
Lemma znth_ext {A} (l k : list A) : (forall i, 0 <= i -> znth l i = znth k i) -> l = k.
Proof.
  intros H. apply list_eq. intros i. specialize (H (Z.of_nat i) ltac:(lia)). unfold znth in H.
  rewrite (proj2 (Z.ltb_ge _ _)), Nat2Z.id in H by lia. done.
Qed.

Lemma zlen_map {A B} (f : A -> B) l : zlen (map f l) = zlen l.
Proof. unfold zlen. by rewrite length_map. Qed.

Lemma zlen_replicate {A} n (x : A) : zlen (replicate n x) = Z.of_nat n.
Proof. unfold zlen. by rewrite length_replicate. Qed.

Lemma zupd_app_r {A} (p q : list A) i v j : j = zlen p + i -> 0 <= i -> zupd (p ++ q) j v = p ++ zupd q i v.
Proof.
  intros -> Hi. unfold zupd, zlen. rewrite !(proj2 (Z.ltb_ge _ _)) by lia.
  rewrite insert_app_r_alt by lia. do 2 f_equal. lia.
Qed.

Lemma Forall_znth {A} (P : A -> Prop) l i x : Forall P l -> znth l i = Some x -> P x.
Proof. intros Hl Hi. unfold znth in Hi. destruct (i <? 0); [done|]. exact (Forall_lookup_1 _ _ _ _ Hl Hi). Qed.

(** [splice b i w]: the buffer [b] with [w] written from index [i] on. The
    functions that fill a buffer keep "the buffer is [splice b0 i w]", with [w]
    what they have written, as their invariant. *)
Definition splice {A} (b : list A) (i : Z) (w : list A) : list A :=
  ztake i b ++ w ++ zdrop (i + zlen w) b.

(** [memcpy(dst + d, src + s, n)] where [dst] is the state. *)
Definition memcpy {A} (src : list A) (d s n : Z) : M (list A) unit := fun b =>
  if (0 <=? n) && (0 <=? s) && (s + n <=? zlen src) && (0 <=? d) && (d + n <=? zlen b)
  then (Ret tt, splice b d (ztake n (zdrop s src)))
  else (Undef, b).

Section splice.
Context {A : Type}.
Implicit Types (b w x : list A).

Lemma zlen_ztake i b : 0 <= i <= zlen b -> zlen (ztake i b) = i.
Proof. unfold zlen, ztake. intros. rewrite length_take. lia. Qed.

Lemma zlen_zdrop i b : 0 <= i <= zlen b -> zlen (zdrop i b) = zlen b - i.
Proof. unfold zlen, zdrop. intros. rewrite length_drop. lia. Qed.

Lemma ztake_zdrop i b : ztake i b ++ zdrop i b = b.
Proof. apply take_drop. Qed.

Lemma zdrop_zdrop i j b : 0 <= i -> 0 <= j -> zdrop i (zdrop j b) = zdrop (j + i) b.
Proof. intros. unfold zdrop. rewrite drop_drop. f_equal. lia. Qed.

Lemma zdrop_0 b : zdrop 0 b = b.
Proof. done. Qed.

Lemma ztake_app b w : ztake (zlen b) (b ++ w) = b.
Proof. unfold ztake, zlen. rewrite Nat2Z.id. apply take_app_length. Qed.

Lemma zdrop_app b w : zdrop (zlen b) (b ++ w) = w.
Proof. unfold zdrop, zlen. rewrite Nat2Z.id. apply drop_app_length. Qed.

Lemma ztake_app_alt b w i : i = zlen b -> ztake i (b ++ w) = b.
Proof. intros ->. apply ztake_app. Qed.

Lemma zdrop_app_alt b w i : i = zlen b -> zdrop i (b ++ w) = w.
Proof. intros ->. apply zdrop_app. Qed.

Lemma ztake_app_le b w i : i <= zlen b -> ztake i (b ++ w) = ztake i b.
Proof. unfold ztake, zlen. intros. apply take_app_le. lia. Qed.

Lemma ztake_app_ge b w i : zlen b <= i -> ztake i (b ++ w) = b ++ ztake (i - zlen b) w.
Proof. unfold ztake, zlen. intros. rewrite take_app_ge by lia. do 2 f_equal. lia. Qed.

Lemma zdrop_app_le b w i : i <= zlen b -> zdrop i (b ++ w) = zdrop i b ++ w.
Proof. unfold zdrop, zlen. intros. apply drop_app_le. lia. Qed.

Lemma zdrop_app_ge b w i : zlen b <= i -> zdrop i (b ++ w) = zdrop (i - zlen b) w.
Proof. unfold zdrop, zlen. intros. rewrite drop_app_ge by lia. f_equal. lia. Qed.

Lemma ztake_all b : ztake (zlen b) b = b.
Proof. unfold ztake, zlen. rewrite Nat2Z.id. apply firstn_all. Qed.

Lemma ztake_ge i b : zlen b <= i -> ztake i b = b.
Proof. unfold ztake, zlen. intros. apply take_ge. lia. Qed.

Lemma zdrop_cons i b v : znth b i = Some v -> zdrop i b = v :: zdrop (i + 1) b.
Proof.
  intros H. pose proof (znth_Some _ _ _ H). unfold znth, zdrop in *.
  destruct (Z.ltb_spec i 0); [lia|].
  rewrite (drop_S _ _ _ H). do 2 f_equal. lia.
Qed.

Lemma ztake_snoc i b v : znth b i = Some v -> ztake (i + 1) b = ztake i b ++ [v].
Proof.
  intros H. pose proof (znth_Some _ _ _ H). unfold znth, ztake in *.
  destruct (Z.ltb_spec i 0); [lia|].
  replace (Z.to_nat (i + 1)) with (S (Z.to_nat i)) by lia. by apply take_S_r.
Qed.

Lemma znth_ztake i j b : i < j -> znth (ztake j b) i = znth b i.
Proof.
  unfold znth, ztake. intros. destruct (Z.ltb_spec i 0); [done|].
  rewrite lookup_take. case_decide; [done|lia].
Qed.

Lemma znth_zdrop i j b : 0 <= i -> 0 <= j -> znth (zdrop j b) i = znth b (j + i).
Proof.
  unfold znth, zdrop. intros. destruct (Z.ltb_spec i 0), (Z.ltb_spec (j + i) 0); try lia.
  rewrite lookup_drop. f_equal. lia.
Qed.

Lemma splice_nil b i : splice b i [] = b.
Proof. unfold splice. rewrite zlen_nil, Z.add_0_r. apply ztake_zdrop. Qed.

Lemma zlen_splice b i w : 0 <= i -> i + zlen w <= zlen b -> zlen (splice b i w) = zlen b.
Proof.
  intros. pose proof (zlen_nonneg w). unfold splice.
  rewrite !zlen_app, zlen_ztake, zlen_zdrop by lia. lia.
Qed.

Lemma splice_snoc b i w v :
  0 <= i -> i + zlen w < zlen b ->
  zupd (splice b i w) (i + zlen w) v = splice b i (w ++ [v]).
Proof.
  intros. pose proof (zlen_nonneg w). unfold splice.
  destruct (znth_lt b (i + zlen w)) as [y Hy]; [lia|].
  rewrite (zdrop_cons _ _ _ Hy), app_assoc.
  replace (i + zlen w) with (zlen (ztake i b ++ w)) at 2
    by (rewrite zlen_app, zlen_ztake; lia).
  rewrite zupd_middle, zlen_app, <- !app_assoc, zlen_cons, zlen_nil. do 4 f_equal. lia.
Qed.

Lemma splice_app b i w x :
  0 <= i -> i + zlen w + zlen x <= zlen b ->
  splice (splice b i w) (i + zlen w) x = splice b i (w ++ x).
Proof.
  intros. pose proof (zlen_nonneg w). pose proof (zlen_nonneg x). unfold splice at 1.
  assert (Hl : i + zlen w = zlen (ztake i b ++ w)) by (rewrite zlen_app, zlen_ztake; lia).
  unfold splice. rewrite (app_assoc (ztake i b)).
  rewrite (ztake_app_alt _ _ _ Hl), <- (zdrop_zdrop (zlen x) (i + zlen w)) by lia.
  rewrite (zdrop_app_alt _ _ _ Hl), zdrop_zdrop, zlen_app, <- !app_assoc by lia.
  do 4 f_equal. lia.
Qed.

Lemma splice_snoc_alt b i w j v :
  0 <= i -> j = i + zlen w -> j < zlen b ->
  zupd (splice b i w) j v = splice b i (w ++ [v]).
Proof. intros ? -> ?. by apply splice_snoc. Qed.

Lemma splice_app_alt b i w j x :
  0 <= i -> j = i + zlen w -> j + zlen x <= zlen b ->
  splice (splice b i w) j x = splice b i (w ++ x).
Proof. intros ? -> ?. apply splice_app; lia. Qed.

Lemma splice_upd b i w j v :
  0 <= i -> i + zlen w <= zlen b -> 0 <= j < zlen w ->
  zupd (splice b i w) (i + j) v = splice b i (zupd w j v).
Proof.
  intros. unfold splice. rewrite zlen_zupd.
  unfold zupd. destruct (Z.ltb_spec (i + j) 0), (Z.ltb_spec j 0); try lia.
  assert (length (ztake i b) = Z.to_nat i) as Hl.
  { unfold ztake, zlen in *. rewrite length_take. lia. }
  rewrite insert_app_r_alt by lia. rewrite Hl.
  replace (Z.to_nat (i + j) - Z.to_nat i)%nat with (Z.to_nat j) by lia.
  rewrite insert_app_l; [done|]. unfold zlen in *. lia.
Qed.

(** A later write from inside [w] covers the end of [w]. *)
Lemma splice_over b i u x w :
  0 <= i -> zlen x <= zlen w -> i + zlen u + zlen w <= zlen b ->
  splice (splice b i (u ++ x)) (i + zlen u) w = splice b i (u ++ w).
Proof.
  intros. pose proof (zlen_nonneg u). pose proof (zlen_nonneg x).
  assert (Hl : i + zlen u = zlen (ztake i b ++ u)) by (rewrite zlen_app, zlen_ztake; lia).
  assert (Hx : i + zlen u + zlen x = zlen (ztake i b ++ u ++ x))
    by (rewrite !zlen_app, zlen_ztake; lia).
  assert (Hs : splice b i (u ++ x) = (ztake i b ++ u) ++ x ++ zdrop (i + zlen (u ++ x)) b)
    by (unfold splice; by rewrite <- !app_assoc).
  unfold splice at 1. rewrite Hs, (ztake_app_alt _ _ _ Hl).
  replace (i + zlen u + zlen w) with ((i + zlen u + zlen x) + (zlen w - zlen x)) by lia.
  rewrite <- zdrop_zdrop by lia. rewrite (app_assoc _ x), <- (app_assoc _ u x).
  rewrite (zdrop_app_alt _ _ _ Hx), zlen_app, zdrop_zdrop by lia.
  unfold splice. rewrite zlen_app, <- !app_assoc. do 4 f_equal. lia.
Qed.

Lemma znth_splice_old b i w j :
  0 <= i <= zlen b -> j < i -> znth (splice b i w) j = znth b j.
Proof.
  intros. unfold splice. rewrite znth_app_l by (rewrite zlen_ztake; lia).
  apply znth_ztake. lia.
Qed.

Lemma znth_splice_new b i w j :
  0 <= i <= zlen b -> 0 <= j < zlen w -> znth (splice b i w) (i + j) = znth w j.
Proof.
  intros. unfold splice.
  rewrite znth_app_r by (rewrite zlen_ztake; lia). rewrite zlen_ztake by lia.
  rewrite znth_app_l by lia. f_equal. lia.
Qed.

Lemma znth_splice_after b i w j :
  0 <= i -> i + zlen w <= zlen b -> i + zlen w <= j -> znth (splice b i w) j = znth b j.
Proof.
  intros. pose proof (zlen_nonneg w). unfold splice.
  rewrite app_assoc, znth_app_r; rewrite zlen_app, zlen_ztake; try lia.
  rewrite znth_zdrop by lia. f_equal. lia.
Qed.

Lemma splice_0 b w : splice b 0 w = w ++ zdrop (zlen w) b.
Proof. done. Qed.

Lemma ztake_splice b i w j :
  0 <= i <= zlen b -> j = i + zlen w -> ztake j (splice b i w) = ztake i b ++ w.
Proof.
  intros Hi ->. unfold splice. rewrite app_assoc. apply ztake_app_alt. rewrite zlen_app, zlen_ztake; done.
Qed.

Lemma ztake_splice_0 b w : ztake (zlen w) (splice b 0 w) = w.
Proof. rewrite splice_0. apply ztake_app. Qed.
End splice.

(** [filled dst eom w s]: from the buffer [dst] a function has come to [s] by
    writing below [eom] only, and [s] starts with [w]. *)
Definition filled {A} (dst : list A) (eom : Z) (w s : list A) : Prop :=
  zlen s = zlen dst /\ zdrop eom s = zdrop eom dst /\ zlen w <= eom /\ ztake (zlen w) s = w.

Section filled.
Context {A : Type} (dst : list A) (eom : Z).
Context (Heom : eom <= zlen dst).
Implicit Types (w x s : list A).

Lemma filled_nil : 0 <= eom -> filled dst eom [] dst.
Proof. done. Qed.

Lemma filled_len w s : filled dst eom w s -> zlen w <= eom /\ zlen s = zlen dst.
Proof. intros (? & ? & ? & ?). done. Qed.

Lemma filled_app_inv w x s : filled dst eom (w ++ x) s -> filled dst eom w s.
Proof.
  intros (H1 & H2 & H3 & H4). rewrite zlen_app in *. pose proof (zlen_nonneg w).
  pose proof (zlen_nonneg x). split_and!; [done|done|lia|].
  rewrite <- (ztake_ztake s (zlen w) (zlen w + zlen x)), H4 by lia. apply ztake_app.
Qed.

Lemma filled_splice w x s :
  filled dst eom w s -> zlen w + zlen x <= eom ->
  filled dst eom (w ++ x) (splice s (zlen w) x).
Proof.
  intros (H1 & H2 & H3 & H4) H. pose proof (zlen_nonneg w). pose proof (zlen_nonneg x).
  split_and!.
  - rewrite zlen_splice; lia.
  - rewrite <- H2. unfold splice. rewrite app_assoc.
    replace eom with (zlen (ztake (zlen w) s ++ x) + (eom - (zlen w + zlen x))) at 1
      by (rewrite zlen_app, H4; lia).
    rewrite <- zdrop_zdrop by (rewrite ?zlen_app, ?H4; lia). rewrite zdrop_app, zdrop_zdrop by lia.
    f_equal. lia.
  - rewrite zlen_app. lia.
  - unfold splice. rewrite app_assoc, H4. apply ztake_app.
Qed.

Lemma zupd_splice s i v : 0 <= i < zlen s -> zupd s i v = splice s i [v].
Proof.
  intros H. rewrite <- (splice_nil s i) at 1. rewrite splice_snoc_alt; [done|lia| |lia].
  change (zlen (@nil A)) with 0. lia.
Qed.

Lemma filled_snoc w v s :
  filled dst eom w s -> zlen w < eom -> filled dst eom (w ++ [v]) (zupd s (zlen w) v).
Proof.
  intros H Hl. pose proof (zlen_nonneg w). destruct (filled_len _ _ H).
  rewrite zupd_splice by lia. apply filled_splice; [done|]. change (zlen [v]) with 1. lia.
Qed.

(** Writing again inside what was written. *)
Lemma filled_upd u v g g' s :
  filled dst eom (u ++ g :: v) s -> filled dst eom (u ++ g' :: v) (zupd s (zlen u) g').
Proof.
  intros (H1 & H2 & H3 & H4). set (n := zlen (u ++ g :: v)) in *.
  assert (Hl : zlen (u ++ g' :: v) = n) by (unfold n; rewrite !zlen_app, !zlen_cons; done).
  assert (Hs : s = (u ++ g :: v) ++ zdrop n s) by (rewrite <- H4 at 1; by rewrite ztake_zdrop).
  set (q := zdrop n s) in *. clearbody q. subst s.
  assert (Hu : zupd ((u ++ g :: v) ++ q) (zlen u) g' = (u ++ g' :: v) ++ q)
    by (rewrite <- !app_assoc; apply (zupd_middle u g (v ++ q))).
  assert (Hn : 0 <= n) by apply zlen_nonneg.
  rewrite Hu. unfold filled. rewrite Hl. split_and!; [|rewrite <- H2|done|].
  - rewrite <- H1, !(zlen_app _ q), Hl. done.
  - replace eom with (n + (eom - n)) by lia. rewrite <- !zdrop_zdrop by lia.
    rewrite (zdrop_app_alt _ q n) by done. by rewrite (zdrop_app_alt _ q n).
  - by rewrite ztake_app_alt.
Qed.

Lemma wp_wr_filled w v s (Q : unit -> list A -> Prop) E :
  filled dst eom w s -> zlen w < eom ->
  (forall s', filled dst eom (w ++ [v]) s' -> Q tt s') -> wp (wr (zlen w) v) s Q E.
Proof.
  intros H Hl HQ. pose proof (zlen_nonneg w). destruct (filled_len _ _ H).
  unfold wr, wp. rewrite (proj2 (Z.leb_le 0 _)), (proj2 (Z.ltb_lt _ (zlen s))) by lia.
  by apply HQ, filled_snoc.
Qed.
End filled.

Lemma wp_memcpy {A} (src : list A) d s n b (Q : unit -> list A -> Prop) E :
  0 <= n -> 0 <= s -> s + n <= zlen src -> 0 <= d -> d + n <= zlen b ->
  Q tt (splice b d (ztake n (zdrop s src))) -> wp (memcpy src d s n) b Q E.
Proof.
  intros. unfold wp, memcpy.
  rewrite !(proj2 (Z.leb_le _ _)) by lia. done.
Qed.

Lemma wp_rd {S A} (l : list A) i (s : S) (Q : A -> S -> Prop) E v :
  znth l i = Some v -> Q v s -> wp (rd l i) s Q E.
Proof. unfold rd. by intros ->. Qed.

Lemma wp_rd_lt {S A} (l : list A) i (s : S) (Q : A -> S -> Prop) E :
  0 <= i < zlen l -> (forall v, znth l i = Some v -> Q v s) -> wp (rd l i) s Q E.
Proof. intros Hi HQ. destruct (znth_lt l i Hi) as [v Hv]. eauto using wp_rd. Qed.

Lemma wp_on_elem {A B} i (m : M A B) l a (Q : B -> list A -> Prop) E :
  znth l i = Some a -> wp m a (fun b a' => Q b (zupd l i a')) (fun e a' => E e (zupd l i a')) -> wp (on_elem i m) l Q E.
Proof. unfold wp, on_elem. intros ->. unfold zoom. destruct (m a) as [[]?]; done. Qed.

Lemma wp_wr {A} i (v : A) b Q E :
  0 <= i < zlen b -> Q tt (zupd b i v) -> wp (wr i v) b Q E.
Proof.
  unfold wr, wp. intros. destruct (0 <=? i) eqn:?; [|lia]. destruct (i <? zlen b) eqn:?; [|lia].
  done.
Qed.

Lemma bytes_znth l i v : bytes l -> znth l i = Some v -> is_byte v.
Proof.
  unfold znth. destruct (i <? 0); [done|]. intros. by eapply Forall_lookup_1.
Qed.

Lemma bytes_check l : forallb (fun c => (0 <=? c) && (c <? 256)) l = true -> bytes l.
Proof.
  rewrite forallb_forall. intros H. apply List.Forall_forall. intros c Hc.
  specialize (H c Hc). unfold is_byte. lia.
Qed.

(** One step of a weakest-precondition proof; the side conditions that [lia]
    decides are closed. *)
Ltac wp_step :=
  lazymatch goal with
  | |- wp (mbind _ _) _ _ _ => apply wp_bind
  | |- wp (mret _) _ _ _ => apply wp_ret
  | |- wp (fail _) _ _ _ => apply wp_fail
  | |- wp (fail_if _ _) _ _ _ => apply wp_fail_if; intros ?
  | |- wp (require _) _ _ _ => apply wp_require
  | |- wp getS _ _ _ => apply wp_getS
  | |- wp (setS _) _ _ _ => apply wp_setS
  | |- wp (updS _) _ _ _ => apply wp_updS
  | |- wp (try _) _ _ _ => apply wp_try
  | |- wp (wr _ _) _ _ _ => apply wp_wr
  | |- wp (if ?b then _ else _) _ _ _ => destruct b eqn:?; try discriminate
  | |- wp (let '(_, _) := ?p in _) _ _ _ => destruct p eqn:?
  end; cbn beta.

(** High part and low part of a word put together. *)
Lemma lor_shiftl_add a b k :
  0 <= k -> 0 <= b < 2 ^ k -> Z.lor (Z.shiftl a k) b = a * 2 ^ k + b.
Proof.
  intros Hk Hb.
  assert (H0 : Z.land (Z.shiftl a k) b = 0).
  { apply Z.bits_inj'. intros i Hi. rewrite Z.land_spec, Z.bits_0.
    destruct (Z.lt_ge_cases i k).
    - by rewrite Z.shiftl_spec_low by lia.
    - rewrite <- (Z.mod_small b (2 ^ k)), Z.mod_pow2_bits_high by lia. apply andb_false_r. }
  rewrite <- Z.lxor_lor, <- Z.add_nocarry_lxor by done. by rewrite Z.shiftl_mul_pow2.
Qed.

(** [a * 2^k | b], for a small [b]. *)
Lemma lor_add a b k : 0 <= k -> 0 <= b < 2 ^ k -> Z.lor (a * 2 ^ k) b = a * 2 ^ k + b.
Proof. intros. rewrite <- Z.shiftl_mul_pow2 at 1 by done. by apply lor_shiftl_add. Qed.

(** Masking and shifting down and up again loses nothing of a mask that ends there. *)
Lemma shift_mask x m s :
  0 <= s -> m = Z.shiftl (Z.shiftr m s) s -> Z.shiftl (Z.shiftr (Z.land x m) s) s = Z.land x m.
Proof.
  intros Hs Hm. apply Z.bits_inj'. intros i Hi. destruct (Z.lt_ge_cases i s) as [Hlt|Hge].
  - rewrite Z.shiftl_spec_low, Z.land_spec, Hm, Z.shiftl_spec_low by done. by rewrite andb_false_r.
  - rewrite Z.shiftl_spec, Z.shiftr_spec by lia. by replace (i - s + s) with i by lia.
Qed.

(** A property of bytes that evaluation decides. *)
Lemma byte_check (f : Z -> bool) n :
  forallb f (map Z.of_nat (seq 0 256)) = true -> is_byte n -> f n = true.
Proof.
  intros H Hn. rewrite forallb_forall in H. apply H, in_map_iff.
  exists (Z.to_nat n). unfold is_byte in Hn. split; [lia|]. apply in_seq. lia.
Qed.

(** Lengths of literal lists. *)
Ltac zlen_simpl :=
  rewrite ?zlen_app in *;
  repeat match goal with
  | |- context [zlen [?x]] => change (zlen [x]) with 1
  | H : context [zlen [?x]] |- _ => change (zlen [x]) with 1 in H
  end;
  rewrite ?zlen_cons in *; repeat change (zlen (@nil Z)) with 0 in *.

(** ** Machine integers *)

Definition u8 (x : Z) : Z := x mod 2^8.
Definition u16 (x : Z) : Z := x mod 2^16.
Definition u32 (x : Z) : Z := x mod 2^32.
Definition u64 (x : Z) : Z := x mod 2^64.
Definition s8 (x : Z) : Z := (x + 2^7) mod 2^8 - 2^7.
Definition s32 (x : Z) : Z := (x + 2^31) mod 2^32 - 2^31.
Definition s64 (x : Z) : Z := (x + 2^63) mod 2^64 - 2^63.

Lemma u8_range x : 0 <= u8 x < 2 ^ 8.
Proof. by apply Z.mod_pos_bound. Qed.

Lemma u16_range x : 0 <= u16 x < 2 ^ 16.
Proof. by apply Z.mod_pos_bound. Qed.

Lemma u32_range x : 0 <= u32 x < 2 ^ 32.
Proof. by apply Z.mod_pos_bound. Qed.

Lemma u64_id x : 0 <= x < 2 ^ 64 -> u64 x = x.
Proof. apply Z.mod_small. Qed.

Lemma s64_id x : - 2 ^ 63 <= x < 2 ^ 63 -> s64 x = x.
Proof. intros. unfold s64. rewrite Z.mod_small by lia. lia. Qed.

Lemma s32_id x : - 2 ^ 31 <= x < 2 ^ 31 -> s32 x = x.
Proof. intros. unfold s32. rewrite Z.mod_small; lia. Qed.

(** [isspace] of <ctype.h> in the C locale. *)
Definition isspace (c : Z) : bool := ((9 <=? c) && (c <=? 13)) || (c =? 32).

(** [errno] values (the ones whose number is the same on every platform the
    launcher builds for keep it; the others have the Linux number). *)
Definition ENOENT : Z := 2.
Definition EBADF : Z := 9.
Definition EEXIST : Z := 17.
Definition ENODEV : Z := 19.
Definition EISDIR : Z := 21.
Definition EINVAL : Z := 22.
Definition EMFILE : Z := 24.
Definition ENOSPC : Z := 28.
Definition ENAMETOOLONG : Z := 36.
Definition EMSGSIZE : Z := 90.
Definition EAFNOSUPPORT : Z := 97.
