(* ===== verification/CString.v ===== *)
(** * C strings: strlcpy, strlcat, strcasecmp, strncasecmp, strsep, strtok_r

    [upstream-openbsd/lib/libc/string/strlcpy.c] and [strlcat.c] (compiled into
    the linker by [mcpelauncher-linker/CMakeLists.txt] where the host libc has
    no such functions) and [strcasecmp.c], [strsep.c], [strtok.c] of the same
    directory. A string is a byte list and an offset; a pointer that the
    function advances is an offset; the written buffer is the state. *)
From S2P Require Import Prelude.

(** ** strlcpy.c *)

(** [while (--nleft != 0) { if (( *dst++ = *src++) == '\0') break; }] *)
Definition strlcpy_copy (src : list Z) '((d, s, nleft) : Z * Z * Z)
    : M (list Z) (step (Z * Z * Z) (Z * Z * Z)) :=
  let nleft := nleft - 1 in
  if nleft =? 0 then mret (Done (d, s, nleft))
  else
    c ← rd src s;
    wr d c;;
    if c =? 0 then mret (Done (d + 1, s + 1, nleft))
    else mret (Next (d + 1, s + 1, nleft)).

(** [while ( *src++) ;] *)
Definition str_skip {S} (src : list Z) (s : Z) : M S (step Z Z) :=
  c ← rd src s;
  if c =? 0 then mret (Done (s + 1)) else mret (Next (s + 1)).

Definition strlcpy (src : list Z) (dsize : Z) : M (list Z) Z :=
  '(d, s, nleft) ←
    (if negb (dsize =? 0)
     then loop (Z.to_nat dsize) (strlcpy_copy src) (0, 0, dsize)
     else mret (0, 0, dsize));
  s ←
    (if nleft =? 0 then
       (if negb (dsize =? 0) then wr d 0 else mret tt);;
       loop (Datatypes.S (length src)) (str_skip src) s
     else mret s);
  mret (s - 1).

(** ** strlcat.c *)

(** [while (n-- != 0 && *dst != '\0') dst++;] *)
Definition strlcat_end '((d, n) : Z * Z) : M (list Z) (step (Z * Z) Z) :=
  if n =? 0 then mret (Done d)
  else
    c ← rdS d;
    if c =? 0 then mret (Done d) else mret (Next (d + 1, n - 1)).

(** [while ( *src != '\0') { if (n != 0) { *dst++ = *src; n--; } src++; }] *)
Definition strlcat_copy (src : list Z) '((d, s, n) : Z * Z * Z)
    : M (list Z) (step (Z * Z * Z) (Z * Z)) :=
  c ← rd src s;
  if c =? 0 then mret (Done (d, s))
  else if negb (n =? 0) then
    wr d c;; mret (Next (d + 1, s + 1, n - 1))
  else mret (Next (d, s + 1, n)).

(** [strlen(s)] of the Standard Library. *)
Definition strlen {S} (s : list Z) : M S Z :=
  e ← loop (Datatypes.S (length s)) (str_skip s) 0;
  mret (e - 1).

Definition strlcat (src : list Z) (dsize : Z) : M (list Z) Z :=
  dlen ← loop (Datatypes.S (Z.to_nat dsize)) strlcat_end (0, dsize);
  let n := dsize - dlen in
  if n =? 0 then l ← strlen src; mret (dlen + l)
  else
    '(d, s) ← loop (Datatypes.S (length src)) (strlcat_copy src) (dlen, 0, n - 1);
    wr d 0;;
    mret (dlen + s).

(** ** strcasecmp.c *)

(** The table: upper-case letters are mapped to lower case, every other byte
    to itself. The rows are those of the C initialiser. *)
Definition charmap : list Z :=
  [0; 1; 2; 3; 4; 5; 6; 7; 8; 9; 10; 11; 12; 13; 14; 15;
   16; 17; 18; 19; 20; 21; 22; 23; 24; 25; 26; 27; 28; 29; 30; 31;
   32; 33; 34; 35; 36; 37; 38; 39; 40; 41; 42; 43; 44; 45; 46; 47;
   48; 49; 50; 51; 52; 53; 54; 55; 56; 57; 58; 59; 60; 61; 62; 63;
   64; 97; 98; 99; 100; 101; 102; 103; 104; 105; 106; 107; 108; 109; 110; 111;
   112; 113; 114; 115; 116; 117; 118; 119; 120; 121; 122; 91; 92; 93; 94; 95;
   96; 97; 98; 99; 100; 101; 102; 103; 104; 105; 106; 107; 108; 109; 110; 111;
   112; 113; 114; 115; 116; 117; 118; 119; 120; 121; 122; 123; 124; 125; 126; 127;
   128; 129; 130; 131; 132; 133; 134; 135; 136; 137; 138; 139; 140; 141; 142; 143;
   144; 145; 146; 147; 148; 149; 150; 151; 152; 153; 154; 155; 156; 157; 158; 159;
   160; 161; 162; 163; 164; 165; 166; 167; 168; 169; 170; 171; 172; 173; 174; 175;
   176; 177; 178; 179; 180; 181; 182; 183; 184; 185; 186; 187; 188; 189; 190; 191;
   192; 193; 194; 195; 196; 197; 198; 199; 200; 201; 202; 203; 204; 205; 206; 207;
   208; 209; 210; 211; 212; 213; 214; 215; 216; 217; 218; 219; 220; 221; 222; 223;
   224; 225; 226; 227; 228; 229; 230; 231; 232; 233; 234; 235; 236; 237; 238; 239;
   240; 241; 242; 243; 244; 245; 246; 247; 248; 249; 250; 251; 252; 253; 254; 255].

Section casecmp.
Context {S : Type}.

(** [while (cm[ *us1] == cm[ *us2++]) if ( *us1++ == '\0') return (0);
    return (cm[ *us1] - cm[ *--us2]);] *)
Definition strcasecmp_step (s1 s2 : list Z) '((us1, us2) : Z * Z) : M S (step (Z * Z) Z) :=
  a ← rd s1 us1;
  b ← rd s2 us2;
  ca ← rd charmap a;
  cb ← rd charmap b;
  if ca =? cb then
    if a =? 0 then mret (Done 0) else mret (Next (us1 + 1, us2 + 1))
  else mret (Done (ca - cb)).

Definition strcasecmp (s1 s2 : list Z) (o1 o2 : Z) : M S Z :=
  loop (Datatypes.S (length s1)) (strcasecmp_step s1 s2) (o1, o2).

(** The [do ... while (--n != 0)] of [strncasecmp]. *)
Definition strncasecmp_step (s1 s2 : list Z) '((us1, us2, n) : Z * Z * Z)
    : M S (step (Z * Z * Z) Z) :=
  a ← rd s1 us1;
  b ← rd s2 us2;
  ca ← rd charmap a;
  cb ← rd charmap b;
  if negb (ca =? cb) then mret (Done (ca - cb))
  else if a =? 0 then mret (Done 0)
  else
    let n := n - 1 in
    if negb (n =? 0) then mret (Next (us1 + 1, us2 + 1, n)) else mret (Done 0).

Definition strncasecmp (s1 s2 : list Z) (o1 o2 n : Z) : M S Z :=
  if negb (n =? 0) then
    loop (Datatypes.S (Z.to_nat n)) (strncasecmp_step s1 s2) (o1, o2, n)
  else mret 0.
End casecmp.

(** ** strcmp.c *)

(** [while ( *s1 == *s2++) if ( *s1++ == 0) return (0);
    return ( *(unsigned char * )s1 - *(unsigned char * )--s2);] *)
Definition strcmp_step {S} (s1 s2 : list Z) (i : Z) : M S (step Z Z) :=
  a ← rd s1 i;
  b ← rd s2 i;
  if a =? b then
    if a =? 0 then mret (Done 0) else mret (Next (i + 1))
  else mret (Done (a - b)).

Definition strcmp {S} (s1 s2 : list Z) : M S Z := loop (Datatypes.S (length s1)) (strcmp_step s1 s2) 0.

(** ** strsep.c and strtok.c *)

(** [do { if ((sc = *spanp++) == c) ...found... } while (sc != 0);] tells
    whether [c] is one of [delim]'s characters, its terminator included. *)
Definition span_step {S} (delim : list Z) (c : Z) (spanp : Z) : M S (step Z bool) :=
  sc ← rd delim spanp;
  if sc =? c then mret (Done true)
  else if negb (sc =? 0) then mret (Next (spanp + 1)) else mret (Done false).

Definition span {S} (delim : list Z) (c : Z) : M S bool :=
  loop (Datatypes.S (length delim)) (span_step delim c) 0.

(** The scan of a token: the state is the string, [s] the next character;
    the result is the new [*stringp] ([None] for NULL). *)
Definition token_step (delim : list Z) (s : Z) : M (list Z) (step Z (option Z)) :=
  c ← rdS s;
  let s := s + 1 in
  found ← span delim c;
  if found : bool then
    if c =? 0 then mret (Done None)
    else wr (s - 1) 0;; mret (Done (Some s))
  else mret (Next s).

Definition scan_token (delim : list Z) (s : Z) : M (list Z) (option Z) :=
  b ← getS;
  loop (Datatypes.S (length b)) (token_step delim) s.

(** The result is the token and the new value of [*stringp]. *)
Definition strsep (delim : list Z) (stringp : option Z) : M (list Z) (option Z * option Z) :=
  match stringp with
  | None => mret (None, None)
  | Some s => next ← scan_token delim s; mret (Some s, next)
  end.

(** [for (spanp = delim; (sc = *spanp++) != 0;) if (c == sc) goto cont;] *)
Definition cont_step {S} (delim : list Z) (c : Z) (spanp : Z) : M S (step Z bool) :=
  sc ← rd delim spanp;
  if sc =? 0 then mret (Done false)
  else if c =? sc then mret (Done true) else mret (Next (spanp + 1)).

(** The [cont:] loop that skips leading delimiters; it leaves with the first
    other character and the pointer behind it. *)
Definition skip_delims (delim : list Z) (s : Z) : M (list Z) (step Z (Z * Z)) :=
  c ← rdS s;
  let s := s + 1 in
  again ← loop (Datatypes.S (length delim)) (cont_step delim c) 0;
  if again : bool then mret (Next s) else mret (Done (c, s)).

(** The result is the token and the new value of [*last]. *)
Definition strtok_r (s : option Z) (delim : list Z) (last : option Z)
    : M (list Z) (option Z * option Z) :=
  match (match s with Some s => Some s | None => last end) with
  | None => mret (None, last)
  | Some s =>
      b ← getS;
      '(c, s) ← loop (Datatypes.S (length b)) (skip_delims delim) s;
      if c =? 0 then mret (None, None)
      else
        let tok := s - 1 in
        next ← scan_token delim s;
        mret (Some tok, next)
  end.

(** ** strchr *)

(** The position of the first [c] in the string at [buf], if there is one. *)
Definition strchr_step {S} (buf : list Z) (c i : Z) : M S (step Z (option Z)) :=
  x ← rd buf i;
  if x =? c then mret (Done (Some i))
  else if x =? 0 then mret (Done None) else mret (Next (i + 1)).

Definition strchr {S} (buf : list Z) (c : Z) : M S (option Z) := loop (Datatypes.S (length buf)) (strchr_step buf c) 0.

(** ** Specifications *)

(** [cstr mem off t]: the C string [t] is stored in [mem] from [off] on: its
    characters are not NUL and a NUL follows them. *)
Definition cstr (mem : list Z) (off : Z) (t : list Z) : Prop :=
  0 <= off /\
  (forall i, 0 <= i < zlen t ->
     exists c, znth t i = Some c /\ c <> 0 /\ znth mem (off + i) = Some c) /\
  znth mem (off + zlen t) = Some 0.

(** What [strlcpy] leaves in a buffer [b] of size [dsize]. *)
Definition strlcpy_buf (b t : list Z) (dsize : Z) : list Z :=
  splice b 0 (ztake (Z.min (zlen t) (dsize - 1)) t ++ [0]).

Section cstr.
Implicit Types (mem t src b : list Z).

Lemma cstr_len mem off t : cstr mem off t -> off + zlen t < zlen mem.
Proof. intros (_ & _ & H). apply znth_Some in H. lia. Qed.

Lemma cstr_nul mem off t : cstr mem off t -> znth mem (off + zlen t) = Some 0.
Proof. by intros (_ & _ & H). Qed.

Lemma cstr_at mem off t i :
  cstr mem off t -> 0 <= i < zlen t ->
  exists c, znth t i = Some c /\ c <> 0 /\ znth mem (off + i) = Some c.
Proof. intros (_ & H & _). apply H. Qed.

(** The first character of a string and the string behind it. *)
Lemma cstr_head mem off t :
  cstr mem off t -> bytes mem ->
  exists c, is_byte c /\ znth mem off = Some c /\
    match t with
    | [] => c = 0
    | d :: t' => c = d /\ c <> 0 /\ cstr mem (off + 1) t'
    end.
Proof.
  intros (Ho & Hc & Hn) Hb. destruct t as [|d t].
  - rewrite zlen_nil, Z.add_0_r in Hn. exists 0. by split_and!.
  - rewrite zlen_cons in *. pose proof (zlen_nonneg t).
    destruct (Hc 0) as (c & [= <-] & Hc0 & Hm); [lia|]. rewrite Z.add_0_r in Hm.
    exists d. split_and!; try done; [by eapply bytes_znth|]. split; [lia|split].
    + intros i Hi. destruct (Hc (i + 1)) as (c & G & ? & ?); [lia|].
      rewrite znth_cons_S, Z.add_simpl_r in G by lia. exists c.
      by replace (off + 1 + i) with (off + (i + 1)) by lia.
    + by replace (off + 1 + zlen t) with (off + (zlen t + 1)) by lia.
Qed.

Lemma cstr_intro t q : Forall (fun c => c <> 0) t -> cstr (t ++ 0 :: q) 0 t.
Proof.
  intros Ht. split; [lia|]. split.
  - intros i Hi. destruct (znth_lt t i Hi) as [c Hc]. exists c. split; [done|].
    rewrite znth_app_l by lia. split; [|done].
    unfold znth in Hc. destruct (i <? 0); [done|]. exact (Forall_lookup_1 _ _ _ _ Ht Hc).
  - apply znth_middle.
Qed.

Lemma cstr_zdrop b line t : cstr b line t -> cstr (zdrop line b) 0 t.
Proof.
  intros (Hl & Hc & Hn). pose proof (zlen_nonneg t). split; [lia|]. split.
  - intros i Hi. destruct (Hc i Hi) as (c & H1 & H2 & H3). exists c.
    rewrite znth_zdrop by lia. rewrite Z.add_0_l. done.
  - rewrite znth_zdrop by lia. by rewrite Z.add_0_l.
Qed.

(** The end of a string is found by skipping its characters. *)
Lemma wp_str_skip {S} src t s fuel (st : S) E :
  cstr src 0 t -> 0 <= s <= zlen t -> zlen t - s < Z.of_nat fuel ->
  wp (loop fuel (str_skip src) s) st (fun r st' => r = zlen t + 1 /\ st' = st) E.
Proof.
  intros Hc Hs Hf.
  apply (wp_loop (fun s' st' => 0 <= s' <= zlen t /\ st' = st)
                 (fun s' _ => Z.to_nat (zlen t - s'))); [done|lia|].
  intros s' ? [Hs' ->]. unfold str_skip. wp_step.
  destruct (decide (s' = zlen t)) as [->|Hne].
  - apply (wp_rd _ _ _ _ _ 0); [by apply (cstr_nul _ 0)|]. cbn. done.
  - destruct (cstr_at src 0 t s' Hc) as (c & _ & Hc0 & Hr); [lia|].
    apply (wp_rd _ _ _ _ _ c); [done|]. rewrite (proj2 (Z.eqb_neq _ _)) by done.
    apply wp_ret. split_and!; try lia; done.
Qed.

Lemma wp_strlen {S} src t (st : S) E :
  cstr src 0 t -> wp (strlen src) st (fun r st' => r = zlen t /\ st' = st) E.
Proof.
  intros Hc. pose proof (cstr_len _ _ _ Hc). pose proof (zlen_nonneg t).
  unfold strlen. wp_step. eapply wp_conseq; [apply (wp_str_skip _ t); [done|lia|]|].
  - unfold zlen in *. lia.
  - intros r st' [-> ->]. apply wp_ret. split; [lia|done].
Qed.

Lemma wp_strlcpy_copy src t b dsize E :
  cstr src 0 t -> 0 < dsize <= zlen b ->
  wp (loop (Z.to_nat dsize) (strlcpy_copy src) (0, 0, dsize)) b
     (fun '(d, s, nleft) b' =>
        (nleft = 0 /\ d = dsize - 1 /\ s = dsize - 1 /\ dsize - 1 <= zlen t /\
           b' = splice b 0 (ztake s t)) \/
        (nleft <> 0 /\ s = zlen t + 1 /\ zlen t < dsize - 1 /\ b' = splice b 0 (t ++ [0]))) E.
Proof.
  intros Hc Hd. pose proof (zlen_nonneg t).
  apply (wp_loop (fun '(d, s, n) b' => d = s /\ n = dsize - s /\ 0 <= s <= zlen t /\
                    s < dsize /\ b' = splice b 0 (ztake s t))
                 (fun '(d, s, n) _ => (Z.to_nat n - 1)%nat)).
  { split_and!; try lia. symmetry. apply splice_nil. }
  { lia. }
  intros [[d s] n] b' (-> & -> & Hs & Hsd & ->). unfold strlcpy_copy. cbn beta iota.
  assert (Hl : zlen (ztake s t) = s) by (apply zlen_ztake; lia).
  assert (Hb : zlen (splice b 0 (ztake s t)) = zlen b) by (apply zlen_splice; lia).
  destruct (Z.eqb_spec (dsize - s - 1) 0) as [Hz|Hz].
  { apply wp_ret. left. split_and!; try lia; done. }
  wp_step. destruct (decide (s = zlen t)) as [He|Hne].
  - apply (wp_rd _ _ _ _ _ 0); [rewrite He; by apply (cstr_nul _ 0)|].
    wp_step. wp_step; [lia|]. cbn. right. split_and!; try lia.
    rewrite splice_snoc_alt by lia.
    by rewrite He, ztake_all.
  - destruct (cstr_at src 0 t s Hc) as (c & Ht & Hc0 & Hr); [lia|].
    apply (wp_rd _ _ _ _ _ c); [done|]. wp_step. wp_step; [lia|].
    rewrite (proj2 (Z.eqb_neq _ _)) by done. apply wp_ret. split_and!; try lia.
    rewrite splice_snoc_alt by lia.
    by rewrite <- (ztake_snoc _ _ _ Ht).
Qed.

Lemma wp_strlcpy src t b dsize E :
  cstr src 0 t -> 0 <= dsize <= zlen b ->
  wp (strlcpy src dsize) b
     (fun r b' => r = zlen t /\ b' = if dsize =? 0 then b else strlcpy_buf b t dsize) E.
Proof.
  intros Hc Hd. pose proof (cstr_len _ _ _ Hc). pose proof (zlen_nonneg t).
  assert (Hf : forall s, 0 <= s -> zlen t - s < Z.of_nat (S (length src)))
    by (unfold zlen in *; lia).
  unfold strlcpy. wp_step. destruct (Z.eqb_spec dsize 0) as [->|Hnz].
  - cbn. do 5 wp_step.
    eapply wp_conseq; [apply (wp_str_skip _ t); [done|lia|by apply Hf]|].
    intros r st [-> ->]. apply wp_ret. split; [lia|done].
  - cbn [negb]. eapply wp_conseq; [apply wp_strlcpy_copy; [done|lia]|].
    intros [[d s] n] b' [(-> & -> & -> & Hle & ->)|(Hn & -> & Hlt & ->)].
    + cbn. wp_step. wp_step.
      assert (Hl : zlen (ztake (dsize - 1) t) = dsize - 1) by (apply zlen_ztake; lia).
      wp_step; [rewrite zlen_splice; lia|].
      eapply wp_conseq; [apply (wp_str_skip _ t); [done|lia|apply Hf; lia]|].
      intros r st [-> ->]. apply wp_ret. split; [lia|].
      rewrite splice_snoc_alt by lia. unfold strlcpy_buf. by rewrite Z.min_r by lia.
    + rewrite (proj2 (Z.eqb_neq _ _) Hn). wp_step. wp_step. split; [lia|].
      unfold strlcpy_buf. by rewrite Z.min_l, ztake_all by lia.
Qed.
End cstr.

(** ** strlcat *)

Section strlcat.
Implicit Types (mem t d src b : list Z).

(** The first loop stops at the end of the string in the buffer. *)
Lemma wp_strlcat_end b d dsize E :
  cstr b 0 d -> zlen d < dsize ->
  wp (loop (S (Z.to_nat dsize)) strlcat_end (0, dsize)) b
     (fun r b' => r = zlen d /\ b' = b) E.
Proof.
  intros Hc Hd. pose proof (zlen_nonneg d).
  apply (wp_loop (fun '(i, n) b' => n = dsize - i /\ 0 <= i <= zlen d /\ b' = b)
                 (fun '(i, n) _ => Z.to_nat n)); [split_and!; try lia; done|lia|].
  intros [i n] b' (-> & Hi & ->). unfold strlcat_end.
  rewrite (proj2 (Z.eqb_neq _ _)) by lia. wp_step. unfold rdS.
  destruct (decide (i = zlen d)) as [->|Hne].
  - apply (wp_rd _ _ _ _ _ 0); [by apply (cstr_nul _ 0)|]. by cbn.
  - destruct (cstr_at b 0 d i Hc) as (c & _ & Hc0 & Hr); [lia|].
    apply (wp_rd _ _ _ _ _ c); [done|]. rewrite (proj2 (Z.eqb_neq _ _)) by done.
    wp_step. split_and!; try lia; done.
Qed.

(** Without a NUL among the first [dsize] bytes it stops there. *)
Lemma wp_strlcat_end_full b dsize E :
  0 <= dsize <= zlen b -> (forall i, 0 <= i < dsize -> znth b i <> Some 0) ->
  wp (loop (S (Z.to_nat dsize)) strlcat_end (0, dsize)) b
     (fun r b' => r = dsize /\ b' = b) E.
Proof.
  intros Hd Hc.
  apply (wp_loop (fun '(i, n) b' => n = dsize - i /\ 0 <= i <= dsize /\ b' = b)
                 (fun '(i, n) _ => Z.to_nat n)); [split_and!; try lia; done|lia|].
  intros [i n] b' (-> & Hi & ->). unfold strlcat_end. wp_step.
  { wp_step. split; [lia|done]. }
  wp_step. unfold rdS. apply wp_rd_lt; [lia|]. intros c Hr.
  destruct (Z.eqb_spec c 0) as [->|Hne].
  - by apply Hc in Hr; [|lia].
  - wp_step. split_and!; try lia; done.
Qed.

(** The append loop copies the characters that fit and counts all of them. *)
Lemma wp_strlcat_copy src t b o k E :
  cstr src 0 t -> 0 <= o -> 0 <= k -> o + k < zlen b ->
  wp (loop (S (length src)) (strlcat_copy src) (o, 0, k)) b
     (fun '(d, s) b' => s = zlen t /\ d = o + Z.min (zlen t) k /\
                        b' = splice b o (ztake (Z.min (zlen t) k) t)) E.
Proof.
  intros Hc Ho Hk Hb. pose proof (zlen_nonneg t). pose proof (cstr_len _ _ _ Hc).
  apply (wp_loop (fun '(d, s, n) b' => 0 <= s <= zlen t /\ d = o + Z.min s k /\
                    n = k - Z.min s k /\ b' = splice b o (ztake (Z.min s k) t))
                 (fun '(d, s, n) _ => Z.to_nat (zlen t - s))).
  { split_and!; try lia. rewrite Z.min_l by lia. symmetry. apply splice_nil. }
  { unfold zlen in *. lia. }
  intros [[d s] n] b' (Hs & -> & -> & ->). unfold strlcat_copy. wp_step.
  destruct (decide (s = zlen t)) as [->|Hne].
  { apply (wp_rd _ _ _ _ _ 0); [by apply (cstr_nul _ 0)|]. by cbn. }
  destruct (cstr_at src 0 t s Hc) as (c & Ht & Hc0 & Hr); [lia|].
  apply (wp_rd _ _ _ _ _ c); [done|]. rewrite (proj2 (Z.eqb_neq _ _)) by done.
  assert (Hl : zlen (ztake (Z.min s k) t) = Z.min s k) by (apply zlen_ztake; lia).
  destruct (Z.eqb_spec (k - Z.min s k) 0) as [Hz|Hz]; cbn [negb].
  - wp_step. split_and!; try lia.
    by replace (Z.min (s + 1) k) with (Z.min s k) by lia.
  - wp_step. wp_step; [rewrite zlen_splice; lia|]. wp_step. split_and!; try lia.
    rewrite splice_snoc_alt by lia.
    replace (Z.min (s + 1) k) with (s + 1) by lia.
    replace (Z.min s k) with s by lia. by rewrite <- (ztake_snoc _ _ _ Ht).
Qed.

Lemma wp_strlcat src t b d dsize E :
  cstr src 0 t -> cstr b 0 d -> zlen d < dsize <= zlen b ->
  wp (strlcat src dsize) b
     (fun r b' => r = zlen d + zlen t /\
        b' = splice b (zlen d) (ztake (Z.min (zlen t) (dsize - 1 - zlen d)) t ++ [0])) E.
Proof.
  intros Hc Hd Hs. pose proof (zlen_nonneg t). pose proof (zlen_nonneg d).
  unfold strlcat. wp_step. eapply wp_conseq; [apply (wp_strlcat_end b d); [done|lia]|].
  intros r b' [-> ->]. cbn beta zeta. rewrite (proj2 (Z.eqb_neq _ _)) by lia. wp_step.
  eapply wp_conseq; [apply wp_strlcat_copy; [done|lia|lia|lia]|].
  intros [p s] b' (-> & -> & ->).
  replace (dsize - zlen d - 1) with (dsize - 1 - zlen d) by lia.
  assert (Hl : zlen (ztake (Z.min (zlen t) (dsize - 1 - zlen d)) t) =
               Z.min (zlen t) (dsize - 1 - zlen d)) by (apply zlen_ztake; lia).
  wp_step. wp_step; [rewrite zlen_splice; lia|]. wp_step. split; [done|].
  by rewrite splice_snoc_alt by lia.
Qed.

Lemma wp_strlcat_full src t b dsize E :
  cstr src 0 t -> 0 <= dsize <= zlen b ->
  (forall i, 0 <= i < dsize -> znth b i <> Some 0) ->
  wp (strlcat src dsize) b (fun r b' => r = dsize + zlen t /\ b' = b) E.
Proof.
  intros Hc Hs Hd. unfold strlcat. wp_step.
  eapply wp_conseq; [by apply wp_strlcat_end_full|].
  intros r b' [-> ->]. cbn beta zeta. rewrite Z.sub_diag. cbn. wp_step.
  eapply wp_conseq; [by apply wp_strlen|]. intros r st [-> ->]. by wp_step.
Qed.

(** What [strlcpy] writes is a string again. *)
Lemma cstr_strlcpy_buf b t mem off dsize :
  cstr mem off t -> 0 < dsize <= zlen b ->
  cstr (strlcpy_buf b t dsize) 0 (ztake (Z.min (zlen t) (dsize - 1)) t).
Proof.
  intros Hc Hd. pose proof (zlen_nonneg t). unfold strlcpy_buf.
  set (k := Z.min (zlen t) (dsize - 1)).
  assert (Hl : zlen (ztake k t) = k) by (apply zlen_ztake; lia).
  rewrite splice_0, <- app_assoc. apply cstr_intro.
  apply Forall_take, Forall_lookup. intros i c Hi.
  pose proof (lookup_lt_Some _ _ _ Hi).
  destruct (cstr_at mem off t (Z.of_nat i) Hc) as (c' & Ht & Hc' & _); [unfold zlen; lia|].
  unfold znth in Ht. destruct (Z.ltb_spec (Z.of_nat i) 0); [lia|].
  rewrite Nat2Z.id in Ht. congruence.
Qed.
End strlcat.

(** ** strcasecmp *)

(** [tolower] in the C locale, and the order the comparisons compute. *)
Definition lower (c : Z) : Z := if (65 <=? c) && (c <=? 90) then c + 32 else c.

Fixpoint casecmp (t1 t2 : list Z) : Z :=
  match t1, t2 with
  | [], [] => 0
  | [], d :: _ => - lower d
  | c :: _, [] => lower c
  | c :: t1, d :: t2 =>
      if lower c =? lower d then casecmp t1 t2 else lower c - lower d
  end.

Section casecmp_lemmas.
Context {S : Type}.
Implicit Types (mem t : list Z) (st : S).

Lemma charmap_lower c : is_byte c -> znth charmap c = Some (lower c).
Proof.
  intros Hc. apply (bool_decide_eq_true (znth charmap c = Some (lower c))).
  exact (byte_check (fun c => bool_decide (znth charmap c = Some (lower c))) c eq_refl Hc).
Qed.

Lemma lower_0 c : is_byte c -> lower c = 0 -> c = 0.
Proof.
  unfold lower, is_byte. intros H. destruct (Z.leb_spec 65 c), (Z.leb_spec c 90); cbn; lia.
Qed.

Lemma casecmp_0 t1 t2 :
  Forall (fun c => is_byte c /\ c <> 0) t1 -> Forall (fun c => is_byte c /\ c <> 0) t2 ->
  casecmp t1 t2 = 0 <-> map lower t1 = map lower t2.
Proof.
  intros H1. revert t2. induction H1 as [|c t1 [Hc Hc0] H1 IH]; intros [|d t2] H2; cbn.
  - done.
  - inversion H2 as [|? ? [Hd Hd0]]; subst. split; [|done]. intros He.
    destruct Hd0. apply lower_0; [done|lia].
  - split; [|done]. intros He. destruct Hc0. by apply lower_0.
  - inversion H2 as [|? ? [Hd Hd0]]; subst. destruct (Z.eqb_spec (lower c) (lower d)) as [->|Hne].
    + rewrite IH by done. split; [by intros ->|]. intros [= ?]. done.
    + split; [lia|]. intros [= ? ?]. done.
Qed.

(** One comparison of [strcasecmp] and [strncasecmp]. *)
Lemma wp_casecmp_reads {A} s1 s2 o1 o2 a b (k : Z -> Z -> Z -> M S A) st Q E :
  is_byte a -> is_byte b -> znth s1 o1 = Some a -> znth s2 o2 = Some b ->
  wp (k a (lower a) (lower b)) st Q E ->
  wp (a ← rd s1 o1; b ← rd s2 o2; ca ← rd charmap a; cb ← rd charmap b; k a ca cb) st Q E.
Proof.
  intros Ha Hb H1 H2 Hk.
  wp_step; eapply wp_rd; [exact H1|]. wp_step; eapply wp_rd; [exact H2|].
  wp_step; eapply wp_rd; [by apply charmap_lower|].
  wp_step; eapply wp_rd; [by apply charmap_lower|]. done.
Qed.

Lemma wp_strcasecmp_loop s1 s2 t1 t2 o1 o2 fuel st E :
  bytes s1 -> bytes s2 -> cstr s1 o1 t1 -> cstr s2 o2 t2 -> (length t1 < fuel)%nat ->
  wp (loop fuel (strcasecmp_step s1 s2) (o1, o2)) st
     (fun r st' => r = casecmp t1 t2 /\ st' = st) E.
Proof.
  intros Hb1 Hb2. revert t2 o1 o2 fuel.
  induction t1 as [|a t1 IH]; intros t2 o1 o2 [|fuel] H1 H2 Hf; cbn in Hf; try lia;
    apply wp_loop_S; destruct (cstr_head _ _ _ H1 Hb1) as (x & Hx & Hr1 & H1');
    destruct (cstr_head _ _ _ H2 Hb2) as (y & Hy & Hr2 & H2');
    (eapply wp_casecmp_reads; [exact Hx|exact Hy|exact Hr1|exact Hr2|]);
    destruct t2 as [|b t2]; repeat match goal with H : _ /\ _ |- _ => destruct H end; subst; cbn [casecmp].
  - done.
  - destruct (Z.eqb_spec (lower 0) (lower b)) as [He|He].
    + exfalso. match goal with H : b <> 0 |- _ => destruct H; apply lower_0; [done|by rewrite <- He] end.
    + by wp_step.
  - destruct (Z.eqb_spec (lower a) (lower 0)) as [He|He].
    + exfalso. match goal with H : a <> 0 |- _ => destruct H; apply lower_0; [done|by rewrite He] end.
    + wp_step. split; [cbn; lia|done].
  - destruct (Z.eqb_spec (lower a) (lower b)) as [He|He]; cbn.
    + rewrite (proj2 (Z.eqb_neq _ _)) by done. wp_step. apply IH; [done|done|lia].
    + by wp_step.
Qed.

Lemma wp_strcasecmp s1 s2 o1 o2 t1 t2 st E :
  bytes s1 -> bytes s2 -> cstr s1 o1 t1 -> cstr s2 o2 t2 ->
  wp (strcasecmp s1 s2 o1 o2) st (fun r st' => r = casecmp t1 t2 /\ st' = st) E.
Proof.
  intros Hb1 Hb2 H1 H2. apply wp_strcasecmp_loop; [done..|].
  pose proof (cstr_len _ _ _ H1). destruct H1. unfold zlen in *. lia.
Qed.

(** [strncasecmp] on labels without NUL compares [n] characters. *)
Lemma wp_strncasecmp s1 s2 o1 o2 w1 w2 n st E :
  bytes s1 -> bytes s2 -> zlen w1 = n -> zlen w2 = n ->
  (forall i, 0 <= i < n -> znth s1 (o1 + i) = znth w1 i /\ znth s2 (o2 + i) = znth w2 i) ->
  Forall (fun c => c <> 0) w1 ->
  wp (strncasecmp s1 s2 o1 o2 n) st
     (fun r st' => (r = 0 <-> map lower w1 = map lower w2) /\ st' = st) E.
Proof.
  intros Hb1 Hb2 Hl1 Hl2 Hw Hn0. unfold strncasecmp. destruct (Z.eqb_spec n 0) as [->|Hnz].
  { cbn. wp_step. destruct w1, w2; done. }
  cbn [negb]. assert (Hf : (length w1 < Datatypes.S (Z.to_nat n))%nat) by (unfold zlen in *; lia).
  revert Hf. generalize (Datatypes.S (Z.to_nat n)) as fuel. intros fuel.
  revert w2 o1 o2 n fuel Hl1 Hl2 Hw Hnz.
  induction Hn0 as [|a w1 Ha0 Hn0 IH]; intros [|b w2] o1 o2 n [|fuel] Hl1 Hl2 Hw Hnz Hf;
    rewrite ?zlen_nil, ?zlen_cons in *; cbn in Hf; try lia; try (pose proof (zlen_nonneg w1); lia).
  apply wp_loop_S. destruct (Hw 0) as [Hr1 Hr2]; [pose proof (zlen_nonneg w1); lia|].
  rewrite Z.add_0_r, znth_cons_0 in Hr1, Hr2.
  eapply (wp_casecmp_reads s1 s2 o1 o2 a b);
    [by apply (bytes_znth s1 o1)|by apply (bytes_znth s2 o2)|exact Hr1|exact Hr2|].
  cbn [map]. destruct (Z.eqb_spec (lower a) (lower b)) as [He|He]; cbn [negb].
  - rewrite (proj2 (Z.eqb_neq _ _)) by done. cbn zeta.
    destruct (Z.eqb_spec (n - 1) 0) as [Hz|Hz]; cbn [negb]; wp_step.
    + destruct w1, w2; rewrite ?zlen_cons in *;
        try (pose proof (zlen_nonneg w1)); try (pose proof (zlen_nonneg w2)); try lia.
      cbn. by rewrite He.
    + eapply wp_conseq; [apply (IH w2 _ _ (n - 1)); try lia|].
      * intros i Hi. destruct (Hw (i + 1)) as [G1 G2]; [lia|].
        rewrite !znth_cons_S, Z.add_simpl_r in * by lia.
        by rewrite <- G1, <- G2, <- !Z.add_assoc, (Z.add_comm 1).
      * intros r st' [Hr ->]. split; [|done]. rewrite Hr, He. split; [by intros ->|]. by intros [= ?].
  - wp_step. split; [|done]. split; [lia|]. intros [= ? ?]. done.
Qed.
End casecmp_lemmas.

(** ** strsep and strtok_r *)

(** The text up to the first delimiter and, if there is one, what follows it. *)
Fixpoint break_at (dl t : list Z) : list Z * option (list Z) :=
  match t with
  | [] => ([], None)
  | c :: t =>
      if bool_decide (c ∈ dl) then ([], Some t)
      else let '(p, r) := break_at dl t in (c :: p, r)
  end.

(** The text without its leading delimiters. *)
Fixpoint skip_leading (dl t : list Z) : list Z :=
  match t with
  | [] => []
  | c :: t' => if bool_decide (c ∈ dl) then skip_leading dl t' else t
  end.

(** What one scan from [s] over the string [t] returns and leaves in [b]. *)
Definition scanned (dl t : list Z) (s : Z) (b : list Z) (next : option Z) (b' : list Z) : Prop :=
  match break_at dl t with
  | (p, None) => next = None /\ b' = b /\ cstr b' s p
  | (p, Some q) =>
      next = Some (s + zlen p + 1) /\ b' = zupd b (s + zlen p) 0 /\
      cstr b' s p /\ cstr b' (s + zlen p + 1) q
  end.

Section tokens.
Implicit Types (delim dl t b p q : list Z).

Lemma cstr_cons_l mem off c t :
  cstr mem off (c :: t) -> c <> 0 /\ znth mem off = Some c /\ cstr mem (off + 1) t.
Proof.
  intros (Ho & Hc & Hn). rewrite zlen_cons in *. pose proof (zlen_nonneg t).
  destruct (Hc 0) as (d & [= <-] & Hc0 & Hm); [lia|]. rewrite Z.add_0_r in Hm.
  split_and!; try done. split; [lia|split].
  - intros i Hi. destruct (Hc (i + 1)) as (d & G & ? & ?); [lia|].
    rewrite znth_cons_S, Z.add_simpl_r in G by lia. exists d.
    by replace (off + 1 + i) with (off + (i + 1)) by lia.
  - by replace (off + 1 + zlen t) with (off + (zlen t + 1)) by lia.
Qed.

Lemma cstr_cons_r mem off c t :
  0 <= off -> c <> 0 -> znth mem off = Some c -> cstr mem (off + 1) t -> cstr mem off (c :: t).
Proof.
  intros Ho Hc0 Hm (_ & Hc & Hn). split; [done|]. rewrite zlen_cons. split.
  - intros i Hi. destruct (decide (i = 0)) as [->|Hne].
    + exists c. by rewrite Z.add_0_r.
    + destruct (Hc (i - 1)) as (d & G & ? & ?); [lia|]. exists d.
      rewrite znth_cons_S by lia. by replace (off + i) with (off + 1 + (i - 1)) by lia.
  - by replace (off + (zlen t + 1)) with (off + 1 + zlen t) by lia.
Qed.

Lemma cstr_nil_intro mem off : 0 <= off -> znth mem off = Some 0 -> cstr mem off [].
Proof.
  intros Ho Hn. split; [done|]. split.
  - intros i Hi. zlen_simpl. lia.
  - zlen_simpl. by rewrite Z.add_0_r.
Qed.

Lemma cstr_upd mem off t j v :
  cstr mem off t -> j < off \/ off + zlen t < j -> cstr (zupd mem j v) off t.
Proof.
  intros (Ho & Hc & Hn) Hj. pose proof (zlen_nonneg t). split; [done|]. split.
  - intros i Hi. destruct (Hc i Hi) as (c & ? & ? & ?). exists c.
    rewrite znth_zupd_ne by lia. done.
  - rewrite znth_zupd_ne by lia. done.
Qed.

Lemma wp_span {S} delim dl c (st : S) E :
  cstr delim 0 dl ->
  wp (span delim c) st (fun r st' => r = bool_decide (c = 0 \/ c ∈ dl) /\ st' = st) E.
Proof.
  intros Hd. unfold span.
  assert (Hf : (length dl < Datatypes.S (length delim))%nat).
  { pose proof (cstr_len _ _ _ Hd). unfold zlen in *. lia. }
  revert Hd Hf. generalize (Datatypes.S (length delim)) as fuel. generalize 0 at 1 2 as o.
  intros o fuel. revert o fuel. induction dl as [|d dl IH]; intros o [|fuel] Hd Hf; cbn in Hf; try lia;
    apply wp_loop_S; unfold span_step; wp_step.
  - eapply wp_rd; [rewrite <- (cstr_nul _ _ _ Hd); f_equal; zlen_simpl; lia|].
    destruct (Z.eqb_spec 0 c) as [<-|Hne]; cbn; wp_step; (split; [|done]).
    + symmetry. apply bool_decide_eq_true. by left.
    + symmetry. apply bool_decide_eq_false. intros [->|H]; [done|]. by apply elem_of_nil in H.
  - destruct (cstr_cons_l _ _ _ _ Hd) as (Hd0 & Hr & Hd'). eapply wp_rd; [exact Hr|].
    destruct (Z.eqb_spec d c) as [->|Hne].
    + wp_step. split; [|done]. symmetry. apply bool_decide_eq_true. right. apply elem_of_cons. by left.
    + rewrite (proj2 (Z.eqb_neq _ _)) by done. cbn [negb]. wp_step.
      eapply wp_conseq; [apply IH; [done|lia]|].
      intros r st' [-> ->]. split; [|done]. apply bool_decide_ext. rewrite elem_of_cons. split; [by intros [?|?]; auto|intros [?|[?|?]]; auto]; subst; done.
Qed.

(** Scanning from the next character, when this one is no delimiter. *)
Lemma scanned_cons dl c t s b next b' :
  0 <= s -> c ∉ dl -> c <> 0 -> znth b s = Some c ->
  scanned dl t (s + 1) b next b' -> scanned dl (c :: t) s b next b'.
Proof.
  intros Hs Hin Hc0 Hr H. unfold scanned in *. cbn [break_at].
  rewrite bool_decide_false by done. destruct (break_at dl t) as [p [q|]].
  - destruct H as (-> & -> & Hp & Hq). rewrite zlen_cons.
    replace (s + (zlen p + 1)) with (s + 1 + zlen p) by lia.
    split_and!; try done. apply cstr_cons_r; try done.
    pose proof (zlen_nonneg p). rewrite znth_zupd_ne by lia. done.
  - destruct H as (-> & -> & Hp). split_and!; try done. by apply cstr_cons_r.
Qed.

Lemma cstr_nul_head b s : cstr b s [] -> znth b s = Some 0.
Proof. intros H. rewrite <- (cstr_nul _ _ _ H). f_equal. zlen_simpl. lia. Qed.

(** A string with its terminator. *)
Definition is_cstr (b : list Z) : Prop := exists t, b = t ++ [0] /\ 0 ∉ t.

Lemma wp_strcmp_loop {S} : forall t1 t2 u fuel (st : S) (Q : Z -> S -> Prop) E, 0 ∉ t1 -> 0 ∉ t2 -> (length t1 < fuel)%nat ->
  (forall r, r = 0 <-> t1 = t2 -> Q r st) ->
  wp (loop fuel (strcmp_step (u ++ t1 ++ [0]) (u ++ t2 ++ [0])) (zlen u)) st Q E.
Proof.
  induction t1 as [|x t1 IH]; intros t2 u [|fuel] st Q E H1 H2 Hf HQ; try (cbn in Hf; lia); apply wp_loop_S; unfold strcmp_step.
  - wp_step. eapply wp_rd; [apply znth_middle|]. destruct t2 as [|y t2].
    + wp_step. eapply wp_rd; [apply znth_middle|]. cbn. wp_step. by apply HQ.
    + wp_step. eapply wp_rd; [apply znth_middle|]. rewrite (proj2 (Z.eqb_neq 0 y)) by set_solver. wp_step. apply HQ. split; [|done]. intros. set_solver by lia.
  - wp_step. eapply wp_rd; [apply znth_middle|]. destruct t2 as [|y t2].
    + wp_step. eapply wp_rd; [apply znth_middle|]. rewrite (proj2 (Z.eqb_neq x 0)) by set_solver. wp_step. apply HQ. split; [|done]. intros. set_solver by lia.
    + wp_step. eapply wp_rd; [apply znth_middle|]. destruct (Z.eqb_spec x y) as [->|Hne].
      * rewrite (proj2 (Z.eqb_neq y 0)) by set_solver. wp_step.
        replace (zlen u + 1) with (zlen (u ++ [y])) by (rewrite zlen_app; done).
        replace (u ++ (y :: t1) ++ [0]) with ((u ++ [y]) ++ t1 ++ [0]) by (by rewrite <- app_assoc).
        replace (u ++ (y :: t2) ++ [0]) with ((u ++ [y]) ++ t2 ++ [0]) by (by rewrite <- app_assoc).
        apply IH; [set_solver|set_solver|cbn in Hf; lia|]. intros r Hr. apply HQ. rewrite Hr. split; [by intros ->|by intros [= ->]].
      * wp_step. apply HQ. split; [lia|]. by intros [= ? _].
Qed.

Lemma wp_strcmp {S} a b (st : S) (Q : Z -> S -> Prop) E :
  is_cstr a -> is_cstr b -> (forall r, r = 0 <-> a = b -> Q r st) -> wp (strcmp a b) st Q E.
Proof.
  intros (t1 & -> & H1) (t2 & -> & H2) HQ. unfold strcmp. apply (wp_strcmp_loop t1 t2 []); [done|done|rewrite length_app; lia|].
  intros r Hr. apply HQ. rewrite Hr. split; [by intros ->|by intros [? _]%app_inj_tail].
Qed.

Lemma cstr_nonzero s o u : cstr s o u -> Forall (fun c => c <> 0) u.
Proof.
  revert o. induction u as [|c u IH]; intros o Hc; [constructor|].
  destruct (cstr_cons_l _ _ _ _ Hc) as (? & _ & ?). constructor; [done|by eapply IH].
Qed.

Lemma cstr_ztake mem t : cstr mem 0 t -> ztake (zlen t) mem = t.
Proof.
  intros Hc. pose proof (cstr_len _ _ _ Hc). pose proof (zlen_nonneg t). apply znth_ext. intros i Hi.
  destruct (Z.lt_ge_cases i (zlen t)) as [Hlt|Hge].
  - destruct (cstr_at _ _ _ i Hc) as (c & H1 & _ & H2); [lia|]. rewrite znth_ztake by lia. by rewrite H1, <- H2.
  - rewrite !znth_None; [done|lia|]. rewrite zlen_ztake; lia.
Qed.

Lemma cstr_bytes mem off t :
  bytes mem -> cstr mem off t -> Forall (fun c => is_byte c /\ c <> 0) t.
Proof.
  intros Hb. revert off. induction t as [|c t IH]; intros off Hc; [constructor|].
  destruct (cstr_cons_l _ _ _ _ Hc) as (Hc0 & Hr & Hct).
  constructor; [split; [by apply (bytes_znth mem off)|done]|by eapply IH].
Qed.

Lemma wp_scan_token_loop delim dl t s fuel b E :
  cstr delim 0 dl -> cstr b s t -> (length t < fuel)%nat ->
  wp (loop fuel (token_step delim) s) b (fun next b' => scanned dl t s b next b') E.
Proof.
  intros Hd. revert s fuel. induction t as [|c t IH]; intros s [|fuel] Hc Hf; cbn in Hf; try lia;
    apply wp_loop_S; unfold token_step, rdS; wp_step; pose proof Hc as Hc'; destruct Hc' as (Hs & _).
  - eapply wp_rd; [by apply cstr_nul_head|].
    wp_step. eapply wp_conseq; [by apply wp_span|]. intros r st [-> ->].
    rewrite bool_decide_true by (by left). cbn. wp_step. by unfold scanned.
  - destruct (cstr_cons_l _ _ _ _ Hc) as (Hc0 & Hr & Hct). eapply wp_rd; [exact Hr|].
    wp_step. eapply wp_conseq; [by apply wp_span|]. intros r st [-> ->].
    destruct (decide (c ∈ dl)) as [Hin|Hin].
    + unfold scanned. cbn [break_at].
      rewrite bool_decide_true by (by right). rewrite bool_decide_true by done.
      rewrite (proj2 (Z.eqb_neq _ _)) by done.
      pose proof (znth_Some _ _ _ Hr). wp_step. wp_step; [lia|]. wp_step.
      zlen_simpl. rewrite Z.add_0_r, Z.add_simpl_r. split_and!; try done.
      * apply cstr_nil_intro; [done|]. by apply znth_zupd_eq.
      * apply cstr_upd; [done|lia].
    + rewrite bool_decide_false by (by intros [?|?]). wp_step.
      eapply wp_conseq; [apply IH; [done|lia]|].
      intros next b' H. by apply scanned_cons.
Qed.

Lemma wp_scan_token delim dl t s b E :
  cstr delim 0 dl -> cstr b s t ->
  wp (scan_token delim s) b (fun next b' => scanned dl t s b next b') E.
Proof.
  intros Hd Hc. unfold scan_token. wp_step. wp_step. apply wp_scan_token_loop; [done..|].
  pose proof (cstr_len _ _ _ Hc). destruct Hc. unfold zlen in *. lia.
Qed.
End tokens.

Section skip.
Lemma skip_leading_head dl t c t' : skip_leading dl t = c :: t' -> c ∉ dl.
Proof.
  induction t as [|d t IH]; [done|]. cbn. case_bool_decide; [done|]. by intros [= -> ->].
Qed.

Implicit Types (delim dl t b p q : list Z).

Lemma wp_cont {S} delim dl c (st : S) E :
  cstr delim 0 dl ->
  wp (loop (Datatypes.S (length delim)) (cont_step delim c) 0) st
     (fun r st' => r = bool_decide (c ∈ dl) /\ st' = st) E.
Proof.
  intros Hd. assert (Hf : (length dl < Datatypes.S (length delim))%nat).
  { pose proof (cstr_len _ _ _ Hd). unfold zlen in *. lia. }
  revert Hd Hf. generalize (Datatypes.S (length delim)) as fuel. generalize 0 at 1 2 as o.
  intros o fuel. revert o fuel. induction dl as [|d dl IH]; intros o [|fuel] Hd Hf; cbn in Hf; try lia;
    apply wp_loop_S; unfold cont_step; wp_step.
  - eapply wp_rd; [rewrite <- (cstr_nul _ _ _ Hd); f_equal; zlen_simpl; lia|].
    cbn. wp_step. split; [|done]. symmetry. apply bool_decide_eq_false, not_elem_of_nil.
  - destruct (cstr_cons_l _ _ _ _ Hd) as (Hd0 & Hr & Hd'). eapply wp_rd; [exact Hr|].
    rewrite (proj2 (Z.eqb_neq _ _)) by done. destruct (Z.eqb_spec c d) as [->|Hne].
    + wp_step. split; [|done]. symmetry. apply bool_decide_eq_true, elem_of_cons. by left.
    + wp_step. eapply wp_conseq; [apply IH; [done|lia]|].
      intros r st' [-> ->]. split; [|done]. apply bool_decide_ext. rewrite elem_of_cons.
      split; [by right|by intros [?|?]].
Qed.

Lemma wp_skip_delims delim dl t s fuel b E :
  cstr delim 0 dl -> cstr b s t -> (length t < fuel)%nat ->
  wp (loop fuel (skip_delims delim) s) b
     (fun '(c, s') b' => b' = b /\ s' = s + (zlen t - zlen (skip_leading dl t)) + 1 /\
        cstr b (s' - 1) (skip_leading dl t) /\ znth b (s' - 1) = Some c) E.
Proof.
  intros Hd. revert s fuel. induction t as [|c t IH]; intros s [|fuel] Hc Hf; cbn in Hf; try lia;
    apply wp_loop_S; unfold skip_delims, rdS; wp_step.
  - assert (Hn : znth b s = Some 0) by (by apply cstr_nul_head).
    eapply wp_rd; [exact Hn|]. wp_step. eapply wp_conseq; [by apply wp_cont|].
    intros r st [-> ->]. destruct (decide (0 ∈ dl)) as [Hin|Hin].
    { exfalso. apply list_elem_of_lookup in Hin as [i Hi].
      pose proof (lookup_lt_Some _ _ _ Hi).
      destruct (cstr_at _ _ _ (Z.of_nat i) Hd) as (d & Ht & Hd0 & _); [unfold zlen; lia|].
      unfold znth in Ht. destruct (Z.ltb_spec (Z.of_nat i) 0); [lia|].
      rewrite Nat2Z.id in Ht. congruence. }
    rewrite bool_decide_false by done. wp_step. cbn [skip_leading]. rewrite Z.add_simpl_r.
    split_and!; try done. lia.
  - destruct (cstr_cons_l _ _ _ _ Hc) as (Hc0 & Hr & Hct). eapply wp_rd; [exact Hr|].
    wp_step. eapply wp_conseq; [by apply wp_cont|]. intros r st [-> ->].
    cbn [skip_leading]. case_bool_decide as Hin; wp_step.
    + eapply wp_conseq; [apply IH; [done|lia]|].
      intros [c' s'] b' (-> & -> & H1 & H2). rewrite zlen_cons. split_and!; try done. lia.
    + rewrite Z.add_simpl_r. split_and!; try done. lia.
Qed.
End skip.

(** ** Properties *)

(** Building a string with [strlcpy] and then [strlcat] in a buffer of size
    [dsize] leaves exactly the bytes that one [strlcpy] of the concatenation
    leaves, whether or not the text fits, without an access outside the
    buffer; [strlcat] returns the untruncated length, capped by what
    [strlcpy] could store of the first part. *)
Theorem strlcpy_strlcat_concat (src1 src2 src12 a b buf : list Z) (dsize : Z) :
  cstr src1 0 a -> cstr src2 0 b -> cstr src12 0 (a ++ b) -> 0 < dsize <= zlen buf ->
  wp (strlcpy src1 dsize ≫= fun _ => strlcat src2 dsize) buf
     (fun r buf' => r = Z.min (zlen a) (dsize - 1) + zlen b /\
        wp (strlcpy src12 dsize) buf
           (fun r' buf'' => r' = zlen a + zlen b /\ buf'' = buf') (fun _ _ => False))
     (fun _ _ => False).
Proof.
  intros H1 H2 H12 Hd. pose proof (zlen_nonneg a). pose proof (zlen_nonneg b).
  set (k := Z.min (zlen a) (dsize - 1)).
  assert (Hkd : k = Z.min (zlen a) (dsize - 1)) by done.
  assert (Hk : zlen (ztake k a) = k) by (apply zlen_ztake; lia).
  wp_step. eapply wp_conseq; [apply (wp_strlcpy src1 a buf dsize); [done|lia]|].
  intros r b' [-> ->]. rewrite (proj2 (Z.eqb_neq _ _)) by lia.
  eapply wp_conseq; [apply (wp_strlcat _ b); [done|by eapply cstr_strlcpy_buf|]|].
  { fold k. unfold strlcpy_buf. fold k. rewrite Hk, zlen_splice; zlen_simpl; lia. }
  intros r b' [-> ->]. fold k. rewrite Hk. split; [done|].
  eapply wp_conseq; [apply (wp_strlcpy _ (a ++ b)); [done|lia]|].
  intros r b' [-> ->]. rewrite (proj2 (Z.eqb_neq _ _)) by lia. rewrite zlen_app. split; [done|].
  unfold strlcpy_buf. fold k. rewrite zlen_app.
  set (j := Z.min (zlen b) (dsize - 1 - k)).
  assert (Hjd : j = Z.min (zlen b) (dsize - 1 - k)) by done.
  assert (Hj : zlen (ztake j b) = j) by (apply zlen_ztake; lia).
  assert (Hab : ztake (Z.min (zlen a + zlen b) (dsize - 1)) (a ++ b) = ztake k a ++ ztake j b).
  { destruct (Z.le_gt_cases (zlen a) (dsize - 1)).
    - replace k with (zlen a) by lia. rewrite ztake_all.
      unfold ztake, zlen in *. rewrite take_app. f_equal.
      + apply take_ge. lia.
      + f_equal. lia.
    - replace j with 0 by lia. replace k with (dsize - 1) by lia. rewrite app_nil_r.
      unfold ztake, zlen in *. rewrite take_app_le by lia. f_equal. lia. }
  rewrite Hab, <- app_assoc, <- (splice_over buf 0 (ztake k a) [0]) by (zlen_simpl; lia).
  by rewrite Hk.
Qed.

Lemma strlcpy_strlcat_concat_witness :
  cstr [97; 98; 0] 0 [97; 98] /\
  wp (strlcpy [97; 98; 0] 4 ≫= fun _ => strlcat [99; 100; 0] 4) [1; 2; 3; 4; 5]
     (fun r buf' => r = Z.min (zlen [97; 98]) (4 - 1) + zlen [99; 100] /\
        wp (strlcpy [97; 98; 99; 100; 0] 4) [1; 2; 3; 4; 5]
           (fun r' buf'' => r' = zlen [97; 98] + zlen [99; 100] /\ buf'' = buf')
           (fun _ _ => False))
     (fun _ _ => False).
Proof.
  assert (H1 : cstr [97; 98; 0] 0 [97; 98]) by (apply (cstr_intro [97; 98] []); repeat constructor; lia).
  split; [exact H1|].
  apply (strlcpy_strlcat_concat [97; 98; 0] [99; 100; 0] [97; 98; 99; 100; 0] [97; 98] [99; 100]).
  - exact H1.
  - apply (cstr_intro [99; 100] []); repeat constructor; lia.
  - apply (cstr_intro [97; 98; 99; 100] []); repeat constructor; lia.
  - vm_compute. split; [reflexivity|discriminate].
Defined.

(** [strcasecmp] on two strings of bytes returns 0 exactly when they agree
    after [tolower], for every pair of positions in memory, and terminates
    without reading behind either terminator. *)
Theorem strcasecmp_correct {S} (s1 s2 t1 t2 : list Z) (o1 o2 : Z) (st : S) :
  bytes s1 -> bytes s2 -> cstr s1 o1 t1 -> cstr s2 o2 t2 ->
  wp (strcasecmp s1 s2 o1 o2) st
     (fun r st' => (r = 0 <-> map lower t1 = map lower t2) /\ st' = st) (fun _ _ => False).
Proof.
  intros Hb1 Hb2 H1 H2. eapply wp_conseq; [by apply wp_strcasecmp|].
  intros r st' [-> ->]. split; [|done]. apply casecmp_0.
  - by apply (cstr_bytes s1 o1).
  - by apply (cstr_bytes s2 o2).
Qed.

Lemma strcasecmp_correct_witness :
  cstr [65; 98; 0] 0 [65; 98] /\
  wp (strcasecmp [65; 98; 0] [7; 97; 66; 0] 0 1) tt
     (fun r st' => (r = 0 <-> map lower [65; 98] = map lower [97; 66]) /\ st' = tt)
     (fun _ _ => False).
Proof.
  assert (H1 : cstr [65; 98; 0] 0 [65; 98]) by (apply (cstr_intro [65; 98] []); repeat constructor; lia).
  split; [exact H1|].
  apply (strcasecmp_correct [65; 98; 0] [7; 97; 66; 0] [65; 98] [97; 66] 0 1 tt).
  - repeat constructor; unfold is_byte; lia.
  - repeat constructor; unfold is_byte; lia.
  - exact H1.
  - apply cstr_cons_r; [lia|lia|reflexivity|]. apply cstr_cons_r; [lia|lia|reflexivity|].
    apply cstr_nil_intro; [lia|reflexivity].
Defined.

(** [strtok_r] on a string [t] skips the leading delimiters; if nothing is
    left it returns NULL and remembers NULL, otherwise it returns the first
    remaining character, cuts the token at the next delimiter with a NUL and
    remembers the string behind it (NULL when the token ends the string). *)
Theorem strtok_r_correct (delim dl t b : list Z) (s : Z) (last : option Z) :
  cstr delim 0 dl -> cstr b s t ->
  wp (strtok_r (Some s) delim last) b
     (fun '(tok, next) b' =>
        let t' := skip_leading dl t in
        let s' := s + (zlen t - zlen t') in
        if bool_decide (t' = []) then tok = None /\ next = None /\ b' = b
        else tok = Some s' /\ scanned dl t' s' b next b')
     (fun _ _ => False).
Proof.
  intros Hd Hc. unfold strtok_r. wp_step. wp_step. wp_step.
  eapply wp_conseq; [apply (wp_skip_delims _ dl t); [done..|]|].
  { pose proof (cstr_len _ _ _ Hc). destruct Hc. unfold zlen in *. lia. }
  intros [c p] b' (-> & -> & Hc' & Hr).
  rewrite Z.add_simpl_r in *. set (s' := s + (zlen t - zlen (skip_leading dl t))) in *.
  destruct (skip_leading dl t) as [|x t'] eqn:Ht.
  - rewrite bool_decide_true by done. rewrite (cstr_nul_head _ _ Hc') in Hr.
    injection Hr as <-. cbn. by wp_step.
  - rewrite bool_decide_false by done. destruct (cstr_cons_l _ _ _ _ Hc') as (Hx & Hr' & Hct).
    rewrite Hr in Hr'. injection Hr' as ->. rewrite (proj2 (Z.eqb_neq _ _)) by done. cbn zeta.
    wp_step. eapply wp_conseq; [by apply (wp_scan_token _ dl t')|].
    intros next b' H. wp_step. split; [done|]. destruct Hc' as [Hs' _].
    apply scanned_cons; try done. by apply (skip_leading_head dl t x t').
Qed.

Lemma strtok_r_correct_witness :
  cstr [44; 97; 44; 98; 0] 0 [44; 97; 44; 98] /\
  wp (strtok_r (Some 0) [44; 0] None) [44; 97; 44; 98; 0]
     (fun '(tok, next) b' =>
        let t' := skip_leading [44] [44; 97; 44; 98] in
        let s' := 0 + (zlen [44; 97; 44; 98] - zlen t') in
        if bool_decide (t' = []) then tok = None /\ next = None /\ b' = [44; 97; 44; 98; 0]
        else tok = Some s' /\ scanned [44] t' s' [44; 97; 44; 98; 0] next b')
     (fun _ _ => False).
Proof.
  assert (H : cstr [44; 97; 44; 98; 0] 0 [44; 97; 44; 98])
    by (apply (cstr_intro [44; 97; 44; 98] []); repeat constructor; lia).
  split; [exact H|].
  apply (strtok_r_correct [44; 0] [44] [44; 97; 44; 98] [44; 97; 44; 98; 0] 0 None); [|exact H].
  apply (cstr_intro [44] []); repeat constructor; lia.
Defined.

Example strtok_r_run :
  strtok_r (Some 0) [44; 0] None [44; 97; 44; 98; 0] =
    (Ret (Some 1, Some 3), [44; 97; 0; 98; 0]).
Proof. reflexivity. Qed.
