(* ===== verification/NsName.v ===== *)
(** * Domain names: the operations of [dns/nameser/ns_name.c]

    A wire-format name, a message and a presentation string are byte lists; a
    pointer into one of them is an offset. The buffer a function fills is the
    state of its monad, so an error return keeps the bytes written before it.
    [eom] and [eob] are offsets too; [dstsiz] is the size the caller passes.
    A [while]/[for] loop is [loop] over a definition that is its body. *)
From S2P Require Import Prelude CString.

(** ** Constants and tables *)

Definition NS_CMPRSFLGS : Z := 0xc0.
Definition NS_TYPE_ELT : Z := 0x40.
Definition DNS_LABELTYPE_BITSTRING : Z := 0x41.
Definition NS_MAXCDNAME : Z := 255.
Definition NS_MAXDNAME : Z := 1025.
Definition NS_MAXNNAME : Z := 256.

(** ["0123456789"] with its terminator. *)
Definition digits : list Z := [48; 49; 50; 51; 52; 53; 54; 55; 56; 57; 0].

(** The value of a hexadecimal digit, -1 for the other bytes. *)
Definition digitvalue : list Z :=
  replicate 48 (-1) ++ [0; 1; 2; 3; 4; 5; 6; 7; 8; 9] ++ replicate 7 (-1) ++
  [10; 11; 12; 13; 14; 15] ++ replicate 26 (-1) ++ [10; 11; 12; 13; 14; 15] ++
  replicate 153 (-1).

(** ** Character classes (private functions of the file and <ctype.h>) *)

Definition special (ch : Z) : bool :=
  (ch =? 0x22) || (ch =? 0x2E) || (ch =? 0x3B) || (ch =? 0x5C) || (ch =? 0x28) ||
  (ch =? 0x29) || (ch =? 0x40) || (ch =? 0x24).

Definition printable (ch : Z) : bool := (0x20 <? ch) && (ch <? 0x7f).

Definition mklower (ch : Z) : Z :=
  if (0x41 <=? ch) && (ch <=? 0x5A) then ch + 0x20 else ch.

Definition isdigit (c : Z) : bool := (48 <=? c) && (c <=? 57).
Definition isxdigit (c : Z) : bool :=
  isdigit c || ((65 <=? c) && (c <=? 70)) || ((97 <=? c) && (c <=? 102)).

(** [isascii(c) && isupper(c)] *)
Definition ascii_upper (c : Z) : bool := (c <? 128) && ((65 <=? c) && (c <=? 90)).

(** ** Labels *)

(** The number of bytes behind a length byte; -1 for what has no length. *)
Definition labellen {S} (b : list Z) (lp : Z) : M S Z :=
  l ← rd b lp;
  if Z.land l NS_CMPRSFLGS =? NS_CMPRSFLGS then mret (-1)
  else if Z.land l NS_CMPRSFLGS =? NS_TYPE_ELT then
    if l =? DNS_LABELTYPE_BITSTRING then
      bitlen ← rd b (lp + 1);
      let bitlen := if bitlen =? 0 then 256 else bitlen in
      mret ((bitlen + 7) / 8 + 1)
    else mret (-1)
  else mret l.

(** ** snprintf, as far as the file uses it *)

(** [snprintf(dst + i, n, "%s", text)]: at most [n - 1] characters and the
    terminator are stored; the length of the whole text is returned. *)
Definition snprintf (i n : Z) (text : list Z) : M (list Z) Z :=
  if n =? 0 then mret (zlen text)
  else
    let w := ztake (n - 1) text ++ [0] in
    memcpy w i 0 (zlen w);;
    mret (zlen text).

Definition hexdigit (v : Z) : Z := if v <? 10 then 48 + v else 87 + v.

(** The hexadecimal digits of an unsigned 32-bit value. *)
Fixpoint hex_digits (fuel : nat) (v : Z) (acc : list Z) : list Z :=
  match fuel with
  | O => acc
  | S fuel =>
      let acc := hexdigit (v mod 16) :: acc in
      if v / 16 =? 0 then acc else hex_digits fuel (v / 16) acc
  end.

(** ["%0<w>x"] *)
Definition fmt_x (w : nat) (v : Z) : list Z :=
  let ds := hex_digits 8 (u32 v) [] in
  replicate (w - length ds) 48 ++ ds.

Fixpoint dec_digits (fuel : nat) (v : Z) (acc : list Z) : list Z :=
  match fuel with
  | O => acc
  | S fuel =>
      let acc := (48 + v mod 10) :: acc in
      if v / 10 =? 0 then acc else dec_digits fuel (v / 10) acc
  end.

(** ["%d"] of a non-negative [int]. *)
Definition fmt_d (v : Z) : list Z := dec_digits 10 v [].

(** ["%d"] of an [int]. *)
Definition fmt_int (v : Z) : list Z := if v <? 0 then 45 :: fmt_d (- v) else fmt_d v.

(** ** Bit-string labels *)

(** [for (b = blen; b > 7; b -= 8, cp++) ... "%02x" ...] *)
Definition decode_bytes (src : list Z) (eom : Z) '((b, cp, dn) : Z * Z * Z)
    : M (list Z) (step (Z * Z * Z) (Z * Z * Z)) :=
  if 7 <? b then
    c ← rd src cp;
    i ← snprintf dn (eom - dn) (fmt_x 2 (Z.land c 0xff));
    mret (Next (b - 8, cp + 1, dn + i))
  else mret (Done (b, cp, dn)).

(** [tc] is a [char], which is signed on the launcher's x86 targets. The result
    is the number of characters written and the advanced [*cpp]. *)
Definition decode_bitstring (src : list Z) (cp dn eom : Z) : M (list Z) (Z * Z) :=
  let beg := dn in
  c ← rd src cp;
  let blen := if Z.land c 0xff =? 0 then 256 else Z.land c 0xff in
  let plen := (blen + 3) / 4 in
  let plen := plen + 6 + (if 99 <? blen then 3 else if 9 <? blen then 2 else 1) in
  if eom <=? dn + plen then mret (-1, cp)
  else
    i ← snprintf dn (eom - dn) [92; 91; 120];
    '(b, cp, dn) ← loop 64 (decode_bytes src eom) (blen, cp + 1, dn + i);
    '(cp, dn) ←
      (if 4 <? b then
         tc ← rd src cp;
         i ← snprintf dn (eom - dn) (fmt_x 2 (Z.land (s8 tc) (Z.shiftl 0xff (8 - b))));
         mret (cp + 1, dn + i)
       else if 0 <? b then
         tc ← rd src cp;
         i ← snprintf dn (eom - dn)
               (fmt_x 1 (Z.land (Z.land (Z.shiftr (u32 (s8 tc)) 4) 0x0f) (Z.shiftl 0x0f (4 - b))));
         mret (cp + 1, dn + i)
       else mret (cp, dn));
    i ← snprintf dn (eom - dn) ([47] ++ fmt_d blen ++ [93]);
    mret (dn + i - beg, cp).

(** [strtol(p, &end, 10)] where [p] points at a digit: the value, saturated at
    [LONG_MAX], and the first position that is no digit. *)
Definition strtol_step {S} (s : list Z) '((p, v) : Z * Z) : M S (step (Z * Z) (Z * Z)) :=
  c ← rd s p;
  if isdigit c then mret (Next (p + 1, Z.min (10 * v + (c - 48)) (2 ^ 63 - 1)))
  else mret (Done (p, v)).

Definition strtol10 {S} (s : list Z) (p : Z) : M S (Z * Z) :=
  loop (Datatypes.S (length s)) (strtol_step s) (p, 0).

(** The locals of [encode_bitsring]'s loop. *)
Record bits : Type := Bits {
  bs_cp : Z; bs_tp : Z; bs_afterslash : bool; bs_beg_blen : option Z;
  bs_value : Z; bs_count : Z; bs_tbcount : Z; bs_blen : Z }.

(** One iteration of [for (tp = *dst + 1; cp < end && tp < eom; cp++)]; an
    error code that the function returns is the error of the monad, because
    its only caller stores it in [errno]. [value] wraps at 32 bits. *)
Definition encode_step (src : list Z) (end_ eom : Z) (l : bits)
    : M (list Z) (step bits bits) :=
  let '(Bits cp tp afterslash beg_blen value count tbcount blen) := l in
  if negb ((cp <? end_) && (tp <? eom)) then mret (Done l)
  else
    c ← rd src cp;
    if c =? 93 then
      blen ←
        (if afterslash : bool then
           match beg_blen with
           | None => fail EINVAL
           | Some beg =>
               '(end_blen, v) ← strtol10 src beg;
               e ← rd src end_blen;
               fail_if (negb (e =? 93)) EINVAL;;
               mret (s32 v)
           end
         else mret blen);
      tp ←
        (if negb (count =? 0) then
           wr tp (Z.land (Z.shiftl value 4) 0xff);; mret (tp + 1)
         else mret tp);
      mret (Done (Bits (cp + 1) tp afterslash beg_blen value count tbcount blen))
    else if c =? 47 then
      mret (Next (Bits (cp + 1) tp true beg_blen value count tbcount blen))
    else if afterslash then
      fail_if (negb (isdigit c)) EINVAL;;
      beg_blen ←
        match beg_blen with
        | Some b => mret (Some b)
        | None => fail_if (c =? 48) EINVAL;; mret (Some cp)
        end;
      mret (Next (Bits (cp + 1) tp afterslash beg_blen value count tbcount blen))
    else
      fail_if (negb (isxdigit c)) EINVAL;;
      dv ← rd digitvalue c;
      let value := s32 (s32 (Z.shiftl value 4) + dv) in
      let count := count + 4 in
      let tbcount := tbcount + 4 in
      fail_if (256 <? tbcount) EINVAL;;
      if count =? 8 then
        wr tp (u8 value);;
        mret (Next (Bits (cp + 1) (tp + 1) afterslash beg_blen value 0 tbcount blen))
      else mret (Next (Bits (cp + 1) tp afterslash beg_blen value count tbcount blen)).

(** The result is the new [*bp] and [*dst]. *)
Definition encode_bitsring (src : list Z) (bp end_ label dst eom : Z)
    : M (list Z) (Z * Z) :=
  let cp := bp in
  fail_if (end_ - cp <? 2) EINVAL;;
  c ← rd src cp;
  fail_if (negb (c =? 120)) EINVAL;;
  let cp := cp + 1 in
  c ← rd src cp;
  fail_if (negb (isxdigit c)) EINVAL;;
  l ← loop (Datatypes.S (length src)) (encode_step src end_ eom)
        (Bits cp (dst + 1) false None 0 0 0 0);
  let '(Bits cp tp _ _ value _ tbcount blen) := l in
  fail_if ((end_ <=? cp) || (eom <=? tp)) EMSGSIZE;;
  blen ←
    (if 0 <? blen then
       fail_if (negb (Z.land (blen + 3) (Z.lnot 3) =? tbcount)) EINVAL;;
       let traillen := tbcount - blen in
       fail_if (negb (Z.land (Z.shiftl value (8 - traillen)) 0xff =? 0)) EINVAL;;
       mret blen
     else mret tbcount);
  let blen := if blen =? 256 then 0 else blen in
  wr label DNS_LABELTYPE_BITSTRING;;
  wr dst (u8 blen);;
  mret (cp, tp).

(** ** Presentation format *)

(** One character of the [for (; l > 0; l--)] loop of [ns_name_ntop]. *)
Definition ntop_char (src : list Z) (eom : Z) '((cp, dn, l) : Z * Z * Z)
    : M (list Z) (step (Z * Z * Z) (Z * Z)) :=
  if negb (0 <? l) then mret (Done (cp, dn))
  else
    c ← rd src cp;
    let cp := cp + 1 in
    if special c then
      fail_if (eom <=? dn + 1) EMSGSIZE;;
      wr dn 92;;
      wr (dn + 1) c;;
      mret (Next (cp, dn + 2, l - 1))
    else if negb (printable c) then
      fail_if (eom <=? dn + 3) EMSGSIZE;;
      d1 ← rd digits (c / 100);
      d2 ← rd digits ((c mod 100) / 10);
      d3 ← rd digits (c mod 10);
      wr dn 92;;
      wr (dn + 1) d1;;
      wr (dn + 2) d2;;
      wr (dn + 3) d3;;
      mret (Next (cp, dn + 4, l - 1))
    else
      fail_if (eom <=? dn) EMSGSIZE;;
      wr dn c;;
      mret (Next (cp, dn + 1, l - 1)).

(** One label of [while ((n = *cp++) != 0)]. *)
Definition ntop_label (src : list Z) (eom : Z) '((cp, dn) : Z * Z)
    : M (list Z) (step (Z * Z) Z) :=
  n ← rd src cp;
  let cp := cp + 1 in
  if n =? 0 then mret (Done dn)
  else
    fail_if (Z.land n NS_CMPRSFLGS =? NS_CMPRSFLGS) EMSGSIZE;;
    dn ←
      (if negb (dn =? 0) then
         fail_if (eom <=? dn) EMSGSIZE;;
         wr dn 46;;
         mret (dn + 1)
       else mret dn);
    l ← labellen src (cp - 1);
    fail_if (l <? 0) EMSGSIZE;;
    fail_if (eom <=? dn + l) EMSGSIZE;;
    if Z.land n NS_CMPRSFLGS =? NS_TYPE_ELT then
      fail_if (negb (n =? DNS_LABELTYPE_BITSTRING)) EINVAL;;
      '(m, cp) ← decode_bitstring src cp dn eom;
      fail_if (m <? 0) EMSGSIZE;;
      mret (Next (cp, dn + m))
    else
      l ← loop (Datatypes.S (Z.to_nat l)) (ntop_char src eom) (cp, dn, l);
      mret (Next l).

Definition ns_name_ntop (src : list Z) (dstsiz : Z) : M (list Z) Z :=
  let eom := dstsiz in
  dn ← loop (Datatypes.S (length src)) (ntop_label src eom) (0, 0);
  dn ←
    (if dn =? 0 then
       fail_if (eom <=? dn) EMSGSIZE;;
       wr dn 46;;
       mret (dn + 1)
     else mret dn);
  fail_if (eom <=? dn) EMSGSIZE;;
  wr dn 0;;
  mret (dn + 1).

(** [strchr(digits, c)] for a character [c] other than NUL. *)
Definition digit_pos (c : Z) : option Z :=
  if isdigit c then Some (c - 48) else None.

(** [strchr(src, ']')] *)
Definition strchr_step {S} (s : list Z) (ch p : Z) : M S (step Z (option Z)) :=
  c ← rd s p;
  if c =? ch then mret (Done (Some p))
  else if c =? 0 then mret (Done None) else mret (Next (p + 1)).

Definition strchr {S} (s : list Z) (p ch : Z) : M S (option Z) :=
  loop (Datatypes.S (length s)) (strchr_step s ch) p.

(** How the loop of [ns_name_pton2] is left: at the end of the string, by
    [goto done] with the value of [c], or by [return (1)]. *)
Inductive pton_exit : Type :=
  | AtEnd (label bp : Z)
  | AtDone (label bp c : Z)
  | Qualified (bp : Z).

(** The three decimal digits of an escape, [n] being the first one. *)
Definition pton_ddd (src : list Z) (n p : Z) : M (list Z) (Z * Z) :=
  let n := n * 100 in
  c ← rd src p;
  fail_if (c =? 0) EMSGSIZE;;
  match digit_pos c with
  | None => fail EMSGSIZE
  | Some d =>
      let n := n + d * 10 in
      c ← rd src (p + 1);
      fail_if (c =? 0) EMSGSIZE;;
      match digit_pos c with
      | None => fail EMSGSIZE
      | Some d =>
          let n := n + d in
          fail_if (255 <? n) EMSGSIZE;;
          mret (n, p + 2)
      end
  end.

(** [if (bp >= eom) { errno = EMSGSIZE; return (-1); } *bp++ = (u_char)c;] *)
Definition pton_store (eom : Z) (src label bp c : Z) : M (list Z) (step (Z * Z * Z * bool) pton_exit) :=
  fail_if (eom <=? bp) EMSGSIZE;;
  wr bp c;;
  mret (Next (src, label, bp + 1, false)).

(** The end of a label at a ['.'], [src] being behind it. *)
Definition pton_dot (s : list Z) (eom src label bp : Z)
    : M (list Z) (step (Z * Z * Z * bool) pton_exit) :=
  let c := bp - label - 1 in
  fail_if (negb (Z.land c NS_CMPRSFLGS =? 0)) EMSGSIZE;;
  fail_if (eom <=? label) EMSGSIZE;;
  wr label (u8 c);;
  next ← rd s src;
  if next =? 0 then
    bp ←
      (if negb (c =? 0) then
         fail_if (eom <=? bp) EMSGSIZE;;
         wr bp 0;;
         mret (bp + 1)
       else mret bp);
    fail_if (NS_MAXCDNAME <? bp) EMSGSIZE;;
    mret (Done (Qualified bp))
  else
    fail_if ((c =? 0) || (next =? 46)) EMSGSIZE;;
    mret (Next (src, bp, bp + 1, false)).

(** One iteration of [while ((c = *src++) != 0)]. *)
Definition pton_step (s : list Z) (eom : Z) '((src, label, bp, escaped) : Z * Z * Z * bool)
    : M (list Z) (step (Z * Z * Z * bool) pton_exit) :=
  c ← rd s src;
  let src := src + 1 in
  if c =? 0 then mret (Done (AtEnd label bp))
  else if escaped : bool then
    if c =? 91 then
      cp ← strchr s src 93;
      match cp with
      | None => fail EINVAL
      | Some cp =>
          '(src, bp) ← encode_bitsring s src (cp + 2) label bp eom;
          let label := bp in
          let bp := bp + 1 in
          c ← rd s src;
          let src := src + 1 in
          if c =? 0 then mret (Done (AtDone label bp c))
          else
            fail_if (negb (c =? 46)) EINVAL;;
            mret (Next (src, label, bp, false))
      end
    else
      match digit_pos c with
      | Some d =>
          '(c, src) ← pton_ddd s d src;
          pton_store eom src label bp c
      | None => pton_store eom src label bp c
      end
  else if c =? 92 then mret (Next (src, label, bp, true))
  else if c =? 46 then pton_dot s eom src label bp
  else pton_store eom src label bp c.

(** From the label [done:] on. *)
Definition pton_done (eom label bp c : Z) : M (list Z) (Z * Z) :=
  fail_if (eom <=? label) EMSGSIZE;;
  wr label (u8 c);;
  bp ←
    (if negb (c =? 0) then
       fail_if (eom <=? bp) EMSGSIZE;;
       wr bp 0;;
       mret (bp + 1)
     else mret bp);
  fail_if (NS_MAXCDNAME <? bp) EMSGSIZE;;
  mret (0, bp).

(** The result is the returned value and [*dstlen]. *)
Definition ns_name_pton2 (src : list Z) (dstsiz : Z) : M (list Z) (Z * Z) :=
  let eom := dstsiz in
  e ← loop (Datatypes.S (length src)) (pton_step src eom) (0, 0, 1, false);
  match e with
  | Qualified bp => mret (1, bp)
  | AtDone label bp c => pton_done eom label bp c
  | AtEnd label bp =>
      let c := bp - label - 1 in
      fail_if (negb (Z.land c NS_CMPRSFLGS =? 0)) EMSGSIZE;;
      pton_done eom label bp c
  end.

Definition ns_name_pton (src : list Z) (dstsiz : Z) : M (list Z) Z :=
  '(r, _) ← ns_name_pton2 src dstsiz; mret r.

(** ** Lower case *)

Definition ntol_char (src : list Z) '((cp, dn, l) : Z * Z * Z)
    : M (list Z) (step (Z * Z * Z) (Z * Z)) :=
  if negb (0 <? l) then mret (Done (cp, dn))
  else
    c ← rd src cp;
    wr dn (if ascii_upper c then c + 32 else c);;
    mret (Next (cp + 1, dn + 1, l - 1)).

Definition ntol_label (src : list Z) (eom : Z) '((cp, dn) : Z * Z)
    : M (list Z) (step (Z * Z) Z) :=
  n ← rd src cp;
  let cp := cp + 1 in
  if n =? 0 then mret (Done dn)
  else
    fail_if (Z.land n NS_CMPRSFLGS =? NS_CMPRSFLGS) EMSGSIZE;;
    wr dn n;;
    let dn := dn + 1 in
    l ← labellen src (cp - 1);
    fail_if (l <? 0) EMSGSIZE;;
    fail_if (eom <=? dn + l) EMSGSIZE;;
    l ← loop (Datatypes.S (Z.to_nat l)) (ntol_char src) (cp, dn, l);
    mret (Next l).

Definition ns_name_ntol (src : list Z) (dstsiz : Z) : M (list Z) Z :=
  let eom := dstsiz in
  fail_if (eom <=? 0) EMSGSIZE;;
  dn ← loop (Datatypes.S (length src)) (ntol_label src eom) (0, 0);
  wr dn 0;;
  mret (dn + 1).

(** ** Unpacking a possibly compressed name *)

(** One iteration of [while ((n = *srcp++) != 0)]; the message is [msg] from
    its first byte on and [eom] its length, so that [eom - msg] is [eom]. *)
Definition unpack_step (msg : list Z) (eom src dstlim : Z) '((srcp, dstp, len, checked) : Z * Z * Z * Z)
    : M (list Z) (step (Z * Z * Z * Z) (Z * Z * Z)) :=
  n ← rd msg srcp;
  let srcp := srcp + 1 in
  if n =? 0 then mret (Done (srcp, dstp, len))
  else
    let t := Z.land n NS_CMPRSFLGS in
    if (t =? 0) || (t =? NS_TYPE_ELT) then
      l ← labellen msg (srcp - 1);
      fail_if (l <? 0) EMSGSIZE;;
      fail_if ((dstlim <=? dstp + l + 1) || (eom <=? srcp + l)) EMSGSIZE;;
      let checked := checked + (l + 1) in
      wr dstp n;;
      memcpy msg (dstp + 1) srcp l;;
      mret (Next (srcp + l, dstp + 1 + l, len, checked))
    else if t =? NS_CMPRSFLGS then
      fail_if (eom <=? srcp) EMSGSIZE;;
      let len := if len <? 0 then srcp - src + 1 else len in
      b ← rd msg srcp;
      let l := Z.lor (Z.shiftl (Z.land n 0x3f) 8) (Z.land b 0xff) in
      fail_if (eom <=? l) EMSGSIZE;;
      let srcp := l in
      let checked := checked + 2 in
      fail_if (eom <=? checked) EMSGSIZE;;
      mret (Next (srcp, dstp, len, checked))
    else fail EMSGSIZE.

(** The result is the returned length and [*dstlen]. *)
Definition ns_name_unpack2 (msg : list Z) (eom src dstsiz : Z) : M (list Z) (Z * Z) :=
  let dstlim := dstsiz in
  fail_if ((src <? 0) || (eom <=? src)) EMSGSIZE;;
  '(srcp, dstp, len) ←
    loop (Z.to_nat (dstsiz + eom) + 1) (unpack_step msg eom src dstlim) (src, 0, -1, 0);
  wr dstp 0;;
  let dstlen := dstp + 1 in
  let len := if len <? 0 then srcp - src else len in
  mret (len, dstlen).

Definition ns_name_unpack (msg : list Z) (eom src dstsiz : Z) : M (list Z) Z :=
  '(len, _) ← ns_name_unpack2 msg eom src dstsiz; mret len.

(** [u_char tmp[NS_MAXCDNAME]] is the scratch buffer between the two calls; its
    bytes are indeterminate at first, [tmp0] here. *)
Definition ns_name_uncompress (tmp0 msg : list Z) (eom src dstsiz : Z) : M (list Z) Z := fun dst =>
  match ns_name_unpack msg eom src NS_MAXCDNAME tmp0 with
  | (Ret n, tmp) => (_ ← ns_name_ntop tmp dstsiz; mret n) dst
  | (Err e, _) => (Err e, dst)
  | (Undef, _) => (Undef, dst)
  | (NoFuel, _) => (NoFuel, dst)
  end.

(** ** Packing with compression pointers *)

(** The message being built and the array [dnptrs] that the caller passes;
    an entry of the array is an offset into the message or NULL. *)
Record packing : Type := Packing { pk_buf : list Z; pk_dnptrs : list (option Z) }.

Definition on_buf {A} (m : M (list Z) A) : M packing A :=
  zoom pk_buf (fun b p => Packing b (pk_dnptrs p)) m.
Definition on_dnptrs {A} (m : M (list (option Z)) A) : M packing A :=
  zoom pk_dnptrs (fun d p => Packing (pk_buf p) d) m.

(** The comparison loop of [dn_find], [for (; n > 0; n--) if (mklower( *dn++) !=
    mklower( *cp++)) goto next;]: [None] for [goto next]. *)
Definition dn_find_chars {S} (domain buf : list Z) '((dn, cp, n) : Z * Z * Z)
    : M S (step (Z * Z * Z) (option (Z * Z))) :=
  if negb (0 <? n) then mret (Done (Some (dn, cp)))
  else
    d ← rd domain dn;
    c ← rd buf cp;
    if negb (mklower d =? mklower c) then mret (Done None)
    else mret (Next (dn + 1, cp + 1, n - 1)).

(** One iteration of [while ((n = *cp++) != 0)]: [Done true] when the name at
    [sp] is the rest of [domain], [Done false] for [goto next] and for the end
    of the loop. *)
Definition dn_find_label {S} (domain buf : list Z) (msg : Z) '((dn, cp) : Z * Z)
    : M S (step (Z * Z) bool) :=
  n ← rd buf cp;
  let cp := cp + 1 in
  if n =? 0 then mret (Done false)
  else
    let t := Z.land n NS_CMPRSFLGS in
    if t =? 0 then
      n ← labellen buf (cp - 1);
      d ← rd domain dn;
      let dn := dn + 1 in
      if negb (n =? d) then mret (Done false)
      else
        r ← loop (Datatypes.S (Z.to_nat n)) (dn_find_chars domain buf) (dn, cp, n);
        match r with
        | None => mret (Done false)
        | Some (dn, cp) =>
            d ← rd domain dn;
            c ← (if d =? 0 then rd buf cp else mret 1);
            if (d =? 0) && (c =? 0) then mret (Done true)
            else if negb (d =? 0) then mret (Next (dn, cp)) else mret (Done false)
        end
    else if t =? NS_CMPRSFLGS then
      c ← rd buf cp;
      mret (Next (dn, msg + Z.lor (Z.shiftl (Z.land n 0x3f) 8) c))
    else fail EMSGSIZE.

(** One iteration of the loop over the suffixes [sp] of a saved name. *)
Definition dn_find_suffix {S} (fuel : nat) (domain buf : list Z) (msg domp sp : Z)
    : M S (step Z (option Z)) :=
  b ← rd buf sp;
  if negb (b =? 0) && (Z.land b NS_CMPRSFLGS =? 0) && (sp - msg <? 0x4000) then
    found ← loop fuel (dn_find_label domain buf msg) (domp, sp);
    if found : bool then mret (Done (Some (sp - msg)))
    else mret (Next (sp + (b + 1)))
  else mret (Done None).

(** [for (cpp = dnptrs; cpp < lastdnptr; cpp++)], the entries being [ptrs]; the
    fuel bounds the walk of one name and of its suffixes. *)
Fixpoint dn_find {S} (fuel : nat) (domain : list Z) (domp : Z) (buf : list Z) (msg : Z)
    (ptrs : list (option Z)) : M S Z :=
  match ptrs with
  | [] => fail ENOENT
  | None :: _ => undef
  | Some sp :: ptrs =>
      r ← loop fuel (dn_find_suffix fuel domain buf msg domp) sp;
      match r with
      | Some off => mret off
      | None => dn_find fuel domain domp buf msg ptrs
      end
  end.

(** [for (cpp = dnptrs; *cpp != NULL; cpp++) continue;] *)
Definition end_of_list {S} (dnptrs : list (option Z)) (cpp : Z) : M S (step Z Z) :=
  p ← rd dnptrs cpp;
  match p with Some _ => mret (Next (cpp + 1)) | None => mret (Done cpp) end.

(** The [do ... while (n != 0)] that checks the name to be added. *)
Definition pack_check {S} (src : list Z) '((srcp, l) : Z * Z) : M S (step (Z * Z) unit) :=
  n ← rd src srcp;
  fail_if (Z.land n NS_CMPRSFLGS =? NS_CMPRSFLGS) EMSGSIZE;;
  l0 ← labellen src srcp;
  fail_if (l0 <? 0) EINVAL;;
  let l := l + (l0 + 1) in
  fail_if (NS_MAXCDNAME <? l) EMSGSIZE;;
  let srcp := srcp + (l0 + 1) in
  if negb (n =? 0) then mret (Next (srcp, l)) else mret (Done tt).

(** How the second loop ends: with a pointer written ([return (dstp - dst)]),
    at the root label, or by [goto cleanup]. *)
Inductive pack_exit : Type :=
  | Packed (dstp : Z)
  | AtRoot (dstp : Z)
  | Cleanup.

Record pack_locals : Type := PackLocals { pl_srcp : Z; pl_dstp : Z; pl_cpp : Z; pl_first : bool }.

(** "Look to see if we can use pointers": [Some (Some l)] when [dn_find] found
    the name at [l], [Some None] when it did not, [None] when no search is made. *)
Definition pack_search (fuel : nat) (src : list Z) (msg : option Z) (lpp n srcp : Z)
    : M packing (option (option Z)) :=
  match msg with
  | Some m =>
      if negb (n =? 0) then
        p ← getS;
        r ← try (dn_find fuel src srcp (pk_buf p) m (ztake (lpp - 1) (zdrop 1 (pk_dnptrs p))));
        mret (Some (match r with inl l => Some l | inr _ => None end))
      else mret None
  | None => mret None
  end.

(** "Not found, save it": the pointer is stored behind the list. *)
Definition pack_save (lastdnptr : option Z) (m : Z) '((cpp, dstp, first) : Z * Z * bool)
    : M packing (Z * bool) :=
  match lastdnptr with
  | Some last =>
      if (cpp <? last - 1) && (dstp - m <? 0x4000) && first then
        on_dnptrs (wr cpp (Some dstp);; wr (cpp + 1) None);;
        mret (cpp + 1, false)
      else mret (cpp, first)
  | None => mret (cpp, first)
  end.

(** One iteration of the [do ... while (n != 0)] that copies the labels. *)
Definition pack_label (fuel : nat) (src : list Z) (eob : Z) (msg lastdnptr : option Z) (lpp : Z)
    (l : pack_locals) : M packing (step pack_locals pack_exit) :=
  let '(PackLocals srcp dstp cpp first) := l in
  n ← rd src srcp;
  r ← pack_search fuel src msg lpp n srcp;
  match r with
  | Some (Some l) =>
      if eob <=? dstp + 1 then mret (Done Cleanup)
      else
        on_buf (wr dstp (u8 (Z.lor (Z.shiftr l 8) NS_CMPRSFLGS));; wr (dstp + 1) (l mod 256));;
        mret (Done (Packed (dstp + 2)))
  | _ =>
      '(cpp, first) ←
        match r, msg with
        | Some None, Some m => pack_save lastdnptr m (cpp, dstp, first)
        | _, _ => mret (cpp, first)
        end;
      if Z.land n NS_CMPRSFLGS =? NS_CMPRSFLGS then mret (Done Cleanup)
      else
        n' ← labellen src srcp;
        if eob <=? dstp + 1 + n' then mret (Done Cleanup)
        else
          on_buf (memcpy src dstp srcp (n' + 1));;
          let srcp := srcp + (n' + 1) in
          let dstp := dstp + (n' + 1) in
          if negb (n' =? 0) then mret (Next (PackLocals srcp dstp cpp first))
          else mret (Done (AtRoot dstp))
  end.

(** [ns_name_pack(src, buf + dst, dstsiz, dnptrs, lastdnptr)]: [use_ptrs] tells
    whether [dnptrs] is not NULL, [lastdnptr] is the index of the last slot. *)
Definition ns_name_pack (src : list Z) (dst dstsiz : Z) (use_ptrs : bool) (lastdnptr : option Z)
    : M packing Z :=
  let eob := dst + dstsiz in
  p ← getS;
  msg ← (if use_ptrs then rd (pk_dnptrs p) 0 else mret None);
  lpp ←
    match msg with
    | Some _ => loop (Datatypes.S (length (pk_dnptrs p))) (end_of_list (pk_dnptrs p)) 1
    | None => mret 0
    end;
  loop (Datatypes.S (length src)) (pack_check src) (0, 0);;
  e ← loop (Datatypes.S (length src))
        (pack_label (Datatypes.S (length (pk_buf p) + length src)) src eob msg lastdnptr lpp)
        (PackLocals 0 dst lpp true);
  match e with
  | Packed dstp => mret (dstp - dst)
  | AtRoot dstp =>
      if eob <? dstp then
        match msg with Some _ => on_dnptrs (wr lpp None) | None => mret tt end;;
        fail EMSGSIZE
      else mret (dstp - dst)
  | Cleanup =>
      match msg with Some _ => on_dnptrs (wr lpp None) | None => mret tt end;;
      fail EMSGSIZE
  end.

Definition ns_name_compress (tmp0 src : list Z) (dst dstsiz : Z) (use_ptrs : bool)
    (lastdnptr : option Z) : M packing Z := fun p =>
  match ns_name_pton src NS_MAXCDNAME tmp0 with
  | (Ret _, tmp) => ns_name_pack tmp dst (s32 dstsiz) use_ptrs lastdnptr p
  | (Err e, _) => (Err e, p)
  | (Undef, _) => (Undef, p)
  | (NoFuel, _) => (NoFuel, p)
  end.

(** One iteration of the [while] of [ns_name_rollback]. *)
Definition rollback_step (src last : Z) (p : Z) : M (list (option Z)) (step Z unit) :=
  if p <? last then
    v ← rdS p;
    match v with
    | None => mret (Done tt)
    | Some v =>
        if src <=? v then wr p None;; mret (Done tt) else mret (Next (p + 1))
    end
  else mret (Done tt).

Definition ns_name_rollback (src dnptrs lastdnptr : Z) : M (list (option Z)) unit :=
  a ← getS;
  loop (Datatypes.S (length a)) (rollback_step src lastdnptr) dnptrs.

(** ** Walking and comparing names *)

(** One iteration of [while (cp < eom && (n = *cp++) != 0)]; the local [l]
    keeps the value of an earlier iteration. *)
Definition skip_step {S} (b : list Z) (eom : Z) '((cp, l) : Z * Z) : M S (step (Z * Z) Z) :=
  if negb (cp <? eom) then mret (Done cp)
  else
    n ← rd b cp;
    let cp := cp + 1 in
    if n =? 0 then mret (Done cp)
    else
      let t := Z.land n NS_CMPRSFLGS in
      if t =? 0 then mret (Next (cp + n, l))
      else if t =? NS_TYPE_ELT then
        l ←
          (if cp <? eom then
             l ← labellen b (cp - 1);
             fail_if (l <? 0) EMSGSIZE;;
             mret l
           else mret l);
        mret (Next (cp + l, l))
      else if t =? NS_CMPRSFLGS then mret (Done (cp + 1))
      else fail EMSGSIZE.

(** The result is the new [*ptrptr]. *)
Definition ns_name_skip {S} (b : list Z) (ptr eom : Z) : M S Z :=
  cp ← loop (Datatypes.S (Z.to_nat (eom - ptr))) (skip_step b eom) (ptr, 0);
  fail_if (eom <? cp) EMSGSIZE;;
  mret cp.

(** [while (namesiz-- > 0 && (n = *nname++) != 0)] of [ns_name_length]. *)
Definition length_step {S} (b : list Z) '((nname, namesiz) : Z * Z) : M S (step (Z * Z) Z) :=
  if negb (0 <? namesiz) then mret (Done nname)
  else
    let namesiz := namesiz - 1 in
    n ← rd b nname;
    let nname := nname + 1 in
    if n =? 0 then mret (Done nname)
    else
      fail_if (negb (Z.land n NS_CMPRSFLGS =? 0)) EISDIR;;
      fail_if (namesiz <? n) EMSGSIZE;;
      mret (Next (nname + n, namesiz - n)).

Definition ns_name_length {S} (b : list Z) (nname namesiz : Z) : M S Z :=
  e ← loop (Datatypes.S (Z.to_nat namesiz)) (length_step b) (nname, namesiz);
  mret (e - nname).

(** The same loop in [ns_name_labels], with its counter. *)
Definition labels_step {S} (b : list Z) '((nname, namesiz, ret) : Z * Z * Z)
    : M S (step (Z * Z * Z) Z) :=
  if negb (0 <? namesiz) then mret (Done ret)
  else
    let namesiz := namesiz - 1 in
    n ← rd b nname;
    let nname := nname + 1 in
    if n =? 0 then mret (Done ret)
    else
      fail_if (negb (Z.land n NS_CMPRSFLGS =? 0)) EISDIR;;
      fail_if (namesiz <? n) EMSGSIZE;;
      mret (Next (nname + n, namesiz - n, ret + 1)).

Definition ns_name_labels {S} (b : list Z) (nname namesiz : Z) : M S Z :=
  ret ← loop (Datatypes.S (Z.to_nat namesiz)) (labels_step b) (nname, namesiz, 0);
  mret (ret + 1).

(** One iteration of [while (ac = *a, bc = *b, ac != 0 && bc != 0)]. *)
Definition eq_step {S} (ma : list Z) (ae : Z) (mb : list Z) (be : Z) '((a, b) : Z * Z)
    : M S (step (Z * Z) bool) :=
  ac ← rd ma a;
  bc ← rd mb b;
  if negb (negb (ac =? 0) && negb (bc =? 0)) then mret (Done ((ac =? 0) && (bc =? 0)))
  else
    fail_if (negb (Z.land ac NS_CMPRSFLGS =? 0) || negb (Z.land bc NS_CMPRSFLGS =? 0)) EISDIR;;
    fail_if ((ae <=? a + ac) || (be <=? b + bc)) EMSGSIZE;;
    if negb (ac =? bc) then mret (Done false)
    else
      let a := a + 1 in
      let b := b + 1 in
      r ← strncasecmp ma mb a b ac;
      if negb (r =? 0) then mret (Done false)
      else mret (Next (a + ac, b + bc)).

Definition ns_name_eq {S} (ma : list Z) (a as_ : Z) (mb : list Z) (b bs : Z) : M S bool :=
  loop (Datatypes.S (length ma)) (eq_step ma (a + as_) mb (b + bs)) (a, b).

(** A [struct ns_namemap]: where a label starts and its length. *)
Record ns_namemap : Type := Namemap { nm_base : Z; nm_len : Z }.

(** The loop of [ns_name_owned], over the two maps from index [i] on; the
    counter [an] that it also decrements is not read again. *)
Definition owned_step {S} (ma : list Z) (a : list ns_namemap) (mb : list Z) (b : list ns_namemap)
    '((i, bn) : Z * Z) : M S (step (Z * Z) bool) :=
  if negb (0 <? bn) then mret (Done true)
  else
    x ← rd a i;
    y ← rd b i;
    if negb (nm_len x =? nm_len y) then mret (Done false)
    else
      r ← strncasecmp ma mb (nm_base x) (nm_base y) (nm_len x);
      if negb (r =? 0) then mret (Done false) else mret (Next (i + 1, bn - 1)).

Definition ns_name_owned {S} (ma : list Z) (a : list ns_namemap) (an : Z)
    (mb : list Z) (b : list ns_namemap) (bn : Z) : M S bool :=
  if an <? bn then mret false
  else loop (Datatypes.S (Z.to_nat bn)) (owned_step ma a mb b) (0, bn).

(** The map array is the state. [namelen--] wraps: it is a [size_t]. The fuel
    bounds the recursion, one call per label. *)
Fixpoint ns_name_map (fuel : nat) (b : list Z) (nname namelen mapsize : Z)
    : M (list ns_namemap) Z :=
  match fuel with
  | O => nofuel
  | S fuel =>
      n ← rd b nname;
      let nname := nname + 1 in
      let namelen := (namelen - 1) mod 2 ^ 64 in
      if n =? 0 then
        fail_if (0 <? namelen) EMSGSIZE;;
        mret 0
      else
        fail_if (negb (Z.land n NS_CMPRSFLGS =? 0)) EISDIR;;
        fail_if (namelen <? n) EMSGSIZE;;
        l ← ns_name_map fuel b (nname + n) (namelen - n) mapsize;
        fail_if (mapsize <=? l) ENAMETOOLONG;;
        wr l (Namemap nname n);;
        mret (l + 1)
  end.
