(* ===== verification/NsWire.v ===== *)
(** * Wire-format names: what ns_name_unpack and ns_name_skip compute

    [name_at] and [span] say what a name in a message is; the theorems relate
    [ns_name_unpack2] and [ns_name_skip] of [dns/nameser/ns_name.c] to them. *)
From S2P Require Import Prelude CString NsName.

(** ** Names in a message *)

(** The encoded form of a list of raw labels (length byte included). *)
Definition wire (ls : list (list Z)) : list Z := concat ls ++ [0].

(** [label_at b p n l]: a label with length byte [n] and [l] further bytes. *)
Inductive label_at (b : list Z) (p : Z) : Z -> Z -> Prop :=
  | label_plain n : znth b p = Some n -> 0 < n < 64 -> label_at b p n n
  | label_bits k :
      znth b p = Some 0x41 -> znth b (p + 1) = Some k ->
      label_at b p 0x41 (((if k =? 0 then 256 else k) + 7) / 8 + 1).

(** The target of a compression pointer. *)
Definition ptr_target (n b : Z) : Z := (n - 192) * 256 + b.

(** [name_at msg eom k p ls]: the labels [ls] are found from [p] on, following
    compression pointers; [k] counts the octets looked at before. A pointer is
    followed only while fewer octets than the message has were looked at. *)
Inductive name_at (msg : list Z) (eom : Z) : Z -> Z -> list (list Z) -> Prop :=
  | name_root k p : znth msg p = Some 0 -> name_at msg eom k p []
  | name_label k p n l ls :
      label_at msg p n l -> p + 1 + l < eom ->
      name_at msg eom (k + (l + 1)) (p + 1 + l) ls ->
      name_at msg eom k p ((n :: ztake l (zdrop (p + 1) msg)) :: ls)
  | name_ptr k p n b ls :
      znth msg p = Some n -> 192 <= n -> p + 1 < eom -> znth msg (p + 1) = Some b ->
      ptr_target n b < eom -> k + 2 < eom ->
      name_at msg eom (k + 2) (ptr_target n b) ls ->
      name_at msg eom k p ls.

(** [span msg p e]: the name at [p] occupies the octets up to [e] in place. *)
Inductive span_at (msg : list Z) : Z -> Z -> Prop :=
  | span_root p : znth msg p = Some 0 -> span_at msg p (p + 1)
  | span_label p n l e : label_at msg p n l -> span_at msg (p + 1 + l) e -> span_at msg p e
  | span_ptr p n : znth msg p = Some n -> 192 <= n -> span_at msg p (p + 2).

Create HintDb nsname discriminated.
#[export] Hint Constructors label_at name_at span_at : nsname.

(** ** Bytes and the two flag bits *)

Lemma land_cmprs n : is_byte n ->
  Z.land n NS_CMPRSFLGS =
    if n <? 64 then 0 else if n <? 128 then 64 else if n <? 192 then 128 else 192.
Proof.
  intros Hn. apply Z.eqb_eq.
  exact (byte_check (fun n => Z.land n NS_CMPRSFLGS =?
    if n <? 64 then 0 else if n <? 128 then 64 else if n <? 192 then 128 else 192) n eq_refl Hn).
Qed.

Lemma ptr_target_eq n b : is_byte n -> is_byte b -> 192 <= n ->
  Z.lor (Z.shiftl (Z.land n 0x3f) 8) (Z.land b 0xff) = ptr_target n b.
Proof.
  intros Hn Hb Hl. unfold ptr_target, is_byte in *.
  assert (Hln : Z.land n 0x3f = n - 192).
  { apply Z.eqb_eq. assert (H : (n <? 192) || (Z.land n 0x3f =? n - 192) = true).
    { exact (byte_check (fun n => (n <? 192) || (Z.land n 0x3f =? n - 192)) n eq_refl Hn). }
    destruct (Z.ltb_spec n 192); [lia|exact H]. }
  rewrite Hln. change 0xff with (Z.ones 8). rewrite Z.land_ones, Z.mod_small by lia.
  by rewrite lor_shiftl_add by lia.
Qed.

Lemma is_byte_64 n : is_byte n -> (Z.land n NS_CMPRSFLGS =? 0) = (n <? 64).
Proof. intros Hn. rewrite land_cmprs by done. repeat case_match; lia. Qed.

Lemma is_byte_192 n : is_byte n -> (Z.land n NS_CMPRSFLGS =? NS_CMPRSFLGS) = (192 <=? n).
Proof. intros Hn. rewrite land_cmprs by done. unfold NS_CMPRSFLGS. repeat case_match; lia. Qed.

Lemma is_byte_elt n :
  is_byte n -> (Z.land n NS_CMPRSFLGS =? NS_TYPE_ELT) = (64 <=? n) && (n <? 128).
Proof. intros Hn. rewrite land_cmprs by done. unfold NS_TYPE_ELT. repeat case_match; lia. Qed.

(** ** Labels *)

Section labels.
Context {S : Type}.
Implicit Types (b : list Z) (st : S).

(** [labellen] finds the length of a label and -1 where there is none. *)
Lemma wp_labellen b p n st (Q : Z -> S -> Prop) E :
  bytes b -> znth b p = Some n -> n <> 0 -> (n = 0x41 -> p + 1 < zlen b) ->
  (forall l, label_at b p n l -> 0 < l < 64 -> Q l st) ->
  (64 <= n < 128 -> n <> 0x41 -> Q (-1) st) ->
  (128 <= n < 192 -> Q n st) ->
  (192 <= n -> Q (-1) st) ->
  wp (labellen b p) st Q E.
Proof.
  intros Hb Hn Hn0 Hk HQ HQ1 HQ2 HQ3. assert (Hbn : is_byte n) by (by eapply bytes_znth).
  unfold labellen. wp_step. apply (wp_rd _ _ _ _ _ n Hn).
  rewrite is_byte_192, is_byte_elt by done. unfold is_byte, DNS_LABELTYPE_BITSTRING in *.
  destruct (Z.leb_spec 192 n); [wp_step; by apply HQ3|].
  destruct (Z.leb_spec 64 n), (Z.ltb_spec n 128); cbn.
  - destruct (Z.eqb_spec n 0x41) as [->|Hne]; [|wp_step; by apply HQ1].
    wp_step. apply wp_rd_lt; [pose proof (znth_Some _ _ _ Hn); lia|]. intros k Hk'. wp_step.
    assert (is_byte k) by (by eapply bytes_znth). unfold is_byte in *.
    apply HQ; [by apply label_bits|].
    destruct (Z.eqb_spec k 0); (split; [|apply (Z.lt_le_trans _ (256 / 8 + 2))]);
      try (Z.div_mod_to_equations; lia).
  - wp_step. by apply HQ2.
  - wp_step. apply HQ; [constructor; [done|lia]|lia].
  - lia.
Qed.

Lemma label_at_znth b p n l : label_at b p n l -> znth b p = Some n /\ n <> 0.
Proof. destruct 1; split; try done; lia. Qed.

Lemma label_at_fun b p n l n' l' : label_at b p n l -> label_at b p n' l' -> n = n' /\ l = l'.
Proof.
  destruct 1; destruct 1; simplify_eq; try lia; split; try done; congruence.
Qed.

Lemma label_at_len b p n l : bytes b -> label_at b p n l -> 0 < l < 64.
Proof.
  intros Hb. destruct 1 as [|k ? Hk]; [lia|].
  assert (is_byte k) by (by eapply bytes_znth). unfold is_byte in *.
  destruct (Z.eqb_spec k 0); Z.div_mod_to_equations; lia.
Qed.

Lemma label_at_small b p n l : label_at b p n l -> n < 64 \/ n = 0x41.
Proof. destruct 1; lia. Qed.
End labels.

(** ** Facts about names in a message *)

Section names.
Context (msg : list Z) (eom : Z).
Implicit Types (ls : list (list Z)).

Lemma name_at_0 k p ls : znth msg p = Some 0 -> name_at msg eom k p ls -> ls = [].
Proof.
  intros H0. destruct 1 as [|? ? ? ? ? Hl|]; [done| |simplify_eq; lia].
  destruct (label_at_znth _ _ _ _ Hl). congruence.
Qed.

Lemma name_at_label k p n l ls :
  label_at msg p n l -> name_at msg eom k p ls ->
  exists ls', ls = (n :: ztake l (zdrop (p + 1) msg)) :: ls' /\ p + 1 + l < eom /\
              name_at msg eom (k + (l + 1)) (p + 1 + l) ls'.
Proof.
  intros Hl. destruct (label_at_znth _ _ _ _ Hl) as [Hn Hn0].
  destruct 1 as [|? ? n' l' ? Hl'|? ? n' ? ? Hn']; [simplify_eq| |].
  - destruct (label_at_fun _ _ _ _ _ _ Hl Hl') as [-> ->]. eauto.
  - simplify_eq. destruct (label_at_small _ _ _ _ Hl); lia.
Qed.

Lemma name_at_ptr k p n ls :
  znth msg p = Some n -> 192 <= n -> name_at msg eom k p ls ->
  exists b, znth msg (p + 1) = Some b /\ p + 1 < eom /\ ptr_target n b < eom /\ k + 2 < eom /\
            name_at msg eom (k + 2) (ptr_target n b) ls.
Proof.
  intros Hn Hn'. destruct 1 as [|? ? ? ? ? Hl|]; simplify_eq; try lia; [|eauto 10].
  destruct (label_at_znth _ _ _ _ Hl). simplify_eq.
  destruct (label_at_small _ _ _ _ Hl); lia.
Qed.

Lemma name_at_none k p n ls :
  znth msg p = Some n -> n <> 0 -> n < 192 -> (forall l, ~ label_at msg p n l) ->
  name_at msg eom k p ls -> False.
Proof.
  intros Hn Hn0 Hn1 Hl. destruct 1 as [|? ? ? ? ? Hl'|]; simplify_eq; try lia.
  destruct (label_at_znth _ _ _ _ Hl'). simplify_eq. by eapply Hl.
Qed.

Lemma zlen_wire ls : zlen (wire ls) = zlen (concat ls) + 1.
Proof. unfold wire. zlen_simpl. done. Qed.

Lemma wire_cons x ls : wire (x :: ls) = x ++ wire ls.
Proof. unfold wire. cbn. by rewrite <- app_assoc. Qed.

Lemma concat_snoc ls x : concat (ls ++ [x]) = concat ls ++ x.
Proof. rewrite concat_app. cbn. by rewrite app_nil_r. Qed.

(** Where a name starts is inside the message. *)
Lemma name_at_bound k p ls : name_at msg eom k p ls -> 0 <= p.
Proof.
  destruct 1 as [? ? H|? ? ? ? ? H|? ? ? ? ? H].
  2: apply label_at_znth in H as [H _].
  all: apply znth_Some in H; lia.
Qed.
End names.

(** ** ns_name_unpack2 *)

(** Every read of a well-formed call is inside the message: the last octet is
    not the type octet of a bit-string label, or one more octet is readable. *)
Definition readable (msg : list Z) (eom : Z) : Prop :=
  eom <= zlen msg /\ (eom = zlen msg -> znth msg (eom - 1) <> Some 0x41).

Section unpack.
Context (msg : list Z) (eom src : Z).
Context (Hb : bytes msg) (Hr : readable msg eom).
Implicit Types (dst : list Z).

(** What the loop knows about the name it is reading. *)
Definition unpack_inv (dst : list Z) (dstsiz : Z) '((srcp, dstp, len, checked) : Z * Z * Z * Z)
    (st : list Z) : Prop :=
  exists acc,
    0 <= srcp < eom /\ dstp = zlen (concat acc) /\ dstp < dstsiz /\
    st = splice dst 0 (concat acc) /\
    (forall ls, name_at msg eom 0 src ls <->
                exists ls', ls = acc ++ ls' /\ name_at msg eom checked srcp ls') /\
    ((len < 0 /\ src <= srcp /\ forall e, span_at msg srcp e -> span_at msg src e) \/
     (0 <= len /\ span_at msg src (src + len))).

Definition unpack_ok (dst : list Z) (dstsiz len dstlen : Z) (dst' : list Z) : Prop :=
  exists ls, 0 <= src < eom /\ name_at msg eom 0 src ls /\ span_at msg src (src + len) /\
    dstlen = zlen (wire ls) /\ dstlen <= dstsiz /\ dst' = splice dst 0 (wire ls).

Definition unpack_err (dst : list Z) (dstsiz e : Z) (dst' : list Z) : Prop :=
  e = EMSGSIZE /\ (exists w, dst' = splice dst 0 w /\ zlen w <= dstsiz) /\
  forall ls, 0 <= src < eom -> name_at msg eom 0 src ls -> dstsiz < zlen (wire ls).

Lemma unpack_inv_err dst dstsiz srcp dstp len checked st :
  unpack_inv dst dstsiz (srcp, dstp, len, checked) st ->
  (forall ls acc, dstp = zlen (concat acc) -> name_at msg eom checked srcp ls ->
                  dstsiz < zlen (wire (acc ++ ls))) ->
  unpack_err dst dstsiz EMSGSIZE st.
Proof.
  intros (acc & Hs & -> & Hd & -> & Hn & _) H. split_and!; [done| |].
  - exists (concat acc). split; [done|lia].
  - intros ls _ Hls. apply Hn in Hls as (ls' & -> & Hls'). by apply H.
Qed.

Lemma unpack_inv_label dst dstsiz srcp dstp len checked st n l :
  dstsiz <= zlen dst -> srcp + 1 + l < eom -> dstp + l + 1 < dstsiz -> label_at msg srcp n l ->
  unpack_inv dst dstsiz (srcp, dstp, len, checked) st ->
  unpack_inv dst dstsiz (srcp + 1 + l, dstp + 1 + l, len, checked + (l + 1))
    (splice (zupd st dstp n) (dstp + 1) (ztake l (zdrop (srcp + 1) msg))).
Proof.
  intros Hd Hl1 Hl2 Hl (acc & Hs & -> & Hlt & -> & Hn & Hspan). destruct Hr as [Hr1 _].
  pose proof (label_at_len _ _ _ _ Hb Hl). pose proof (zlen_nonneg (concat acc)).
  assert (Hzl : zlen (ztake l (zdrop (srcp + 1) msg)) = l)
    by (apply zlen_ztake; rewrite zlen_zdrop; lia).
  exists (acc ++ [n :: ztake l (zdrop (srcp + 1) msg)]).
  rewrite concat_snoc, zlen_app, zlen_cons, Hzl. split_and!; try lia.
  - rewrite splice_snoc_alt by lia. rewrite splice_app_alt by (zlen_simpl; lia).
    by rewrite <- app_assoc.
  - intros ls. rewrite Hn. split.
    + intros (ls' & -> & Hls). destruct (name_at_label _ _ _ _ _ _ _ Hl Hls) as (ls'' & -> & ? & ?).
      exists ls''. by rewrite <- app_assoc.
    + intros (ls' & -> & Hls). eexists. rewrite <- app_assoc. split; [done|].
      by apply name_label; [|lia|].
  - destruct Hspan as [(? & ? & Hsp)|?]; [left|by right]. split_and!; [done|lia|].
    intros e He. by eapply Hsp, span_label.
Qed.

Lemma unpack_inv_ptr dst dstsiz srcp dstp len checked st n b :
  znth msg srcp = Some n -> 192 <= n -> srcp + 1 < eom -> znth msg (srcp + 1) = Some b ->
  ptr_target n b < eom -> checked + 2 < eom ->
  unpack_inv dst dstsiz (srcp, dstp, len, checked) st ->
  unpack_inv dst dstsiz
    (ptr_target n b, dstp, if len <? 0 then srcp + 1 - src + 1 else len, checked + 2) st.
Proof.
  intros Hsrc H192 Hs1 Hsrc' Ht Hc (acc & Hs & Hdp & Hlt & Hst & Hn & Hspan).
  assert (Hbn : is_byte n) by (by eapply bytes_znth).
  assert (Hbb : is_byte b) by (by eapply bytes_znth).
  exists acc. split_and!; try done; try (unfold ptr_target, is_byte in *; lia).
  - intros ls. rewrite Hn. split.
    + intros (ls' & -> & Hls). destruct (name_at_ptr _ _ _ _ _ _ Hsrc H192 Hls) as (? & ? & ? & ? & ? & ?).
      simplify_eq. eauto.
    + intros (ls' & -> & Hls). exists ls'. split; [done|]. by eapply name_ptr.
  - right. destruct Hspan as [(Hl & Hle & Hsp)|[Hl Hsp]].
    + rewrite (proj2 (Z.ltb_lt _ _)) by lia.
      replace (src + (srcp + 1 - src + 1)) with (srcp + 2) by lia.
      split; [lia|by eapply Hsp, span_ptr].
    + by rewrite (proj2 (Z.ltb_ge _ _)) by lia.
Qed.

Definition unpack_done (dst : list Z) (dstsiz : Z) '((srcp, dstp, len) : Z * Z * Z)
    (st : list Z) : Prop :=
  exists ls, dstp = zlen (concat ls) /\ dstp < dstsiz /\ name_at msg eom 0 src ls /\
    st = splice dst 0 (concat ls) /\
    span_at msg src (src + if len <? 0 then srcp - src else len).

Lemma unpack_inv_root dst dstsiz srcp dstp len checked st :
  znth msg srcp = Some 0 ->
  unpack_inv dst dstsiz (srcp, dstp, len, checked) st ->
  unpack_done dst dstsiz (srcp + 1, dstp, len) st.
Proof.
  intros Hsrc (acc & Hs & Hdp & Hlt & Hst & Hn & Hspan). exists acc. split_and!; try done.
  - apply Hn. exists []. rewrite app_nil_r. split; [done|by constructor].
  - destruct Hspan as [(Hl & Hle & Hsp)|[Hl Hsp]].
    + rewrite (proj2 (Z.ltb_lt _ _)) by lia.
      replace (src + (srcp + 1 - src)) with (srcp + 1) by lia. by apply Hsp, span_root.
    + by rewrite (proj2 (Z.ltb_ge _ _)) by lia.
Qed.

(** The octets and the locals an error return is reached with. *)
Lemma unpack_inv_none dst dstsiz srcp dstp len checked st n :
  znth msg srcp = Some n -> n <> 0 -> 64 <= n < 192 -> n <> 0x41 ->
  unpack_inv dst dstsiz (srcp, dstp, len, checked) st -> unpack_err dst dstsiz EMSGSIZE st.
Proof.
  intros Hsrc Hn0 Hn1 Hn2 Hinv. eapply unpack_inv_err; [done|]. intros ls acc' _ Hls. exfalso.
  eapply name_at_none; [exact Hsrc|lia|lia| |exact Hls].
  intros l' Hl'. destruct (label_at_small _ _ _ _ Hl'); lia.
Qed.

Lemma unpack_inv_toolong dst dstsiz srcp dstp len checked st n l :
  label_at msg srcp n l -> dstsiz <= dstp + l + 1 \/ eom <= srcp + 1 + l ->
  unpack_inv dst dstsiz (srcp, dstp, len, checked) st -> unpack_err dst dstsiz EMSGSIZE st.
Proof.
  intros Hl Hlim Hinv. destruct Hr as [Hr1 _]. pose proof Hinv as (? & Hs & _).
  pose proof (label_at_len _ _ _ _ Hb Hl).
  eapply unpack_inv_err; [done|]. intros ls acc' Hacc Hls.
  destruct (name_at_label _ _ _ _ _ _ _ Hl Hls) as (ls' & -> & Hlt' & _).
  rewrite zlen_wire, concat_app, zlen_app. cbn. rewrite zlen_cons, zlen_app.
  rewrite zlen_ztake by (rewrite zlen_zdrop; lia).
  pose proof (zlen_nonneg (concat ls')). lia.
Qed.

Lemma unpack_inv_badptr dst dstsiz srcp dstp len checked st n :
  znth msg srcp = Some n -> 192 <= n ->
  (eom <= srcp + 1 \/ eom <= checked + 2 \/
   exists b, znth msg (srcp + 1) = Some b /\ eom <= ptr_target n b) ->
  unpack_inv dst dstsiz (srcp, dstp, len, checked) st -> unpack_err dst dstsiz EMSGSIZE st.
Proof.
  intros Hsrc H192 Hbad Hinv. eapply unpack_inv_err; [done|]. intros ls acc' _ Hls. exfalso.
  destruct (name_at_ptr _ _ _ _ _ _ Hsrc H192 Hls) as (b & Hb' & ? & ? & ? & _).
  destruct Hbad as [?|[?|(b' & ? & ?)]]; simplify_eq; lia.
Qed.

Definition unpack_measure (dstsiz : Z) '((_, dstp, _, checked) : Z * Z * Z * Z) : nat :=
  (Z.to_nat (dstsiz - dstp) + Z.to_nat (eom - checked))%nat.

Lemma wp_unpack_step dst dstsiz l st :
  1 <= dstsiz <= zlen dst -> unpack_inv dst dstsiz l st ->
  wp (unpack_step msg eom src dstsiz l) st
     (fun r st' =>
        match r with
        | Next l' => unpack_inv dst dstsiz l' st' /\
                     (unpack_measure dstsiz l' < unpack_measure dstsiz l)%nat
        | Done r => unpack_done dst dstsiz r st'
        end)
     (unpack_err dst dstsiz).
Proof.
  intros Hd Hinv. destruct l as [[[srcp dstp] len] checked].
  pose proof Hinv as (acc & Hs & Hdp & Hlt & Hst & _). destruct Hr as [Hr1 Hr2].
  pose proof (zlen_nonneg (concat acc)).
  assert (Hspl : zlen st = zlen dst) by (subst st; apply zlen_splice; lia).
  unfold unpack_step, unpack_measure. wp_step. apply wp_rd_lt; [lia|]. intros n Hsrc.
  assert (Hbn : is_byte n) by (by eapply bytes_znth). cbn zeta.
  destruct (Z.eqb_spec n 0) as [->|Hn0]; [wp_step; by eapply unpack_inv_root|].
  rewrite is_byte_64, is_byte_elt, is_byte_192 by done.
  destruct ((n <? 64) || ((64 <=? n) && (n <? 128))) eqn:Ht.
  - wp_step. rewrite Z.add_simpl_r.
    apply (wp_labellen _ _ n); try done; try lia; swap 1 2.
    { intros l Hl Hl64. wp_step. wp_step; [lia|]. wp_step. wp_step.
      { eapply unpack_inv_toolong; [exact Hl| |exact Hinv]; lia. }
      wp_step. wp_step; [lia|]. wp_step. apply wp_memcpy; rewrite ?zlen_zupd; try lia.
      wp_step. split; [|lia]. eapply unpack_inv_label; try done; lia. }
    { intros ->. destruct (decide (srcp + 1 < zlen msg)); [done|]. exfalso.
      apply Hr2; [lia|]. by replace (eom - 1) with srcp by lia. }
    intros ? ?. wp_step. wp_step; [|lia]. eapply unpack_inv_none; [exact Hsrc|done| | |exact Hinv]; lia.
  - destruct (Z.leb_spec 192 n) as [H192|H192].
    2: { wp_step. eapply unpack_inv_none; [exact Hsrc|done| | |exact Hinv]; lia. }
    wp_step. wp_step; [eapply unpack_inv_badptr; [exact Hsrc|exact H192| |exact Hinv]; left; lia|].
    wp_step. apply wp_rd_lt; [lia|]. intros b Hsrc'.
    assert (Hbb : is_byte b) by (by eapply bytes_znth). rewrite ptr_target_eq by done.
    wp_step. wp_step; [eapply unpack_inv_badptr; [exact Hsrc|exact H192| |exact Hinv]; right; right; exists b; split; [done|lia]|].
    wp_step. wp_step; [eapply unpack_inv_badptr; [exact Hsrc|exact H192| |exact Hinv]; right; left; lia|].
    wp_step. split; [|lia]. eapply unpack_inv_ptr; try done; lia.
Qed.

Lemma wp_unpack2 dst dstsiz :
  1 <= dstsiz <= zlen dst ->
  wp (ns_name_unpack2 msg eom src dstsiz) dst
     (fun '(len, dstlen) dst' => unpack_ok dst dstsiz len dstlen dst')
     (unpack_err dst dstsiz).
Proof.
  intros Hd. unfold ns_name_unpack2. wp_step. wp_step.
  { split_and!; [done| |].
    - exists []. split; [by rewrite splice_nil|zlen_simpl; lia].
    - intros ls Hs _. lia. }
  wp_step. eapply wp_conseq.
  { apply (wp_loop (unpack_inv dst dstsiz) (fun l _ => unpack_measure dstsiz l));
      [|unfold unpack_measure; lia|intros; by apply wp_unpack_step].
    exists []. cbn [concat]. split_and!; try (zlen_simpl; lia).
    - symmetry. apply splice_nil.
    - intros ls. split; [by exists ls|]. by intros (? & -> & ?).
    - left. split_and!; [done|lia|done]. }
  intros [[srcp dstp] len] st (ls & -> & Hlt & Hls & -> & Hsp).
  pose proof (zlen_nonneg (concat ls)). wp_step. wp_step; [rewrite zlen_splice; lia|]. wp_step.
  exists ls. rewrite zlen_wire. unfold wire. rewrite splice_snoc_alt by lia.
  split_and!; try done; lia.
Qed.
End unpack.

(** ** ns_name_skip *)

Section skip.
Context {S : Type} (b : list Z) (eom : Z).
Context (Hb : bytes b) (Heom : eom <= zlen b).
Implicit Types (st : S).

Lemma span_at_lt p e : span_at b p e -> 0 <= p < e.
Proof.
  induction 1 as [p H|p n l e H _ IH|p n H _]; [apply znth_Some in H; lia| |apply znth_Some in H; lia].
  pose proof (label_at_len _ _ _ _ Hb H). destruct (label_at_znth _ _ _ _ H) as [H' _].
  apply znth_Some in H'. lia.
Qed.

(** On a complete name the walk ends where the name ends. *)
Lemma wp_skip_loop p e l fuel st E :
  span_at b p e -> e <= eom -> eom - p < Z.of_nat fuel ->
  wp (loop fuel (skip_step b eom) (p, l)) st (fun r st' => r = e /\ st' = st) E.
Proof.
  intros Hs. revert l fuel.
  induction Hs as [p H|p n k e H Hs IH|p n H Hn]; intros l fuel He Hf;
    (destruct fuel as [|fuel];
     [exfalso; try (pose proof (span_at_lt _ _ Hs); pose proof (label_at_len _ _ _ _ Hb H)); lia|]);
    apply wp_loop_S; unfold skip_step.
  - rewrite (proj2 (Z.ltb_lt _ _)) by lia. cbn. wp_step. apply (wp_rd _ _ _ _ _ 0 H). cbn. by wp_step.
  - pose proof (span_at_lt _ _ Hs). pose proof (label_at_len _ _ _ _ Hb H).
    destruct (label_at_znth _ _ _ _ H) as [Hp Hn0]. pose proof (znth_Some _ _ _ Hp).
    assert (Hbn : is_byte n) by (by eapply bytes_znth).
    rewrite (proj2 (Z.ltb_lt p eom)) by lia. cbn [negb]. wp_step. apply (wp_rd _ _ _ _ _ n Hp).
    rewrite (proj2 (Z.eqb_neq n 0)) by done. cbn zeta. rewrite is_byte_64, is_byte_elt by done.
    assert (Hnk : n < 64 /\ k = n \/ 64 <= n < 128 /\ n = 0x41).
    { destruct H; [left|right]; lia. }
    destruct Hnk as [[Hlt ->]|[Hlt Hbits]].
    + rewrite (proj2 (Z.ltb_lt n 64)) by lia. wp_step. apply IH; lia.
    + rewrite (proj2 (Z.ltb_ge n 64)), (proj2 (Z.leb_le 64 n)), (proj2 (Z.ltb_lt n 128)) by lia.
      cbn [andb]. rewrite (proj2 (Z.ltb_lt (p + 1) eom)) by lia. wp_step. wp_step.
      rewrite Z.add_simpl_r. apply (wp_labellen _ _ n); try done; try lia.
      intros k' Hk' _. destruct (label_at_fun _ _ _ _ _ _ H Hk') as [_ <-].
      wp_step. wp_step; [lia|]. wp_step. wp_step. apply IH; lia.
  - assert (Hbn : is_byte n) by (by eapply bytes_znth).
    rewrite (proj2 (Z.ltb_lt p eom)) by lia. cbn [negb]. wp_step. apply (wp_rd _ _ _ _ _ n H).
    rewrite (proj2 (Z.eqb_neq n 0)) by lia. cbn zeta.
    rewrite is_byte_64, is_byte_elt, is_byte_192 by done.
    rewrite (proj2 (Z.ltb_ge n 64)), (proj2 (Z.leb_le 192 n)), (proj2 (Z.ltb_ge n 128)), andb_false_r by lia.
    wp_step. split; [lia|done].
Qed.

Lemma wp_skip p e st E :
  span_at b p e -> e <= eom ->
  wp (ns_name_skip b p eom) st (fun r st' => r = e /\ st' = st) E.
Proof.
  intros Hs He. pose proof (span_at_lt _ _ Hs). unfold ns_name_skip. wp_step.
  eapply wp_conseq; [apply (wp_skip_loop p e); [done|done|lia]|].
  intros r st' [-> ->]. wp_step. wp_step; [lia|]. by wp_step.
Qed.

(** Whatever the octets are, the walk ends and stays inside the message; where
    it ends before [eom] it has walked a complete name. *)
Lemma wp_skip_safe p st :
  0 <= p ->
  wp (ns_name_skip b p eom) st
     (fun r st' => p <= r <= eom /\ (r < eom -> span_at b p r) /\ st' = st)
     (fun e st' => e = EMSGSIZE /\ st' = st).
Proof.
  intros Hp. unfold ns_name_skip. wp_step.
  apply (wp_conseq _ _ (fun r st' => p <= r /\ (r < eom -> span_at b p r) /\ st' = st)).
  - apply (wp_loop (fun '(cp, l) st' => p <= cp /\ 0 <= l /\ st' = st /\
                      (cp < eom -> forall e, span_at b cp e -> span_at b p e))
                   (fun '(cp, _) _ => Z.to_nat (eom - cp))); [split_and!; try lia; done|lia|].
    intros [cp l] st' (Hcp & Hl & -> & Hsp). unfold skip_step. destruct (Z.ltb_spec cp eom); cbn [negb].
    2: { wp_step. split_and!; [done|lia|done]. }
    specialize (Hsp ltac:(done)).
    wp_step. apply wp_rd_lt; [lia|]. intros n Hn.
    assert (Hbn : is_byte n) by (by eapply bytes_znth). cbn zeta.
    destruct (Z.eqb_spec n 0) as [->|Hn0].
    { wp_step. split_and!; [lia|intros _; by apply Hsp, span_root|done]. }
    rewrite is_byte_64, is_byte_elt, is_byte_192 by done. unfold is_byte in *.
    wp_step.
    { wp_step. split_and!; try lia; try done. intros _ e He. apply Hsp.
      eapply (span_label _ _ n n); [apply label_plain; [done|lia]|done]. }
    wp_step; [|wp_step; wp_step; [|done]].
    2: { split_and!; [lia| |done]. intros _. replace (cp + 1 + 1) with (cp + 2) by lia.
         eapply Hsp, span_ptr; [done|lia]. }
    wp_step. destruct (Z.ltb_spec (cp + 1) eom).
    + wp_step. rewrite Z.add_simpl_r. apply (wp_labellen _ _ n); try done; try lia.
      intros k Hk Hk64. wp_step. wp_step; [lia|]. wp_step. wp_step. split_and!; try lia; try done.
      intros _ e He. by eapply Hsp, span_label.
    + wp_step. wp_step. split_and!; try lia; done.
  - intros r st' (? & ? & ->). wp_step. wp_step; [done|]. wp_step. split_and!; [lia|lia|done|done].
Qed.
End skip.

Lemma name_at_span msg eom k p ls e :
  name_at msg eom k p ls -> p < eom -> span_at msg p e -> e <= eom.
Proof.
  intros Hn. revert e.
  induction Hn as [k p H|k p n l ls H Hlt _ IH|k p n b ls H H192 Hlt _ _ _ _ _]; intros e Hp Hs.
  - inversion Hs as [|? ? ? ? Hl|]; simplify_eq; try lia.
    destruct (label_at_znth _ _ _ _ Hl). simplify_eq.
  - destruct (label_at_znth _ _ _ _ H) as [Hz ?]. inversion Hs as [|? n' l' ? Hl|]; simplify_eq.
    + destruct (label_at_fun _ _ _ _ _ _ H Hl) as [-> ->]. by apply IH.
    + destruct (label_at_small _ _ _ _ H); lia.
  - inversion Hs as [|? ? ? ? Hl|]; simplify_eq; try lia.
    destruct (label_at_znth _ _ _ _ Hl). simplify_eq. destruct (label_at_small _ _ _ _ Hl); lia.
Qed.

Lemma span_at_fun b p e e' : span_at b p e -> span_at b p e' -> e = e'.
Proof.
  intros H. revert e'. induction H as [p Hz|p n l e Hl _ IH|p n Hz Hn]; intros e' H'.
  - inversion H' as [|? ? ? ? Hl'|]; simplify_eq; [done| |lia]. destruct (label_at_znth _ _ _ _ Hl'). simplify_eq.
  - destruct (label_at_znth _ _ _ _ Hl) as [Hz Hn0]. inversion H' as [|? ? ? ? Hl'|]; simplify_eq.
    + destruct (label_at_fun _ _ _ _ _ _ Hl Hl') as [-> ->]. by apply IH.
    + destruct (label_at_small _ _ _ _ Hl); lia.
  - inversion H' as [|? ? ? ? Hl'|]; simplify_eq; [lia| |done].
    destruct (label_at_znth _ _ _ _ Hl'). simplify_eq. destruct (label_at_small _ _ _ _ Hl'); lia.
Qed.

(** ** Properties *)


Definition sample_msg : list Z := [1; 97; 1; 98; 0; 1; 99; 0xc0; 2].


(** Without the side condition on the last octet the bound is violated: on
    a message that ends in a bit-string type octet [ns_name_unpack2] reads the
    octet behind the message, for every destination. *)
Theorem ns_name_unpack2_overread (msg dst : list Z) (dstsiz : Z) :
  fst (ns_name_unpack2 (msg ++ [0x41]) (zlen msg + 1) (zlen msg) dstsiz dst) = Undef.
Proof.
  unfold ns_name_unpack2, fail_if. pose proof (zlen_nonneg msg).
  rewrite (proj2 (Z.ltb_ge (zlen msg) 0)), (proj2 (Z.leb_gt (zlen msg + 1) (zlen msg))) by lia.
  replace (Z.to_nat (dstsiz + (zlen msg + 1)) + 1)%nat
    with (S (Z.to_nat (dstsiz + (zlen msg + 1)))) by lia.
  rewrite loop_S. unfold unpack_step, labellen, rd, mbind, M_bind. cbn.
  rewrite znth_middle. cbn. rewrite Z.add_simpl_r, znth_middle. cbn.
  rewrite znth_None; [done|]. zlen_simpl. lia.
Qed.

(** [ns_name_skip] and [ns_name_unpack2] agree: whenever a name can be
    unpacked, skipping it advances by exactly the returned number of octets;
    on arbitrary octets skipping terminates, reads nothing behind [eom] and
    either fails with EMSGSIZE or ends inside the message. *)
Theorem ns_name_skip_unpack (msg dst : list Z) (eom src dstsiz : Z) :
  bytes msg -> readable msg eom -> 1 <= dstsiz <= zlen dst ->
  (0 <= src <= eom ->
   wp (ns_name_skip msg src eom) tt (fun r _ => src <= r <= eom) (fun e _ => e = EMSGSIZE)) /\
  wp (ns_name_unpack2 msg eom src dstsiz) dst
     (fun '(len, _) _ =>
        wp (ns_name_skip msg src eom) tt (fun r _ => r = src + len) (fun _ _ => False))
     (fun _ _ => True).
Proof.
  intros Hb Hr Hd. pose proof Hr as [Hr1 _]. split.
  - intros Hs. eapply wp_mono; [apply wp_skip_safe; [done|done|lia]|tauto|tauto].
  - eapply wp_mono; [by apply wp_unpack2| |done].
    intros [len dstlen] st (ls & Hs & Hn & Hsp & _).
    eapply wp_conseq; [eapply wp_skip; [done|done|exact Hsp|]|tauto].
    eapply name_at_span; [exact Hn|lia|exact Hsp].
Qed.

Lemma ns_name_skip_unpack_witness :
  readable sample_msg 9 /\
  ((0 <= 5 <= 9 ->
    wp (ns_name_skip sample_msg 5 9) tt (fun r _ => 5 <= r <= 9) (fun e _ => e = EMSGSIZE)) /\
   wp (ns_name_unpack2 sample_msg 9 5 8) (replicate 8 7)
     (fun '(len, _) _ =>
        wp (ns_name_skip sample_msg 5 9) tt (fun r _ => r = 5 + len) (fun _ _ => False))
     (fun _ _ => True)).
Proof.
  assert (Hr : readable sample_msg 9) by (split; [vm_compute; discriminate|intros _; vm_compute; discriminate]).
  split; [exact Hr|]. apply (ns_name_skip_unpack sample_msg (replicate 8 7) 9 5 8).
  - repeat constructor; unfold is_byte; lia.
  - exact Hr.
  - vm_compute. split; discriminate.
Defined.
