(* ===== verification/NsText.v ===== *)
(** * Presentation format: the text of a label

    What [ns_name_ntop] prints for a character, for a plain label and for a
    bit-string label ([dns/nameser/ns_name.c]), with the rules for the loops
    that print them. *)
From S2P Require Import Prelude CString NsName NsWire.

(** ** The text of a name *)

(** The presentation form of one character of a label. *)
Definition esc (c : Z) : list Z :=
  if special c then [92; c]
  else if negb (printable c) then [92; 48 + c / 100; 48 + (c mod 100) / 10; 48 + c mod 10]
  else [c].

Definition escs (l : list Z) : list Z := mjoin (map esc l).

Lemma escs_cons c l : escs (c :: l) = esc c ++ escs l.
Proof. done. Qed.

Lemma escs_app l l' : escs (l ++ l') = escs l ++ escs l'.
Proof. unfold escs. by rewrite map_app, join_app. Qed.

Lemma esc_len c : 1 <= zlen (esc c).
Proof. unfold esc. repeat case_match; zlen_simpl; vm_compute; congruence. Qed.

Lemma escs_len l : zlen l <= zlen (escs l).
Proof.
  induction l as [|c l IH]; [done|]. rewrite escs_cons, zlen_cons, zlen_app.
  pose proof (esc_len c). lia.
Qed.

Lemma digits_nth d : 0 <= d < 10 -> znth digits d = Some (48 + d).
Proof.
  intros H. assert (Hd : is_byte d) by (unfold is_byte; lia).
  assert (Hc : negb (d <? 10) || bool_decide (znth digits d = Some (48 + d)) = true)
    by exact (byte_check (fun d => negb (d <? 10) || bool_decide (znth digits d = Some (48 + d))) d eq_refl Hd).
  rewrite (proj2 (Z.ltb_lt _ _)) in Hc by lia. by apply bool_decide_eq_true in Hc.
Qed.

(** ** ns_name_ntop *)

Section ntop.
Context (dst : list Z) (eom : Z) (Heom : 0 <= eom <= zlen dst).
Implicit Types (w l q s : list Z).

(** An error return says that the text with its terminator does not fit (a
    bit-string label asks for [k] = 1 byte more than it needs). *)
Definition ntop_err (k : Z) (t : list Z) (e : Z) (s : list Z) : Prop :=
  e = EMSGSIZE /\ eom < zlen t + 1 + k /\ exists w, filled dst eom w s.

Lemma wp_ntop_char src cp w c l s (Q : step (Z * Z * Z) (Z * Z) -> list Z -> Prop) k t :
  0 <= k ->
  is_byte c -> znth src cp = Some c -> 0 <= zlen l -> filled dst eom w s ->
  zlen (w ++ esc c) <= zlen t ->
  (forall s', filled dst eom (w ++ esc c) s' -> Q (Next (cp + 1, zlen (w ++ esc c), zlen l)) s') ->
  wp (ntop_char src eom (cp, zlen w, zlen (c :: l))) s Q (ntop_err k t).
Proof.
  intros Hk Hc Hcp Hl Hw Ht HQ. assert (Heom' : eom <= zlen dst) by lia.
  unfold ntop_char. rewrite zlen_cons.
  rewrite (proj2 (Z.ltb_lt _ _)) by lia. cbn [negb]. wp_step. apply (wp_rd _ _ _ _ _ c Hcp).
  cbn zeta. rewrite Z.add_simpl_r. rewrite zlen_app in *. unfold esc in *.
  assert (Herr : forall j, eom <= zlen w + j -> zlen w + j + 1 <= zlen t -> ntop_err k t EMSGSIZE s)
    by (intros; split_and!; [done|lia|by exists w]).
  destruct (special c); [|destruct (negb (printable c))].
  - wp_step. wp_step; [apply (Herr 1); [lia|revert Ht; zlen_simpl; lia]|].
    wp_step. apply (wp_wr_filled dst eom Heom' w 92); [done|lia|]. intros s1 G1.
    wp_step. replace (zlen w + 1) with (zlen (w ++ [92])) by (zlen_simpl; lia).
    apply (wp_wr_filled dst eom Heom' _ c); [done|zlen_simpl; lia|]. intros s2 G2.
    wp_step. replace (zlen w + 2) with (zlen w + zlen [92; c]) by (by zlen_simpl).
    apply HQ. by rewrite <- app_assoc in G2.
  - unfold is_byte in *. wp_step. wp_step; [apply (Herr 3); [lia|revert Ht; zlen_simpl; lia]|].
    assert (0 <= c / 100 < 10) by (Z.div_mod_to_equations; lia).
    assert (0 <= c mod 100 / 10 < 10) by (Z.div_mod_to_equations; lia).
    assert (0 <= c mod 10 < 10) by (Z.div_mod_to_equations; lia).
    do 3 (wp_step; eapply wp_rd; [by apply digits_nth|]).
    wp_step. apply (wp_wr_filled dst eom Heom' w 92); [done|lia|]. intros s1 G1.
    wp_step. replace (zlen w + 1) with (zlen (w ++ [92])) by (zlen_simpl; lia).
    apply (wp_wr_filled dst eom Heom'); [done|zlen_simpl; lia|]. intros s2 G2.
    wp_step. replace (zlen w + 2) with (zlen ((w ++ [92]) ++ [48 + c / 100])) by (zlen_simpl; lia).
    apply (wp_wr_filled dst eom Heom'); [done|zlen_simpl; lia|]. intros s3 G3.
    wp_step. replace (zlen w + 3) with (zlen (((w ++ [92]) ++ [48 + c / 100]) ++ [48 + c mod 100 / 10]))
      by (zlen_simpl; lia).
    apply (wp_wr_filled dst eom Heom'); [done|zlen_simpl; lia|]. intros s4 G4.
    wp_step. rewrite <- !app_assoc in G4.
    replace (zlen w + 4) with (zlen w + zlen [92; 48 + c / 100; 48 + c mod 100 / 10; 48 + c mod 10])
      by (by zlen_simpl).
    by apply HQ.
  - wp_step. wp_step; [apply (Herr 0); [lia|revert Ht; zlen_simpl; lia]|].
    wp_step. apply (wp_wr_filled dst eom Heom' w c); [done|lia|]. intros s1 G1.
    wp_step. by apply (HQ s1).
Qed.

Lemma wp_ntop_chars src p l q w s k t fuel :
  0 <= k -> src = p ++ l ++ q -> bytes l -> filled dst eom w s -> zlen (w ++ escs l) <= zlen t ->
  (length l < fuel)%nat ->
  wp (loop fuel (ntop_char src eom) (zlen p, zlen w, zlen l)) s
     (fun '(cp, dn) s' => cp = zlen (p ++ l) /\ dn = zlen (w ++ escs l) /\
                          filled dst eom (w ++ escs l) s') (ntop_err k t).
Proof.
  intros Hk -> Hb. revert p w s fuel. induction Hb as [|c l Hc Hb IH];
    intros p w s [|fuel] Hw Ht Hf; cbn in Hf; try lia; apply wp_loop_S.
  - unfold ntop_char. change (zlen (@nil Z)) with 0. cbn. wp_step. by rewrite !app_nil_r.
  - rewrite escs_cons, app_assoc in Ht.
    apply (wp_ntop_char _ _ _ _ _ _ _ k t); [done|done|apply znth_middle|apply zlen_nonneg|done| |].
    { rewrite (zlen_app _ (escs l)) in Ht. pose proof (zlen_nonneg (escs l)). lia. }
    intros s' Hw'. replace (zlen p + 1) with (zlen (p ++ [c])) by (zlen_simpl; lia).
    specialize (IH (p ++ [c]) _ _ fuel Hw' Ht ltac:(lia)).
    rewrite <- !app_assoc in IH. exact IH.
Qed.


Lemma wp_snprintf w t s (Q : Z -> list Z -> Prop) E :
  filled dst eom w s -> zlen w + zlen t < eom ->
  (forall s', filled dst eom (w ++ t) s' -> Q (zlen t) s') ->
  wp (snprintf (zlen w) (eom - zlen w) t) s Q E.
Proof.
  intros Hw Hl HQ. pose proof (zlen_nonneg w). pose proof (zlen_nonneg t).
  destruct (filled_len _ _ _ _ Hw) as [Hwl Hs].
  assert (Heom' : eom <= zlen dst) by lia.
  unfold snprintf. rewrite (proj2 (Z.eqb_neq _ _)) by lia. cbn zeta.
  rewrite ztake_ge by lia. wp_step. apply wp_memcpy; zlen_simpl; try lia.
  rewrite ztake_ge by (rewrite zdrop_0; zlen_simpl; lia). rewrite zdrop_0.
  wp_step. apply HQ. eapply filled_app_inv. rewrite <- app_assoc.
  apply filled_splice; [done|done|zlen_simpl; lia].
Qed.
End ntop.

(** ** Bit-string labels in presentation format *)

(** The number of bits that the octet behind the type byte stands for. *)
Definition bitlen (k : Z) : Z := if k =? 0 then 256 else k.

(** The digits of the last, incomplete octet. The octet is sign-extended and
    the mask keeps more than its eight bits. *)
Definition bits_tail (b tc : Z) : list Z :=
  if 4 <? b then fmt_x 2 (Z.land (s8 tc) (Z.shiftl 0xff (8 - b)))
  else if 0 <? b then
    fmt_x 1 (Z.land (Z.land (Z.shiftr (u32 (s8 tc)) 4) 0x0f) (Z.shiftl 0x0f (4 - b)))
  else [].

Definition bits_text (k : Z) (l : list Z) : list Z :=
  [92; 91; 120] ++ mjoin (map (fmt_x 2) (ztake (bitlen k / 8) l)) ++
  bits_tail (bitlen k mod 8) (default 0 (znth l (bitlen k / 8))) ++
  [47] ++ fmt_d (bitlen k) ++ [93].

(** What [decode_bitstring] reserves, terminator included. *)
Definition bits_room (k : Z) : Z :=
  (bitlen k + 3) / 4 + 6 + (if 99 <? bitlen k then 3 else if 9 <? bitlen k then 2 else 1).

Lemma fmt_x_2_len c : is_byte c -> zlen (fmt_x 2 c) = 2.
Proof.
  intros H. apply Z.eqb_eq. exact (byte_check (fun c => zlen (fmt_x 2 c) =? 2) c eq_refl H).
Qed.

Lemma fmt_d_len k : is_byte k ->
  zlen (fmt_d (bitlen k)) = if 99 <? bitlen k then 3 else if 9 <? bitlen k then 2 else 1.
Proof.
  intros H. apply Z.eqb_eq.
  exact (byte_check (fun k => zlen (fmt_d (bitlen k)) =?
    if 99 <? bitlen k then 3 else if 9 <? bitlen k then 2 else 1) k eq_refl H).
Qed.

Lemma bits_tail_len b tc : 0 <= b < 8 -> is_byte tc ->
  (b + 3) / 4 <= zlen (bits_tail b tc) <= (b + 3) / 4 + (if 4 <? b then 1 else 0).
Proof.
  intros Hb Htc.
  assert (H : forall b, In b [0; 1; 2; 3; 4; 5; 6; 7] ->
    ((b + 3) / 4 <=? zlen (bits_tail b tc)) &&
    (zlen (bits_tail b tc) <=? (b + 3) / 4 + (if 4 <? b then 1 else 0)) = true).
  { intros b' Hb'. cbn in Hb'. repeat (destruct Hb' as [<-|Hb'];
      [refine (byte_check (fun tc => _) tc _ Htc); vm_compute; reflexivity|]). done. }
  specialize (H b). rewrite andb_true_iff, !Z.leb_le in H. apply H. cbn. lia.
Qed.

Lemma bitlen_range k : is_byte k -> 1 <= bitlen k <= 256.
Proof. unfold bitlen, is_byte. intros. case_match; lia. Qed.

Lemma zlen_hex l : bytes l -> zlen (mjoin (map (fmt_x 2) l)) = 2 * zlen l.
Proof.
  induction 1 as [|c l Hc Hl IH]; [done|].
  change (mjoin (map (fmt_x 2) (c :: l))) with (fmt_x 2 c ++ mjoin (map (fmt_x 2) l)).
  rewrite zlen_app, zlen_cons, IH, fmt_x_2_len by done. lia.
Qed.

Lemma bytes_ztake i l : bytes l -> bytes (ztake i l).
Proof. apply Forall_take. Qed.

Lemma bits_text_len k l :
  is_byte k -> bytes l -> zlen l = (bitlen k + 7) / 8 ->
  bits_room k - 1 <= zlen (bits_text k l) <= bits_room k /\ zlen l + 1 <= zlen (bits_text k l).
Proof.
  intros Hk Hl Hll. pose proof (bitlen_range k Hk).
  assert (Htc : is_byte (default 0 (znth l (bitlen k / 8)))).
  { destruct (znth l (bitlen k / 8)) eqn:E; cbn; [by eapply bytes_znth|unfold is_byte; lia]. }
  pose proof (bits_tail_len (bitlen k mod 8) _ (Z.mod_pos_bound _ 8 eq_refl) Htc).
  pose proof (zlen_nonneg (bits_tail (bitlen k mod 8) (default 0 (znth l (bitlen k / 8))))).
  unfold bits_text, bits_room in *. zlen_simpl.
  rewrite fmt_d_len, zlen_hex, zlen_ztake by (try apply bytes_ztake; try done; Z.div_mod_to_equations; lia).
  set (d := if 99 <? bitlen k then 3 else if 9 <? bitlen k then 2 else 1) in *.
  assert (1 <= d <= 3) by (unfold d; repeat case_match; lia).
  assert (Hq : (bitlen k + 3) / 4 = 2 * (bitlen k / 8) + (bitlen k mod 8 + 3) / 4)
    by (Z.div_mod_to_equations; lia).
  rewrite Hq. destruct (4 <? bitlen k mod 8); Z.div_mod_to_equations; lia.
Qed.

Section decode.
Context (dst : list Z) (eom : Z) (Heom : 0 <= eom <= zlen dst).
Context (src : list Z) (cp k : Z) (l : list Z).
Context (Hk : is_byte k) (Hl : bytes l) (Hll : zlen l = (bitlen k + 7) / 8).
Context (Hsk : znth src cp = Some k).
Context (Hsl : forall i, 0 <= i < zlen l -> znth src (cp + 1 + i) = znth l i).

Lemma wp_decode_bytes w s :
  filled dst eom w s -> zlen w + 2 * (bitlen k / 8) < eom ->
  wp (loop 64 (decode_bytes src eom) (bitlen k, cp + 1, zlen w)) s
     (fun '(b, cp', dn) s' =>
        let t := mjoin (map (fmt_x 2) (ztake (bitlen k / 8) l)) in
        b = bitlen k mod 8 /\ cp' = cp + 1 + bitlen k / 8 /\ dn = zlen (w ++ t) /\
        filled dst eom (w ++ t) s') (fun _ _ => False).
Proof.
  intros Hw Hd. pose proof (bitlen_range k Hk).
  apply (wp_loop (fun '(b, c, dn) s' => exists i, 0 <= i <= bitlen k / 8 /\ b = bitlen k - 8 * i /\
           c = cp + 1 + i /\ dn = zlen (w ++ mjoin (map (fmt_x 2) (ztake i l))) /\
           filled dst eom (w ++ mjoin (map (fmt_x 2) (ztake i l))) s')
         (fun '(b, _, _) _ => Z.to_nat (b / 8))).
  { exists 0. change (ztake 0 l) with (@nil Z). cbn. rewrite app_nil_r.
    split_and!; try done; try lia. Z.div_mod_to_equations; lia. }
  { Z.div_mod_to_equations; lia. }
  intros [[b c] dn] s' (i & Hi & -> & -> & -> & Hf). unfold decode_bytes.
  set (t := mjoin (map (fmt_x 2) (ztake i l))) in *.
  assert (Hil : i <= zlen l) by (Z.div_mod_to_equations; lia).
  assert (Ht : zlen t = 2 * i).
  { unfold t. rewrite zlen_hex by (by apply bytes_ztake). rewrite zlen_ztake; lia. }
  destruct (Z.ltb_spec 7 (bitlen k - 8 * i)) as [H7|H7].
  - assert (i < zlen l) by (Z.div_mod_to_equations; lia).
    assert (i + 1 <= bitlen k / 8) by (Z.div_mod_to_equations; lia).
    destruct (znth_lt l i) as [c Hc]; [lia|].
    assert (Hcb : is_byte c) by (by eapply bytes_znth).
    wp_step. apply (wp_rd _ _ _ _ _ c); [by rewrite Hsl by lia|].
    assert (Z.land c 0xff = c) as ->.
    { change 0xff with (Z.ones 8). rewrite Z.land_ones by lia. apply Z.mod_small. apply Hcb. }
    pose proof (fmt_x_2_len c Hcb) as H2.
    wp_step. apply (wp_snprintf dst eom); [done|done|rewrite zlen_app; lia|].
    intros s'' Hf'. wp_step. split.
    + exists (i + 1). rewrite (ztake_snoc _ _ _ Hc), map_app, join_app. cbn. rewrite app_nil_r.
      fold t. rewrite app_assoc in *. split_and!; try done; try lia. by rewrite <- zlen_app.
    + Z.div_mod_to_equations; lia.
  - assert (i = bitlen k / 8) as -> by (Z.div_mod_to_equations; lia). fold t.
    wp_step. split_and!; try done. Z.div_mod_to_equations; lia.
Qed.

(** The digits of the last octet. *)
Lemma wp_decode_tail w s :
  let b := bitlen k mod 8 in
  let c := cp + 1 + bitlen k / 8 in
  let u := bits_tail b (default 0 (znth l (bitlen k / 8))) in
  filled dst eom w s -> zlen w + zlen u < eom ->
  wp (if 4 <? b then
        tc ← rd src c;
        i ← snprintf (zlen w) (eom - zlen w) (fmt_x 2 (Z.land (s8 tc) (Z.shiftl 0xff (8 - b))));
        mret (c + 1, zlen w + i)
      else if 0 <? b then
        tc ← rd src c;
        i ← snprintf (zlen w) (eom - zlen w)
              (fmt_x 1 (Z.land (Z.land (Z.shiftr (u32 (s8 tc)) 4) 0x0f) (Z.shiftl 0x0f (4 - b))));
        mret (c + 1, zlen w + i)
      else mret (c, zlen w)) s
     (fun '(c', dn) s' => c' = cp + 1 + zlen l /\ dn = zlen (w ++ u) /\ filled dst eom (w ++ u) s')
     (fun _ _ => False).
Proof.
  cbn zeta. intros Hw Hu. pose proof (bitlen_range k Hk).
  destruct (Z.ltb_spec 0 (bitlen k mod 8)) as [H0|H0].
  - destruct (znth_lt l (bitlen k / 8)) as [tc Htc]; [Z.div_mod_to_equations; lia|].
    rewrite Htc in *. cbn [default] in *. unfold bits_tail in *.
    rewrite (proj2 (Z.ltb_lt _ _) H0) in Hu |- *.
    assert (Hn : cp + 1 + bitlen k / 8 + 1 = cp + 1 + zlen l) by (Z.div_mod_to_equations; lia).
    assert (Hz : znth src (cp + 1 + bitlen k / 8) = Some tc)
      by (rewrite Hsl; [done|Z.div_mod_to_equations; lia]).
    wp_step; (wp_step; apply (wp_rd _ _ _ _ _ tc Hz));
      (wp_step; apply (wp_snprintf dst eom Heom); [done|done|]; intros s' F; wp_step;
       rewrite zlen_app; done).
  - assert (Hb0 : bitlen k mod 8 = 0) by (Z.div_mod_to_equations; lia). rewrite Hb0 in *.
    unfold bits_tail in *. cbn in *. wp_step. rewrite app_nil_r.
    split_and!; try done. Z.div_mod_to_equations; lia.
Qed.

Lemma wp_decode_bitstring w s :
  filled dst eom w s ->
  wp (decode_bitstring src cp (zlen w) eom) s
     (fun '(m, cp') s' =>
        (m = -1 /\ eom <= zlen w + bits_room k /\ s' = s) \/
        (m = zlen (bits_text k l) /\ cp' = cp + 1 + zlen l /\
         filled dst eom (w ++ bits_text k l) s')) (fun _ _ => False).
Proof.
  intros Hw. pose proof (bitlen_range k Hk). pose proof (bits_text_len k l Hk Hl Hll) as [Hlen _].
  unfold decode_bitstring. cbn zeta. wp_step. apply (wp_rd _ _ _ _ _ k Hsk).
  assert (Z.land k 0xff = k) as ->.
  { change 0xff with (Z.ones 8). rewrite Z.land_ones by lia. apply Z.mod_small. apply Hk. }
  change (if k =? 0 then 256 else k) with (bitlen k).
  change ((bitlen k + 3) / 4 + 6 + _) with (bits_room k).
  destruct (Z.leb_spec eom (zlen w + bits_room k)) as [Hroom|Hroom].
  { wp_step. left. done. }
  set (h := [92; 91; 120]).
  set (t := mjoin (map (fmt_x 2) (ztake (bitlen k / 8) l))).
  set (u := bits_tail (bitlen k mod 8) (default 0 (znth l (bitlen k / 8)))).
  set (v := [47] ++ fmt_d (bitlen k) ++ [93]).
  assert (Htext : w ++ bits_text k l = (((w ++ h) ++ t) ++ u) ++ v) by (by rewrite <- !app_assoc).
  assert (Htot : zlen w + zlen (bits_text k l) = zlen w + zlen h + zlen t + zlen u + zlen v)
    by (rewrite <- !zlen_app; by f_equal).
  pose proof (zlen_nonneg w). pose proof (zlen_nonneg h). pose proof (zlen_nonneg t).
  pose proof (zlen_nonneg u). pose proof (zlen_nonneg v).
  wp_step. apply (wp_snprintf dst eom Heom w h); [done|lia|]. intros s1 F1.
  rewrite <- (zlen_app w h). wp_step.
  assert (Ht : zlen t = 2 * (bitlen k / 8)).
  { unfold t. rewrite zlen_hex by (by apply bytes_ztake).
    rewrite zlen_ztake by (Z.div_mod_to_equations; lia). done. }
  eapply wp_mono; [apply wp_decode_bytes; [exact F1|rewrite zlen_app; lia]| |done].
  intros [[b cp'] dn] s2 (-> & -> & -> & F2). fold t in F2. fold t. wp_step.
  eapply wp_mono; [apply wp_decode_tail; [exact F2|fold u; rewrite !zlen_app; lia]| |done].
  fold u. intros [c dn] s3 (-> & -> & F3). wp_step.
  apply (wp_snprintf dst eom Heom _ v); [done|rewrite !zlen_app; lia|]. intros s4 F4. wp_step.
  right. rewrite Htext. split_and!; [rewrite !zlen_app; lia|done|done].
Qed.
End decode.
