(* ===== verification/NsNtop.v ===== *)
(** * ns_name_ntop and ns_name_uncompress

    [ns_name_ntop] prints exactly the text of an uncompressed name, or fails
    when it does not fit; composed with [ns_name_unpack] it gives
    [ns_name_uncompress]. *)
From S2P Require Import Prelude CString NsName NsWire NsText.

(** ** The text of a name *)

(** A label with its length byte: plain, or a bit string with its length. *)
Inductive wf_label : list Z -> Prop :=
  | wf_plain l : bytes l -> 1 <= zlen l < 64 -> wf_label (zlen l :: l)
  | wf_bits k l : is_byte k -> bytes l -> zlen l = (bitlen k + 7) / 8 -> wf_label (0x41 :: k :: l).

Definition is_bits (x : list Z) : bool :=
  match x with n :: _ => n =? 0x41 | [] => false end.

Definition label_text (x : list Z) : list Z :=
  match x with
  | n :: l =>
      if n =? 0x41 then match l with k :: l => bits_text k l | [] => [] end else escs l
  | [] => []
  end.

(** Labels are separated by dots; the root is a dot. *)
Fixpoint join (ls : list (list Z)) : list Z :=
  match ls with
  | [] => []
  | [x] => label_text x
  | x :: ls => label_text x ++ [46] ++ join ls
  end.

Definition text (ls : list (list Z)) : list Z :=
  match ls with [] => [46] | _ => join ls end.

(** The dot before a label that is not the first one. *)
Definition sep (w : list Z) : list Z := match w with [] => [] | _ => [46] end.

Definition print (w : list Z) (ls : list (list Z)) : list Z :=
  foldl (fun w x => w ++ sep w ++ label_text x) w ls.

Lemma label_text_len x : wf_label x -> zlen x <= zlen (label_text x) + 1 /\ 1 <= zlen (label_text x).
Proof.
  destruct 1 as [l Hl Hn|k l Hk Hl Hn]; cbn [label_text].
  - rewrite (proj2 (Z.eqb_neq _ _)) by lia. pose proof (escs_len l). rewrite zlen_cons. lia.
  - change (65 =? 65) with true. cbn iota. pose proof (bits_text_len k l Hk Hl Hn) as [_ Hb].
    rewrite !zlen_cons. pose proof (zlen_nonneg l). lia.
Qed.

Lemma sep_nonempty w x : wf_label x -> sep (w ++ label_text x) = [46].
Proof.
  intros Hx. destruct (label_text_len x Hx) as [_ Hl]. destruct (w ++ label_text x) eqn:E; [|done].
  apply app_eq_nil in E as [_ E]. rewrite E in Hl. by vm_compute in Hl.
Qed.

Lemma print_join_cons w x ls :
  wf_label x -> Forall wf_label ls ->
  print w (x :: ls) = w ++ sep w ++ label_text x ++ mjoin (map (fun x => 46 :: label_text x) ls).
Proof.
  intros Hx Hls. revert w x Hx. induction Hls as [|y ls Hy Hls IH]; intros w x Hx.
  - cbn. by rewrite app_nil_r.
  - change (print w (x :: y :: ls)) with (print (w ++ sep w ++ label_text x) (y :: ls)).
    pose proof (sep_nonempty (w ++ sep w) x Hx) as Hs. rewrite <- app_assoc in Hs.
    rewrite IH, Hs by done. cbn [map]. by rewrite <- !app_assoc.
Qed.

Lemma print_join ls : Forall wf_label ls -> print [] ls = join ls.
Proof.
  intros Hls. destruct Hls as [|x ls Hx Hls]; [done|]. rewrite print_join_cons by done. cbn [sep app].
  revert x Hx. induction Hls as [|y ls Hy Hls IH]; intros x Hx; [by rewrite app_nil_r|].
  change (join (x :: y :: ls)) with (label_text x ++ [46] ++ join (y :: ls)).
  by rewrite <- (IH y Hy).
Qed.

Lemma print_len ls w : Forall wf_label ls -> zlen w <= zlen (print w ls).
Proof.
  intros H. revert w. induction H as [|x ls _ _ IH]; intros w; [done|].
  specialize (IH (w ++ sep w ++ label_text x)). rewrite zlen_app in IH.
  pose proof (zlen_nonneg (sep w ++ label_text x)). change (print w (x :: ls)) with (print (w ++ sep w ++ label_text x) ls). lia.
Qed.

(** ** ns_name_ntop *)

Section ntop.
Context (dst : list Z) (eom : Z) (Heom : 0 <= eom <= zlen dst).
Implicit Types (w x p q s : list Z).

Lemma wf_bytes x : wf_label x -> bytes x.
Proof.
  destruct 1 as [l Hl Hn|k l Hk Hl Hn]; repeat constructor; try done; unfold is_byte in *; try lia.
Qed.

Lemma wp_labellen_wf {S} src p x q (st : S) (Q : Z -> S -> Prop) E :
  src = p ++ x ++ q -> wf_label x -> Q (zlen x - 1) st -> wp (labellen src (zlen p)) st Q E.
Proof.
  intros -> Hx HQ. pose proof (wf_bytes x Hx) as Hb. unfold labellen. wp_step.
  assert (Hr : forall i v, 0 <= i -> znth x i = Some v -> znth (p ++ x ++ q) (zlen p + i) = Some v).
  { intros i v Hi Hv. apply znth_Some in Hv as Hlt. rewrite znth_app_r by lia.
    replace (zlen p + i - zlen p) with i by lia. by rewrite znth_app_l by lia. }
  destruct Hx as [l Hl Hn|k l Hk Hl Hn]; apply Forall_cons in Hb as [Hb _];
    (eapply wp_rd; [rewrite <- (Z.add_0_r (zlen p)); apply (Hr 0); [done|reflexivity]|]);
    rewrite is_byte_192, is_byte_elt by done.
  - rewrite (proj2 (Z.leb_gt 192 _)), (proj2 (Z.leb_gt 64 _)) by lia. cbn [andb]. wp_step.
    rewrite zlen_cons in HQ. by rewrite Z.add_simpl_r in HQ.
  - cbn. wp_step. apply (wp_rd _ _ _ _ _ k); [by apply (Hr 1)|]. wp_step.
    rewrite !zlen_cons, Hn in HQ. unfold bitlen in HQ. by rewrite Z.add_simpl_r in HQ.
Qed.

(** The dot and the two checks before a label is printed. *)
Lemma wp_ntop_sep w s l k t (Q : Z -> list Z -> Prop) :
  filled dst eom w s -> 0 <= k -> 0 <= l -> zlen (w ++ sep w) + l <= zlen t ->
  (forall s', filled dst eom (w ++ sep w) s' -> Q (zlen (w ++ sep w)) s') ->
  wp (if negb (zlen w =? 0) then (fail_if (eom <=? zlen w) EMSGSIZE;; wr (zlen w) 46;; mret (zlen w + 1))
      else mret (zlen w)) s Q (ntop_err dst eom k t).
Proof.
  intros Hw Hk Hl Ht HQ. destruct w as [|c w].
  { cbn. wp_step. rewrite app_nil_r in HQ. by apply HQ. }
  cbn [sep] in *. assert (Hn : (zlen (c :: w) =? 0) = false).
  { apply Z.eqb_neq. rewrite zlen_cons. pose proof (zlen_nonneg w). lia. }
  rewrite Hn. cbn [negb]. rewrite zlen_app in Ht. change (zlen [46]) with 1 in Ht.
  wp_step. wp_step.
  { split_and!; [done|lia|]. by eexists. }
  wp_step. apply (wp_wr_filled dst eom ltac:(lia)); [done|lia|]. intros s' Hw'. wp_step.
  rewrite zlen_app in HQ. by apply HQ.
Qed.

Lemma wp_ntop_label src p x q w s k t :
  src = p ++ x ++ q -> wf_label x -> filled dst eom w s -> 0 <= k -> (is_bits x = true -> 1 <= k) ->
  zlen (w ++ sep w ++ label_text x) <= zlen t ->
  wp (ntop_label src eom (zlen p, zlen w)) s
     (fun st s' => st = Next (zlen (p ++ x), zlen (w ++ sep w ++ label_text x)) /\
        filled dst eom (w ++ sep w ++ label_text x) s') (ntop_err dst eom k t).
Proof.
  intros Hsrc Hx Hw Hk Hbk Ht. destruct (label_text_len x Hx) as [Hxl Hxt].
  rewrite app_assoc, zlen_app in Ht.
  unfold ntop_label. wp_step. apply (wp_rd _ _ _ _ _ (List.hd 0 x)).
  { rewrite Hsrc. destruct Hx; apply znth_middle. }
  assert (Hhd : is_byte (List.hd 0 x) /\ List.hd 0 x <> 0 /\ List.hd 0 x < 128 /\
    (64 <= List.hd 0 x <-> is_bits x = true)).
  { destruct Hx; cbn [List.hd is_bits]; unfold is_byte; (split; [lia|]); (split; [lia|]);
      (split; [lia|]); rewrite Z.eqb_eq; lia. }
  destruct Hhd as (Hb & H0 & H128 & Hbits). rewrite (proj2 (Z.eqb_neq _ 0)) by done.
  wp_step. rewrite is_byte_192, is_byte_elt by done. rewrite (proj2 (Z.leb_gt 192 _)) by lia.
  cbn [fail_if]. wp_step. wp_step.
  assert (Hx1 : 1 <= zlen x) by (destruct Hx; rewrite !zlen_cons; pose proof (zlen_nonneg l); lia).
  apply (wp_ntop_sep w s (zlen (label_text x))); [done|done|lia|lia|]. intros s1 F1.
  rewrite (app_assoc w). set (w1 := w ++ sep w) in *. clearbody w1. wp_step.
  rewrite Z.add_simpl_r. eapply wp_labellen_wf; [exact Hsrc|done|].
  wp_step. wp_step; [lia|].
  wp_step. wp_step.
  { split_and!; [done|lia|]. by eexists. }
  destruct Hx as [l Hl Hn|bk l Hbk1 Hl Hn]; cbn [List.hd is_bits] in *.
  - rewrite (proj2 (Z.leb_gt 64 (zlen l))) by lia. cbn [andb]. rewrite zlen_cons, Z.add_simpl_r.
    cbn [label_text] in *. rewrite (proj2 (Z.eqb_neq (zlen l) 65)) in * by lia. wp_step.
    replace (zlen p + 1) with (zlen (p ++ [zlen l])) by (zlen_simpl; lia).
    eapply wp_mono; [apply (wp_ntop_chars dst eom Heom src (p ++ [zlen l]) l q w1 s1 k t)| |done].
    + done.
    + by rewrite Hsrc, <- app_assoc.
    + done.
    + done.
    + by rewrite zlen_app.
    + unfold zlen. lia.
    + intros [cp dn] s2 (-> & -> & F2). wp_step. by rewrite <- app_assoc.
  - cbn [label_text] in *. change (65 =? 65) with true in *. cbn [andb Z.leb Z.ltb Z.compare Pos.compare Pos.compare_cont Z.eqb Pos.eqb negb fail_if] in *.
    wp_step. wp_step; [done|]. wp_step.
    eapply wp_mono; [apply (wp_decode_bitstring dst eom Heom src (zlen p + 1) bk l Hbk1 Hl Hn)| |done].
    + rewrite Hsrc, znth_app_r by lia. by replace (zlen p + 1 - zlen p) with 1 by lia.
    + intros i Hi. rewrite Hsrc, znth_app_r by lia.
      replace (zlen p + 1 + 1 + i - zlen p) with (i + 2) by lia.
      change ((65 :: bk :: l) ++ q) with ([65; bk] ++ (l ++ q)).
      rewrite znth_app_r by (zlen_simpl; lia). rewrite znth_app_l; zlen_simpl; [f_equal|]; lia.
    + exact F1.
    + intros [m cp] s2 [(-> & Hroom & ->)|(-> & -> & F2)].
      * wp_step. wp_step; [|done]. pose proof (bits_text_len bk l Hbk1 Hl Hn) as [Hroom' _].
        split_and!; [done|specialize (Hbk eq_refl); lia|by eexists].
      * wp_step. pose proof (zlen_nonneg (bits_text bk l)).
        wp_step; [lia|]. wp_step. rewrite !zlen_app, !zlen_cons. split; [do 2 f_equal; lia|done].
Qed.

Lemma wp_name_ntop_loop src p ls q w s k t fuel :
  src = p ++ wire ls ++ q -> Forall wf_label ls -> filled dst eom w s -> 0 <= k ->
  (existsb is_bits ls = true -> 1 <= k) -> zlen (print w ls) <= zlen t -> (length ls < fuel)%nat ->
  wp (loop fuel (ntop_label src eom) (zlen p, zlen w)) s
     (fun dn s' => dn = zlen (print w ls) /\ filled dst eom (print w ls) s') (ntop_err dst eom k t).
Proof.
  intros Hsrc Hls. revert p w s fuel Hsrc. induction Hls as [|x ls Hx Hls IH];
    intros p w s [|fuel] Hsrc Hw Hk Hbk Ht Hf; cbn in Hf; try lia; apply wp_loop_S.
  - unfold ntop_label. wp_step. eapply wp_rd; [rewrite Hsrc; apply znth_middle|]. cbn. by wp_step.
  - cbn in Hbk. change (print w (x :: ls)) with (print (w ++ sep w ++ label_text x) ls) in *.
    rewrite wire_cons, <- app_assoc in Hsrc. pose proof (print_len ls (w ++ sep w ++ label_text x) Hls).
    eapply wp_conseq; [apply (wp_ntop_label _ _ _ _ _ _ k t Hsrc); try done; [|lia]|].
    { intros Hxb. apply Hbk. by rewrite Hxb. }
    intros st s' [-> Hw']. apply IH; try done; [by rewrite Hsrc, <- app_assoc| |lia].
    intros Hb. apply Hbk. by rewrite Hb, orb_true_r.
Qed.
End ntop.

Lemma ntop_err_intro dst eom k t w s :
  filled dst eom w s -> 0 <= k -> eom <= zlen t -> ntop_err dst eom k t EMSGSIZE s.
Proof. intros. split_and!; [done|lia|by eexists]. Qed.

(** One byte more is needed if there is a bit string. *)
Definition spare (ls : list (list Z)) : Z := if existsb is_bits ls then 1 else 0.

Lemma wp_ntop dst src ls q dstsiz :
  0 <= dstsiz <= zlen dst -> src = wire ls ++ q -> Forall wf_label ls ->
  wp (ns_name_ntop src dstsiz) dst
     (fun n s => n = zlen (text ls) + 1 /\ filled dst dstsiz (text ls ++ [0]) s)
     (fun e s => ntop_err dst dstsiz (spare ls) (text ls) e s).
Proof.
  intros Hd Hsrc Hls. assert (Hd' : dstsiz <= zlen dst) by lia. unfold ns_name_ntop. wp_step.
  assert (Hk : 0 <= spare ls) by (unfold spare; case_match; lia).
  assert (Hlen : zlen (print [] ls) <= zlen (text ls)).
  { rewrite print_join by done. destruct ls; [done|done]. }
  eapply wp_mono; [apply (wp_name_ntop_loop dst dstsiz Hd src [] ls q [] dst (spare ls) (text ls) (S (length src)))| |done].
  - done.
  - done.
  - apply filled_nil. lia.
  - done.
  - unfold spare. by intros ->.
  - done.
  - rewrite Hsrc. unfold wire. rewrite !length_app. cbn.
    assert (length ls <= length (concat ls))%nat; [|lia]. clear -Hls. induction Hls as [|x ls Hx _ IH]; [done|].
    cbn. rewrite length_app. destruct Hx; cbn; lia.
  - intros dn s [-> Hf]. rewrite print_join in Hf |- * by done. wp_step.
    destruct Hls as [|x ls Hx Hls].
    + pose proof (zlen_nonneg (text [])). change (zlen (join [])) with 0. cbn [Z.eqb join] in *. wp_step.
      wp_step; [eapply ntop_err_intro; [done|done|lia]|].
      wp_step. apply (wp_wr_filled dst dstsiz Hd' []); [done|change (zlen (@nil Z)) with 0; lia|].
      intros s1 F1. wp_step. change (0 + 1) with (zlen (text [])). wp_step.
      wp_step; [eapply ntop_err_intro; [exact F1|done|lia]|].
      wp_step. apply (wp_wr_filled dst dstsiz Hd' (text [])); [done|lia|]. intros s2 F2. by wp_step.
    + assert (Hn : (zlen (join (x :: ls)) =? 0) = false).
      { apply Z.eqb_neq. destruct (label_text_len x Hx) as [_ ?].
        destruct ls as [|y ls]; [cbn [join]; lia|].
        change (join (x :: y :: ls)) with (label_text x ++ [46] ++ join (y :: ls)).
        pose proof (zlen_nonneg (join (y :: ls))). zlen_simpl. lia. }
      rewrite Hn. wp_step. change (text (x :: ls)) with (join (x :: ls)) in *. wp_step.
      wp_step; [eapply ntop_err_intro; [exact Hf|done|lia]|].
      wp_step. apply (wp_wr_filled dst dstsiz Hd'); [done|lia|]. intros s2 F2. by wp_step.
Qed.

(** [ns_name_ntop] on an uncompressed name, whatever its labels contain: it
    returns the length of the name's text with its terminator and has written
    exactly that text (escaped labels, bit-string labels in [\[x.../n]] form,
    dots between them, "." for the root), or fails with EMSGSIZE because the
    text does not fit (a name with a bit-string label needs one byte to spare);
    it terminates and writes nothing at or behind [dstsiz]. *)
Theorem ns_name_ntop_correct dst src ls q dstsiz :
  0 <= dstsiz <= zlen dst -> src = wire ls ++ q -> Forall wf_label ls ->
  wp (ns_name_ntop src dstsiz) dst
     (fun n s => n = zlen (text ls) + 1 /\ n <= dstsiz /\ ztake n s = text ls ++ [0] /\
        zlen s = zlen dst /\ zdrop dstsiz s = zdrop dstsiz dst)
     (fun e s => e = EMSGSIZE /\ dstsiz < zlen (text ls) + 1 + spare ls /\
        zlen s = zlen dst /\ zdrop dstsiz s = zdrop dstsiz dst).
Proof.
  intros Hd Hsrc Hls. eapply wp_mono; [by apply (wp_ntop dst src ls q)| |].
  - intros n s [-> (H1 & H2 & H3 & H4)]. rewrite zlen_app in H3, H4. by split_and!.
  - intros e s (-> & Hlt & w & H1 & H2 & _). by split_and!.
Qed.

(** "a.b\.c.\[x41/8]" *)
Definition sample_labels : list (list Z) := [[1; 97]; [3; 98; 46; 99]; [0x41; 8; 0x41]].

Lemma sample_labels_wf : Forall wf_label sample_labels.
Proof.
  constructor; [apply (wf_plain [97]); [by apply bytes_check|done]|].
  constructor; [apply (wf_plain [98; 46; 99]); [by apply bytes_check|done]|].
  constructor; [apply (wf_bits 8 [0x41]); [done|by apply bytes_check|done]|done].
Qed.

Lemma ns_name_ntop_correct_witness :
  wp (ns_name_ntop (wire sample_labels ++ []) 20) (replicate 20 7)
     (fun n s => n = 16 /\ n <= 20 /\ ztake n s =
        [97; 46; 98; 92; 46; 99; 46; 92; 91; 120; 52; 49; 47; 56; 93; 0] /\
        zlen s = 20 /\ zdrop 20 s = [])
     (fun e s => e = EMSGSIZE /\ 20 < 17 /\ zlen s = 20 /\ zdrop 20 s = []).
Proof.
  apply (ns_name_ntop_correct (replicate 20 7) _ sample_labels [] 20); [by vm_compute|done|].
  exact sample_labels_wf.
Defined.

(** ** ns_name_uncompress *)

Lemma name_at_fun msg eom k p ls ls' : name_at msg eom k p ls -> name_at msg eom k p ls' -> ls = ls'.
Proof.
  intros H. revert ls'. induction H as [k p H0|k p n l ls Hl Hlt _ IH|k p n b ls Hn Hn' Hlt Hb Ht Hk _ IH]; intros ls' H'.
  - by rewrite (name_at_0 _ _ _ _ _ H0 H').
  - destruct (name_at_label _ _ _ _ _ _ _ Hl H') as (ls2 & -> & _ & H2). by rewrite (IH _ H2).
  - destruct (name_at_ptr _ _ _ _ _ _ Hn Hn' H') as (b' & Hb' & _ & _ & _ & H2).
    rewrite Hb in Hb'. injection Hb' as <-. by apply IH.
Qed.

Lemma name_at_wf msg eom k p ls :
  bytes msg -> eom <= zlen msg -> name_at msg eom k p ls -> Forall wf_label ls.
Proof.
  intros Hb He. induction 1 as [k p H0|k p n l ls Hl Hlt Hn IH|k p n b ls Hn Hn' Hlt Hb' Ht Hk _ IH]; [done| |done].
  constructor; [|done]. pose proof (label_at_len _ _ _ _ Hb Hl) as Hll.
  assert (Hp : 0 <= p) by (destruct (label_at_znth _ _ _ _ Hl) as [Hz _]; apply znth_Some in Hz; lia).
  assert (Hlen : zlen (ztake l (zdrop (p + 1) msg)) = l) by (rewrite zlen_ztake; rewrite ?zlen_zdrop; lia).
  assert (Hbs : bytes (ztake l (zdrop (p + 1) msg))) by (by apply Forall_take, Forall_drop).
  destruct Hl as [n Hz Hr|bk Hz Hk].
  - rewrite <- Hlen at 1. constructor; [done|lia].
  - destruct (ztake _ _) as [|k' l'] eqn:E; [change (zlen (@nil Z)) with 0 in Hlen; lia|].
    apply Forall_cons in Hbs as [Hk' Hl']. rewrite zlen_cons in Hlen.
    assert (bk = k') as ->.
    { assert (H : znth (k' :: l') 0 = Some bk); [|by injection H].
      rewrite <- E, znth_ztake, znth_zdrop, Z.add_0_r by lia. done. }
    constructor; [done|done|]. unfold bitlen. lia.
Qed.

Lemma wp_uncompress tmp0 msg eom src dst dstsiz :
  zlen tmp0 = NS_MAXCDNAME -> bytes msg -> readable msg eom -> 0 <= dstsiz <= zlen dst ->
  wp (ns_name_uncompress tmp0 msg eom src dstsiz) dst
     (fun n s => exists ls, 0 <= src < eom /\ name_at msg eom 0 src ls /\ span_at msg src (src + n) /\
        ztake (zlen (text ls) + 1) s = text ls ++ [0] /\ zlen (text ls) + 1 <= dstsiz /\
        zlen s = zlen dst /\ zdrop dstsiz s = zdrop dstsiz dst)
     (fun e s => e = EMSGSIZE /\ zlen s = zlen dst /\ zdrop dstsiz s = zdrop dstsiz dst /\
        forall ls, 0 <= src < eom -> name_at msg eom 0 src ls ->
          NS_MAXCDNAME < zlen (wire ls) \/ dstsiz < zlen (text ls) + 1 + spare ls).
Proof.
  intros Htmp Hb Hr Hd.
  pose proof (wp_unpack2 msg eom src Hb Hr tmp0 NS_MAXCDNAME ltac:(unfold NS_MAXCDNAME in *; lia)) as Hw.
  destruct (proj1 (wp_eq _ _ _ _) Hw) as [([len dstlen] & tmp & Hrun & Hok)|(e & tmp & Hrun & Herr)]; clear Hw.
  - destruct Hok as (ls & Hs & Hn & Hsp & -> & Hle & ->). rewrite splice_0 in Hrun.
    apply (wp_run _ (_ ← ns_name_ntop (wire ls ++ zdrop (zlen (wire ls)) tmp0) dstsiz; mret len) _ dst).
    { unfold ns_name_uncompress, ns_name_unpack, mbind at 1, M_bind at 1. by rewrite Hrun. }
    destruct Hr as [Hr _]. wp_step. eapply wp_mono; [eapply (wp_ntop dst _ ls _ dstsiz Hd eq_refl)| |].
    + by eapply name_at_wf.
    + intros a s [_ (H1 & H2 & H3 & H4)]. wp_step. exists ls. rewrite zlen_app in H3, H4. destruct Hs. by split_and!.
    + intros e s (-> & Hlt & w & H1 & H2 & _). split_and!; [done|done|done|]. intros ls' _ Hn'.
      rewrite (name_at_fun _ _ _ _ _ _ Hn' Hn). by right.
  - destruct Herr as (-> & _ & Hno).
    apply (wp_run _ (fail EMSGSIZE) _ dst).
    { unfold ns_name_uncompress, ns_name_unpack, mbind, M_bind. by rewrite Hrun. }
    wp_step. split_and!; [done|done|done|]. intros ls Hs Hn. left. by apply Hno.
Qed.

(** [ns_name_uncompress] on an arbitrary message: it terminates, stays inside
    the message, its scratch buffer and the destination; it succeeds with the
    length the name occupies in the message and the name's text written, and
    fails with EMSGSIZE only when there is no name at [src], when its
    uncompressed form has more than NS_MAXCDNAME octets or when its text does
    not fit. *)
Theorem ns_name_uncompress_correct tmp0 msg eom src dst dstsiz :
  zlen tmp0 = NS_MAXCDNAME -> bytes msg -> readable msg eom -> 0 <= dstsiz <= zlen dst ->
  wp (ns_name_uncompress tmp0 msg eom src dstsiz) dst
     (fun n s => exists ls, 0 <= src < eom /\ name_at msg eom 0 src ls /\ span_at msg src (src + n) /\
        ztake (zlen (text ls) + 1) s = text ls ++ [0] /\ zlen (text ls) + 1 <= dstsiz /\
        zdrop dstsiz s = zdrop dstsiz dst)
     (fun e s => e = EMSGSIZE /\ zdrop dstsiz s = zdrop dstsiz dst /\
        forall ls, 0 <= src < eom -> name_at msg eom 0 src ls ->
          NS_MAXCDNAME < zlen (wire ls) \/ dstsiz < zlen (text ls) + 1 + spare ls).
Proof.
  intros Htmp Hb Hr Hd. eapply wp_mono; [by apply wp_uncompress| |].
  - intros n s (ls & ? & ? & ? & ? & ? & _ & ?). by exists ls.
  - intros e s (? & _ & ? & ?). done.
Qed.

Lemma ns_name_uncompress_correct_witness :
  wp (ns_name_uncompress (replicate 255 0) sample_msg 9 5 8) (replicate 8 7)
     (fun n s => exists ls, 0 <= 5 < 9 /\ name_at sample_msg 9 0 5 ls /\ span_at sample_msg 5 (5 + n) /\
        ztake (zlen (text ls) + 1) s = text ls ++ [0] /\ zlen (text ls) + 1 <= 8 /\
        zdrop 8 s = zdrop 8 (replicate 8 7))
     (fun e s => e = EMSGSIZE /\ zdrop 8 s = zdrop 8 (replicate 8 7) /\
        forall ls, 0 <= 5 < 9 -> name_at sample_msg 9 0 5 ls ->
          NS_MAXCDNAME < zlen (wire ls) \/ 8 < zlen (text ls) + 1 + spare ls) /\
  ns_name_uncompress (replicate 255 0) sample_msg 9 5 8 (replicate 8 7) = (Ret 4, [99; 46; 98; 0; 7; 7; 7; 7]).
Proof.
  split; [|by vm_compute]. apply ns_name_uncompress_correct.
  - by vm_compute.
  - unfold bytes, is_byte. repeat constructor; lia.
  - split; [vm_compute; discriminate|intros _; vm_compute; discriminate].
  - by vm_compute.
Defined.
