(* ===== verification/NsPton.v ===== *)
(** * ns_name_pton

    [ns_name_pton2] ([dns/nameser/ns_name.c]) against a reference parser, on
    texts without bit-string labels, and that it reads back what
    [ns_name_ntop] prints. *)
From S2P Require Import Prelude CString NsName NsWire NsText NsNtop.

(** ** The reference parser *)

(** An encoded label; the length octet of an overlong one is cut. *)
Definition raw (l : list Z) : list Z := u8 (zlen l) :: l.

Definition last_label (cur : list Z) : list (list Z) :=
  match cur with [] => [] | _ => [raw cur] end.

(** The labels of a text, [cur] being the label begun, and whether the text
    ends in a dot. *)
Fixpoint parse (t cur : list Z) : option (list (list Z) * Z) :=
  match t with
  | [] => Some (last_label cur, 0)
  | c :: t =>
      if c =? 92 then
        match t with
        | [] => Some (last_label cur, 0)
        | d :: t =>
            if isdigit d then
              match t with
              | e :: f :: t =>
                  let n := (d - 48) * 100 + (e - 48) * 10 + (f - 48) in
                  if isdigit e && isdigit f && (n <=? 255) then parse t (cur ++ [n]) else None
              | _ => None
              end
            else parse t (cur ++ [d])
        end
      else if c =? 46 then
        match t with
        | [] => Some (last_label cur, 1)
        | d :: _ =>
            if (zlen cur =? 0) || (d =? 46) then None
            else '(ls, r) ← parse t []; Some (raw cur :: ls, r)
        end
      else parse t (cur ++ [c])
  end.

(** No escaped ["["]. *)
Fixpoint no_bits (t : list Z) : bool :=
  match t with
  | [] => true
  | c :: t =>
      if c =? 92 then match t with d :: t => negb (d =? 91) && no_bits t | [] => true end
      else no_bits t
  end.

Lemma parse_wire t cur ls r : parse t cur = Some (ls, r) -> cur <> [] -> zlen cur + 2 <= zlen (wire ls).
Proof.
  assert (H : forall n t cur ls r, (length t <= n)%nat -> parse t cur = Some (ls, r) -> cur <> [] ->
    zlen cur + 2 <= zlen (wire ls)); [|by eapply H].
  assert (Hlast : forall cur, cur <> [] -> zlen cur + 2 <= zlen (wire (last_label cur))).
  { intros [|c l] Hc; [done|]. unfold last_label, raw. rewrite zlen_wire. cbn [concat]. rewrite app_nil_r, !zlen_cons. lia. }
  clear t cur ls r. induction n as [|n IH]; intros [|c t] cur ls r Hn Hp Hc; cbn in Hn; try lia;
    cbn [parse] in Hp.
  1-2: injection Hp as <- _; by apply Hlast.
  assert (Hne : forall x, cur ++ [x] <> []) by (intros x Hx; by apply app_eq_nil in Hx as [_ ?]).
  assert (Hgrow : forall t x, (length t <= n)%nat -> parse t (cur ++ [x]) = Some (ls, r) -> zlen cur + 2 <= zlen (wire ls)).
  { intros t' x Ht' Hp'. specialize (IH _ _ _ _ Ht' Hp' (Hne x)). rewrite zlen_app in IH.
    change (zlen [x]) with 1 in IH. lia. }
  destruct (c =? 92).
  - destruct t as [|d t]; [injection Hp as <- _; by apply Hlast|]. cbn in Hn. destruct (isdigit d).
    + destruct t as [|e [|f t]]; try done. cbn in Hn. cbv zeta in Hp. destruct (_ && _); [|done].
      eapply Hgrow; [|exact Hp]. lia.
    + eapply Hgrow; [|exact Hp]. lia.
  - destruct (c =? 46).
    + destruct t as [|d t]; [injection Hp as <- _; by apply Hlast|]. destruct (_ || _); [done|].
      destruct (parse (d :: t) []) as [[ls' r']|]; [|done]. injection Hp as <- _.
      rewrite wire_cons, zlen_app. unfold raw. rewrite zlen_cons, zlen_wire. pose proof (zlen_nonneg (concat ls')). lia.
    + eapply Hgrow; [|exact Hp]. lia.
Qed.

(** ** The buffer while a name is read *)

Section pton.
Context (dst : list Z) (eom : Z) (Heom : 0 <= eom <= zlen dst).
Context (mem t0 : list Z).
Implicit Types (acc : list (list Z)) (cur t b : list Z).

(** Finished labels, the place for a length octet, and the label begun. *)
Definition reading acc cur b : Prop :=
  (exists g, filled dst eom (concat acc ++ g :: cur) b) \/
  (eom <= zlen (concat acc) /\ cur = [] /\ filled dst eom (concat acc) b).

Definition behind acc : Prop := Forall (fun x => exists l, x = raw l /\ l <> [] /\
  Z.land (zlen l) NS_CMPRSFLGS = 0 /\ bytes l) acc.

(** The text read so far is [acc] and [cur]. *)
Definition parsed acc cur t : Prop :=
  parse t0 [] = ('(ls, r) ← parse t cur; Some (acc ++ ls, r)) /\ behind acc /\ bytes cur.

(** Why a name is refused. *)
Definition refused (ls : list (list Z)) : Prop :=
  eom < zlen (wire ls) \/ NS_MAXCDNAME < zlen (wire ls) \/ Exists (fun x => 64 < zlen x) ls.

Definition pton_err (e : Z) b : Prop :=
  e = EMSGSIZE /\ (exists w, filled dst eom w b) /\ forall ls r, parse t0 [] = Some (ls, r) -> refused ls.

Lemma reading_filled acc cur b : reading acc cur b -> exists w, filled dst eom w b.
Proof. intros [[g H]|(_ & _ & H)]; by eexists. Qed.

Lemma pton_err_intro acc cur t b :
  reading acc cur b -> parsed acc cur t ->
  (forall ls r, parse t cur = Some (ls, r) -> refused (acc ++ ls)) -> pton_err EMSGSIZE b.
Proof.
  intros Hr (Hp & _) H. split; [done|]. split; [by eapply reading_filled|].
  intros ls r Hls. rewrite Hls in Hp. destruct (parse t cur) as [[ls' r']|]; [|done].
  injection Hp as -> _. by eapply H.
Qed.

Lemma zlen_wire_app acc ls : zlen (wire (acc ++ ls)) = zlen (concat acc) + zlen (wire ls).
Proof. rewrite !zlen_wire, concat_app, zlen_app. lia. Qed.

(** The step that stores an octet; [t'] is the text of the octet [c] and of [t]. *)
Lemma wp_pton_store acc cur t t' c b src (Q : step (Z * Z * Z * bool) pton_exit -> list Z -> Prop) :
  reading acc cur b -> parsed acc cur t' -> parse t' cur = parse t (cur ++ [c]) -> is_byte c ->
  (forall b', reading acc (cur ++ [c]) b' -> parsed acc (cur ++ [c]) t ->
     Q (Next (src, zlen (concat acc), zlen (concat acc) + 1 + zlen (cur ++ [c]), false)) b') ->
  wp (pton_store eom src (zlen (concat acc)) (zlen (concat acc) + 1 + zlen cur) c) b Q pton_err.
Proof.
  intros Hr Hp Ht Hc HQ. unfold pton_store. pose proof (zlen_nonneg cur).
  assert (Hp' : parsed acc (cur ++ [c]) t).
  { destruct Hp as (Hp & Hb & Hcur). split; [by rewrite Hp, Ht|]. split; [done|].
    apply Forall_app. split; [done|]. by constructor. }
  wp_step. apply wp_fail_if; intros Hroom.
  - eapply pton_err_intro; [done|exact Hp|]. intros ls r Hls. rewrite Ht in Hls.
    apply parse_wire in Hls; [|by destruct cur]. left. rewrite zlen_wire_app, zlen_app in *.
    change (zlen [c]) with 1 in *. lia.
  - destruct Hr as [[g Hf]|(Hge & -> & Hf)]; [|change (zlen (@nil Z)) with 0 in *; lia].
    assert (Hlen : zlen (concat acc) + 1 + zlen cur = zlen (concat acc ++ g :: cur))
      by (rewrite zlen_app, zlen_cons; lia).
    wp_step. rewrite Hlen. apply (wp_wr_filled dst eom ltac:(lia)); [done|lia|]. intros b' Hf'. wp_step.
    rewrite <- app_assoc in Hf'. rewrite <- Hlen.
    replace (zlen (concat acc) + 1 + zlen cur + 1) with (zlen (concat acc) + 1 + zlen (cur ++ [c]))
      by (zlen_simpl; lia).
    apply HQ; [left; by exists g|done].
Qed.

Lemma wp_pton_close acc cur b (Q : unit -> list Z -> Prop) E :
  reading acc cur b -> zlen (concat acc) < eom ->
  (forall b', filled dst eom (concat acc ++ raw cur) b' -> Q tt b') ->
  wp (wr (zlen (concat acc)) (u8 (zlen cur))) b Q E.
Proof.
  intros [[g Hf]|(Hge & _)] Hl HQ; [|lia]. pose proof (zlen_nonneg (concat acc)).
  destruct (filled_len _ _ _ _ Hf). apply wp_wr; [lia|]. by apply HQ, (filled_upd dst eom _ _ g).
Qed.

Lemma land_small c : 0 <= c < 64 -> Z.land c NS_CMPRSFLGS = 0.
Proof.
  intros Hc. apply Z.eqb_eq. rewrite is_byte_64 by (unfold is_byte; lia). apply Z.ltb_lt. lia.
Qed.

(** How a name is accepted. *)
Definition accepted (r n : Z) b : Prop :=
  exists ls, parse t0 [] = Some (ls, r) /\ n = zlen (wire ls) /\ n <= NS_MAXCDNAME /\
    filled dst eom (wire ls) b /\ behind ls.

Lemma behind_snoc acc cur :
  behind acc -> bytes cur -> cur <> [] -> Z.land (zlen cur) NS_CMPRSFLGS = 0 -> behind (acc ++ [raw cur]).
Proof. intros. apply Forall_app. split; [done|]. constructor; [by exists cur|done]. Qed.

(** The root label and the check of the length. *)
Lemma wp_finish {A} acc cur t r b (k : Z -> M (list Z) A) Q :
  parsed acc cur t -> parse t cur = Some (last_label cur, r) -> Z.land (zlen cur) NS_CMPRSFLGS = 0 ->
  filled dst eom (concat acc ++ raw cur) b ->
  (forall n b', accepted r n b' -> wp (k n) b' Q pton_err) ->
  wp (bp ← (if negb (zlen cur =? 0) then
              fail_if (eom <=? zlen (concat acc) + 1 + zlen cur) EMSGSIZE;;
              wr (zlen (concat acc) + 1 + zlen cur) 0;;
              mret (zlen (concat acc) + 1 + zlen cur + 1)
            else mret (zlen (concat acc) + 1 + zlen cur));
      fail_if (NS_MAXCDNAME <? bp) EMSGSIZE;;
      k bp) b Q pton_err.
Proof.
  intros (Hp & Hb & Hcur) Hlast Hland Hf HQ. rewrite Hlast in Hp. cbn in Hp.
  assert (Herr : forall b', (exists w, filled dst eom w b') -> refused (acc ++ last_label cur) -> pton_err EMSGSIZE b').
  { intros b' Hb' Hr. split; [done|]. split; [done|]. intros ls r'. rewrite Hp. by intros [= <- _]. }
  assert (Hfin : forall b', filled dst eom (wire (acc ++ last_label cur)) b' -> behind (acc ++ last_label cur) ->
    wp (fail_if (NS_MAXCDNAME <? zlen (wire (acc ++ last_label cur))) EMSGSIZE;;
        k (zlen (wire (acc ++ last_label cur)))) b' Q pton_err).
  { intros b' Hf' Hb'. wp_step. apply wp_fail_if; intros Hmax.
    - apply Herr; [by eexists|]. right. left. lia.
    - apply HQ. eexists. split_and!; [exact Hp|done|lia|done|done]. }
  wp_step. destruct cur as [|x cur].
  - cbn [zlen length Z.of_nat Z.eqb negb last_label] in *. change (zlen (@nil Z)) with 0 in *. cbn [Z.eqb negb].
    wp_step. rewrite app_nil_r in *. change (raw []) with [0] in Hf. fold (wire acc) in Hf.
    replace (zlen (concat acc) + 1 + 0) with (zlen (wire acc)) by (rewrite zlen_wire; lia). by apply Hfin.
  - set (l := x :: cur) in *. assert (Hl : 0 < zlen l) by (unfold l; rewrite zlen_cons; pose proof (zlen_nonneg cur); lia).
    rewrite (proj2 (Z.eqb_neq _ _)) by lia. cbn [negb last_label].
    change (last_label l) with [raw l] in *. clearbody l.
    assert (Hw : wire (acc ++ [raw l]) = (concat acc ++ raw l) ++ [0])
      by (unfold wire; rewrite concat_app; cbn; by rewrite app_nil_r).
    assert (Hlen : zlen (concat acc ++ raw l) = zlen (concat acc) + 1 + zlen l)
      by (unfold raw; rewrite zlen_app, zlen_cons; lia).
    wp_step. apply wp_fail_if; intros Hroom.
    { apply Herr; [by eexists|]. left. rewrite Hw, zlen_app, Hlen. change (zlen [0]) with 1. lia. }
    wp_step. rewrite <- Hlen. apply (wp_wr_filled dst eom ltac:(lia)); [done|lia|]. intros b' Hf'. wp_step.
    replace (zlen (concat acc ++ raw l) + 1) with (zlen (wire (acc ++ [raw l])))
      by (rewrite Hw, (zlen_app _ [0]); done).
    apply Hfin; [by rewrite Hw|]. apply behind_snoc; [done|done| |done]. intros ->. done.
Qed.
(** A label that is too long for its length octet. *)
Lemma overlong_refused acc cur ls : Z.land (zlen cur) NS_CMPRSFLGS <> 0 -> refused (acc ++ raw cur :: ls).
Proof.
  intros Hland. right. right. apply Exists_app. right. apply Exists_cons_hd. unfold raw. rewrite zlen_cons.
  pose proof (zlen_nonneg cur). destruct (Z.lt_ge_cases (zlen cur) 64) as [Hlt|]; [|lia].
  by rewrite land_small in Hland.
Qed.

(** Where the loop is left. *)
Definition exit_ok (e : pton_exit) b : Prop :=
  match e with
  | Qualified n => accepted 1 n b
  | AtEnd label bp => exists acc cur t, reading acc cur b /\ parsed acc cur t /\
      parse t cur = Some (last_label cur, 0) /\ label = zlen (concat acc) /\ bp = label + 1 + zlen cur
  | AtDone _ _ _ => False
  end.

Lemma cons_nonempty_len (cur : list Z) : cur <> [] -> (zlen cur =? 0) = false.
Proof. intros Hc. apply Z.eqb_neq. destruct cur as [|c l]; [done|]. rewrite zlen_cons. pose proof (zlen_nonneg l). lia. Qed.

Lemma wp_pton_dot acc cur t b src (Q : step (Z * Z * Z * bool) pton_exit -> list Z -> Prop) :
  cstr mem src t -> reading acc cur b -> parsed acc cur (46 :: t) ->
  (forall acc' b', reading acc' [] b' -> parsed acc' [] t ->
     Q (Next (src, zlen (concat acc'), zlen (concat acc') + 1 + 0, false)) b') ->
  (forall n b', accepted 1 n b' -> Q (Done (Qualified n)) b') ->
  wp (pton_dot mem eom src (zlen (concat acc)) (zlen (concat acc) + 1 + zlen cur)) b Q pton_err.
Proof.
  intros Hc Hr Hp HN HD. unfold pton_dot.
  replace (zlen (concat acc) + 1 + zlen cur - zlen (concat acc) - 1) with (zlen cur) by lia.
  assert (Hform : forall ls r, parse (46 :: t) cur = Some (ls, r) ->
    (t = [] /\ ls = last_label cur) \/ (cur <> [] /\ exists ls', ls = raw cur :: ls')).
  { cbn [parse Z.eqb Pos.eqb]. intros ls r. destruct t as [|d t]; [intros [= <- _]; by left|].
    destruct cur as [|x cur]; [done|]. rewrite cons_nonempty_len by done. cbn [orb]. destruct (d =? 46); [done|].
    destruct (parse (d :: t) []) as [[ls' r']|]; [|done]. intros [= <- _]. right. split; [done|by eexists]. }
  wp_step. apply wp_fail_if; intros Hland.
  { eapply pton_err_intro; [done|exact Hp|]. intros ls r Hls. apply Hform in Hls.
    assert (Hl : Z.land (zlen cur) NS_CMPRSFLGS <> 0) by lia.
    destruct Hls as [[_ ->]|(_ & ls' & ->)]; [|by apply overlong_refused].
    destruct cur; [done|]. by apply overlong_refused. }
  assert (Hl : Z.land (zlen cur) NS_CMPRSFLGS = 0) by lia. clear Hland.
  wp_step. apply wp_fail_if; intros Hroom.
  { eapply pton_err_intro; [done|exact Hp|]. intros ls r _. left. rewrite zlen_wire_app, zlen_wire.
    pose proof (zlen_nonneg (concat ls)). lia. }
  wp_step. apply (wp_pton_close _ _ _ _ _ Hr); [lia|]. intros b1 F1. wp_step.
  destruct t as [|d t].
  - eapply wp_rd; [by apply cstr_nul_head|]. cbn [Z.eqb].
    apply (wp_finish acc cur [46] 1 b1 (fun bp => mret (Done (Qualified bp)))); [done|done|done|done|].
    intros n b' Ha. wp_step. by apply HD.
  - destruct (cstr_cons_l _ _ _ _ Hc) as (Hd0 & Hd & _). eapply wp_rd; [exact Hd|].
    rewrite (proj2 (Z.eqb_neq d 0)) by done.
    assert (Hpe : parse (46 :: d :: t) cur = if (zlen cur =? 0) || (d =? 46) then None
      else '(ls, r) ← parse (d :: t) []; Some (raw cur :: ls, r)) by done.
    wp_step. apply wp_fail_if; intros Hbad.
    { destruct Hp as (Hp & _). rewrite Hpe, Hbad in Hp. split; [done|]. split; [by eexists|].
      intros ls r. by rewrite Hp. }
    wp_step. rewrite Hbad in Hpe. destruct Hp as (Hp & Hb & Hcur). rewrite Hpe in Hp.
    assert (Hlen : zlen (concat (acc ++ [raw cur])) = zlen (concat acc) + 1 + zlen cur)
      by (rewrite concat_app, zlen_app; cbn; rewrite app_nil_r; unfold raw; rewrite zlen_cons; lia).
    specialize (HN (acc ++ [raw cur]) b1). rewrite Hlen, Z.add_0_r in HN. apply HN.
    + assert (Hf : filled dst eom (concat (acc ++ [raw cur])) b1)
        by (rewrite concat_app; cbn; by rewrite app_nil_r).
      destruct (Z.lt_ge_cases (zlen (concat (acc ++ [raw cur]))) eom) as [Hlt|Hge]; [|by right].
      left. destruct (filled_len _ _ _ _ Hf) as [_ Hz].
      destruct (znth_lt b1 (zlen (concat (acc ++ [raw cur])))) as [g Hg]; [pose proof (zlen_nonneg (concat (acc ++ [raw cur]))); lia|].
      exists g. destruct Hf as (G1 & G2 & G3 & G4). split_and!; [done|done|rewrite zlen_app; change (zlen [g]) with 1; lia|].
      rewrite zlen_app. change (zlen [g]) with 1. by rewrite (ztake_snoc _ _ _ Hg), G4.
    + split; [|split; [|constructor]].
      * rewrite Hp. destruct (parse (d :: t) []) as [[ls r]|]; [|done]. cbn. by rewrite <- app_assoc.
      * apply behind_snoc; [done|done| |done]. intros ->. by cbn in Hbad.
Qed.

Lemma digit_pos_eq c : digit_pos c = if isdigit c then Some (c - 48) else None.
Proof. done. Qed.

Lemma no_bits_cons c t : c <> 92 -> no_bits (c :: t) = true -> no_bits t = true.
Proof. intros Hc. cbn. by rewrite (proj2 (Z.eqb_neq c 92)). Qed.

Lemma no_bits_esc c t : no_bits (92 :: c :: t) = true -> c <> 91 /\ no_bits t = true.
Proof. cbn. rewrite andb_true_iff, negb_true_iff, Z.eqb_neq. done. Qed.

Lemma isdigit_not_92 c : isdigit c = true -> c <> 92.
Proof. intros Hc ->. done. Qed.

(** The two further digits of an escape. *)
Lemma wp_pton_ddd d t src b (Q : Z * Z -> list Z -> Prop) :
  cstr mem src t -> isdigit d = true ->
  (forall e f t', t = e :: f :: t' -> isdigit e = true -> isdigit f = true ->
     let n := (d - 48) * 100 + (e - 48) * 10 + (f - 48) in n <= 255 -> Q (n, src + 2) b) ->
  (match t with
   | e :: f :: _ => isdigit e && isdigit f && ((d - 48) * 100 + (e - 48) * 10 + (f - 48) <=? 255) = false
   | _ => True
   end -> pton_err EMSGSIZE b) ->
  wp (pton_ddd mem (d - 48) src) b Q pton_err.
Proof.
  intros Hc Hd HQ HE. unfold pton_ddd. wp_step. destruct t as [|e t].
  { eapply wp_rd; [by apply cstr_nul_head|]. wp_step. wp_step; [by apply HE|done]. }
  destruct (cstr_cons_l _ _ _ _ Hc) as (He0 & He & Hc1). eapply wp_rd; [exact He|].
  rewrite (proj2 (Z.eqb_neq e 0)) by done. cbn [fail_if]. wp_step. wp_step. rewrite digit_pos_eq.
  destruct (isdigit e) eqn:Hde; [|wp_step; apply HE; by destruct t]. wp_step. destruct t as [|f t].
  { eapply wp_rd; [by apply cstr_nul_head|]. wp_step. wp_step; [by apply HE|done]. }
  destruct (cstr_cons_l _ _ _ _ Hc1) as (Hf0 & Hf & _). eapply wp_rd; [exact Hf|].
  rewrite (proj2 (Z.eqb_neq f 0)) by done. cbn [fail_if]. wp_step. wp_step. rewrite digit_pos_eq.
  destruct (isdigit f) eqn:Hdf; [|wp_step; by apply HE]. wp_step. apply wp_fail_if; intros Hn.
  - apply HE. cbn [andb]. lia.
  - wp_step. eapply HQ; [done|done|done|lia].
Qed.

(** The loop. After a backslash the rest of the text is parsed with it. *)
Lemma wp_pton_loop fuel t acc cur b src (escaped : bool) :
  bytes t -> cstr mem src t -> no_bits ((if escaped then [92] else []) ++ t) = true -> reading acc cur b ->
  parsed acc cur ((if escaped then [92] else []) ++ t) -> (length t < fuel)%nat ->
  wp (loop fuel (pton_step mem eom) (src, zlen (concat acc), zlen (concat acc) + 1 + zlen cur, escaped)) b
     exit_ok pton_err.
Proof.
  revert t acc cur b src escaped. induction fuel as [|fuel IH]; intros t acc cur b src escaped Hbt Hc Hnb Hr Hp Hf; [lia|].
  apply wp_loop_S. unfold pton_step. wp_step. destruct t as [|c t].
  { eapply wp_rd; [by apply cstr_nul_head|]. cbn [Z.eqb]. wp_step. exists acc, cur, ((if escaped then [92] else []) ++ []).
    split_and!; try done. by destruct escaped. }
  destruct (cstr_cons_l _ _ _ _ Hc) as (Hc0 & Hrd & Hct). eapply wp_rd; [exact Hrd|]. cbn in Hf.
  apply Forall_cons in Hbt as [Hcb Hbt].
  rewrite (proj2 (Z.eqb_neq c 0)) by done. cbv zeta.
  assert (Hnext : forall t' u x src', bytes u -> (length u < fuel)%nat -> cstr mem src' u -> no_bits u = true -> is_byte x ->
    parsed acc cur t' -> parse t' cur = parse u (cur ++ [x]) ->
    wp (pton_store eom src' (zlen (concat acc)) (zlen (concat acc) + 1 + zlen cur) x) b
      (fun st s' => match st with
         | Next l' => wp (loop fuel (pton_step mem eom) l') s' exit_ok pton_err
         | Done r => exit_ok r s' end) pton_err).
  { intros t' u x src' Hbu Hu Hcu Hnu Hx Hp' Heq. eapply wp_pton_store; [exact Hr|exact Hp'|exact Heq|done|].
    intros b' Hr' Hp2. by apply (IH u acc (cur ++ [x]) b' src' false). }
  destruct escaped; cbn [app] in Hnb, Hp.
  - apply no_bits_esc in Hnb as [H91 Hnt]. rewrite (proj2 (Z.eqb_neq c 91)) by done.
    rewrite digit_pos_eq. destruct (isdigit c) eqn:Hd.
    + wp_step. eapply wp_pton_ddd; [exact Hct|done| |].
      * intros e f t' -> He Hf' n Hn. apply Forall_cons in Hbt as [_ [_ Hbt]%Forall_cons]. eapply (Hnext _ t'); [done|cbn in Hf; lia| | | |exact Hp|].
        -- destruct (cstr_cons_l _ _ _ _ Hct) as (_ & _ & H1). destruct (cstr_cons_l _ _ _ _ H1) as (_ & _ & H2).
           by replace (src + 1 + 2) with (src + 1 + 1 + 1) by lia.
        -- apply no_bits_cons in Hnt; [|by apply isdigit_not_92].
           apply no_bits_cons in Hnt; [done|by apply isdigit_not_92].
        -- unfold is_byte, n, isdigit in *. lia.
        -- cbn [parse Z.eqb Pos.eqb]. rewrite Hd, He, Hf'. cbv zeta. fold n. cbn [andb].
           by rewrite (proj2 (Z.leb_le n 255)).
      * intros Hbad. eapply pton_err_intro; [exact Hr|exact Hp|]. intros ls r. cbn [parse Z.eqb Pos.eqb].
        rewrite Hd. destruct t as [|e [|f t]]; try done. cbv zeta. by rewrite Hbad.
    + eapply (Hnext _ t); [done|lia|done|done|done|exact Hp|]. cbn [parse Z.eqb Pos.eqb]. by rewrite Hd.
  - destruct (Z.eqb_spec c 92) as [->|H92].
    { wp_step. apply (IH t acc cur b (src + 1) true); [done|done|done|done|done|lia]. }
    pose proof (no_bits_cons _ _ H92 Hnb) as Hnt.
    destruct (Z.eqb_spec c 46) as [->|H46].
    { apply (wp_pton_dot acc cur t); [done|done|done| |done]. intros acc' b' Hr' Hp'.
      apply (IH t acc' [] b' (src + 1) false); [done|done|done|done|done|lia]. }
    eapply (Hnext _ t); [done|lia|done|done|done|exact Hp|]. cbn [parse].
    by rewrite (proj2 (Z.eqb_neq c 92)), (proj2 (Z.eqb_neq c 46)) by done.
Qed.
End pton.

(** ** The theorems *)

Lemma accepted_plain dst eom t0 r n b :
  accepted dst eom t0 r n b ->
  exists ls, parse t0 [] = Some (ls, r) /\ n = zlen (wire ls) /\ n <= NS_MAXCDNAME /\
    filled dst eom (wire ls) b /\ Forall (fun x => exists l, x = zlen l :: l /\ bytes l /\ 1 <= zlen l < 64) ls.
Proof.
  intros (ls & Hp & -> & Hmax & Hf & Hb). exists ls. split_and!; try done.
  unfold NS_MAXCDNAME in Hmax. rewrite zlen_wire in Hmax. clear Hp Hf.
  induction Hb as [|x ls (l & -> & Hne & Hland & Hl) Hb IH]; [constructor|].
  cbn [concat] in Hmax. rewrite zlen_app in Hmax. pose proof (zlen_nonneg (concat ls)).
  assert (Hraw : zlen (raw l) = zlen l + 1) by (unfold raw; by rewrite zlen_cons).
  assert (H1 : 0 < zlen l) by (destruct l as [|c l]; [done|]; rewrite zlen_cons; pose proof (zlen_nonneg l); lia).
  assert (H64 : zlen l < 64).
  { apply Z.ltb_lt. rewrite <- is_byte_64 by (unfold is_byte; lia). by apply Z.eqb_eq. }
  constructor; [|apply IH; lia]. exists l. split_and!; [|done|lia|lia]. unfold raw, u8.
  by rewrite Z.mod_small by lia.
Qed.

Lemma wp_pton mem t dst eom :
  bytes t -> cstr mem 0 t -> no_bits t = true -> 0 <= eom <= zlen dst ->
  wp (ns_name_pton2 mem eom) dst (fun '(r, n) b => accepted dst eom t r n b)
     (pton_err dst eom t).
Proof.
  intros Hmem Hc Hnb Heom. unfold ns_name_pton2. wp_step. pose proof (cstr_len _ _ _ Hc) as Hlen.
  assert (Hr : reading dst eom [] [] dst).
  { destruct (Z.eq_dec eom 0) as [->|].
    - right. split_and!; [by change (zlen (concat [])) with 0|done|by apply filled_nil].
    - left. destruct (znth_lt dst 0) as [g Hg]; [lia|]. exists g. cbn.
      split_and!; [done|done|change (zlen [g]) with 1; lia|]. change (zlen [g]) with (0 + 1).
      by rewrite (ztake_snoc _ _ _ Hg). }
  assert (Hp : parsed t [] [] t).
  { split; [|by split; [constructor|constructor]]. by destruct (parse t []) as [[ls r]|]. }
  eapply wp_mono; [apply (wp_pton_loop dst eom Heom mem t (S (length mem)) t [] [] dst 0 false); try done| |done].
  { unfold zlen in Hlen. lia. }
  intros [label bp|label bp c|n] b He.
  - destruct He as (acc & cur & t' & Hr' & Hp' & Hlast & -> & ->).
    replace (zlen (concat acc) + 1 + zlen cur - zlen (concat acc) - 1) with (zlen cur) by lia.
    wp_step. apply wp_fail_if; intros Hland.
    { eapply pton_err_intro; [exact Hr'|exact Hp'|]. rewrite Hlast. intros ls r [= <- _].
      destruct cur as [|x cur]; [done|]. apply overlong_refused. lia. }
    unfold pton_done. wp_step. apply wp_fail_if; intros Hroom.
    { eapply pton_err_intro; [exact Hr'|exact Hp'|]. intros ls r _. left. rewrite zlen_wire_app, zlen_wire.
      pose proof (zlen_nonneg (concat ls)). lia. }
    wp_step. eapply wp_pton_close; [exact Heom|exact Hr'|lia|]. intros b1 F1.
    apply (wp_finish dst eom Heom t acc cur t' 0 b1 (fun bp => mret (0, bp))); [done|done|lia|done|].
    intros n b' Ha. by wp_step.
  - done.
  - by wp_step.
Qed.

(** [ns_name_pton2] on every text without a bit-string escape implements the
    reference parser: it terminates without an access outside the text and the
    first [dstsiz] bytes of the destination; it succeeds exactly when the text
    parses to labels of 1 to 63 octets whose encoded form has at most
    NS_MAXCDNAME octets and fits, and then it has written that form, stored its
    length in [*dstlen] and returned whether the text ends in a dot; every
    failure sets EMSGSIZE. *)
Theorem ns_name_pton2_correct mem t dst dstsiz :
  bytes t -> cstr mem 0 t -> no_bits t = true -> 0 <= dstsiz <= zlen dst ->
  wp (ns_name_pton2 mem dstsiz) dst
     (fun '(r, n) b => exists ls, parse t [] = Some (ls, r) /\
        n = zlen (wire ls) /\ n <= NS_MAXCDNAME /\ n <= dstsiz /\
        Forall (fun x => exists l, x = zlen l :: l /\ bytes l /\ 1 <= zlen l < 64) ls /\
        ztake n b = wire ls /\ zdrop dstsiz b = zdrop dstsiz dst)
     (fun e b => e = EMSGSIZE /\ zdrop dstsiz b = zdrop dstsiz dst /\
        forall ls r, parse t [] = Some (ls, r) ->
          dstsiz < zlen (wire ls) \/ NS_MAXCDNAME < zlen (wire ls) \/ Exists (fun x => 64 < zlen x) ls).
Proof.
  intros Hmem Hc Hnb Hd. eapply wp_mono; [by apply (wp_pton mem t)| |].
  - intros [r n] b Ha. destruct (accepted_plain _ _ _ _ _ _ Ha) as (ls & Hp & -> & Hmax & (H1 & H2 & H3 & H4) & Hls).
    exists ls. by split_and!.
  - intros e b (-> & (w & _ & H2 & _) & Hno). by split_and!.
Qed.

(** "a\.b\007.c." with its terminator. *)
Definition sample_text : list Z := [97; 92; 46; 98; 92; 48; 48; 55; 46; 99; 46].

Lemma ns_name_pton2_correct_witness :
  parse sample_text [] = Some ([[4; 97; 46; 98; 7]; [1; 99]], 1) /\
  ns_name_pton2 (sample_text ++ [0]) 9 (replicate 9 9) = (Ret (1, 8), [4; 97; 46; 98; 7; 1; 99; 0; 9]) /\
  wp (ns_name_pton2 (sample_text ++ [0]) 5) (replicate 9 9)
     (fun '(r, n) b => exists ls, parse sample_text [] = Some (ls, r) /\
        n = zlen (wire ls) /\ n <= NS_MAXCDNAME /\ n <= 5 /\
        Forall (fun x => exists l, x = zlen l :: l /\ bytes l /\ 1 <= zlen l < 64) ls /\
        ztake n b = wire ls /\ zdrop 5 b = zdrop 5 (replicate 9 9))
     (fun e b => e = EMSGSIZE /\ zdrop 5 b = zdrop 5 (replicate 9 9) /\
        forall ls r, parse sample_text [] = Some (ls, r) ->
          5 < zlen (wire ls) \/ NS_MAXCDNAME < zlen (wire ls) \/ Exists (fun x => 64 < zlen x) ls).
Proof.
  split; [reflexivity|]. split; [by vm_compute|]. apply (ns_name_pton2_correct _ sample_text).
  - by apply bytes_check.
  - apply (cstr_intro sample_text []). unfold sample_text. repeat constructor; discriminate.
  - reflexivity.
  - by vm_compute.
Defined.

(** ** Reading back what is printed *)

Lemma esc_digit d : 0 <= d < 10 -> isdigit (48 + d) = true.
Proof. unfold isdigit. lia. Qed.

(** The three forms of an octet, for the parser. *)
Lemma esc_form c : is_byte c ->
  (esc c = [92; c] /\ isdigit c = false /\ c <> 91) \/
  (exists d e f, esc c = [92; d; e; f] /\ isdigit d = true /\ isdigit e = true /\ isdigit f = true /\
     (d - 48) * 100 + (e - 48) * 10 + (f - 48) = c) \/
  (esc c = [c] /\ c <> 92 /\ c <> 46).
Proof.
  intros Hc. unfold esc. destruct (special c) eqn:Hs; [|destruct (printable c) eqn:Hp; cbn [negb]].
  - left. unfold special in Hs. rewrite !orb_true_iff, !Z.eqb_eq in Hs.
    split; [done|]. unfold isdigit. lia.
  - right. right. unfold special in Hs. rewrite !orb_false_iff, !Z.eqb_neq in Hs. split; [done|]. lia.
  - right. left. exists (48 + c / 100), (48 + c mod 100 / 10), (48 + c mod 10). unfold is_byte in Hc.
    split; [done|]. rewrite !esc_digit by (Z.div_mod_to_equations; lia).
    split_and!; try done. Z.div_mod_to_equations; lia.
Qed.

Lemma parse_escs l t cur : bytes l -> parse (escs l ++ t) cur = parse t (cur ++ l).
Proof.
  intros Hl. revert cur. induction Hl as [|c l Hc Hl IH]; intros cur; [by rewrite app_nil_r|].
  rewrite escs_cons, <- app_assoc.
  assert (Hstep : parse (esc c ++ escs l ++ t) cur = parse (escs l ++ t) (cur ++ [c])).
  { destruct (esc_form c Hc) as [(-> & Hd & _)|[(d & e & f & -> & Hd & He & Hf & Hn)|(-> & H92 & H46)]]; cbn [app parse].
    - cbn [Z.eqb Pos.eqb]. by rewrite Hd.
    - cbn [Z.eqb Pos.eqb]. rewrite Hd, He, Hf. cbv zeta. rewrite Hn. unfold is_byte in Hc.
      by rewrite (proj2 (Z.leb_le c 255)) by lia.
    - by rewrite (proj2 (Z.eqb_neq c 92)), (proj2 (Z.eqb_neq c 46)). }
  by rewrite Hstep, IH, <- app_assoc.
Qed.

Lemma no_bits_escs l t : bytes l -> no_bits (escs l ++ t) = no_bits t.
Proof.
  intros Hl. induction Hl as [|c l Hc Hl IH]; [done|]. rewrite escs_cons, <- app_assoc, <- IH.
  destruct (esc_form c Hc) as [(-> & Hd & H91)|[(d & e & f & -> & Hd & He & Hf & Hn)|(-> & H92 & H46)]]; cbn [app no_bits].
  - cbn [Z.eqb Pos.eqb]. by rewrite (proj2 (Z.eqb_neq c 91)).
  - cbn [Z.eqb Pos.eqb]. rewrite (proj2 (Z.eqb_neq d 91)) by (intros ->; done). cbn [negb andb].
    rewrite (proj2 (Z.eqb_neq e 92)), (proj2 (Z.eqb_neq f 92)); [done|..]; by apply isdigit_not_92.
  - by rewrite (proj2 (Z.eqb_neq c 92)).
Qed.

Definition plain (x : list Z) : Prop := exists l, x = zlen l :: l /\ bytes l /\ 1 <= zlen l < 64.

Lemma plain_text x : plain x -> exists l, x = raw l /\ bytes l /\ l <> [] /\ label_text x = escs l.
Proof.
  intros (l & -> & Hl & Hn). exists l. unfold raw, u8. rewrite Z.mod_small by lia. split_and!; [done|done| |].
  - intros ->. change (zlen (@nil Z)) with 0 in Hn. lia.
  - cbn [label_text]. by rewrite (proj2 (Z.eqb_neq _ _)) by lia.
Qed.

Lemma escs_head c l : bytes (c :: l) -> exists d u, escs (c :: l) = d :: u /\ d <> 46.
Proof.
  intros [Hc _]%Forall_cons. rewrite escs_cons.
  destruct (esc_form c Hc) as [(-> & _)|[(d & e & f & -> & _)|(-> & _ & H46)]]; cbn [app];
    eexists _, _; (split; [done|]); done.
Qed.

Lemma join_head ls : Forall plain ls -> ls <> [] -> exists d u, join ls = d :: u /\ d <> 46.
Proof.
  intros [|x ls' Hx _] Hne; [done|]. destruct (plain_text x Hx) as (l & _ & Hl & Hl0 & Ht).
  destruct l as [|c l]; [done|]. destruct (escs_head c l Hl) as (d & u & He & Hd).
  destruct ls'; cbn [join]; rewrite Ht, He; cbn [app]; by eexists _, _.
Qed.

Lemma parse_join ls : Forall plain ls -> ls <> [] -> parse (join ls) [] = Some (ls, 0).
Proof.
  induction 1 as [|x ls Hx Hls IH]; intros Hne; [done|].
  destruct (plain_text x Hx) as (l & Hxl & Hl & Hl0 & Ht). destruct ls as [|y ls].
  - cbn [join]. rewrite Ht. rewrite <- (app_nil_r (escs l)), parse_escs by done. cbn. subst x. by destruct l.
  - change (join (x :: y :: ls)) with (label_text x ++ [46] ++ join (y :: ls)). rewrite Ht, parse_escs by done.
    destruct (join_head (y :: ls) Hls ltac:(done)) as (d & u & Hj & Hd). specialize (IH ltac:(done)).
    rewrite Hj in IH |- *. cbn [app]. 
    change (parse (46 :: d :: u) l) with (if (zlen l =? 0) || (d =? 46) then None
      else '(ls, r) ← parse (d :: u) []; Some (raw l :: ls, r)).
    rewrite cons_nonempty_len, (proj2 (Z.eqb_neq d 46)), IH by done. cbn. by subst x.
Qed.

Lemma no_bits_join ls : Forall plain ls -> no_bits (join ls) = true.
Proof.
  induction 1 as [|x ls Hx Hls IH]; [done|]. destruct (plain_text x Hx) as (l & _ & Hl & _ & Ht).
  destruct ls as [|y ls]; [cbn [join]; by rewrite Ht, <- (app_nil_r (escs l)), no_bits_escs|].
  change (join (x :: y :: ls)) with (label_text x ++ [46] ++ join (y :: ls)). by rewrite Ht, no_bits_escs.
Qed.

Lemma escs_nonzero l : bytes l -> Forall (fun c => c <> 0) (escs l).
Proof.
  intros Hl. induction Hl as [|c l Hc Hl IH]; [constructor|]. rewrite escs_cons. apply Forall_app. split; [|done].
  destruct (Z.eq_dec c 0) as [->|H0]; [repeat constructor; discriminate|].
  destruct (esc_form c Hc) as [(-> & _)|[(d & e & f & -> & Hd & He & Hf & _)|(-> & _)]];
    repeat constructor; try done; unfold isdigit in *; lia.
Qed.

Lemma text_nonzero ls : Forall plain ls -> Forall (fun c => c <> 0) (text ls).
Proof.
  intros Hls. destruct Hls as [|x ls Hx Hls]; [by repeat constructor|].
  change (text (x :: ls)) with (join (x :: ls)). revert x Hx. induction Hls as [|y ls Hy Hls IH]; intros x Hx;
    destruct (plain_text x Hx) as (l & _ & Hl & _ & Ht).
  - cbn [join]. rewrite Ht. by apply escs_nonzero.
  - change (join (x :: y :: ls)) with (label_text x ++ [46] ++ join (y :: ls)). rewrite Ht.
    apply Forall_app. split; [by apply escs_nonzero|]. constructor; [done|]. by apply IH.
Qed.

Lemma escs_bytes l : bytes l -> bytes (escs l).
Proof.
  intros Hl. induction Hl as [|c l Hc Hl IH]; [constructor|]. rewrite escs_cons. apply Forall_app. split; [|done].
  destruct (esc_form c Hc) as [(-> & _)|[(d & e & f & -> & Hd & He & Hf & _)|(-> & _)]];
    repeat (apply Forall_cons; split); try done; unfold is_byte, isdigit in *; lia.
Qed.

Lemma text_bytes ls : Forall plain ls -> bytes (text ls).
Proof.
  intros Hls. destruct Hls as [|x ls Hx Hls]; [by apply bytes_check|].
  change (text (x :: ls)) with (join (x :: ls)). revert x Hx. induction Hls as [|y ls Hy Hls IH]; intros x Hx;
    destruct (plain_text x Hx) as (l & _ & Hl & _ & Ht).
  - cbn [join]. rewrite Ht. by apply escs_bytes.
  - change (join (x :: y :: ls)) with (label_text x ++ [46] ++ join (y :: ls)). rewrite Ht.
    apply Forall_app. split; [by apply escs_bytes|]. constructor; [unfold is_byte; lia|]. by apply IH.
Qed.

Lemma plain_wf x : plain x -> wf_label x.
Proof. intros (l & -> & Hl & Hn). by constructor. Qed.

(** C32: printing and reading back: for every name of plain labels with at most
    NS_MAXCDNAME octets, [ns_name_pton] of the text that [ns_name_ntop] prints
    writes the name that was printed, whatever octets its labels hold, and
    returns 1 for the root and 0 for every other name (the text of which does
    not end in a dot). *)
Theorem ns_name_ntop_pton ls q dst1 dst2 size1 size2 :
  Forall plain ls -> zlen (wire ls) <= NS_MAXCDNAME ->
  zlen (text ls) + 1 <= size1 <= zlen dst1 -> zlen (wire ls) <= size2 <= zlen dst2 ->
  exists txt b, ns_name_ntop (wire ls ++ q) size1 dst1 = (Ret (zlen (text ls) + 1), txt) /\
    ns_name_pton txt size2 dst2 = (Ret (match ls with [] => 1 | _ => 0 end), b) /\
    ztake (zlen (wire ls)) b = wire ls.
Proof.
  intros Hls Hmax Hs1 Hs2.
  assert (Hwf : Forall wf_label ls) by (eapply Forall_impl; [exact Hls|by apply plain_wf]).
  assert (Hparse : parse (text ls) [] = Some (ls, match ls with [] => 1 | _ => 0 end)).
  { destruct ls; [done|]. by apply parse_join. }
  pose proof (zlen_nonneg (text ls)).
  destruct (proj1 (wp_eq _ _ _ _) (wp_ntop dst1 (wire ls ++ q) ls q size1 ltac:(lia) eq_refl Hwf))
    as [(n & txt & Hrun & -> & _ & _ & Hn & Ht)|(e & b & _ & _ & Hlt & _)].
  2: { unfold spare in Hlt. assert (existsb is_bits ls = false) as Hb; [|rewrite Hb in Hlt; lia].
       clear -Hls. induction Hls as [|x ls (l & -> & _ & Hn) _ IH]; [done|]. cbn.
       by rewrite (proj2 (Z.eqb_neq (zlen l) 65)), IH by lia. }
  rewrite zlen_app in Ht. change (zlen [0]) with 1 in Ht.
  assert (Hc : cstr txt 0 (text ls)).
  { rewrite <- (ztake_zdrop (zlen (text ls) + 1) txt), Ht, <- app_assoc. by apply cstr_intro, text_nonzero. }
  assert (Hb : bytes (text ls)) by (by apply text_bytes).
  assert (Hnb : no_bits (text ls) = true) by (destruct ls; [done|by apply no_bits_join]).
  pose proof (wp_pton txt (text ls) dst2 size2 Hb Hc Hnb ltac:(pose proof (zlen_nonneg (wire ls)); lia)) as Hw.
  exists txt. unfold ns_name_pton, mbind, M_bind.
  destruct (proj1 (wp_eq _ _ _ _) Hw) as [([r n] & b & -> & ls' & Hp' & -> & _ & (_ & _ & _ & H4) & _)
    |(e & b & _ & _ & _ & Hno)].
  - rewrite Hparse in Hp'. injection Hp' as <- <-. exists b. done.
  - exfalso. destruct (Hno _ _ Hparse) as [?|[?|Hex]]; [lia|lia|].
    apply Exists_exists in Hex as (x & Hx & Hlx). rewrite Forall_forall in Hls.
    destruct (Hls x Hx) as (l & -> & _ & Hl). rewrite zlen_cons in Hlx. lia.
Qed.

Lemma ns_name_ntop_pton_witness :
  exists txt b,
    ns_name_ntop (wire [[3; 46; 0; 255]; [1; 92]] ++ []) 15 (replicate 15 9) = (Ret 14, txt) /\
    txt = [92; 46; 92; 48; 48; 48; 92; 50; 53; 53; 46; 92; 92; 0; 9] /\
    ns_name_pton txt 7 (replicate 8 5) = (Ret 0, b) /\ ztake 7 b = [3; 46; 0; 255; 1; 92; 0].
Proof.
  assert (Hls : Forall plain [[3; 46; 0; 255]; [1; 92]]).
  { constructor; [exists [46; 0; 255]|constructor; [exists [92]|constructor]];
      (split; [done|]; split; [by apply bytes_check|by vm_compute]). }
  destruct (ns_name_ntop_pton [[3; 46; 0; 255]; [1; 92]] [] (replicate 15 9) (replicate 8 5) 15 7 Hls)
    as (txt & b & H1 & H2 & H3); [by vm_compute..|].
  exists txt, b. split; [exact H1|]. split; [by vm_compute in H1; injection H1 as <-|]. split; [exact H2|exact H3].
Defined.
