(* ===== verification/NsPack.v ===== *)
(** * Compressed names: what ns_name_pack writes

    [ns_name_pack] of [dns/nameser/ns_name.c] and its search [dn_find]: the
    octets written spell the name given, up to the case of its letters, through
    compression pointers to names written before. *)
From S2P Require Import Prelude CString NsName NsWire NsText NsNtop NsPton.

(** ** Names up to case *)

(** The length octet of a plain label is below the letters. *)
Definition same_label (x y : list Z) : Prop := map mklower x = map mklower y.
Definition same_name : list (list Z) -> list (list Z) -> Prop := Forall2 same_label.

#[global] Instance same_label_equiv : Equivalence same_label.
Proof. unfold same_label. split; congruence. Qed.

#[global] Instance same_name_equiv : Equivalence same_name.
Proof. unfold same_name. split; apply _. Qed.

Lemma same_name_wire ls ls' : same_name ls ls' -> zlen (wire ls) = zlen (wire ls').
Proof.
  unfold same_name. induction 1 as [|x y ls ls' Hx _ IH]; [done|]. rewrite !wire_cons, !zlen_app, IH.
  apply (f_equal length) in Hx. rewrite !length_map in Hx. unfold zlen. lia.
Qed.

Lemma wire_nil : wire [] = [0].
Proof. done. Qed.

Lemma zlen_wire_pos ls : 1 <= zlen (wire ls).
Proof. rewrite zlen_wire. pose proof (zlen_nonneg (concat ls)). lia. Qed.

Lemma plain_inv x : plain x -> exists l, x = zlen l :: l /\ bytes l /\ 1 <= zlen l < 64.
Proof. done. Qed.

Lemma plain_wire_bytes ls : Forall plain ls -> bytes (wire ls).
Proof.
  unfold wire. intros H. apply Forall_app. split; [|by apply bytes_check].
  induction H as [|x ls (l & -> & Hl & Hn) _ IH]; [constructor|]. cbn. constructor; [unfold is_byte; lia|].
  apply Forall_app. done.
Qed.

Lemma bytes_splice b i w : bytes b -> bytes w -> bytes (splice b i w).
Proof.
  intros Hb Hw. unfold splice. apply Forall_app. split; [by apply Forall_take|]. apply Forall_app.
  split; [done|by apply Forall_drop].
Qed.

(** ** Names that stay when octets behind them change *)

Section stable.
Context (b : list Z).

Lemma name_at_in k p ls eom : name_at b eom k p ls -> 0 <= p < zlen b.
Proof.
  destruct 1 as [? ? H|? ? ? ? ? H|? ? ? ? ? H]; [|apply label_at_znth in H as [H _]|];
    by apply znth_Some in H.
Qed.

(** Looking at fewer octets before, or at a longer message. *)
Lemma name_at_weaken eom k p ls eom' k' :
  name_at b eom k p ls -> eom - k <= eom' - k' -> eom <= eom' -> name_at b eom' k' p ls.
Proof.
  intros H. revert k'. induction H as [k p H0|k p n l ls Hl Hlt _ IH|k p n c ls Hn Hn' Hlt Hc Ht Hk _ IH];
    intros k' Hk' He.
  - by constructor.
  - apply name_label; [done|lia|]. apply IH; lia.
  - eapply name_ptr; try done; try lia. apply IH; lia.
Qed.

Lemma zdrop_ztake l i j : 0 <= i -> i + j <= zlen l -> 0 <= j -> ztake j (zdrop i l) = zdrop i (ztake (i + j) l : list Z).
Proof. intros. unfold ztake, zdrop. rewrite take_drop_commute. do 2 f_equal. lia. Qed.

Lemma label_at_agree b' p n l e :
  ztake e b = ztake e b' -> p + 1 + l < e -> 0 < l -> label_at b p n l -> label_at b' p n l.
Proof.
  intros Ha Hp Hl0 Hl.
  assert (Hz : forall i, i < e -> znth b' i = znth b i)
    by (intros i Hi; by rewrite <- (znth_ztake i e b'), <- Ha, znth_ztake).
  destruct Hl; constructor; try done; rewrite Hz; (done || lia).
Qed.

Lemma name_at_agree b' eom k p ls :
  bytes b -> eom <= zlen b -> eom <= zlen b' -> ztake eom b = ztake eom b' -> p < eom ->
  name_at b eom k p ls -> name_at b' eom k p ls.
Proof.
  intros Hb He He' Ha Hp H.
  assert (Hz : forall i, i < eom -> znth b' i = znth b i)
    by (intros i Hi; by rewrite <- (znth_ztake i eom b'), <- Ha, znth_ztake).
  induction H as [k p H0|k p n l ls Hl Hlt _ IH|k p n c ls Hn Hn' Hlt Hc Ht Hk _ IH].
  - constructor. by rewrite Hz.
  - pose proof (label_at_len _ _ _ _ Hb Hl). destruct (label_at_znth _ _ _ _ Hl) as [Hpz _].
    apply znth_Some in Hpz.
    assert (Hs : ztake l (zdrop (p + 1) b) = ztake l (zdrop (p + 1) b')).
    { rewrite !zdrop_ztake by lia. f_equal.
      rewrite <- (ztake_ztake b _ eom), Ha by lia. apply ztake_ztake. lia. }
    rewrite Hs. apply name_label; [eapply label_at_agree; [exact Ha|lia|lia|exact Hl]|done|by apply IH].
  - eapply name_ptr; rewrite ?Hz by lia; try done. by apply IH.
Qed.

(** A name may start with labels copied in place. *)
Lemma name_at_labels eom pre k p ls tail :
  0 <= p -> zdrop p b = concat pre ++ tail -> Forall plain pre -> p + zlen (concat pre) < eom ->
  name_at b eom (k + zlen (concat pre)) (p + zlen (concat pre)) ls -> name_at b eom k p (pre ++ ls).
Proof.
  intros Hp Hd Hpre. revert k p Hp Hd. induction Hpre as [|x pre (l & -> & Hl & Hn) _ IH]; intros k p Hp Hd He Hls.
  - cbn in *. change (zlen (@nil Z)) with 0 in *. by rewrite !Z.add_0_r in Hls.
  - cbn [concat app] in *. rewrite <- app_assoc in Hd. cbn [app] in Hd. rewrite zlen_cons, zlen_app in He, Hls.
    pose proof (zlen_nonneg (concat pre)).
    assert (Hz : znth b p = Some (zlen l)).
    { rewrite <- (Z.add_0_r p), <- znth_zdrop, Hd by lia. done. }
    assert (Hd' : zdrop (p + 1) b = l ++ concat pre ++ tail).
    { rewrite <- zdrop_zdrop, Hd by lia. done. }
    rewrite <- (ztake_app l (concat pre ++ tail)) at 2. rewrite <- Hd'.
    apply name_label; [apply label_plain; [exact Hz|lia]|lia|]. apply IH; [lia| |lia|].
    + rewrite <- zdrop_zdrop, Hd' by lia. apply zdrop_app.
    + replace (k + (zlen l + 1) + zlen (concat pre)) with (k + (zlen l + zlen (concat pre) + 1)) by lia.
      replace (p + 1 + zlen l + zlen (concat pre)) with (p + (zlen l + zlen (concat pre) + 1)) by lia. done.
Qed.

Lemma span_at_labels pre p e tail :
  0 <= p -> zdrop p b = concat pre ++ tail -> Forall plain pre ->
  span_at b (p + zlen (concat pre)) e -> span_at b p e.
Proof.
  intros Hp Hd Hpre. revert p Hp Hd. induction Hpre as [|x pre (l & -> & Hl & Hn) _ IH]; intros p Hp Hd He.
  - cbn in *. change (zlen (@nil Z)) with 0 in *. by rewrite !Z.add_0_r in He.
  - cbn [concat app] in *. rewrite <- app_assoc in Hd. cbn [app] in Hd. rewrite zlen_cons, zlen_app in He.
    assert (Hz : znth b p = Some (zlen l)).
    { rewrite <- (Z.add_0_r p), <- znth_zdrop, Hd by lia. done. }
    eapply span_label; [by apply label_plain; [exact Hz|lia]|]. apply IH; [lia| |].
    + replace (p + 1 + zlen l) with (p + (1 + zlen l)) by lia. rewrite <- zdrop_zdrop, Hd by lia.
      apply (zdrop_app_alt (zlen l :: l)). rewrite zlen_cons. lia.
    + replace (p + 1 + zlen l + zlen (concat pre)) with (p + (zlen l + zlen (concat pre) + 1)) by lia. done.
Qed.
End stable.

(** A name of plain labels at [p], as the search walks it. *)
Lemma name_at_plain_label b eom k p x dls :
  name_at b eom k p (x :: dls) -> plain x ->
  (forall n, znth b p = Some n -> n < 64) ->
  exists l, x = zlen l :: l /\ 1 <= zlen l < 64 /\ znth b p = Some (zlen l) /\
    ztake (zlen l) (zdrop (p + 1) b) = l /\ p + 1 + zlen l < eom /\
    label_at b p (zlen l) (zlen l) /\
    name_at b eom (k + (zlen l + 1)) (p + 1 + zlen l) dls.
Proof.
  intros H (l & -> & _ & Hn) H64. remember ((zlen l :: l) :: dls) as ls0 eqn:E.
  destruct H as [k p H0|k p n m ls Hl Hlt H|k p n c ls Hz Hn' _ _ _ _ _]; [done| |specialize (H64 _ Hz); lia].
  injection E as -> El ->. destruct (label_at_znth _ _ _ _ Hl) as [Hz _].
  assert (m = zlen l) as ->. { inversion Hl; simplify_eq; [done|lia]. }
  exists l. destruct Hn. by split_and!.
Qed.

(** ** dn_find *)

Lemma map_lower_cons a b (l l' : list Z) :
  map mklower (a :: l) = map mklower (b :: l') <->
  mklower a = mklower b /\ map mklower l = map mklower l'.
Proof. cbn. split; [by intros [= -> ->]|by intros [-> ->]]. Qed.

Lemma map_lower_app (u u' v v' : list Z) :
  zlen u = zlen u' -> map mklower (u ++ v) = map mklower (u' ++ v') ->
  map mklower u = map mklower u' /\ map mklower v = map mklower v'.
Proof.
  intros Hl H. rewrite !map_app in H. apply app_inj_1 in H; [done|]. rewrite !length_map. unfold zlen in *. lia.
Qed.

Section find.
Context {St : Type} (domain buf : list Z) (eom : Z) (tail : list Z).
Context (Hb : bytes buf) (He : eom <= zlen buf).
Implicit Types (st : St).

(** The characters of two labels are compared without their case. *)
Lemma wp_dn_find_chars l l' dn cp st E fuel t t' :
  0 <= dn -> 0 <= cp -> zdrop dn domain = l ++ t -> zdrop cp buf = l' ++ t' -> zlen l = zlen l' ->
  (length l < fuel)%nat ->
  wp (loop fuel (dn_find_chars domain buf) (dn, cp, zlen l)) st
     (fun r st' => st' = st /\
        match r with
        | Some (dn', cp') => dn' = dn + zlen l /\ cp' = cp + zlen l /\ map mklower l = map mklower l'
        | None => map mklower l <> map mklower l'
        end) E.
Proof.
  revert l' dn cp fuel. induction l as [|a l IH]; intros l' dn cp [|fuel] Hdn Hcp Hd Hc Hl Hf;
    cbn [length] in Hf; try lia; apply wp_loop_S; unfold dn_find_chars.
  - destruct l'; [|rewrite zlen_cons in Hl; pose proof (zlen_nonneg l'); change (zlen (@nil Z)) with 0 in Hl; lia].
    change (zlen (@nil Z)) with 0. cbn. wp_step. rewrite !Z.add_0_r. by split_and!.
  - destruct l' as [|a' l']; [rewrite zlen_cons in Hl; pose proof (zlen_nonneg l); change (zlen (@nil Z)) with 0 in Hl; lia|].
    rewrite !zlen_cons in *. pose proof (zlen_nonneg l). rewrite (proj2 (Z.ltb_lt _ _)) by lia. cbn [negb].
    assert (Hza : znth domain dn = Some a) by (rewrite <- (Z.add_0_r dn), <- znth_zdrop, Hd by lia; done).
    assert (Hzc : znth buf cp = Some a') by (rewrite <- (Z.add_0_r cp), <- znth_zdrop, Hc by lia; done).
    wp_step. apply (wp_rd _ _ _ _ _ _ Hza). wp_step. apply (wp_rd _ _ _ _ _ _ Hzc).
    destruct (Z.eqb_spec (mklower a) (mklower a')) as [Ha|Ha]; cbn [negb]; wp_step.
    2: { split; [done|]. rewrite map_lower_cons. tauto. }
    rewrite Z.add_simpl_r. eapply wp_conseq.
    { apply (IH l'); try lia; by rewrite <- zdrop_zdrop, ?Hd, ?Hc by lia. }
    intros [[dn' cp']|] st' [-> H']; (split; [done|]); rewrite map_lower_cons; [|tauto].
    destruct H' as (-> & -> & ?). split_and!; [lia|lia|done|done].
Qed.

Lemma same_label_raw l l' : map mklower l = map mklower l' -> same_label (zlen l :: l) (zlen l' :: l').
Proof.
  intros H. assert (zlen l = zlen l') as Hl.
  { apply (f_equal length) in H. rewrite !length_map in H. unfold zlen. lia. }
  unfold same_label. rewrite map_lower_cons, Hl. done.
Qed.

(** The octet behind a label tells whether the root follows. *)
Lemma wire_head ls t : Forall plain ls -> exists h u, wire ls ++ t = h :: u /\ (h = 0 <-> ls = []).
Proof.
  destruct 1 as [|x ls (l & -> & _ & Hn) _]; [by exists 0, t|].
  eexists _, _. split; [done|]. split; [lia|done].
Qed.

(** One label of the saved name against one of the domain. *)
Lemma wp_dn_find_label_step dn cp n l ls st E :
  0 < n < 64 -> znth buf cp = Some n -> cp + 1 + n < zlen buf ->
  0 <= dn -> zdrop dn domain = (zlen l :: l) ++ wire ls ++ tail -> 1 <= zlen l < 64 -> Forall plain ls ->
  wp (dn_find_label domain buf 0 (dn, cp)) st
     (fun r st' => st' = st /\
        match r with
        | Done true => ls = [] /\ znth buf (cp + 1 + n) = Some 0 /\
            same_label (zlen l :: l) (n :: ztake n (zdrop (cp + 1) buf))
        | Done false => True
        | Next (dn', cp') => dn' = dn + 1 + zlen l /\ cp' = cp + 1 + n /\ ls <> [] /\
            same_label (zlen l :: l) (n :: ztake n (zdrop (cp + 1) buf))
        end) E.
Proof.
  intros Hn Hz Hcp Hdn Hd Hl Hls. assert (Hbn : is_byte n) by (by eapply bytes_znth).
  pose proof (znth_Some _ _ _ Hz). unfold dn_find_label.
  assert (Hzd : znth domain dn = Some (zlen l)) by (rewrite <- (Z.add_0_r dn), <- znth_zdrop, Hd by lia; done).
  wp_step. apply (wp_rd _ _ _ _ _ _ Hz). rewrite (proj2 (Z.eqb_neq n 0)) by lia. cbv zeta.
  rewrite is_byte_64, (proj2 (Z.ltb_lt n 64)), Z.add_simpl_r by (done || lia).
  wp_step. apply (wp_labellen _ _ n); try done; try lia.
  intros n' Hn' _. assert (n' = n) as -> by (inversion Hn'; lia).
  wp_step. apply (wp_rd _ _ _ _ _ _ Hzd).
  destruct (Z.eqb_spec n (zlen l)) as [->|Hne]; cbn [negb]; [|by wp_step].
  assert (Hd1 : zdrop (dn + 1) domain = l ++ wire ls ++ tail) by (rewrite <- zdrop_zdrop, Hd by lia; done).
  assert (Hzl : zlen (ztake (zlen l) (zdrop (cp + 1) buf)) = zlen l) by (rewrite zlen_ztake; rewrite ?zlen_zdrop; lia).
  destruct (znth_lt buf (cp + 1 + zlen l)) as [v Hv]; [lia|].
  destruct (wire_head ls tail Hls) as (h & u & Hh & Hh0).
  assert (Hzh : znth domain (dn + 1 + zlen l) = Some h).
  { rewrite <- (Z.add_0_r (_ + zlen l)), <- znth_zdrop by lia.
    rewrite <- zdrop_zdrop, Hd1, zdrop_app, Hh by lia. done. }
  wp_step. eapply wp_conseq.
  { eapply (wp_dn_find_chars l (ztake (zlen l) (zdrop (cp + 1) buf))); [lia|lia|exact Hd1| |lia|unfold zlen; lia].
    symmetry. apply ztake_zdrop. }
  intros [[dn' cp']|] st' [-> H']; [|by wp_step]. destruct H' as (-> & -> & Hsame).
  assert (Hsl : same_label (zlen l :: l) (zlen l :: ztake (zlen l) (zdrop (cp + 1) buf))).
  { rewrite <- Hzl at 2. by apply same_label_raw. }
  wp_step. apply (wp_rd _ _ _ _ _ _ Hzh).
  destruct (Z.eqb_spec h 0) as [->|Hh1]; cbn [andb negb]; wp_step.
  - apply (wp_rd _ _ _ _ _ _ Hv). destruct (Z.eqb_spec v 0) as [->|]; wp_step; [|done].
    split_and!; [done|by apply Hh0|done|done].
  - split_and!; [done|done|done|by intros ->%Hh0|done].
Qed.

(** The walk along one name: it ends, and finds nothing but the rest of the
    domain. *)
Lemma wp_dn_find_label dn cp k ls dls st E fuel :
  name_at buf eom k cp dls -> Forall plain dls ->
  0 <= dn -> zdrop dn domain = wire ls ++ tail -> ls <> [] -> Forall plain ls ->
  zlen domain - dn + Z.max 0 (eom - k) < Z.of_nat fuel -> dn <= zlen domain ->
  wp (loop fuel (dn_find_label domain buf 0) (dn, cp)) st
     (fun r st' => st' = st /\ (r = true -> same_name ls dls)) E.
Proof.
  intros Hn. revert dn ls fuel.
  induction Hn as [k cp H0|k cp n l dls Hl Hlt Hn IH|k cp n c dls Hz Hn' Hlt Hc Ht Hk Hn IH];
    intros dn ls fuel Hdls Hdn Hd Hne Hls Hf Hdl;
    (destruct fuel as [|fuel]; [lia|]); apply wp_loop_S; unfold dn_find_label.
  - wp_step. apply (wp_rd _ _ _ _ _ _ H0). cbn. by wp_step.
  - destruct ls as [|x ls]; [done|]. apply Forall_cons in Hls as [(w & -> & Hw & Hwn) Hls].
    apply Forall_cons in Hdls as [(w' & Hw' & _ & Hwn') Hdls]. injection Hw' as Hnw Hw'.
    assert (l = n) as -> by (inversion Hl; lia). destruct (label_at_znth _ _ _ _ Hl) as [Hz Hn0].
    pose proof (znth_Some _ _ _ Hz). rewrite wire_cons, <- app_assoc in Hd.
    eapply wp_conseq.
    { apply (wp_dn_find_label_step dn cp n w ls); try done; lia. }
    intros [[dn' cp']|[]] st' [-> Hr]; [| |done].
    + destruct Hr as (-> & -> & Hne' & Hsame).
      assert (Hd' : zdrop (dn + 1 + zlen w) domain = wire ls ++ tail).
      { replace (dn + 1 + zlen w) with (dn + zlen (zlen w :: w)) by (rewrite zlen_cons; lia).
        pose proof (zlen_nonneg (zlen w :: w)). rewrite <- zdrop_zdrop, Hd by lia. apply zdrop_app. }
      assert (Hlen : zlen (zdrop dn domain) = zlen domain - dn) by (apply zlen_zdrop; lia).
      rewrite Hd, zlen_app, zlen_cons in Hlen. pose proof (zlen_nonneg (wire ls ++ tail)).
      eapply wp_conseq; [apply (IH _ ls); try done; lia|].
      intros r st' [-> Hr]. split; [done|]. intros ->. constructor; [done|by apply Hr].
    + destruct Hr as (-> & Hz' & Hsame). split; [done|]. intros _.
      rewrite (name_at_0 _ _ _ _ _ Hz' Hn). by repeat constructor.
  - assert (Hbn : is_byte n) by (by eapply bytes_znth).
    assert (Hbc : is_byte c) by (by eapply bytes_znth).
    wp_step. apply (wp_rd _ _ _ _ _ _ Hz). rewrite (proj2 (Z.eqb_neq n 0)) by lia. cbv zeta.
    rewrite is_byte_64, is_byte_192 by done.
    rewrite (proj2 (Z.ltb_ge n 64)), (proj2 (Z.leb_le 192 n)) by lia.
    wp_step. apply (wp_rd _ _ _ _ _ _ Hc). wp_step.
    assert (Hcm : Z.land c 0xff = c).
    { change 0xff with (Z.ones 8). rewrite Z.land_ones, Z.mod_small by (unfold is_byte in *; lia). done. }
    rewrite <- Hcm, ptr_target_eq, Z.add_0_l by done. apply IH; try done. lia.
Qed.

(** Where the search may start: at a name of plain labels. *)
Definition found (ls : list (list Z)) (off : Z) : Prop :=
  0 <= off < 0x4000 /\ off < eom /\ exists dls, name_at buf eom 0 off dls /\ Forall plain dls /\ same_name ls dls.

Lemma wp_dn_find_suffix fuel fuel' domp ls st E sp k dls :
  name_at buf eom k sp dls -> Forall plain dls -> 0 <= k -> sp < eom ->
  0 <= domp <= zlen domain -> zdrop domp domain = wire ls ++ tail -> ls <> [] -> Forall plain ls ->
  zlen domain + eom < Z.of_nat fuel -> eom - sp < Z.of_nat fuel' ->
  wp (loop fuel' (dn_find_suffix fuel domain buf 0 domp) sp) st
     (fun r st' => st' = st /\ forall off, r = Some off -> found ls off) E.
Proof.
  intros Hn Hdls Hk Hsp Hdomp Hd Hne Hls Hf Hf'.
  apply (wp_loop (fun sp st' => st' = st /\ sp < eom /\ exists k dls, 0 <= k /\ name_at buf eom k sp dls /\ Forall plain dls)
                 (fun sp _ => Z.to_nat (eom - sp))); [by eauto 10|lia|].
  clear k sp dls Hn Hdls Hk Hsp Hf'. intros sp st0 (-> & Hsp & k & dls & Hk & Hn & Hdls).
  pose proof (name_at_in _ _ _ _ _ Hn) as Hin. unfold dn_find_suffix.
  wp_step. apply wp_rd_lt; [lia|]. intros b0 Hz. assert (Hbb : is_byte b0) by (by eapply bytes_znth).
  rewrite is_byte_64 by done. unfold is_byte in Hbb. rewrite Z.sub_0_r.
  destruct (Z.eqb_spec b0 0) as [|Hb0]; cbn [andb negb]; [by wp_step|].
  destruct (Z.ltb_spec b0 64) as [Hb64|]; cbn [andb]; [|by wp_step].
  destruct (Z.ltb_spec sp 0x4000) as [Hs4|]; [|by wp_step].
  wp_step. eapply wp_conseq.
  { apply (wp_dn_find_label domp sp k ls dls); try done; try lia. }
  intros [] st1 [-> Hr].
  - wp_step. split; [done|]. intros off [= <-]. rewrite ?Z.sub_0_r. split; [lia|]. split; [lia|].
    exists dls. split; [by eapply name_at_weaken; [exact Hn|lia|lia]|]. auto.
  - wp_step. destruct Hn as [|k sp n l dls Hl Hlt Hn|k sp n c dls Hz']; [by simplify_eq| |simplify_eq; lia].
    destruct (label_at_znth _ _ _ _ Hl) as [Hz' _]. simplify_eq. apply Forall_cons in Hdls as [_ Hdls].
    assert (l = b0) as -> by (inversion Hl; lia). replace (sp + (b0 + 1)) with (sp + 1 + b0) by lia.
    split; [|lia]. split; [done|]. split; [lia|]. exists (k + (b0 + 1)), dls. split; [lia|done].
Qed.

(** A saved pointer: the start of a name of plain labels in what is written. *)
Definition saved (p : Z) : Prop := p < eom /\ exists ls, name_at buf eom 0 p ls /\ Forall plain ls.

Lemma wp_dn_find fuel domp ls ps st :
  Forall saved ps -> 0 <= domp <= zlen domain -> zdrop domp domain = wire ls ++ tail -> ls <> [] -> Forall plain ls ->
  zlen domain + zlen buf < Z.of_nat fuel ->
  wp (dn_find fuel domain domp buf 0 (map Some ps)) st
     (fun off st' => st' = st /\ ps <> [] /\ found ls off) (fun e st' => st' = st /\ e = ENOENT).
Proof.
  intros Hps Hdomp Hd Hne Hls Hf. induction Hps as [|p ps (Hp & dls & Hn & Hdls) _ IH]; cbn [map dn_find]; [by wp_step|].
  pose proof (name_at_in _ _ _ _ _ Hn). pose proof (zlen_nonneg domain). wp_step. eapply wp_conseq.
  { apply (wp_dn_find_suffix fuel fuel domp ls st _ p 0 dls); try done; lia. }
  intros [off|] st' [-> Hr]; [wp_step; eauto|].
  eapply wp_conseq; [exact IH|]. intros off st' (-> & _ & Hfd). eauto.
Qed.
End find.

(** Only the octets below [eom] matter for what is saved and found. *)
Section agree.
Context (b b' : list Z) (eom : Z).
Context (Hb : bytes b) (He : eom <= zlen b) (He' : eom <= zlen b') (Ha : ztake eom b = ztake eom b').

Lemma saved_agree p : saved b eom p -> saved b' eom p.
Proof. intros (Hp & ls & Hn & Hls). split; [done|]. exists ls. split; [by eapply name_at_agree|done]. Qed.

Lemma found_agree ls off : found b eom ls off -> found b' eom ls off.
Proof.
  intros (Ho & Hoe & dls & Hn & Hls & Hs). split; [done|]. split; [done|]. exists dls.
  split; [by eapply name_at_agree|done].
Qed.
End agree.

Lemma saved_weaken b eom eom' p : eom <= eom' -> saved b eom p -> saved b eom' p.
Proof.
  intros He (Hp & ls & Hn & Hls). split; [lia|]. exists ls. split; [|done]. eapply name_at_weaken; [done|lia|lia].
Qed.

(** ** Checking the name to be added *)

Lemma wp_labellen_0 {St} b p (st : St) Q E : znth b p = Some 0 -> Q 0 st -> wp (labellen b p) st Q E.
Proof. intros Hz HQ. unfold labellen. wp_step. apply (wp_rd _ _ _ _ _ _ Hz). cbn. by wp_step. Qed.

(** The length of a label of the source, the root's included. *)
Lemma wp_labellen_plain {St} b p (l : list Z) t (st : St) Q E :
  0 <= p -> zdrop p b = zlen l :: t -> zlen l < 64 -> Q (zlen l) st -> wp (labellen b p) st Q E.
Proof.
  intros Hp Hd Hl HQ. pose proof (zlen_nonneg l). assert (Hby : is_byte (zlen l)) by (unfold is_byte; lia).
  assert (Hz : znth b p = Some (zlen l)) by (rewrite <- (Z.add_0_r p), <- znth_zdrop, Hd by lia; done).
  unfold labellen. wp_step. apply (wp_rd _ _ _ _ _ _ Hz). rewrite is_byte_192, is_byte_elt by done.
  rewrite (proj2 (Z.leb_gt 192 _)), (proj2 (Z.leb_gt 64 _)) by lia. by wp_step.
Qed.

(** The label at the head of a name, the root being the empty one. *)
Definition head_label (ls : list (list Z)) : list Z := match ls with [] => [] | x :: _ => tl x end.

Lemma wire_split ls : Forall plain ls ->
  wire ls = zlen (head_label ls) :: head_label ls ++ match ls with [] => [] | _ :: ls' => wire ls' end /\
  zlen (head_label ls) < 64 /\ (zlen (head_label ls) = 0 <-> ls = []).
Proof.
  destruct 1 as [|x ls (l & -> & _ & Hn) _]; [done|]. cbn [head_label tl].
  rewrite wire_cons. split; [done|]. split; [lia|]. split; [lia|done].
Qed.

Section pack.
Context (src : list Z) (tail : list Z).

Lemma src_head ls srcp : Forall plain ls -> 0 <= srcp -> zdrop srcp src = wire ls ++ tail ->
  znth src srcp = Some (zlen (head_label ls)) /\
  srcp + 1 + zlen (head_label ls) <= zlen src /\
  ztake (1 + zlen (head_label ls)) (zdrop srcp src) = zlen (head_label ls) :: head_label ls /\
  (ls <> [] -> zdrop (srcp + 1 + zlen (head_label ls)) src = wire (List.tl ls) ++ tail).
Proof.
  intros Hls Hp Hd. destruct (wire_split ls Hls) as (Hw & _ & _).
  rewrite Hw in Hd. cbn [app] in Hd. rewrite <- app_assoc in Hd.
  assert (Hz : znth src srcp = Some (zlen (head_label ls))).
  { rewrite <- (Z.add_0_r srcp), <- znth_zdrop, Hd by lia. done. }
  pose proof (znth_Some _ _ _ Hz). pose proof (zlen_nonneg (head_label ls)).
  assert (Hl : zlen (zdrop srcp src) = zlen src - srcp) by (apply zlen_zdrop; lia).
  rewrite Hd, zlen_cons, zlen_app in Hl. pose proof (zlen_nonneg (match ls with [] => [] | _ :: ls' => wire ls' end ++ tail)).
  split_and!; [done|lia| |].
  - rewrite Hd. apply (ztake_app_alt (zlen (head_label ls) :: head_label ls)). rewrite zlen_cons. lia.
  - intros Hne. destruct ls as [|x ls]; [done|]. replace (srcp + 1 + zlen (head_label (x :: ls))) with
      (srcp + (1 + zlen (head_label (x :: ls)))) by lia. rewrite <- zdrop_zdrop, Hd by lia.
    apply (zdrop_app_alt (zlen (head_label (x :: ls)) :: head_label (x :: ls))). rewrite zlen_cons. lia.
Qed.

Lemma zlen_wire_split ls : Forall plain ls ->
  zlen (wire ls) = 1 + zlen (head_label ls) + match ls with [] => 0 | _ :: ls' => zlen (wire ls') end.
Proof.
  intros Hls. destruct (wire_split ls Hls) as (-> & _ & _). rewrite zlen_cons, zlen_app.
  destruct ls; [done|lia].
Qed.

Lemma head_small ls : Forall plain ls -> is_byte (zlen (head_label ls)) /\ zlen (head_label ls) < 64.
Proof.
  intros Hls. destruct (wire_split ls Hls) as (_ & ? & _). pose proof (zlen_nonneg (head_label ls)).
  unfold is_byte. lia.
Qed.

(** The source is refused exactly when it is too long. *)
Lemma wp_pack_check {St} ls srcp l fuel (st : St) :
  Forall plain ls -> 0 <= srcp -> zdrop srcp src = wire ls ++ tail -> zlen (wire ls) <= Z.of_nat fuel ->
  wp (loop fuel (pack_check src) (srcp, l)) st
     (fun _ st' => st' = st /\ l + zlen (wire ls) <= NS_MAXCDNAME)
     (fun e st' => st' = st /\ e = EMSGSIZE /\ NS_MAXCDNAME < l + zlen (wire ls)).
Proof.
  intros Hls. revert srcp l fuel. induction Hls as [|x ls Hx Hls IH]; intros srcp l fuel Hp Hd Hf.
  all: destruct fuel as [|fuel];
    [match type of Hf with zlen (wire ?ls) <= _ => pose proof (zlen_wire_pos ls) end; lia|].
  all: apply wp_loop_S; unfold pack_check.
  - assert (Hz : znth src srcp = Some 0) by (rewrite <- (Z.add_0_r srcp), <- znth_zdrop, Hd by lia; done).
    wp_step. apply (wp_rd _ _ _ _ _ _ Hz). wp_step. wp_step; [done|]. wp_step. apply wp_labellen_0; [done|].
    wp_step. wp_step; [done|]. wp_step. change (zlen (wire [])) with 1. wp_step.
    + split_and!; [done|done|lia].
    + wp_step. cbn [Z.eqb negb]. wp_step. split; [done|lia].
  - assert (Hxl : Forall plain (x :: ls)) by (by constructor).
    destruct (src_head (x :: ls) srcp Hxl Hp Hd) as (Hz & Hin & _ & Hnext).
    destruct (head_small _ Hxl) as [Hby H64]. destruct (wire_split _ Hxl) as (Hw & _ & H0).
    rewrite zlen_wire_split in Hf |- * by done. pose proof (zlen_nonneg (head_label (x :: ls))). pose proof (zlen_wire_pos ls).
    wp_step. apply (wp_rd _ _ _ _ _ _ Hz). rewrite is_byte_192, (proj2 (Z.leb_gt 192 _)) by (done || lia).
    wp_step. wp_step; [done|]. wp_step. eapply wp_labellen_plain; [done| |done|].
    { rewrite Hd, Hw. cbn [app]. reflexivity. }
    wp_step. wp_step; [lia|]. cbv zeta. wp_step. wp_step.
    { split_and!; [done|done|lia]. }
    rewrite (proj2 (Z.eqb_neq _ _)) by (intros ?%H0; done). cbn [negb]. wp_step.
    eapply wp_mono; [apply (IH (srcp + (zlen (head_label (x :: ls)) + 1)) (l + (zlen (head_label (x :: ls)) + 1)))| |].
    + lia.
    + rewrite Z.add_assoc, (Z.add_shuffle0 srcp). by apply Hnext.
    + lia.
    + intros _ st' [-> ?]. split; [done|lia].
    + intros e st' (-> & -> & ?). split_and!; [done|done|lia].
Qed.
End pack.

(** ** Copying the labels *)

(** The list of saved pointers: [ps] before the call, [ps'] added by it. *)
Definition ptrs_ok (msg : option Z) (ps ps' : list Z) (d0 d : list (option Z)) : Prop :=
  match msg with
  | None => d = d0 /\ ps' = []
  | Some m => m = 0 /\ zlen d = zlen d0 /\ exists free, d = Some 0 :: map Some (ps ++ ps') ++ None :: free
  end.

Lemma znth_ptrs_end ps free : znth (Some 0 :: map Some ps ++ None :: free) (zlen ps + 1) = Some None.
Proof.
  pose proof (zlen_nonneg ps). rewrite znth_cons_S, Z.add_simpl_r by lia.
  rewrite <- (zlen_map (@Some Z) ps). apply znth_middle.
Qed.

Lemma zupd_cons {A} (x : A) l i v : 0 <= i -> zupd (x :: l) (i + 1) v = x :: zupd l i v.
Proof.
  intros Hi. unfold zupd. rewrite (proj2 (Z.ltb_ge _ _)), (proj2 (Z.ltb_ge _ _)) by lia.
  replace (Z.to_nat (i + 1)) with (Datatypes.S (Z.to_nat i)) by lia. done.
Qed.

(** [lpp] is where the list ended: NULL is stored there on errors. *)
Lemma ptrs_reset ps ps' d0 d : ptrs_ok (Some 0) ps ps' d0 d ->
  zlen ps + 1 < zlen d /\ ptrs_ok (Some 0) ps [] d0 (zupd d (zlen ps + 1) None).
Proof.
  intros (_ & Hl & free & ->). pose proof (zlen_nonneg ps). pose proof (zlen_nonneg ps'). pose proof (zlen_nonneg free).
  rewrite zlen_cons, zlen_app, zlen_map, zlen_app, zlen_cons. split; [lia|]. split; [done|].
  split; [by rewrite zlen_zupd|]. rewrite zupd_cons, app_nil_r by lia.
  rewrite map_app, <- app_assoc. destruct (map Some ps' ++ None :: free) as [|o r] eqn:E.
  { by destruct ps'. }
  exists r. rewrite <- (zlen_map (@Some Z) ps), zupd_middle. done.
Qed.

Lemma ptrs_push ps d0 d p : ptrs_ok (Some 0) ps [] d0 d -> zlen ps + 2 < zlen d ->
  ptrs_ok (Some 0) ps [p] d0 (zupd (zupd d (zlen ps + 1) (Some p)) (zlen ps + 2) None).
Proof.
  intros (_ & Hl & free & ->). pose proof (zlen_nonneg ps). rewrite app_nil_r in *.
  rewrite zlen_cons, zlen_app, zlen_map, zlen_cons in *. intros Hf.
  split; [done|]. split; [by rewrite !zlen_zupd, zlen_cons, zlen_app, zlen_map, zlen_cons|].
  destruct free as [|o free]; [change (zlen (@nil (option Z))) with 0 in Hf; lia|]. exists free.
  replace (zlen ps + 2) with (zlen ps + 1 + 1) by lia. rewrite !zupd_cons by lia.
  assert (Hz : zlen ps = zlen (map Some ps)) by (by rewrite zlen_map). rewrite Hz, zupd_middle.
  replace (zlen (map Some ps) + 1) with (zlen (map Some ps ++ [Some p])) by (by rewrite zlen_app).
  replace (map Some ps ++ Some p :: o :: free) with ((map Some ps ++ [Some p]) ++ o :: free) by (by rewrite <- app_assoc).
  by rewrite zupd_middle, map_app.
Qed.

Section copy.
Context (src tail : list Z) (ls : list (list Z)) (b0 : list Z) (dst dstsiz : Z).
Context (Hd0 : src = wire ls ++ tail) (Hls : Forall plain ls).
Context (Hb0 : bytes b0) (Hdst : 0 <= dst) (Hsiz : 0 <= dstsiz) (Hend : dst + dstsiz <= zlen b0).
Context (msg : option Z) (ps : list Z) (d0 : list (option Z)) (last : option Z).
Context (Hps : Forall (saved b0 dst) ps) (Hlast : msg = Some 0 -> forall l, last = Some l -> l <= zlen d0).

(** A pointer to [off], as two octets. *)
Definition ptr_octets (off : Z) : list Z := [192 + off / 256; off mod 256].

(** The state in the loop, [pre] being the labels copied. *)
Definition copied (pre : list (list Z)) (ps' : list Z) (p : packing) : Prop :=
  pk_buf p = splice b0 dst (concat pre) /\ zlen (concat pre) <= dstsiz /\
  ptrs_ok msg ps ps' d0 (pk_dnptrs p) /\ (ps' = [] \/ ps' = [dst] /\ dst < 0x4000).

(** The list is full, or the offset of the name does not fit a pointer. *)
Definition no_room : Prop := forall m, last = Some m -> m - 1 <= zlen ps + 1 \/ 0x4000 <= dst.

Definition copy_inv (pre rest : list (list Z)) (l : pack_locals) (p : packing) : Prop :=
  exists ps', copied pre ps' p /\ ls = pre ++ rest /\
    pl_srcp l = zlen (concat pre) /\ pl_dstp l = dst + zlen (concat pre) /\
    (pl_first l = true -> ps' = [] /\
       (msg = None \/ pl_cpp l = zlen ps + 1 /\ (pre = [] \/ no_room))).

Definition copy_post (e : pack_exit) (p : packing) : Prop :=
  exists ps' w, pk_buf p = splice b0 dst w /\ ptrs_ok msg ps ps' d0 (pk_dnptrs p) /\
    (ps' = [] \/ ps' = [dst] /\ dst < 0x4000) /\ zlen w <= dstsiz /\
    match e with
    | Packed q => q = dst + zlen w /\ msg = Some 0 /\ ps <> [] /\
        exists pre rest off, ls = pre ++ rest /\ rest <> [] /\ w = concat pre ++ ptr_octets off /\ found b0 dst rest off
    | AtRoot q => q = dst + zlen w /\ zlen w < dstsiz /\ w = wire ls
    | Cleanup => dstsiz <= zlen (wire ls)
    end.

Lemma concat_split pre rest : ls = pre ++ rest -> Forall plain pre /\ Forall plain rest /\
  zdrop (zlen (concat pre)) src = wire rest ++ tail /\ zlen (wire ls) = zlen (concat pre) + zlen (wire rest) /\
  zlen (concat pre) + zlen (wire rest) <= zlen src.
Proof.
  intros E. rewrite E in Hls. apply Forall_app in Hls as [H1 H2].
  assert (Hw : wire ls = concat pre ++ wire rest) by (rewrite E; unfold wire; by rewrite concat_app, <- app_assoc).
  split; [done|]. split; [done|]. split; [|split].
  - rewrite Hd0, Hw, <- app_assoc. apply zdrop_app.
  - by rewrite Hw, zlen_app.
  - rewrite Hd0, Hw, !zlen_app. pose proof (zlen_nonneg tail). lia.
Qed.

Lemma copied_agree pre : zlen (concat pre) <= dstsiz ->
  dst <= zlen b0 /\ dst <= zlen (splice b0 dst (concat pre)) /\
  ztake dst b0 = ztake dst (splice b0 dst (concat pre)).
Proof.
  intros Hl. pose proof (zlen_nonneg (concat pre)). split; [lia|]. split; [rewrite zlen_splice; lia|].
  unfold splice. symmetry. apply ztake_app_alt. rewrite zlen_ztake; lia.
Qed.

Lemma copied_bytes pre : Forall plain pre -> bytes (splice b0 dst (concat pre)).
Proof.
  intros Hp. unfold splice. apply Forall_app. split; [by apply Forall_take|]. apply Forall_app.
  split; [|by apply Forall_drop]. pose proof (plain_wire_bytes pre Hp) as Hw. unfold wire in Hw.
  by apply Forall_app in Hw as [? _].
Qed.

(** The search of the list for what is left of the name. *)
Lemma wp_pack_search fuel pre rest ps' p srcp :
  copied pre ps' p -> ls = pre ++ rest -> srcp = zlen (concat pre) ->
  zlen src + zlen b0 < Z.of_nat fuel ->
  wp (pack_search fuel src msg (zlen ps + 1) (zlen (head_label rest)) srcp) p
     (fun r p' => p' = p /\
        match r with
        | Some (Some off) => msg = Some 0 /\ ps <> [] /\ rest <> [] /\ found b0 dst rest off
        | Some None => msg = Some 0
        | None => rest = [] \/ msg = None
        end) (fun _ _ => False).
Proof.
  intros (Hbuf & Hlen & Hp & _) E -> Hf. destruct (concat_split _ _ E) as (Hpre & Hrest & Hd & Hlw & Hin).
  pose proof (zlen_nonneg (concat pre)). pose proof (zlen_wire_pos rest).
  unfold pack_search. destruct msg as [m|]; [|wp_step; auto]. destruct Hp as (-> & Hdl & free & Hdn).
  destruct (wire_split _ Hrest) as (_ & _ & Hroot).
  destruct (Z.eqb_spec (zlen (head_label rest)) 0) as [Hz|Hz]; cbn [negb]; [wp_step; split; [done|left; by apply Hroot]|].
  wp_step. wp_step. wp_step. wp_step.
  destruct (copied_agree pre Hlen) as (He & He' & Ha).
  assert (Hpt : ztake (zlen ps + 1 - 1) (zdrop 1 (pk_dnptrs p)) = map Some ps).
  { rewrite Hdn. change (zdrop 1 (Some 0 :: ?l)) with l.
    rewrite Z.add_simpl_r, map_app, <- app_assoc. apply ztake_app_alt. by rewrite zlen_map. }
  rewrite Hpt, Hbuf. eapply wp_mono.
  { eapply (wp_dn_find src (splice b0 dst (concat pre)) dst tail); try done.
    - by apply copied_bytes.
    - eapply Forall_impl; [exact Hps|]. intros q. by apply saved_agree.
    - lia.
    - intros ->. by apply Hz, Hroot.
    - rewrite zlen_splice; lia. }
  - intros off p' (-> & Hne & Hfd). wp_step. split; [done|]. split; [done|]. split; [done|]. split; [intros ->; by apply Hz, Hroot|].
    eapply (found_agree (splice b0 dst (concat pre))); [by apply copied_bytes|exact He'|exact He|done|exact Hfd].
  - intros e p' [-> _]. wp_step. done.
Qed.

(** The first two octets written for a pointer. *)
Lemma ptr_octet off : 0 <= off < 0x4000 -> u8 (Z.lor (Z.shiftr off 8) NS_CMPRSFLGS) = 192 + off / 256.
Proof.
  intros Ho. rewrite Z.shiftr_div_pow2 by lia. change (2 ^ 8) with 256.
  assert (Hq : 0 <= off / 256 < 64) by (Z.div_mod_to_equations; lia).
  rewrite Z.lor_comm. change NS_CMPRSFLGS with (3 * 2 ^ 6). rewrite lor_add by (lia || (change (2 ^ 6) with 64; lia)).
  unfold u8. rewrite Z.mod_small by lia. lia.
Qed.

(** The name is saved before its first label is copied, where there is room. *)
Lemma wp_pack_save pre rest srcp dstp cpp first p :
  msg = Some 0 -> copy_inv pre rest (PackLocals srcp dstp cpp first) p ->
  wp (pack_save last 0 (cpp, dstp, first)) p
     (fun '(cpp', first') p' => copy_inv pre rest (PackLocals srcp dstp cpp' first') p' /\
        (first' = false \/ no_room))
     (fun _ _ => False).
Proof.
  intros Hmsg Hinv. pose proof Hinv as (ps' & (Hbuf & Hlen & Hp & Hps') & E & Hs & Hdp & Hf). cbn in Hs, Hdp, Hf.
  pose proof (zlen_nonneg (concat pre)). pose proof (zlen_nonneg ps). unfold pack_save, no_room in *.
  destruct last as [m|]; [|wp_step; split; [done|by right]]. specialize (Hlast Hmsg m eq_refl).
  destruct first; [|rewrite andb_false_r; wp_step; split; [done|by left]]. rewrite andb_true_r, Z.sub_0_r.
  destruct (Hf eq_refl) as (-> & [Hno|[Hcpp Hpre]]); [congruence|]. rewrite Hmsg in Hp.
  destruct ((cpp <? m - 1) && (dstp <? 0x4000)) eqn:Hc.
  2: { wp_step. split; [done|]. right. intros m' [= <-].
       destruct Hpre as [->|Hpre]; [|by apply Hpre]. cbn in Hdp. change (zlen (@nil Z)) with 0 in Hdp. lia. }
  assert (pre = []) as -> by (destruct Hpre as [?|Hpre]; [done|]; specialize (Hpre _ eq_refl); lia).
  cbn [concat] in *. change (zlen (@nil Z)) with 0 in *.
  assert (Hl : zlen (pk_dnptrs p) = zlen d0) by apply Hp.
  wp_step. apply wp_zoom. wp_step. wp_step; [lia|]. wp_step; [rewrite zlen_zupd; lia|].
  wp_step. split; [|by left]. exists [dst]. cbn. split; [|done]. split; [done|]. split; [done|].
  split; [|right; split; [done|lia]]. rewrite Hmsg. cbn [pk_dnptrs].
  replace (cpp + 1) with (zlen ps + 2) by lia. rewrite Hcpp. replace dstp with dst by lia.
  apply ptrs_push; [done|lia].
Qed.

(** A compression pointer ends the name. *)
Lemma wp_pack_pointer pre rest ps' p off dstp (Q : step pack_locals pack_exit -> packing -> Prop) :
  copied pre ps' p -> ls = pre ++ rest -> rest <> [] -> dstp = dst + zlen (concat pre) -> msg = Some 0 -> ps <> [] ->
  found b0 dst rest off ->
  (forall e p', copy_post e p' -> Q (Done e) p') ->
  wp (if dst + dstsiz <=? dstp + 1 then mret (Done Cleanup)
      else on_buf (wr dstp (u8 (Z.lor (Z.shiftr off 8) NS_CMPRSFLGS));; wr (dstp + 1) (off mod 256));;
           mret (Done (Packed (dstp + 2)))) p Q (fun _ _ => False).
Proof.
  intros (Hbuf & Hlen & Hp & Hps') E Hne -> Hmsg Hpsn Hfd HQ. destruct (concat_split _ _ E) as (Hpre & Hrest & Hd & Hlw & Hin).
  pose proof (zlen_nonneg (concat pre)).
  destruct (Z.leb_spec (dst + dstsiz) (dst + zlen (concat pre) + 1)) as [Hfull|Hroom].
  - wp_step. apply HQ. exists ps', (concat pre). split; [done|]. split; [done|]. split; [done|]. split; [done|].
    destruct rest as [|x rest]; [done|]. rewrite (zlen_wire_split (x :: rest)) in Hlw by done.
    pose proof (zlen_wire_pos rest). pose proof (zlen_nonneg (head_label (x :: rest))). lia.
  - assert (Hzl : zlen (splice b0 dst (concat pre)) = zlen b0) by (apply zlen_splice; lia).
    wp_step. apply wp_zoom. rewrite Hbuf. wp_step. wp_step; [lia|]. wp_step; [rewrite zlen_zupd; lia|]. wp_step.
    apply HQ. rewrite ptr_octet by (by destruct Hfd).
    rewrite splice_snoc_alt by lia. rewrite splice_snoc_alt by (zlen_simpl; lia). rewrite <- app_assoc. cbn [app].
    exists ps', (concat pre ++ ptr_octets off). split; [done|]. split; [done|]. split; [done|].
    rewrite zlen_app. change (zlen (ptr_octets off)) with 2. split; [lia|]. split; [lia|]. split; [done|]. split; [done|]. by exists pre, rest, off.
Qed.

(** One label is copied. *)
Lemma wp_pack_copy pre rest ps' p srcp dstp (Q : step pack_locals pack_exit -> packing -> Prop) cpp first :
  copied pre ps' p -> ls = pre ++ rest -> srcp = zlen (concat pre) -> dstp = dst + zlen (concat pre) ->
  (forall e p', copy_post e p' -> Q (Done e) p') ->
  (forall x rest' p', rest = x :: rest' -> copied (pre ++ [x]) ps' p' ->
     Q (Next (PackLocals (zlen (concat (pre ++ [x]))) (dst + zlen (concat (pre ++ [x]))) cpp first)) p') ->
  wp (n' ← labellen src srcp;
      if dst + dstsiz <=? dstp + 1 + n' then mret (Done Cleanup)
      else
        on_buf (memcpy src dstp srcp (n' + 1));;
        (let srcp := srcp + (n' + 1) in
         let dstp := dstp + (n' + 1) in
         if negb (n' =? 0) then mret (Next (PackLocals srcp dstp cpp first))
         else mret (Done (AtRoot dstp)))) p Q (fun _ _ => False).
Proof.
  intros (Hbuf & Hlen & Hp & Hps') E -> -> HQ HQn. destruct (concat_split _ _ E) as (Hpre & Hrest & Hd & Hlw & Hin).
  pose proof (zlen_nonneg (concat pre)). pose proof (zlen_nonneg (head_label rest)).
  destruct (src_head src tail rest (zlen (concat pre)) Hrest ltac:(done) Hd) as (Hz & Hin' & Htk & _).
  destruct (wire_split _ Hrest) as (Hw & H64 & Hroot).
  wp_step. eapply wp_labellen_plain; [done|rewrite Hd, Hw; reflexivity|done|].
  rewrite (zlen_wire_split rest) in Hlw by done.
  destruct (Z.leb_spec (dst + dstsiz) (dst + zlen (concat pre) + 1 + zlen (head_label rest))) as [Hfull|Hroom].
  { wp_step. apply HQ. exists ps', (concat pre). split; [done|]. split; [done|]. split; [done|]. split; [done|].
    destruct rest as [|x rest]; [lia|]. pose proof (zlen_wire_pos rest). lia. }
  assert (Hzl : zlen (splice b0 dst (concat pre)) = zlen b0) by (apply zlen_splice; lia).
  wp_step. apply wp_zoom. rewrite Hbuf. rewrite (Z.add_comm _ 1).
  apply wp_memcpy; try lia. rewrite Htk, splice_app_alt by (zlen_simpl; lia). cbv zeta.
  destruct (Z.eqb_spec (zlen (head_label rest)) 0) as [Hl0|Hl0]; cbn [negb]; wp_step.
  - apply Hroot in Hl0. subst rest. apply HQ. change (head_label []) with (@nil Z). change (zlen []) with 0.
    exists ps', (concat pre ++ [0]). split; [done|]. split; [done|]. split; [done|].
    rewrite zlen_app. change (zlen [0]) with 1. change (zlen (head_label [])) with 0 in Hroom.
    split; [lia|]. split; [lia|]. split; [lia|].
    rewrite E, app_nil_r. done.
  - destruct rest as [|x rest]; [done|]. apply Forall_cons in Hrest as [(l & -> & _ & Hl) Hrest].
    cbn [head_label List.tl] in *. specialize (HQn _ _ (Packing (splice b0 dst (concat (pre ++ [zlen l :: l]))) (pk_dnptrs p)) eq_refl).
    rewrite concat_snoc, zlen_app, zlen_cons, (Z.add_comm (zlen l) 1), ?Z.add_assoc in HQn. rewrite ?Z.add_assoc. apply HQn.
    split; [by rewrite concat_snoc|]. split; [|done]. rewrite concat_snoc, zlen_app, zlen_cons. lia.
Qed.

(** The whole loop. *)
Lemma wp_pack_loop fuel fuel' pre rest l p lpp :
  copy_inv pre rest l p -> (msg = None \/ lpp = zlen ps + 1) ->
  zlen src + zlen b0 < Z.of_nat fuel -> zlen (wire rest) <= Z.of_nat fuel' ->
  wp (loop fuel' (pack_label fuel src (dst + dstsiz) msg last lpp) l) p copy_post (fun _ _ => False).
Proof.
  intros Hinv Hlpp Hf. revert pre rest l p Hinv. induction fuel' as [|fuel' IH]; intros pre rest l p Hinv Hf'.
  { pose proof (zlen_wire_pos rest). lia. }
  destruct l as [srcp dstp cpp first]. apply wp_loop_S. unfold pack_label at 1.
  pose proof Hinv as (ps' & Hcop & E & Hs & Hdp & Hfirst). cbn in Hs, Hdp, Hfirst.
  destruct (concat_split _ _ E) as (Hpre & Hrest & Hd & Hlw & Hin). pose proof (zlen_nonneg (concat pre)).
  destruct (src_head src tail rest srcp Hrest ltac:(lia) ltac:(by rewrite Hs)) as (Hz & _ & _ & _).
  destruct (head_small _ Hrest) as [Hby H64].
  assert (Hnext : forall cpp' first' p', copy_inv pre rest (PackLocals srcp dstp cpp' first') p' ->
    (first' = true -> rest = [] \/ msg = None \/ no_room) ->
    wp (n' ← labellen src srcp;
      if dst + dstsiz <=? dstp + 1 + n' then mret (Done Cleanup)
      else
        on_buf (memcpy src dstp srcp (n' + 1));;
        (let srcp := srcp + (n' + 1) in
         let dstp := dstp + (n' + 1) in
         if negb (n' =? 0) then mret (Next (PackLocals srcp dstp cpp' first'))
         else mret (Done (AtRoot dstp)))) p'
      (fun st s' => match st with
                    | Next l' => wp (loop fuel' (pack_label fuel src (dst + dstsiz) msg last lpp) l') s' copy_post (fun _ _ => False)
                    | Done r => copy_post r s'
                    end) (fun _ _ => False)).
  { intros cpp' first' p' (ps2 & Hcop2 & _ & _ & _ & Hf2) Hroom. cbn in Hf2.
    apply (wp_pack_copy pre rest ps2); try done. intros x rest' p2 -> Hcop3. apply (IH (pre ++ [x]) rest').
    - exists ps2. split; [done|]. split; [by rewrite <- app_assoc|]. cbn. split; [done|]. split; [done|].
      intros Ht. destruct (Hf2 Ht) as [-> Hm]. split; [done|].
      destruct (Hroom Ht) as [?|[?|?]]; [done|by left|]. destruct Hm as [?|[-> _]]; [by left|]. right. split; [done|by right].
    - rewrite (zlen_wire_split (x :: rest')) in Hf' by done. pose proof (zlen_nonneg (head_label (x :: rest'))). lia. }
  wp_step. apply (wp_rd _ _ _ _ _ _ Hz). wp_step.
  assert (Hsearch : wp (pack_search fuel src msg lpp (zlen (head_label rest)) srcp) p
     (fun r p' => p' = p /\
        match r with
        | Some (Some off) => msg = Some 0 /\ ps <> [] /\ rest <> [] /\ found b0 dst rest off
        | Some None => msg = Some 0
        | None => rest = [] \/ msg = None
        end) (fun _ _ => False)).
  { destruct Hlpp as [Hm| ->]; [|by eapply wp_pack_search].
    rewrite Hm. unfold pack_search. wp_step. split; [done|by right]. }
  eapply wp_conseq; [exact Hsearch|]. cbn beta. intros r p1 [-> Hr].
  rewrite is_byte_192, (proj2 (Z.leb_gt 192 _)) by (done || lia).
  destruct r as [[off|]|].
  - destruct Hr as (Hm & Hpsn & Hne & Hfd). by eapply wp_pack_pointer.
  - rewrite Hr. wp_step. eapply wp_conseq; [apply (wp_pack_save pre rest); [done|exact Hinv]|].
    intros [cpp' first'] p' [Hinv' Hroom]. rewrite <- Hr. apply Hnext; [done|].
    intros ->. right; right. by destruct Hroom.
  - wp_step. wp_step. apply Hnext; [done|]. intros _. tauto.
Qed.

(** ** What the octets written spell *)

(** The name [ls] up to case is at [dst], in [r] octets. *)
Definition spelled (b : list Z) (r : Z) : Prop :=
  exists ls', same_name ls ls' /\ Forall plain ls' /\ name_at b (dst + r) 0 dst ls' /\ span_at b dst (dst + r).

Lemma spelled_literal : zlen (wire ls) <= dstsiz -> spelled (splice b0 dst (wire ls)) (zlen (wire ls)).
Proof.
  intros Hl. pose proof (zlen_nonneg (concat ls)). rewrite zlen_wire in *.
  assert (Hd : zdrop dst (splice b0 dst (wire ls)) = concat ls ++ [0] ++ zdrop (dst + zlen (wire ls)) b0).
  { unfold splice. rewrite zdrop_app_alt by (rewrite zlen_ztake; lia). unfold wire at 1. by rewrite <- app_assoc. }
  assert (Hz : znth (splice b0 dst (wire ls)) (dst + zlen (concat ls)) = Some 0).
  { rewrite znth_splice_new by (rewrite ?zlen_wire; lia). apply (znth_middle _ 0 []). }
  exists ls. split; [reflexivity|]. split; [done|]. split.
  - rewrite <- (app_nil_r ls) at 3. eapply name_at_labels; [done|exact Hd|done|lia|by constructor].
  - eapply span_at_labels; [done|exact Hd|done|]. rewrite Z.add_assoc. by constructor.
Qed.

Lemma spelled_pointer pre rest off :
  ls = pre ++ rest -> zlen (concat pre ++ ptr_octets off) <= dstsiz -> found b0 dst rest off ->
  spelled (splice b0 dst (concat pre ++ ptr_octets off)) (zlen (concat pre ++ ptr_octets off)).
Proof.
  intros E Hl (Ho & Hod & dls & Hn & Hdls & Hsame). destruct (concat_split _ _ E) as (Hpre & _).
  rewrite zlen_app in *. change (zlen (ptr_octets off)) with 2 in *. pose proof (zlen_nonneg (concat pre)).
  set (w := concat pre ++ ptr_octets off). assert (Hw : zlen w = zlen (concat pre) + 2) by (unfold w; by rewrite zlen_app).
  assert (Hd : zdrop dst (splice b0 dst w) = concat pre ++ ptr_octets off ++ zdrop (dst + zlen w) b0).
  { unfold splice. rewrite zdrop_app_alt by (rewrite zlen_ztake; lia). unfold w at 1. by rewrite <- app_assoc. }
  assert (Hq : 0 <= off / 256 < 64) by (Z.div_mod_to_equations; lia).
  assert (H1 : znth (splice b0 dst w) (dst + zlen (concat pre)) = Some (192 + off / 256)).
  { rewrite znth_splice_new by lia. apply znth_middle. }
  assert (H2 : znth (splice b0 dst w) (dst + zlen (concat pre) + 1) = Some (off mod 256)).
  { rewrite <- Z.add_assoc, znth_splice_new by lia. unfold w. rewrite znth_app_r, Z.add_simpl_l by lia. done. }
  assert (Ht : ptr_target (192 + off / 256) (off mod 256) = off) by (unfold ptr_target; Z.div_mod_to_equations; lia).
  exists (pre ++ dls). split; [|split; [|split]].
  - rewrite E. apply Forall2_app; [reflexivity|done].
  - by apply Forall_app.
  - eapply name_at_labels; [done|exact Hd|done|lia|].
    eapply name_ptr; [exact H1|lia|lia|exact H2|lia|lia|]. rewrite Ht.
    assert (Ha : ztake dst b0 = ztake dst (splice b0 dst w)).
    { unfold splice. symmetry. apply ztake_app_alt. rewrite zlen_ztake; lia. }
    apply (name_at_weaken _ dst 0); [|lia|lia].
    eapply (name_at_agree b0); [done|lia|rewrite zlen_splice; lia|exact Ha|done|exact Hn].
  - eapply span_at_labels; [done|exact Hd|done|]. rewrite Z.add_assoc. eapply span_ptr; [exact H1|lia].
Qed.

(** What is saved stays saved, and a name written at a low offset may be saved. *)
Lemma saved_after w ps' r :
  zlen w = r -> 0 < r <= dstsiz -> spelled (splice b0 dst w) r -> ps' = [] \/ ps' = [dst] ->
  Forall (saved (splice b0 dst w) (dst + r)) (ps ++ ps').
Proof.
  intros Hw Hr (ls' & _ & Hls' & Hn & _) Hps'. apply Forall_app. split.
  - eapply Forall_impl; [exact Hps|]. intros p Hp. apply (saved_weaken _ dst); [lia|].
    eapply saved_agree; [exact Hb0|lia|rewrite zlen_splice; lia| |exact Hp].
    unfold splice. symmetry. apply ztake_app_alt. rewrite zlen_ztake; lia.
  - destruct Hps' as [->| ->]; [done|]. repeat constructor; [lia|]. by exists ls'.
Qed.

(** ** The whole function *)

Lemma wp_end_of_list {St} (st : St) E : ptrs_ok (Some 0) ps [] d0 d0 ->
  wp (loop (Datatypes.S (length d0)) (end_of_list d0) 1) st (fun r st' => r = zlen ps + 1 /\ st' = st) E.
Proof.
  intros (_ & _ & free & Hd). rewrite app_nil_r in Hd. pose proof (zlen_nonneg ps). pose proof (zlen_nonneg free).
  assert (Hl : zlen d0 = zlen ps + 2 + zlen free)
    by (rewrite Hd, zlen_cons, zlen_app, zlen_map, zlen_cons; lia).
  apply (wp_loop (fun c st' => st' = st /\ 1 <= c <= zlen ps + 1) (fun c _ => Z.to_nat (zlen ps + 1 - c)));
    [split; [done|lia]|unfold zlen in *; lia|].
  intros c st' [-> Hc]. unfold end_of_list. wp_step.
  destruct (Z.eq_dec c (zlen ps + 1)) as [->|Hne].
  - eapply wp_rd; [rewrite Hd; apply znth_ptrs_end|]. by wp_step.
  - destruct (znth_lt ps (c - 1)) as [q Hq]; [lia|]. apply (wp_rd _ _ _ _ _ (Some q)).
    + rewrite Hd, znth_cons_S, znth_app_l by (rewrite ?zlen_map; lia).
      unfold znth in *. destruct (Z.ltb_spec (c - 1) 0); [done|]. by rewrite list_lookup_fmap, Hq.
    + wp_step. split; [split; [done|lia]|lia].
Qed.

Definition pack_ok (r : Z) (p : packing) : Prop :=
  exists ps' w, pk_buf p = splice b0 dst w /\ zlen w = r /\ 0 < r <= dstsiz /\ r <= zlen (wire ls) /\
    spelled (pk_buf p) r /\ ptrs_ok msg ps ps' d0 (pk_dnptrs p) /\ (ps' = [] \/ ps' = [dst] /\ dst < 0x4000) /\
    Forall (saved (pk_buf p) (dst + r)) (ps ++ ps') /\ bytes (pk_buf p) /\ (msg = None \/ ps = [] -> w = wire ls /\ r < dstsiz).

Definition pack_err (e : Z) (p : packing) : Prop :=
  e = EMSGSIZE /\ exists w, pk_buf p = splice b0 dst w /\ zlen w <= dstsiz /\ ptrs_ok msg ps [] d0 (pk_dnptrs p) /\
    (NS_MAXCDNAME < zlen (wire ls) \/ dstsiz <= zlen (wire ls)).

Lemma pack_ok_literal p ps' :
  pk_buf p = splice b0 dst (wire ls) -> ptrs_ok msg ps ps' d0 (pk_dnptrs p) ->
  ps' = [] \/ ps' = [dst] /\ dst < 0x4000 -> zlen (wire ls) < dstsiz -> pack_ok (zlen (wire ls)) p.
Proof.
  intros Hb Hp Hps' Hl. pose proof (zlen_wire_pos ls). pose proof (spelled_literal ltac:(lia)) as Hs.
  exists ps', (wire ls). rewrite Hb. do 2 (split; [done|]). do 2 (split; [lia|]). do 3 (split; [done|]).
  split; [eapply saved_after; [done|lia|done|tauto]|]. split; [|done].
  by apply bytes_splice, plain_wire_bytes.
Qed.

Lemma pack_ok_pointer p ps' pre rest off :
  pk_buf p = splice b0 dst (concat pre ++ ptr_octets off) -> ptrs_ok msg ps ps' d0 (pk_dnptrs p) ->
  ps' = [] \/ ps' = [dst] /\ dst < 0x4000 -> zlen (concat pre ++ ptr_octets off) <= dstsiz ->
  ls = pre ++ rest -> rest <> [] -> found b0 dst rest off -> msg = Some 0 -> ps <> [] -> pack_ok (zlen (concat pre ++ ptr_octets off)) p.
Proof.
  intros Hb Hp Hps' Hl E Hne Hfd Hmsg Hpsn. pose proof (spelled_pointer _ _ _ E Hl Hfd) as Hs.
  destruct (concat_split _ _ E) as (_ & Hrest & _ & Hlw & _). pose proof (zlen_nonneg (concat pre)).
  assert (3 <= zlen (wire rest)).
  { destruct Hrest as [|x rest (l & -> & _ & Hx) _]; [done|]. rewrite wire_cons, zlen_app, zlen_cons.
    pose proof (zlen_wire_pos rest). lia. }
  exists ps', (concat pre ++ ptr_octets off). rewrite Hb. split; [done|]. split; [done|].
  pose proof Hl as Hl'. rewrite zlen_app in Hl'. rewrite (zlen_app (concat pre)) at 1 2 3. change (zlen (ptr_octets off)) with 2 in *.
  split; [lia|]. split; [lia|]. do 3 (split; [done|]). split; [|split; [|rewrite Hmsg; by intros [?|?]]].
  2: { apply bytes_splice; [done|]. destruct Hfd as (Ho & _). apply Forall_app. split.
       - destruct (concat_split _ _ E) as (Hpre & _). pose proof (plain_wire_bytes pre Hpre) as Hw.
         unfold wire in Hw. by apply Forall_app in Hw as [? _].
       - repeat constructor; unfold is_byte; Z.div_mod_to_equations; lia. }
  eapply saved_after; [done|rewrite zlen_app; change (zlen (ptr_octets off)) with 2; lia|done|tauto].
Qed.

Lemma wp_pack use_ptrs :
  (if use_ptrs : bool then znth d0 0 else Some None) = Some msg -> ptrs_ok msg ps [] d0 d0 ->
  wp (ns_name_pack src dst dstsiz use_ptrs last) (Packing b0 d0) pack_ok pack_err.
Proof.
  intros Hmsg Hp0. unfold ns_name_pack. cbv zeta. wp_step. wp_step. cbn [pk_buf pk_dnptrs].
  wp_step. eapply wp_conseq with (Q := fun a s' => a = msg /\ s' = Packing b0 d0).
  { destruct use_ptrs; [by apply (wp_rd _ _ _ _ _ msg)|wp_step; split; [congruence|done]]. }
  intros ? ? [-> ->]. wp_step.
  eapply wp_conseq with (Q := fun lpp s' => (msg = None \/ msg = Some 0 /\ lpp = zlen ps + 1) /\ s' = Packing b0 d0).
  { destruct msg as [m|] eqn:Em; [|wp_step; split; [by left|done]]. pose proof Hp0 as [-> _].
    eapply wp_conseq; [by apply wp_end_of_list|]. intros r s' [-> ->]. split; [by right|done]. }
  intros lpp ? [Hlpp ->]. pose proof (zlen_nonneg (wire ls)). pose proof (zlen_nonneg tail).
  assert (Hlen : zlen src = zlen (wire ls) + zlen tail) by (by rewrite Hd0, zlen_app).
  wp_step. eapply wp_mono.
  { apply (wp_pack_check src tail ls); [done|done|by rewrite zdrop_0|unfold zlen in *; lia]. }
  2: { intros e ? (-> & -> & Hmax). split; [done|]. exists []. rewrite splice_nil. cbn [pk_buf pk_dnptrs].
       split; [done|]. split; [done|]. split; [done|]. left. lia. }
  intros _ ? [-> Hmax]. wp_step. eapply wp_mono.
  { apply (wp_pack_loop _ _ [] ls).
    - exists []. split; [|split; [done|]].
      + unfold copied. cbn [pk_buf pk_dnptrs concat]. rewrite splice_nil. split_and!; try done. by left.
      + cbn. change (zlen (@nil Z)) with 0. split; [done|]. split; [lia|]. intros _. split; [done|].
        destruct Hlpp as [->|[_ ->]]; [by left|]. right. split; [done|by left].
    - tauto.
    - unfold zlen. lia.
    - unfold zlen in *. lia. }
  2: done.
  intros e p (ps' & w & Hb & Hp & Hps' & Hwl & He).
  assert (Hcl : dstsiz <= zlen (wire ls) ->
    wp (match msg with Some _ => on_dnptrs (wr lpp None) | None => mret tt end;; fail EMSGSIZE) p pack_ok pack_err).
  { intros Hfull. wp_step. destruct Hlpp as [Hm|[Hm ->]]; rewrite Hm in Hp |- *.
    - wp_step. wp_step. split; [done|]. exists w. rewrite Hm. destruct Hp as [Hp _]. by split_and!; [..|right].
    - pose proof (zlen_nonneg ps). destruct (ptrs_reset ps ps' d0 (pk_dnptrs p)) as [Hin Hp']; [done|].
      apply wp_zoom. wp_step; [lia|]. wp_step. split; [done|]. exists w. rewrite Hm. cbn [pk_buf pk_dnptrs].
      by split_and!; [..|right]. }
  destruct e as [q|q|].
  - destruct He as (-> & Hm & Hpsn & pre & rest & off & E & Hne & -> & Hfd). wp_step. rewrite Z.add_simpl_l.
    by eapply pack_ok_pointer.
  - destruct He as (-> & Hlt & ->). rewrite (proj2 (Z.ltb_ge _ _)) by lia. wp_step. rewrite Z.add_simpl_l.
    by eapply pack_ok_literal.
  - by apply Hcl.
Qed.
End copy.

(** ** Text up to case *)

Lemma esc_lower c : is_byte c -> map mklower (esc c) = esc (mklower c).
Proof.
  intros Hc. apply (bool_decide_eq_true _).
  exact (byte_check (fun c => bool_decide (map mklower (esc c) = esc (mklower c))) c eq_refl Hc).
Qed.

Lemma escs_lower l : bytes l -> map mklower (escs l) = escs (map mklower l).
Proof.
  induction 1 as [|c l Hc _ IH]; [done|]. cbn [map]. by rewrite !escs_cons, map_app, esc_lower, IH.
Qed.

Lemma label_text_lower x y : plain x -> plain y -> same_label x y ->
  map mklower (label_text x) = map mklower (label_text y).
Proof.
  intros (l & -> & Hl & Hn) (l' & -> & Hl' & Hn') [_ H]%map_lower_cons. cbn [label_text].
  rewrite !(proj2 (Z.eqb_neq _ _)) by lia. by rewrite !escs_lower, H.
Qed.

Lemma text_lower ls ls' : Forall plain ls -> Forall plain ls' -> same_name ls ls' ->
  map mklower (text ls) = map mklower (text ls').
Proof.
  intros Hls Hls' H. destruct H as [|x y ls ls' Hxy H]; [done|].
  change (map mklower (join (x :: ls)) = map mklower (join (y :: ls'))).
  revert x y Hxy Hls Hls'. induction H as [|x' y' ls ls' Hxy' H IH]; intros x y Hxy Hls Hls';
    apply Forall_cons in Hls as [Hx Hls]; apply Forall_cons in Hls' as [Hy Hls'].
  - cbn [join]. by apply label_text_lower.
  - change (join (x :: x' :: ls)) with (label_text x ++ [46] ++ join (x' :: ls)).
    change (join (y :: y' :: ls')) with (label_text y ++ [46] ++ join (y' :: ls')).
    rewrite !map_app, (label_text_lower x y) by done. do 2 f_equal. by apply IH.
Qed.

Lemma spare_plain ls : Forall plain ls -> spare ls = 0.
Proof.
  intros H. unfold spare. assert (existsb is_bits ls = false) as ->; [|done].
  induction H as [|x ls (l & -> & _ & Hn) _ IH]; [done|]. cbn. by rewrite (proj2 (Z.eqb_neq (zlen l) 65)), IH by lia.
Qed.

(** [ns_name_compress] is [ns_name_pack] of what [ns_name_pton] writes. *)
Lemma wp_compress tmp0 mem t ls r b0 d0 dst dstsiz use_ptrs last (Q : Z -> packing -> Prop) E :
  bytes t -> cstr mem 0 t -> no_bits t = true -> parse t [] = Some (ls, r) ->
  zlen (wire ls) <= NS_MAXCDNAME -> Forall (fun x => zlen x <= 64) ls -> zlen tmp0 = NS_MAXCDNAME ->
  0 <= dstsiz < 2 ^ 31 ->
  (forall tail, Forall plain ls -> wp (ns_name_pack (wire ls ++ tail) dst dstsiz use_ptrs last) (Packing b0 d0) Q E) ->
  wp (ns_name_compress tmp0 mem dst dstsiz use_ptrs last) (Packing b0 d0) Q E.
Proof.
  intros Hb Hc Hnb Hparse Hmax H64 Htmp Hsiz H.
  pose proof (wp_pton mem t tmp0 NS_MAXCDNAME Hb Hc Hnb ltac:(unfold NS_MAXCDNAME in *; lia)) as Hw.
  destruct (proj1 (wp_eq _ _ _ _) Hw) as [([r' n] & tmp & Hrun & Ha)|(e & tmp & _ & _ & _ & Hno)].
  - destruct (accepted_plain _ _ _ _ _ _ Ha) as (ls' & Hp' & -> & _ & (_ & _ & _ & Htk) & Hpl).
    rewrite Hparse in Hp'. injection Hp' as <- <-.
    eapply (wp_run _ (ns_name_pack tmp dst dstsiz use_ptrs last)).
    { unfold ns_name_compress, ns_name_pton, mbind, M_bind. rewrite Hrun. cbn [mret M_ret].
      rewrite s32_id by lia. reflexivity. }
    rewrite <- (ztake_zdrop (zlen (wire ls)) tmp), Htk. by apply H.
  - exfalso. destruct (Hno _ _ Hparse) as [?|[?|Hex]]; [lia|lia|].
    apply Exists_exists in Hex as (x & Hx & Hlx). rewrite Forall_forall in H64. specialize (H64 x Hx). lia.
Qed.

(** ** Properties *)


(** A message that starts with the name a.b. *)
Definition sample_packed : list Z := [1; 97; 1; 98; 0] ++ replicate 10 7.

Lemma saved_sample : Forall (saved sample_packed 5) [0].
Proof.
  repeat constructor. exists [[1; 97]; [1; 98]]. split.
  - apply (name_label sample_packed 5 0 0 1 1 [[1; 98]]); [by apply label_plain|done|].
    apply (name_label sample_packed 5 2 2 1 1 []); [by apply label_plain|done|]. by apply name_root.
  - constructor; [exists [97]|constructor; [exists [98]|constructor]]; (split; [done|]; split; [by apply bytes_check|by vm_compute]).
Qed.

Lemma plain_sample : Forall plain [[1; 99]; [1; 66]].
Proof.
  constructor; [exists [99]|constructor; [exists [66]|constructor]]; (split; [done|]; split; [by apply bytes_check|by vm_compute]).
Qed.


(** Without a list of pointers the octets are the name's own; a name that fills
    the space exactly is refused. *)
Lemma wp_pack_literal src tail ls b0 dst dstsiz d0 last :
  src = wire ls ++ tail -> Forall plain ls -> bytes b0 ->
  0 <= dst -> 0 <= dstsiz -> dst + dstsiz <= zlen b0 ->
  wp (ns_name_pack src dst dstsiz false last) (Packing b0 d0)
     (fun r p => r = zlen (wire ls) /\ r < dstsiz /\ p = Packing (splice b0 dst (wire ls)) d0)
     (fun e _ => e = EMSGSIZE /\ (NS_MAXCDNAME < zlen (wire ls) \/ dstsiz <= zlen (wire ls))).
Proof.
  intros Hsrc Hls Hb Hdst Hsiz Hend.
  eapply wp_mono.
  { apply (wp_pack src tail ls b0 dst dstsiz Hsrc Hls Hb Hdst Hsiz Hend None [] d0 last); done. }
  - intros r [b d] (ps' & w & Hbuf & Hr & _ & _ & _ & [Hd _] & _ & _ & _ & Hw). cbn in Hbuf, Hd.
    destruct (Hw (or_introl eq_refl)) as [-> Hlt]. subst. done.
  - intros e p (-> & _ & _ & _ & _ & He). done.
Qed.

(** The name needs [zlen (wire ls)] octets and is given as many. *)
Theorem ns_name_pack_exact_fit ls b0 dst d0 last :
  Forall plain ls -> bytes b0 -> 0 <= dst -> dst + zlen (wire ls) <= zlen b0 ->
  fst (ns_name_pack (wire ls) dst (zlen (wire ls)) false last (Packing b0 d0)) = Err EMSGSIZE.
Proof.
  intros Hls Hb Hdst Hend. pose proof (zlen_wire_pos ls).
  destruct (proj1 (wp_eq _ _ _ _) (wp_pack_literal (wire ls) [] ls b0 dst (zlen (wire ls)) d0 last
    ltac:(by rewrite app_nil_r) Hls Hb Hdst ltac:(lia) Hend)) as [(r & p & -> & -> & Hlt & _)|(e & p & -> & -> & _)].
  - lia.
  - done.
Qed.

(** C12: From text to a compressed name and back: for every text without a
    bit-string escape that denotes a name within the limits, and a message with
    room for the name uncompressed and one octet more, [ns_name_compress]
    succeeds, and [ns_name_uncompress] of what it wrote, at any end of the
    message behind it, consumes exactly the octets written and prints the text
    of the name up to the case of letters. *)
Theorem ns_name_compress_uncompress tmp0 mem t ls r b0 dst dstsiz ps free last :
  bytes t -> cstr mem 0 t -> no_bits t = true -> parse t [] = Some (ls, r) ->
  zlen (wire ls) <= NS_MAXCDNAME -> Forall (fun x => zlen x <= 64) ls -> zlen tmp0 = NS_MAXCDNAME ->
  bytes b0 -> 0 <= dst -> zlen (wire ls) < dstsiz < 2 ^ 31 -> dst + dstsiz <= zlen b0 ->
  Forall (saved b0 dst) ps ->
  (forall l, last = Some l -> l <= zlen (Some 0 :: map Some ps ++ None :: free)) ->
  wp (ns_name_compress tmp0 mem dst dstsiz true last) (Packing b0 (Some 0 :: map Some ps ++ None :: free))
     (fun n p => forall tmp1 eom out siz,
        dst + n <= eom -> readable (pk_buf p) eom -> zlen tmp1 = NS_MAXCDNAME -> zlen (text ls) + 1 <= siz <= zlen out ->
        wp (ns_name_uncompress tmp1 (pk_buf p) eom dst siz) out
           (fun m s => m = n /\ exists txt, ztake (zlen (text ls) + 1) s = txt ++ [0] /\
              map mklower txt = map mklower (text ls))
           (fun _ _ => False))
     (fun _ _ => False).
Proof.
  intros Hbt Hc Hnb Hparse Hmax H64 Htmp Hb Hdst Hsiz Hend Hps Hlast.
  pose proof (zlen_wire_pos ls). eapply (wp_compress _ _ t ls r); try done; [lia|]. intros tail Hls.
  eapply wp_mono.
  { apply (wp_pack (wire ls ++ tail) tail ls b0 dst dstsiz eq_refl Hls Hb Hdst ltac:(lia) Hend (Some 0) ps _ last Hps
      (fun _ => Hlast) true); [done|]. split; [done|]. split; [done|]. exists free. by rewrite app_nil_r. }
  2: { intros e p (_ & w & _ & _ & _ & [?|?]); lia. }
  intros n p (ps' & w & _ & _ & Hn & _ & (ls' & Hsame & Hls' & Hname & Hspan) & _ & _ & _ & Hbp & _).
  intros tmp1 eom out siz He Hr Htmp1 Hsz. pose proof (text_lower ls ls' Hls Hls' Hsame) as Htx.
  assert (Htl : zlen (text ls) = zlen (text ls'))
    by (apply (f_equal length) in Htx; rewrite !length_map in Htx; unfold zlen; lia).
  assert (Hname' : name_at (pk_buf p) eom 0 dst ls') by (eapply name_at_weaken; [exact Hname|lia|lia]).
  pose proof (zlen_nonneg (text ls)).
  eapply wp_mono; [apply (wp_uncompress tmp1 (pk_buf p) eom dst out siz Htmp1 Hbp Hr); lia| |].
  - intros m s (ls2 & _ & Hn2 & Hsp2 & Htk & _). rewrite (name_at_fun _ _ _ _ _ _ Hn2 Hname') in Htk.
    pose proof (span_at_fun _ _ _ _ Hspan Hsp2). split; [lia|]. exists (text ls'). rewrite Htl. done.
  - intros e s (_ & _ & _ & Hno). destruct (Hno ls' ltac:(lia) Hname') as [Hx|Hx].
    + rewrite <- (same_name_wire _ _ Hsame) in Hx. lia.
    + rewrite (spare_plain _ Hls') in Hx. lia.
Qed.

Lemma ns_name_compress_uncompress_witness :
  parse [99; 46; 66] [] = Some ([[1; 99]; [1; 66]], 0) /\
  wp (ns_name_compress (replicate 255 0) [99; 46; 66; 0] 5 10 true (Some 4))
     (Packing sample_packed [Some 0; Some 0; None; None])
     (fun n p => forall tmp1 eom out siz,
        5 + n <= eom -> readable (pk_buf p) eom -> zlen tmp1 = NS_MAXCDNAME -> 3 + 1 <= siz <= zlen out ->
        wp (ns_name_uncompress tmp1 (pk_buf p) eom 5 siz) out
           (fun m s => m = n /\ exists txt, ztake 4 s = txt ++ [0] /\ map mklower txt = [99; 46; 98])
           (fun _ _ => False))
     (fun _ _ => False) /\
  fst (ns_name_uncompress (replicate 255 0) ([1; 97; 1; 98; 0; 1; 99; 0xc0; 2] ++ replicate 6 7) 9 5 4 (replicate 4 0)) = Ret 4.
Proof.
  split; [by vm_compute|]. split; [|by vm_compute].
  apply (ns_name_compress_uncompress (replicate 255 0) [99; 46; 66; 0] [99; 46; 66] [[1; 99]; [1; 66]] 0 sample_packed 5 10 [0] [None] (Some 4)).
  - by apply bytes_check.
  - apply (cstr_intro [99; 46; 66] []). repeat constructor; discriminate.
  - reflexivity.
  - by vm_compute.
  - by vm_compute.
  - repeat constructor; by vm_compute.
  - by vm_compute.
  - by apply bytes_check.
  - lia.
  - by vm_compute.
  - by vm_compute.
  - exact saved_sample.
  - intros l [= <-]. by vm_compute.
Defined.
