(* ===== verification/NsParse.v ===== *)
(** * Messages: [dns/nameser/ns_parse.c], [ns_netint.c] and [dns/resolv/res_comp.c]

    The reading of a DNS message: 16- and 32-bit fields in network order,
    skipping records, the message handle of [ns_initparse] with its cursor, and
    the random access to records of [ns_parserr] and [ns_parserr2]. A pointer
    into the message is an offset, NULL is [None]. *)
From S2P Require Import Prelude CString NsName NsWire NsText NsNtop NsPton.
From coqutil Require Import Datatypes.RecordSetters.
Import DoubleBraceUpdate.

(** ** Data: [arpa/nameser.h] *)

Definition NS_INT16SZ : Z := 2.
Definition NS_INT32SZ : Z := 4.
Definition NS_MAXDNAME : Z := 1025.
Definition NS_MAXNNAME : Z := 256.

(** [ns_sect]; the code casts between the enumeration and [int]. *)
Definition ns_s_qd : Z := 0.
Definition ns_s_an : Z := 1.
Definition ns_s_ns : Z := 2.
Definition ns_s_ar : Z := 3.
Definition ns_s_max : Z := 4.

(** [struct __ns_msg]. [_msg] is the buffer the message is in. *)
Record ns_msg : Type := Msg {
  _msg : list Z; _eom : Z;
  _id : Z; _flags : Z; _counts : list Z;
  _sections : list (option Z);
  _sect : Z; _rrnum : Z;
  _msg_ptr : option Z }.

(** The fields [struct __ns_rr] and [struct __ns_rr2] share. *)
Record rr_fixed : Type := Fixed {
  type : Z; rr_class : Z; ttl : Z; rdlength : Z; rdata : option Z }.

(** [struct __ns_rr] and [struct __ns_rr2]. *)
Record ns_rr : Type := RR { name : list Z; fixed : rr_fixed }.
Record ns_rr2 : Type := RR2 { nname : list Z; nnamel : Z; fixed2 : rr_fixed }.

(** ** Fields in network order *)

(** The values of [NS_GET16] and [NS_GET32]; the callers advance the pointer. *)
Definition get16 {S} (b : list Z) (p : Z) : M S Z :=
  x ← rd b p; y ← rd b (p + 1);
  mret (Z.lor (Z.shiftl x 8) y).

Definition get32 {S} (b : list Z) (p : Z) : M S Z :=
  x ← rd b p; y ← rd b (p + 1); z ← rd b (p + 2); w ← rd b (p + 3);
  mret (Z.lor (Z.lor (Z.lor (Z.shiftl x 24) (Z.shiftl y 16)) (Z.shiftl z 8)) w).

Definition ns_get16 {S} (src : list Z) : M S Z := get16 src 0.
Definition ns_get32 {S} (src : list Z) : M S Z := get32 src 0.

(** [NS_PUT16] and [NS_PUT32]: a store keeps the low octet. *)
Definition put16 (s : Z) (cp : Z) : M (list Z) Z :=
  wr cp (u8 (Z.shiftr s 8));; wr (cp + 1) (u8 s);; mret (cp + NS_INT16SZ).

Definition put32 (l : Z) (cp : Z) : M (list Z) Z :=
  wr cp (u8 (Z.shiftr l 24));; wr (cp + 1) (u8 (Z.shiftr l 16));;
  wr (cp + 2) (u8 (Z.shiftr l 8));; wr (cp + 3) (u8 l);; mret (cp + NS_INT32SZ).

Definition ns_put16 (src : Z) : M (list Z) unit := put16 src 0;; mret tt.
Definition ns_put32 (src : Z) : M (list Z) unit := put32 src 0;; mret tt.

(** ** Flags *)

(** The mask and the shift of each flag, in the order of [ns_flag]. *)
Definition _ns_flagdata : list (Z * Z) :=
  [(0x8000, 15); (0x7800, 11); (0x0400, 10); (0x0200, 9); (0x0100, 8); (0x0080, 7);
   (0x0040, 6); (0x0020, 5); (0x0010, 4); (0x000f, 0);
   (0, 0); (0, 0); (0, 0); (0, 0); (0, 0); (0, 0)].

Definition ns_msg_getflag {S} (handle : ns_msg) (flag : Z) : M S Z :=
  '(mask, shift) ← rd _ns_flagdata flag;
  mret (Z.shiftr (u32 (Z.land (_flags handle) mask)) shift).

(** ** [dn_expand] and [dn_skipname] *)

Definition dn_expand (tmp0 msg : list Z) (eom src dstsiz : Z) : M (list Z) Z :=
  n ← ns_name_uncompress tmp0 msg eom src dstsiz;
  (if 0 <? n then c ← rdS 0; if c =? 46 then wr 0 0 else mret tt else mret tt);;
  mret n.

Definition dn_skipname {S} (b : list Z) (ptr eom : Z) : M S Z :=
  r ← ns_name_skip b ptr eom; mret (r - ptr).

(** ** Skipping records *)

Definition skiprr_step {S} (b : list Z) (eom section : Z) '((ptr, count) : Z * Z)
    : M S (step (Z * Z) Z) :=
  if negb (0 <? count) then mret (Done ptr) else
  n ← dn_skipname b ptr eom;
  let ptr := ptr + (n + NS_INT16SZ + NS_INT16SZ) in
  if negb (section =? ns_s_qd) then
    fail_if (eom <? ptr + NS_INT32SZ + NS_INT16SZ) EMSGSIZE;;
    let ptr := ptr + NS_INT32SZ in
    rdlength ← get16 b ptr;
    mret (Next (ptr + NS_INT16SZ + rdlength, count - 1))
  else mret (Next (ptr, count - 1)).

Definition ns_skiprr {S} (b : list Z) (ptr eom section count : Z) : M S Z :=
  let optr := ptr in
  ptr ← loop (Z.to_nat count + 1) (skiprr_step b eom section) (ptr, count);
  fail_if (eom <? ptr) EMSGSIZE;;
  mret (ptr - optr).

(** ** The handle *)

Definition setsection (sect : Z) : M ns_msg unit :=
  updS (fun h => h{{ _sect := sect }});;
  if sect =? ns_s_max then
    updS (fun h => h{{ _rrnum := -1 }});; updS (fun h => h{{ _msg_ptr := None }})
  else
    updS (fun h => h{{ _rrnum := 0 }});;
    h ← getS; p ← rd (_sections h) sect; updS (fun h => h{{ _msg_ptr := p }}).

(** The [for] loops of [ns_initparse] over the four sections. *)
Definition counts_step (buf : list Z) (eom : Z) '((msg, i) : Z * Z) : M ns_msg (step (Z * Z) Z) :=
  if negb (i <? ns_s_max) then mret (Done msg) else
  fail_if (eom <? msg + NS_INT16SZ) EMSGSIZE;;
  c ← get16 buf msg;
  updS (fun h => h{{ _counts := zupd (_counts h) i c }});;
  mret (Next (msg + NS_INT16SZ, i + 1)).

Definition sections_step (buf : list Z) (eom : Z) '((msg, i) : Z * Z) : M ns_msg (step (Z * Z) Z) :=
  if negb (i <? ns_s_max) then mret (Done msg) else
  h ← getS; c ← rd (_counts h) i;
  if c =? 0 then
    updS (fun h => h{{ _sections := zupd (_sections h) i None }});;
    mret (Next (msg, i + 1))
  else
    b ← ns_skiprr buf msg eom i c;
    updS (fun h => h{{ _sections := zupd (_sections h) i (Some msg) }});;
    mret (Next (msg + b, i + 1)).

(** [ns_initparse(msg, msglen, handle)], the message at the start of [buf]. *)
Definition ns_initparse (buf : list Z) (msglen : Z) : M ns_msg unit :=
  let msg := 0 in
  let eom := msg + msglen in
  updS (fun h => h{{ _msg := buf; _eom := eom }});;
  fail_if (eom <? msg + NS_INT16SZ) EMSGSIZE;;
  v ← get16 buf msg; updS (fun h => h{{ _id := v }});;
  let msg := msg + NS_INT16SZ in
  fail_if (eom <? msg + NS_INT16SZ) EMSGSIZE;;
  v ← get16 buf msg; updS (fun h => h{{ _flags := v }});;
  let msg := msg + NS_INT16SZ in
  msg ← loop 5 (counts_step buf eom) (msg, 0);
  msg ← loop 5 (sections_step buf eom) (msg, 0);
  fail_if (negb (msg =? eom)) EMSGSIZE;;
  setsection ns_s_max.

(** ** Records *)

Definition non_null {S} (p : option Z) : M S Z :=
  match p with Some p => mret p | None => undef end.

(** "Make section right" and "make rrnum right": the cursor is moved to the
    record, whose number is returned. *)
Definition select (section rrnum : Z) : M ns_msg Z :=
  fail_if ((section <? 0) || (ns_s_max <=? section)) ENODEV;;
  h ← getS;
  (if negb (section =? _sect h) then setsection section else mret tt);;
  h ← getS;
  let rrnum := if rrnum =? -1 then _rrnum h else rrnum in
  c ← rd (_counts h) section;
  fail_if ((rrnum <? 0) || (c <=? rrnum)) ENODEV;;
  (if rrnum <? _rrnum h then setsection section else mret tt);;
  h ← getS;
  (if _rrnum h <? rrnum then
     p ← non_null (_msg_ptr h);
     b ← ns_skiprr (_msg h) p (_eom h) section (rrnum - _rrnum h);
     updS (fun h => h{{ _msg_ptr := Some (p + b) }});;
     updS (fun h => h{{ _rrnum := rrnum }})
   else mret tt);;
  mret rrnum.

Definition on_msg {R A} (m : M ns_msg A) : M (ns_msg * R) A := zoom fst (fun h s => (h, s.2)) m.
Definition on_rr {A R} (m : M R A) : M (ns_msg * R) A := zoom snd (fun r s => (s.1, r)) m.

(** The part of a record behind its name, read at the cursor. *)
Definition parse_fixed (section : Z) : M (ns_msg * rr_fixed) unit :=
  h ← on_msg getS; p ← non_null (_msg_ptr h);
  fail_if (_eom h <? p + NS_INT16SZ + NS_INT16SZ) EMSGSIZE;;
  v ← get16 (_msg h) p; on_rr (updS (fun r => r{{ type := v }}));;
  let p := p + NS_INT16SZ in
  on_msg (updS (fun h => h{{ _msg_ptr := Some p }}));;
  v ← get16 (_msg h) p; on_rr (updS (fun r => r{{ rr_class := v }}));;
  let p := p + NS_INT16SZ in
  on_msg (updS (fun h => h{{ _msg_ptr := Some p }}));;
  (if section =? ns_s_qd then
     on_rr (updS (fun r => r{{ ttl := 0; rdlength := 0; rdata := None }}))
   else
     fail_if (_eom h <? p + NS_INT32SZ + NS_INT16SZ) EMSGSIZE;;
     v ← get32 (_msg h) p; on_rr (updS (fun r => r{{ ttl := v }}));;
     let p := p + NS_INT32SZ in
     on_msg (updS (fun h => h{{ _msg_ptr := Some p }}));;
     n ← get16 (_msg h) p; on_rr (updS (fun r => r{{ rdlength := n }}));;
     let p := p + NS_INT16SZ in
     on_msg (updS (fun h => h{{ _msg_ptr := Some p }}));;
     fail_if (_eom h <? p + n) EMSGSIZE;;
     on_rr (updS (fun r => r{{ rdata := Some p }}));;
     on_msg (updS (fun h => h{{ _msg_ptr := Some (p + n) }})));;
  on_msg (
    updS (fun h => h{{ _rrnum := _rrnum h + 1 }});;
    h ← getS; c ← rd (_counts h) section;
    if c <? _rrnum h then setsection (section + 1) else mret tt).

Definition with_fixed {A} (m : M (ns_msg * rr_fixed) A) : M (ns_msg * ns_rr) A :=
  zoom (fun s => (s.1, fixed s.2)) (fun t s => (t.1, RR (name s.2) t.2)) m.
Definition with_fixed2 {A} (m : M (ns_msg * rr_fixed) A) : M (ns_msg * ns_rr2) A :=
  zoom (fun s => (s.1, fixed2 s.2)) (fun t s => (t.1, RR2 (nname s.2) (nnamel s.2) t.2)) m.

Definition ns_parserr (tmp0 : list Z) (section rrnum : Z) : M (ns_msg * ns_rr) unit :=
  on_msg (select section rrnum);;
  h ← on_msg getS; p ← non_null (_msg_ptr h);
  b ← on_rr (zoom name (fun n r => RR n (fixed r)) (dn_expand tmp0 (_msg h) (_eom h) p NS_MAXDNAME));
  on_msg (updS (fun h => h{{ _msg_ptr := Some (p + b) }}));;
  with_fixed (parse_fixed section).

Definition ns_parserr2 (section rrnum : Z) : M (ns_msg * ns_rr2) unit :=
  on_msg (select section rrnum);;
  h ← on_msg getS; p ← non_null (_msg_ptr h);
  '(b, l) ← on_rr (zoom nname (fun n r => RR2 n (nnamel r) (fixed2 r))
                     (ns_name_unpack2 (_msg h) (_eom h) p NS_MAXNNAME));
  on_rr (updS (fun r => r{{ nnamel := l }}));;
  on_msg (updS (fun h => h{{ _msg_ptr := Some (p + b) }}));;
  with_fixed2 (parse_fixed section).

(** ** Numbers in network order *)

Definition byte_at (b : list Z) (p : Z) : Z := default 0 (znth b p).
Definition u16_at (b : list Z) (p : Z) : Z := byte_at b p * 256 + byte_at b (p + 1).
Definition u32_at (b : list Z) (p : Z) : Z := u16_at b p * 65536 + u16_at b (p + 2).

#[global] Arguments byte_at : simpl never.

Section numbers.
Context {S : Type} (b : list Z) (Hb : bytes b).
Implicit Types (p : Z).

Lemma byte_at_range p : is_byte (byte_at b p).
Proof.
  unfold byte_at. destruct (znth b p) eqn:E; cbn; [by eapply bytes_znth|unfold is_byte; lia].
Qed.

Lemma u16_at_range p : 0 <= u16_at b p < 65536.
Proof. pose proof (byte_at_range p). pose proof (byte_at_range (p + 1)). unfold u16_at, is_byte in *. lia. Qed.

Lemma wp_rd_byte p (st : S) (Q : Z -> S -> Prop) E :
  0 <= p < zlen b -> Q (byte_at b p) st -> wp (rd b p) st Q E.
Proof. intros Hp HQ. apply wp_rd_lt; [done|]. intros v Hv. unfold byte_at in HQ. by rewrite Hv in HQ. Qed.

Lemma wp_get16 p (st : S) (Q : Z -> S -> Prop) E :
  0 <= p -> p + 2 <= zlen b -> Q (u16_at b p) st -> wp (get16 b p) st Q E.
Proof.
  intros Hp He HQ. unfold get16. wp_step. apply wp_rd_byte; [lia|]. wp_step. apply wp_rd_byte; [lia|].
  wp_step. pose proof (byte_at_range (p + 1)). unfold is_byte in *.
  rewrite lor_shiftl_add by lia. exact HQ.
Qed.

Lemma wp_get32 p (st : S) (Q : Z -> S -> Prop) E :
  0 <= p -> p + 4 <= zlen b -> Q (u32_at b p) st -> wp (get32 b p) st Q E.
Proof.
  intros Hp He HQ. unfold get32. do 4 (wp_step; apply wp_rd_byte; [lia|]). wp_step.
  pose proof (byte_at_range (p + 1)). pose proof (byte_at_range (p + 2)). pose proof (byte_at_range (p + 3)).
  unfold is_byte in *.
  rewrite (lor_shiftl_add (byte_at b p) _ 24) by (rewrite ?Z.shiftl_mul_pow2 by lia; lia).
  rewrite (Z.shiftl_mul_pow2 (byte_at b (p + 1))), (Z.shiftl_mul_pow2 (byte_at b (p + 2))) by lia.
  replace (byte_at b p * 2 ^ 24 + byte_at b (p + 1) * 2 ^ 16) with (u16_at b p * 2 ^ 16) by (unfold u16_at; lia).
  rewrite (lor_add (u16_at b p)) by lia.
  replace (u16_at b p * 2 ^ 16 + byte_at b (p + 2) * 2 ^ 8)
    with ((u16_at b p * 2 ^ 8 + byte_at b (p + 2)) * 2 ^ 8) by lia.
  rewrite lor_add by lia. unfold u32_at, u16_at in *.
  replace (p + 2 + 1) with (p + 3) in HQ by lia.
  match goal with |- Q ?v _ => match type of HQ with Q ?w _ => replace v with w by lia end end. exact HQ.
Qed.
End numbers.

(** ** Records and the layout of a message *)

(** The octets behind the name, which ends at [n], up to the end of the record. *)
Definition rr_size (b : list Z) (section n : Z) : Z :=
  if section =? ns_s_qd then 4 else 10 + u16_at b (n + 8).

(** [records b eom section p ps e]: the records of a section starting at the
    offsets [ps] follow each other from [p] to [e]. *)
Inductive records (b : list Z) (eom section : Z) : Z -> list Z -> Z -> Prop :=
  | records_nil p : records b eom section p [] p
  | records_cons p n ps e :
      span_at b p n -> n + rr_size b section n <= eom ->
      records b eom section (n + rr_size b section n) ps e ->
      records b eom section p (p :: ps) e.

(** The sections from number [i] on, one behind the other. *)
Inductive layout (b : list Z) (eom : Z) : Z -> Z -> list (list Z) -> Z -> Prop :=
  | layout_nil i p : layout b eom i p [] p
  | layout_cons i p ps q starts e :
      records b eom i p ps q -> layout b eom (i + 1) q starts e ->
      layout b eom i p (ps :: starts) e.

Section records.
Context {S : Type} (b : list Z) (eom : Z) (Hb : bytes b) (Heom : eom <= zlen b).
Implicit Types (p e : Z) (ps : list Z) (st : S).

Lemma rr_size_range section n : 4 <= rr_size b section n.
Proof. unfold rr_size. pose proof (u16_at_range b Hb (n + 8)). case_match; lia. Qed.

Lemma records_bounds section p ps e :
  records b eom section p ps e -> p <= e /\ (ps <> [] -> 0 <= p /\ p < e <= eom).
Proof.
  induction 1 as [p|p n ps e Hs He Hr [IH1 IH2]]; [done|].
  pose proof (span_at_lt b Hb _ _ Hs). pose proof (rr_size_range section n).
  split; [lia|]. intros _. split; [lia|].
  destruct ps as [|q ps]; [inversion Hr; subst; lia|]. specialize (IH2 ltac:(done)). lia.
Qed.

Lemma records_fun section p ps e ps' e' :
  records b eom section p ps e -> records b eom section p ps' e' -> zlen ps = zlen ps' ->
  ps = ps' /\ e = e'.
Proof.
  intros H. revert ps' e'.
  induction H as [p|p n ps e Hs He Hr IH]; intros ps' e' H' Hl; destruct H' as [|p' n' ps' e'' Hs' He' Hr'];
    rewrite ?zlen_cons in Hl; change (zlen (@nil Z)) with 0 in Hl;
    try pose proof (zlen_nonneg ps'); try pose proof (zlen_nonneg ps); try lia; [done|].
  rewrite <- (span_at_fun _ _ _ _ Hs Hs') in Hr'. destruct (IH _ _ Hr') as [-> ->]; [lia|done].
Qed.

Lemma records_snoc section p ps q n :
  records b eom section p ps q -> span_at b q n -> n + rr_size b section n <= eom ->
  records b eom section p (ps ++ [q]) (n + rr_size b section n).
Proof.
  induction 1 as [p|p m ps e Hs He Hr IH]; intros Hn Hle; cbn [app].
  - by econstructor; [..|constructor].
  - econstructor; eauto.
Qed.

Lemma records_split section p ps e i :
  records b eom section p ps e -> 0 <= i <= zlen ps ->
  exists q, records b eom section p (ztake i ps) q /\ records b eom section q (zdrop i ps) e.
Proof.
  intros H. revert i. induction H as [p|p n ps e Hs He Hr IH]; intros i Hi.
  - change (zlen (@nil Z)) with 0 in Hi. replace i with 0 by lia. exists p. split; constructor.
  - rewrite zlen_cons in Hi. destruct (decide (i = 0)) as [->|].
    + exists p. split; [constructor|]. rewrite zdrop_0. by econstructor.
    + destruct (IH (i - 1)) as (q & H1 & H2); [lia|]. exists q.
      unfold ztake, zdrop in *. replace (Z.to_nat i) with (Datatypes.S (Z.to_nat (i - 1))) by lia.
      cbn [take drop]. split; [by econstructor|done].
Qed.

Lemma layout_snoc i p starts q ps r :
  layout b eom i p starts q -> records b eom (i + zlen starts) q ps r ->
  layout b eom i p (starts ++ [ps]) r.
Proof.
  induction 1 as [i p|i p ps' q' starts e Hr Hl IH]; intros H; cbn [app].
  - rewrite zlen_nil, Z.add_0_r in H. by econstructor; [|constructor].
  - econstructor; [done|]. apply IH. rewrite zlen_cons in H. by replace (i + 1 + zlen starts) with (i + (zlen starts + 1)) by lia.
Qed.

(** ** [ns_skiprr] *)

Lemma wp_skipname p st :
  0 <= p ->
  wp (dn_skipname b p eom) st
     (fun r st' => 0 <= r /\ p + r <= eom /\ (p + r < eom -> span_at b p (p + r)) /\ st' = st)
     (fun e st' => e = EMSGSIZE /\ st' = st).
Proof.
  intros Hp. unfold dn_skipname. wp_step. eapply wp_conseq; [by apply wp_skip_safe|].
  intros r ? (? & Hs & ->). wp_step. replace (p + (r - p)) with r by lia. split_and!; [lia|lia|done|done].
Qed.

(** The records of a section are skipped. *)
Lemma wp_skiprr_records section p ps e st :
  records b eom section p ps e -> e <= eom ->
  wp (ns_skiprr b p eom section (zlen ps)) st (fun r st' => r = e - p /\ st' = st) (fun _ _ => False).
Proof.
  intros Hr He. unfold ns_skiprr. wp_step.
  enough (forall fuel, zlen ps < Z.of_nat fuel ->
    wp (loop fuel (skiprr_step b eom section) (p, zlen ps)) st (fun q st' => q = e /\ st' = st) (fun _ _ => False)) as Hw.
  { eapply wp_conseq; [apply Hw; pose proof (zlen_nonneg ps); lia|]. intros q ? [-> ->].
    wp_step. wp_step; [lia|]. by wp_step. }
  induction Hr as [p|p n ps e Hs Hle Hr IH]; intros fuel Hf;
    (destruct fuel as [|fuel];
     [exfalso; match type of Hf with zlen ?l < _ => pose proof (zlen_nonneg l) end; lia|]);
    apply wp_loop_S; unfold skiprr_step at 1.
  - by wp_step.
  - pose proof (zlen_nonneg ps). rewrite zlen_cons in Hf |- *. rewrite (proj2 (Z.ltb_lt 0 _)) by lia. cbn [negb].
    pose proof (rr_size_range section n). pose proof (span_at_lt b Hb _ _ Hs).
    wp_step. unfold dn_skipname. wp_step. eapply wp_conseq; [apply (wp_skip b eom Hb Heom p n); [done|lia]|].
    intros ? ? [-> ->]. wp_step. unfold NS_INT16SZ, NS_INT32SZ.
    replace (p + (n - p + 2 + 2)) with (n + 4) by lia. rewrite Z.add_simpl_r.
    unfold rr_size in *. pose proof (u16_at_range b Hb (n + 8)). destruct (Z.eqb_spec section ns_s_qd); cbn [negb].
    + wp_step. apply IH; [done|lia].
    + wp_step. wp_step; [lia|]. wp_step. apply wp_get16; [done|lia|lia|]. wp_step.
      replace (n + 4 + 4) with (n + 8) by lia.
      replace (n + 8 + 2 + u16_at b (n + 8)) with (n + (10 + u16_at b (n + 8))) by lia. apply IH; [done|lia].
Qed.

(** On arbitrary octets it ends, and what it skips are records. *)
Lemma wp_skiprr_any section p count st :
  0 <= p <= eom -> 0 <= count ->
  wp (ns_skiprr b p eom section count) st
     (fun r st' => st' = st /\ exists ps, zlen ps = count /\ p + r <= eom /\
                     records b eom section p ps (p + r))
     (fun e st' => e = EMSGSIZE /\ st' = st).
Proof.
  intros Hp Hc. unfold ns_skiprr. wp_step.
  apply (wp_conseq _ _ (fun q st' => st' = st /\ p <= q /\
           (q <= eom -> exists ps, zlen ps = count /\ records b eom section p ps q))).
  - apply (wp_loop (fun '(q, c) st' => st' = st /\ p <= q /\ 0 <= c /\
             (q <= eom -> exists ps, zlen ps = count - c /\ records b eom section p ps q))
             (fun '(_, c) _ => Z.to_nat c)); [|lia|].
    { split_and!; [done|lia|lia|]. intros _. exists []. split; [rewrite zlen_nil; lia|constructor]. }
    intros [q c] ? (-> & Hq & Hc0 & Hps). unfold skiprr_step.
    destruct (Z.ltb_spec 0 c); cbn [negb].
    2: { wp_step. replace c with 0 in Hps by lia. rewrite Z.sub_0_r in Hps. done. }
    wp_step. eapply wp_conseq; [apply wp_skipname; lia|]. intros n ? (Hn & Hle & Hs & ->).
    destruct (Hps ltac:(lia)) as (ps & Hl & Hr). clear Hps. unfold NS_INT16SZ, NS_INT32SZ.
    replace (q + (n + 2 + 2)) with (q + n + 4) by lia.
    pose proof (u16_at_range b Hb (q + n + 8)).
    assert (Hnext : q + n < eom -> q + n + rr_size b section (q + n) <= eom ->
      exists ps, zlen ps = count - (c - 1) /\ records b eom section p ps (q + n + rr_size b section (q + n))).
    { intros Hlt He. exists (ps ++ [q]). split; [rewrite zlen_app; change (zlen [q]) with 1; lia|].
      apply records_snoc; auto. }
    unfold rr_size in Hnext. destruct (Z.eqb_spec section ns_s_qd); cbn [negb].
    + wp_step. split_and!; try lia; try done. intros He. by apply Hnext; lia.
    + wp_step. wp_step; [done|]. wp_step. apply wp_get16; [done|lia|lia|]. wp_step.
      replace (q + n + 4 + 4) with (q + n + 8) by lia.
      replace (q + n + 8 + 2 + u16_at b (q + n + 8)) with (q + n + (10 + u16_at b (q + n + 8))) by lia.
      split_and!; try lia; try done. intros He. by apply Hnext; lia.
  - intros q ? (-> & Hle & Hps). wp_step. wp_step; [done|]. wp_step. split; [done|].
    destruct Hps as (ps & ? & ?); [lia|]. exists ps. replace (p + (q - p)) with q by lia. split_and!; [done|lia|done].
Qed.
End records.

(** ** [dn_expand] *)

(** The text [dn_expand] leaves: the root is the empty string. *)
Definition host_text (ls : list (list Z)) : list Z :=
  match ls with [] => [] | _ => text ls end.

Lemma text_head ls : Forall wf_label ls -> ls <> [] -> exists d u, text ls = d :: u /\ d <> 46.
Proof.
  intros [|x ls' Hx _] Hne; [done|].
  assert (exists d u, label_text x = d :: u /\ d <> 46) as (d & u & Hx' & Hd).
  { destruct Hx as [l Hl Hn|k l Hk Hl Hn]; cbn [label_text].
    - rewrite (proj2 (Z.eqb_neq _ 0x41)) by lia. destruct l as [|c l]; [change (zlen (@nil Z)) with 0 in Hn; lia|].
      by apply escs_head.
    - change (65 =? 0x41) with true. cbn iota. by eexists _, _. }
  destruct ls'; cbn [text join]; rewrite Hx'; cbn [app]; by eexists _, _.
Qed.

(** [p] has a name that [dn_expand] can print into [dstsiz] bytes. *)
Definition expandable (msg : list Z) (eom p dstsiz : Z) (ls : list (list Z)) : Prop :=
  name_at msg eom 0 p ls /\ zlen (wire ls) <= NS_MAXCDNAME /\ zlen (text ls) + 1 + spare ls <= dstsiz.

Section expand.
Context (tmp0 msg : list Z) (eom : Z) (Htmp : zlen tmp0 = NS_MAXCDNAME).
Context (Hb : bytes msg) (Hr : readable msg eom).

Lemma wp_dn_expand src dst dstsiz :
  0 <= src < eom -> 0 <= dstsiz <= zlen dst ->
  wp (dn_expand tmp0 msg eom src dstsiz) dst
     (fun n s => exists ls, name_at msg eom 0 src ls /\ span_at msg src (src + n) /\
        ztake (zlen (host_text ls) + 1) s = host_text ls ++ [0] /\ zlen s = zlen dst)
     (fun e s => e = EMSGSIZE /\ zlen s = zlen dst /\ forall ls, ~ expandable msg eom src dstsiz ls).
Proof.
  intros Hs Hd. unfold dn_expand. wp_step. eapply wp_mono; [by apply (wp_uncompress tmp0 msg eom src dst dstsiz)| |].
  2: { intros e s (-> & Hl & _ & Hno). split_and!; [done|done|]. intros ls (Hn & ? & ?).
       destruct (Hno ls Hs Hn); lia. }
  intros n s (ls & _ & Hn & Hsp & Ht & Hfit & Hl & _). pose proof (span_at_lt msg Hb _ _ Hsp).
  pose proof (zlen_nonneg (text ls)).
  rewrite (proj2 (Z.ltb_lt 0 n)) by lia. wp_step.
  assert (Hz0 : znth s 0 = znth (text ls ++ [0]) 0) by (rewrite <- Ht, znth_ztake; [done|lia]).
  wp_step. unfold rdS.
  assert (exists c, znth s 0 = Some c /\ (c = 46 <-> ls = [])) as (c & Hc & Hroot).
  { rewrite Hz0. destruct ls as [|x ls]; [by exists 46|].
    destruct (text_head (x :: ls)) as (d & u & -> & Hd'); [|done|].
    - eapply name_at_wf; [exact Hb| |exact Hn]. by destruct Hr.
    - by exists d. }
  apply (wp_run _ (rd s 0) s s); [done|]. apply (wp_rd _ _ _ _ _ c Hc).
  destruct (Z.eqb_spec c 46) as [Hc46|Hc46].
  - wp_step; [lia|]. wp_step. exists ls. assert (ls = []) as -> by tauto. split_and!; try done; [|by rewrite zlen_zupd].
    destruct s as [|c' s]; [done|]. done.
  - wp_step. wp_step. exists ls. destruct ls; [tauto|]. done.
Qed.
End expand.

(** ** The handle *)

Definition header_counts (b : list Z) : list Z := [u16_at b 4; u16_at b 6; u16_at b 8; u16_at b 10].

(** Evaluates updates and projections of a literal handle or record. *)
Ltac msg_simpl :=
  cbn [apply_update constant _msg _eom _id _flags _counts _sections _sect _rrnum _msg_ptr
       type rr_class ttl rdlength rdata name fixed nname nnamel fixed2 fst snd] in *;
  unfold constant in *.

(** [starts]: where the records of the four sections begin. The header is
    followed by as many records as it announces and by nothing else. *)
Definition well_formed (b : list Z) (eom : Z) (starts : list (list Z)) : Prop :=
  12 <= eom /\ map zlen starts = header_counts b /\ layout b eom 0 12 starts eom.

(** The cursor is behind all sections, or at the [_rrnum]-th record of [_sect]. *)
Definition cursor_ok (h : ns_msg) (starts : list (list Z)) : Prop :=
  (_sect h = ns_s_max /\ _rrnum h = -1 /\ _msg_ptr h = None) \/
  (exists ps, znth starts (_sect h) = Some ps /\ 0 <= _rrnum h <= zlen ps /\
     match _msg_ptr h with
     | None => ps = []
     | Some p => ps <> [] /\ exists e, e <= _eom h /\ records (_msg h) (_eom h) (_sect h) p (zdrop (_rrnum h) ps) e
     end).

Record handle_ok (starts : list (list Z)) (h : ns_msg) : Prop := HandleOk {
  ok_wf : well_formed (_msg h) (_eom h) starts;
  ok_counts : _counts h = map zlen starts;
  ok_sections : _sections h = map head starts;
  ok_cursor : cursor_ok h starts }.

Lemma znth_map {A B} (f : A -> B) l i : znth (map f l) i = f <$> znth l i.
Proof. unfold znth. case_match; [done|]. by rewrite list_lookup_fmap. Qed.

Section initparse.
Context (buf : list Z) (eom : Z) (Hb : bytes buf) (Heom : eom <= zlen buf).
Implicit Types (h : ns_msg).

Lemma layout_bounds i p starts e : layout buf eom i p starts e -> p <= e.
Proof. induction 1 as [|i p ps q starts e Hr]; [done|]. destruct (records_bounds buf eom Hb _ _ _ _ Hr). lia. Qed.

Lemma layout_section i p starts e k ps :
  layout buf eom i p starts e -> e <= eom -> znth starts k = Some ps ->
  exists q r, records buf eom (i + k) q ps r /\ r <= eom.
Proof.
  intros H. revert k. induction H as [i p|i p ps' q starts e Hr Hl IH]; intros k He Hk; apply znth_Some in Hk as Hlt.
  { change (zlen (@nil (list Z))) with 0 in Hlt. lia. }
  rewrite zlen_cons in Hlt. destruct (decide (k = 0)) as [->|].
  - injection Hk as ->. exists p, q. rewrite Z.add_0_r. split; [done|]. apply layout_bounds in Hl. lia.
  - rewrite znth_cons_S in Hk by lia. destruct (IH (k - 1) He Hk) as (q' & r & H1 & H2). exists q', r.
    by replace (i + k) with (i + 1 + (k - 1)) by lia.
Qed.

Lemma wp_counts_loop h :
  zlen (_counts h) = 4 -> 4 <= eom ->
  wp (loop 5 (counts_step buf eom) (4, 0)) h
     (fun m h' => m = 12 /\ 12 <= eom /\ h' = h{{ _counts := header_counts buf }})
     (fun e _ => e = EMSGSIZE /\ eom < 12).
Proof.
  intros Hl He. destruct h as [m eo id fl cs ss se rr mp]. cbn in Hl.
  destruct cs as [|c0 [|c1 [|c2 [|c3 [|]]]]]; try (unfold zlen in Hl; cbn in Hl; lia).
  do 4 (apply wp_loop_S; unfold counts_step at 1; change (_ <? ns_s_max) with true; cbn [negb];
        wp_step; wp_step; [split; [done|unfold NS_INT16SZ in *; cbn in *; lia]|];
        wp_step; apply wp_get16; [done|done|unfold NS_INT16SZ in *; cbn in *; lia|]; wp_step; wp_step; wp_step).
  apply wp_loop_S. unfold counts_step. wp_step. split_and!; [done|unfold NS_INT16SZ in *; cbn in *; lia|done].
Qed.

Definition sections_inv h '((msg, i) : Z * Z) (h' : ns_msg) : Prop :=
  exists seen, zlen seen = i /\ i <= 4 /\ 0 <= msg <= eom /\ layout buf eom 0 12 seen msg /\
    map zlen seen = ztake i (header_counts buf) /\
    h' = h{{ _sections := map head seen ++ zdrop i (_sections h) }} /\
    (forall starts, well_formed buf eom starts ->
       exists rest, starts = seen ++ rest /\ layout buf eom i msg rest eom).

Lemma wp_sections_step h msg i h' :
  zlen (_sections h) = 4 -> _counts h = header_counts buf -> sections_inv h (msg, i) h' ->
  wp (sections_step buf eom (msg, i)) h'
     (fun st h' => match st with
                   | Next l => sections_inv h l h' /\ l.2 = i + 1
                   | Done r => sections_inv h (r, 4) h'
                   end)
     (fun e _ => e = EMSGSIZE /\ ~ exists starts, well_formed buf eom starts).
Proof.
  destruct h as [m eo id fl cs ss se rr mp]. intros Hs Hc Hinv. msg_simpl.
  unfold sections_step. destruct (Z.ltb_spec i ns_s_max) as [Hi|Hi]; cbn [negb]; unfold ns_s_max in Hi.
  2: { wp_step. pose proof Hinv as (? & _ & ? & _). by replace 4 with i by lia. }
  destruct Hinv as (seen & Hl & _ & Hm & Hlay & Hcs & Hh & Hwf). pose proof (zlen_nonneg seen).
  wp_step. wp_step. wp_step. subst h' cs. msg_simpl.
  destruct (znth_lt (header_counts buf) i) as [c Hci]; [change (zlen (header_counts buf)) with 4; lia|].
  apply (wp_rd _ _ _ _ _ c Hci).
  assert (Hc0 : 0 <= c).
  { unfold header_counts in Hci. assert (i = 0 \/ i = 1 \/ i = 2 \/ i = 3) as Hi' by lia.
    destruct Hi' as [->|[->|[->| ->]]]; injection Hci as <-; apply u16_at_range, Hb. }
  assert (Hrest : forall starts, well_formed buf eom starts -> exists ps q rest,
    starts = seen ++ ps :: rest /\ zlen ps = c /\ records buf eom i msg ps q /\ q <= eom /\ layout buf eom (i + 1) q rest eom).
  { intros starts Hst. destruct (Hwf starts Hst) as (rest & -> & Hlr). destruct Hst as (_ & Hmap & _).
    rewrite map_app in Hmap. destruct rest as [|ps rest].
    { apply (f_equal zlen) in Hmap. rewrite app_nil_r in Hmap. change (zlen (header_counts buf)) with 4 in Hmap.
      rewrite zlen_map in Hmap. lia. }
    inversion Hlr; subst. exists ps, q, rest. split_and!; try done; [|by eapply layout_bounds].
    rewrite <- Hmap, znth_app_r, zlen_map, Z.sub_diag in Hci by (rewrite zlen_map; lia). by injection Hci. }
  assert (Hnew : forall ps q, zlen ps = c -> records buf eom i msg ps q -> q <= eom ->
    sections_inv (Msg m eo id fl (header_counts buf) ss se rr mp) (q, i + 1)
      (Msg m eo id fl (header_counts buf) (map head seen ++ head ps :: zdrop (i + 1) ss) se rr mp)).
  { intros ps q Hps Hr Hq. exists (seen ++ [ps]). zlen_simpl.
    destruct (records_bounds buf eom Hb _ _ _ _ Hr) as [Hmq _].
    split_and!; try (unfold zlen in *; rewrite ?length_app; cbn; lia).
    - eapply layout_snoc; [done|]. by rewrite Z.add_0_l, Hl.
    - rewrite map_app, Hcs. cbn [map]. rewrite Hps. symmetry. by apply ztake_snoc.
    - by rewrite map_app, <- app_assoc.
    - intros starts Hst. destruct (Hrest starts Hst) as (ps' & q' & rest & -> & Hl' & Hr' & _ & Hlr).
      destruct (records_fun buf eom _ _ _ _ _ _ Hr Hr') as [-> ->]; [lia|].
      exists rest. by rewrite <- app_assoc. }
  assert (Hupd : forall o, zupd (map head seen ++ zdrop i ss) i o =
                           map head seen ++ o :: zdrop (i + 1) ss).
  { intros o. destruct (znth_lt ss i) as [v Hv]; [lia|]. rewrite (zdrop_cons _ _ _ Hv).
    pose proof (zupd_middle (map head seen) v (zdrop (i + 1) ss) o) as Hz. by rewrite zlen_map, Hl in Hz. }
  destruct (Z.eqb_spec c 0) as [->|Hcn].
  - wp_step. wp_step. wp_step. msg_simpl. rewrite Hupd. split; [|done].
    apply (Hnew [] msg); [done|constructor|lia].
  - wp_step. eapply wp_mono.
    + eapply (wp_refute _ _ _ _ (exists starts, well_formed buf eom starts)).
      * apply (wp_skiprr_any buf eom Hb Heom i msg c); lia.
      * intros (starts & Hst). destruct (Hrest starts Hst) as (ps & q & rest & _ & <- & Hr & Hq & _).
        eapply wp_conseq; [by apply (wp_skiprr_records buf eom Hb Heom _ _ _ _ _ Hr)|done].
    + intros r ? (-> & ps & Hps & Hq & Hr). wp_step. wp_step. wp_step. msg_simpl. rewrite Hupd.
      split; [|done]. destruct ps as [|p ps]; [change (zlen (@nil Z)) with 0 in Hps; lia|].
      assert (p = msg) as -> by (by inversion Hr). by apply (Hnew (msg :: ps)).
    + intros e ? [[-> _] Hno]. done.
Qed.

Lemma wp_sections_loop h :
  zlen (_sections h) = 4 -> _counts h = header_counts buf -> 12 <= eom ->
  wp (loop 5 (sections_step buf eom) (12, 0)) h
     (fun m h' => sections_inv h (m, 4) h')
     (fun e _ => e = EMSGSIZE /\ ~ exists starts, well_formed buf eom starts).
Proof.
  intros Hs Hc He.
  apply (wp_loop (sections_inv h) (fun '(_, i) _ => Z.to_nat (4 - i))); [|cbn; lia|].
  - exists []. split_and!; try done; try lia.
    + constructor.
    + destruct h. rewrite zdrop_0. done.
    + intros starts (_ & _ & Hl). by exists starts.
  - intros [m i] h' Hinv. eapply wp_conseq; [by apply wp_sections_step|].
    intros [[m' i']|r] h'' Hst; [|done]. destruct Hst as [Hst Hi]. split; [done|]. cbn in Hi. subst i'.
    pose proof Hst as (seen & Hl & Hi4 & _). lia.
Qed.

(** [ns_initparse]. *)
Lemma wp_initparse h :
  zlen (_counts h) = 4 -> zlen (_sections h) = 4 ->
  wp (ns_initparse buf eom) h
     (fun _ h' => exists starts, handle_ok starts h' /\ _msg h' = buf /\ _eom h' = eom /\
        _id h' = u16_at buf 0 /\ _flags h' = u16_at buf 2 /\ _sect h' = ns_s_max)
     (fun e _ => e = EMSGSIZE /\ ~ exists starts, well_formed buf eom starts).
Proof.
  destruct h as [m eo id fl cs ss se rr mp]. intros Hc Hs. msg_simpl.
  assert (Hshort : forall n, n <= 12 -> eom < n -> ~ exists starts, well_formed buf eom starts).
  { intros n Hn He (starts & ? & _). lia. }
  unfold ns_initparse, NS_INT16SZ. cbv zeta. rewrite Z.add_0_l. do 4 wp_step; [split; [done|apply (Hshort 4); lia]|].
  wp_step. apply wp_get16; [done|done|lia|]. do 4 wp_step; [split; [done|apply (Hshort 4); lia]|].
  wp_step. apply wp_get16; [done|done|lia|]. do 3 wp_step. msg_simpl.
  eapply wp_mono; [apply wp_counts_loop; [done|lia]| |].
  2: { intros e ? [-> He]. split; [done|]. by apply (Hshort 12). }
  intros ? ? (-> & He & ->). msg_simpl. wp_step. eapply wp_conseq; [by apply wp_sections_loop|].
  intros q h' (seen & Hl & _ & Hq & Hlay & Hcs & -> & Hwf). wp_step. wp_step.
  { split; [done|]. intros (starts & Hst). destruct (Hwf starts Hst) as (rest & -> & Hlr).
    destruct Hst as (_ & Hmap & _). apply (f_equal zlen) in Hmap.
    rewrite zlen_map, zlen_app in Hmap. change (zlen (header_counts buf)) with 4 in Hmap.
    destruct rest; [inversion Hlr; lia|]. rewrite zlen_cons in Hmap. pose proof (zlen_nonneg rest). lia. }
  assert (q = eom) as -> by lia. unfold setsection. do 3 wp_step. wp_step. msg_simpl.
  exists seen. split_and!; try done. change (ztake 4 (header_counts buf)) with (header_counts buf) in Hcs.
  constructor; [done|done| |by left]. msg_simpl.
  unfold zdrop. rewrite drop_ge, app_nil_r by (unfold zlen in Hs; lia). done.
Qed.
End initparse.
