(* ===== verification/NsRecords.v ===== *)
(** * The message handle in use: [ns_parserr], [ns_parserr2], the flags

    The theorems about [ns_initparse] and the access to records, single calls
    first and then any sequence of them, and the round trips of the fields. *)
From S2P Require Import Prelude CString NsName NsWire NsText NsNtop NsPton NsParse.
From coqutil Require Import Datatypes.RecordSetters.
Import DoubleBraceUpdate.

(** ** Access to the records *)

(** The start of record [n] of a section. *)
Definition nth_record (starts : list (list Z)) (section n : Z) : option Z :=
  ps ← znth starts section; znth ps n.

(** The record a call asks for: -1 is the one at the cursor. *)
Definition target (h : ns_msg) (section rrnum : Z) : Z :=
  if rrnum =? -1 then (if section =? _sect h then _rrnum h else 0) else rrnum.

(** The calls move the cursor and change nothing else of the handle. *)
Definition same_msg (h h' : ns_msg) : Prop :=
  h' = h{{ _sect := _sect h'; _rrnum := _rrnum h'; _msg_ptr := _msg_ptr h' }}.

(** The fields behind a name that ends at [n]. *)
Definition fixed_at (b : list Z) (section n : Z) : rr_fixed :=
  let qd := section =? ns_s_qd in
  Fixed (u16_at b n) (u16_at b (n + 2)) (if qd then 0 else u32_at b (n + 4))
    (if qd then 0 else u16_at b (n + 8)) (if qd then None else Some (n + 10)).

Section access.
Context (buf : list Z) (eom : Z) (Hb : bytes buf) (Heom : eom <= zlen buf).
Context (starts : list (list Z)) (id fl : Z).
Implicit Types (h : ns_msg) (section rrnum n p : Z).

(** The handles of this message. *)
Definition hdl (se rr : Z) (mp : option Z) : ns_msg :=
  Msg buf eom id fl (map zlen starts) (map head starts) se rr mp.

Lemma handle_ok_hdl h :
  handle_ok starts h -> _msg h = buf -> _eom h = eom -> _id h = id -> _flags h = fl ->
  h = hdl (_sect h) (_rrnum h) (_msg_ptr h).
Proof. destruct h. intros [_ Hc Hs _]. cbn in *. by intros -> -> -> ->; subst. Qed.

Ltac hdl_simpl := unfold hdl in *; msg_simpl.

Context (Hwf : well_formed buf eom starts).

Lemma four_sections : zlen starts = 4.
Proof. destruct Hwf as (_ & Hm & _). by rewrite <- (zlen_map zlen), Hm. Qed.

Lemma section_records section ps :
  znth starts section = Some ps -> exists q r, records buf eom section q ps r /\ r <= eom.
Proof.
  intros Hps. destruct Hwf as (_ & _ & Hl).
  exact (layout_section buf eom Hb _ _ _ _ _ _ Hl ltac:(lia) Hps).
Qed.

Lemma hdl_ok se rr mp : cursor_ok (hdl se rr mp) starts -> handle_ok starts (hdl se rr mp).
Proof. by constructor. Qed.

Lemma wp_setsection section se rr mp (Q : unit -> ns_msg -> Prop) E :
  0 <= section < 4 ->
  (forall mp', handle_ok starts (hdl section 0 mp') -> Q tt (hdl section 0 mp')) ->
  wp (setsection section) (hdl se rr mp) Q E.
Proof.
  intros Hs HQ. unfold setsection. wp_step. wp_step. rewrite (proj2 (Z.eqb_neq section ns_s_max)) by (unfold ns_s_max; lia).
  do 5 wp_step. hdl_simpl. destruct (znth_lt starts section) as [ps Hps]; [rewrite four_sections; lia|].
  apply (wp_rd _ _ _ _ _ (head ps)); [by rewrite znth_map, Hps|]. wp_step. apply HQ, hdl_ok.
  right. exists ps. split_and!; [done|done|apply zlen_nonneg|]. hdl_simpl.
  destruct (section_records section ps Hps) as (q & r & Hr & Hq).
  destruct ps as [|p ps]; [done|]. cbn [head]. split; [done|]. exists r. split; [done|].
  rewrite zdrop_0. by inversion Hr; subst.
Qed.

(** "Make section right" and "make rrnum right". *)
Lemma wp_select section rrnum se rr mp :
  handle_ok starts (hdl se rr mp) ->
  wp (select section rrnum) (hdl se rr mp)
     (fun n h' => n = target (hdl se rr mp) section rrnum /\
        exists p, nth_record starts section n = Some p /\ h' = hdl section n (Some p) /\ handle_ok starts h')
     (fun e h' => e = ENODEV /\ nth_record starts section (target (hdl se rr mp) section rrnum) = None /\
        exists se rr mp, h' = hdl se rr mp /\ handle_ok starts h').
Proof.
  intros Hok. pose proof four_sections as H4. remember (target (hdl se rr mp) section rrnum) as n eqn:Hn.
  unfold select, nth_record. wp_step. wp_step.
  { split_and!; [done| |by eauto]. unfold ns_s_max in *. rewrite znth_None; [done|lia]. }
  unfold ns_s_max in *. do 3 wp_step. hdl_simpl.
  apply (wp_conseq _ _ (fun _ h' => exists rr' mp', h' = hdl section rr' mp' /\ handle_ok starts h' /\
    (if rrnum =? -1 then rr' else rrnum) = n)).
  { subst n. unfold target. hdl_simpl. destruct (Z.eqb_spec section se) as [->|]; cbn [negb].
    - wp_step. by exists rr, mp.
    - apply wp_setsection; [lia|]. intros mp' Hok'. by exists 0, mp'. }
  intros _ ? (rr' & mp' & -> & Hok' & Hn'). do 3 wp_step. hdl_simpl. rewrite Hn'.
  destruct (znth_lt starts section) as [ps Hps]; [lia|].
  apply (wp_rd _ _ _ _ _ (zlen ps)); [by rewrite znth_map, Hps|]. wp_step. rewrite Hps. cbn [mbind option_bind].
  wp_step.
  { split_and!; [done| |by eauto]. apply znth_None. lia. }
  wp_step. destruct (section_records section ps Hps) as (q & r & Hr & Hq).
  apply (wp_conseq _ _ (fun _ h' => exists rr' p e, h' = hdl section rr' (Some p) /\ 0 <= rr' <= n /\
    e <= eom /\ records buf eom section p (zdrop rr' ps) e)).
  { assert (Hcur : forall rr0 mp0, handle_ok starts (hdl section rr0 mp0) -> rr0 <= n ->
      exists rr' p e, hdl section rr0 mp0 = hdl section rr' (Some p) /\ 0 <= rr' <= n /\
        e <= eom /\ records buf eom section p (zdrop rr' ps) e).
    { intros rr0 mp0 [_ _ _ [Hc|Hc]] Hle; cbn in Hc; [unfold ns_s_max in Hc; lia|].
      destruct Hc as (ps' & Hps' & Hrr & Hmp). rewrite Hps in Hps'. injection Hps' as <-.
      destruct mp0 as [p|]; [|subst ps; change (zlen (@nil Z)) with 0 in *; lia].
      destruct Hmp as [_ (e & He & Hre)]. exists rr0, p, e. split_and!; try lia; done. }
    wp_step.
    - apply wp_setsection; [lia|]. intros mp0 Hok0. apply Hcur; [done|lia].
    - wp_step. apply Hcur; [done|lia]. }
  intros _ ? (rr0 & p & e & -> & Hrr0 & He & Hre). wp_step. wp_step. hdl_simpl.
  wp_step.
  destruct (records_split buf eom _ _ _ _ (n - rr0) Hre) as (t & Ht1 & Ht2).
  { rewrite zlen_zdrop; lia. }
  rewrite zdrop_zdrop in Ht2 by lia. replace (rr0 + (n - rr0)) with n in Ht2 by lia.
  destruct (znth_lt ps n) as [p' Hp']; [lia|].
  assert (t = p') as ->. { rewrite (zdrop_cons _ _ _ Hp') in Ht2. by inversion Ht2. }
  apply (wp_conseq _ _ (fun _ h' => h' = hdl section n (Some p'))).
  { destruct (Z.ltb_spec rr0 n) as [Hlt|Hge].
    - wp_step. cbn [non_null]. do 2 wp_step.
      assert (Hl : zlen (ztake (n - rr0) (zdrop rr0 ps)) = n - rr0) by (rewrite zlen_ztake; rewrite ?zlen_zdrop; lia).
      eapply wp_mono; [rewrite <- Hl; eapply (wp_skiprr_records buf eom Hb Heom); [exact Ht1|]| |done].
      { destruct (records_bounds buf eom Hb _ _ _ _ Ht2). lia. }
      intros b ? [-> ->]. do 3 wp_step. by replace (p + (p' - p)) with p' by lia.
    - wp_step. assert (rr0 = n) as -> by lia. replace (n - n) with 0 in Ht1 by lia. by inversion Ht1. }
  intros _ ? ->. wp_step. split; [done|]. exists p'. split_and!; [done|done|].
  apply hdl_ok. right. exists ps. cbn. split_and!; [done|lia|lia|intros Hnil; subst ps; change (zlen (@nil Z)) with 0 in *; lia|]. by exists e.
Qed.

(** The fields behind the name and the step to the next record. *)
Lemma wp_parse_fixed section n num r ps e :
  0 <= n -> n + rr_size buf section n <= eom -> e <= eom ->
  znth starts section = Some ps -> 0 <= num < zlen ps ->
  records buf eom section (n + rr_size buf section n) (zdrop (num + 1) ps) e ->
  wp (parse_fixed section) (hdl section num (Some n), r)
     (fun _ s => s = (hdl section (num + 1) (Some (n + rr_size buf section n)), fixed_at buf section n) /\
                 handle_ok starts s.1)
     (fun _ _ => False).
Proof.
  intros Hn Hfit He Hps Hnum Hre. pose proof (u16_at_range buf Hb (n + 8)).
  assert (Hok : handle_ok starts (hdl section (num + 1) (Some (n + rr_size buf section n)))).
  { apply hdl_ok. right. exists ps. cbn. split_and!; [done|lia|lia|intros ->; change (zlen (@nil Z)) with 0 in *; lia|].
    by exists e. }
  assert (Hend : forall fx, wp (on_msg (R := rr_fixed) (
    updS (fun h => h{{ _rrnum := _rrnum h + 1 }});;
    h ← getS; c ← rd (_counts h) section;
    if c <? _rrnum h then setsection (section + 1) else mret tt)) (hdl section num (Some (n + rr_size buf section n)), fx)
     (fun _ s => s = (hdl section (num + 1) (Some (n + rr_size buf section n)), fx) /\ handle_ok starts s.1)
     (fun _ _ => False)).
  { intros fx. apply wp_zoom. do 5 wp_step. hdl_simpl.
    apply (wp_rd _ _ _ _ _ (zlen ps)); [by rewrite znth_map, Hps|].
    rewrite (proj2 (Z.ltb_ge (zlen ps) (num + 1))) by lia. by wp_step. }
  unfold parse_fixed, rr_size, fixed_at, NS_INT16SZ, NS_INT32SZ in *. destruct r as [ty cl tt' rl rd'].
  wp_step. apply wp_zoom. wp_step. cbn [non_null hdl _msg_ptr _eom _msg fst snd]. do 4 wp_step.
  { destruct (Z.eqb_spec section ns_s_qd); lia. }
  wp_step. apply wp_get16; [done|lia|destruct (Z.eqb_spec section ns_s_qd); lia|].
  wp_step. apply wp_zoom. wp_step. wp_step. apply wp_zoom. wp_step. hdl_simpl.
  wp_step. apply wp_get16; [done|lia|destruct (Z.eqb_spec section ns_s_qd); lia|].
  wp_step. apply wp_zoom. wp_step. wp_step. apply wp_zoom. wp_step. hdl_simpl. wp_step.
  replace (n + 2 + 2) with (n + 4) by lia. destruct (Z.eqb_spec section ns_s_qd) as [Hqd|Hqd].
  - apply wp_zoom. wp_step. hdl_simpl. apply Hend.
  - replace (n + 4 + 4) with (n + 8) by lia. replace (n + 8 + 2) with (n + 10) by lia.
    do 2 wp_step; [lia|]. wp_step. apply wp_get32; [done|lia|lia|].
    wp_step. apply wp_zoom. wp_step. wp_step. apply wp_zoom. wp_step. hdl_simpl.
    wp_step. apply wp_get16; [done|lia|lia|].
    wp_step. apply wp_zoom. wp_step. wp_step. apply wp_zoom. wp_step. hdl_simpl.
    do 2 wp_step; [lia|]. wp_step. apply wp_zoom. wp_step. apply wp_zoom. wp_step. hdl_simpl.
    replace (n + 10 + u16_at buf (n + 8)) with (n + (10 + u16_at buf (n + 8))) by lia. apply Hend.
Qed.

(** What a record whose position is known looks like. *)
Lemma record_facts section n p :
  nth_record starts section n = Some p ->
  exists ps m e, znth starts section = Some ps /\ 0 <= n < zlen ps /\ 0 <= p < eom /\ span_at buf p m /\
    0 <= m /\ m + rr_size buf section m <= eom /\ e <= eom /\
    records buf eom section (m + rr_size buf section m) (zdrop (n + 1) ps) e.
Proof.
  unfold nth_record. destruct (znth starts section) as [ps|] eqn:Hps; [|done]. cbn. intros Hp.
  destruct (section_records section ps Hps) as (q & r & Hr & Hle).
  apply znth_Some in Hp as Hn. destruct (records_split buf eom _ _ _ _ n Hr) as (t & _ & Ht); [lia|].
  rewrite (zdrop_cons _ _ _ Hp) in Ht. inversion Ht as [|? m ? ? Hs Hfit Hre]; subst.
  pose proof (span_at_lt buf Hb _ _ Hs). pose proof (rr_size_range buf Hb section m).
  exists ps, m, r. split_and!; try done; lia.
Qed.

Lemma wp_parserr tmp0 section rrnum se rr mp r :
  zlen tmp0 = NS_MAXCDNAME -> readable buf eom -> zlen (name r) = NS_MAXDNAME ->
  handle_ok starts (hdl se rr mp) ->
  wp (ns_parserr tmp0 section rrnum) (hdl se rr mp, r)
     (fun _ '(h', r') => exists p m ls,
        let n := target (hdl se rr mp) section rrnum in
        nth_record starts section n = Some p /\
        name_at buf eom 0 p ls /\ span_at buf p m /\
        ztake (zlen (host_text ls) + 1) (name r') = host_text ls ++ [0] /\ zlen (name r') = NS_MAXDNAME /\
        fixed r' = fixed_at buf section m /\
        handle_ok starts h' /\ h' = hdl section (n + 1) (Some (m + rr_size buf section m)))
     (fun e '(h', r') =>
        let n := target (hdl se rr mp) section rrnum in
        handle_ok starts h' /\ (exists se rr mp, h' = hdl se rr mp) /\ zlen (name r') = NS_MAXDNAME /\
        match nth_record starts section n with
        | None => e = ENODEV
        | Some p => e = EMSGSIZE /\ forall ls, ~ expandable buf eom p NS_MAXDNAME ls
        end).
Proof.
  intros Htmp Hr Hl Hok. remember (target (hdl se rr mp) section rrnum) as n eqn:Hn.
  unfold ns_parserr. wp_step. apply wp_zoom. eapply wp_mono; [by apply wp_select| |]; rewrite <- Hn.
  2: { intros e h' (-> & Hno & se' & rr' & mp' & -> & Hok'). cbn. rewrite Hno. split_and!; try done. by eexists _, _, _. }
  intros ? h' (-> & p & Hp & -> & Hok'). cbn [fst snd].
  destruct (record_facts _ _ _ Hp) as (ps & m & e & Hps & Hnum & Hpe & Hs & Hm & Hfit & He & Hre).
  wp_step. apply wp_zoom. wp_step. cbn [hdl _msg_ptr _msg _eom non_null fst snd]. do 3 wp_step.
  apply wp_zoom, wp_zoom. cbn [fst snd].
  eapply wp_mono; [apply (wp_dn_expand tmp0 buf eom Htmp Hb Hr p (name r) NS_MAXDNAME); [done|rewrite Hl; by vm_compute]| |].
  2: { intros err s (-> & Hls & Hno). cbn. rewrite Hp. split_and!; [done|by eexists _, _, _|congruence|done|done]. }
  intros b s (ls & Hname & Hspan & Htext & Hls). cbn [fst snd name fixed].
  assert (p + b = m) as -> by (by eapply span_at_fun).
  wp_step. apply wp_zoom. wp_step. hdl_simpl. apply wp_zoom. cbn [fst snd fixed].
  eapply wp_mono; [by apply (wp_parse_fixed section m n (fixed r) ps e)| |done].
  intros _ ? [-> Hok'']. cbn. exists p, m, ls. split_and!; try done. congruence.
Qed.

Lemma wp_parserr2 section rrnum se rr mp r :
  readable buf eom -> zlen (nname r) = NS_MAXNNAME ->
  handle_ok starts (hdl se rr mp) ->
  wp (ns_parserr2 section rrnum) (hdl se rr mp, r)
     (fun _ '(h', r') => exists p m ls,
        let n := target (hdl se rr mp) section rrnum in
        nth_record starts section n = Some p /\
        name_at buf eom 0 p ls /\ span_at buf p m /\
        nname r' = splice (nname r) 0 (wire ls) /\ nnamel r' = zlen (wire ls) /\ nnamel r' <= NS_MAXNNAME /\
        fixed2 r' = fixed_at buf section m /\
        handle_ok starts h' /\ h' = hdl section (n + 1) (Some (m + rr_size buf section m)))
     (fun e '(h', r') =>
        let n := target (hdl se rr mp) section rrnum in
        handle_ok starts h' /\ (exists se rr mp, h' = hdl se rr mp) /\ zlen (nname r') = NS_MAXNNAME /\
        match nth_record starts section n with
        | None => e = ENODEV
        | Some p => e = EMSGSIZE /\ forall ls, name_at buf eom 0 p ls -> NS_MAXNNAME < zlen (wire ls)
        end).
Proof.
  intros Hr Hl Hok. remember (target (hdl se rr mp) section rrnum) as n eqn:Hn.
  unfold ns_parserr2. wp_step. apply wp_zoom. eapply wp_mono; [by apply wp_select| |]; rewrite <- Hn.
  2: { intros e h' (-> & Hno & se' & rr' & mp' & -> & Hok'). cbn. rewrite Hno. split_and!; try done. by eexists _, _, _. }
  intros ? h' (-> & p & Hp & -> & Hok'). cbn [fst snd].
  destruct (record_facts _ _ _ Hp) as (ps & m & e & Hps & Hnum & Hpe & Hs & Hm & Hfit & He & Hre).
  wp_step. apply wp_zoom. wp_step. cbn [hdl _msg_ptr _msg _eom non_null fst snd]. do 3 wp_step.
  apply wp_zoom, wp_zoom. cbn [fst snd].
  eapply wp_mono; [apply (wp_unpack2 buf eom p Hb Hr (nname r) NS_MAXNNAME); rewrite Hl; by vm_compute| |].
  2: { intros err s (-> & (w & -> & Hw) & Hno). cbn. rewrite Hp, zlen_splice by lia.
       split_and!; [done|by eexists _, _, _|done|done|auto]. }
  intros [b l] s (ls & _ & Hname & Hspan & -> & Hle & ->). cbn [fst snd nname nnamel fixed2].
  assert (p + b = m) as -> by (by eapply span_at_fun).
  wp_step. apply wp_zoom. wp_step. wp_step. apply wp_zoom. wp_step. hdl_simpl. apply wp_zoom. cbn [fst snd fixed2].
  eapply wp_mono; [by apply (wp_parse_fixed section m n (fixed2 r) ps e)| |done].
  intros _ ? [-> Hok'']. cbn. exists p, m, ls. by split_and!.
Qed.
End access.

(** ** Properties *)

(** C2: [ns_initparse] on arbitrary octets terminates and reads only the message.
    It succeeds exactly when the message is well formed: the header is followed
    by the records it announces, section by section, and nothing is left over.
    Then the handle holds the header fields and the start of every section, and
    its cursor is behind the sections; otherwise the error is EMSGSIZE. *)
Theorem ns_initparse_correct buf msglen h :
  bytes buf -> msglen <= zlen buf -> zlen (_counts h) = 4 -> zlen (_sections h) = 4 ->
  wp (ns_initparse buf msglen) h
     (fun _ h' => exists starts, handle_ok starts h' /\ _msg h' = buf /\ _eom h' = msglen /\
        _id h' = u16_at buf 0 /\ _flags h' = u16_at buf 2 /\ _sect h' = ns_s_max)
     (fun e _ => e = EMSGSIZE /\ ~ exists starts, well_formed buf msglen starts).
Proof. intros. by apply wp_initparse. Qed.

(** A query for "a." and an answer whose name is a pointer to the first name. *)
Definition sample_message : list Z :=
  [0x12; 0x34; 0x81; 0x80; 0; 1; 0; 1; 0; 0; 0; 0;
   1; 97; 0; 0; 1; 0; 1;
   0xc0; 12; 0; 1; 0; 1; 0; 0; 0; 60; 0; 4; 10; 0; 0; 1].

Definition empty_handle : ns_msg := Msg [] 0 0 0 [0; 0; 0; 0] [None; None; None; None] 0 0 None.

Lemma ns_initparse_correct_witness :
  wp (ns_initparse sample_message 35) empty_handle
     (fun _ h' => exists starts, handle_ok starts h' /\ _msg h' = sample_message /\ _eom h' = 35 /\
        _id h' = u16_at sample_message 0 /\ _flags h' = u16_at sample_message 2 /\ _sect h' = ns_s_max)
     (fun e _ => e = EMSGSIZE /\ ~ exists starts, well_formed sample_message 35 starts) /\
  ns_initparse sample_message 35 empty_handle =
    (Ret tt, Msg sample_message 35 0x1234 0x8180 [1; 1; 0; 0] [Some 12; Some 19; None; None] 4 (-1) None).
Proof.
  split; [|by vm_compute]. apply ns_initparse_correct; [by apply bytes_check|by vm_compute|done|done].
Defined.

Lemma handle_ok_inv starts h :
  handle_ok starts h ->
  h = hdl (_msg h) (_eom h) starts (_id h) (_flags h) (_sect h) (_rrnum h) (_msg_ptr h).
Proof. intros H. by apply handle_ok_hdl. Qed.

(** [ns_parserr] on any handle of a well-formed message. *)
Lemma wp_parserr_handle tmp0 starts h r section rrnum :
  zlen tmp0 = NS_MAXCDNAME -> bytes (_msg h) -> readable (_msg h) (_eom h) ->
  zlen (name r) = NS_MAXDNAME -> handle_ok starts h ->
  wp (ns_parserr tmp0 section rrnum) (h, r)
     (fun _ '(h', r') => exists p m ls,
        nth_record starts section (target h section rrnum) = Some p /\
        name_at (_msg h) (_eom h) 0 p ls /\ span_at (_msg h) p m /\
        ztake (zlen (host_text ls) + 1) (name r') = host_text ls ++ [0] /\ zlen (name r') = NS_MAXDNAME /\
        fixed r' = fixed_at (_msg h) section m /\
        handle_ok starts h' /\ same_msg h h' /\ _sect h' = section /\ _rrnum h' = target h section rrnum + 1)
     (fun e '(h', r') =>
        handle_ok starts h' /\ same_msg h h' /\ zlen (name r') = NS_MAXDNAME /\
        match nth_record starts section (target h section rrnum) with
        | None => e = ENODEV
        | Some p => e = EMSGSIZE /\ forall ls, ~ expandable (_msg h) (_eom h) p NS_MAXDNAME ls
        end).
Proof.
  intros Htmp Hb Hr Hl Hok. pose proof (handle_ok_inv _ _ Hok) as Hh. pose proof (ok_wf _ _ Hok) as Hwf.
  destruct Hr as [Hr1 Hr2]. rewrite Hh in Hok |- *.
  eapply wp_mono; [apply (wp_parserr _ _ Hb Hr1 _ _ _ Hwf); [done|by split|done|exact Hok]| |].
  - intros _ [h' r'] (p & m & ls & ? & ? & ? & ? & ? & ? & ? & ->). exists p, m, ls. by split_and!.
  - intros e [h' r'] (? & (? & ? & ? & ->) & ? & ?). by split_and!.
Qed.


(** C3: [ns_parserr] on the handle of a well-formed message: for every section and
    number (-1 for the record at the cursor) it terminates within the message
    and the record, whatever calls came before. It returns the record of that
    number: the printed name, the type and class, and outside the question
    section the TTL and the data; the cursor is then behind the record. It
    fails with ENODEV when there is no such record and with EMSGSIZE when the
    name cannot be expanded into NS_MAXDNAME bytes. In every case the handle
    is again one of the same message. *)
Theorem ns_parserr_correct tmp0 starts h r section rrnum :
  zlen tmp0 = NS_MAXCDNAME -> bytes (_msg h) -> readable (_msg h) (_eom h) ->
  zlen (name r) = NS_MAXDNAME -> handle_ok starts h ->
  wp (ns_parserr tmp0 section rrnum) (h, r)
     (fun _ '(h', r') => exists p m ls,
        nth_record starts section (target h section rrnum) = Some p /\
        name_at (_msg h) (_eom h) 0 p ls /\ span_at (_msg h) p m /\
        ztake (zlen (host_text ls) + 1) (name r') = host_text ls ++ [0] /\ zlen (name r') = NS_MAXDNAME /\
        fixed r' = fixed_at (_msg h) section m /\
        handle_ok starts h' /\ same_msg h h' /\ _sect h' = section /\ _rrnum h' = target h section rrnum + 1)
     (fun e '(h', r') =>
        handle_ok starts h' /\ same_msg h h' /\ zlen (name r') = NS_MAXDNAME /\
        match nth_record starts section (target h section rrnum) with
        | None => e = ENODEV
        | Some p => e = EMSGSIZE /\ forall ls, ~ expandable (_msg h) (_eom h) p NS_MAXDNAME ls
        end).
Proof. apply wp_parserr_handle. Qed.

Definition sample_starts : list (list Z) := [[12]; [19]; []; []].

Definition sample_handle : ns_msg :=
  Msg sample_message 35 0x1234 0x8180 [1; 1; 0; 0] [Some 12; Some 19; None; None] 4 (-1) None.

Lemma sample_layout : well_formed sample_message 35 sample_starts.
Proof.
  split_and!; [done|done|].
  eapply (layout_cons _ _ 0 12 [12] 19).
  { apply (records_cons _ _ _ 12 15); [|by vm_compute|exact (records_nil _ _ _ 19)].
    eapply (span_label _ 12 1 1); [by apply label_plain|]. by apply (span_root _ 14). }
  eapply (layout_cons _ _ _ 19 [19] 35).
  { apply (records_cons _ _ _ 19 21); [|by vm_compute|exact (records_nil _ _ _ 35)].
    by apply (span_ptr _ 19 0xc0). }
  do 2 (eapply layout_cons; [constructor|]). constructor.
Qed.

Lemma sample_handle_ok : handle_ok sample_starts sample_handle.
Proof. constructor; [exact sample_layout|done|done|by left]. Qed.

Lemma sample_readable : readable sample_message 35.
Proof. split; [by vm_compute|intros _; by vm_compute]. Qed.

Definition blank_rr : ns_rr := RR (replicate 1025 7) (Fixed 7 7 7 7 None).
Definition blank_rr2 : ns_rr2 := RR2 (replicate 256 7) 7 (Fixed 7 7 7 7 None).

Lemma ns_parserr_correct_witness :
  wp (ns_parserr (replicate 255 0) 1 0) (sample_handle, blank_rr)
     (fun _ '(h', r') => exists p m ls,
        nth_record sample_starts 1 0 = Some p /\
        name_at sample_message 35 0 p ls /\ span_at sample_message p m /\
        ztake (zlen (host_text ls) + 1) (name r') = host_text ls ++ [0] /\ zlen (name r') = NS_MAXDNAME /\
        fixed r' = fixed_at sample_message 1 m /\
        handle_ok sample_starts h' /\ same_msg sample_handle h' /\ _sect h' = 1 /\ _rrnum h' = 1)
     (fun e '(h', r') =>
        handle_ok sample_starts h' /\ same_msg sample_handle h' /\ zlen (name r') = NS_MAXDNAME /\
        (e = EMSGSIZE /\ forall ls, ~ expandable sample_message 35 19 NS_MAXDNAME ls)) /\
  fst (ns_parserr (replicate 255 0) 1 0 (sample_handle, blank_rr)) = Ret tt /\
  fst (ns_parserr (replicate 255 0) 2 0 (sample_handle, blank_rr)) = Err ENODEV.
Proof.
  split_and!; [|by vm_compute|by vm_compute].
  apply (ns_parserr_correct (replicate 255 0) sample_starts sample_handle blank_rr 1 0).
  - by vm_compute.
  - by apply bytes_check.
  - exact sample_readable.
  - by vm_compute.
  - exact sample_handle_ok.
Defined.

(** [ns_parserr2] gives the same record with the name in uncompressed wire
    form: its octets are written at the start of [nname], their number is
    [nnamel]. It fails with EMSGSIZE only when that form has more than
    NS_MAXNNAME octets or there is no name. *)
Theorem ns_parserr2_correct starts h r section rrnum :
  bytes (_msg h) -> readable (_msg h) (_eom h) -> zlen (nname r) = NS_MAXNNAME -> handle_ok starts h ->
  wp (ns_parserr2 section rrnum) (h, r)
     (fun _ '(h', r') => exists p m ls,
        nth_record starts section (target h section rrnum) = Some p /\
        name_at (_msg h) (_eom h) 0 p ls /\ span_at (_msg h) p m /\
        nname r' = splice (nname r) 0 (wire ls) /\ nnamel r' = zlen (wire ls) /\ nnamel r' <= NS_MAXNNAME /\
        fixed2 r' = fixed_at (_msg h) section m /\
        handle_ok starts h' /\ same_msg h h' /\ _sect h' = section /\ _rrnum h' = target h section rrnum + 1)
     (fun e '(h', r') =>
        handle_ok starts h' /\ same_msg h h' /\ zlen (nname r') = NS_MAXNNAME /\
        match nth_record starts section (target h section rrnum) with
        | None => e = ENODEV
        | Some p => e = EMSGSIZE /\ forall ls, name_at (_msg h) (_eom h) 0 p ls -> NS_MAXNNAME < zlen (wire ls)
        end).
Proof.
  intros Hb Hr Hl Hok. pose proof (handle_ok_inv _ _ Hok) as Hh. pose proof (ok_wf _ _ Hok) as Hwf.
  destruct Hr as [Hr1 Hr2]. rewrite Hh in Hok |- *.
  eapply wp_mono; [apply (wp_parserr2 _ _ Hb Hr1 _ _ _ Hwf); [by split|done|exact Hok]| |].
  - intros _ [h' r'] (p & m & ls & ? & ? & ? & ? & ? & ? & ? & ? & ->). exists p, m, ls. by split_and!.
  - intros e [h' r'] (? & (? & ? & ? & ->) & ? & ?). by split_and!.
Qed.

Lemma ns_parserr2_correct_witness :
  wp (ns_parserr2 0 (-1)) (sample_handle, blank_rr2)
     (fun _ '(h', r') => exists p m ls,
        nth_record sample_starts 0 0 = Some p /\
        name_at sample_message 35 0 p ls /\ span_at sample_message p m /\
        nname r' = splice (replicate 256 7) 0 (wire ls) /\ nnamel r' = zlen (wire ls) /\ nnamel r' <= NS_MAXNNAME /\
        fixed2 r' = fixed_at sample_message 0 m /\
        handle_ok sample_starts h' /\ same_msg sample_handle h' /\ _sect h' = 0 /\ _rrnum h' = 1)
     (fun e '(h', r') =>
        handle_ok sample_starts h' /\ same_msg sample_handle h' /\ zlen (nname r') = NS_MAXNNAME /\
        (e = EMSGSIZE /\ forall ls, name_at sample_message 35 0 12 ls -> NS_MAXNNAME < zlen (wire ls))) /\
  fst (ns_parserr2 0 (-1) (sample_handle, blank_rr2)) = Ret tt.
Proof.
  split; [|by vm_compute].
  apply (ns_parserr2_correct sample_starts sample_handle blank_rr2 0 (-1)).
  - by apply bytes_check.
  - exact sample_readable.
  - by vm_compute.
  - exact sample_handle_ok.
Defined.

(** ** Sessions *)

(** The handles a client can have: after [ns_initparse], and after any further
    calls, whatever they returned. *)
Inductive reachable (buf : list Z) (msglen : Z) : ns_msg -> Prop :=
  | reach_init h h' :
      zlen (_counts h) = 4 -> zlen (_sections h) = 4 ->
      ns_initparse buf msglen h = (Ret tt, h') -> reachable buf msglen h'
  | reach_parserr tmp0 section rrnum h r o h' r' :
      reachable buf msglen h -> zlen tmp0 = NS_MAXCDNAME -> zlen (name r) = NS_MAXDNAME ->
      ns_parserr tmp0 section rrnum (h, r) = (o, (h', r')) -> reachable buf msglen h'
  | reach_parserr2 section rrnum h r o h' r' :
      reachable buf msglen h -> zlen (nname r) = NS_MAXNNAME ->
      ns_parserr2 section rrnum (h, r) = (o, (h', r')) -> reachable buf msglen h'.

(** The outcome of a terminating call without undefined behaviour. *)
Definition completes {A} (o : outcome A) : Prop := exists a, o = Ret a \/ exists e, o = Err e.

Lemma wp_outcome {S A} (m : M S A) s o s' (Q : A -> S -> Prop) E (P : S -> Prop) :
  wp m s Q E -> m s = (o, s') -> (forall a s, Q a s -> P s) -> (forall e s, E e s -> P s) -> P s'.
Proof. unfold wp. intros H Hm. rewrite Hm in H. destruct o; naive_solver. Qed.

Lemma wp_completes {S A} (m : M S A) s (Q : A -> S -> Prop) E :
  wp m s Q E -> (exists a s', m s = (Ret a, s')) \/ (exists e s', m s = (Err e, s')).
Proof. unfold wp. destruct (m s) as [[]?]; naive_solver. Qed.

Section session.
Context (buf : list Z) (msglen : Z) (Hb : bytes buf) (Hr : readable buf msglen).

Lemma calls_of_handle starts h tmp0 section rrnum :
  handle_ok starts h -> _msg h = buf -> _eom h = msglen -> zlen tmp0 = NS_MAXCDNAME ->
  (forall r, zlen (name r) = NS_MAXDNAME ->
     wp (ns_parserr tmp0 section rrnum) (h, r)
       (fun _ s => handle_ok starts s.1 /\ _msg s.1 = buf /\ _eom s.1 = msglen)
       (fun _ s => handle_ok starts s.1 /\ _msg s.1 = buf /\ _eom s.1 = msglen)) /\
  (forall r, zlen (nname r) = NS_MAXNNAME ->
     wp (ns_parserr2 section rrnum) (h, r)
       (fun _ s => handle_ok starts s.1 /\ _msg s.1 = buf /\ _eom s.1 = msglen)
       (fun _ s => handle_ok starts s.1 /\ _msg s.1 = buf /\ _eom s.1 = msglen)).
Proof.
  intros Hok Hm He Ht. pose proof Hr as [Hr1 _]. pose proof (ok_wf _ _ Hok) as Hwf.
  pose proof (handle_ok_inv _ _ Hok) as Hh. rewrite Hm, He in *. rewrite Hh in Hok |- *.
  split; intros r Hl; (eapply wp_mono;
    [first [by apply (wp_parserr _ _ Hb Hr1 _ _ _ Hwf)|by apply (wp_parserr2 _ _ Hb Hr1 _ _ _ Hwf)]| |]).
  1,3: intros ? [h' r'] H; destruct_and?; naive_solver.
  all: intros ? [h' r'] (? & (? & ? & ? & ->) & _); by split_and!.
Qed.

Lemma reachable_ok h :
  reachable buf msglen h -> exists starts, handle_ok starts h /\ _msg h = buf /\ _eom h = msglen.
Proof.
  pose proof Hr as [Hr1 _].
  induction 1 as [h h' Hc Hs Hrun|tmp0 section rrnum h r o h' r' _ (starts & Hok & Hm & He) Ht Hl Hrun
                 |section rrnum h r o h' r' _ (starts & Hok & Hm & He) Hl Hrun].
  - pose proof (wp_initparse buf msglen Hb Hr1 h Hc Hs) as Hw. unfold wp in Hw. rewrite Hrun in Hw.
    destruct Hw as (starts & Hok & Hm & He & _). by exists starts.
  - destruct (calls_of_handle starts h tmp0 section rrnum Hok Hm He Ht) as [Hw _]. exists starts.
    exact (wp_outcome _ _ _ _ _ _ (fun s => handle_ok starts s.1 /\ _msg s.1 = buf /\ _eom s.1 = msglen) (Hw r Hl) Hrun
      (fun _ _ H => H) (fun _ _ H => H)).
  - destruct (calls_of_handle starts h (replicate 255 0) section rrnum Hok Hm He eq_refl) as [_ Hw]. exists starts.
    exact (wp_outcome _ _ _ _ _ _ (fun s => handle_ok starts s.1 /\ _msg s.1 = buf /\ _eom s.1 = msglen) (Hw r Hl) Hrun
      (fun _ _ H => H) (fun _ _ H => H)).
Qed.
End session.



(** ** Fields and flags *)

Lemma wp_ns_put16 v b0 b1 b :
  wp (ns_put16 v) (b0 :: b1 :: b) (fun _ s => s = u8 (Z.shiftr v 8) :: u8 v :: b) (fun _ _ => False).
Proof.
  pose proof (zlen_nonneg b). unfold ns_put16, put16.
  wp_step. wp_step. wp_step; [rewrite !zlen_cons; lia|].
  wp_step. wp_step; [rewrite zlen_zupd, !zlen_cons; lia|]. by do 2 wp_step.
Qed.

Lemma wp_ns_put32 v b0 b1 b2 b3 b :
  wp (ns_put32 v) (b0 :: b1 :: b2 :: b3 :: b)
     (fun _ s => s = u8 (Z.shiftr v 24) :: u8 (Z.shiftr v 16) :: u8 (Z.shiftr v 8) :: u8 v :: b) (fun _ _ => False).
Proof.
  pose proof (zlen_nonneg b). unfold ns_put32, put32.
  wp_step. wp_step. wp_step; [rewrite !zlen_cons; lia|].
  do 3 (wp_step; wp_step; [rewrite !zlen_zupd, !zlen_cons; lia|]). by do 2 wp_step.
Qed.

Lemma u8_byte v : is_byte (u8 v).
Proof. pose proof (u8_range v). unfold is_byte. lia. Qed.

(** [ns_put16]/[ns_get16] and [ns_put32]/[ns_get32]: what is stored in network
    order is read back, for every 16- and 32-bit value and whatever was in the
    buffer; only the first two, respectively four, octets change. *)
Theorem ns_put_get b v w :
  bytes b -> 4 <= zlen b -> 0 <= v < 2 ^ 16 -> 0 <= w < 2 ^ 32 ->
  wp (ns_put16 v;; b' ← getS; ns_get16 b') b
     (fun x b' => x = v /\ zdrop 2 b' = zdrop 2 b /\ zlen b' = zlen b) (fun _ _ => False) /\
  wp (ns_put32 w;; b' ← getS; ns_get32 b') b
     (fun x b' => x = w /\ zdrop 4 b' = zdrop 4 b /\ zlen b' = zlen b) (fun _ _ => False).
Proof.
  intros Hb Hl Hv Hw. destruct b as [|b0 [|b1 [|b2 [|b3 b]]]]; try (unfold zlen in Hl; cbn in Hl; lia).
  unfold bytes in Hb. rewrite !Forall_cons in Hb. destruct Hb as (_ & _ & Hb2 & Hb3 & Hb).
  pose proof (zlen_nonneg b). pose proof u8_byte as Hu. split; wp_step.
  - eapply wp_conseq; [apply wp_ns_put16|]. intros _ ? ->. do 2 wp_step. unfold ns_get16.
    apply wp_get16; [unfold bytes; rewrite !Forall_cons; by auto 10|done|rewrite !zlen_cons; lia|].
    split_and!; [|done|by rewrite !zlen_cons].
    change (u8 (Z.shiftr v 8) * 256 + u8 v = v). unfold u8. rewrite Z.shiftr_div_pow2 by lia.
    Z.div_mod_to_equations. lia.
  - eapply wp_conseq; [apply wp_ns_put32|]. intros _ ? ->. do 2 wp_step. unfold ns_get32.
    apply wp_get32; [unfold bytes; rewrite !Forall_cons; by auto 10|done|rewrite !zlen_cons; lia|].
    split_and!; [|done|by rewrite !zlen_cons].
    change ((u8 (Z.shiftr w 24) * 256 + u8 (Z.shiftr w 16)) * 65536 + (u8 (Z.shiftr w 8) * 256 + u8 w) = w).
    unfold u8. rewrite !Z.shiftr_div_pow2 by lia. Z.div_mod_to_equations. lia.
Qed.

Lemma ns_put_get_witness :
  wp (ns_put16 0xabcd;; b' ← getS; ns_get16 b') [1; 2; 3; 4; 5]
     (fun x b' => x = 0xabcd /\ zdrop 2 b' = [3; 4; 5] /\ zlen b' = 5) (fun _ _ => False) /\
  wp (ns_put32 0x89abcdef;; b' ← getS; ns_get32 b') [1; 2; 3; 4; 5]
     (fun x b' => x = 0x89abcdef /\ zdrop 4 b' = [5] /\ zlen b' = 5) (fun _ _ => False).
Proof. apply (ns_put_get [1; 2; 3; 4; 5] 0xabcd 0x89abcdef); [by apply bytes_check|by vm_compute|done|done]. Defined.

(** What [ns_msg_getflag] returns, and the header word put together again from
    the ten flags. *)
Definition flag_of (h : ns_msg) (f : Z) : Z :=
  match ns_msg_getflag h f tt with (Ret v, _) => v | _ => -1 end.

Definition flag_shift (f : Z) : Z :=
  match znth _ns_flagdata f with Some (_, shift) => shift | None => 0 end.

Definition recompose (h : ns_msg) : Z :=
  foldr (fun f acc => Z.lor (Z.shiftl (flag_of h f) (flag_shift f)) acc) 0 [0; 1; 2; 3; 4; 5; 6; 7; 8; 9].

Lemma flag_of_eq h f mask shift :
  0 <= _flags h < 2 ^ 16 -> znth _ns_flagdata f = Some (mask, shift) ->
  flag_of h f = Z.shiftr (Z.land (_flags h) mask) shift.
Proof.
  intros Hf Hz. unfold flag_of, ns_msg_getflag, rd, mbind, M_bind. rewrite Hz. cbn.
  assert (Hx : Z.land (_flags h) mask = Z.land (_flags h) mask mod 2 ^ 16).
  { rewrite <- Z.land_ones, <- Z.land_assoc, (Z.land_comm mask), Z.land_assoc, Z.land_ones by done.
    by rewrite (Z.mod_small (_flags h)). }
  pose proof (Z.mod_pos_bound (Z.land (_flags h) mask) (2 ^ 16) eq_refl).
  unfold u32. rewrite Z.mod_small; [done|]. rewrite Hx. lia.
Qed.

(** [ns_msg_getflag] splits the 16 flag bits of the header without overlap or
    gap: every flag is below the size of its field, and the word is put
    together again from the ten flags; an index behind [_ns_flagdata] is an
    access outside the table. *)
Theorem ns_msg_getflag_recompose h :
  0 <= _flags h < 2 ^ 16 ->
  recompose h = _flags h /\
  (forall f, In f [0; 2; 3; 4; 5; 6; 7; 8] -> 0 <= flag_of h f < 2) /\
  0 <= flag_of h 1 < 16 /\ 0 <= flag_of h 9 < 16 /\
  (forall f, 16 <= f -> fst (ns_msg_getflag h f tt) = Undef).
Proof.
  intros Hf.
  assert (Hbits : forall f mask shift n, znth _ns_flagdata f = Some (mask, shift) -> 0 <= shift -> 0 <= n ->
    Z.shiftr mask shift = Z.ones n -> 0 <= flag_of h f < 2 ^ n).
  { intros f mask shift n Hz Hs Hn Hm. rewrite (flag_of_eq h f mask shift) by done.
    rewrite Z.shiftr_land, Hm, Z.land_ones by done. apply Z.mod_pos_bound. lia. }
  refine (conj _ (conj _ (conj _ (conj _ _)))).
  - unfold recompose. cbn [foldr].
    repeat (erewrite flag_of_eq; [|done|reflexivity]).
    repeat (erewrite shift_mask; [|done|reflexivity]).
    rewrite Z.lor_0_r, <- !Z.land_lor_distr_r. change (Z.lor _ _) with (Z.ones 16).
    rewrite Z.land_ones by done. by apply Z.mod_small.
  - intros f Hin. cbn in Hin. change 2 with (2 ^ 1).
    repeat (destruct Hin as [<-|Hin]; [by eapply Hbits|]). done.
  - by eapply (Hbits 1 _ _ 4).
  - by eapply (Hbits 9 _ _ 4).
  - intros f Hge. unfold ns_msg_getflag, rd, mbind, M_bind. rewrite znth_None; [done|right; done].
Qed.

Lemma ns_msg_getflag_recompose_witness :
  0 <= _flags sample_handle < 2 ^ 16 /\
  recompose sample_handle = 0x8180 /\
  (forall f, In f [0; 2; 3; 4; 5; 6; 7; 8] -> 0 <= flag_of sample_handle f < 2) /\
  0 <= flag_of sample_handle 1 < 16 /\ 0 <= flag_of sample_handle 9 < 16 /\
  (forall f, 16 <= f -> fst (ns_msg_getflag sample_handle f tt) = Undef).
Proof. split; [done|]. apply (ns_msg_getflag_recompose sample_handle). done. Defined.
