(* ===== verification/Epoll.v ===== *)
(** * Linux epoll on a BSD kqueue: [epoll-shim/src/epoll.c]

    The kernel is a parameter: a class of its system calls on an abstract
    kernel state, and a class of the documented laws of the calls that the shim
    builds on. Every function of the file is a definition over the system-call
    class; the kernel state is the state of the monad. *)
From S2P Require Import Prelude.

(** ** Constants of <sys/event.h>, <poll.h>, <sys/stat.h> and of the shim's <sys/epoll.h> *)

Definition EV_ADD : Z := 0x1.
Definition EV_DELETE : Z := 0x2.
Definition EV_ENABLE : Z := 0x4.
Definition EV_DISABLE : Z := 0x8.
Definition EV_CLEAR : Z := 0x20.
Definition EV_RECEIPT : Z := 0x40.
Definition EV_OOBAND : Z := 0x2000.
Definition EV_ERROR : Z := 0x4000.
Definition EV_EOF : Z := 0x8000.
Definition EVFILT_READ : Z := -1.
Definition EVFILT_WRITE : Z := -2.
Definition EVFILT_SIGNAL : Z := -6.
Definition EVFILT_USER : Z := -10.
Definition POLLIN : Z := 0x1.
Definition POLLOUT : Z := 0x4.
Definition POLLHUP : Z := 0x10.
Definition O_NONBLOCK : Z := 0x4.
Definition O_CLOEXEC : Z := 0x1000000.

Definition S_ISFIFO (m : Z) : bool := Z.land m 0xf000 =? 0x1000.
Definition S_ISSOCK (m : Z) : bool := Z.land m 0xf000 =? 0xc000.

Definition EPOLL_CLOEXEC : Z := O_CLOEXEC.
Definition EPOLLIN : Z := 0x1.
Definition EPOLLPRI : Z := 0x2.
Definition EPOLLOUT : Z := 0x4.
Definition EPOLLERR : Z := 0x8.
Definition EPOLLHUP : Z := 0x10.
Definition EPOLLRDHUP : Z := 0x2000.
Definition EPOLLET : Z := 0x80000000.
Definition EPOLL_CTL_ADD : Z := 1.
Definition EPOLL_CTL_DEL : Z := 2.
Definition EPOLL_CTL_MOD : Z := 3.

Definition KEY_BITS : Z := 20.
Definition VAL_BITS : Z := 32 - KEY_BITS.

Definition KQUEUE_STATE_REGISTERED : Z := 0x1.
Definition KQUEUE_STATE_EPOLLIN : Z := 0x2.
Definition KQUEUE_STATE_EPOLLOUT : Z := 0x4.
Definition KQUEUE_STATE_EPOLLRDHUP : Z := 0x8.
Definition KQUEUE_STATE_EPOLLPRI : Z := 0x10.
Definition KQUEUE_STATE_ISFIFO : Z := 0x40.
Definition KQUEUE_STATE_ISSOCK : Z := 0x80.

(** ** Data *)

Record kevent_t : Type := EV_SET {
  ident : Z; filter : Z; flags : Z; fflags : Z; data : Z; udata : Z }.

Record epoll_event : Type := EpollEvent { events : Z; ep_data : Z }.

(** ** The kernel *)

(** The system calls. [kevent kq changes nevents timeout] returns the events
    that the kernel stores in the event list; [poll fd events] returns the
    result and [revents] of polling one descriptor without waiting. *)
Class Kernel (K : Type) := {
  kqueue : M K Z;
  kevent : Z -> list kevent_t -> Z -> option (Z * Z) -> M K (list kevent_t);
  fstat : Z -> M K Z;
  poll : Z -> Z -> M K (Z * Z);
  sys_close : Z -> M K Z;
  sys_read : Z -> Z -> M K (Z * list Z)
}.

Section shim.
Context {K : Type} `{Kernel K}.

(** ** The per-descriptor state, kept in EVFILT_USER filters *)

(** [~(((uint32_t)1 << KEY_BITS) - 1)] *)
Definition key_mask : Z := 2 ^ 32 - 2 ^ KEY_BITS.

(** The entries that iteration [i] of the loop of [kqueue_save_state] adds. *)
Definition save_bit (key val i : Z) : list kevent_t :=
  let info_bit := Z.shiftl 1 i in
  let kev_key := Z.lor key (Z.shiftl info_bit KEY_BITS) in
  EV_SET kev_key EVFILT_USER EV_ADD 0 0 0 ::
  (if Z.land val info_bit =? 0 then [EV_SET kev_key EVFILT_USER EV_DELETE 0 0 0] else []).

Definition kqueue_save_state (kq key val : Z) : M K Z :=
  if negb (Z.land key key_mask =? 0) || negb (Z.land val (Z.lnot (2 ^ VAL_BITS - 1)) =? 0)
  then mret (- EINVAL)
  else
    r ← try (kevent kq (mjoin (map (save_bit key val) (seqZ 0 VAL_BITS))) 0 None);
    mret (match r with inl _ => 0 | inr e => - e end).

Definition load_query (key i : Z) : kevent_t :=
  EV_SET (Z.lor key (Z.shiftl (Z.shiftl 1 i) KEY_BITS)) EVFILT_USER EV_RECEIPT 0 0 0.

(** [for (i = 0; i < n; ++i)] over the receipts: [None] for the error return. *)
Fixpoint load_bits (kev : list kevent_t) (i nval : Z) : option Z :=
  match kev with
  | [] => Some nval
  | k :: kev =>
      if Z.land (flags k) EV_ERROR =? 0 then None
      else if data k =? 0 then load_bits kev (i + 1) (u16 (Z.lor nval (Z.shiftl 1 i)))
      else if negb (data k =? ENOENT) then None
      else load_bits kev (i + 1) nval
  end.

(** The result is the returned code and the new value of [*val]. *)
Definition kqueue_load_state (kq key val : Z) : M K (Z * Z) :=
  if negb (Z.land key key_mask =? 0) then mret (- EINVAL, val)
  else
    r ← try (kevent kq (map (load_query key) (seqZ 0 VAL_BITS)) VAL_BITS None);
    mret (match r with
          | inr e => (- e, val)
          | inl kev => match load_bits kev 0 0 with
                       | None => (- EINVAL, val)
                       | Some nval => (0, nval)
                       end
          end).

(** ** epoll_create and epoll_create1 *)

Definition epoll_create (size : Z) : M K Z := kqueue.

Definition epoll_create1 (fl : Z) : M K Z :=
  fail_if (negb (fl =? EPOLL_CLOEXEC)) EINVAL;;
  kqueue.

(** ** epoll_ctl *)

Definition has (x mask : Z) : bool := negb (Z.land x mask =? 0).

(** [SET_FLAG] of the ADD branch: a requested event sets its bit. *)
Definition set_flag (ev mask bit fl : Z) : Z :=
  if has ev mask then u16 (Z.lor fl bit) else fl.

(** [SET_FLAG] of the MOD branch: it also clears the bit otherwise. *)
Definition set_flag_mod (ev mask bit fl : Z) : Z :=
  if has ev mask then u16 (Z.lor fl bit) else u16 (Z.land fl (Z.lnot bit)).

Definition set_flags (f : Z -> Z -> Z -> Z -> Z) (ev fl : Z) : Z :=
  f ev EPOLLPRI KQUEUE_STATE_EPOLLPRI (f ev EPOLLRDHUP KQUEUE_STATE_EPOLLRDHUP
    (f ev EPOLLOUT KQUEUE_STATE_EPOLLOUT (f ev EPOLLIN KQUEUE_STATE_EPOLLIN fl))).

Definition all_events : Z :=
  Z.lor EPOLLIN (Z.lor EPOLLOUT (Z.lor EPOLLHUP (Z.lor EPOLLRDHUP
    (Z.lor EPOLLERR (Z.lor EPOLLPRI EPOLLET))))).

(** The argument check at the head of [epoll_ctl]. *)
Definition ctl_bad_event (op : Z) (ev : option epoll_event) : bool :=
  match ev with
  | None => negb (op =? EPOLL_CTL_DEL)
  | Some e => has (events e) (Z.lnot all_events)
  end.

(** The two changes and the new flags for the operation. *)
Definition ctl_changes (op fd2 fl : Z) (ev : option epoll_event)
    : M K (list kevent_t * Z) :=
  if op =? EPOLL_CTL_ADD then
    match ev with
    | None => undef
    | Some e =>
        let extra := if has (events e) EPOLLET then EV_CLEAR else 0 in
        mret ([EV_SET fd2 EVFILT_READ
                 (Z.lor (Z.lor EV_ADD (if has (events e) EPOLLIN then 0 else EV_DISABLE)) extra)
                 0 0 (ep_data e);
               EV_SET fd2 EVFILT_WRITE
                 (Z.lor (Z.lor EV_ADD (if has (events e) EPOLLOUT then 0 else EV_DISABLE)) extra)
                 0 0 (ep_data e)],
              set_flags set_flag (events e) KQUEUE_STATE_REGISTERED)
    end
  else if op =? EPOLL_CTL_DEL then
    fail_if (negb (has fl KQUEUE_STATE_REGISTERED)) ENOENT;;
    mret ([EV_SET fd2 EVFILT_READ EV_DELETE 0 0 0; EV_SET fd2 EVFILT_WRITE EV_DELETE 0 0 0], 0)
  else if op =? EPOLL_CTL_MOD then
    fail_if (negb (has fl KQUEUE_STATE_REGISTERED)) ENOENT;;
    match ev with
    | None => undef
    | Some e =>
        let extra := if has (events e) EPOLLET then EV_CLEAR else 0 in
        mret ([EV_SET fd2 EVFILT_READ
                 (Z.lor (if has (events e) EPOLLIN then EV_ENABLE else EV_DISABLE) extra)
                 0 0 (ep_data e);
               EV_SET fd2 EVFILT_WRITE
                 (Z.lor (if has (events e) EPOLLOUT then EV_ENABLE else EV_DISABLE) extra)
                 0 0 (ep_data e)],
              set_flags set_flag_mod (events e) fl)
    end
  else fail EINVAL.

(** [kev[i].flags |= EV_RECEIPT] *)
Definition with_receipt (k : kevent_t) : kevent_t :=
  EV_SET (ident k) (filter k) (Z.lor (flags k) EV_RECEIPT) (fflags k) (data k) (udata k).

(** The loop over the receipts of the two changes. *)
Definition check_receipt (i : Z) (k : kevent_t) : M K unit :=
  fail_if (Z.land (flags k) EV_ERROR =? 0) EINVAL;;
  if (i =? 1) && (data k =? EINVAL) then mret tt
  else fail_if (negb (data k =? 0)) (data k).

Fixpoint check_receipts (i : Z) (kev : list kevent_t) : M K unit :=
  match kev with
  | [] => mret tt
  | k :: kev => check_receipt i k;; check_receipts (i + 1) kev
  end.

(** A failed load or save stores its negative code in [errno]. *)
Definition epoll_ctl (fd op fd2 : Z) (ev : option epoll_event) : M K Z :=
  fail_if (ctl_bad_event op ev) EINVAL;;
  fail_if ((fd2 <? 0) || has (u32 fd2) key_mask) EBADF;;
  '(e, fl) ← kqueue_load_state fd fd2 0;
  fail_if (e <? 0) e;;
  '(kev, fl) ← ctl_changes op fd2 fl ev;
  e ← kqueue_save_state fd fd2 fl;
  fail_if (e <? 0) e;;
  kev ← kevent fd (map with_receipt kev) 2 None;
  fail_if (negb (zlen kev =? 2)) EINVAL;;
  check_receipts 0 kev;;
  st_mode ← fstat fd2;
  let fl := if S_ISFIFO st_mode then u16 (Z.lor fl KQUEUE_STATE_ISFIFO)
            else if S_ISSOCK st_mode then u16 (Z.lor fl KQUEUE_STATE_ISSOCK) else fl in
  e ← kqueue_save_state fd fd2 fl;
  fail_if (e <? 0) e;;
  mret 0.

(** ** epoll_wait *)

(** The timeout handed to the kernel; [None] is a wait without limit. *)
Definition wait_timeout (to : Z) : option (Z * Z) :=
  if 0 <=? to then
    Some (if 0 <? to then (to / 1000, (to mod 1000) * 1000 * 1000) else (0, 0))
  else None.

(** What [poll] adds for a socket. *)
Definition poll_events (fl revents ep : Z) : Z :=
  let ep :=
    if has revents POLLHUP then
      let ep := if has fl KQUEUE_STATE_EPOLLIN then Z.lor ep EPOLLIN else ep in
      let ep := if has fl KQUEUE_STATE_EPOLLRDHUP then Z.lor ep EPOLLRDHUP else ep in
      Z.lor ep EPOLLHUP
    else ep in
  let ep := if has revents POLLIN && has fl KQUEUE_STATE_EPOLLIN then Z.lor ep EPOLLIN else ep in
  if has revents POLLOUT && has fl KQUEUE_STATE_EPOLLOUT then Z.lor ep EPOLLOUT else ep.

(** [return -1] without a new [errno] is the error 0. *)
Definition errno_kept : Z := 0.

(** The branch [if (evlist[i].flags & EV_EOF)]: the new [events]. *)
Definition eof_events (fd : Z) (k : kevent_t) (ev : Z) : M K Z :=
  let ev := if negb (fflags k =? 0) then Z.lor ev EPOLLERR else ev in
  '(_, fl) ← kqueue_load_state fd (u32 (ident k)) 0;
  if has fl KQUEUE_STATE_ISFIFO then
    if filter k =? EVFILT_READ then
      let ev := if data k =? 0 then Z.land ev (Z.lnot EPOLLIN) else ev in
      mret (Z.lor ev EPOLLHUP)
    else if filter k =? EVFILT_WRITE then mret (Z.lor ev EPOLLERR)
    else fail errno_kept
  else if has fl KQUEUE_STATE_ISSOCK then
    ep ←
      (if filter k =? EVFILT_READ then
         mret (if has fl KQUEUE_STATE_EPOLLRDHUP then Z.lor EPOLLIN EPOLLRDHUP else EPOLLIN)
       else if filter k =? EVFILT_WRITE then mret EPOLLOUT
       else fail errno_kept);
    p ← try (poll (s32 (ident k)) (Z.lor POLLIN (Z.lor POLLOUT POLLHUP)));
    match p with
    | inl (r, revents) => mret (Z.lor ev (if r =? 1 then poll_events fl revents ep else ep))
    | inr _ => mret (Z.lor ev ep)
    end
  else mret (Z.lor ev EPOLLHUP).

(** The body of the loop over the returned events: [ev[i].events]. *)
Definition wait_event (fd : Z) (k : kevent_t) : M K Z :=
  ev ←
    (if has (flags k) EV_OOBAND then
       '(_, fl) ← kqueue_load_state fd (u32 (ident k)) 0;
       mret (if has fl KQUEUE_STATE_EPOLLPRI then EPOLLPRI else 0)
     else mret 0);
  let ev := if filter k =? EVFILT_READ then Z.lor ev EPOLLIN
            else if filter k =? EVFILT_WRITE then Z.lor ev EPOLLOUT else ev in
  let ev := if has (flags k) EV_ERROR then Z.lor ev EPOLLERR else ev in
  if has (flags k) EV_EOF then eof_events fd k ev else mret ev.

(** The caller's event array is the second part of the state. *)
Definition on_kernel {A} (m : M K A) : M (K * list epoll_event) A :=
  zoom fst (fun k s => (k, snd s)) m.
Definition on_array {A} (m : M (list epoll_event) A) : M (K * list epoll_event) A :=
  zoom snd (fun b s => (fst s, b)) m.

Fixpoint wait_events (fd : Z) (i : Z) (evlist : list kevent_t) : M (K * list epoll_event) unit :=
  match evlist with
  | [] => mret tt
  | k :: evlist =>
      e ← on_kernel (wait_event fd k);
      on_array (wr i (EpollEvent (u32 e) (udata k)));;
      wait_events fd (i + 1) evlist
  end.

Definition epoll_wait (fd cnt to : Z) : M (K * list epoll_event) Z :=
  fail_if (cnt <? 1) EINVAL;;
  let cnt := if 32 <? cnt then 32 else cnt in
  evlist ← on_kernel (kevent fd [] cnt (wait_timeout to));
  wait_events fd 0 evlist;;
  mret (zlen evlist).
End shim.

(** ** The laws of the kernel that the shim relies on *)

Definition user_change (c : kevent_t) : Prop :=
  filter c = EVFILT_USER /\ (flags c = EV_ADD \/ flags c = EV_DELETE).

(** Adding and deleting user filters, and when every deletion finds its filter. *)
Definition apply_change (u : gset Z) (c : kevent_t) : gset Z :=
  if flags c =? EV_ADD then {[ident c]} ∪ u else u ∖ {[ident c]}.

Fixpoint changes_ok (u : gset Z) (l : list kevent_t) : Prop :=
  match l with
  | [] => True
  | c :: l => (flags c = EV_ADD \/ ident c ∈ u) /\ changes_ok (apply_change u c) l
  end.

(** The receipt of a query: zero for an existing user filter. *)
Definition receipt_of (u : gset Z) (c r : kevent_t) : Prop :=
  has (flags r) EV_ERROR = true /\ data r = if decide (ident c ∈ u) then 0 else ENOENT.

(** [user k kq] is the set of user filters of a queue and [mode k fd] the mode
    that fstat reports. The laws are those of kevent(2): changes are applied in
    order, a change with EV_RECEIPT reports its own status, at most [nevents]
    events are returned, user filters change only by changes that name them. *)
Class KernelLaws (K : Type) `{Kernel K} := {
  user : K -> Z -> gset Z;
  mode : K -> Z -> Z;
  law_change kq l k :
    Forall user_change l -> changes_ok (user k kq) l ->
    wp (kevent kq l 0 None) k
       (fun _ k' => user k' kq = foldl apply_change (user k kq) l /\
                    (forall q, q <> kq -> user k' q = user k q) /\ mode k' = mode k)
       (fun e k' => 0 < e /\
                    (forall q i, q <> kq \/ i ∉ map ident l -> i ∈ user k' q <-> i ∈ user k q));
  law_query kq l k :
    Forall (fun c => filter c = EVFILT_USER /\ flags c = EV_RECEIPT) l ->
    wp (kevent kq l (zlen l) None) k
       (fun r k' => Forall2 (receipt_of (user k kq)) l r /\ user k' = user k /\ mode k' = mode k)
       (fun e k' => 0 < e /\ user k' = user k /\ mode k' = mode k);
  law_kevent kq l n t k :
    Forall (fun c => filter c <> EVFILT_USER) l -> 0 < n ->
    wp (kevent kq l n t) k
       (fun r k' => zlen r <= n /\ user k' = user k /\ mode k' = mode k)
       (fun e k' => 0 < e /\ user k' = user k /\ mode k' = mode k);
  law_fstat fd k :
    wp (fstat fd) k (fun m k' => m = mode k fd /\ user k' = user k /\ mode k' = mode k)
       (fun e k' => 0 < e /\ user k' = user k);
  law_poll fd ev k :
    wp (poll fd ev) k (fun _ k' => user k' = user k /\ mode k' = mode k)
       (fun e k' => 0 < e /\ user k' = user k /\ mode k' = mode k)
}.

(** ** The stored state *)

(** The user filter that stands for bit [i] of the state of [key]. *)
Definition state_bit (key i : Z) : Z := Z.lor key (Z.shiftl (Z.shiftl 1 i) KEY_BITS).

Fixpoint weight (bs : list bool) (i : Z) : Z :=
  match bs with
  | [] => 0
  | b :: bs => (if b : bool then 2 ^ i else 0) + weight bs (i + 1)
  end.

Definition stored (u : gset Z) (key : Z) : Z :=
  weight (map (fun i => bool_decide (state_bit key i ∈ u)) (seqZ 0 VAL_BITS)) 0.

Definition key_ok (key : Z) : Prop := 0 <= key < 2 ^ KEY_BITS.

Lemma state_bit_eq key i : 0 <= i -> key_ok key -> state_bit key i = 2 ^ i * 2 ^ KEY_BITS + key.
Proof.
  intros Hi Hk. unfold state_bit. rewrite Z.lor_comm, Z.shiftl_1_l.
  apply lor_shiftl_add; [done|exact Hk].
Qed.

Lemma state_bit_inj key key' i j :
  0 <= i -> 0 <= j -> key_ok key -> key_ok key' ->
  state_bit key i = state_bit key' j -> key = key' /\ i = j.
Proof.
  intros Hi Hj Hk Hk'. rewrite !state_bit_eq by done. unfold key_ok in *. intros E.
  assert (2 ^ i = 2 ^ j /\ key = key') as [E1 ->] by (change (2 ^ KEY_BITS) with 1048576 in *; lia).
  split; [done|]. by apply (Z.pow_inj_r 2) in E1.
Qed.

Lemma weight_bound bs i : 0 <= i -> 0 <= weight bs i <= 2 ^ (i + zlen bs) - 2 ^ i.
Proof.
  revert i. induction bs as [|b bs IH]; intros i Hi; cbn [weight].
  - change (zlen (@nil bool)) with 0. rewrite Z.add_0_r. lia.
  - rewrite zlen_cons. specialize (IH (i + 1) ltac:(lia)).
    replace (i + (zlen bs + 1)) with (i + 1 + zlen bs) by lia.
    rewrite Z.pow_add_r in IH |- * by (pose proof (zlen_nonneg bs); lia).
    rewrite Z.pow_add_r in IH |- * by lia. change (2 ^ 1) with 2 in *.
    pose proof (Z.pow_pos_nonneg 2 i eq_refl Hi). destruct b; lia.
Qed.

Lemma weight_testbits val : 0 <= val < 2 ^ VAL_BITS ->
  weight (map (Z.testbit val) (seqZ 0 VAL_BITS)) 0 = val.
Proof.
  intros Hv.
  assert (H : forallb (fun v => weight (map (Z.testbit v) (seqZ 0 VAL_BITS)) 0 =? v)
                (seqZ 0 (2 ^ VAL_BITS)) = true) by (vm_compute; reflexivity).
  rewrite forallb_forall in H. apply Z.eqb_eq, H, list_elem_of_In, elem_of_seqZ. exact Hv.
Qed.

Lemma stored_range u key : 0 <= stored u key < 2 ^ VAL_BITS.
Proof.
  unfold stored. set (bs := map _ _). pose proof (weight_bound bs 0 ltac:(lia)) as Hw.
  change (zlen bs) with VAL_BITS in Hw. change (2 ^ (0 + VAL_BITS) - 2 ^ 0) with 4095 in Hw.
  change (2 ^ VAL_BITS) with 4096. lia.
Qed.

(** The receipts of a query give the weight of the filters that exist. *)
Lemma load_bits_weight u cs r i nval :
  0 <= i -> i + zlen cs <= 16 -> 0 <= nval < 2 ^ i ->
  Forall2 (receipt_of u) cs r ->
  load_bits r i nval = Some (nval + weight (map (fun c => bool_decide (ident c ∈ u)) cs) i).
Proof.
  intros Hi Hl Hn Hr. revert i nval Hi Hl Hn.
  induction Hr as [|c k cs r [Hf Hd] Hr IH]; intros i nval Hi Hl Hn; cbn [load_bits map weight].
  - by rewrite Z.add_0_r.
  - rewrite zlen_cons in Hl. unfold has in Hf. apply negb_true_iff in Hf. rewrite Hf, Hd.
    pose proof (zlen_nonneg cs). pose proof (Z.pow_pos_nonneg 2 i eq_refl Hi).
    assert (H2 : 2 ^ (i + 1) = 2 * 2 ^ i) by (rewrite Z.pow_add_r by lia; lia).
    destruct (decide (ident c ∈ u)) as [Hin|Hin].
    + rewrite bool_decide_true by done. cbn.
      assert (Hlor : Z.lor nval (Z.shiftl 1 i) = 2 ^ i + nval).
      { rewrite Z.lor_comm, lor_shiftl_add by lia. lia. }
      assert (2 ^ (i + 1) <= 2 ^ 16) by (apply Z.pow_le_mono_r; lia).
      unfold u16. rewrite Hlor, Z.mod_small by lia. rewrite IH by lia. f_equal. lia.
    + rewrite bool_decide_false by done. cbn. rewrite IH by lia. f_equal.
Qed.

(** ** The stored state behaves like a map from descriptors to flags *)

Section state.
Context {K : Type} `{KernelLaws K}.
Implicit Types (k : K).

(** Every other descriptor's state is as it was. *)
Definition others_same (kq key : Z) (k k' : K) : Prop :=
  forall q key', key_ok key' -> q <> kq \/ key' <> key ->
    stored (user k' q) key' = stored (user k q) key'.

Lemma key_mask_ok key : key_ok key -> Z.land key key_mask = 0.
Proof.
  intros Hk. unfold key_mask. change (2 ^ 32 - 2 ^ KEY_BITS) with (Z.shiftl (Z.ones 12) 20).
  apply Z.bits_inj'. intros i Hi. rewrite Z.land_spec, Z.bits_0.
  destruct (Z.lt_ge_cases i 20).
  - rewrite Z.shiftl_spec_low by lia. apply andb_false_r.
  - rewrite <- (Z.mod_small key (2 ^ 20)) by exact Hk. by rewrite Z.mod_pow2_bits_high by lia.
Qed.

Lemma key_mask_bad key : 0 <= key < 2 ^ 32 -> has key key_mask = false <-> key_ok key.
Proof.
  intros Hr. unfold has. rewrite negb_false_iff, Z.eqb_eq. split; [|apply key_mask_ok].
  intros Hm. split; [lia|]. destruct (Z.lt_ge_cases key (2 ^ 20)) as [|Hge]; [done|exfalso].
  assert (Hl : Z.land key key_mask = Z.shiftl (Z.shiftr key 20) 20).
  { apply Z.bits_inj'. intros i Hi. rewrite Z.land_spec.
    change key_mask with (Z.shiftl (Z.ones 12) 20). destruct (Z.lt_ge_cases i 20).
    - rewrite !Z.shiftl_spec_low by lia. apply andb_false_r.
    - rewrite !Z.shiftl_spec by lia. rewrite Z.shiftr_spec by lia.
      replace (i - 20 + 20) with i by lia. destruct (Z.lt_ge_cases i 32).
      + rewrite Z.ones_spec_low by lia. apply andb_true_r.
      + rewrite <- (Z.mod_small key (2 ^ 32)) by lia. by rewrite Z.mod_pow2_bits_high by lia. }
  rewrite Hl, Z.shiftl_mul_pow2, Z.shiftr_div_pow2 in Hm by lia.
  assert (1 <= key / 2 ^ 20) by (apply Z.div_le_lower_bound; lia). lia.
Qed.

Lemma ident_save_bit key val i c : In c (save_bit key val i) -> ident c = state_bit key i.
Proof. unfold save_bit. case_match; cbn; intros; repeat destruct_or!; by subst. Qed.

Lemma save_user key val l : Forall user_change (mjoin (map (save_bit key val) l)).
Proof.
  induction l as [|i l IH]; [constructor|].
  change (mjoin _) with (save_bit key val i ++ mjoin (map (save_bit key val) l)).
  apply Forall_app. split; [|done]. unfold save_bit, user_change.
  case_match; repeat constructor; cbn; tauto.
Qed.

Lemma land_shiftl_1 v i : 0 <= i -> (Z.land v (Z.shiftl 1 i) =? 0) = negb (Z.testbit v i).
Proof.
  intros Hi. assert (Hs : forall j, 0 <= j -> Z.testbit (Z.shiftl 1 i) j = (i =? j)).
  { intros j Hj. rewrite Z.shiftl_1_l, Z.pow2_bits_eqb by lia. done. }
  destruct (Z.testbit v i) eqn:Hv; cbn.
  - apply Z.eqb_neq. intros E. assert (Hb : Z.testbit (Z.land v (Z.shiftl 1 i)) i = true)
      by (rewrite Z.land_spec, Hs, Z.eqb_refl by lia; by rewrite Hv).
    by rewrite E, Z.bits_0 in Hb.
  - apply Z.eqb_eq, Z.bits_inj'. intros j Hj. rewrite Z.land_spec, Hs, Z.bits_0 by lia.
    destruct (Z.eqb_spec i j) as [->|]; [by rewrite Hv|apply andb_false_r].
Qed.

(** The changes of [kqueue_save_state] are legal and leave, of the filters
    they name, exactly those whose bit is set in [val]. *)
Lemma save_changes key val l u :
  key_ok key -> NoDup l -> Forall (fun i => 0 <= i) l ->
  changes_ok u (mjoin (map (save_bit key val) l)) /\
  forall x, x ∈ foldl apply_change u (mjoin (map (save_bit key val) l)) <->
    (exists i, i ∈ l /\ x = state_bit key i /\ Z.testbit val i = true) \/
    (x ∈ u /\ forall i, i ∈ l -> x <> state_bit key i).
Proof.
  intros Hk. revert u. induction l as [|i l IH]; intros u Hnd Hl; [cbn; set_solver|].
  apply NoDup_cons in Hnd as [Hi Hnd]. apply Forall_cons in Hl as [Hi0 Hl].
  change (mjoin _) with (save_bit key val i ++ mjoin (map (save_bit key val) l)).
  rewrite foldl_app.
  set (u1 := foldl apply_change u (save_bit key val i)).
  assert (Hu1 : forall x, x ∈ u1 <-> (x = state_bit key i /\ Z.testbit val i = true) \/
                                     (x ∈ u /\ x <> state_bit key i)).
  { intros x. unfold u1, save_bit, apply_change. rewrite land_shiftl_1 by done.
    fold (state_bit key i).
    destruct (Z.testbit val i); cbn; fold (state_bit key i); destruct (decide (x = state_bit key i)); set_solver. }
  destruct (IH u1 Hnd Hl) as [IH1 IH2]. split.
  - revert IH1. unfold u1, save_bit. case_match; cbn; set_solver.
  - intros x. rewrite IH2. setoid_rewrite elem_of_cons.
    assert (Hne : forall j, j ∈ l -> state_bit key i <> state_bit key j).
    { intros j Hj E. rewrite Forall_forall in Hl. specialize (Hl j Hj).
      apply state_bit_inj in E as [_ ->]; done. }
    rewrite Hu1. split.
    + intros [(j & Hj & -> & Hb)|[[[-> Hb]|[Hx Hn]] Hall]].
      * left. exists j. auto.
      * left. exists i. auto.
      * right. split; [done|]. intros j [->|Hj]; auto.
    + intros [(j & [->|Hj] & -> & Hb)|[Hx Hall]].
      * right. split; [by left|auto].
      * left. exists j. auto.
      * right. split; [right; split; [done|]; apply Hall; by left|]. intros j Hj. apply Hall. by right.
Qed.

Lemma wp_load kq key v0 k :
  key_ok key ->
  wp (kqueue_load_state kq key v0) k
     (fun '(e, v) k' => user k' = user k /\ mode k' = mode k /\
        (e = 0 /\ v = stored (user k kq) key \/ e < 0 /\ v = v0)) (fun _ _ => False).
Proof.
  intros Hk. unfold kqueue_load_state. rewrite key_mask_ok by done. cbn [Z.eqb negb].
  wp_step. wp_step. eapply wp_mono.
  - apply (law_query kq (map (load_query key) (seqZ 0 VAL_BITS))).
    apply Forall_forall. intros c Hc. apply list_elem_of_fmap in Hc as (i & -> & _). done.
  - intros r k' (Hr & Hu & Hm). wp_step.
    pose proof (load_bits_weight (user k kq) (map (load_query key) (seqZ 0 VAL_BITS)) r 0 0 (Z.le_refl 0) ltac:(vm_compute; discriminate)
                  ltac:(vm_compute; split; [discriminate|reflexivity]) Hr) as ->.
    split_and!; [done|done|left]. split; [done|]. by rewrite map_map.
  - intros e k' (He & Hu & Hm). wp_step. split_and!; [done|done|right]. split; [lia|done].
Qed.

Lemma stored_ext u u' key :
  (forall i, 0 <= i < VAL_BITS -> state_bit key i ∈ u' <-> state_bit key i ∈ u) ->
  stored u' key = stored u key.
Proof.
  intros He. unfold stored. f_equal. apply map_ext_in. intros i Hi.
  apply list_elem_of_In, elem_of_seqZ in Hi. apply bool_decide_ext, He. lia.
Qed.

Lemma seqZ_facts : NoDup (seqZ 0 VAL_BITS) /\ Forall (fun i => 0 <= i) (seqZ 0 VAL_BITS).
Proof.
  split; [apply NoDup_seqZ|]. apply Forall_forall. intros i Hi. apply elem_of_seqZ in Hi. lia.
Qed.

Lemma wp_save kq key val k :
  key_ok key -> 0 <= val < 2 ^ VAL_BITS ->
  wp (kqueue_save_state kq key val) k
     (fun e k' => others_same kq key k k' /\
        (e = 0 /\ stored (user k' kq) key = val /\ mode k' = mode k \/ e < 0)) (fun _ _ => False).
Proof.
  intros Hk Hv. unfold kqueue_save_state. rewrite key_mask_ok by done.
  assert (Z.land val (Z.lnot (2 ^ VAL_BITS - 1)) = 0) as ->.
  { change (2 ^ VAL_BITS - 1) with (Z.ones 12). rewrite <- Z.ldiff_land.
    by rewrite Z.ldiff_ones_r, Z.shiftr_div_pow2, Z.div_small by (try lia; exact Hv). }
  cbn [Z.eqb negb orb]. wp_step. wp_step. destruct seqZ_facts as [Hnd Hpos].
  destruct (save_changes key val (seqZ 0 VAL_BITS) (user k kq) Hk Hnd Hpos) as [Hok Hmem].
  eapply wp_mono; [apply law_change; [apply save_user|exact Hok]| |].
  - intros _ k' (Hu & Hq & Hm). wp_step. split.
    + intros q key' Hk' Hne. destruct (decide (q = kq)) as [->|]; [|by rewrite Hq].
      destruct Hne as [|Hne]; [done|]. apply stored_ext. intros i Hi. rewrite Hu, Hmem. split.
      * intros [(j & Hj & E & _)|[? _]]; [|done]. apply elem_of_seqZ in Hj.
        apply state_bit_inj in E as [-> _]; [done|lia|lia|done|done].
      * intros Hin. right. split; [done|]. intros j Hj E. apply elem_of_seqZ in Hj.
        apply state_bit_inj in E as [-> _]; [done|lia|lia|done|done].
    + left. split_and!; [done| |done]. rewrite <- (weight_testbits val Hv). unfold stored. f_equal.
      apply map_ext_in. intros i Hi. apply list_elem_of_In in Hi. pose proof Hi as Hi'.
      apply elem_of_seqZ in Hi'. rewrite Hu. destruct (Z.testbit val i) eqn:Hb.
      * apply bool_decide_eq_true, Hmem. left. by exists i.
      * apply bool_decide_eq_false. rewrite Hmem. intros [(j & Hj & E & Hb')|[_ Hall]].
        -- apply elem_of_seqZ in Hj. apply state_bit_inj in E as [_ ->]; try done; try lia. congruence.
        -- by apply (Hall i).
  - intros e k' (He & Hq). wp_step. split; [|right; lia].
    intros q key' Hk' Hne. apply stored_ext. intros i Hi. apply Hq.
    destruct Hne as [|Hne]; [by left|right]. intros Hin.
    apply list_elem_of_fmap in Hin as (c & Ec & Hc). apply list_elem_of_join in Hc as (l & Hc & Hl).
    apply list_elem_of_fmap in Hl as (j & -> & Hj). apply list_elem_of_In, ident_save_bit in Hc.
    apply elem_of_seqZ in Hj. rewrite Hc in Ec.
    apply state_bit_inj in Ec as [-> _]; [done|lia|lia|done|done].
Qed.
End state.

(** ** The contract of epoll_ctl *)

(** What the stored flags of a descriptor mean: whether it is registered, the
    events asked for, and the kind of file seen at the last [epoll_ctl]. *)
Record interest : Type := Interest {
  in_reg : bool; in_read : bool; in_write : bool; in_rdhup : bool; in_pri : bool;
  in_fifo : bool; in_sock : bool }.

Definition interest_of (fl : Z) : interest :=
  Interest (Z.testbit fl 0) (Z.testbit fl 1) (Z.testbit fl 2) (Z.testbit fl 3) (Z.testbit fl 4)
    (Z.testbit fl 6) (Z.testbit fl 7).

(** The interest after a successful operation on a file of mode [m]. *)
Definition ctl_interest (op : Z) (ev : option epoll_event) (m : Z) (old : interest) : interest :=
  let asks b := match ev with Some e => Z.testbit (events e) b | None => false end in
  let fifo := S_ISFIFO m in
  let sock := S_ISSOCK m in
  if op =? EPOLL_CTL_DEL then Interest false false false false false fifo sock
  else
    let keep := op =? EPOLL_CTL_MOD in
    Interest true (asks 0) (asks 2) (asks 13) (asks 1)
      (fifo || (keep && in_fifo old)) (sock || (keep && in_sock old)).

Lemma fifo_not_sock m : S_ISFIFO m = true -> S_ISSOCK m = false.
Proof. unfold S_ISFIFO, S_ISSOCK. intros ->%Z.eqb_eq. done. Qed.

Lemma has_testbit x i mask : 0 <= i -> mask = Z.shiftl 1 i -> has x mask = Z.testbit x i.
Proof. intros Hi ->. unfold has. rewrite land_shiftl_1 by done. apply negb_involutive. Qed.

(** The flag arithmetic, for the four requests as booleans. *)
Definition add_flags (a b c d : bool) : Z :=
  1 + (if a then 2 else 0) + (if b then 4 else 0) + (if c then 8 else 0) + (if d then 16 else 0).

Definition mod_flags (fl : Z) (a b c d : bool) : Z :=
  add_flags a b c d - 1 + (fl mod 2) + Z.shiftl (Z.shiftr fl 5) 5.

Lemma set_flags_add ev :
  set_flags set_flag ev KQUEUE_STATE_REGISTERED =
  add_flags (Z.testbit ev 0) (Z.testbit ev 2) (Z.testbit ev 13) (Z.testbit ev 1).
Proof.
  unfold set_flags, set_flag.
  rewrite (has_testbit ev 0 EPOLLIN), (has_testbit ev 2 EPOLLOUT), (has_testbit ev 13 EPOLLRDHUP),
    (has_testbit ev 1 EPOLLPRI) by done.
  by destruct (Z.testbit ev 0), (Z.testbit ev 2), (Z.testbit ev 13), (Z.testbit ev 1).
Qed.

(** A property of the 12-bit states that evaluation decides. *)
Lemma state_check (f : Z -> bool) v :
  forallb f (seqZ 0 (2 ^ VAL_BITS)) = true -> 0 <= v < 2 ^ VAL_BITS -> f v = true.
Proof. intros H Hv. rewrite forallb_forall in H. apply H, list_elem_of_In, elem_of_seqZ. lia. Qed.

#[local] Instance interest_eq_dec : EqDecision interest.
Proof. solve_decision. Defined.

(** Storing the kind of the file. *)
Definition with_kind (m fl : Z) : Z :=
  if S_ISFIFO m then u16 (Z.lor fl KQUEUE_STATE_ISFIFO)
  else if S_ISSOCK m then u16 (Z.lor fl KQUEUE_STATE_ISSOCK) else fl.

Definition kind_ok (fl : Z) : bool :=
  let ok g f s := (0 <=? g) && (g <? 2 ^ VAL_BITS) &&
    bool_decide (interest_of g =
      Interest (Z.testbit fl 0) (Z.testbit fl 1) (Z.testbit fl 2) (Z.testbit fl 3) (Z.testbit fl 4)
        (Z.testbit fl 6 || f) (Z.testbit fl 7 || s)) in
  ok (u16 (Z.lor fl KQUEUE_STATE_ISFIFO)) true false &&
  ok (u16 (Z.lor fl KQUEUE_STATE_ISSOCK)) false true && ok fl false false.

Lemma with_kind_spec m fl :
  0 <= fl < 2 ^ VAL_BITS ->
  0 <= with_kind m fl < 2 ^ VAL_BITS /\
  interest_of (with_kind m fl) =
    let i := interest_of fl in
    Interest (in_reg i) (in_read i) (in_write i) (in_rdhup i) (in_pri i)
      (in_fifo i || S_ISFIFO m) (in_sock i || S_ISSOCK m).
Proof.
  intros Hf. assert (Hk : kind_ok fl = true)
    by (apply (state_check kind_ok fl); [vm_compute; reflexivity|exact Hf]).
  unfold kind_ok in Hk. rewrite !andb_true_iff, !bool_decide_eq_true, !Z.leb_le, !Z.ltb_lt in Hk.
  destruct Hk as [[[[Ha Hb] Hc] [[Hd He] Hg]] [[Hh Hi] Hj]].
  unfold with_kind. destruct (S_ISFIFO m) eqn:Hm.
  - rewrite (fifo_not_sock _ Hm). auto.
  - destruct (S_ISSOCK m); auto.
Qed.

(** MOD replaces the four requests and keeps the other bits. *)
Definition mod_ok (fl : Z) : bool :=
  forallb (fun '(a, b, c, d) =>
    let set r bit fl := if r : bool then u16 (Z.lor fl bit) else u16 (Z.land fl (Z.lnot bit)) in
    let g := set d KQUEUE_STATE_EPOLLPRI (set c KQUEUE_STATE_EPOLLRDHUP
               (set b KQUEUE_STATE_EPOLLOUT (set a KQUEUE_STATE_EPOLLIN fl))) in
    (0 <=? g) && (g <? 2 ^ VAL_BITS) &&
    bool_decide (interest_of g =
      Interest (Z.testbit fl 0) a b c d (Z.testbit fl 6) (Z.testbit fl 7)))
  (let bs := [true; false] in a ← bs; b ← bs; c ← bs; d ← bs; [(a, b, c, d)]).

Lemma set_flags_mod ev fl :
  0 <= fl < 2 ^ VAL_BITS ->
  0 <= set_flags set_flag_mod ev fl < 2 ^ VAL_BITS /\
  interest_of (set_flags set_flag_mod ev fl) =
    Interest (Z.testbit fl 0) (Z.testbit ev 0) (Z.testbit ev 2) (Z.testbit ev 13) (Z.testbit ev 1)
      (Z.testbit fl 6) (Z.testbit fl 7).
Proof.
  intros Hf. assert (Hk : mod_ok fl = true)
    by (apply (state_check mod_ok fl); [vm_compute; reflexivity|exact Hf]).
  unfold mod_ok in Hk. rewrite forallb_forall in Hk.
  specialize (Hk (Z.testbit ev 0, Z.testbit ev 2, Z.testbit ev 13, Z.testbit ev 1)).
  unfold set_flags, set_flag_mod.
  rewrite (has_testbit ev 0 EPOLLIN), (has_testbit ev 2 EPOLLOUT), (has_testbit ev 13 EPOLLRDHUP),
    (has_testbit ev 1 EPOLLPRI) by done.
  cbv beta iota zeta in Hk. rewrite !andb_true_iff, bool_decide_eq_true, Z.leb_le, Z.ltb_lt in Hk.
  destruct Hk as [[Ha Hb] Hc]; [|auto].
  destruct (Z.testbit ev 0), (Z.testbit ev 2), (Z.testbit ev 13), (Z.testbit ev 1); cbn; tauto.
Qed.

(** ** epoll_ctl meets the contract *)

Section ctl.
Context {K : Type} `{KernelLaws K}.
Implicit Types (k : K) (ev : option epoll_event).

(** The interest before the kind of the file is stored. *)
Definition ctl_base (op : Z) ev (old : interest) : interest :=
  ctl_interest op ev 0 old.

(** Why [epoll_ctl] refuses an operation after loading the state. *)
Definition ctl_refused (op : Z) (old : interest) (e : Z) : Prop :=
  (e = ENOENT /\ (op = EPOLL_CTL_DEL \/ op = EPOLL_CTL_MOD) /\ in_reg old = false) \/
  (e = EINVAL /\ op <> EPOLL_CTL_ADD /\ op <> EPOLL_CTL_DEL /\ op <> EPOLL_CTL_MOD).

Lemma wp_ctl_changes op fd2 fl ev k :
  ctl_bad_event op ev = false -> 0 <= fl < 2 ^ VAL_BITS ->
  wp (ctl_changes op fd2 fl ev) k
     (fun '(kev, fl') k' => k' = k /\ Forall (fun c => filter c <> EVFILT_USER) kev /\
        0 <= fl' < 2 ^ VAL_BITS /\ interest_of fl' = ctl_base op ev (interest_of fl) /\
        forall e, ~ ctl_refused op (interest_of fl) e)
     (fun e k' => k' = k /\ ctl_refused op (interest_of fl) e).
Proof.
  intros Hev Hf. unfold ctl_changes, ctl_bad_event, ctl_refused in *.
  rewrite (has_testbit fl 0 KQUEUE_STATE_REGISTERED) by done.
  change (in_reg (interest_of fl)) with (Z.testbit fl 0).
  destruct (Z.eqb_spec op EPOLL_CTL_ADD) as [->|Hadd].
  - destruct ev as [e|]; [|done]. wp_step. rewrite set_flags_add.
    split_and!; [done|do 2 (constructor; [done|]); constructor| | | |naive_solver].
    all: unfold ctl_base, ctl_interest; cbn [EPOLL_CTL_ADD EPOLL_CTL_DEL EPOLL_CTL_MOD Z.eqb Pos.eqb].
    all: destruct (Z.testbit (events e) 0), (Z.testbit (events e) 2),
           (Z.testbit (events e) 13), (Z.testbit (events e) 1); vm_compute; first [reflexivity|discriminate].
  - destruct (Z.eqb_spec op EPOLL_CTL_DEL) as [->|Hdel].
    + destruct (Z.testbit fl 0); wp_step; wp_step; [done| |tauto|done].
      wp_step. split_and!; [done|do 2 (constructor; [done|]); constructor|done|done|done|naive_solver].
    + destruct (Z.eqb_spec op EPOLL_CTL_MOD) as [->|Hmod]; [|wp_step; tauto].
      destruct (Z.testbit fl 0) eqn:Hreg; wp_step; wp_step; [done| |tauto|done].
      destruct ev as [e|]; [|done]. wp_step. destruct (set_flags_mod (events e) fl Hf) as [Hr Hi].
      split_and!; [done|do 2 (constructor; [done|]); constructor|lia|lia| |naive_solver].
      rewrite Hi, Hreg. done.
Qed.

Lemma ctl_interest_kind op ev m fl old :
  0 <= fl < 2 ^ VAL_BITS -> interest_of fl = ctl_base op ev old ->
  interest_of (with_kind m fl) = ctl_interest op ev m old.
Proof.
  intros Hf Hi. destruct (with_kind_spec m fl Hf) as [_ ->]. rewrite Hi.
  unfold ctl_base, ctl_interest. destruct (op =? EPOLL_CTL_DEL); cbn; [done|].
  by rewrite (orb_comm _ (S_ISFIFO m)), (orb_comm _ (S_ISSOCK m)).
Qed.

Lemma wp_check_receipts i l k : wp (check_receipts i l) k (fun _ k' => k' = k) (fun _ k' => k' = k).
Proof.
  revert i. induction l as [|c l IH]; intros i; cbn [check_receipts]; [by wp_step|].
  wp_step. unfold check_receipt. wp_step. wp_step; [done|].
  destruct (_ && _); [wp_step; by apply IH|]. wp_step; [done|]. by apply IH.
Qed.

Lemma others_same_trans q key k1 k2 k3 :
  others_same q key k1 k2 -> others_same q key k2 k3 -> others_same q key k1 k3.
Proof. intros H1 H2 q' key' Hk Hne. rewrite H2, H1; done. Qed.

Lemma others_same_user q key k k' : user k' = user k -> others_same q key k k'.
Proof. intros E q' key' _ _. by rewrite E. Qed.

Lemma with_receipt_filter l :
  Forall (fun c => filter c <> EVFILT_USER) l ->
  Forall (fun c => filter c <> EVFILT_USER) (map with_receipt l).
Proof. induction 1; constructor; done. Qed.

Lemma wp_epoll_ctl fd op fd2 ev k :
  let old := interest_of (stored (user k fd) fd2) in
  ctl_bad_event op ev = false -> key_ok fd2 ->
  wp (epoll_ctl fd op fd2 ev) k
     (fun r k' => r = 0 /\ others_same fd fd2 k k' /\
        interest_of (stored (user k' fd) fd2) = ctl_interest op ev (mode k fd2) old /\
        forall e, ~ ctl_refused op old e)
     (fun e k' => others_same fd fd2 k k' /\
        (user k' = user k \/ forall e, ~ ctl_refused op old e)).
Proof.
  cbn zeta. set (old := interest_of _). intros Hev Hk. unfold epoll_ctl. rewrite Hev.
  assert (Hk0 : 0 <= fd2 < 2 ^ 20) by exact Hk.
  assert (((fd2 <? 0) || has (u32 fd2) key_mask) = false) as ->.
  { unfold u32. rewrite Z.mod_small by lia.
    rewrite (proj2 (key_mask_bad fd2 ltac:(lia)) Hk). rewrite orb_false_r. apply Z.ltb_ge. lia. }
  cbn [fail_if]. do 5 wp_step. eapply wp_mono; [by apply wp_load| |done].
  intros [e fl] k1 (Hu1 & Hm1 & He). wp_step. wp_step.
  { split; [by apply others_same_user|by left]. }
  destruct He as [[-> ->]|[He ->]]; [|lia]. wp_step.
  eapply wp_mono; [apply wp_ctl_changes; [done|apply stored_range]| |].
  2: { intros e k' [-> Href]. split; [by apply others_same_user|by left]. }
  intros [kev fl] k2 (-> & Hkev & Hfl & Hint & Hreg). wp_step.
  assert (Hother : forall k', user k' = user k -> others_same fd fd2 k k' /\
            (user k' = user k \/ forall e, ~ ctl_refused op old e))
    by (intros k' Hu; split; [by apply others_same_user|by left]).
  assert (Herr : forall k', others_same fd fd2 k k' -> others_same fd fd2 k k' /\
            (user k' = user k \/ forall e, ~ ctl_refused op old e)) by (intros; split; [done|by right]).
  eapply wp_mono; [by apply wp_save| |done]. intros e k2 [Ho He]. wp_step.
  assert (Ho2 : others_same fd fd2 k k2)
    by (eapply others_same_trans; [by apply others_same_user|exact Ho]).
  wp_step; [by apply Herr|]. destruct He as [(-> & Hst & Hm2)|He]; [|lia]. wp_step.
  eapply wp_mono.
  { apply law_kevent; [by apply with_receipt_filter|lia]. }
  2: { intros e' k' (_ & Hu & _). apply Herr. eapply others_same_trans; [exact Ho2|by apply others_same_user]. }
  intros r k3 (_ & Hu3 & Hm3). wp_step.
  assert (Ho3 : others_same fd fd2 k k3)
    by (eapply others_same_trans; [exact Ho2|by apply others_same_user]).
  wp_step; [by apply Herr|]. wp_step.
  eapply wp_mono; [apply wp_check_receipts| |intros ? ? ->; by apply Herr].
  intros _ ? ->. wp_step. eapply wp_mono; [apply law_fstat| |].
  2: { intros e' k' (_ & Hu4). apply Herr. eapply others_same_trans; [exact Ho3|by apply others_same_user]. }
  intros m k4 (-> & Hu4 & Hm4). wp_step. fold (with_kind (mode k3 fd2) fl).
  eapply wp_mono; [apply wp_save; [done|by apply with_kind_spec]| |done].
  intros e k5 [Ho5 He5]. wp_step.
  assert (Ho' : others_same fd fd2 k k5).
  { eapply others_same_trans; [exact Ho3|]. eapply others_same_trans; [|exact Ho5].
    by apply others_same_user. }
  wp_step; [by apply Herr|]. destruct He5 as [(-> & Hst5 & _)|]; [|lia]. wp_step.
  split_and!; [done|done| |done].
  rewrite Hst5. rewrite Hm3, Hm2, Hm1. by apply ctl_interest_kind.
Qed.
End ctl.

(** ** What epoll_wait reports *)

(** Every bit of [a] is a bit of [m]. *)
Definition within (a m : Z) : Prop := forall n, Z.testbit a n = true -> Z.testbit m n = true.

Lemma within_lor a b m : within a m -> within b m -> within (Z.lor a b) m.
Proof. intros Ha Hb n. rewrite Z.lor_spec, orb_true_iff. intros [?|?]; auto. Qed.

Lemma within_lor_l a m m' : within a m -> within a (Z.lor m m').
Proof. intros Ha n Hn. rewrite Z.lor_spec, (Ha n Hn). done. Qed.

Lemma within_lor_r a m m' : within a m' -> within a (Z.lor m m').
Proof. intros Ha n Hn. rewrite Z.lor_spec, (Ha n Hn). apply orb_true_r. Qed.

Lemma within_0 m : within 0 m.
Proof. intros n. by rewrite Z.bits_0. Qed.

Lemma within_refl m : within m m.
Proof. intros n. done. Qed.

Lemma within_land_l a b m : within a m -> within (Z.land a b) m.
Proof. intros Ha n. rewrite Z.land_spec, andb_true_iff. intros [? _]. auto. Qed.

(** The events that may be reported for the kernel event [c] on a descriptor
    whose stored flags are [fl]. *)
Definition allowed (fl : Z) (c : kevent_t) : Z :=
  Z.lor (Z.lor EPOLLIN EPOLLOUT)
  (Z.lor (if has (flags c) EV_OOBAND && has fl KQUEUE_STATE_EPOLLPRI then EPOLLPRI else 0)
  (Z.lor (if has (flags c) EV_ERROR || has (flags c) EV_EOF then EPOLLERR else 0)
  (Z.lor (if has (flags c) EV_EOF then EPOLLHUP else 0)
         (if has (flags c) EV_EOF && has fl KQUEUE_STATE_ISSOCK && has fl KQUEUE_STATE_EPOLLRDHUP
          then EPOLLRDHUP else 0)))).

Definition rw_filter (c : kevent_t) : Prop := filter c = EVFILT_READ \/ filter c = EVFILT_WRITE.

(** A report is allowed, and never empty. *)
Definition event_ok (fl : Z) (c : kevent_t) (ev : Z) : Prop :=
  within ev (allowed fl c) /\ 0 <= ev /\ (rw_filter c -> 0 < ev).

Lemma lor_pos a b : 0 <= a -> 0 < b -> 0 < Z.lor a b.
Proof.
  intros Ha Hb. assert (0 <= Z.lor a b) by (apply Z.lor_nonneg; lia).
  assert (Z.lor a b <> 0) by (intros [_ ?]%Z.lor_eq_0_iff; lia). lia.
Qed.

Section wait.
Context {K : Type} `{KernelLaws K}.
Implicit Types (k : K).

(** The load of an unknown descriptor or a failed load leaves the flags 0. *)
Lemma wp_load_any kq key k :
  0 <= key < 2 ^ 32 ->
  wp (kqueue_load_state kq key 0) k
     (fun '(_, v) k' => user k' = user k /\ mode k' = mode k /\ (v = stored (user k kq) key \/ v = 0))
     (fun _ _ => False).
Proof.
  intros Hr. destruct (has key key_mask) eqn:Hm.
  - unfold kqueue_load_state. unfold has in Hm. rewrite Hm. wp_step. auto.
  - apply key_mask_bad in Hm; [|done]. eapply wp_conseq; [by apply wp_load|].
    intros [e v] k' (-> & -> & Hv). split_and!; [done|done|]. naive_solver.
Qed.

Lemma within_poll fl revents ep m :
  within ep m -> within EPOLLIN m -> within EPOLLOUT m -> within EPOLLHUP m ->
  (has fl KQUEUE_STATE_EPOLLRDHUP = true -> within EPOLLRDHUP m) ->
  within (poll_events fl revents ep) m.
Proof.
  intros. unfold poll_events. repeat case_match; repeat apply within_lor; auto.
Qed.

Lemma poll_events_pos fl revents ep : 0 < ep -> 0 < poll_events fl revents ep.
Proof.
  intros. unfold poll_events.
  assert (Hl : forall a b, 0 < a -> 0 <= b -> 0 < Z.lor a b) by (intros; rewrite Z.lor_comm; by apply lor_pos).
  repeat case_match; repeat (apply Hl; [|done]); done.
Qed.

Lemma allowed_eof fl c :
  has (flags c) EV_EOF = true ->
  within EPOLLIN (allowed fl c) /\ within EPOLLOUT (allowed fl c) /\
  within EPOLLHUP (allowed fl c) /\ within EPOLLERR (allowed fl c) /\
  (has fl KQUEUE_STATE_ISSOCK = true -> has fl KQUEUE_STATE_EPOLLRDHUP = true ->
   within EPOLLRDHUP (allowed fl c)).
Proof.
  intros He. unfold allowed. rewrite He, orb_true_r. cbn [andb].
  split_and!.
  - apply within_lor_l, within_lor_l, within_refl.
  - apply within_lor_l, within_lor_r, within_refl.
  - do 3 apply within_lor_r. apply within_lor_l, within_refl.
  - do 2 apply within_lor_r. apply within_lor_l, within_refl.
  - intros -> ->. do 4 apply within_lor_r. apply within_refl.
Qed.

Lemma wp_eof_events fd c ev k :
  has (flags c) EV_EOF = true ->
  let fl := stored (user k fd) (u32 (ident c)) in
  within ev (allowed fl c) -> 0 <= ev ->
  wp (eof_events fd c ev) k
     (fun r k' => user k' = user k /\ mode k' = mode k /\ within r (allowed fl c) /\ 0 < r)
     (fun e k' => e = errno_kept /\ user k' = user k /\ ~ rw_filter c).
Proof.
  cbn zeta. set (fl := stored _ _). intros He Hev Hev0.
  destruct (allowed_eof fl c He) as (Hin & Hout & Hhup & Herr & Hrd).
  unfold eof_events, rw_filter. cbn zeta.
  set (ev' := if negb (fflags c =? 0) then Z.lor ev EPOLLERR else ev).
  assert (Hw : within ev' (allowed fl c)) by (unfold ev'; case_match; auto using within_lor).
  assert (Hp : 0 <= ev') by (unfold ev'; case_match; [apply Z.lor_nonneg; done|done]).
  wp_step. eapply wp_mono; [apply wp_load_any, u32_range| |done].
  intros [r v] k1 (Hu1 & Hm1 & Hv). fold fl in Hv. wp_step.
  - destruct (Z.eqb_spec (filter c) EVFILT_READ); [|destruct (Z.eqb_spec (filter c) EVFILT_WRITE)]; wp_step.
    + split_and!; try done.
      * apply within_lor; [case_match; auto using within_land_l|done].
      * apply lor_pos; [case_match; [apply Z.land_nonneg; by left|done]|done].
    + split_and!; try done; [by apply within_lor|by apply lor_pos].
    + split_and!; try done. by intros [?|?].
  - wp_step; [|wp_step; split_and!; try done; [by apply within_lor|by apply lor_pos]].
    destruct Hv as [->| ->]; [|done].
    wp_step. apply (wp_conseq _ _ (fun ep k' => k' = k1 /\ within ep (allowed fl c) /\ 0 < ep)).
    { destruct (Z.eqb_spec (filter c) EVFILT_READ); [|destruct (Z.eqb_spec (filter c) EVFILT_WRITE)]; wp_step.
      - split_and!; [done|case_match; [apply within_lor; auto|auto]|by case_match].
      - done.
      - split_and!; try done. by intros [?|?]. }
    intros ep ? (-> & Hep & Hep0). wp_step. wp_step. eapply wp_mono; [apply law_poll| |].
    + intros [r' rev] k2 (Hu2 & Hm2). wp_step. split_and!; [congruence|congruence| |].
      * apply within_lor; [done|]. case_match; [apply within_poll; auto|done].
      * apply lor_pos; [done|]. case_match; [by apply poll_events_pos|done].
    + intros e k2 (_ & Hu2 & Hm2). wp_step. split_and!; [congruence|congruence| |].
      * by apply within_lor.
      * by apply lor_pos.
Qed.

Lemma wp_wait_event fd c k :
  let fl := stored (user k fd) (u32 (ident c)) in
  wp (wait_event fd c) k
     (fun r k' => user k' = user k /\ event_ok fl c r)
     (fun e k' => e = errno_kept /\ user k' = user k /\ ~ rw_filter c).
Proof.
  cbn zeta. set (fl := stored _ _). unfold wait_event, event_ok. wp_step.
  apply (wp_conseq _ _ (fun ev k' => user k' = user k /\ mode k' = mode k /\
           within ev (allowed fl c) /\ 0 <= ev)).
  { wp_step; [|wp_step; split_and!; try done; apply within_0].
    wp_step. eapply wp_mono; [apply wp_load_any, u32_range| |done].
    intros [e v] k1 (Hu & Hm & Hv). wp_step. split_and!; try done; [|by case_match].
    case_match eqn:Hb; [|apply within_0]. destruct Hv as [->| ->]; [|done].
    unfold allowed. fold fl in Hb. rewrite Hb, Heqb. apply within_lor_r, within_lor_l, within_refl. }
  intros ev0 k1 (Hu & Hm & Hw & Hz). cbn zeta.
  set (ev1 := if filter c =? EVFILT_READ then _ else _).
  assert (Hev1 : within ev1 (allowed fl c) /\ 0 <= ev1 /\ (rw_filter c -> 0 < ev1)).
  { unfold ev1, rw_filter, allowed in *.
    destruct (Z.eqb_spec (filter c) EVFILT_READ); [|destruct (Z.eqb_spec (filter c) EVFILT_WRITE)].
    - split_and!; [|by apply Z.lor_nonneg|intros; by apply lor_pos].
      apply within_lor; [done|]. apply within_lor_l, within_lor_l, within_refl.
    - split_and!; [|by apply Z.lor_nonneg|intros; by apply lor_pos].
      apply within_lor; [done|]. apply within_lor_l, within_lor_r, within_refl.
    - split_and!; [done|done|]. by intros [?|?]. }
  destruct Hev1 as (Hw1 & H10 & H1p).
  set (ev2 := if has (flags c) EV_ERROR then _ else _).
  assert (Hev2 : within ev2 (allowed fl c) /\ 0 <= ev2 /\ (rw_filter c -> 0 < ev2)).
  { unfold ev2. destruct (has (flags c) EV_ERROR) eqn:He; [|done].
    split_and!; [|by apply Z.lor_nonneg|intros; rewrite Z.lor_comm; apply lor_pos; auto; done].
    apply within_lor; [done|]. unfold allowed. rewrite He.
    do 2 apply within_lor_r. apply within_lor_l, within_refl. }
  destruct Hev2 as (Hw2 & H20 & H2p).
  destruct (has (flags c) EV_EOF) eqn:He; [|wp_step; split_and!; done].
  assert (Hfl : stored (user k1 fd) (u32 (ident c)) = fl) by (unfold fl; by rewrite Hu).
  eapply wp_mono.
  - apply wp_eof_events; [done|by rewrite Hfl|done].
  - rewrite Hfl. intros r k' (Hu' & _ & Hr & Hr0). split_and!; [congruence|done|lia|done].
  - intros e k' (? & ? & ?). split_and!; [done|congruence|done].
Qed.
End wait.

Section wait_events.
Context {K : Type} `{KernelLaws K}.
Implicit Types (k : K) (b : list epoll_event).

(** Entry [j] of the event array reports the kernel event [c]. *)
Definition reports (k : K) (fd : Z) (b : list epoll_event) (j : Z) (c : kevent_t) : Prop :=
  exists e, znth b j = Some e /\ ep_data e = udata c /\
    exists ev, events e = u32 ev /\ event_ok (stored (user k fd) (u32 (ident c))) c ev.

Lemma wp_wait_events fd l i k0 k b :
  0 <= i -> i + zlen l <= zlen b -> user k = user k0 ->
  wp (wait_events fd i l) (k, b)
     (fun _ '(k', b') => user k' = user k0 /\ zlen b' = zlen b /\
        (forall j c, znth l j = Some c -> reports k0 fd b' (i + j) c) /\
        (forall j, j < i \/ i + zlen l <= j -> znth b' j = znth b j))
     (fun e '(k', b') => e = errno_kept /\ user k' = user k0 /\ Exists (fun c => ~ rw_filter c) l).
Proof.
  intros Hi Hl Hu. revert i k b Hi Hl Hu. induction l as [|c l IH]; intros i k b Hi Hl Hu; cbn [wait_events].
  { wp_step. split_and!; [done|done| |done].
    intros j c Hj. by rewrite znth_None in Hj by (change (zlen (@nil kevent_t)) with 0; lia). }
  rewrite zlen_cons in Hl. pose proof (zlen_nonneg l). wp_step. apply wp_zoom.
  eapply wp_mono; [apply wp_wait_event| |].
  2: { intros e k' (-> & Hu' & Hf). cbn in Hu'. split_and!; [done|congruence|by constructor]. }
  intros ev k1 (Hu1 & Hev). cbn in *. wp_step. apply wp_zoom. cbn. apply wp_wr; [lia|].
  set (b1 := zupd b i _). assert (Hb1 : zlen b1 = zlen b) by apply zlen_zupd.
  eapply wp_mono; [apply (IH (i + 1) k1 b1); [lia|lia|congruence]| |].
  2: { intros e [k' b'] (-> & Hu' & Hf). split_and!; [done|done|by constructor]. }
  intros _ [k' b'] (Hu' & Hb' & Hrep & Hold). split_and!; [done|congruence| |].
  - intros j c' Hj. pose proof (znth_Some _ _ _ Hj). destruct (decide (j = 0)) as [->|Hj0].
    + rewrite znth_cons_0 in Hj. injection Hj as <-. rewrite Z.add_0_r.
      exists (EpollEvent (u32 ev) (udata c)). rewrite Hold by lia. unfold b1.
      rewrite znth_zupd_eq by lia. rewrite <- Hu. eauto.
    + rewrite znth_cons_S in Hj by lia. replace (i + j) with (i + 1 + (j - 1)) by lia. by apply Hrep.
  - intros j Hj. rewrite zlen_cons in Hj. rewrite Hold by lia. unfold b1. apply znth_zupd_ne. lia.
Qed.
End wait_events.

(** ** A small kernel that satisfies the laws *)

(** The open queues with their user filters, the mode of every descriptor, the
    events that are ready and what poll reports. *)
Record sim : Type := Sim {
  sim_queues : gmap Z (gset Z); sim_mode : Z; sim_ready : list kevent_t; sim_revents : Z }.

Fixpoint sim_changes (u : gset Z) (l : list kevent_t) : option (gset Z) :=
  match l with
  | [] => Some u
  | c :: l =>
      if (flags c =? EV_ADD) || bool_decide (ident c ∈ u) then sim_changes (apply_change u c) l
      else None
  end.

Definition sim_receipt (u : gset Z) (c : kevent_t) : kevent_t :=
  EV_SET (ident c) (filter c) EV_ERROR 0
    (if negb (filter c =? EVFILT_USER) || bool_decide (ident c ∈ u) then 0 else ENOENT) (udata c).

Definition sim_kevent (kq : Z) (l : list kevent_t) (n : Z) (t : option (Z * Z)) : M sim (list kevent_t) :=
  fun s =>
  match sim_queues s !! kq with
  | None => (Err EBADF, s)
  | Some u =>
      if n =? 0 then
        match sim_changes u l with
        | Some u' => (Ret [], Sim (<[kq := u']> (sim_queues s)) (sim_mode s) (sim_ready s) (sim_revents s))
        | None => (Err ENOENT, s)
        end
      else match l with
           | [] => (Ret (ztake n (sim_ready s)), s)
           | _ => (Ret (ztake n (map (sim_receipt u) l)), s)
           end
  end.

#[global] Instance sim_kernel : Kernel sim := {
  kqueue := fun s =>
    let kq := 1 + foldr Z.max 0 (elements (dom (sim_queues s))) in
    (Ret kq, Sim (<[kq := ∅]> (sim_queues s)) (sim_mode s) (sim_ready s) (sim_revents s));
  kevent := sim_kevent;
  fstat := fun _ s => (Ret (sim_mode s), s);
  poll := fun _ _ s => (Ret (1, sim_revents s), s);
  sys_close := fun fd s =>
    (Ret 0, Sim (delete fd (sim_queues s)) (sim_mode s) (sim_ready s) (sim_revents s));
  sys_read := fun _ _ s => (Ret (0, []), s)
}.

Lemma zlen_ztake_le {A} n (l : list A) : 0 <= n -> zlen (ztake n l) <= n.
Proof. intros. unfold zlen, ztake. rewrite length_take. lia. Qed.

Lemma sim_changes_ok u l : Forall user_change l -> changes_ok u l ->
  sim_changes u l = Some (foldl apply_change u l).
Proof.
  intros Hl. revert u. induction Hl as [|c l Hc Hl IH]; intros u Hok; [done|]. cbn in *.
  destruct Hok as [Hin Hok].
  assert ((flags c =? EV_ADD) || bool_decide (ident c ∈ u) = true) as ->.
  { apply orb_true_iff. rewrite Z.eqb_eq, bool_decide_eq_true. tauto. }
  auto.
Qed.

#[global] Instance sim_laws : KernelLaws sim.
Proof.
  refine {| user := fun s kq => default ∅ (sim_queues s !! kq); mode := fun s _ => sim_mode s |}.
  - intros kq l k Hl Hok. unfold wp, kevent; cbn; unfold sim_kevent.
    destruct (sim_queues k !! kq) as [u|] eqn:Hkq; cbn; [|done]. cbn in Hok.
    rewrite (sim_changes_ok u l Hl Hok). cbn.
    split_and!; [by rewrite lookup_insert_eq|intros; by rewrite lookup_insert_ne|done].
  - intros kq l k Hl. unfold wp, kevent; cbn; unfold sim_kevent.
    destruct (sim_queues k !! kq) as [u|] eqn:Hkq; cbn; [|done].
    destruct l as [|c l]; [cbn; split_and!; try done; cbn; rewrite insert_id; done|].
    rewrite (proj2 (Z.eqb_neq (zlen (c :: l)) 0)) by (rewrite zlen_cons; pose proof (zlen_nonneg l); lia).
    cbn. split_and!; [|done|done].
    change (?x :: map ?f l) with (map f (c :: l)). rewrite ztake_ge by (unfold zlen; rewrite length_map; lia).
    induction Hl as [|c' l' [Hf _] Hl IH]; constructor; [|done].
    split; [done|]. cbn. rewrite Hf. cbn. by case_bool_decide; case_decide.
  - intros kq l n t k Hl Hn. unfold wp, kevent; cbn; unfold sim_kevent.
    destruct (sim_queues k !! kq) as [u|] eqn:Hkq; cbn; [|done].
    rewrite (proj2 (Z.eqb_neq n 0)) by lia.
    destruct l; cbn; (split_and!; [apply zlen_ztake_le; lia|done|done]).
  - done.
  - done.
Defined.

(** ** Properties *)

Section properties.
Context {K : Type} `{KernelLaws K}.
Implicit Types (k : K).

(** The user filters of a queue are a store of twelve bits per descriptor:
    after [kqueue_save_state] of a value succeeds, [kqueue_load_state] returns
    that value (or a negative error code that leaves its output alone), and the
    state of every other descriptor and of every other queue is unchanged. *)
Theorem kqueue_state_roundtrip kq key val v0 k :
  key_ok key -> 0 <= val < 2 ^ VAL_BITS ->
  wp (kqueue_save_state kq key val) k
     (fun e k1 =>
        others_same kq key k k1 /\
        (e = 0 ->
         wp (kqueue_load_state kq key v0) k1
            (fun '(e', v) k2 => user k2 = user k1 /\ (e' = 0 /\ v = val \/ e' < 0 /\ v = v0))
            (fun _ _ => False)))
     (fun _ _ => False).
Proof.
  intros Hk Hv. eapply wp_conseq; [by apply wp_save|]. intros e k1 [Ho He]. split; [done|].
  intros ->. destruct He as [(_ & Hst & _)|]; [|lia].
  eapply wp_conseq; [by apply wp_load|]. intros [e' v] k2 (Hu & _ & Hv'). rewrite Hst in Hv'. done.
Qed.



(** The timeout that [epoll_wait] hands to the kernel is a normalised
    timespec of exactly the requested number of milliseconds, and none for a
    negative one. *)
Theorem wait_timeout_correct to :
  match wait_timeout to with
  | None => to < 0
  | Some (s, ns) => 0 <= to /\ 0 <= ns < 1000000000 /\ 0 <= s /\ s * 1000000000 + ns = to * 1000000
  end.
Proof.
  unfold wait_timeout. destruct (Z.leb_spec 0 to); [|lia].
  destruct (Z.ltb_spec 0 to); [|lia]. Z.div_mod_to_equations; lia.
Qed.

(** A failing queue operation inside [epoll_ctl] leaves its negated code in
    [errno]: the caller sees -EBADF, not EBADF, on a bad epoll descriptor. *)
Theorem epoll_ctl_errno_negated fd op fd2 ev k e k1 :
  ctl_bad_event op ev = false -> key_ok fd2 -> 0 < e ->
  kevent fd (map (load_query fd2) (seqZ 0 VAL_BITS)) VAL_BITS None k = (Err e, k1) ->
  epoll_ctl fd op fd2 ev k = (Err (- e), k1).
Proof.
  intros Hev Hk He Hq. unfold epoll_ctl. rewrite Hev.
  assert (Hk0 : 0 <= fd2 < 2 ^ 20) by exact Hk.
  assert (((fd2 <? 0) || has (u32 fd2) key_mask) = false) as ->.
  { unfold u32. rewrite Z.mod_small by lia.
    rewrite (proj2 (key_mask_bad fd2 ltac:(lia)) Hk). rewrite orb_false_r. apply Z.ltb_ge. lia. }
  unfold kqueue_load_state. rewrite key_mask_ok by done.
  unfold try, fail_if, mbind, M_bind, mret, M_ret. cbn [Z.eqb negb]. rewrite Hq.
  by rewrite (proj2 (Z.ltb_lt (- e) 0)) by lia.
Qed.
End properties.

(** A queue 5 without filters and a connected socket at end of file. *)
Definition sim0 : sim := Sim {[5 := ∅]} 0xc1ff [EV_SET 7 EVFILT_READ EV_EOF 0 3 99] POLLHUP.

Lemma kqueue_state_roundtrip_witness :
  key_ok 7 /\
  wp (kqueue_save_state 5 7 0x83) sim0
     (fun e k1 =>
        others_same 5 7 sim0 k1 /\
        (e = 0 ->
         wp (kqueue_load_state 5 7 0) k1
            (fun '(e', v) k2 => user k2 = user k1 /\ (e' = 0 /\ v = 0x83 \/ e' < 0 /\ v = 0))
            (fun _ _ => False)))
     (fun _ _ => False).
Proof.
  assert (Hk : key_ok 7) by (vm_compute; split; [discriminate|reflexivity]).
  split; [exact Hk|]. apply (kqueue_state_roundtrip 5 7 0x83 0 sim0); [exact Hk|].
  vm_compute. split; [discriminate|reflexivity].
Defined.

Definition request : epoll_event := EpollEvent (Z.lor EPOLLIN EPOLLRDHUP) 99.


(** The state after that call, and what [epoll_wait] reports then. *)
Example epoll_run :
  let '(r, k) := epoll_ctl 5 EPOLL_CTL_ADD 7 (Some request) sim0 in
  r = Ret 0 /\
  fst (epoll_wait 5 1 (-1) (k, [EpollEvent 0 0])) = Ret 1 /\
  snd (snd (epoll_wait 5 1 (-1) (k, [EpollEvent 0 0]))) =
    [EpollEvent (Z.lor EPOLLIN (Z.lor EPOLLRDHUP EPOLLHUP)) 99].
Proof. vm_compute. auto. Qed.


Lemma epoll_ctl_errno_negated_witness :
  key_ok 7 /\ epoll_ctl 6 EPOLL_CTL_ADD 7 (Some request) sim0 = (Err (- EBADF), sim0).
Proof.
  assert (Hk : key_ok 7) by (vm_compute; split; [discriminate|reflexivity]).
  split; [exact Hk|].
  apply (epoll_ctl_errno_negated 6 EPOLL_CTL_ADD 7 (Some request) sim0 EBADF sim0);
    [reflexivity|exact Hk|vm_compute; reflexivity|vm_compute; reflexivity].
Defined.
