(* ===== verification/Signalfd.v ===== *)
(** * signalfd and the close and read wrappers: [epoll-shim/src/signalfd.c], [common.c]

    The contexts are never freed: a pointer to one is its creation number, an
    index into the list of all of them, and [signalfd_contexts] links them from
    the newest to the oldest. The mutex is part of the state; locking it twice
    is undefined behaviour (a deadlock), so the theorems exclude it. *)
From S2P Require Import Prelude Epoll.

Definition EAGAIN : Z := 35.
Definition SFD_CLOEXEC : Z := O_CLOEXEC.
Definition SFD_NONBLOCK : Z := O_NONBLOCK.
Definition SIG_MAXSIG : Z := 128.

(** [sizeof(struct signalfd_siginfo)] *)
Definition siginfo_size : Z := 12 * 4 + 4 * 8 + 2 + (128 - 12 * 4 - 4 * 8 - 2).

(** A [struct signalfd_context]; its [next] is the context created before it. *)
Record signalfd_context : Type := Context_ { ctx_fd : Z; ctx_flags : Z }.

(** The process: all contexts in creation order, the mutex, the number of
    callocs that will still succeed, and the kernel. *)
Record process (K : Type) : Type := Process {
  contexts : list signalfd_context; context_mtx : bool; memory : nat; kern : K }.
Arguments Process {K}.
Arguments contexts {K}.
Arguments context_mtx {K}.
Arguments memory {K}.
Arguments kern {K}.

Section shim.
Context {K : Type} `{Kernel K}.

Definition on_kern {A} (m : M K A) : M (process K) A :=
  zoom kern (fun k p => Process (contexts p) (context_mtx p) (memory p) k) m.
Definition on_contexts {A} (m : M (list signalfd_context) A) : M (process K) A :=
  zoom contexts (fun c p => Process c (context_mtx p) (memory p) (kern p)) m.

Definition pthread_mutex_lock : M (process K) unit :=
  p ← getS;
  require (negb (context_mtx p));;
  setS (Process (contexts p) true (memory p) (kern p)).

Definition pthread_mutex_unlock : M (process K) unit :=
  p ← getS;
  require (context_mtx p);;
  setS (Process (contexts p) false (memory p) (kern p)).

(** The search loop, from the context numbered [n - 1] down to the first. *)
Fixpoint find_context (l : list signalfd_context) (fd : Z) (n : nat) : option Z :=
  match n with
  | O => None
  | S n =>
      match l !! n with
      | Some c => if fd =? ctx_fd c then Some (Z.of_nat n) else find_context l fd n
      | None => None
      end
  end.

(** The result is NULL or a context number. *)
Definition get_signalfd_context (fd : Z) (create_new : bool) : M (process K) (option Z) :=
  p ← getS;
  match find_context (contexts p) fd (length (contexts p)) with
  | Some i => mret (Some i)
  | None =>
      if create_new then
        match memory p with
        | O => mret None
        | S mem =>
            setS (Process (contexts p ++ [Context_ (-1) 0]) (context_mtx p) mem (kern p));;
            mret (Some (zlen (contexts p)))
        end
      else mret None
  end.

(** [ctx->fd = fd] and [ctx->flags = flags] *)
Definition set_fd (i fd : Z) : M (process K) unit :=
  on_contexts (c ← rdS i; wr i (Context_ fd (ctx_flags c))).
Definition set_ctx_flags (i fl : Z) : M (process K) unit :=
  on_contexts (c ← rdS i; wr i (Context_ (ctx_fd c) fl)).

Definition signal_changes (sigismember : Z -> bool) : list kevent_t :=
  map (fun i => EV_SET i EVFILT_SIGNAL EV_ADD 0 0 0) (List.filter sigismember (seqZ 1 SIG_MAXSIG)).

(** A signal set is the predicate that sigismember decides. *)
Definition signalfd_impl (fd : Z) (sigs : Z -> bool) (fl : Z) : M (process K) Z :=
  fail_if (negb (fd =? -1)) EINVAL;;
  fail_if (has fl (Z.lnot (Z.lor SFD_NONBLOCK SFD_CLOEXEC))) EINVAL;;
  ctx ← get_signalfd_context (-1) true;
  match ctx with
  | None => fail EMFILE
  | Some i =>
      r ← try (on_kern kqueue);
      match r with
      | inr e => set_fd i (-1);; fail e
      | inl q =>
          set_fd i q;;
          set_ctx_flags i fl;;
          r ← try (on_kern (kevent q (signal_changes sigs) 0 None));
          match r with
          | inr e =>
              r ← try (on_kern (sys_close q));
              set_fd i (-1);;
              fail (match r with inl _ => e | inr e' => e' end)
          | inl _ => mret q
          end
      end
  end.

(** A result that is returned after the mutex is released. *)
Definition returned {A} (r : A + Z) : M (process K) A :=
  match r with inl a => mret a | inr e => fail e end.

Definition signalfd (fd : Z) (sigs : Z -> bool) (fl : Z) : M (process K) Z :=
  pthread_mutex_lock;;
  r ← try (signalfd_impl fd sigs fl);
  pthread_mutex_unlock;;
  returned r.

(** The bytes of a [uint32_t] in memory. *)
Definition le32 (v : Z) : list Z :=
  [v mod 256; v / 2 ^ 8 mod 256; v / 2 ^ 16 mod 256; v / 2 ^ 24 mod 256].

(** The result is the returned length and the bytes stored in [buf]. *)
Definition signalfd_read (i nbytes : Z) : M (process K) (Z * list Z) :=
  c ← on_contexts (rdS i);
  pthread_mutex_unlock;;
  fail_if (negb (nbytes =? siginfo_size)) EINVAL;;
  r ← on_kern (kevent (ctx_fd c) [] 1
                 (if has (ctx_flags c) SFD_NONBLOCK then Some (0, 0) else None));
  match r with
  | [] => fail EAGAIN
  | kev :: _ => mret (nbytes, le32 (u32 (ident kev)) ++ replicate (Z.to_nat (nbytes - 4)) 0)
  end.

Definition signalfd_close (i : Z) : M (process K) (Z + Z) :=
  c ← on_contexts (rdS i);
  r ← try (on_kern (sys_close (ctx_fd c)));
  set_fd i (-1);;
  mret r.

(** ** common.c: the WRAP macro with its two uses *)

Definition epoll_shim_close (fd : Z) : M (process K) Z :=
  if 0 <=? fd then
    pthread_mutex_lock;;
    ctx ← get_signalfd_context fd false;
    match ctx with
    | Some i =>
        r ← signalfd_close i;
        pthread_mutex_unlock;;
        returned r
    | None =>
        pthread_mutex_unlock;;
        on_kern (sys_close fd)
    end
  else on_kern (sys_close fd).

Definition epoll_shim_read (fd nbytes : Z) : M (process K) (Z * list Z) :=
  if 0 <=? fd then
    pthread_mutex_lock;;
    ctx ← get_signalfd_context fd false;
    match ctx with
    | Some i => signalfd_read i nbytes
    | None =>
        pthread_mutex_unlock;;
        on_kern (sys_read fd nbytes)
    end
  else on_kern (sys_read fd nbytes).
End shim.

(** ** The open signal descriptors *)

(** The contexts in use, and the map from descriptors to flags they stand for. *)
Definition live (l : list signalfd_context) : list (Z * Z) :=
  omap (fun c => if ctx_fd c <? 0 then None else Some (ctx_fd c, ctx_flags c)) l.

Definition view (l : list signalfd_context) : gmap Z Z := list_to_map (live l).

#[global] Arguments live : simpl never.
#[global] Arguments view : simpl never.

Lemma live_app l l' : live (l ++ l') = live l ++ live l'.
Proof. apply omap_app. Qed.

(** A context that becomes unused, and one that comes into use. *)
Lemma live_close l i c :
  l !! i = Some c -> 0 <= ctx_fd c ->
  live l ≡ₚ (ctx_fd c, ctx_flags c) :: live (<[i := Context_ (-1) (ctx_flags c)]> l).
Proof.
  intros Hi Hc. rewrite <- (take_drop_middle l i c Hi) at 1.
  rewrite insert_take_drop by (by eapply lookup_lt_Some).
  rewrite !live_app. change (live (?x :: ?l)) with (live ([x] ++ l)). rewrite !live_app.
  unfold live at 2 5. cbn. rewrite (proj2 (Z.ltb_ge _ _)) by done. cbn.
  by rewrite Permutation_middle.
Qed.

Lemma live_open l i fl c fd :
  l !! i = Some c -> ctx_fd c = -1 -> 0 <= fd ->
  live (<[i := Context_ fd fl]> l) ≡ₚ (fd, fl) :: live l.
Proof.
  intros Hi Hc Hfd. rewrite <- (take_drop_middle l i c Hi) at 2.
  rewrite insert_take_drop by (by eapply lookup_lt_Some).
  rewrite !live_app. change (live (?x :: ?l)) with (live ([x] ++ l)). rewrite !live_app.
  unfold live at 2 5. cbn. rewrite Hc. rewrite (proj2 (Z.ltb_ge _ _)) by done. cbn.
  by rewrite Permutation_middle.
Qed.

Lemma live_dead l i c fl :
  l !! i = Some c -> ctx_fd c = -1 -> live (<[i := Context_ (-1) fl]> l) = live l.
Proof.
  intros Hi Hc. rewrite <- (take_drop_middle l i c Hi) at 2.
  rewrite insert_take_drop by (by eapply lookup_lt_Some).
  rewrite !live_app. change (live (?x :: ?l)) with (live ([x] ++ l)). rewrite !live_app.
  unfold live at 2 5. cbn. by rewrite Hc.
Qed.

Lemma find_context_Some l fd n i :
  (n <= length l)%nat -> find_context l fd n = Some i ->
  exists c, 0 <= i /\ l !! Z.to_nat i = Some c /\ ctx_fd c = fd.
Proof.
  induction n as [|n IH]; intros Hn Hf; cbn in Hf; [done|].
  destruct (l !! n) as [c|] eqn:Hl; [|done].
  destruct (Z.eqb_spec fd (ctx_fd c)); [|apply IH; [lia|done]].
  injection Hf as <-. exists c. rewrite Nat2Z.id. split_and!; [lia|done|done].
Qed.

Lemma find_context_None l fd n :
  (n <= length l)%nat -> find_context l fd n = None ->
  forall c, c ∈ take n l -> ctx_fd c <> fd.
Proof.
  induction n as [|n IH]; intros Hn Hf c Hc; [by apply elem_of_nil in Hc|]. cbn in Hf.
  destruct (lookup_lt_is_Some_2 l n ltac:(lia)) as [c' Hl]. rewrite Hl in Hf.
  destruct (Z.eqb_spec fd (ctx_fd c')); [done|].
  rewrite (take_S_r _ _ _ Hl) in Hc. apply elem_of_app in Hc as [Hc|Hc].
  - apply (IH ltac:(lia) Hf c Hc).
  - apply list_elem_of_singleton in Hc as ->. congruence.
Qed.

Lemma view_None l fd : 0 <= fd -> (forall c, c ∈ l -> ctx_fd c <> fd) -> view l !! fd = None.
Proof.
  intros Hfd Hl. unfold view. apply not_elem_of_list_to_map_1. intros Hin.
  apply list_elem_of_fmap in Hin as ([fd' fl] & E & Hin). cbn in E. subst fd'.
  apply list_elem_of_omap in Hin as (c & Hc & Hs).
  destruct (ctx_fd c <? 0); [done|]. injection Hs as Hs _. by apply (Hl c).
Qed.

Lemma view_negative l fd : fd < 0 -> view l !! fd = None.
Proof.
  intros Hfd. unfold view. apply not_elem_of_list_to_map_1. intros Hin.
  apply list_elem_of_fmap in Hin as ([fd' fl] & E & Hin). cbn in E. subst fd'.
  apply list_elem_of_omap in Hin as (c & Hc & Hs).
  destruct (Z.ltb_spec (ctx_fd c) 0); [done|]. injection Hs as Hs _. lia.
Qed.

(** ** The laws of the kernel calls on descriptors *)

(** [opened k] is the set of open descriptors. *)
Class DescriptorLaws (K : Type) `{Kernel K} := {
  opened : K -> gset Z;
  law_kqueue k :
    wp kqueue k (fun fd k' => 0 <= fd /\ (fd ∉ opened k) /\ opened k' = ({[fd]} ∪ opened k))
       (fun e k' => opened k' = opened k);
  law_any_kevent kq l n t k :
    wp (kevent kq l n t) k (fun _ k' => opened k' = opened k) (fun _ k' => opened k' = opened k);
  law_close fd k :
    wp (sys_close fd) k (fun _ k' => opened k' = (opened k ∖ {[fd]}))
       (fun _ k' => opened k' = (opened k ∖ {[fd]}));
  law_read fd n k :
    wp (sys_read fd n) k (fun _ k' => opened k' = opened k) (fun _ k' => opened k' = opened k)
}.

Section inv.
Context {K : Type} `{DescriptorLaws K}.
Implicit Types (p : process K).

(** The contexts in use have different descriptors, these are open, and an
    unused context has the descriptor -1. *)
Definition contexts_ok (l : list signalfd_context) (k : K) : Prop :=
  NoDup (live l).*1 /\ Forall (fun fd => fd ∈ opened k) (live l).*1 /\
  Forall (fun c => -1 <= ctx_fd c) l.

Definition inv p : Prop := context_mtx p = false /\ contexts_ok (contexts p) (kern p).

(** The same while the mutex is held. *)
Definition locked p : Prop := context_mtx p = true /\ contexts_ok (contexts p) (kern p).

Lemma wp_lock p (Q : unit -> process K -> Prop) E :
  inv p ->
  (let p' := Process (contexts p) true (memory p) (kern p) in locked p' -> Q tt p') ->
  wp pthread_mutex_lock p Q E.
Proof.
  intros (Hm & Hl) HQ. unfold pthread_mutex_lock.
  wp_step. wp_step. wp_step. apply wp_require; [by rewrite Hm|]. wp_step. by apply HQ.
Qed.

Lemma wp_unlock p (Q : unit -> process K -> Prop) E :
  locked p ->
  (let p' := Process (contexts p) false (memory p) (kern p) in inv p' -> Q tt p') ->
  wp pthread_mutex_unlock p Q E.
Proof.
  intros (Hm & Hl) HQ. unfold pthread_mutex_unlock.
  wp_step. wp_step. wp_step. apply wp_require; [by rewrite Hm|]. wp_step. by apply HQ.
Qed.

Lemma wp_on_kern {A} (m : M K A) p (Q : A -> process K -> Prop) E :
  wp m (kern p) (fun a k => Q a (Process (contexts p) (context_mtx p) (memory p) k))
     (fun e k => E e (Process (contexts p) (context_mtx p) (memory p) k)) ->
  wp (on_kern m) p Q E.
Proof. intros. unfold on_kern. by apply wp_zoom. Qed.

Lemma rdS_lookup {A} (l : list A) i c (Q : A -> list A -> Prop) E :
  0 <= i -> l !! Z.to_nat i = Some c -> Q c l -> wp (rdS i) l Q E.
Proof.
  intros Hi Hl HQ. unfold rdS. apply (wp_rd l i _ _ _ c); [|done].
  unfold znth. by rewrite (proj2 (Z.ltb_ge i 0)).
Qed.

Lemma wp_wr_lookup {A} (l : list A) i (v c : A) (Q : unit -> list A -> Prop) E :
  0 <= i -> l !! Z.to_nat i = Some c -> Q tt (<[Z.to_nat i := v]> l) -> wp (wr i v) l Q E.
Proof.
  intros Hi Hl HQ. apply lookup_lt_Some in Hl. apply wp_wr; [unfold zlen; lia|].
  unfold zupd. by rewrite (proj2 (Z.ltb_ge i 0)).
Qed.

Lemma wp_set_fd i fd p c (Q : unit -> process K -> Prop) E :
  0 <= i -> contexts p !! Z.to_nat i = Some c ->
  Q tt (Process (<[Z.to_nat i := Context_ fd (ctx_flags c)]> (contexts p)) (context_mtx p) (memory p) (kern p)) ->
  wp (set_fd i fd) p Q E.
Proof.
  intros Hi Hl HQ. unfold set_fd, on_contexts. apply wp_zoom. wp_step.
  apply (rdS_lookup _ _ c); [done..|]. by apply (wp_wr_lookup _ _ _ c).
Qed.

Lemma wp_set_ctx_flags i fl p c (Q : unit -> process K -> Prop) E :
  0 <= i -> contexts p !! Z.to_nat i = Some c ->
  Q tt (Process (<[Z.to_nat i := Context_ (ctx_fd c) fl]> (contexts p)) (context_mtx p) (memory p) (kern p)) ->
  wp (set_ctx_flags i fl) p Q E.
Proof.
  intros Hi Hl HQ. unfold set_ctx_flags, on_contexts. apply wp_zoom. wp_step.
  apply (rdS_lookup _ _ c); [done..|]. by apply (wp_wr_lookup _ _ _ c).
Qed.

(** Looking up a free context: an unused one, or a new one when all are used. *)
Lemma wp_get_new p (Q : option Z -> process K -> Prop) E :
  Q None p ->
  (forall i c p', 0 <= i -> contexts p' !! Z.to_nat i = Some c -> ctx_fd c = -1 ->
     live (contexts p') = live (contexts p) -> kern p' = kern p -> context_mtx p' = context_mtx p ->
     (contexts p' = contexts p \/
      contexts p' = contexts p ++ [Context_ (-1) 0] /\ (forall c, c ∈ contexts p -> ctx_fd c <> -1)) ->
     Q (Some i) p') ->
  wp (get_signalfd_context (-1) true) p Q E.
Proof.
  intros HN HS. unfold get_signalfd_context. wp_step. wp_step.
  destruct (find_context _ _ _) as [i|] eqn:Hf.
  - apply find_context_Some in Hf as (c & Hi & Hl & Hc); [|done]. wp_step. apply (HS i c p); auto.
  - pose proof (find_context_None _ _ _ (le_n _) Hf) as Hall. rewrite firstn_all in Hall.
    destruct (memory p) as [|mem]; [by wp_step|]. wp_step. wp_step. wp_step.
    apply (HS _ (Context_ (-1) 0)); cbn; try done.
    + unfold zlen. lia.
    + unfold zlen. rewrite Nat2Z.id. by apply list_lookup_middle.
    + rewrite live_app. cbn. by rewrite app_nil_r.
    + by right.
Qed.

Lemma wp_get_existing fd p (Q : option Z -> process K -> Prop) E :
  0 <= fd ->
  (view (contexts p) !! fd = None -> Q None p) ->
  (forall i c, 0 <= i -> contexts p !! Z.to_nat i = Some c -> ctx_fd c = fd -> Q (Some i) p) ->
  wp (get_signalfd_context fd false) p Q E.
Proof.
  intros Hfd HN HS. unfold get_signalfd_context. wp_step. wp_step.
  destruct (find_context _ _ _) as [i|] eqn:Hf; wp_step.
  - apply find_context_Some in Hf as (c & Hi & Hl & Hc); [|done]. by apply (HS i c).
  - apply HN, view_None; [done|]. pose proof (find_context_None _ _ _ (le_n _) Hf) as Hall.
    by rewrite firstn_all in Hall.
Qed.

(** Every used context counts in the view, so a list without an unused context
    is as long as the view is large. *)
Lemma size_view l k : contexts_ok l k -> size (view l) = length (live l).
Proof.
  intros (Hnd & _ & _). unfold view. rewrite <- length_map_to_list.
  rewrite (map_to_list_to_map (live l)) by done. done.
Qed.

Lemma live_full l : Forall (fun c => -1 <= ctx_fd c) l -> (forall c, c ∈ l -> ctx_fd c <> -1) ->
  length (live l) = length l.
Proof.
  intros Hl Hne. induction Hl as [|c l Hc Hl IH]; [done|].
  change (live (c :: l)) with (live ([c] ++ l)). rewrite live_app, length_app, IH by set_solver.
  unfold live. cbn. specialize (Hne c ltac:(set_solver)).
  by rewrite (proj2 (Z.ltb_ge _ _)) by lia.
Qed.

(** How many contexts there may be after one more signalfd. *)
Definition room p p' : Prop :=
  (length (contexts p') <= Nat.max (length (contexts p)) (S (size (view (contexts p)))))%nat.

Lemma view_perm l l' : NoDup (live l).*1 -> live l ≡ₚ live l' -> view l = view l'.
Proof. intros Hnd Hp. unfold view. by apply list_to_map_proper. Qed.

Lemma contexts_ok_open l i c fd fl k k' :
  contexts_ok l k -> l !! i = Some c -> ctx_fd c = -1 -> 0 <= fd -> (fd ∉ opened k) ->
  opened k' = ({[fd]} ∪ opened k) ->
  let l' := <[i := Context_ fd fl]> l in
  contexts_ok l' k' /\ view l' = <[fd := fl]> (view l) /\ view l !! fd = None.
Proof.
  cbn zeta. intros (Hnd & Hop & Hfd) Hi Hc Hz Hnew Ho. pose proof (live_open l i fl c fd Hi Hc Hz) as Hp.
  assert (Hout : fd ∉ (live l).*1) by (intros Hin; rewrite Forall_forall in Hop; by apply Hop in Hin).
  assert (Hnd' : NoDup (live (<[i:=Context_ fd fl]> l)).*1) by (rewrite Hp; by constructor).
  split_and!; [split_and!|..].
  - done.
  - rewrite Hp. cbn. rewrite Ho. constructor; [set_solver|].
    eapply Forall_impl; [exact Hop|]. cbn. set_solver.
  - apply Forall_insert; [done|cbn; lia].
  - unfold view. rewrite <- list_to_map_cons. by apply list_to_map_proper.
  - unfold view. by apply not_elem_of_list_to_map_1.
Qed.

Lemma contexts_ok_close l i c fd k k' :
  contexts_ok l k -> l !! i = Some c -> ctx_fd c = fd -> 0 <= fd ->
  opened k' = (opened k ∖ {[fd]}) ->
  let l' := <[i := Context_ (-1) (ctx_flags c)]> l in
  contexts_ok l' k' /\ view l' = delete fd (view l).
Proof.
  cbn zeta. intros (Hnd & Hop & Hfd) Hi <- Hz Ho. pose proof (live_close l i c Hi Hz) as Hp.
  set (l' := <[i:=_]> l) in *.
  assert (Hnd2 : NoDup (ctx_fd c :: (live l').*1)) by (rewrite Hp in Hnd; done).
  apply NoDup_cons in Hnd2 as [Hout Hnd'].
  split_and!; [split_and!|..].
  - done.
  - rewrite Hp in Hop. cbn in Hop. apply Forall_cons in Hop as [_ Hop].
    rewrite Forall_forall in Hop |- *. intros fd Hin. rewrite Ho. specialize (Hop fd Hin). set_solver.
  - apply Forall_insert; [done|cbn; lia].
  - unfold view. rewrite (list_to_map_proper _ _ Hnd Hp). cbn. rewrite delete_insert_id; [done|].
    by apply not_elem_of_list_to_map_1.
Qed.

Lemma contexts_ok_same l k k' : contexts_ok l k -> opened k' = opened k -> contexts_ok l k'.
Proof. intros (Ha & Hb & Hc) Ho. unfold contexts_ok. by rewrite Ho. Qed.

Lemma insert_context (l : list signalfd_context) (i : nat) (c c' : signalfd_context) : l !! i = Some c -> (<[i := c']> l) !! i = Some c'.
Proof. intros Hl. apply lookup_lt_Some in Hl. by apply list_lookup_insert_eq. Qed.

(** What a call may do to the table: nothing, or one more unused context. *)
Definition unchanged p p' : Prop :=
  view (contexts p') = view (contexts p) /\ room p p'.

Lemma room_same p p' : length (contexts p') = length (contexts p) -> room p p'.
Proof. unfold room. lia. Qed.

(** The context that a new descriptor gets. *)
Lemma wp_get_locked p (Q : option Z -> process K -> Prop) E :
  locked p ->
  Q None p ->
  (forall i c p', 0 <= i -> contexts p' !! Z.to_nat i = Some c -> ctx_fd c = -1 ->
     locked p' -> view (contexts p') = view (contexts p) -> room p p' ->
     Q (Some i) p') ->
  wp (get_signalfd_context (-1) true) p Q E.
Proof.
  intros (Hm & Hok) HN HS. pose proof Hok as (Hnd & Hop & Hfd). apply wp_get_new; [done|].
  intros i c p' Hi Hl Hc Hlive Hk Hmtx Hgrow. apply (HS i c); try done.
  - split; [congruence|]. unfold contexts_ok. rewrite Hlive, Hk. split_and!; [done|done|].
    destruct Hgrow as [->|[-> _]]; [done|]. apply Forall_app. split; [done|]. by repeat constructor.
  - unfold view. by rewrite Hlive.
  - destruct Hgrow as [E'|[E' Hall]]; [apply room_same; by rewrite E'|].
    unfold room. rewrite E', length_app, (size_view _ _ Hok), live_full by done. cbn. lia.
Qed.

Lemma wp_signalfd_impl fd sigs fl p :
  locked p ->
  wp (signalfd_impl fd sigs fl) p
     (fun r p' => locked p' /\ 0 <= r /\ view (contexts p) !! r = None /\
        view (contexts p') = <[r := fl]> (view (contexts p)) /\ room p p')
     (fun e p' => locked p' /\ unchanged p p').
Proof.
  intros Hp. unfold signalfd_impl.
  assert (Hsame : locked p /\ unchanged p p) by (split; [done|split; [done|by apply room_same]]).
  wp_step. wp_step; [done|]. wp_step. wp_step; [done|]. wp_step. apply wp_get_locked; [done| |].
  { by wp_step. }
  intros i c p1 Hi Hl Hc Hlk Hv Hroom. wp_step. wp_step. apply wp_on_kern.
  pose proof Hlk as (Hm1 & Hok1). eapply wp_mono; [apply law_kqueue| |].
  - intros q k2 (Hq & Hnew & Ho). wp_step. eapply (wp_set_fd i q _ c); [done|exact Hl|]. cbn.
    wp_step. eapply (wp_set_ctx_flags i fl); [done|cbn; by eapply insert_context|]. cbn.
    rewrite list_insert_insert_eq. wp_step. wp_step. apply wp_on_kern. cbn.
    destruct (contexts_ok_open _ _ c q fl _ k2 Hok1 Hl Hc Hq Hnew Ho) as (Hok2 & Hview & Hnone).
    set (l2 := <[Z.to_nat i:=_]> _) in *.
    assert (Hlen : length l2 = length (contexts p1)) by apply length_insert.
    eapply wp_mono; [apply law_any_kevent| |]; intros e k3 Ho3; wp_step.
    + rewrite <- Hv. split_and!; try done; [split; [done|by eapply contexts_ok_same]|].
      unfold room in *. cbn. lia.
    + wp_step. apply wp_on_kern. cbn.
      eapply wp_mono; [apply law_close| |]; intros e' k4 Ho4.
      all: assert (Hl2 : l2 !! Z.to_nat i = Some (Context_ q fl)) by (by eapply insert_context).
      all: destruct (contexts_ok_close l2 (Z.to_nat i) _ q k3 k4 (contexts_ok_same _ _ _ Hok2 Ho3) Hl2 eq_refl Hq Ho4) as [Hok4 Hv4].
      all: cbn in Hok4, Hv4; wp_step; eapply (wp_set_fd i (-1) _ (Context_ q fl)); [done|exact Hl2|]; cbn; wp_step.
      all: split; [split; done|]; split; cbn.
      all: try (unfold room in *; cbn; rewrite length_insert; lia).
      all: rewrite Hv4, Hview, Hv, delete_insert_id; [done|by rewrite <- Hv].
  - intros e k2 Ho. wp_step. eapply (wp_set_fd i (-1) _ c); [done|exact Hl|]. cbn. wp_step.
    pose proof Hok1 as (Hnd & Hop & Hfd).
    assert (Hdead := live_dead (contexts p1) (Z.to_nat i) c (ctx_flags c) Hl Hc).
    split; [split; [done|]|split; cbn].
    + unfold contexts_ok. cbn. rewrite Hdead, Ho. split_and!; [done|done|].
      apply Forall_insert; [done|cbn; lia].
    + unfold view. rewrite Hdead. done.
    + unfold room in *. cbn. rewrite length_insert. lia.
Qed.

Lemma wp_returned {A} (r : A + Z) p (Q : A -> process K -> Prop) (E : Z -> process K -> Prop) :
  match r with inl a => Q a p | inr e => E e p end -> wp (returned r) p Q E.
Proof. by destruct r. Qed.

Lemma wp_signalfd fd sigs fl p :
  inv p ->
  wp (signalfd fd sigs fl) p
     (fun r p' => inv p' /\ 0 <= r /\ view (contexts p) !! r = None /\
        view (contexts p') = <[r := fl]> (view (contexts p)) /\ room p p')
     (fun e p' => inv p' /\ unchanged p p').
Proof.
  intros Hp. unfold signalfd. wp_step. apply wp_lock; [done|]. intros p1 Hl1. wp_step. wp_step.
  eapply wp_mono; [by apply wp_signalfd_impl| |].
  - intros r p2 (Hlk & Hr & Hn & Hv & Hroom). wp_step. apply wp_unlock; [done|]. intros p3 Hp3.
    apply wp_returned. done.
  - intros e p2 (Hlk & Hu). wp_step. apply wp_unlock; [done|]. intros p3 Hp3.
    apply wp_returned. done.
Qed.

Lemma wp_close fd p :
  inv p ->
  let post p' := inv p' /\ view (contexts p') = delete fd (view (contexts p)) /\
                 length (contexts p') = length (contexts p) in
  wp (epoll_shim_close fd) p (fun _ p' => post p') (fun _ p' => post p').
Proof.
  intros Hp. cbn zeta. unfold epoll_shim_close.
  assert (Hraw : forall p1, inv p1 -> contexts p1 = contexts p -> kern p1 = kern p ->
    (view (contexts p) !! fd = None) ->
    wp (on_kern (sys_close fd)) p1
      (fun _ p' => inv p' /\ view (contexts p') = delete fd (view (contexts p)) /\ length (contexts p') = length (contexts p))
      (fun _ p' => inv p' /\ view (contexts p') = delete fd (view (contexts p)) /\ length (contexts p') = length (contexts p))).
  { intros p1 (Hm & Hnd & Hop & Hfd) Hc Hk Hn. apply wp_on_kern.
    assert (Hpost : forall k', opened k' = (opened (kern p1) ∖ {[fd]}) ->
      contexts_ok (contexts p1) k').
    { intros k' Ho. split_and!; [done| |done]. rewrite Forall_forall in Hop |- *. intros fd' Hin.
      rewrite Ho. specialize (Hop fd' Hin). apply elem_of_difference. split; [done|].
      intros ->%elem_of_singleton. rewrite Hc in Hin. unfold view in Hn.
      by apply not_elem_of_list_to_map_2 in Hn. }
    eapply wp_mono; [apply law_close| |]; intros ? k' Ho; cbn.
    all: rewrite delete_id by done; rewrite Hc; split_and!; try done.
    all: split; [done|]; cbn; rewrite <- Hc; by apply Hpost. }
  destruct (Z.leb_spec 0 fd) as [Hfd|Hfd].
  2: { apply Hraw; try done. by apply view_negative. }
  wp_step. apply wp_lock; [done|]. intros p1 Hl1. wp_step. apply wp_get_existing; [done| |].
  - intros Hn. wp_step. apply wp_unlock; [done|]. intros p2 Hp2. by apply Hraw.
  - intros i c Hi Hl Hc. wp_step. unfold signalfd_close. wp_step. apply wp_zoom.
    eapply rdS_lookup; [done|exact Hl|]. cbn. wp_step. wp_step. apply wp_on_kern. cbn. rewrite Hc.
    eapply wp_mono; [apply law_close| |]; intros r k' Ho.
    all: wp_step; eapply (wp_set_fd i (-1) _ c); [done|exact Hl|]; cbn; wp_step; wp_step.
    all: destruct Hl1 as (_ & Hok1).
    all: destruct (contexts_ok_close _ _ c fd _ k' Hok1 Hl Hc Hfd Ho) as [Hok2 Hv2]; cbn in Hok2, Hv2.
    all: apply wp_unlock; [by split|]; intros p3 Hp3; apply wp_returned; cbn.
    all: split_and!; [done|done|by rewrite length_insert].
Qed.

Lemma wp_signalfd_read i c nbytes p :
  locked p -> 0 <= i -> contexts p !! Z.to_nat i = Some c ->
  let post p' := inv p' /\ contexts p' = contexts p in
  wp (signalfd_read i nbytes) p
     (fun '(n, buf) p' => post p' /\ n = siginfo_size /\ zlen buf = siginfo_size)
     (fun _ p' => post p').
Proof.
  intros Hlk Hi Hl. cbn zeta. unfold signalfd_read. wp_step. apply wp_zoom.
  eapply rdS_lookup; [done|exact Hl|]. destruct p as [cs m mem k]. cbn in *.
  wp_step. apply wp_unlock; [done|]. cbn. intros Hp2. wp_step. wp_step; [done|].
  assert (nbytes = siginfo_size) as -> by (by destruct (Z.eqb_spec nbytes siginfo_size)).
  wp_step. apply wp_on_kern. cbn. destruct Hp2 as (_ & Hok).
  eapply wp_mono; [apply law_any_kevent| |].
  - intros r k' Ho. assert (Hinv : inv (Process cs false mem k'))
      by (split; [done|by eapply contexts_ok_same]).
    destruct r as [|kev r]; wp_step; [done|]. split_and!; [done|done|done|].
    vm_compute. reflexivity.
  - intros e k' Ho. split; [|done]. split; [done|]. by eapply contexts_ok_same.
Qed.

Lemma wp_read fd nbytes p :
  inv p ->
  wp (epoll_shim_read fd nbytes) p
     (fun '(n, buf) p' => inv p' /\ contexts p' = contexts p /\
        (view (contexts p) !! fd <> None -> n = siginfo_size /\ zlen buf = siginfo_size))
     (fun _ p' => inv p' /\ contexts p' = contexts p).
Proof.
  intros Hp. unfold epoll_shim_read.
  assert (Hraw : forall p1, inv p1 -> contexts p1 = contexts p -> (view (contexts p) !! fd = None) ->
    wp (on_kern (sys_read fd nbytes)) p1
      (fun '(n, buf) p' => inv p' /\ contexts p' = contexts p /\
        (view (contexts p) !! fd <> None -> n = siginfo_size /\ zlen buf = siginfo_size))
      (fun _ p' => inv p' /\ contexts p' = contexts p)).
  { intros p1 (Hm & Hok) Hc Hn. apply wp_on_kern. eapply wp_mono; [apply law_read| |].
    - intros [n buf] k' Ho. cbn. split_and!; [|done|done]. split; [done|]. by eapply contexts_ok_same.
    - intros e k' Ho. cbn. split_and!; [|done]. split; [done|]. by eapply contexts_ok_same. }
  destruct (Z.leb_spec 0 fd) as [Hfd|Hfd].
  2: { apply Hraw; try done. by apply view_negative. }
  wp_step. apply wp_lock; [done|]. intros p1 Hl1. wp_step. apply wp_get_existing; [done| |].
  - intros Hn. wp_step. apply wp_unlock; [done|]. intros p2 Hp2. by apply Hraw.
  - intros i c Hi Hl Hc. eapply wp_mono; [by apply (wp_signalfd_read i c)| |].
    + intros [n buf] p' ((Hp' & Hc') & Hn & Hb). done.
    + intros e p' (Hp' & Hc'). done.
Qed.
End inv.

(** ** Properties *)

Section properties.
Context {K : Type} `{DescriptorLaws K}.
Implicit Types (p : process K).

(** C15: The table of contexts implements a map from open signal descriptors to
    their flags: a successful [signalfd] inserts a fresh descriptor, a failed
    one changes nothing, [epoll_shim_close] deletes the descriptor whatever the
    kernel answers, and [epoll_shim_read] of a signal descriptor stores exactly
    one signalfd_siginfo. On every path, errors included, the mutex is taken
    once and released, and the contexts in use have distinct open descriptors. *)
Theorem signalfd_refines_map p :
  inv p ->
  (forall fd sigs fl,
     wp (signalfd fd sigs fl) p
       (fun r p' => inv p' /\ 0 <= r /\ view (contexts p) !! r = None /\
          view (contexts p') = <[r := fl]> (view (contexts p)))
       (fun _ p' => inv p' /\ view (contexts p') = view (contexts p))) /\
  (forall fd,
     wp (epoll_shim_close fd) p
       (fun _ p' => inv p' /\ view (contexts p') = delete fd (view (contexts p)))
       (fun _ p' => inv p' /\ view (contexts p') = delete fd (view (contexts p)))) /\
  (forall fd nbytes,
     wp (epoll_shim_read fd nbytes) p
       (fun '(n, buf) p' => inv p' /\ view (contexts p') = view (contexts p) /\
          (view (contexts p) !! fd <> None -> n = siginfo_size /\ zlen buf = siginfo_size))
       (fun _ p' => inv p' /\ view (contexts p') = view (contexts p))).
Proof.
  intros Hp. split_and!.
  - intros fd sigs fl. eapply wp_mono; [by apply wp_signalfd| |].
    + intros r p' (? & ? & ? & ? & _). done.
    + intros e p' (? & ? & _). done.
  - intros fd. eapply wp_mono; [by apply wp_close| |]; by intros ? ? (? & ? & _).
  - intros fd nbytes. eapply wp_mono; [by apply wp_read| |].
    + intros [n buf] p' (? & -> & ?). done.
    + intros e p' (? & ->). done.
Qed.

(** The calls of a program, and the states they reach from an empty table. The
    index is the largest number of signal descriptors that were open or being
    opened at once. *)
Inductive call : Type :=
  | Signalfd (fd : Z) (sigs : Z -> bool) (fl : Z)
  | Close (fd : Z)
  | Read (fd nbytes : Z).

Definition run (c : call) : M (process K) unit :=
  match c with
  | Signalfd fd sigs fl => _ ← signalfd fd sigs fl; mret tt
  | Close fd => _ ← epoll_shim_close fd; mret tt
  | Read fd n => _ ← epoll_shim_read fd n; mret tt
  end.

Definition demand (c : call) p : nat :=
  match c with Signalfd _ _ _ => S (size (view (contexts p))) | _ => 0 end.

Inductive history : nat -> process K -> Prop :=
  | history_start mem k : history 0 (Process [] false mem k)
  | history_call n p c : history n p -> history (Nat.max n (demand c p)) (snd (run c p)).

Lemma wp_table_run c p :
  inv p ->
  let post p' := inv p' /\ (length (contexts p') <= Nat.max (length (contexts p)) (demand c p))%nat in
  wp (run c) p (fun _ p' => post p') (fun _ p' => post p').
Proof.
  intros Hp. cbn zeta. destruct c as [fd sigs fl|fd|fd n]; cbn [run demand]; wp_step.
  - eapply wp_mono; [by apply wp_signalfd| |].
    + intros r p' (Hi & _ & _ & _ & Hr). wp_step. done.
    + intros e p' (Hi & _ & Hr). done.
  - eapply wp_mono; [by apply wp_close| |].
    + intros r p' (Hi & _ & Hr). wp_step. split; [done|lia].
    + intros e p' (Hi & _ & Hr). split; [done|lia].
  - eapply wp_mono; [by apply wp_read| |].
    + intros [r b] p' (Hi & Hc & _). wp_step. split; [done|rewrite Hc; lia].
    + intros e p' (Hi & Hc). split; [done|rewrite Hc; lia].
Qed.

(** C38: Contexts are reused: in every state that a program reaches, there are
    no more contexts than descriptors were open or being opened at once, the
    invariant holds, and no call deadlocks, accesses a context that does not
    exist or fails to return. *)
Theorem signalfd_contexts_bounded n p :
  history n p ->
  inv p /\ (length (contexts p) <= n)%nat /\
  forall c, match fst (run c p) with Ret _ | Err _ => True | Undef | NoFuel => False end.
Proof.
  intros Hh. assert (Hp : inv p /\ (length (contexts p) <= n)%nat).
  { induction Hh as [mem k|n p c Hh [IH1 IH2]].
    - split; [|cbn; lia]. split; [done|]. unfold contexts_ok. cbn. split_and!; constructor.
    - pose proof (wp_table_run c p IH1) as Hw. cbn zeta in Hw. unfold wp in Hw.
      destruct (run c p) as [[[]|e| |] p']; cbn; try done; destruct Hw; (split; [done|lia]). }
  destruct Hp as [Hp Hl]. split_and!; [done|done|]. intros c.
  pose proof (wp_table_run c p Hp) as Hw. cbn zeta in Hw. unfold wp in Hw.
  by destruct (run c p) as [[[]|e| |] p'].
Qed.
End properties.

(** ** The laws hold of the small kernel *)

Lemma max_above (l : list Z) x : x ∈ l -> x <= foldr Z.max 0 l.
Proof. induction 1 as [|x y l Hx IH]; cbn; lia. Qed.

Lemma max_nonneg (l : list Z) : 0 <= foldr Z.max 0 l.
Proof. induction l; cbn; lia. Qed.

#[global] Instance sim_descriptors : DescriptorLaws sim.
Proof.
  refine {| opened := fun s => dom (sim_queues s) |}.
  - intros k. unfold wp; cbn. set (m := foldr _ _ _). pose proof (max_nonneg (elements (dom (sim_queues k)))).
    split_and!; [lia| |by rewrite dom_insert_L].
    intros Hin%elem_of_elements%max_above. unfold m in Hin. lia.
  - intros kq l n t k. unfold wp, kevent; cbn; unfold sim_kevent.
    destruct (sim_queues k !! kq) as [u|] eqn:Hkq; [|done].
    assert (Hd : forall u', dom (<[kq := u']> (sim_queues k)) = dom (sim_queues k)).
    { intros u'. rewrite dom_insert_L. apply elem_of_dom_2 in Hkq. set_solver. }
    destruct (n =? 0); [|by destruct l]. destruct (sim_changes u l); [|done]. cbn. apply Hd.
  - intros fd k. unfold wp; cbn. by rewrite dom_delete_L.
  - intros fd n k. done.
Defined.

Lemma signalfd_refines_map_witness :
  inv (Process [] false 4 sim0) /\
  wp (signalfd (-1) (fun i => i =? 2) SFD_NONBLOCK) (Process [] false 4 sim0)
     (fun r p' => inv p' /\ 0 <= r /\ view [] !! r = None /\
        view (contexts p') = <[r := SFD_NONBLOCK]> (view []))
     (fun _ p' => inv p' /\ view (contexts p') = view []).
Proof.
  assert (Hi : inv (Process [] false 4 sim0)).
  { split; [reflexivity|]. unfold contexts_ok. cbn. split_and!; constructor. }
  split; [exact Hi|].
  apply (signalfd_refines_map (Process [] false 4 sim0) Hi).
Defined.

Definition sim_history : process sim :=
  snd (run (Close 6) (snd (run (Signalfd (-1) (fun i => i =? 2) 0) (Process [] false 4 sim0)))).

Lemma signalfd_contexts_bounded_witness :
  history 1 sim_history /\ inv sim_history /\ (length (contexts sim_history) <= 1)%nat /\
  forall c, match fst (run c sim_history) with Ret _ | Err _ => True | Undef | NoFuel => False end.
Proof.
  assert (Hh : history 1 sim_history).
  { apply (history_call 1 (snd (run (Signalfd (-1) (fun i => i =? 2) 0) (Process [] false 4 sim0))) (Close 6)).
    apply (history_call 0 (Process [] false 4 sim0) (Signalfd (-1) (fun i => i =? 2) 0)).
    constructor. }
  split; [exact Hh|]. apply (signalfd_contexts_bounded 1 sim_history Hh).
Defined.

(** A descriptor is closed and the next one takes its context. *)
Example signalfd_reuse :
  let p := snd (run (Signalfd (-1) (fun i => i =? 2) 0) sim_history) in
  contexts p = [Context_ 6 0] /\ memory p = 3%nat.
Proof. vm_compute. auto. Qed.
