(* ===== verification/Eglut.v ===== *)
(** * The window toolkit: [eglut/src/eglut.c], [eglut_x11.c] and [xinput.c]

    Xlib and EGL are a parameter: a class of the calls whose answers the code
    uses, and one call for the requests whose answer it ignores. The callbacks of
    the application are a parameter too; a callback may run any computation on
    the state. The state is the [struct eglut_state] with the current window,
    the static variables of [eglut_x11.c], the X server, and the record of the
    callbacks made. [exit] is the error of the monad, with the exit status. *)
From S2P Require Import Prelude CString.
From Stdlib Require Import QArith.

#[global] Open Scope Z_scope.

(** ** Data *)

(** A [double] that an event carries; conversion to [int] truncates. *)
Definition double : Type := Q.
Definition int_of_double (d : double) : Z := Z.quot (Qnum d) (Z.pos (Qden d)).

Record xkey : Type := XKey { k_window : Z; k_keycode : Z; k_time : Z; k_state : Z }.

(** The XInput events; a raw event has the valuator mask length, the bits 0 and
    1 of the mask, and the raw values. *)
Inductive xi_event : Type :=
  | XI_RawMotion (mask_len : Z) (bit0 bit1 : bool) (raw_values : list double)
  | XI_Motion (event_x event_y : double)
  | XI_ButtonPress (event_x event_y : double) (detail : Z)
  | XI_ButtonRelease (event_x event_y : double) (detail : Z)
  | XI_TouchBegin (detail : Z) (event_x event_y : double)
  | XI_TouchUpdate (detail : Z) (event_x event_y : double)
  | XI_TouchEnd (detail : Z) (event_x event_y : double)
  | XI_Other.

Inductive xevent : Type :=
  | Expose
  | ConfigureNotify (x y width height border_width : Z)
  | GenericEvent (extension : Z) (evtype : xi_event)
  | KeyPress (k : xkey)
  | KeyRelease (k : xkey)
  | MotionNotify (x y : Z)
  | ButtonPress (x y button : Z)
  | ButtonRelease (x y button : Z)
  | FocusIn (mode : Z)
  | FocusOut (mode : Z)
  | ClientMessage (message_type l0 l1 l2 l3 l4 : Z)
  | SelectionRequest (requestor selection target property time : Z)
  | SelectionNotify (requestor property target : Z)
  | OtherEvent.

Definition NotifyNormal : Z := 0.
Definition NotifyWhileGrabbed : Z := 3.

Definition EGLUT_KEY_PRESS : Z := 0.
Definition EGLUT_KEY_RELEASE : Z := 1.
Definition EGLUT_KEY_REPEAT : Z := 2.
Definition EGLUT_MOUSE_PRESS : Z := 0.
Definition EGLUT_MOUSE_RELEASE : Z := 1.
Definition EGLUT_POINTER_INVISIBLE : Z := 0.
Definition EGLUT_POINTER_VISIBLE : Z := 1.
Definition EGLUT_POINTER_LOCKED : Z := 1.
Definition EGLUT_WINDOWED : Z := 0.
Definition EGLUT_FULLSCREEN : Z := 1.
Definition EGLUT_NOT_FOCUSED : Z := 0.
Definition EGLUT_FOCUSED : Z := 1.

(** The callbacks with their arguments. A byte of a buffer that was never
    written is [None]. *)
Inductive callback : Type :=
  | reshape_cb (w h : Z)
  | display_cb
  | keyboard_cb (buffer : list (option Z)) (type : Z)
  | drop_cb (path : list Z)
  | special_cb (key type : Z) (modifiers : Z)
  | paste_cb (text : list Z) (len : Z)
  | mouse_cb (x y : Z)
  | mouse_raw_cb (x y : double)
  | mouse_button_cb (x y button action : Z)
  | touch_start_cb (id : Z) (x y : double)
  | touch_update_cb (id : Z) (x y : double)
  | touch_end_cb (id : Z) (x y : double)
  | focus_cb (focused : Z)
  | close_cb
  | idle_cb.

(** Which callbacks are not NULL. *)
Record callbacks : Type := Callbacks {
  has_reshape : bool; has_display : bool; has_keyboard : bool; has_drop : bool;
  has_special : bool; has_paste : bool; has_mouse : bool; has_mouse_raw : bool;
  has_mouse_button : bool; has_touch_start : bool; has_touch_update : bool;
  has_touch_end : bool; has_focus : bool; has_close : bool; has_idle : bool }.

(** The X and EGL calls whose answer the code does not use. A client message is
    sent to a window, or to the root window. *)
Inductive request : Type :=
  | XWarpPointer (window x y : Z)
  | XSetInputFocus (window : Z)
  | XFlush
  | XDefineEmptyCursor (window : Z)
  | XGrabPointer (window : Z)
  | XUndefineCursor (window : Z)
  | XUngrabPointer
  | XIGrabDevice (device window : Z)
  | XIUngrabDevice (device : Z)
  | XSendClientMessage (destination : option Z) (window message_type l0 l1 l2 l3 l4 : Z)
  | XSendSelectionNotify (requestor selection target property time : Z)
  | XConvertSelection (selection target property window time : Z)
  | XChangeProperty (window property type : Z) (data : list Z)
  | XSetSelectionOwner (selection window : Z)
  | XMapWindow (window : Z)
  | XDestroyWindow (window : Z)
  | XCloseDisplay
  | eglMakeCurrentNone
  | eglDestroySurface
  | eglDestroyContext
  | eglTerminate.

(** Xlib. [Xutf8LookupString key size] returns the length of the text, the
    bytes it stored and whether the status is XBufferOverflow;
    [XGetWindowProperty] the status and the items, [None] for a NULL pointer;
    [XIQueryDevice] the master devices as (device, is a pointer). *)
Class Xlib (X : Type) := {
  XPending : M X Z;
  XNextEvent : M X xevent;
  XFilterEvent : xevent -> M X bool;
  Xutf8LookupString : xkey -> Z -> M X (Z * list Z * bool);
  XLookupKeysym : xkey -> M X Z;
  XEventsQueued : M X Z;
  XPeekEvent : M X xevent;
  XInternAtom : list Z -> M X Z;
  XGetEventData : M X bool;
  XGetWindowProperty : Z -> Z -> M X (Z * option (list Z));
  XGetSelectionOwner : Z -> M X Z;
  XIQueryDevice : M X (list (Z * bool));
  send : request -> M X unit
}.

(** The atoms that [_eglutNativeInitWindow] interns. *)
Record atoms : Type := Atoms {
  XdndDrop : Z; XdndTypeList : Z; XdndSelection : Z; XdndEnter : Z; XdndPosition : Z;
  XdndStatus : Z; XdndFinished : Z; XdndActionCopy : Z; XtextUriList : Z }.

(** The current window, the display and the static variables. *)
Record eglut_state : Type := Eglut {
  native_dpy : bool;
  window : Z; win_index : Z; win_x : Z; win_y : Z; win_width : Z; win_height : Z;
  keyboardstate : Z;
  cbs : callbacks;
  window_fullscreen : Z;
  redisplay : Z;
  xinput_available : bool; xinput_opcode : Z;
  rel_enabled : Z; rel_x : Z; rel_y : Z; rel_raw : Z;
  cursor_grabbed : Z;
  clipboard : list Z;
  atom : atoms;
  dnd_source : Z; dnd_version : Z; dnd_format : Z }.

Record world (X : Type) : Type := World { eg : eglut_state; xs : X; calls : list callback }.
Arguments World {X}.
Arguments eg {X}.
Arguments xs {X}.
Arguments calls {X}.

(** Field updates. *)
Definition set_native_dpy (b : bool) (e : eglut_state) : eglut_state :=
  Eglut b (window e) (win_index e) (win_x e) (win_y e) (win_width e) (win_height e)
    (keyboardstate e) (cbs e) (window_fullscreen e) (redisplay e) (xinput_available e)
    (xinput_opcode e) (rel_enabled e) (rel_x e) (rel_y e) (rel_raw e) (cursor_grabbed e)
    (clipboard e) (atom e) (dnd_source e) (dnd_version e) (dnd_format e).
Definition set_geometry (x y w h : Z) (e : eglut_state) : eglut_state :=
  Eglut (native_dpy e) (window e) (win_index e) x y w h
    (keyboardstate e) (cbs e) (window_fullscreen e) (redisplay e) (xinput_available e)
    (xinput_opcode e) (rel_enabled e) (rel_x e) (rel_y e) (rel_raw e) (cursor_grabbed e)
    (clipboard e) (atom e) (dnd_source e) (dnd_version e) (dnd_format e).
Definition set_fullscreen (f : Z) (e : eglut_state) : eglut_state :=
  Eglut (native_dpy e) (window e) (win_index e) (win_x e) (win_y e) (win_width e) (win_height e)
    (keyboardstate e) (cbs e) f (redisplay e) (xinput_available e)
    (xinput_opcode e) (rel_enabled e) (rel_x e) (rel_y e) (rel_raw e) (cursor_grabbed e)
    (clipboard e) (atom e) (dnd_source e) (dnd_version e) (dnd_format e).
Definition set_redisplay (r : Z) (e : eglut_state) : eglut_state :=
  Eglut (native_dpy e) (window e) (win_index e) (win_x e) (win_y e) (win_width e) (win_height e)
    (keyboardstate e) (cbs e) (window_fullscreen e) r (xinput_available e)
    (xinput_opcode e) (rel_enabled e) (rel_x e) (rel_y e) (rel_raw e) (cursor_grabbed e)
    (clipboard e) (atom e) (dnd_source e) (dnd_version e) (dnd_format e).
Definition set_rel (enabled x y raw : Z) (e : eglut_state) : eglut_state :=
  Eglut (native_dpy e) (window e) (win_index e) (win_x e) (win_y e) (win_width e) (win_height e)
    (keyboardstate e) (cbs e) (window_fullscreen e) (redisplay e) (xinput_available e)
    (xinput_opcode e) enabled x y raw (cursor_grabbed e)
    (clipboard e) (atom e) (dnd_source e) (dnd_version e) (dnd_format e).
Definition set_last (x y : Z) (e : eglut_state) : eglut_state :=
  set_rel (rel_enabled e) x y (rel_raw e) e.
Definition set_grabbed (g : Z) (e : eglut_state) : eglut_state :=
  Eglut (native_dpy e) (window e) (win_index e) (win_x e) (win_y e) (win_width e) (win_height e)
    (keyboardstate e) (cbs e) (window_fullscreen e) (redisplay e) (xinput_available e)
    (xinput_opcode e) (rel_enabled e) (rel_x e) (rel_y e) (rel_raw e) g
    (clipboard e) (atom e) (dnd_source e) (dnd_version e) (dnd_format e).
Definition set_clipboard (c : list Z) (e : eglut_state) : eglut_state :=
  Eglut (native_dpy e) (window e) (win_index e) (win_x e) (win_y e) (win_width e) (win_height e)
    (keyboardstate e) (cbs e) (window_fullscreen e) (redisplay e) (xinput_available e)
    (xinput_opcode e) (rel_enabled e) (rel_x e) (rel_y e) (rel_raw e) (cursor_grabbed e)
    c (atom e) (dnd_source e) (dnd_version e) (dnd_format e).
Definition set_dnd (source version format : Z) (e : eglut_state) : eglut_state :=
  Eglut (native_dpy e) (window e) (win_index e) (win_x e) (win_y e) (win_width e) (win_height e)
    (keyboardstate e) (cbs e) (window_fullscreen e) (redisplay e) (xinput_available e)
    (xinput_opcode e) (rel_enabled e) (rel_x e) (rel_y e) (rel_raw e) (cursor_grabbed e)
    (clipboard e) (atom e) source version format.

(** ** Dropped files: the URI list *)

(** The bytes of ["file://"] and ["\r\n"] with its terminator. *)
Definition file_prefix : list Z := [102; 105; 108; 101; 58; 47; 47].
Definition crlf : list Z := [13; 10; 0].

Definition hex_value (c : Z) : option Z :=
  if (48 <=? c) && (c <=? 57) then Some (c - 48)
  else if (65 <=? c) && (c <=? 70) then Some (c - 55)
  else if (97 <=? c) && (c <=? 102) then Some (c - 87)
  else None.

(** [strtol] in base 16 of a string of two characters. *)
Definition strtol16 (a b : Z) : Z :=
  match hex_value a with
  | Some x => match hex_value b with Some y => 16 * x + y | None => x end
  | None =>
      let y := default 0 (hex_value b) in
      if isspace a || (a =? 43) then y else if a =? 45 then - y else 0
  end.

(** [strncmp(line, prefix, strlen(prefix)) == 0] *)
Fixpoint starts_with {S} (b : list Z) (line : Z) (prefix : list Z) : M S bool :=
  match prefix with
  | [] => mret true
  | p :: prefix =>
      c ← rd b line;
      if c =? p then starts_with b (line + 1) prefix else mret false
  end.

(** [while ( *line != '/') line++;] *)
Definition slash_step {S} (b : list Z) (line : Z) : M S (step Z Z) :=
  c ← rd b line;
  if c =? 47 then mret (Done line) else mret (Next (line + 1)).

(** One iteration of [while ( *line)]; the buffer [path] points into is the state. *)
Definition decode_step (b : list Z) '((line, path) : Z * Z) : M (list Z) (step (Z * Z) unit) :=
  c ← rd b line;
  if c =? 0 then mret (Done tt)
  else
    c1 ← (if c =? 37 then rd b (line + 1) else mret 0);
    c2 ← (if negb (c1 =? 0) then rd b (line + 2) else mret 0);
    if negb (c2 =? 0) then
      wr path (u8 (strtol16 c1 c2));;
      mret (Next (line + 3, path + 1))
    else
      wr path c;;
      mret (Next (line + 1, path + 1)).

(** The string that a buffer holds. *)
Fixpoint c_string (b : list Z) : list Z :=
  match b with
  | [] => []
  | c :: b => if c =? 0 then [] else c :: c_string b
  end.

(** The path that [calloc(strlen(line) + 1, 1)] and the loop produce. *)
Definition decode_path {S} (b : list Z) (line n : Z) : M S (option (list Z)) := fun s =>
  match loop (Datatypes.S (length b)) (decode_step b) (line, 0) (replicate (Z.to_nat (n + 1)) 0) with
  | (Ret _, path) => (Ret (Some (c_string path)), s)
  | (Err e, _) => (Err e, s)
  | (Undef, _) => (Undef, s)
  | (NoFuel, _) => (NoFuel, s)
  end.

(** One line: [None] for a comment, else the decoded path. *)
Definition decode_line {S} (b : list Z) (line : Z) : M S (option (list Z)) :=
  c ← rd b line;
  if c =? 35 then mret None
  else
    pre ← starts_with b line file_prefix;
    line ←
      (if pre : bool then loop (Datatypes.S (length b)) (slash_step b) (line + 7)
       else mret line);
    n ← strlen (zdrop line b);
    decode_path b line n.

Section toolkit.
Context {X : Type} `{Xlib X}.

(** The application: what it does when one of its callbacks is called. *)
Context (app : callback -> M (world X) unit).

Definition on_x {A} (m : M X A) : M (world X) A :=
  zoom xs (fun x w => World (eg w) x (calls w)) m.
Definition get : M (world X) eglut_state := fun w => (Ret (eg w), w).
Definition upd (f : eglut_state -> eglut_state) : M (world X) unit :=
  fun w => (Ret tt, World (f (eg w)) (xs w) (calls w)).
Definition req (r : request) : M (world X) unit := on_x (send r).

(** [if (win->cb) win->cb(...);] *)
Definition call (present : callbacks -> bool) (c : callback) : M (world X) unit :=
  e ← get;
  if present (cbs e) then
    (fun w => (Ret tt, World (eg w) (xs w) (calls w ++ [c])));;
    app c
  else mret tt.

(** ** eglut.c *)

Definition eglutPostRedisplay : M (world X) unit := upd (set_redisplay 1).

Definition eglutFini : M (world X) unit :=
  req eglTerminate;;
  req XCloseDisplay;;
  upd (set_native_dpy false).

(** The surface type is always EGL_WINDOW_BIT here. *)
Definition eglutDestroyWindow (win : Z) : M (world X) unit :=
  e ← get;
  if negb (win_index e =? win) then mret tt
  else
    req eglMakeCurrentNone;;
    req eglDestroySurface;;
    req (XDestroyWindow (window e));;
    req eglDestroyContext.

(** The keyboard callback of a new window; [exit(0)] is the error 0. *)
Definition eglutDefaultKeyboard (key : list (option Z)) (keyn : Z) : M (world X) unit :=
  if keyn =? 1 then
    k ← rd key 0;
    if bool_decide (k = Some 27) then
      e ← get;
      eglutDestroyWindow (win_index e);;
      eglutFini;;
      fail 0
    else mret tt
  else mret tt.

(** ** xinput.c *)

Fixpoint xi_grab (devices : list (Z * bool)) : M (world X) unit :=
  match devices with
  | [] => mret tt
  | (d, pointer) :: devices =>
      (if pointer : bool then
         e ← get; req XUngrabPointer;; req (XIGrabDevice d (window e))
       else mret tt);;
      xi_grab devices
  end.

Fixpoint xi_ungrab (devices : list (Z * bool)) : M (world X) unit :=
  match devices with
  | [] => mret tt
  | (d, pointer) :: devices =>
      (if pointer : bool then req (XIUngrabDevice d) else mret tt);;
      xi_ungrab devices
  end.

Definition eglutXinputSetRawMotion (raw : Z) : M (world X) Z :=
  e ← get;
  if negb (xinput_available e) then mret 0
  else if negb (native_dpy e) then mret 0
  else
    devices ← on_x XIQueryDevice;
    (if negb (raw =? 0) then xi_grab devices else xi_ungrab devices);;
    mret 1.

(** ** The pointer *)

Definition eglutWarpMousePointer (x y : Z) : M (world X) unit :=
  e ← get;
  if negb (native_dpy e) then mret tt
  else
    req (XWarpPointer (window e) x y);;
    req XFlush.

Definition eglutSetMousePointerVisiblity (visible : Z) : M (world X) unit :=
  e ← get;
  if negb (native_dpy e) then mret tt
  else if visible =? EGLUT_POINTER_INVISIBLE then
    req (XDefineEmptyCursor (window e));;
    if negb (rel_enabled e =? 0) && (rel_raw e =? 0) then
      req (XGrabPointer (window e));;
      upd (set_grabbed 1)
    else mret tt
  else if visible =? EGLUT_POINTER_VISIBLE then
    req (XUndefineCursor (window e));;
    if negb (cursor_grabbed e =? 0) then
      req XUngrabPointer;;
      upd (set_grabbed 0)
    else mret tt
  else mret tt.

Definition b2z (b : bool) : Z := if b then 1 else 0.

Definition eglutSetMousePointerLocked (locked : Z) : M (world X) unit :=
  e ← get;
  (if negb (locked =? 0) then
     let cx := Z.quot (win_width e) 2 in
     let cy := Z.quot (win_height e) 2 in
     upd (set_last cx cy);;
     eglutWarpMousePointer cx cy
   else mret tt);;
  (if negb (locked =? 0) && (rel_enabled e =? 0) then req (XSetInputFocus (window e)) else mret tt);;
  upd (fun e => set_rel locked (rel_x e) (rel_y e) (rel_raw e) e);;
  r ← eglutXinputSetRawMotion locked;
  upd (fun e => set_rel (rel_enabled e) (rel_x e) (rel_y e) (b2z (negb (r =? 0) && negb (locked =? 0))) e);;
  eglutSetMousePointerVisiblity (b2z (locked =? 0)).

Definition atom_name (s : list Z) : M (world X) Z := on_x (XInternAtom s).

(** ["_NET_WM_STATE"], ["_NET_WM_STATE_FULLSCREEN"] *)
Definition name_wm_state : list Z := [95; 78; 69; 84; 95; 87; 77; 95; 83; 84; 65; 84; 69].
Definition name_fullscreen : list Z :=
  name_wm_state ++ [95; 70; 85; 76; 76; 83; 67; 82; 69; 69; 78].
(** ["CLIPBOARD"], ["UTF8_STRING"], ["EGLUT_CLIPBOARD"], ["STRING"], ["TARGETS"] *)
Definition name_clipboard : list Z := [67; 76; 73; 80; 66; 79; 65; 82; 68].
Definition name_string : list Z := [83; 84; 82; 73; 78; 71].
Definition name_utf8_string : list Z := [85; 84; 70; 56; 95] ++ name_string.
Definition name_eglut_clipboard : list Z := [69; 71; 76; 85; 84; 95] ++ name_clipboard.
Definition name_targets : list Z := [84; 65; 82; 71; 69; 84; 83].
(** ["WM_DELETE_WINDOW"] *)
Definition name_delete : list Z := [87; 77; 95; 68; 69; 76; 69; 84; 69; 95; 87; 73; 78; 68; 79; 87].

Definition eglutToggleFullscreen : M (world X) Z :=
  upd (fun e => set_fullscreen
         (if window_fullscreen e =? EGLUT_WINDOWED then EGLUT_FULLSCREEN else EGLUT_WINDOWED) e);;
  wm_state ← atom_name name_wm_state;
  fullscreen ← atom_name name_fullscreen;
  e ← get;
  req (XMapWindow (window e));;
  req (XSendClientMessage None (window e) wm_state (window_fullscreen e) fullscreen 0 0 0);;
  req XFlush;;
  mret (-1).

Definition eglutRequestPaste : M (world X) unit :=
  clipboard ← atom_name name_clipboard;
  owner ← on_x (XGetSelectionOwner clipboard);
  if owner =? 0 then mret tt
  else
    utf8_string ← atom_name name_utf8_string;
    app_cb_atom ← atom_name name_eglut_clipboard;
    e ← get;
    req (XConvertSelection clipboard utf8_string app_cb_atom (window e) 0).

Definition eglutSetClipboardText (value : list Z) : M (world X) unit :=
  upd (set_clipboard value);;
  cb ← atom_name name_clipboard;
  e ← get;
  req (XSetSelectionOwner cb (window e));;
  req XFlush.

(** ** Events *)

Definition handle_xinput_event (ev : xi_event) : M (world X) unit :=
  match ev with
  | XI_RawMotion mask_len bit0 bit1 raw_values =>
      '(x, vals) ←
        (if (1 <=? mask_len) && bit0 then v ← rd raw_values 0; mret (v, zdrop 1 raw_values)
         else mret (0%Q, raw_values));
      y ← (if (1 <=? mask_len) && bit1 then rd vals 0 else mret 0%Q);
      call has_mouse_raw (mouse_raw_cb x y)
  | XI_Motion event_x event_y =>
      e ← get;
      if negb (rel_enabled e =? 0) then
        upd (set_last (int_of_double event_x) (int_of_double event_y))
      else call has_mouse (mouse_cb (int_of_double event_x) (int_of_double event_y))
  | XI_ButtonPress event_x event_y detail =>
      call has_mouse_button
        (mouse_button_cb (int_of_double event_x) (int_of_double event_y) detail EGLUT_MOUSE_PRESS)
  | XI_ButtonRelease event_x event_y detail =>
      call has_mouse_button
        (mouse_button_cb (int_of_double event_x) (int_of_double event_y) detail EGLUT_MOUSE_RELEASE)
  | XI_TouchBegin detail event_x event_y => call has_touch_start (touch_start_cb detail event_x event_y)
  | XI_TouchUpdate detail event_x event_y => call has_touch_update (touch_update_cb detail event_x event_y)
  | XI_TouchEnd detail event_x event_y => call has_touch_end (touch_end_cb detail event_x event_y)
  | XI_Other => mret tt
  end.

(** The buffer for the text of a key: the eight zeroed bytes on the stack, or
    an uninitialised block of [r + 1] bytes when they are too few. *)
Definition key_text (k : xkey) : M (world X) (Z * list (option Z)) :=
  '(r, t, overflow) ← on_x (Xutf8LookupString k 8);
  if overflow : bool then
    '(r', t, _) ← on_x (Xutf8LookupString k (r + 1));
    mret (r', splice (replicate (Z.to_nat (r + 1)) None) 0 (map Some t))
  else mret (r, splice (replicate 8 (Some 0)) 0 (map Some t)).

(** The look-ahead for a repeated key: the type of the event, and the key event
    that is current afterwards. *)
Definition key_repeat (k : xkey) : M (world X) (Z * xkey) :=
  n ← on_x XEventsQueued;
  if negb (n =? 0) then
    ahead ← on_x XPeekEvent;
    match ahead with
    | KeyPress a =>
        if (k_window a =? k_window k) && (k_keycode a =? k_keycode k) && (k_time a =? k_time k) then
          ev ← on_x XNextEvent;
          mret (EGLUT_KEY_REPEAT, match ev with KeyPress k' | KeyRelease k' => k' | _ => k end)
        else mret (EGLUT_KEY_RELEASE, k)
    | _ => mret (EGLUT_KEY_RELEASE, k)
    end
  else mret (EGLUT_KEY_RELEASE, k).

(** The branch for key events; the result is [redraw]. *)
Definition key_event (press : bool) (k : xkey) : M (world X) Z :=
  '(r, buffer) ← key_text k;
  sym ← on_x (XLookupKeysym k);
  '(type, k) ← (if press then mret (EGLUT_KEY_PRESS, k) else key_repeat k);
  (if 0 <? r then call has_keyboard (keyboard_cb buffer type) else mret tt);;
  (if 0 <=? s32 sym then call has_special (special_cb (s32 sym) type (k_state k)) else mret tt);;
  mret (if negb (type =? EGLUT_KEY_REPEAT) then 1 else 0).

Definition motion_event (x y : Z) : M (world X) unit :=
  e ← get;
  if negb (rel_enabled e =? 0) then
    (if rel_raw e =? 0 then
       call has_mouse_raw (mouse_raw_cb (inject_Z (x - rel_x e)) (inject_Z (y - rel_y e)))
     else mret tt);;
    upd (set_last x y)
  else call has_mouse (mouse_cb x y).

Definition focus_mode (mode : Z) : bool := (mode =? NotifyNormal) || (mode =? NotifyWhileGrabbed).

(** The formats offered by an XdndEnter message. *)
Definition dnd_formats (list_flag : bool) (source l2 l3 l4 : Z) : M (world X) (list Z) :=
  e ← get;
  if list_flag then
    '(_, p) ← on_x (XGetWindowProperty source (XdndTypeList (atom e)));
    match p with Some fs => mret fs | None => mret [] end
  else mret (List.filter (fun f => negb (f =? 0)) [l2; l3; l4]).

Definition client_message (message_type l0 l1 l2 l3 l4 : Z) : M (world X) unit :=
  delete_window ← atom_name name_delete;
  (if l0 =? delete_window then
     e ← get;
     if has_close (cbs e) then call has_close close_cb
     else
       eglutDestroyWindow (win_index e);;
       eglutFini
   else mret tt);;
  e ← get;
  if message_type =? XdndEnter (atom e) then
    upd (set_dnd l0 (Z.shiftr l1 24) 0);;
    if 5 <? Z.shiftr l1 24 then mret tt
    else
      formats ← dnd_formats (Z.testbit l1 0) l0 l2 l3 l4;
      upd (fun e => set_dnd (dnd_source e) (dnd_version e)
             (if bool_decide (XtextUriList (atom e) ∈ formats) then s32 (XtextUriList (atom e)) else 0) e)
  else if message_type =? XdndPosition (atom e) then
    if 5 <? dnd_version e then mret tt
    else
      req (XSendClientMessage (Some (dnd_source e)) (dnd_source e) (XdndStatus (atom e)) (window e)
             (if negb (dnd_format e =? 0) then 1 else 0) 0 0
             (if negb (dnd_format e =? 0) && (2 <=? dnd_version e) then XdndActionCopy (atom e) else 0));;
      req XFlush
  else if (message_type =? XdndDrop (atom e)) && (dnd_version e <=? 5) then
    if negb (dnd_format e =? 0) then
      req (XConvertSelection (XdndSelection (atom e)) (dnd_format e) (XdndSelection (atom e)) (window e)
             (if 1 <=? dnd_version e then l2 else 0))
    else if 2 <=? dnd_version e then
      req (XSendClientMessage (Some (dnd_source e)) (dnd_source e) (XdndFinished (atom e)) (window e) 0 0 0 0);;
      req XFlush
    else mret tt
  else mret tt.

Definition selection_request (requestor selection target property time : Z) : M (world X) unit :=
  targets_atom ← atom_name name_targets;
  string_atom ← atom_name name_string;
  utf8_string_atom ← atom_name name_utf8_string;
  e ← get;
  reply ←
    (if target =? targets_atom then
       req (XChangeProperty requestor property targets_atom [utf8_string_atom; string_atom]);;
       mret property
     else if (target =? string_atom) || (target =? utf8_string_atom) then
       req (XChangeProperty requestor property target (clipboard e));;
       mret property
     else mret 0);
  req (XSendSelectionNotify requestor selection target reply time).

(** The static variable of [strtok] is [last]; the data of the property is
    followed by a NUL. *)
Definition drop_step '((s, last, buf) : option Z * option Z * list Z)
    : M (world X) (step (option Z * option Z * list Z) unit) :=
  match strtok_r s crlf last buf with
  | (Ret (None, _), _) => mret (Done tt)
  | (Ret (Some line, last), buf) =>
      path ← decode_line buf line;
      match path with
      | None => mret (Next (None, last, buf))
      | Some path =>
          call has_drop (drop_cb path);;
          mret (Next (None, last, buf))
      end
  | (Err e, _) => fail e
  | (Undef, _) => undef
  | (NoFuel, _) => nofuel
  end.

Definition selection_notify (requestor property target : Z) : M (world X) unit :=
  e ← get;
  if property =? XdndSelection (atom e) then
    '(_, p) ← on_x (XGetWindowProperty requestor property);
    let data := default [] p in
    if zlen data =? 0 then mret tt
    else
      loop (Datatypes.S (Datatypes.S (length data))) drop_step (Some 0, None, data ++ [0]);;
      e ← get;
      if 2 <=? dnd_version e then
        req (XSendClientMessage (Some (dnd_source e)) (dnd_source e) (XdndFinished (atom e)) (window e)
               (zlen data) (XdndActionCopy (atom e)) 0 0);;
        req XFlush
      else mret tt
  else
    utf8_string ← atom_name name_utf8_string;
    app_cb_atom ← atom_name name_eglut_clipboard;
    '(status, p) ← on_x (XGetWindowProperty (window e) app_cb_atom);
    match p with
    | Some data =>
        if status =? 0 then call has_paste (paste_cb data (zlen data)) else mret tt
    | None => mret tt
    end.

(** The branches of the switch of [next_event]; the result is [redraw]. *)
Definition dispatch (ev : xevent) : M (world X) Z :=
  match ev with
  | Expose => mret 1
  | ConfigureNotify x y w h _ =>
      upd (set_geometry x y w h);;
      call has_reshape (reshape_cb w h);;
      mret 0
  | GenericEvent extension evtype =>
      ok ← on_x XGetEventData;
      e ← get;
      (if ok && (extension =? xinput_opcode e) then handle_xinput_event evtype else mret tt);;
      mret 0
  | KeyPress k => key_event true k
  | KeyRelease k => key_event false k
  | MotionNotify x y => motion_event x y;; mret 0
  | ButtonPress x y b => call has_mouse_button (mouse_button_cb x y b EGLUT_MOUSE_PRESS);; mret 0
  | ButtonRelease x y b => call has_mouse_button (mouse_button_cb x y b EGLUT_MOUSE_RELEASE);; mret 0
  | FocusIn mode =>
      (if focus_mode mode then
         e ← get;
         (if negb (rel_enabled e =? 0) then eglutSetMousePointerLocked EGLUT_POINTER_LOCKED else mret tt);;
         call has_focus (focus_cb EGLUT_FOCUSED)
       else mret tt);;
      mret 0
  | FocusOut mode =>
      (if focus_mode mode then
         e ← get;
         (if negb (rel_enabled e =? 0) then
            eglutXinputSetRawMotion 0;;
            eglutSetMousePointerVisiblity EGLUT_POINTER_VISIBLE
          else mret tt);;
         call has_focus (focus_cb EGLUT_NOT_FOCUSED)
       else mret tt);;
      mret 0
  | ClientMessage t l0 l1 l2 l3 l4 => client_message t l0 l1 l2 l3 l4;; mret 0
  | SelectionRequest r s t p tm => selection_request r s t p tm;; mret 0
  | SelectionNotify r p t => selection_notify r p t;; mret 0
  | OtherEvent => mret 0
  end.

Definition is_key (ev : xevent) : bool :=
  match ev with KeyPress _ | KeyRelease _ => true | _ => false end.

Definition next_event : M (world X) unit :=
  ev ← on_x XNextEvent;
  e ← get;
  filtered ←
    (if negb (keyboardstate e =? 0) || negb (is_key ev) then on_x (XFilterEvent ev) else mret false);
  if filtered : bool then upd (set_redisplay 0)
  else
    redraw ← dispatch ev;
    upd (set_redisplay redraw).

(** ** The loops; the fuel of the event loop bounds its rounds *)

Definition recenter : M (world X) unit :=
  e ← get;
  if negb (rel_enabled e =? 0) then
    let cx := Z.quot (win_width e) 2 in
    let cy := Z.quot (win_height e) 2 in
    if negb (cx =? rel_x e) || negb (cy =? rel_y e) then
      upd (set_last cx cy);;
      eglutWarpMousePointer cx cy
    else mret tt
  else mret tt.

Definition pending_step (_ : unit) : M (world X) (step unit unit) :=
  n ← on_x XPending;
  if negb (n =? 0) then next_event;; mret (Next tt) else mret (Done tt).

Definition eglutPollEvents (fuel : nat) : M (world X) unit :=
  loop fuel pending_step tt;;
  call has_idle idle_cb;;
  recenter.

(** [while (XPending(...) && !_eglut->redisplay) next_event(win);] *)
Definition drain_step (_ : unit) : M (world X) (step unit unit) :=
  n ← on_x XPending;
  e ← get;
  if negb (n =? 0) && (redisplay e =? 0) then next_event;; mret (Next tt) else mret (Done tt).

Definition loop_step (fuel : nat) (_ : unit) : M (world X) (step unit unit) :=
  e ← get;
  if negb (native_dpy e) then mret (Done tt)
  else
    loop fuel drain_step tt;;
    e ← get;
    (if redisplay e =? 0 then call has_idle idle_cb else mret tt);;
    recenter;;
    e ← get;
    (if negb (redisplay e =? 0) then
       upd (set_redisplay 0);;
       call has_display display_cb
     else mret tt);;
    mret (Next tt).

Definition eglutNativeEventLoop (fuel : nat) : M (world X) unit := loop fuel (loop_step fuel) tt.

Definition eglutMainLoop (fuel : nat) : M (world X) unit :=
  e ← get;
  call has_reshape (reshape_cb (win_width e) (win_height e));;
  eglutNativeEventLoop fuel.
End toolkit.
