(* ===== verification/EglutInput.v ===== *)
(** * Properties of the window toolkit: relative motion, repeated keys, dropped files *)
From S2P Require Import Prelude CString Eglut.
From Stdlib Require Import QArith.

#[global] Open Scope Z_scope.

(** ** Percent-decoding *)

(** The decoded text of a line. *)
Fixpoint percent (t : list Z) : list Z :=
  match t with
  | [] => []
  | c :: t' =>
      match t' with
      | a :: b :: t'' => if c =? 37 then u8 (strtol16 a b) :: percent t'' else c :: percent t'
      | _ => c :: percent t'
      end
  end.

Lemma percent_cons c a b t :
  percent (c :: a :: b :: t) =
    if c =? 37 then u8 (strtol16 a b) :: percent t else c :: percent (a :: b :: t).
Proof. done. Qed.

Lemma percent_len t : zlen (percent t) <= zlen t.
Proof.
  assert (H : forall n t, (length t <= n)%nat -> zlen (percent t) <= zlen t); [|by apply (H (length t))].
  induction n as [|n IH]; intros [|c [|a [|b t']]] Hn; cbn in Hn; try lia; try (cbn; done).
  rewrite percent_cons. case_match; rewrite !zlen_cons.
  - specialize (IH t' ltac:(lia)). lia.
  - specialize (IH (a :: b :: t') ltac:(cbn; lia)). rewrite !zlen_cons in IH. lia.
Qed.

Section decode.
Implicit Types (b t w dst : list Z).

Lemma wp_decode_chars b t line w dst fuel :
  cstr b line t -> zlen w + zlen t <= zlen dst -> (length t < fuel)%nat ->
  wp (loop fuel (decode_step b) (line, zlen w)) (splice dst 0 w)
     (fun _ path => path = splice dst 0 (w ++ percent t)) (fun _ _ => False).
Proof.
  revert t line w. induction fuel as [|fuel IH]; intros t line w Hc Hd Hf; [lia|].
  pose proof (zlen_nonneg w). pose proof (zlen_nonneg t). apply wp_loop_S. unfold decode_step.
  assert (Hwr : forall v, 0 < zlen t -> forall (Q : unit -> list Z -> Prop) E,
    Q tt (splice dst 0 (w ++ [v])) -> wp (wr (zlen w) v) (splice dst 0 w) Q E).
  { intros v Ht Q E HQ. apply wp_wr; [rewrite zlen_splice; lia|].
    rewrite splice_snoc_alt by lia. done. }
  destruct t as [|c t].
  { wp_step. eapply wp_rd; [by apply cstr_nul_head|]. cbn. wp_step. by rewrite app_nil_r. }
  destruct (cstr_cons_l _ _ _ _ Hc) as (Hc0 & Hr & Hct). pose proof (zlen_nonneg t).
  rewrite zlen_cons in *. cbn in Hf.
  assert (Hlit : wp (wr (zlen w) c;; mret (Next (line + 1, zlen w + 1) : step (Z * Z) unit)) (splice dst 0 w)
     (fun st s' => match st with
        | Next l => wp (loop fuel (decode_step b) l) s'
                      (fun _ path => path = splice dst 0 (w ++ c :: percent t)) (fun _ _ => False)
        | Done r => s' = splice dst 0 (w ++ c :: percent t)
        end) (fun _ _ => False)).
  { wp_step. apply Hwr; [lia|]. wp_step. replace (zlen w + 1) with (zlen (w ++ [c])) by (zlen_simpl; lia).
    eapply wp_conseq; [apply (IH t); [done|zlen_simpl; lia|lia]|].
    intros _ path ->. by rewrite <- app_assoc. }
  wp_step. eapply wp_rd; [exact Hr|]. rewrite (proj2 (Z.eqb_neq c 0)) by done.
  destruct t as [|a t].
  { wp_step. destruct (c =? 37).
    - eapply wp_rd; [by apply cstr_nul_head|]. cbn. wp_step. wp_step. exact Hlit.
    - wp_step. wp_step. wp_step. exact Hlit. }
  destruct (cstr_cons_l _ _ _ _ Hct) as (Ha0 & Hra & Hct').
  destruct t as [|b' t].
  { wp_step. destruct (Z.eqb_spec c 37).
    - eapply wp_rd; [exact Hra|]. rewrite (proj2 (Z.eqb_neq a 0)) by done. cbn [negb]. wp_step.
      eapply wp_rd; [replace (line + 2) with (line + 1 + 1) by lia; by apply cstr_nul_head|].
      cbn [Z.eqb negb]. exact Hlit.
    - wp_step. wp_step. wp_step. exact Hlit. }
  destruct (cstr_cons_l _ _ _ _ Hct') as (Hb0 & Hrb & Hct'').
  rewrite percent_cons in *. wp_step. destruct (Z.eqb_spec c 37).
  - eapply wp_rd; [exact Hra|]. rewrite (proj2 (Z.eqb_neq a 0)) by done. cbn [negb]. wp_step.
    eapply wp_rd; [replace (line + 2) with (line + 1 + 1) by lia; exact Hrb|].
    rewrite (proj2 (Z.eqb_neq b' 0)) by done. cbn [negb]. wp_step.
    rewrite !zlen_cons in *. pose proof (zlen_nonneg t). apply Hwr; [lia|]. wp_step.
    set (v := u8 _). replace (zlen w + 1) with (zlen (w ++ [v])) by (zlen_simpl; lia).
    eapply wp_conseq; [apply (IH t); [|zlen_simpl; lia|cbn in Hf; lia]|].
    + by replace (line + 3) with (line + 1 + 1 + 1) by lia.
    + intros _ path ->. by rewrite <- app_assoc.
  - wp_step. wp_step. wp_step. exact Hlit.
Qed.

Lemma c_string_app w b : c_string (w ++ 0 :: b) = c_string w.
Proof. induction w as [|c w IH]; [done|]. cbn. by rewrite IH. Qed.

Lemma wp_decode_path {S} b t line (st : S) :
  cstr b line t ->
  wp (n ← strlen (zdrop line b); decode_path b line n) st
     (fun r st' => r = Some (c_string (percent t)) /\ st' = st) (fun _ _ => False).
Proof.
  intros Hc. pose proof (zlen_nonneg t). wp_step.
  eapply wp_conseq; [apply wp_strlen; by apply cstr_zdrop|]. intros n st' [-> ->].
  unfold decode_path. set (dst := replicate _ 0).
  assert (Hd : zlen dst = zlen t + 1) by (unfold dst, zlen; rewrite length_replicate; unfold zlen in *; lia).
  assert (Hlen : (length t < Datatypes.S (length b))%nat).
  { pose proof (cstr_len _ _ _ Hc). destruct Hc. unfold zlen in *. lia. }
  pose proof (wp_decode_chars b t line [] dst (Datatypes.S (length b)) Hc
                ltac:(change (zlen (@nil Z)) with 0; lia) Hlen) as Hw.
  rewrite splice_nil in Hw. change (zlen (@nil Z)) with 0 in Hw. unfold wp in Hw |- *.
  destruct (loop _ _ _ _) as [[[]| | |] path]; try done. subst path. cbn. split; [|done].
  pose proof (percent_len t). pose proof (zlen_nonneg (percent t)).
  unfold splice. change (ztake 0 dst) with (@nil Z). cbn [app]. rewrite Z.add_0_l.
  assert (Hz : znth dst (zlen (percent t)) = Some 0).
  { unfold dst, znth. rewrite (proj2 (Z.ltb_ge _ _)) by lia. apply lookup_replicate.
    split; [done|]. unfold zlen in *. lia. }
  by rewrite (zdrop_cons _ _ _ Hz), c_string_app.
Qed.
End decode.

(** ** One dropped line *)

Section line.
Context {S : Type}.
Implicit Types (b t : list Z) (st : S).

Lemma wp_starts_with b prefix t line st E :
  cstr b line t -> Forall (fun c => c <> 0) prefix ->
  wp (starts_with b line prefix) st
     (fun r st' => r = bool_decide (prefix `prefix_of` t) /\ st' = st) E.
Proof.
  intros Hc Hp. revert t line Hc. induction Hp as [|p prefix Hp0 Hp IH]; intros t line Hc; cbn [starts_with].
  { wp_step. split; [|done]. symmetry. apply bool_decide_eq_true, prefix_nil. }
  wp_step. destruct t as [|c t].
  { eapply wp_rd; [by apply cstr_nul_head|]. rewrite (proj2 (Z.eqb_neq 0 p)) by done. wp_step.
    split; [|done]. symmetry. apply bool_decide_eq_false. by intros [? ?]. }
  destruct (cstr_cons_l _ _ _ _ Hc) as (Hc0 & Hr & Hct). eapply wp_rd; [exact Hr|].
  destruct (Z.eqb_spec c p) as [->|Hne].
  - eapply wp_conseq; [by apply (IH t)|]. intros r st' [-> ->]. split; [|done].
    apply bool_decide_ext. split; [by apply prefix_cons|by apply prefix_cons_inv_2].
  - wp_step. split; [|done]. symmetry. apply bool_decide_eq_false. intros Hpre.
    apply prefix_cons_inv_1 in Hpre. congruence.
Qed.

Lemma starts_with_true b prefix line st :
  (forall i c, znth prefix i = Some c -> znth b (line + i) = Some c) ->
  starts_with b line prefix st = (Ret true, st).
Proof.
  revert line. induction prefix as [|p prefix IH]; intros line Hp; [done|]. cbn [starts_with].
  assert (Hr : @rd S Z b line st = (Ret p, st)).
  { unfold rd. rewrite <- (Z.add_0_r line). by rewrite (Hp 0 p). }
  unfold mbind, M_bind. rewrite Hr, Z.eqb_refl. apply IH. intros i c Hi.
  pose proof (znth_Some _ _ _ Hi). replace (line + 1 + i) with (line + (i + 1)) by lia.
  apply Hp. rewrite znth_cons_S by lia. by replace (i + 1 - 1) with i by lia.
Qed.

Lemma wp_slash b host rest line fuel st E :
  cstr b line (host ++ 47 :: rest) -> (47 ∉ host) -> (length host < fuel)%nat ->
  wp (loop fuel (slash_step b) line) st (fun r st' => r = line + zlen host /\ st' = st) E.
Proof.
  revert host line. induction fuel as [|fuel IH]; intros host line Hc Hn Hf; [lia|].
  apply wp_loop_S. unfold slash_step. wp_step. destruct host as [|c host]; cbn in Hc.
  - destruct (cstr_cons_l _ _ _ _ Hc) as (_ & Hr & _). eapply wp_rd; [exact Hr|]. cbn. wp_step.
    change (zlen (@nil Z)) with 0. split; [lia|done].
  - destruct (cstr_cons_l _ _ _ _ Hc) as (_ & Hr & Hct). apply not_elem_of_cons in Hn as [Hne Hn'].
    eapply wp_rd; [exact Hr|]. rewrite (proj2 (Z.eqb_neq c 47)) by congruence. wp_step.
    eapply wp_conseq; [apply IH; [done|done|cbn in Hf; lia]|].
    intros r st' [-> ->]. rewrite zlen_cons. split; [lia|done].
Qed.

Lemma cstr_app_r b line p t : cstr b line (p ++ t) -> cstr b (line + zlen p) t.
Proof.
  revert line. induction p as [|c p IH]; intros line Hc; cbn in Hc.
  - change (zlen (@nil Z)) with 0. by rewrite Z.add_0_r.
  - destruct (cstr_cons_l _ _ _ _ Hc) as (_ & _ & Hct). rewrite zlen_cons.
    replace (line + (zlen p + 1)) with (line + 1 + zlen p) by lia. by apply IH.
Qed.

(** A dropped line is decoded as a file URI: a comment is skipped; of a
    line ["file://host/path"] the part from the slash on, and of any other line
    the whole, is percent-decoded, up to an encoded NUL. Nothing outside the
    line and the new path is accessed, and the path always has room. *)
Theorem decode_line_correct b t line st :
  cstr b line t ->
  (forall u, t = file_prefix ++ u -> exists host rest, u = host ++ 47 :: rest /\ (47 ∉ host)) ->
  wp (decode_line b line) st
     (fun r st' => st' = st /\
        if bool_decide (head t = Some 35) then r = None
        else if bool_decide (file_prefix `prefix_of` t) then
          exists host rest, t = file_prefix ++ host ++ 47 :: rest /\ (47 ∉ host) /\
            r = Some (c_string (percent (47 :: rest)))
        else r = Some (c_string (percent t)))
     (fun _ _ => False).
Proof.
  intros Hc Hslash. unfold decode_line. wp_step.
  assert (Hhd : znth b line = Some (default 0 (head t))).
  { destruct t as [|c t]; [by apply cstr_nul_head|]. by destruct (cstr_cons_l _ _ _ _ Hc) as (_ & ? & _). }
  eapply wp_rd; [exact Hhd|].
  destruct (Z.eqb_spec (default 0 (head t)) 35) as [H35|H35].
  { wp_step. split; [done|]. rewrite bool_decide_true; [done|]. destruct t; cbn in *; congruence. }
  rewrite bool_decide_false by (destruct t; cbn in *; congruence).
  wp_step. eapply wp_conseq; [apply (wp_starts_with b file_prefix t); [done|by repeat constructor]|].
  intros pre st' [-> ->]. case_bool_decide as Hpre; cbn zeta.
  - destruct Hpre as [u Hu]. destruct (Hslash u Hu) as (host & rest & -> & Hn).
    rewrite Hu in Hc. apply cstr_app_r in Hc. change (zlen file_prefix) with 7 in Hc.
    wp_step. eapply wp_conseq; [eapply wp_slash; [exact Hc|exact Hn|]|].
    { pose proof (cstr_len _ _ _ Hc) as Hl. rewrite zlen_app in Hl. destruct Hc.
      pose proof (zlen_nonneg (47 :: rest)). unfold zlen in *. lia. }
    intros l st' [-> ->]. apply cstr_app_r in Hc.
    eapply wp_conseq; [by apply wp_decode_path|]. intros r st' [-> ->]. split; [done|]. eauto.
  - wp_step. wp_step. eapply wp_conseq; [by apply wp_decode_path|].
    intros r st' [-> ->]. done.
Qed.
End line.

(** A line ["file://host"] without a slash at the end of the data is read
    past its terminator, out of the buffer. *)
Theorem decode_line_overrun {S} (host : list Z) (st : S) :
  (47 ∉ host) -> fst (decode_line (file_prefix ++ host ++ [0]) 0 st) = Undef.
Proof.
  intros Hn. set (b := file_prefix ++ host ++ [0]).
  assert (Hloop : forall fuel p, 7 <= p <= zlen b -> zlen b - p < Z.of_nat fuel ->
    fst (loop fuel (slash_step b) p st) = Undef).
  { induction fuel as [|fuel IH]; intros p Hp Hf; [lia|]. rewrite loop_S.
    unfold slash_step, rd, mbind, M_bind. destruct (znth b p) as [c|] eqn:Hc; [|done]. cbn.
    destruct (Z.eqb_spec c 47) as [->|Hne].
    - exfalso. unfold b in Hc. rewrite znth_app_r in Hc by (change (zlen file_prefix) with 7; lia).
      change (zlen file_prefix) with 7 in Hc.
      apply znth_Some in Hc as Hr. unfold znth in Hc. destruct (Z.ltb_spec (p - 7) 0); [lia|].
      apply list_elem_of_lookup_2 in Hc. apply elem_of_app in Hc as [Hc|Hc]; [done|].
      by apply list_elem_of_singleton in Hc.
    - apply IH; [apply znth_Some in Hc; lia|lia]. }
  assert (Hb : 7 <= zlen b).
  { unfold b. rewrite zlen_app. change (zlen file_prefix) with 7. pose proof (zlen_nonneg (host ++ [0])). lia. }
  assert (Hpre : forall i c, znth file_prefix i = Some c -> znth b (0 + i) = Some c).
  { intros i c Hi. unfold b. rewrite znth_app_l by (apply znth_Some in Hi; lia). done. }
  assert (Hst : starts_with b 0 file_prefix st = (Ret true, st)) by (by apply starts_with_true).
  assert (Hrd : @rd S Z b 0 st = (Ret 102, st)) by (unfold rd; by rewrite <- (Z.add_0_r 0), (Hpre 0 102)).
  clearbody b. unfold decode_line, mbind, M_bind. rewrite Hrd. cbn [Z.eqb Pos.eqb].
  rewrite Hst. cbn [Z.add].
  specialize (Hloop (Datatypes.S (length b)) 7 ltac:(lia) ltac:(unfold zlen; lia)).
  destruct (loop _ _ _ _) as [[]?]; cbn in *; congruence.
Qed.

(** ** The laws of Xlib that the event handlers rely on *)

(** [queue x] is the event queue and [text_of k] the UTF-8 text of a key. *)
Class XlibLaws (X : Type) `{Xlib X} := {
  queue : X -> list xevent;
  text_of : xkey -> list Z;
  law_next x ev q : queue x = ev :: q ->
    wp XNextEvent x (fun e x' => e = ev /\ queue x' = q) (fun _ _ => False);
  law_pending x :
    wp XPending x (fun n x' => n = zlen (queue x) /\ queue x' = queue x) (fun _ _ => False);
  law_queued x :
    wp XEventsQueued x (fun n x' => n = zlen (queue x) /\ queue x' = queue x) (fun _ _ => False);
  law_peek x ev q : queue x = ev :: q ->
    wp XPeekEvent x (fun e x' => e = ev /\ queue x' = queue x) (fun _ _ => False);
  law_lookup k n x :
    wp (Xutf8LookupString k n) x
       (fun '(r, t, overflow) x' => r = zlen (text_of k) /\ overflow = (n <? zlen (text_of k)) /\
          t = (if n <? zlen (text_of k) then [] else text_of k) /\ queue x' = queue x)
       (fun _ _ => False);
  law_keysym k x :
    wp (XLookupKeysym k) x (fun _ x' => queue x' = queue x) (fun _ _ => False);
  law_send r x :
    wp (send r) x (fun _ x' => queue x' = queue x) (fun _ _ => False)
}.

Section input.
Context {X : Type} `{XlibLaws X}.
Implicit Types (w : world X).

(** An application whose callbacks leave the toolkit alone. *)
Definition quiet (app : callback -> M (world X) unit) : Prop := forall c w, app c w = (Ret tt, w).

Context (app : callback -> M (world X) unit) (Happ : quiet app).

Lemma wp_on_x {A} (m : M X A) w (Q : A -> world X -> Prop) E :
  wp m (xs w) (fun a x => Q a (World (eg w) x (calls w))) (fun e x => E e (World (eg w) x (calls w))) ->
  wp (on_x m) w Q E.
Proof. intros Hw. unfold on_x. by apply wp_zoom. Qed.

Lemma wp_get w (Q : eglut_state -> world X -> Prop) E : Q (eg w) w -> wp get w Q E.
Proof. done. Qed.

Lemma wp_upd f w (Q : unit -> world X -> Prop) E :
  Q tt (World (f (eg w)) (xs w) (calls w)) -> wp (upd f) w Q E.
Proof. done. Qed.

(** The calls that a registered callback makes. *)
Definition made (present : bool) (c : callback) : list callback := if present then [c] else [].

Lemma wp_call present c w (Q : unit -> world X -> Prop) E :
  Q tt (World (eg w) (xs w) (calls w ++ made (present (cbs (eg w))) c)) ->
  wp (call app present c) w Q E.
Proof.
  intros HQ. unfold call, made in *. wp_step. apply wp_get. destruct (present (cbs (eg w))).
  - wp_step. unfold wp. by rewrite Happ.
  - wp_step. rewrite app_nil_r in HQ. by destruct w.
Qed.

(** ** The text of a key *)

Lemma wp_key_text k w :
  let t := text_of k in
  wp (key_text k) w
     (fun '(r, buf) w' => r = zlen t /\ ztake (zlen t) buf = map Some t /\
        znth buf (zlen t) =
          (if zlen t <? 8 then Some (Some 0) else if zlen t =? 8 then None else Some None) /\
        queue (xs w') = queue (xs w) /\ eg w' = eg w /\ calls w' = calls w)
     (fun _ _ => False).
Proof.
  cbn zeta. set (t := text_of k). pose proof (zlen_nonneg t). unfold key_text. wp_step. apply wp_on_x.
  assert (Hm : zlen (map Some t) = zlen t) by (unfold zlen; by rewrite length_map).
  eapply wp_conseq; [apply law_lookup|]. intros [[r u] o] x1 (-> & -> & -> & Hq). fold t.
  destruct (Z.ltb_spec 8 (zlen t)) as [Hlt|Hge]; cbv iota beta.
  - wp_step. apply wp_on_x. eapply wp_conseq; [apply law_lookup|].
    intros [[r u] o] x2 (-> & -> & -> & Hq2). fold t.
    rewrite (proj2 (Z.ltb_ge (zlen t + 1) (zlen t))) by lia. wp_step.
    assert (Hl : zlen (replicate (Z.to_nat (zlen t + 1)) (@None Z)) = zlen t + 1)
      by (unfold zlen; rewrite length_replicate; unfold zlen in *; lia).
    split_and!; try done.
    + rewrite <- Hm at 1. apply ztake_splice_0.
    + rewrite (proj2 (Z.ltb_ge (zlen t) 8)), (proj2 (Z.eqb_neq (zlen t) 8)) by lia.
      rewrite znth_splice_after by (rewrite ?Hm, ?Hl; lia).
      unfold znth. rewrite (proj2 (Z.ltb_ge _ _)) by lia. apply lookup_replicate.
      split; [done|]. unfold zlen in *. lia.
    + cbn in *. congruence.
  - wp_step. assert (Hl : zlen (replicate 8 (Some 0)) = 8) by done.
    split_and!; try done.
    + rewrite <- Hm at 1. apply ztake_splice_0.
    + destruct (Z.ltb_spec (zlen t) 8).
      * rewrite znth_splice_after by (rewrite ?Hm, ?Hl; lia).
        unfold znth. rewrite (proj2 (Z.ltb_ge _ _)) by lia. apply lookup_replicate.
        split; [done|]. unfold zlen in *. lia.
      * rewrite (proj2 (Z.eqb_eq _ _)) by lia. apply znth_None. right.
        rewrite zlen_splice by (rewrite ?Hm, ?Hl; lia). lia.
Qed.

(** ** Repeated keys *)

(** The key press that makes a release a repetition. *)
Definition repeats (k : xkey) (q : list xevent) : option (xkey * list xevent) :=
  match q with
  | KeyPress a :: q' =>
      if (k_window a =? k_window k) && (k_keycode a =? k_keycode k) && (k_time a =? k_time k)
      then Some (a, q') else None
  | _ => None
  end.

Lemma wp_key_repeat k w :
  wp (key_repeat k) w
     (fun '(type, k') w' => eg w' = eg w /\ calls w' = calls w /\
        match repeats k (queue (xs w)) with
        | Some (a, q') => type = EGLUT_KEY_REPEAT /\ k' = a /\ queue (xs w') = q'
        | None => type = EGLUT_KEY_RELEASE /\ k' = k /\ queue (xs w') = queue (xs w)
        end) (fun _ _ => False).
Proof.
  unfold key_repeat. wp_step. apply wp_on_x. eapply wp_conseq; [apply law_queued|].
  intros n x1 [-> Hq1]. destruct (queue (xs w)) as [|ev q] eqn:Hq.
  { cbn. by wp_step. }
  rewrite (proj2 (Z.eqb_neq _ _)) by (rewrite zlen_cons; pose proof (zlen_nonneg q); lia).
  cbn [negb]. wp_step. apply wp_on_x. cbn. eapply wp_conseq; [by eapply law_peek|].
  intros a x2 [-> Hq2]. rewrite Hq1 in Hq2. unfold repeats.
  destruct ev as [| | |a|a| | | | | | | | |]; try (by wp_step).
  destruct (_ && _) eqn:Hm; [|by wp_step]. wp_step. apply wp_on_x. cbn.
  eapply wp_conseq; [by eapply law_next|]. intros ev x3 [-> Hq3]. wp_step. done.
Qed.

(** A key release is handled together with the press that follows it. If
    the next queued event is a press of the same key in the same window at the
    same time, both are consumed, the callbacks are told of one repetition (with
    the modifiers of the press) and no redraw is asked for; otherwise the queue
    is untouched, a release is reported and a redraw asked for. The keyboard
    callback is only made for a key with text, and the text it is given is
    terminated only if it is shorter than eight bytes. *)
Theorem key_release_correct k w :
  wp (key_event app false k) w
     (fun redraw w' => eg w' = eg w /\
        let t := text_of k in
        exists type k' sym buf,
          calls w' = calls w ++ made ((0 <? zlen t) && has_keyboard (cbs (eg w))) (keyboard_cb buf type)
                     ++ made ((0 <=? s32 sym) && has_special (cbs (eg w)))
                          (special_cb (s32 sym) type (k_state k')) /\
          ztake (zlen t) buf = map Some t /\ (znth buf (zlen t) = Some (Some 0) <-> zlen t < 8) /\
          match repeats k (queue (xs w)) with
          | Some (a, q') =>
              type = EGLUT_KEY_REPEAT /\ k' = a /\ redraw = 0 /\ queue (xs w') = q'
          | None =>
              type = EGLUT_KEY_RELEASE /\ k' = k /\ redraw = 1 /\ queue (xs w') = queue (xs w)
          end)
     (fun _ _ => False).
Proof.
  unfold key_event. wp_step. eapply wp_conseq; [apply wp_key_text|].
  intros [r buf] w1 (-> & Hbuf & Hnul & Hq1 & He1 & Hc1). wp_step. apply wp_on_x.
  eapply wp_conseq; [apply law_keysym|]. intros sym x2 Hq2. wp_step.
  eapply wp_conseq; [apply wp_key_repeat|]. cbn. rewrite Hq2, Hq1, Hc1, He1.
  intros [type k'] w3 (He3 & Hc3 & Hrep). wp_step. set (t := text_of k) in *.
  assert (Hfin : znth buf (zlen t) = Some (Some 0) <-> zlen t < 8).
  { rewrite Hnul. destruct (Z.ltb_spec (zlen t) 8); [done|].
    destruct (zlen t =? 8); split; try done; lia. }
  apply (wp_conseq _ _ (fun _ w4 => eg w4 = eg w /\ xs w4 = xs w3 /\
     calls w4 = calls w ++ made ((0 <? zlen t) && has_keyboard (cbs (eg w))) (keyboard_cb buf type))).
  { destruct (0 <? zlen t).
    - apply wp_call. cbn. rewrite He3, Hc3. done.
    - apply wp_ret. cbn. by rewrite app_nil_r. }
  intros _ w4 (He4 & Hx4 & Hc4). wp_step.
  apply (wp_conseq _ _ (fun _ w5 => eg w5 = eg w /\ xs w5 = xs w3 /\
     calls w5 = calls w4 ++ made ((0 <=? s32 sym) && has_special (cbs (eg w)))
                  (special_cb (s32 sym) type (k_state k')))).
  { destruct (0 <=? s32 sym).
    - apply wp_call. cbn. rewrite He4. done.
    - apply wp_ret. cbn. by rewrite app_nil_r. }
  intros _ w5 (He5 & Hx5 & Hc5). wp_step. split; [done|].
  exists type, k', sym, buf. rewrite Hc5, Hc4, <- app_assoc, Hx5. split_and!; [done|done|done|].
  destruct (repeats k (queue (xs w))) as [[a q']|]; destruct Hrep as (-> & -> & Hq); cbn; done.
Qed.

(** ** Relative motion *)

(** The user moves the pointer, or the loop comes to its end and may warp the
    pointer to the middle of the window; the server reports the warp as a motion. *)
Inductive motion : Type :=
  | Move (dx dy : Z)
  | Frame.

Definition play (m : motion) '((px, py) : Z * Z) : M (world X) (Z * Z) :=
  match m with
  | Move dx dy => motion_event app (px + dx) (py + dy);; mret (px + dx, py + dy)
  | Frame =>
      e ← get;
      recenter;;
      let cx := Z.quot (win_width e) 2 in
      let cy := Z.quot (win_height e) 2 in
      if negb (cx =? rel_x e) || negb (cy =? rel_y e) then motion_event app cx cy;; mret (cx, cy)
      else mret (px, py)
  end.

Fixpoint play_all (ms : list motion) (p : Z * Z) : M (world X) (Z * Z) :=
  match ms with
  | [] => mret p
  | m :: ms => p ← play m p; play_all ms p
  end.

(** What the game is told, and what the user did. *)
Definition raw_delta (c : callback) : Z * Z :=
  match c with mouse_raw_cb x y => (Qnum x, Qnum y) | _ => (0, 0) end.

Definition sum2 (l : list (Z * Z)) : Z * Z := foldr (fun p q => (p.1 + q.1, p.2 + q.2)) (0, 0) l.

Definition moved (m : motion) : Z * Z := match m with Move dx dy => (dx, dy) | Frame => (0, 0) end.

Lemma sum2_cons p l : sum2 (p :: l) = (p.1 + (sum2 l).1, p.2 + (sum2 l).2).
Proof. done. Qed.

Lemma sum2_app l l' : sum2 (l ++ l') = ((sum2 l).1 + (sum2 l').1, (sum2 l).2 + (sum2 l').2).
Proof.
  induction l as [|p l IH].
  - change (sum2 []) with (0, 0). change ([] ++ l') with l'. cbn [fst snd]. rewrite !Z.add_0_l. by destruct (sum2 l').
  - change (sum2 ((p :: l) ++ l')) with (p.1 + (sum2 (l ++ l')).1, p.2 + (sum2 (l ++ l')).2).
    change (sum2 (p :: l)) with (p.1 + (sum2 l).1, p.2 + (sum2 l).2).
    rewrite IH. cbn [fst snd]. f_equal; lia.
Qed.

(** Relative motion is on, without raw events, and the pointer is at [p]. *)
Definition relative (e : eglut_state) (p : Z * Z) : Prop :=
  rel_enabled e <> 0 /\ rel_raw e = 0 /\ has_mouse_raw (cbs e) = true /\ (rel_x e, rel_y e) = p.

Lemma wp_motion_relative x y px py w (Q : unit -> world X -> Prop) E :
  relative (eg w) (px, py) ->
  (forall w', relative (eg w') (x, y) ->
     calls w' = calls w ++ [mouse_raw_cb (inject_Z (x - px)) (inject_Z (y - py))] -> Q tt w') ->
  wp (motion_event app x y) w Q E.
Proof.
  intros (Hen & Hraw & Hcb & Hp) HQ. injection Hp as <- <-. unfold motion_event. wp_step. apply wp_get.
  rewrite (proj2 (Z.eqb_neq _ _) Hen), Hraw. cbn [negb Z.eqb]. wp_step. apply wp_call.
  rewrite Hcb. cbn. apply wp_upd. cbn. by apply HQ.
Qed.

Lemma wp_recenter w (Q : unit -> world X -> Prop) E px py :
  relative (eg w) (px, py) ->
  (let cx := Z.quot (win_width (eg w)) 2 in
   let cy := Z.quot (win_height (eg w)) 2 in
   forall w', calls w' = calls w ->
     relative (eg w') (if negb (cx =? px) || negb (cy =? py) then (cx, cy) else (px, py)) -> Q tt w') ->
  wp recenter w Q E.
Proof.
  intros (Hen & Hraw & Hcb & Hp) HQ. injection Hp as <- <-. unfold recenter. wp_step. apply wp_get.
  rewrite (proj2 (Z.eqb_neq _ _) Hen). cbn [negb].
  set (cx := Z.quot (win_width (eg w)) 2) in *. set (cy := Z.quot (win_height (eg w)) 2) in *.
  cbn zeta in *. destruct (negb (cx =? rel_x (eg w)) || negb (cy =? rel_y (eg w))); [|by apply HQ].
  wp_step. apply wp_upd. unfold eglutWarpMousePointer. wp_step. apply wp_get.
  destruct (negb (native_dpy _)); [by apply HQ|].
  wp_step. unfold req. apply wp_on_x. eapply wp_mono; [apply law_send| |done]. intros [] x1 Hq1.
  apply wp_on_x. eapply wp_mono; [apply law_send| |done]. intros [] x2 Hq2. by apply HQ.
Qed.

(** Relative motion is exact: over any sequence of pointer motions and
    loop rounds, the deltas handed to the raw mouse callback add up to what the
    user moved; the warps that keep the pointer in the middle of the window
    contribute nothing, and every report is consumed without undefined behaviour. *)
Theorem relative_motion_exact ms p w :
  relative (eg w) p ->
  wp (play_all ms p) w
     (fun p' w' => relative (eg w') p' /\
        sum2 (map raw_delta (calls w')) =
          ((sum2 (map raw_delta (calls w))).1 + (sum2 (map moved ms)).1,
           (sum2 (map raw_delta (calls w))).2 + (sum2 (map moved ms)).2))
     (fun _ _ => False).
Proof.
  revert p w. induction ms as [|m ms IH]; intros [px py] w Hr; cbn [play_all].
  { wp_step. split; [done|]. cbn. rewrite !Z.add_0_r. by destruct (sum2 _). }
  wp_step. apply (wp_conseq _ _ (fun p' w' => relative (eg w') p' /\
     sum2 (map raw_delta (calls w')) =
       ((sum2 (map raw_delta (calls w))).1 + (moved m).1, (sum2 (map raw_delta (calls w))).2 + (moved m).2))).
  - destruct m as [dx dy|]; unfold play; wp_step.
    + eapply wp_motion_relative; [exact Hr|]. intros w' Hr' Hc'. wp_step. split; [done|].
      rewrite Hc', map_app, sum2_app. cbn. f_equal; lia.
    + apply wp_get. wp_step. eapply wp_recenter; [exact Hr|]. cbn zeta. intros w' Hc' Hr'.
      pose proof Hr as (_ & _ & _ & Hp). injection Hp as -> ->. cbn [moved].
      destruct (_ || _).
      * wp_step. eapply wp_motion_relative; [exact Hr'|]. intros w2 Hr2 Hc2. wp_step. split; [done|].
        rewrite Hc2, Hc', map_app, sum2_app. cbn. f_equal; lia.
      * wp_step. split; [done|]. rewrite Hc'. cbn [fst snd]. rewrite !Z.add_0_r. apply surjective_pairing.
  - intros p' w' [Hr' Hs']. eapply wp_conseq; [by apply IH|]. intros p2 w2 [Hr2 Hs2].
    split; [done|]. rewrite Hs2, Hs'. cbn [map]. rewrite sum2_cons. cbn [fst snd]. f_equal; lia.
Qed.
End input.

(** ** Redisplay *)

(** A redisplay that a callback asks for while an event is handled is lost:
    [next_event] ends by storing its own flag, so after a filtered event or an
    event that is neither an exposure nor a key the flag is 0, whatever
    [eglutPostRedisplay] did in between. *)
Theorem next_event_drops_redisplay {X} `{Xlib X} (app : callback -> M (world X) unit) (w w' : world X) ev x1 :
  XNextEvent (xs w) = (Ret ev, x1) -> ev <> Expose -> is_key ev = false ->
  next_event app w = (Ret tt, w') -> redisplay (eg w') = 0.
Proof.
  intros Hn Hne Hk. unfold next_event, mbind, M_bind, on_x, zoom. rewrite Hn. cbn.
  rewrite Hk, orb_true_r. cbn. unfold on_x, zoom. cbn.
  destruct (XFilterEvent ev x1) as [[[]| | |] x2]; try (by intros [=]); cbn.
  { by intros [= <-]. }
  assert (Hz : forall w0 r w1, dispatch app ev w0 = (Ret r, w1) -> r = 0).
  { intros w0 r w1. destruct ev; try done; cbn; unfold mbind, M_bind.
    all: repeat match goal with |- context [match ?m with _ => _ end = _] => destruct m as [[]?] end.
    all: try (by intros [= <-]).
    all: by intros [=]. }
  destruct (dispatch app ev _) as [[r| | |] w1] eqn:Hd; try (by intros [=]).
  apply Hz in Hd as ->. by intros [= <-].
Qed.

(** *** Frames under continuous animation *)

Section animation.
Context {X : Type} `{XlibLaws X} (app : callback -> M (world X) unit).
Implicit Types (w : world X).

(** The display is open and the window has a display callback. *)
Definition drawable w : Prop := native_dpy (eg w) = true /\ has_display (cbs (eg w)) = true.

(** An application that posts the next redisplay while it draws, and otherwise
    does what it likes with the state as long as the window stays drawable and
    it reads no event itself. *)
Definition animating : Prop := forall w, drawable w ->
  wp (app display_cb) w
     (fun _ w' => drawable w' /\ redisplay (eg w') <> 0 /\ calls w' = calls w /\ queue (xs w') = queue (xs w))
     (fun _ _ => False).

(** The first [n] rounds of the event loop. *)
Fixpoint rounds (fuel n : nat) : M (world X) unit :=
  match n with
  | O => mret tt
  | S n =>
      st ← loop_step app fuel tt;
      match st with Next _ => rounds fuel n | Done _ => mret tt end
  end.

(** What is left alone by the calls that only talk to the server. *)
Definition same_but_server w w' : Prop :=
  drawable w' /\ redisplay (eg w') = redisplay (eg w) /\ calls w' = calls w /\ queue (xs w') = queue (xs w).

Lemma wp_req_server r w (Q : unit -> world X -> Prop) E :
  drawable w -> (forall w', same_but_server w w' -> eg w' = eg w -> Q tt w') -> wp (req r) w Q E.
Proof.
  intros Hd HQ. unfold req. apply wp_on_x. eapply wp_mono; [apply law_send| |done]. intros [] x Hx. by apply HQ.
Qed.

Lemma wp_recenter_server w (Q : unit -> world X -> Prop) E :
  drawable w -> (forall w', same_but_server w w' -> Q tt w') -> wp recenter w Q E.
Proof.
  intros Hd HQ. unfold recenter. wp_step. apply wp_get. destruct (negb (rel_enabled (eg w) =? 0)); [|by apply HQ].
  destruct (_ || _); [|by apply HQ]. wp_step. apply wp_upd. unfold eglutWarpMousePointer. wp_step. apply wp_get.
  destruct (negb (native_dpy _)); [by apply HQ|].
  wp_step. apply wp_req_server; [done|]. intros w1 (Hd1 & Hr1 & Hc1 & Hq1) _.
  apply wp_req_server; [done|]. intros w2 (Hd2 & Hr2 & Hc2 & Hq2) _. apply HQ. unfold same_but_server. by rewrite Hr2, Hc2, Hq2.
Qed.

Lemma wp_drain_pending fuel w (Q : unit -> world X -> Prop) E :
  (0 < fuel)%nat -> drawable w -> redisplay (eg w) <> 0 ->
  (forall w', same_but_server w w' -> Q tt w') -> wp (loop fuel (drain_step app) tt) w Q E.
Proof.
  intros Hf Hd Hr HQ. destruct fuel as [|fuel]; [lia|]. apply wp_loop_S. unfold drain_step. wp_step.
  apply wp_on_x. eapply wp_mono; [apply law_pending| |done]. intros n x [_ Hx]. wp_step. apply wp_get. cbn [eg].
  rewrite (proj2 (Z.eqb_neq _ 0) Hr), andb_false_r. wp_step. by apply HQ.
Qed.

(** One round with a redisplay pending draws one frame. *)
Lemma wp_round fuel w :
  (0 < fuel)%nat -> animating -> drawable w -> redisplay (eg w) <> 0 ->
  wp (loop_step app fuel tt) w
     (fun st w' => st = Next tt /\ drawable w' /\ redisplay (eg w') <> 0 /\
                   calls w' = calls w ++ [display_cb] /\ queue (xs w') = queue (xs w)) (fun _ _ => False).
Proof.
  intros Hf Ha Hd Hr. unfold loop_step. wp_step. apply wp_get. rewrite (proj1 Hd). cbn [negb].
  wp_step. apply wp_drain_pending; [done|done|done|]. intros w1 (Hd1 & Hr1 & Hc1 & Hq1). wp_step. apply wp_get.
  wp_step. rewrite Hr1, (proj2 (Z.eqb_neq _ 0) Hr). wp_step. wp_step. apply wp_recenter_server; [done|].
  intros w2 (Hd2 & Hr2 & Hc2 & Hq2). wp_step. apply wp_get. wp_step.
  rewrite Hr2, Hr1, (proj2 (Z.eqb_neq _ 0) Hr). cbn [negb]. wp_step. apply wp_upd. unfold call. wp_step. apply wp_get.
  cbn. destruct Hd2 as [Ho2 Hp2]. rewrite Hp2. wp_step. unfold wp at 1.
  eapply wp_mono; [apply Ha| |done]; [done|]. cbn. intros [] w3 (Hd3 & Hr3 & Hc3 & Hq3). wp_step.
  split_and!; [done|by destruct Hd3..|done|by rewrite Hc3, Hc2, Hc1|by rewrite Hq3, Hq2].
Qed.

(** C40: A frame in every round: while the application posts the next
    redisplay from its display callback, every round of the event loop calls
    that callback exactly once and posts no other callback, for any number of
    rounds. The other side of it: none of the events that wait in the queue is
    read, the loop only looks at events in a round that has nothing to draw. *)
Theorem animation_draws fuel n w :
  (0 < fuel)%nat -> animating -> drawable w -> redisplay (eg w) <> 0 ->
  wp (rounds fuel n) w
     (fun _ w' => drawable w' /\ redisplay (eg w') <> 0 /\
                  calls w' = calls w ++ replicate n display_cb /\ queue (xs w') = queue (xs w)) (fun _ _ => False).
Proof.
  intros Hf Ha. revert w. induction n as [|n IH]; intros w Hd Hr; cbn [rounds].
  { wp_step. by rewrite app_nil_r. }
  wp_step. eapply wp_conseq; [by apply wp_round|]. intros st w' (-> & Hd' & Hr' & Hc' & Hq').
  eapply wp_conseq; [by apply IH|]. intros [] w2 (Hd2 & Hr2 & Hc2 & Hq2). split_and!; try done.
  - rewrite Hc2, Hc', <- app_assoc. done.
  - by rewrite Hq2.
Qed.
End animation.

(** ** A small X server *)

Record xsim : Type := XSim { x_queue : list xevent; x_sent : list request }.

(** Keys above 100 have no text; key 50 types a text of nine bytes. *)
Definition xsim_text (k : xkey) : list Z :=
  if 100 <? k_keycode k then []
  else if k_keycode k =? 50 then [240; 159; 145; 169; 226; 128; 141; 240; 159] else [k_keycode k].

#[global] Instance xsim_xlib : Xlib xsim := {
  XPending := fun x => (Ret (zlen (x_queue x)), x);
  XNextEvent := fun x =>
    match x_queue x with
    | ev :: q => (Ret ev, XSim q (x_sent x))
    | [] => (NoFuel, x)
    end;
  XFilterEvent := fun _ x => (Ret false, x);
  Xutf8LookupString := fun k n x =>
    (Ret (zlen (xsim_text k), if n <? zlen (xsim_text k) then [] else xsim_text k, n <? zlen (xsim_text k)), x);
  XLookupKeysym := fun k x => (Ret (k_keycode k), x);
  XEventsQueued := fun x => (Ret (zlen (x_queue x)), x);
  XPeekEvent := fun x => match x_queue x with ev :: _ => (Ret ev, x) | [] => (NoFuel, x) end;
  XInternAtom := fun s x => (Ret (zlen s), x);
  XGetEventData := fun x => (Ret true, x);
  XGetWindowProperty := fun _ _ x =>
    (Ret (0, Some (file_prefix ++ [47; 97; 37; 50; 48; 98; 13; 10; 35; 13; 10])), x);
  XGetSelectionOwner := fun _ x => (Ret 0, x);
  XIQueryDevice := fun x => (Ret [(2, true); (3, false)], x);
  send := fun r x => (Ret tt, XSim (x_queue x) (x_sent x ++ [r]))
}.

#[global] Instance xsim_laws : XlibLaws xsim.
Proof.
  refine {| queue := x_queue; text_of := xsim_text |}; intros; unfold wp; cbn; try done.
  - by rewrite H.
  - by rewrite H.
Defined.

Definition all_callbacks : callbacks :=
  Callbacks true true true true true true true true true true true true true true true.

Definition eg0 : eglut_state :=
  Eglut true 77 0 0 0 300 200 0 all_callbacks 0 0 true 131 1 10 20 0 0 []
    (Atoms 1 2 3 4 5 6 7 8 9) 0 0 0.

Definition no_app (c : callback) : M (world xsim) unit := mret tt.

Lemma decode_line_correct_witness :
  cstr (file_prefix ++ [104; 47; 37; 52; 49; 0]) 0 (file_prefix ++ [104; 47; 37; 52; 49]) /\
  wp (decode_line (file_prefix ++ [104; 47; 37; 52; 49; 0]) 0) tt
     (fun r st' => st' = tt /\
        if bool_decide (head (file_prefix ++ [104; 47; 37; 52; 49]) = Some 35) then r = None
        else if bool_decide (file_prefix `prefix_of` file_prefix ++ [104; 47; 37; 52; 49]) then
          exists host rest, file_prefix ++ [104; 47; 37; 52; 49] = file_prefix ++ host ++ 47 :: rest /\
            (47 ∉ host) /\ r = Some (c_string (percent (47 :: rest)))
        else r = Some (c_string (percent (file_prefix ++ [104; 47; 37; 52; 49]))))
     (fun _ _ => False).
Proof.
  assert (Hc : cstr (file_prefix ++ [104; 47; 37; 52; 49; 0]) 0 (file_prefix ++ [104; 47; 37; 52; 49]))
    by (apply (cstr_intro (file_prefix ++ [104; 47; 37; 52; 49]) []); repeat constructor; lia).
  split; [exact Hc|].
  apply (decode_line_correct _ (file_prefix ++ [104; 47; 37; 52; 49]) 0 tt Hc).
  intros u Hu. apply app_inv_head in Hu. subst u. exists [104], [37; 52; 49].
  split; [reflexivity|]. intros Hin. apply list_elem_of_singleton in Hin. discriminate.
Defined.

Lemma decode_line_overrun_witness :
  fst (decode_line (file_prefix ++ [104] ++ [0]) 0 tt) = Undef.
Proof.
  apply (decode_line_overrun [104] tt). intros Hin. apply list_elem_of_singleton in Hin. discriminate.
Defined.

Lemma key_release_correct_witness :
  quiet no_app /\
  let k := XKey 77 65 5 0 in
  let w := World eg0 (XSim [KeyPress (XKey 77 65 5 1); Expose] []) [] in
  wp (key_event no_app false k) w
     (fun redraw w' => eg w' = eg w /\
        let t := text_of k in
        exists type k' sym buf,
          calls w' = calls w ++ made ((0 <? zlen t) && has_keyboard (cbs (eg w))) (keyboard_cb buf type)
                     ++ made ((0 <=? s32 sym) && has_special (cbs (eg w)))
                          (special_cb (s32 sym) type (k_state k')) /\
          ztake (zlen t) buf = map Some t /\ (znth buf (zlen t) = Some (Some 0) <-> zlen t < 8) /\
          match repeats k (queue (xs w)) with
          | Some (a, q') =>
              type = EGLUT_KEY_REPEAT /\ k' = a /\ redraw = 0 /\ queue (xs w') = q'
          | None =>
              type = EGLUT_KEY_RELEASE /\ k' = k /\ redraw = 1 /\ queue (xs w') = queue (xs w)
          end)
     (fun _ _ => False).
Proof.
  assert (Hq : quiet no_app) by (intros c w; reflexivity).
  split; [exact Hq|]. cbv zeta. apply (key_release_correct no_app Hq).
Defined.

Lemma relative_motion_exact_witness :
  relative eg0 (10, 20) /\
  wp (play_all no_app [Move 3 (-4); Frame; Move 1 1] (10, 20)) (World eg0 (XSim [] []) [])
     (fun p' w' => relative (eg w') p' /\ sum2 (map raw_delta (calls w')) = (4, -3))
     (fun _ _ => False).
Proof.
  assert (Hr : relative eg0 (10, 20)) by (split; [discriminate|repeat split]).
  split; [exact Hr|].
  apply (relative_motion_exact no_app (fun c w => eq_refl) [Move 3 (-4); Frame; Move 1 1] (10, 20)
           (World eg0 (XSim [] []) []) Hr).
Defined.

(** The application asks for a redisplay in every callback. *)
Definition posting (c : callback) : M (world xsim) unit := eglutPostRedisplay.

Lemma next_event_drops_redisplay_witness :
  let w := World (set_rel 0 0 0 0 eg0) (XSim [MotionNotify 5 6] []) [] in
  exists w', next_event posting w = (Ret tt, w') /\ calls w' = [mouse_cb 5 6] /\ redisplay (eg w') = 0.
Proof.
  cbv zeta. eexists. split; [vm_compute; reflexivity|]. split; [reflexivity|].
  apply (next_event_drops_redisplay posting (World (set_rel 0 0 0 0 eg0) (XSim [MotionNotify 5 6] []) [])
           _ (MotionNotify 5 6) (XSim [] [])); [reflexivity|discriminate|reflexivity|vm_compute; reflexivity].
Defined.

(** A drop of two lines: the path is decoded, the comment skipped, and the
    source is told. *)
Example drop_run :
  let w := snd (selection_notify no_app 9 3 7 (World (set_dnd 9 5 9 eg0) (XSim [] []) [])) in
  calls w = [drop_cb [47; 97; 32; 98]] /\
  x_sent (xs w) = [XSendClientMessage (Some 9) 9 7 77 18 8 0 0; XFlush].
Proof. vm_compute. auto. Qed.

Lemma animation_draws_witness :
  let w := World (set_redisplay 1 eg0) (XSim [MotionNotify 5 6; Expose] []) [] in
  wp (rounds posting 1 3) w
     (fun _ w' => calls w' = [display_cb; display_cb; display_cb] /\ x_queue (xs w') = [MotionNotify 5 6; Expose])
     (fun _ _ => False).
Proof.
  assert (Ha : animating posting) by (intros w Hd; cbv; by destruct w).
  eapply wp_conseq; [apply (animation_draws posting 1 3); [lia|exact Ha|done|done]|].
  intros [] w' (_ & _ & Hc & Hq). by split.
Defined.
