(* ===== verification/EglutWindow.v ===== *)
(** * Windows of the toolkit: [eglut/src/eglut.c] and the window half of [eglut_x11.c]

    Initialisation, the choice of an EGL configuration, the creation and the
    destruction of windows, and the functions that set and read the fields of
    the current window. EGL, Xlib and the C library are a parameter: a class of
    calls, each of which answers and always returns. The windows are allocated
    and never freed, so the heap is a list and a pointer a position in it. The
    calls that create, bind or destroy something are recorded in [log].
    [_eglutFatal], which exits with status 1, is the error 1. *)
From S2P Require Import Prelude CString.
From coqutil Require Import Datatypes.RecordSetters.
Import DoubleBraceUpdate.

(** ** Data *)

(** The callback members of [struct eglut_window]. *)
Inductive slot : Type :=
  | Reshape | Display | Keyboard | Drop | Special | Paste | Mouse | MouseRaw | MouseButton
  | TouchStart | TouchUpdate | TouchEnd | Focus | Close.

#[global] Instance slot_eq_dec : EqDecision slot.
Proof. solve_decision. Defined.

Definition slots : list slot :=
  [Reshape; Display; Keyboard; Drop; Special; Paste; Mouse; MouseRaw; MouseButton;
   TouchStart; TouchUpdate; TouchEnd; Focus; Close].

#[global] Program Instance slot_countable : Countable slot := {|
  encode s := Pos.of_succ_nat (default 0%nat (fst <$> list_find (eq s) slots));
  decode p := slots !! pred (Pos.to_nat p) |}.
Next Obligation. by intros []. Qed.

(** A function pointer: of the application, or [_eglutDefaultKeyboard]. NULL is
    the absence of a callback. *)
Inductive fn : Type :=
  | AppFn (address : Z)
  | DefaultKeyboard.

Record egl_window : Type := Win {
  config : Z; context : Z;
  u_window : Z; nat_x : Z; nat_y : Z; nat_width : Z; nat_height : Z;
  surface : Z; index : Z;
  cb : gmap slot fn;
  kbdstate : Z }.

(** [calloc(1, sizeof( *win))] *)
Definition new_window : egl_window := Win 0 0 0 0 0 0 0 0 0 ∅ 0.

(** [struct eglut_state], the static variables of [eglut_x11.c] and
    [xinput.c]; NULL pointers to strings are [None]. *)
Record eglut : Type := EglutState {
  api_mask : Z; window_width : Z; window_height : Z; fullscreen : Z;
  display_name : option (list Z); verbose : Z; init_time : Z;
  idle : option fn; num_windows : Z;
  ndpy : Z; surface_type : Z; dpy : Z; egl_version : Z * Z;
  current : option nat; post_redisplay : Z; dnd_atoms : list Z;
  ClassName : option (list Z); ClassInstanceName : option (list Z); x11_ic : Z;
  xi_initialized : bool; xi_rt_initialized : bool; xi_handle : Z; xi_available : bool; xi_opcode : Z;
  heap : list egl_window }.

(** For [eglutInitAPIMask]. *)
Definition EGLUT_OPENGL_BIT : Z := 0x1.
Definition EGLUT_OPENGL_ES1_BIT : Z := 0x2.
Definition EGLUT_OPENGL_ES2_BIT : Z := 0x4.
Definition EGLUT_OPENVG_BIT : Z := 0x8.

(** The initial state. *)
Definition _eglut_state : eglut :=
  EglutState EGLUT_OPENGL_ES1_BIT 300 300 0 None 0 0 None 0 0 0 0 (0, 0) None 0 [] None None 0
    false false 0 false 0 [].

(** The calls with an effect that lasts. A property has the bytes of the object
    that the caller passes and the number of its items. *)
Inductive action : Type :=
  | CreateContext (c : Z)
  | DestroyContext (c : Z)
  | CreateSurface (s : Z)
  | DestroySurface (s : Z)
  | CreateXWindow (w : Z)
  | DestroyXWindow (w : Z)
  | BindAPI (api : Z)
  | MakeCurrent (s c : Z)
  | ReleaseCurrent
  | Terminate
  | CloseDisplay
  | NormalHints (w x y width height gravity flags : Z)
  | ClassHint (w : Z) (name class : option (list Z))
  | SelectTouch (w : Z)
  | WMProtocols (w a : Z)
  | ChangeProperty (w property type format : Z) (object : list Z) (nelements : Z)
  | MapWindow (w : Z)
  | SetLocale
  | SetICFocus (ic : Z).

(** The external calls; each returns an answer. A handle 0 is NULL or none. *)
Class Platform (X : Type) := {
  calloc_ok : X -> bool * X;
  getenv : list Z -> X -> option (list Z) * X;
  basename : list Z -> list Z;
  getpid : X -> list Z * X;
  gettimeofday : X -> (Z * Z) * X;
  dlopen_xi : X -> Z * X;
  XOpenDisplay : option (list Z) -> X -> Z * X;
  XQueryExtension : X -> option Z * X;
  XIQueryVersion : X -> bool * X;
  XGetVisualInfo : Z -> X -> option (Z * Z) * X;
  XCreateColormap : Z -> X -> Z * X;
  XCreateWindow : Z * Z * Z * Z -> Z * Z * Z -> X -> Z * X;
  InternAtom : list Z -> X -> Z * X;
  XOpenIM : X -> Z * X;
  XCreateIC : Z -> Z -> X -> Z * X;
  eglGetDisplay : Z -> X -> Z * X;
  eglInitialize : Z -> X -> option (Z * Z) * X;
  eglChooseConfig : list (Z * Z) -> X -> (bool * Z * Z) * X;
  eglGetConfigAttrib : Z -> Z -> X -> option Z * X;
  eglCreateContext : Z -> list (Z * Z) -> X -> Z * X;
  eglCreateWindowSurface : Z -> Z -> X -> Z * X;
  eglCreatePixmapSurface : Z -> Z -> X -> Z * X;
  eglMakeCurrent : Z -> Z -> X -> bool * X
}.

Record session (X : Type) : Type := Session { st : eglut; platform : X; log : list action }.
Arguments Session {X}.
Arguments st {X}.
Arguments platform {X}.
Arguments log {X}.

(** *** Constants of <EGL/egl.h>, <X11/Xlib.h> and [eglut.h] *)

Definition EGL_PBUFFER_BIT : Z := 0x1.
Definition EGL_PIXMAP_BIT : Z := 0x2.
Definition EGL_WINDOW_BIT : Z := 0x4.
Definition EGL_OPENGL_ES_BIT : Z := 0x1.
Definition EGL_OPENVG_BIT : Z := 0x2.
Definition EGL_OPENGL_ES2_BIT : Z := 0x4.
Definition EGL_OPENGL_BIT : Z := 0x8.
Definition EGL_ALPHA_SIZE : Z := 0x3021.
Definition EGL_BLUE_SIZE : Z := 0x3022.
Definition EGL_GREEN_SIZE : Z := 0x3023.
Definition EGL_RED_SIZE : Z := 0x3024.
Definition EGL_DEPTH_SIZE : Z := 0x3025.
Definition EGL_STENCIL_SIZE : Z := 0x3026.
Definition EGL_NATIVE_VISUAL_ID : Z := 0x302E.
Definition EGL_SURFACE_TYPE : Z := 0x3033.
Definition EGL_NONE : Z := 0x3038.
Definition EGL_RENDERABLE_TYPE : Z := 0x3040.
Definition EGL_CONTEXT_CLIENT_VERSION : Z := 0x3098.
Definition EGL_OPENGL_ES_API : Z := 0x30A0.
Definition EGL_OPENVG_API : Z := 0x30A1.
Definition EGL_OPENGL_API : Z := 0x30A2.

Definition CenterGravity : Z := 5.
Definition USPosition : Z := 1.
Definition USSize : Z := 2.
Definition PWinGravity : Z := 512.
(** StructureNotify, Exposure, KeyPress, KeyRelease, PointerMotion, ButtonPress,
    ButtonRelease and FocusChange. *)
Definition event_mask : Z := 131072 + 32768 + 1 + 2 + 64 + 4 + 8 + 2097152.

Definition EGLUT_ELAPSED_TIME : Z := 0.
Definition EGLUT_FULLSCREEN_MODE : Z := 1.

(** *** Attribute lists: arrays of names and values *)

(** [attribs[i++] = v] *)
Definition put (v : Z) '((a, i) : list Z * Z) : list Z * Z := (zupd a i v, i + 1).

(** What EGL reads: pairs up to [EGL_NONE]; an array without it is overrun. *)
Fixpoint attrib_list (a : list Z) : option (list (Z * Z)) :=
  match a with
  | [] => None
  | n :: a =>
      if n =? EGL_NONE then Some []
      else match a with v :: a => cons (n, v) <$> attrib_list a | [] => None end
  end.

(** *** The icon *)

(** [*((unsigned int * ) &data[i]) = v], on a little-endian machine. *)
Definition put_uint (i v : Z) : M (list Z) unit :=
  wr i (u8 v);;
  wr (i + 1) (u8 (Z.shiftr v 8));;
  wr (i + 2) (u8 (Z.shiftr v 16));;
  wr (i + 3) (u8 (Z.shiftr v 24)).

(** One iteration of the loop from the last pixel to the first. *)
Definition icon_step (img_data : list Z) (i : Z) : M (list Z) (step Z unit) :=
  if 0 <=? i then
    a ← rd img_data (i + 3);
    wr (8 + i + 3) a;;
    r ← rd img_data (i + 0);
    wr (8 + i + 2) r;;
    g ← rd img_data (i + 1);
    wr (8 + i + 1) g;;
    b ← rd img_data (i + 2);
    wr (8 + i + 0) b;;
    mret (Next (i - 4))
  else mret (Done tt).

(** The contents of [data]; the products are of [unsigned int]s. *)
Definition icon_data (img_w img_h : Z) (img_data : list Z) : M (list Z) unit :=
  put_uint 0 img_w;;
  put_uint 4 img_h;;
  let i := u32 ((u32 (img_w * img_h) - 1) * 4) in
  loop (Z.to_nat (i / 4) + 2) (icon_step img_data) i.

(** The size of the block for [data]. *)
Definition icon_size (img_w img_h : Z) : Z := u32 (u32 (img_w * img_h + 2) * 4).

Section eglut.
Context {X : Type} `{Platform X}.

(** An external call, the state, and the record. *)
Definition ask {A} (f : X -> A * X) : M (session X) A := fun s =>
  let '(a, x) := f (platform s) in (Ret a, Session (st s) x (log s)).
Definition get : M (session X) eglut := fun s => (Ret (st s), s).
Definition upd (f : eglut -> eglut) : M (session X) unit :=
  fun s => (Ret tt, Session (f (st s)) (platform s) (log s)).
Definition act (a : action) : M (session X) unit :=
  fun s => (Ret tt, Session (st s) (platform s) (log s ++ [a])).

(** [win->...] through a pointer, and through [_eglut->current], which may be NULL. *)
Definition deref (p : nat) : M (session X) egl_window := fun s =>
  match heap (st s) !! p with Some w => (Ret w, s) | None => (Undef, s) end.
Definition upd_win (p : nat) (f : egl_window -> egl_window) : M (session X) unit :=
  upd (fun e => e{{ heap := alter f p (heap e) }}).
Definition cur : M (session X) nat :=
  e ← get;
  match current e with Some p => mret p | None => undef end.

Definition _eglutFatal {A} : M (session X) A := fail 1.

Definition has_bit (mask bit : Z) : bool := negb (Z.land mask bit =? 0).

(** ** Configurations *)

Definition renderable_type (mask : Z) : Z :=
  let r := 0x0 in
  let r := if has_bit mask EGLUT_OPENGL_BIT then Z.lor r EGL_OPENGL_BIT else r in
  let r := if has_bit mask EGLUT_OPENGL_ES1_BIT then Z.lor r EGL_OPENGL_ES_BIT else r in
  let r := if has_bit mask EGLUT_OPENGL_ES2_BIT then Z.lor r EGL_OPENGL_ES2_BIT else r in
  if has_bit mask EGLUT_OPENVG_BIT then Z.lor r EGL_OPENVG_BIT else r.

Definition _eglutAddCommonConfigAttrs (e : eglut) (a : list Z * Z) : list Z * Z :=
  put (renderable_type (api_mask e)) (put EGL_RENDERABLE_TYPE
    (put (surface_type e) (put EGL_SURFACE_TYPE a))).

Definition put_size (name v : Z) (a : list Z * Z) : list Z * Z := put v (put name a).

(** [config_attribs] for the first and the second attempt, which writes over
  the first one's array. *)
Definition attribs_alpha (e : eglut) (a : list Z) : list Z :=
  let p := put_size EGL_BLUE_SIZE 1 (put_size EGL_GREEN_SIZE 1 (put_size EGL_RED_SIZE 1 (a, 0))) in
  let p := put_size EGL_STENCIL_SIZE 8 (put_size EGL_DEPTH_SIZE 1 (put_size EGL_ALPHA_SIZE 1 p)) in
  fst (put EGL_NONE (_eglutAddCommonConfigAttrs e p)).

Definition attribs_opaque (e : eglut) (a : list Z) : list Z :=
  let p := put_size EGL_BLUE_SIZE 1 (put_size EGL_GREEN_SIZE 1 (put_size EGL_RED_SIZE 1 (a, 0))) in
  let p := put_size EGL_STENCIL_SIZE 8 (put_size EGL_DEPTH_SIZE 1 p) in
  fst (put EGL_NONE (_eglutAddCommonConfigAttrs e p)).

Definition read_attribs (a : list Z) : M (session X) (list (Z * Z)) :=
  match attrib_list a with Some l => mret l | None => undef end.

(** The array on the stack holds [garbage] at first. *)
Definition _eglutChooseConfig (garbage : list Z) : M (session X) Z :=
  e ← get;
  let a := attribs_alpha e garbage in
  l ← read_attribs a;
  '(ok, c, n) ← ask (eglChooseConfig l);
  if ok && negb (n =? 0) then mret c
  else
    let a := attribs_opaque e a in
    l ← read_attribs a;
    '(ok, c, n) ← ask (eglChooseConfig l);
    if ok && negb (n =? 0) then mret c
    else _eglutFatal.

(** ** The X11 window *)

(** "WM_DELETE_WINDOW", "_NET_WM_PID", "CARDINAL", "XdndAware" and the atoms of
  drag and drop in the order they are interned, as ASCII. *)
Definition wm_delete : list Z := [87; 77; 95; 68; 69; 76; 69; 84; 69; 95; 87; 73; 78; 68; 79; 87].
Definition net_wm_pid : list Z := [95; 78; 69; 84; 95; 87; 77; 95; 80; 73; 68].
Definition net_wm_icon : list Z := [95; 78; 69; 84; 95; 87; 77; 95; 73; 67; 79; 78].
Definition cardinal : list Z := [67; 65; 82; 68; 73; 78; 65; 76].
Definition xdnd (suffix : list Z) : list Z := [88; 100; 110; 100] ++ suffix.
Definition xdnd_aware : list Z := xdnd [65; 119; 97; 114; 101].
Definition dnd_names : list (list Z) :=
  [xdnd [84; 121; 112; 101; 76; 105; 115; 116];
   xdnd [83; 101; 108; 101; 99; 116; 105; 111; 110];
   xdnd [69; 110; 116; 101; 114];
   xdnd [80; 111; 115; 105; 116; 105; 111; 110];
   xdnd [83; 116; 97; 116; 117; 115];
   xdnd [76; 101; 97; 118; 101];
   xdnd [68; 114; 111; 112];
   xdnd [70; 105; 110; 105; 115; 104; 101; 100];
   xdnd [65; 99; 116; 105; 111; 110; 67; 111; 112; 121];
   [116; 101; 120; 116; 47; 117; 114; 105; 45; 108; 105; 115; 116]].

Fixpoint intern (names : list (list Z)) : M (session X) (list Z) :=
  match names with
  | [] => mret []
  | n :: names => a ← ask (InternAtom n); l ← intern names; mret (a :: l)
  end.

(** Hints and properties of a new window. *)
Definition set_hints (xwin x y w h : Z) : M (session X) unit :=
  e ← get;
  (if (x =? -1) && (y =? -1) then
     act (NormalHints xwin x y w h CenterGravity (Z.lor USSize PWinGravity))
   else act (NormalHints xwin x y w h 0 (Z.lor USSize USPosition)));;
  act (ClassHint xwin (ClassInstanceName e)
         (match ClassName e with Some c => Some c | None => ClassInstanceName e end)).

Definition set_properties (xwin : Z) : M (session X) unit :=
  wm_pid ← ask (InternAtom net_wm_pid);
  card ← ask (InternAtom cardinal);
  pid ← ask getpid;
  act (ChangeProperty xwin wm_pid card 32 pid (zlen pid));;
  aware ← ask (InternAtom xdnd_aware);
  act (ChangeProperty xwin aware 4 32 [5] 1);;
  atoms ← intern dnd_names;
  upd (fun e => e{{ dnd_atoms := atoms }}).

Definition _eglutNativeInitWindow (win : nat) (x y w h : Z) : M (session X) unit :=
  v ← deref win;
  vid ← ask (eglGetConfigAttrib (config v) EGL_NATIVE_VISUAL_ID);
  match vid with
  | None => _eglutFatal
  | Some vid =>
      visInfo ← ask (XGetVisualInfo vid);
      match visInfo with
      | None => _eglutFatal
      | Some (visual, depth) =>
          colormap ← ask (XCreateColormap visual);
          xwin ← ask (XCreateWindow (x, y, w, h) (depth, visual, colormap));
          (if xwin =? 0 then _eglutFatal else mret tt);;
          act (CreateXWindow xwin);;
          set_hints xwin x y w h;;
          upd_win win (fun v => v{{ u_window := xwin; nat_width := w; nat_height := h }});;
          e ← get;
          (if xi_available e then act (SelectTouch xwin) else mret tt);;
          del ← ask (InternAtom wm_delete);
          act (WMProtocols xwin del);;
          im ← ask XOpenIM;
          (if negb (im =? 0) then
             ic ← ask (XCreateIC im xwin);
             upd (fun e => e{{ x11_ic := ic }})
           else mret tt);;
          set_properties xwin
      end
  end.

Definition _eglutNativeFiniWindow (win : nat) : M (session X) unit :=
  v ← deref win;
  act (DestroyXWindow (u_window v)).

(** ** Windows *)

(** The API that is bound and the attributes of the context. *)
Definition context_api (mask : Z) : Z :=
  if has_bit mask EGLUT_OPENGL_BIT then EGL_OPENGL_API
  else if has_bit mask EGLUT_OPENVG_BIT then EGL_OPENVG_API
  else EGL_OPENGL_ES_API.

Definition context_attribs (mask : Z) (garbage : list Z) : list Z :=
  let a := zupd garbage 0 EGL_NONE in
  let p :=
    if has_bit mask EGLUT_OPENGL_BIT || has_bit mask EGLUT_OPENVG_BIT then (a, 0)
    else if has_bit mask EGLUT_OPENGL_ES2_BIT then put 2 (put EGL_CONTEXT_CLIENT_VERSION (a, 0))
    else (a, 0) in
  fst (put EGL_NONE p).

(** [win->surface = ...]; for a pbuffer it is the native member, which shares its
  storage with the window. *)
Definition create_surface (win : nat) : M (session X) unit :=
  e ← get;
  v ← deref win;
  (if surface_type e =? EGL_WINDOW_BIT then
     s ← ask (eglCreateWindowSurface (config v) (u_window v));
     upd_win win (fun v => v{{ surface := s }})
   else if surface_type e =? EGL_PIXMAP_BIT then
     s ← ask (eglCreatePixmapSurface (config v) (u_window v));
     upd_win win (fun v => v{{ surface := s }})
   else if surface_type e =? EGL_PBUFFER_BIT then
     upd_win win (fun v => v{{ surface := u_window v }})
   else mret tt);;
  v ← deref win;
  if surface v =? 0 then _eglutFatal else act (CreateSurface (surface v)).

Definition _eglutCreateWindow (garbage garbage4 : list Z) (x y w h : Z) : M (session X) nat :=
  ok ← ask calloc_ok;
  (if negb ok then _eglutFatal else mret tt);;
  e ← get;
  let win := length (heap e) in
  upd (fun e => e{{ heap := heap e ++ [new_window] }});;
  c ← _eglutChooseConfig garbage;
  upd_win win (fun v => v{{ config := c }});;
  act (BindAPI (context_api (api_mask e)));;
  l ← read_attribs (context_attribs (api_mask e) garbage4);
  ctx ← ask (eglCreateContext c l);
  upd_win win (fun v => v{{ context := ctx }});;
  (if ctx =? 0 then _eglutFatal else act (CreateContext ctx));;
  _eglutNativeInitWindow win x y w h;;
  create_surface win;;
  mret win.

Definition _eglutDestroyWindow (win : nat) : M (session X) unit :=
  e ← get;
  v ← deref win;
  (if negb (surface_type e =? EGL_PBUFFER_BIT) then act (DestroySurface (surface v)) else mret tt);;
  _eglutNativeFiniWindow win;;
  act (DestroyContext (context v)).

(** [eglMakeCurrent(dpy, s, s, c)], and without surface and context. *)
Definition make_current (s c : Z) : M (session X) bool :=
  ok ← ask (eglMakeCurrent s c);
  (if ok : bool then act (MakeCurrent s c) else mret tt);;
  mret ok.

Definition release_current : M (session X) unit :=
  ask (eglMakeCurrent 0 0);;
  act ReleaseCurrent.

Definition eglutCreateWindow (garbage garbage4 : list Z) : M (session X) Z :=
  e ← get;
  win ← _eglutCreateWindow garbage garbage4 (-1) (-1) (window_width e) (window_height e);
  e ← get;
  upd (fun e => e{{ num_windows := num_windows e + 1 }});;
  upd_win win (fun v => v{{ index := num_windows e;
    cb ::= (fun m => delete MouseButton (delete Mouse (delete Special
             (<[Keyboard := DefaultKeyboard]> (delete Display (delete Reshape m)))))) }});;
  v ← deref win;
  ok ← make_current (surface v) (context v);
  (if negb ok then _eglutFatal else mret tt);;
  upd (fun e => e{{ current := Some win }});;
  mret (index v).

Definition eglutMakeCurrent (win : Z) : M (session X) unit :=
  if negb (win =? -1) then
    p ← cur;
    v ← deref p;
    if negb (index v =? win) then mret tt
    else
      ok ← make_current (surface v) (context v);
      if negb ok then _eglutFatal else mret tt
  else release_current.

Definition eglutDestroyWindow (win : Z) : M (session X) unit :=
  p ← cur;
  v ← deref p;
  if negb (index v =? win) then mret tt
  else
    release_current;;
    _eglutDestroyWindow p.

(** ** Initialisation, options and time *)

Definition eglutInitAPIMask (mask : Z) : M (session X) unit := upd (fun e => e{{ api_mask := mask }}).

Definition eglutInitWindowSize (width height : Z) : M (session X) unit :=
  upd (fun e => e{{ window_width := width; window_height := height }}).

Definition eglutInitX11ClassInstanceName (value : option (list Z)) : M (session X) unit :=
  upd (fun e => e{{ ClassInstanceName := value }}).

Definition eglutInitX11ClassName (value : option (list Z)) : M (session X) unit :=
  upd (fun e => e{{ ClassName := value }}).

(** [tv_sec * 1000 + tv_usec / 1000], returned as an [int]. *)
Definition _eglutNow : M (session X) Z :=
  '(tv_sec, tv_usec) ← ask gettimeofday;
  mret (s32 (tv_sec * 1000 + Z.quot tv_usec 1000)).

(** "-display", "-info", "-name", "RESOURCE_NAME" *)
Definition opt_display : list Z := [45; 100; 105; 115; 112; 108; 97; 121].
Definition opt_info : list Z := [45; 105; 110; 102; 111].
Definition opt_name : list Z := [45; 110; 97; 109; 101].
Definition resource_name : list Z := [82; 69; 83; 79; 85; 82; 67; 69; 95; 78; 65; 77; 69].

(** The options in [argv[1..argc-1]]; [argv[argc]] is NULL. The result is [resname]. *)
Fixpoint parse_args (args : list (list Z)) (resname : option (list Z)) : M (session X) (option (list Z)) :=
  match args with
  | [] => mret resname
  | a :: args =>
      if bool_decide (a = opt_display) then
        upd (fun e => e{{ display_name := head args }});;
        match args with [] => mret resname | _ :: args => parse_args args resname end
      else if bool_decide (a = opt_info) then
        upd (fun e => e{{ verbose := 1 }});;
        parse_args args resname
      else if bool_decide (a = opt_name) then
        match args with [] => mret None | v :: args => parse_args args (Some v) end
      else parse_args args resname
  end.

Definition _eglutInitXinputRt : M (session X) unit :=
  e ← get;
  if xi_rt_initialized e then mret tt
  else
    upd (fun e => e{{ xi_rt_initialized := true }});;
    h ← ask dlopen_xi;
    upd (fun e => e{{ xi_handle := h }}).

Definition _eglutCheckXinput : M (session X) bool :=
  e ← get;
  if xi_handle e =? 0 then mret false
  else
    opcode ← ask XQueryExtension;
    match opcode with
    | None => mret false
    | Some o =>
        upd (fun e => e{{ xi_opcode := o }});;
        ask XIQueryVersion
    end.

Definition _eglutInitXinput : M (session X) unit :=
  e ← get;
  if xi_initialized e then mret tt
  else
    upd (fun e => e{{ xi_initialized := true }});;
    _eglutInitXinputRt;;
    b ← _eglutCheckXinput;
    upd (fun e => e{{ xi_available := b }}).

(** "MCPELAUNCHER_FEATURE_IME" *)
Definition feature_ime : list Z :=
  [77; 67; 80; 69; 76; 65; 85; 78; 67; 72; 69; 82; 95; 70; 69; 65; 84; 85; 82; 69; 95; 73; 77; 69].

Definition _eglutNativeInitDisplay : M (session X) unit :=
  res ← ask (getenv feature_ime);
  (if bool_decide (res = Some [49]) then act SetLocale else mret tt);;
  e ← get;
  d ← ask (XOpenDisplay (display_name e));
  upd (fun e => e{{ ndpy := d }});;
  (if d =? 0 then _eglutFatal else mret tt);;
  upd (fun e => e{{ surface_type := EGL_WINDOW_BIT }});;
  _eglutInitXinput.

Definition _eglutNativeFiniDisplay : M (session X) unit :=
  act CloseDisplay;;
  upd (fun e => e{{ ndpy := 0 }}).

Definition eglutInit (argv : list (list Z)) : M (session X) unit :=
  env ← ask (getenv resource_name);
  resname ← parse_args (tail argv) env;
  (match resname, argv with
   | Some ((_ :: _) as r), _ => eglutInitX11ClassInstanceName (Some r)
   | _, a :: _ => eglutInitX11ClassInstanceName (Some (basename a))
   | _, [] => mret tt
   end);;
  _eglutNativeInitDisplay;;
  e ← get;
  d ← ask (eglGetDisplay (ndpy e));
  upd (fun e => e{{ dpy := d }});;
  v ← ask (eglInitialize d);
  match v with
  | None => _eglutFatal
  | Some v =>
      upd (fun e => e{{ egl_version := v }});;
      now ← _eglutNow;
      upd (fun e => e{{ init_time := now }})
  end.

(** The subtraction of two [int]s is defined when its result is one. *)
Definition eglutGet (state : Z) : M (session X) Z :=
  if state =? EGLUT_ELAPSED_TIME then
    now ← _eglutNow;
    e ← get;
    require (s32 (now - init_time e) =? now - init_time e);;
    mret (now - init_time e)
  else if state =? EGLUT_FULLSCREEN_MODE then e ← get; mret (fullscreen e)
  else mret (-1).

Definition eglutFini : M (session X) unit :=
  act Terminate;;
  _eglutNativeFiniDisplay.

(** ** The current window *)

Definition cur_win : M (session X) egl_window := p ← cur; deref p.
Definition upd_cur (f : egl_window -> egl_window) : M (session X) unit := p ← cur; upd_win p f.

Definition eglutGetWindowX : M (session X) Z := w ← cur_win; mret (nat_x w).
Definition eglutGetWindowY : M (session X) Z := w ← cur_win; mret (nat_y w).
Definition eglutGetWindowWidth : M (session X) Z := w ← cur_win; mret (nat_width w).
Definition eglutGetWindowHeight : M (session X) Z := w ← cur_win; mret (nat_height w).

(** [win->..._cb = func;], with NULL for [None]. *)
Definition set_cb (s : slot) (func : option fn) : M (session X) unit :=
  upd_cur (fun w => w{{ cb ::= partial_alter (fun _ => func) s }}).

Definition eglutIdleFunc (func : option fn) : M (session X) unit := upd (fun e => e{{ idle := func }}).
Definition eglutDisplayFunc := set_cb Display.
Definition eglutReshapeFunc := set_cb Reshape.
Definition eglutKeyboardFunc := set_cb Keyboard.
Definition eglutDropFunc := set_cb Drop.
Definition eglutSpecialFunc := set_cb Special.
Definition eglutPasteFunc := set_cb Paste.
Definition eglutMouseFunc := set_cb Mouse.
Definition eglutMouseRawFunc := set_cb MouseRaw.
Definition eglutMouseButtonFunc := set_cb MouseButton.
Definition eglutTouchStartFunc := set_cb TouchStart.
Definition eglutTouchUpdateFunc := set_cb TouchUpdate.
Definition eglutTouchEndFunc := set_cb TouchEnd.
Definition eglutFocusFunc := set_cb Focus.
Definition eglutCloseWindowFunc := set_cb Close.

Definition eglutSetKeyboardState (active : Z) : M (session X) unit :=
  upd_cur (fun w => w{{ kbdstate := active }}).

(** [read_png] is the result of [_eglutReadPNG], [garbage] the fresh block. *)
Definition eglutSetWindowIcon (read_png : option (Z * Z * list Z)) (garbage : list Z) : M (session X) unit :=
  wm_icon ← ask (InternAtom net_wm_icon);
  card ← ask (InternAtom cardinal);
  match read_png with
  | None => mret tt
  | Some (img_w, img_h, img_data) =>
      match icon_data img_w img_h img_data garbage with
      | (Ret _, data) =>
          w ← cur_win;
          act (ChangeProperty (u_window w) wm_icon card 32 data (u32 (img_w * img_h + 2)))
      | (Err e, _) => fail e
      | (Undef, _) => undef
      | (NoFuel, _) => nofuel
      end
  end.

Definition eglutShowWindow : M (session X) unit :=
  w ← cur_win;
  act (MapWindow (u_window w));;
  e ← get;
  if negb (x11_ic e =? 0) then act (SetICFocus (x11_ic e)) else mret tt.
End eglut.

(** ** Stepping through the calls *)

Section rules.
Context {X : Type} `{Platform X}.
Implicit Types (s : session X).

Lemma wp_ask {A} (f : X -> A * X) s (Q : A -> session X -> Prop) E :
  (forall a x, f (platform s) = (a, x) -> Q a (Session (st s) x (log s))) -> wp (ask f) s Q E.
Proof. unfold wp, ask. destruct (f (platform s)). auto. Qed.

Lemma wp_get_st s (Q : eglut -> session X -> Prop) E : Q (st s) s -> wp get s Q E.
Proof. done. Qed.

Lemma wp_upd_st f s (Q : unit -> session X -> Prop) E :
  Q tt (Session (f (st s)) (platform s) (log s)) -> wp (upd f) s Q E.
Proof. done. Qed.

Lemma wp_act a s (Q : unit -> session X -> Prop) E :
  Q tt (Session (st s) (platform s) (log s ++ [a])) -> wp (act a) s Q E.
Proof. done. Qed.

Lemma wp_deref p w s (Q : egl_window -> session X -> Prop) E :
  heap (st s) !! p = Some w -> Q w s -> wp (deref p) s Q E.
Proof. unfold wp, deref. by intros ->. Qed.

Lemma wp_cur p s (Q : nat -> session X -> Prop) E :
  current (st s) = Some p -> Q p s -> wp cur s Q E.
Proof. intros Hp HQ. unfold cur. apply wp_bind, wp_get_st. by rewrite Hp. Qed.

Lemma wp_fatal {A} s (Q : A -> session X -> Prop) (E : Z -> session X -> Prop) :
  E 1 s -> wp _eglutFatal s Q E.
Proof. done. Qed.
End rules.

(** Steps that need no argument; [ask] introduces the answer. *)
Ltac eg_step :=
  lazymatch goal with
  | |- wp (ask _) _ _ _ => apply wp_ask; intros ? ? _
  | |- wp get _ _ _ => apply wp_get_st
  | |- wp (upd _) _ _ _ => apply wp_upd_st
  | |- wp (upd_win _ _) _ _ _ => apply wp_upd_st
  | |- wp (act _) _ _ _ => apply wp_act
  | |- wp _eglutFatal _ _ _ => apply wp_fatal
  | |- _ => wp_step
  end; cbn beta iota; cbn [st platform log].

(** ** Choosing a configuration *)

Lemma land_pow2 mask k : 0 <= k -> has_bit mask (2 ^ k) = Z.testbit mask k.
Proof.
  intros Hk. unfold has_bit. destruct (Z.testbit mask k) eqn:Hb.
  - destruct (Z.eqb_spec (Z.land mask (2 ^ k)) 0) as [H0|]; [|done].
    assert (Ht : Z.testbit (Z.land mask (2 ^ k)) k = true); [|by rewrite H0, Z.bits_0 in Ht].
    rewrite Z.land_spec, Hb, Z.pow2_bits_true by done. done.
  - assert (Z.land mask (2 ^ k) = 0) as ->; [|done]. apply Z.bits_inj'. intros i Hi.
    rewrite Z.land_spec, Z.bits_0. destruct (Z.eq_dec i k) as [->|]; [by rewrite Hb|].
    rewrite Z.pow2_bits_false by done. apply andb_false_r.
Qed.

(** The attributes that are asked for. *)
Definition wanted (e : eglut) (alpha : bool) : list (Z * Z) :=
  [(EGL_RED_SIZE, 1); (EGL_GREEN_SIZE, 1); (EGL_BLUE_SIZE, 1)] ++
  (if alpha then [(EGL_ALPHA_SIZE, 1)] else []) ++
  [(EGL_DEPTH_SIZE, 1); (EGL_STENCIL_SIZE, 8); (EGL_SURFACE_TYPE, surface_type e);
   (EGL_RENDERABLE_TYPE, renderable_type (api_mask e))].

Lemma list_32 (g : list Z) : zlen g = 32 -> exists h t, g = h ++ t /\ length h = 19%nat.
Proof.
  intros Hg. exists (take 19 g), (drop 19 g). rewrite take_drop. split; [done|].
  rewrite length_take. unfold zlen in Hg. lia.
Qed.

Lemma attrib_list_alpha e g : zlen g = 32 ->
  attrib_list (attribs_alpha e g) = Some (wanted e true) /\ zlen (attribs_alpha e g) = 32.
Proof.
  intros Hg. split; [|unfold attribs_alpha; cbn; by rewrite !zlen_zupd].
  destruct (list_32 g Hg) as (h & t & -> & Hh).
  do 19 (destruct h as [|? h]; [done|]). done.
Qed.

Lemma attrib_list_opaque e g : zlen g = 32 -> attrib_list (attribs_opaque e g) = Some (wanted e false).
Proof.
  intros Hg. destruct (list_32 g Hg) as (h & t & -> & Hh). do 19 (destruct h as [|? h]; [done|]). done.
Qed.

Section choose.
Context {X : Type} `{Platform X}.
Implicit Types (s : session X).

Lemma choose_config_eq s garbage : zlen garbage = 32 ->
  _eglutChooseConfig garbage s =
    let '(ok, c, n, x) := eglChooseConfig (wanted (st s) true) (platform s) in
    if ok && negb (n =? 0) then (Ret c, Session (st s) x (log s))
    else
      let '(ok', c', n', x') := eglChooseConfig (wanted (st s) false) x in
      (if ok' && negb (n' =? 0) then Ret c' else Err 1, Session (st s) x' (log s)).
Proof.
  intros Hg. destruct (attrib_list_alpha (st s) garbage Hg) as [Ha Hl].
  pose proof (attrib_list_opaque (st s) _ Hl) as Ho.
  unfold _eglutChooseConfig, mbind, M_bind, get, ask. cbv beta iota zeta. unfold read_attribs. rewrite Ha.
  unfold mret, M_ret. cbv beta iota. destruct (eglChooseConfig _ _) as [[[ok c] n] x].
  cbv beta iota. cbn [st platform log]. destruct (ok && negb (n =? 0)); [done|]. rewrite Ho. cbn [platform st log].
  destruct (eglChooseConfig _ x) as [[[ok' c'] n'] x']. cbv beta iota. by destruct (ok' && negb (n' =? 0)).
Qed.

Lemma wp_choose_config garbage s : zlen garbage = 32 ->
  wp (_eglutChooseConfig garbage) s (fun _ s' => st s' = st s /\ log s' = log s) (fun e _ => e = 1).
Proof.
  intros Hg. unfold wp. rewrite choose_config_eq by done.
  destruct (eglChooseConfig _ _) as [[[ok c] n] x]. destruct (ok && _); [done|].
  destruct (eglChooseConfig _ x) as [[[ok' c'] n'] x']. by destruct (ok' && _).
Qed.

(** [_eglutChooseConfig] never writes or reads outside its 32 attributes;
    it asks EGL first for a configuration with an alpha channel and, when there
    is none, for one without; both requests carry the surface type and a
    renderable bit exactly for each API in the mask; it returns the first
    configuration there is and exits when there is none. *)
Theorem choose_config_correct s garbage : zlen garbage = 32 ->
  (_eglutChooseConfig garbage s =
    let '(ok, c, n, x) := eglChooseConfig (wanted (st s) true) (platform s) in
    if ok && negb (n =? 0) then (Ret c, Session (st s) x (log s))
    else
      let '(ok', c', n', x') := eglChooseConfig (wanted (st s) false) x in
      (if ok' && negb (n' =? 0) then Ret c' else Err 1, Session (st s) x' (log s))) /\
  let r := renderable_type (api_mask (st s)) in
  0 <= r < 16 /\
  Z.testbit r 3 = Z.testbit (api_mask (st s)) 0 /\ Z.testbit r 0 = Z.testbit (api_mask (st s)) 1 /\
  Z.testbit r 2 = Z.testbit (api_mask (st s)) 2 /\ Z.testbit r 1 = Z.testbit (api_mask (st s)) 3.
Proof.
  intros Hg. split; [by apply choose_config_eq|]. unfold renderable_type.
  change EGLUT_OPENGL_BIT with (2 ^ 0). change EGLUT_OPENGL_ES1_BIT with (2 ^ 1).
  change EGLUT_OPENGL_ES2_BIT with (2 ^ 2). change EGLUT_OPENVG_BIT with (2 ^ 3).
  rewrite !land_pow2 by lia.
  destruct (Z.testbit _ 0), (Z.testbit _ 1), (Z.testbit _ 2), (Z.testbit _ 3); vm_compute; repeat split; discriminate.
Qed.
End choose.

(** ** Windows *)

(** The calls that create, destroy or bind an object. *)
Definition on_object (a : action) : bool :=
  match a with
  | CreateContext _ | DestroyContext _ | CreateSurface _ | DestroySurface _
  | CreateXWindow _ | DestroyXWindow _ | MakeCurrent _ _ | ReleaseCurrent => true
  | _ => false
  end.
Definition objects (l : list action) : list action := List.filter on_object l.

(** What a window's creation leaves as it is. *)
Definition fixed (e : eglut) : Z * Z * Z * option nat * Z * Z :=
  (api_mask e, surface_type e, num_windows e, current e, window_width e, window_height e).

(** Windows are numbered in the order of their creation, and the newest one is
    the current one. *)
Definition windows_ok (e : eglut) : Prop :=
  num_windows e = zlen (heap e) /\
  (forall i w, heap e !! i = Some w -> index w = Z.of_nat i) /\
  current e = match heap e with [] => None | _ => Some (pred (length (heap e))) end.

Lemma objects_app l1 l2 : objects (l1 ++ l2) = objects l1 ++ objects l2.
Proof. apply List.filter_app. Qed.

Lemma heap_alter f p e : heap (e{{ heap := alter f p (heap e) }}) = alter f p (heap e).
Proof. by destruct e. Qed.

Lemma alter_insert_eq {A} (f : A -> A) (l : list A) i v :
  l !! i = Some v -> alter f i l = <[i := f v]> l.
Proof.
  intros Hv. apply list_eq. intros j. destruct (decide (i = j)) as [->|Hne].
  - rewrite list_lookup_alter_eq, list_lookup_insert_eq, Hv by (by eapply lookup_lt_Some). done.
  - rewrite list_lookup_alter_ne, list_lookup_insert_ne by done. done.
Qed.

Section windows.
Context {X : Type} `{Platform X}.
Implicit Types (s : session X).

Lemma wp_intern names s E :
  wp (intern names) s (fun _ s' => st s' = st s /\ log s' = log s) E.
Proof.
  revert s. induction names as [|n names IH]; intros s; cbn [intern]; [by wp_step|].
  eg_step. eg_step. eg_step. eapply wp_conseq; [apply IH|]. cbn [st log]. intros l s' [? ?]. by wp_step.
Qed.

Lemma wp_set_hints xwin x y w h s E :
  wp (set_hints xwin x y w h) s
     (fun _ s' => st s' = st s /\ objects (log s') = objects (log s)) E.
Proof.
  unfold set_hints. eg_step. eg_step. eg_step.
  eg_step; eg_step; eg_step; (split; [done|]); rewrite !objects_app; cbn; by rewrite !app_nil_r.
Qed.

Lemma wp_set_properties xwin s E :
  wp (set_properties xwin) s
     (fun _ s' => fixed (st s') = fixed (st s) /\ heap (st s') = heap (st s) /\
        objects (log s') = objects (log s)) E.
Proof.
  unfold set_properties. do 13 eg_step. eapply wp_conseq; [apply wp_intern|]. cbn [st log].
  intros atoms s3 [Hs3 Hl3]. eg_step. rewrite Hs3, Hl3, !objects_app. cbn. rewrite !app_nil_r.
  by destruct (st s).
Qed.

Lemma wp_init_window win v x y w h s :
  heap (st s) !! win = Some v ->
  wp (_eglutNativeInitWindow win x y w h) s
     (fun _ s' => exists xwin, xwin <> 0 /\ fixed (st s') = fixed (st s) /\
        heap (st s') = alter (fun v => v{{ u_window := xwin; nat_width := w; nat_height := h }}) win (heap (st s)) /\
        objects (log s') = objects (log s) ++ [CreateXWindow xwin])
     (fun e _ => e = 1).
Proof.
  intros Hv. unfold _eglutNativeInitWindow. eg_step. eapply wp_deref; [exact Hv|].
  eg_step. eg_step. destruct a as [vid|]; [|by eg_step]. eg_step. eg_step.
  destruct a as [[visual depth]|]; [|by eg_step]. eg_step. eg_step. eg_step. eg_step. eg_step.
  destruct (Z.eqb_spec a0 0) as [|Hxwin]; [by eg_step|]. eg_step. eg_step. eg_step. eg_step.
  eapply wp_conseq; [apply wp_set_hints|]. cbn [st log]. intros _ s1 [Hs1 Hl1].
  rewrite objects_app in Hl1. eg_step. eg_step. rewrite Hs1.
  set (f := fun v : egl_window => _). eg_step. eg_step. eg_step.
  set (P := fun (_ : unit) s2 => fixed (st s2) = fixed (st s) /\ heap (st s2) = alter f win (heap (st s)) /\
    objects (log s2) = objects (log s) ++ [CreateXWindow a0]).
  apply (wp_conseq _ _ P).
  { case_match; eg_step; unfold P; cbn [st log]; rewrite ?objects_app, Hl1; cbn; rewrite ?app_nil_r;
      by destruct (st s). }
  intros _ s2 (Hf2 & Hh2 & Ho2). do 7 eg_step.
  apply (wp_conseq _ _ P).
  { case_match; [do 3 eg_step|eg_step]; unfold P; cbn [st log]; rewrite ?objects_app, Ho2; cbn;
      rewrite ?app_nil_r; destruct (st s2); done. }
  intros _ s3 (Hf3 & Hh3 & Ho3). eapply wp_conseq; [apply wp_set_properties|].
  intros _ s4 (Hf4 & Hh4 & Ho4). exists a0. by rewrite Hf4, Hh4, Ho4, Hf3, Hh3, Ho3.
Qed.

(** The newest window while it is made. *)
Definition making (l : list egl_window) (v : egl_window) s0 s (o : list action) : Prop :=
  fixed (st s) = fixed (st s0) /\ heap (st s) = l ++ [v] /\ objects (log s) = objects (log s0) ++ o.

Lemma alter_last (f : egl_window -> egl_window) l v : alter f (length l) (l ++ [v]) = l ++ [f v].
Proof. induction l as [|x l IH]; [done|]. cbn. by f_equal. Qed.

Lemma making_lookup l v s0 s o : making l v s0 s o -> heap (st s) !! length l = Some v.
Proof. intros (_ & -> & _). by rewrite list_lookup_middle. Qed.

Lemma making_upd l v s0 s o f x : making l v s0 s o ->
  making l (f v) s0 (Session (st s){{ heap := alter f (length l) (heap (st s)) }} x (log s)) o.
Proof.
  intros (Hf & Hh & Ho). split; [|split]; cbn [st log]; [by destruct (st s)| |done].
  rewrite heap_alter, Hh. apply alter_last.
Qed.

Lemma making_act l v s0 s o a x : making l v s0 s o ->
  making l v s0 (Session (st s) x (log s ++ [a])) (o ++ objects [a]).
Proof. intros (Hf & Hh & Ho). split; [|split]; [done..|]. cbn [log]. by rewrite objects_app, Ho, app_assoc. Qed.

Lemma making_x l v s0 s o x : making l v s0 s o -> making l v s0 (Session (st s) x (log s)) o.
Proof. done. Qed.

Lemma wp_create_surface l v s0 s o :
  making l v s0 s o -> surface v = 0 ->
  wp (create_surface (length l)) s
     (fun _ s' => exists x, x <> 0 /\ making l (v{{ surface := x }}) s0 s' (o ++ [CreateSurface x]))
     (fun e _ => e = 1).
Proof.
  intros Hm Hs. unfold create_surface. do 3 eg_step. eapply wp_deref; [by eapply making_lookup|]. eg_step.
  apply (wp_conseq _ _ (fun _ s2 => exists x, making l (v{{ surface := x }}) s0 s2 o)).
  { case_match; [do 3 eg_step; exists a; by apply (making_upd _ _ _ _ _ (fun v => v{{ surface := a }}))|].
    case_match; [do 3 eg_step; exists a; by apply (making_upd _ _ _ _ _ (fun v => v{{ surface := a }}))|].
    case_match; [eg_step; exists (u_window v); by apply (making_upd _ _ _ _ _ (fun v => v{{ surface := u_window v }}))|].
    eg_step. exists 0. destruct v. cbn in Hs. by subst. }
  intros _ s2 [x Hm2]. eg_step. eapply wp_deref; [by eapply making_lookup|].
  assert (Hx : surface (v{{ surface := x }}) = x) by (by destruct v). rewrite Hx.
  destruct (Z.eqb_spec x 0) as [|Hne]; [by eg_step|]. eg_step. exists x. split; [done|].
  by apply (making_act _ _ _ _ _ (CreateSurface x)).
Qed.

Ltac name_state Hm x :=
  match type of Hm with making _ _ _ ?s _ => set (x := s) in *; clearbody x end.

(** A new window before it gets its number. *)
Definition window_made (w : egl_window) (width height : Z) : Prop :=
  context w <> 0 /\ u_window w <> 0 /\ surface w <> 0 /\ nat_width w = width /\ nat_height w = height /\
  cb w = ∅.

Lemma attrib_list_context mask g : zlen g = 4 ->
  exists l, attrib_list (context_attribs mask g) = Some l.
Proof.
  intros Hg. destruct g as [|? [|? [|? [|? [|? g]]]]]; try done.
  2: rewrite !zlen_cons in Hg; pose proof (zlen_nonneg g); lia.
  unfold context_attribs. destruct (_ || _); [by eexists|]. destruct (has_bit _ _); by eexists.
Qed.

Lemma wp_create_window garbage garbage4 x y w h s :
  zlen garbage = 32 -> zlen garbage4 = 4 ->
  wp (_eglutCreateWindow garbage garbage4 x y w h) s
     (fun p s' => p = length (heap (st s)) /\ exists v, window_made v w h /\
        making (heap (st s)) v s s'
          [CreateContext (context v); CreateXWindow (u_window v); CreateSurface (surface v)])
     (fun e _ => e = 1).
Proof.
  intros Hg Hg4. unfold _eglutCreateWindow. do 3 eg_step. destruct a; cbn [negb]; [|by eg_step].
  do 5 eg_step. set (l := heap (st s)). eg_step.
  set (s1 := Session _ _ _).
  assert (Hm1 : making l new_window s s1 []).
  { split; [|split]; cbn [st log]; [by destruct (st s)..|by rewrite app_nil_r]. }
  eapply wp_mono; [by apply wp_choose_config| |done]. intros c s2 [Hs2 Hl2].
  assert (Hm2 : making l new_window s s2 []) by (unfold making; by rewrite Hs2, Hl2).
  clearbody s1.
  eg_step. eg_step. apply (making_upd _ _ _ _ _ (fun v => v{{ config := c }}) (platform s2)) in Hm2.
  name_state Hm2 s3. do 2 eg_step.
  apply (making_act _ _ _ _ _ (BindAPI (context_api (api_mask (st s)))) (platform s3)) in Hm2.
  name_state Hm2 s4. eg_step.
  unfold read_attribs. destruct (attrib_list_context (api_mask (st s)) garbage4 Hg4) as [al ->].
  do 5 eg_step. apply (making_upd _ _ _ _ _ (fun v => v{{ context := a }}) x1) in Hm2.
  name_state Hm2 s5. eg_step.
  destruct (Z.eqb_spec a 0) as [|Hctx]; [by eg_step|]. eg_step.
  apply (making_act _ _ _ _ _ (CreateContext a) (platform s5)) in Hm2.
  name_state Hm2 s6. cbn [app objects List.filter on_object] in Hm2. eg_step.
  eapply wp_conseq; [eapply wp_init_window; by eapply making_lookup|].
  intros _ s7 (xwin & Hx & Hf7 & Hh7 & Ho7). eg_step. destruct Hm2 as (Hf6 & Hh6 & Ho6).
  rewrite Hh6, alter_last in Hh7. rewrite Hf6 in Hf7. rewrite Ho6, <- app_assoc in Ho7.
  assert (Hm7 := conj Hf7 (conj Hh7 Ho7)).
  eapply wp_conseq; [eapply wp_create_surface; [exact Hm7|done]|].
  intros _ s8 (sf & Hsf & Hm8). eg_step. split; [done|]. eexists. split; [|exact Hm8]. by split_and!.
Qed.


(** [eglutDestroyWindow] acts for the number of the current window only, and
    for no other window, although the others are still there; it releases the
    context and destroys surface, X window and context, each exactly once and
    in this order. It leaves the window current, so that a second call destroys
    the same surface, X window and context again. *)
Theorem destroy_window_correct s n w :
  windows_ok (st s) -> last (heap (st s)) = Some w -> surface_type (st s) <> EGL_PBUFFER_BIT ->
  let destroyed := [ReleaseCurrent; DestroySurface (surface w); DestroyXWindow (u_window w);
                    DestroyContext (context w)] in
  wp (eglutDestroyWindow n) s
     (fun _ s' => st s' = st s /\
        objects (log s') = objects (log s) ++
          (if n =? num_windows (st s) - 1 then destroyed else [])) (fun _ _ => False) /\
  wp (eglutDestroyWindow n;; eglutDestroyWindow n) s
     (fun _ s' => st s' = st s /\
        objects (log s') = objects (log s) ++
          (if n =? num_windows (st s) - 1 then destroyed ++ destroyed else [])) (fun _ _ => False).
Proof.
  intros Hok Hw Hsurf destroyed.
  assert (H1 : forall s1, st s1 = st s -> wp (eglutDestroyWindow n) s1
     (fun _ s' => st s' = st s /\ objects (log s') = objects (log s1) ++
          (if n =? num_windows (st s) - 1 then destroyed else [])) (fun _ _ => False)).
  { intros s1 Hs1. destruct Hok as (Hn & Hi & Hc). rewrite last_lookup in Hw.
    assert (Hp : current (st s1) = Some (pred (length (heap (st s))))).
    { rewrite Hs1, Hc. by destruct (heap (st s)). }
    rewrite <- Hs1 in Hw. unfold eglutDestroyWindow. eg_step. eapply wp_cur; [exact Hp|]. eg_step.
    eapply wp_deref; [rewrite <- Hs1; exact Hw|]. rewrite Hs1 in Hw.
    assert (Hidx : index w = num_windows (st s) - 1).
    { rewrite (Hi _ _ Hw), Hn. apply lookup_lt_Some in Hw. unfold zlen. lia. }
    rewrite Hidx, (Z.eqb_sym n). destruct (Z.eqb_spec (num_windows (st s) - 1) n); cbn [negb].
    2: { eg_step. by rewrite app_nil_r. }
    eg_step. unfold release_current. do 3 eg_step. unfold _eglutDestroyWindow.
    eg_step. eg_step. eg_step. rewrite Hs1. eapply wp_deref; [exact Hw|].
    rewrite (proj2 (Z.eqb_neq _ _)) by done. cbn [negb]. do 2 eg_step. eg_step.
    unfold _eglutNativeFiniWindow. eg_step. eapply wp_deref; [exact Hw|]. do 2 eg_step.
    split; [done|]. rewrite !objects_app, <- !app_assoc. done. }
  split; [by apply H1|]. eg_step. eapply wp_conseq; [by apply H1|]. intros _ s1 [Hs1 Ho1].
  eapply wp_conseq; [by apply H1|]. intros _ s2 [Hs2 Ho2]. split; [done|].
  rewrite Ho2, Ho1. case_match; by rewrite <- !app_assoc.
Qed.
End windows.

(** *** A platform that answers with fresh handles *)

#[global] Instance counter : Platform Z := {|
  calloc_ok x := (true, x);
  getenv _ x := (None, x);
  basename b := b;
  getpid x := ([1; 0; 0; 0], x);
  gettimeofday x := ((x, 0), x + 1);
  dlopen_xi x := (0, x);
  XOpenDisplay _ x := (x, x + 1);
  XQueryExtension x := (None, x);
  XIQueryVersion x := (true, x);
  XGetVisualInfo _ x := (Some (0, 24), x);
  XCreateColormap _ x := (x, x + 1);
  XCreateWindow _ _ x := (x, x + 1);
  InternAtom _ x := (x, x + 1);
  XOpenIM x := (0, x);
  XCreateIC _ _ x := (0, x);
  eglGetDisplay _ x := (x, x + 1);
  eglInitialize _ x := (Some (1, 4), x);
  eglChooseConfig l x := ((true, x, if 8 <=? zlen l then 0 else 1), x + 1);
  eglGetConfigAttrib _ _ x := (Some 33, x);
  eglCreateContext _ _ x := (x, x + 1);
  eglCreateWindowSurface _ _ x := (x, x + 1);
  eglCreatePixmapSurface _ _ x := (x, x + 1);
  eglMakeCurrent _ _ x := (true, x)
|}.

Definition eglut0 : eglut :=
  _eglut_state{{ api_mask := 4; window_height := 200; surface_type := EGL_WINDOW_BIT }}.
Definition session0 : session Z := Session eglut0 100 [].

Lemma choose_config_correct_witness :
  fst (_eglutChooseConfig (replicate 32 7) session0) = Ret 101 /\
  renderable_type 4 = 4.
Proof.
  destruct (choose_config_correct session0 (replicate 32 7) eq_refl) as [-> _]. split; reflexivity.
Defined.


(** A state with one window. *)
Definition window1 : egl_window := Win 101 102 107 0 0 300 200 120 0 {[Keyboard := DefaultKeyboard]} 0.
Definition session1 : session Z :=
  Session (EglutState 4 300 200 0 None 0 0 None 1 1 EGL_WINDOW_BIT 1 (1, 4) (Some 0%nat) 0 [] None None 0
    false false 0 false 0 [window1]) 130 [].

Lemma destroy_window_correct_witness :
  windows_ok (st session1) /\
  wp (eglutDestroyWindow 0;; eglutDestroyWindow 0) session1
     (fun _ s' => objects (log s') =
        [ReleaseCurrent; DestroySurface 120; DestroyXWindow 107; DestroyContext 102;
         ReleaseCurrent; DestroySurface 120; DestroyXWindow 107; DestroyContext 102]) (fun _ _ => False).
Proof.
  assert (Hok : windows_ok (st session1)).
  { split; [reflexivity|]. split; [|reflexivity]. intros [|i] w Hw; [by injection Hw as <-|done]. }
  split; [done|].
  destruct (destroy_window_correct session1 0 window1 Hok eq_refl ltac:(discriminate)) as [_ Hd].
  eapply wp_conseq; [exact Hd|]. intros _ s' [_ Ho]. exact Ho.
Defined.

(** ** Time *)

(** [eglutGet(EGLUT_ELAPSED_TIME)] is the exact number of milliseconds since
    [eglutInit] read the clock, as long as the millisecond clock has_bit not passed
    a multiple of 2^32 less 2^31 in between; once it has_bit, while less than 2^31
    milliseconds have elapsed, the subtraction of the two [int]s overflows. *)
Theorem elapsed_time_correct {X} `{Platform X} (s : session X) sec0 usec0 sec usec x :
  gettimeofday (platform s) = ((sec, usec), x) ->
  init_time (st s) = s32 (sec0 * 1000 + Z.quot usec0 1000) ->
  let t0 := sec0 * 1000 + Z.quot usec0 1000 in
  let t := sec * 1000 + Z.quot usec 1000 in
  0 <= t - t0 < 2 ^ 31 ->
  eglutGet EGLUT_ELAPSED_TIME s =
    (if (t0 + 2 ^ 31) / 2 ^ 32 =? (t + 2 ^ 31) / 2 ^ 32 then Ret (t - t0) else Undef,
     Session (st s) x (log s)).
Proof.
  intros Ht Hi t0 t Hr. unfold eglutGet, _eglutNow, ask, get, mbind, M_bind. cbn [Z.eqb EGLUT_ELAPSED_TIME].
  change (EGLUT_ELAPSED_TIME =? EGLUT_ELAPSED_TIME) with true. cbv iota beta. rewrite Ht. cbn.
  fold t. rewrite Hi. fold t0. unfold require, s32.
  change (2 ^ 7) with 128. change (2 ^ 31) with 2147483648 in *. change (2 ^ 32) with 4294967296 in *.
  clearbody t t0. pose proof (Z.mod_eq (t + 2147483648) 4294967296 ltac:(lia)) as E1.
  pose proof (Z.mod_eq (t0 + 2147483648) 4294967296 ltac:(lia)) as E2.
  set (D := (t + 2147483648) mod 4294967296 - 2147483648 - ((t0 + 2147483648) mod 4294967296 - 2147483648)) in *.
  assert (HD : D = t - t0 - 4294967296 * ((t + 2147483648) / 4294967296 - (t0 + 2147483648) / 4294967296)) by lia.
  clearbody D. destruct (Z.eqb_spec ((t0 + 2147483648) / 4294967296) ((t + 2147483648) / 4294967296)) as [Hq|Hq].
  - rewrite (Z.mod_small (D + _)) by lia. rewrite (proj2 (Z.eqb_eq _ D)) by lia. assert (D = t - t0) as -> by lia. done.
  - assert (Hle : (t0 + 2147483648) / 4294967296 <= (t + 2147483648) / 4294967296) by (apply Z.div_le_mono; lia).
    pose proof (Z.mod_pos_bound (D + 2147483648) 4294967296 ltac:(lia)).
    rewrite (proj2 (Z.eqb_neq _ D)) by lia. done.
Qed.

Lemma elapsed_time_correct_witness :
  eglutGet EGLUT_ELAPSED_TIME (Session (eglut0{{ init_time := s32 2147483000 }}) 2147483 []) =
    (Ret 0, Session (eglut0{{ init_time := s32 2147483000 }}) 2147484 []) /\
  fst (eglutGet EGLUT_ELAPSED_TIME (Session (eglut0{{ init_time := s32 2147483000 }}) 2147484 [])) = Undef.
Proof.
  split.
  - rewrite (elapsed_time_correct (Session (eglut0{{ init_time := s32 2147483000 }}) 2147483 [])
      2147483 0 2147483 0 2147484); [reflexivity|reflexivity|reflexivity|lia].
  - rewrite (elapsed_time_correct (Session (eglut0{{ init_time := s32 2147483000 }}) 2147484 [])
      2147483 0 2147484 0 2147485); [reflexivity|reflexivity|reflexivity|lia].
Defined.

(** ** The icon *)

(** Four bytes in the order of the machine. *)
Definition le_bytes (v : Z) : list Z :=
  [v mod 256; v / 256 mod 256; v / 65536 mod 256; v / 16777216 mod 256].

(** RGBA pixels as BGRA. *)
Fixpoint bgra (l : list Z) : list Z :=
  match l with
  | r :: g :: b :: a :: l => b :: g :: r :: a :: bgra l
  | _ => []
  end.

Lemma bgra_app l r g b a k :
  zlen l = 4 * Z.of_nat k -> bgra (l ++ [r; g; b; a]) = bgra l ++ [b; g; r; a].
Proof.
  revert l. induction k as [|k IH]; intros l Hl.
  - destruct l; [done|]. rewrite zlen_cons in Hl. pose proof (zlen_nonneg l). lia.
  - destruct l as [|x [|y [|z [|t l]]]]; rewrite ?zlen_cons in Hl; try (change (zlen (@nil Z)) with 0 in Hl; lia).
    cbn. rewrite IH by lia. done.
Qed.

Lemma wp_put_uint p x y z t q v (Q : unit -> list Z -> Prop) E :
  Q tt (p ++ le_bytes v ++ q) -> wp (put_uint (zlen p) v) (p ++ [x; y; z; t] ++ q) Q E.
Proof.
  intros HQ. pose proof (zlen_nonneg p). pose proof (zlen_nonneg q). unfold put_uint.
  assert (Hl : zlen (p ++ [x; y; z; t] ++ q) = zlen p + 4 + zlen q) by (rewrite !zlen_app; zlen_simpl; lia).
  do 3 (apply wp_bind, wp_wr; [rewrite ?zlen_zupd; lia|]). apply wp_wr; [rewrite ?zlen_zupd; lia|].
  rewrite (zupd_app_r p _ 0), (zupd_app_r p _ 1), (zupd_app_r p _ 2), (zupd_app_r p _ 3) by lia.
  unfold u8. rewrite !Z.shiftr_div_pow2 by lia. exact HQ.
Qed.

(** The pixels behind the first [k] are copied. *)
Lemma wp_icon_loop img k pre q fuel :
  zlen pre = 8 -> zlen img = 4 * Z.of_nat k -> (k < fuel)%nat ->
  forall old rest, zlen old = zlen img ->
  wp (loop fuel (icon_step (img ++ rest)) ((Z.of_nat k - 1) * 4)) (pre ++ old ++ q)
     (fun _ b => b = pre ++ bgra img ++ q) (fun _ _ => False).
Proof.
  intros Hp Hi Hf. revert q img Hi fuel Hf.
  induction k as [|k IH]; intros q img Hi fuel Hf old rest Ho; (destruct fuel as [|fuel]; [lia|]); apply wp_loop_S.
  { destruct img; [|rewrite zlen_cons in Hi; pose proof (zlen_nonneg img); lia].
    destruct old; [|rewrite zlen_cons in Ho; pose proof (zlen_nonneg old); change (zlen (@nil Z)) with 0 in Ho; lia].
    unfold icon_step. cbn. by wp_step. }
  assert (Hsplit : forall l : list Z, zlen l = 4 * Z.of_nat (S k) ->
    exists l' a b c d, l = l' ++ [a; b; c; d] /\ zlen l' = 4 * Z.of_nat k).
  { intros l Hl. exists (ztake (4 * Z.of_nat k) l).
    assert (Hd : zlen (zdrop (4 * Z.of_nat k) l) = 4) by (rewrite zlen_zdrop; lia).
    destruct (zdrop (4 * Z.of_nat k) l) as [|a [|b [|c [|d [|? ?]]]]] eqn:Hz; try done.
    2: rewrite !zlen_cons in Hd; pose proof (zlen_nonneg l0); lia.
    exists a, b, c, d. rewrite <- Hz, ztake_zdrop, zlen_ztake by lia. done. }
  destruct (Hsplit img Hi) as (img' & r & g & b & a & -> & Hi').
  destruct (Hsplit old) as (old' & o1 & o2 & o3 & o4 & -> & Ho'); [lia|]. clear Hsplit.
  set (i := (Z.of_nat (S k) - 1) * 4). assert (Hik : i = zlen img') by lia. clearbody i.
  unfold icon_step at 1. rewrite (proj2 (Z.leb_le 0 i)) by lia.
  assert (Hr : forall j v, 0 <= j -> znth [r; g; b; a] j = Some v ->
    znth ((img' ++ [r; g; b; a]) ++ rest) (i + j) = Some v).
  { intros j v Hj Hv. apply znth_Some in Hv as Hlt. rewrite <- app_assoc, znth_app_r by lia.
    rewrite znth_app_l; replace (i + j - zlen img') with j by lia; [done|lia]. }
  rewrite <- (app_assoc old'), (app_assoc pre). set (w := pre ++ old').
  assert (Hw : 8 + i = zlen w) by (unfold w; rewrite zlen_app; lia).
  pose proof (zlen_nonneg q). pose proof (zlen_nonneg w).
  assert (Hl : zlen (w ++ [o1; o2; o3; o4] ++ q) = 8 + i + 4 + zlen q) by (rewrite !zlen_app; zlen_simpl; lia).
  wp_step. apply (wp_rd _ _ _ _ _ a); [by apply Hr|]. wp_step. apply wp_wr; [lia|].
  wp_step. apply (wp_rd _ _ _ _ _ r); [by apply Hr|]. wp_step. apply wp_wr; [rewrite zlen_zupd; lia|].
  wp_step. apply (wp_rd _ _ _ _ _ g); [by apply Hr|]. wp_step. apply wp_wr; [rewrite !zlen_zupd; lia|].
  wp_step. apply (wp_rd _ _ _ _ _ b); [by apply Hr|]. wp_step. apply wp_wr; [rewrite !zlen_zupd; lia|].
  wp_step. rewrite (zupd_app_r w _ 3), (zupd_app_r w _ 2), (zupd_app_r w _ 1), (zupd_app_r w _ 0) by lia.
  change (zupd _ 0 b) with ([b; g; r; a] ++ q). unfold w. rewrite <- (app_assoc pre), <- (app_assoc img').
  replace (i - 4) with ((Z.of_nat k - 1) * 4) by lia.
  eapply wp_conseq; [apply (IH ([b; g; r; a] ++ q) img' Hi' fuel ltac:(lia) old' ([r; g; b; a] ++ rest)); lia|].
  intros _ b' ->. rewrite (bgra_app _ _ _ _ _ k) by done. by rewrite <- !app_assoc.
Qed.


Lemma mod32_small v : 0 <= v < 2 ^ 32 -> u32 v = v.
Proof. intros. by apply Z.mod_small. Qed.

(** the icon handed to the window manager: for a picture with pixels and
    less than 2^30 - 2 of them, [eglutSetWindowIcon] fills its block exactly,
    with the width and the height and then every pixel turned from RGBA to
    BGRA, and never leaves the block or the picture; the property it sets has_bit
    one item for each four bytes of the block. *)
Theorem set_icon_correct {X} `{Platform X} (s : session X) img_w img_h img garbage p w :
  current (st s) = Some p -> heap (st s) !! p = Some w ->
  0 < img_w < 2 ^ 32 -> 0 < img_h < 2 ^ 32 -> img_w * img_h + 2 < 2 ^ 30 ->
  zlen img = 4 * (img_w * img_h) -> zlen garbage = icon_size img_w img_h ->
  wp (eglutSetWindowIcon (Some (img_w, img_h, img)) garbage) s
     (fun _ s' => st s' = st s /\ exists icon card,
        log s' = log s ++ [ChangeProperty (u_window w) icon card 32
                             (le_bytes img_w ++ le_bytes img_h ++ bgra img) (img_w * img_h + 2)])
     (fun _ _ => False).
Proof.
  intros Hp Hw Hiw Hih Hsmall Hi Hg. set (n := img_w * img_h) in *.
  assert (Hn : 0 < n) by (unfold n; nia). change (2 ^ 30) with 1073741824 in *. change (2 ^ 32) with 4294967296 in *.
  unfold icon_size in Hg. fold n in Hg. rewrite !mod32_small in Hg by (rewrite ?mod32_small; lia).
  assert (Hdata : icon_data img_w img_h img garbage = (Ret tt, le_bytes img_w ++ le_bytes img_h ++ bgra img)).
  { destruct garbage as [|g0 [|g1 [|g2 [|g3 [|g4 [|g5 [|g6 [|g7 old]]]]]]]]; rewrite ?zlen_cons in Hg;
      try (change (zlen (@nil Z)) with 0 in Hg; lia).
    assert (Hwp : wp (icon_data img_w img_h img) ([g0; g1; g2; g3] ++ [g4; g5; g6; g7] ++ old)
      (fun _ b => b = le_bytes img_w ++ le_bytes img_h ++ bgra img) (fun _ _ => False)).
    2: { unfold wp in Hwp. cbn [app] in Hwp.
         destruct (icon_data img_w img_h img _) as [[[]| | |] b]; try done. by subst. }
    unfold icon_data. wp_step. apply (wp_put_uint [] g0 g1 g2 g3). cbn [app].
    wp_step. apply (wp_put_uint (le_bytes img_w) g4 g5 g6 g7 old). fold n. cbv zeta.
    rewrite !mod32_small by (rewrite ?mod32_small; lia).
    replace ((n - 1) * 4) with ((Z.of_nat (Z.to_nat n) - 1) * 4) by lia.
    rewrite <- (app_nil_r img) at 1. rewrite <- (app_nil_r old), (app_assoc (le_bytes img_w)).
    eapply wp_conseq; [apply wp_icon_loop; [done|lia| |lia]|].
    - rewrite Z.div_mul by lia. lia.
    - intros _ b ->. by rewrite app_nil_r, <- app_assoc. }
  unfold eglutSetWindowIcon. do 4 eg_step. rewrite Hdata. unfold cur_win. eg_step. eg_step.
  eapply wp_cur; [exact Hp|]. eapply wp_deref; [exact Hw|]. eg_step. split; [done|].
  do 2 eexists. fold n. by rewrite mod32_small by lia.
Qed.

Lemma set_icon_correct_witness :
  wp (eglutSetWindowIcon (Some (1, 2, [1; 2; 3; 4; 5; 6; 7; 8])) (replicate 16 9)) session1
     (fun _ s' => exists icon card, log s' =
        [ChangeProperty 107 icon card 32 [1; 0; 0; 0; 2; 0; 0; 0; 3; 2; 1; 4; 7; 6; 5; 8] 4])
     (fun _ _ => False).
Proof.
  eapply wp_conseq;
    [apply (set_icon_correct session1 1 2 [1; 2; 3; 4; 5; 6; 7; 8] (replicate 16 9) 0%nat window1);
     first [reflexivity|lia]|].
  intros _ s' (_ & icon & card & Hl). exists icon, card. exact Hl.
Defined.
