(* ===== verification/EglutWayland.v ===== *)
(** * The Wayland back end of the toolkit: [eglut/src/eglut_wayland.c]

    libwayland, EGL and [poll] are a parameter. The objects of the client live in
    a store, and a pointer to one is its name, 0 for NULL; a call on an object
    that was destroyed, that is of another kind or that is NULL is undefined. An
    event is delivered to the listener of its object, and dropped when the object
    was destroyed. The callbacks of the application are a parameter. The requests
    whose answer is not used, the writes to the socket and the calls of [poll] are
    recorded in [log], in their order. [_eglutFatal] is the error 1. *)
From S2P Require Import Prelude CString.
From coqutil Require Import Datatypes.RecordSetters.
Import DoubleBraceUpdate.

(** ** Data *)

Inductive listener : Type := sync_listener | frame_listener.

Inductive object : Type :=
  | wl_display
  | wl_registry (listening : bool)
  | wl_compositor
  | wl_shell
  | wl_surface
  | wl_shell_surface
  | wl_region
  | wl_callback (l : option listener)
  | wl_egl_window.

Inductive event : Type :=
  | Global (registry id : Z) (interface : list Z) (version : Z)
  | GlobalRemove (registry name : Z)
  | CallbackDone (callback data : Z).

Inductive request : Type :=
  | RegionAdd (region x y w h : Z)
  | SetOpaqueRegion (surface region : Z)
  | SetToplevel (shell_surface : Z)
  | Bind (id : Z) (o : Z)
  | Frame (surface callback : Z)
  | SwapBuffers (surface : Z)
  | Flush (ret err : Z)
  | Poll (events timeout : Z)
  | Disconnect (display : Z).

(** [struct display] and [struct window]; the variable [display] of the latter is [wdisplay] here. *)
Record display : Type := Display { wdisplay : Z; compositor : Z; shell : Z; mask : Z }.
Record window : Type := Window { surface : Z; shell_surface : Z; callback : Z }.

(** The current window and the state of the toolkit, as far as they are used. *)
Record egl_window : Type := Win { has_display_cb : bool; egl_surface : Z; u_window : Z; nat_width : Z; nat_height : Z }.
Record eglut : Type := Eglut { native_dpy : Z; surface_type : Z; current : option egl_window; has_idle_cb : bool; redisplay : Z }.

(** [done] is the variable of [wayland_roundtrip]. *)
Record session (X : Type) : Type := Session {
  dsp : display; win : window; st : eglut; sync_done : Z;
  objects : gmap Z object; fresh : Z; log : list request; xs : X }.
Arguments Session {X}.
Arguments dsp {X}.
Arguments win {X}.
Arguments st {X}.
Arguments sync_done {X}.
Arguments objects {X}.
Arguments fresh {X}.
Arguments log {X}.
Arguments xs {X}.

Definition EGL_WINDOW_BIT : Z := 0x4.
Definition POLLIN : Z := 0x1.
Definition POLLOUT : Z := 0x4.
Definition POLLERR : Z := 0x8.
Definition POLLHUP : Z := 0x10.
Definition EAGAIN : Z := 11.

(** "wl_compositor", "wl_shell" *)
Definition compositor_name : list Z := [119; 108; 95; 99; 111; 109; 112; 111; 115; 105; 116; 111; 114; 0].
Definition shell_name : list Z := [119; 108; 95; 115; 104; 101; 108; 108; 0].

(** The calls that answer. [connect] says whether there is a compositor,
    [dispatch] gives the result and the events, [dispatch_pending] the events,
    [flush] the result and [errno], [poll] the result and [revents]. *)
Class Wayland (X : Type) := {
  connect : X -> bool * X;
  dispatch : X -> (Z * list event) * X;
  dispatch_pending : X -> list event * X;
  flush : X -> (Z * Z) * X;
  poll : Z -> Z -> X -> (Z * Z) * X }.

(** The callbacks of the application. *)
Inductive app_callback : Type := display_cb | idle_cb.

Section wayland.
Context {X : Type} `{Wayland X} (app : app_callback -> M (session X) unit).

Definition get : M (session X) (session X) := getS.
Definition ask {A} (f : X -> A * X) : M (session X) A := fun s =>
  let '(a, x) := f (xs s) in (Ret a, Session (dsp s) (win s) (st s) (sync_done s) (objects s) (fresh s) (log s) x).
Definition upd_dsp (f : display -> display) : M (session X) unit :=
  updS (fun s => Session (f (dsp s)) (win s) (st s) (sync_done s) (objects s) (fresh s) (log s) (xs s)).
Definition upd_win (f : window -> window) : M (session X) unit :=
  updS (fun s => Session (dsp s) (f (win s)) (st s) (sync_done s) (objects s) (fresh s) (log s) (xs s)).
Definition upd (f : eglut -> eglut) : M (session X) unit :=
  updS (fun s => Session (dsp s) (win s) (f (st s)) (sync_done s) (objects s) (fresh s) (log s) (xs s)).
Definition set_done (v : Z) : M (session X) unit :=
  updS (fun s => Session (dsp s) (win s) (st s) v (objects s) (fresh s) (log s) (xs s)).
Definition record (r : request) : M (session X) unit :=
  updS (fun s => Session (dsp s) (win s) (st s) (sync_done s) (objects s) (fresh s) (log s ++ [r]) (xs s)).

(** Objects: creation, use, destruction. *)
Definition create (o : object) : M (session X) Z := fun s =>
  (Ret (fresh s), Session (dsp s) (win s) (st s) (sync_done s) (<[fresh s := o]> (objects s)) (fresh s + 1) (log s) (xs s)).
Definition use (p : Z) (kind : object -> bool) : M (session X) unit :=
  s ← get; require (from_option kind false (objects s !! p)).
Definition destroy (p : Z) (kind : object -> bool) : M (session X) unit :=
  use p kind;;
  updS (fun s => Session (dsp s) (win s) (st s) (sync_done s) (delete p (objects s)) (fresh s) (log s) (xs s)).

Definition is_display (o : object) : bool := match o with wl_display => true | _ => false end.
Definition is_registry (o : object) : bool := match o with wl_registry _ => true | _ => false end.
Definition is_compositor (o : object) : bool := match o with wl_compositor => true | _ => false end.
Definition is_shell (o : object) : bool := match o with wl_shell => true | _ => false end.
Definition is_surface (o : object) : bool := match o with wl_surface => true | _ => false end.
Definition is_shell_surface (o : object) : bool := match o with wl_shell_surface => true | _ => false end.
Definition is_region (o : object) : bool := match o with wl_region => true | _ => false end.
Definition is_callback (o : object) : bool := match o with wl_callback _ => true | _ => false end.
Definition is_egl_window (o : object) : bool := match o with wl_egl_window => true | _ => false end.

Definition wl_callback_destroy (p : Z) : M (session X) unit := destroy p is_callback.
Definition add_listener (p : Z) (l : listener) : M (session X) unit :=
  use p is_callback;;
  updS (fun s => Session (dsp s) (win s) (st s) (sync_done s) (<[p := wl_callback (Some l)]> (objects s)) (fresh s) (log s) (xs s)).

(** ** The listeners *)

Definition registry_handle_global (registry id : Z) (interface : list Z) : M (session X) unit :=
  c ← strcmp interface compositor_name;
  if c =? 0 then
    use registry is_registry;;
    p ← create wl_compositor;
    record (Bind id p);;
    upd_dsp (fun d => d{{ compositor := p }})
  else
    c ← strcmp interface shell_name;
    if c =? 0 then
      use registry is_registry;;
      p ← create wl_shell;
      record (Bind id p);;
      upd_dsp (fun d => d{{ shell := p }})
    else mret tt.

Definition sync_callback (cb : Z) : M (session X) unit := set_done 1;; wl_callback_destroy cb.

(** The current window; there must be one. *)
Definition cur : M (session X) egl_window :=
  s ← get;
  match current (st s) with Some w => mret w | None => undef end.

Definition draw_window : M (session X) unit :=
  w ← cur;
  (if has_display_cb w then app display_cb else mret tt);;
  record (SwapBuffers (egl_surface w)).

Definition draw (cb : Z) : M (session X) unit :=
  draw_window;;
  (if negb (cb =? 0) then wl_callback_destroy cb else mret tt);;
  s ← get;
  use (surface (win s)) is_surface;;
  p ← create (wl_callback None);
  record (Frame (surface (win s)) p);;
  upd_win (fun w => w{{ callback := p }});;
  add_listener p frame_listener.

Definition deliver (ev : event) : M (session X) unit :=
  s ← get;
  match ev with
  | Global r id interface _ =>
      match objects s !! r with Some (wl_registry true) => registry_handle_global r id interface | _ => mret tt end
  | GlobalRemove _ _ => mret tt
  | CallbackDone cb _ =>
      match objects s !! cb with
      | Some (wl_callback (Some sync_listener)) => sync_callback cb
      | Some (wl_callback (Some frame_listener)) => draw cb
      | _ => mret tt
      end
  end.

Fixpoint deliver_all (evs : list event) : M (session X) unit :=
  match evs with [] => mret tt | ev :: evs => deliver ev;; deliver_all evs end.

Definition wl_display_dispatch (d : Z) : M (session X) Z :=
  use d is_display;;
  '(ret, evs) ← ask dispatch;
  deliver_all evs;;
  mret ret.

Definition wl_display_dispatch_pending (d : Z) : M (session X) unit :=
  use d is_display;;
  evs ← ask dispatch_pending;
  deliver_all evs.

Definition wl_display_flush (d : Z) : M (session X) (Z * Z) :=
  use d is_display;;
  '(ret, err) ← ask flush;
  record (Flush ret err);;
  mret (ret, err).

(** ** The display *)

(** [while (ret != -1 && !done)] *)
Definition sync_step (d : Z) (ret : Z) : M (session X) (step Z Z) :=
  s ← get;
  if negb (ret =? -1) && (sync_done s =? 0) then
    ret ← wl_display_dispatch d;
    mret (Next ret)
  else mret (Done ret).

Definition wayland_roundtrip (fuel : nat) (d : Z) : M (session X) Z :=
  set_done 0;;
  use d is_display;;
  cb ← create (wl_callback None);
  add_listener cb sync_listener;;
  ret ← loop fuel (sync_step d) 0;
  s ← get;
  (if sync_done s =? 0 then wl_callback_destroy cb else mret tt);;
  mret ret.

Definition _eglutFatal {A} : M (session X) A := fail 1.

Definition _eglutNativeInitDisplay (fuel : nat) : M (session X) unit :=
  ok ← ask connect;
  d ← (if ok : bool then create wl_display else mret 0);
  upd_dsp (fun v => v{{ wdisplay := d }});;
  upd (fun e => e{{ native_dpy := d }});;
  (if d =? 0 then _eglutFatal else mret tt);;
  registry ← create (wl_registry true);
  _ ← wayland_roundtrip fuel d;
  destroy registry is_registry;;
  upd (fun e => e{{ surface_type := EGL_WINDOW_BIT }}).

Definition _eglutNativeFiniDisplay : M (session X) unit :=
  s ← get;
  _ ← wl_display_flush (native_dpy (st s));
  destroy (native_dpy (st s)) is_display;;
  record (Disconnect (native_dpy (st s))).

(** ** The window; the window structure under construction is the result *)

Definition _eglutNativeInitWindow (v : egl_window) (x y w h : Z) : M (session X) egl_window :=
  s ← get;
  use (compositor (dsp s)) is_compositor;;
  sf ← create wl_surface;
  upd_win (fun w => w{{ surface := sf }});;
  use (compositor (dsp s)) is_compositor;;
  region ← create wl_region;
  record (RegionAdd region 0 0 w h);;
  use sf is_surface;;
  record (SetOpaqueRegion sf region);;
  destroy region is_region;;
  use (shell (dsp s)) is_shell;;
  use sf is_surface;;
  ss ← create wl_shell_surface;
  upd_win (fun w => w{{ shell_surface := ss }});;
  use sf is_surface;;
  native ← create wl_egl_window;
  record (SetToplevel ss);;
  mret (v{{ u_window := native; nat_width := w; nat_height := h }}).

Definition _eglutNativeFiniWindow (v : egl_window) : M (session X) unit :=
  destroy (u_window v) is_egl_window;;
  s ← get;
  destroy (shell_surface (win s)) is_shell_surface;;
  destroy (surface (win s)) is_surface;;
  if negb (callback (win s) =? 0) then wl_callback_destroy (callback (win s)) else mret tt.

(** ** The event loop *)

(** [if (_eglut->redisplay)] *)
Definition redraw (events : Z) : M (session X) (step Z unit) :=
  s ← get;
  if negb (redisplay (st s) =? 0) then
    upd (fun e => e{{ redisplay := 0 }});;
    draw_window;;
    mret (Next events)
  else mret (Next events).

Definition loop_step (events : Z) : M (session X) (step Z unit) :=
  s ← get;
  let d := wdisplay (dsp s) in
  wl_display_dispatch_pending d;;
  s ← get;
  (if has_idle_cb (st s) then app idle_cb else mret tt);;
  '(ret, err) ← wl_display_flush d;
  let events := if (ret <? 0) && (err =? EAGAIN) then Z.lor events POLLOUT else events in
  if (ret <? 0) && negb (err =? EAGAIN) then mret (Done tt)
  else
    s ← get;
    let timeout := if negb (redisplay (st s) =? 0) then 0 else -1 in
    record (Poll events timeout);;
    '(n, revents) ← ask (poll events timeout);
    if n =? -1 then mret (Done tt)
    else if negb (Z.land revents (Z.lor POLLERR POLLHUP) =? 0) then mret (Done tt)
    else
      ret ← (if negb (Z.land revents POLLIN =? 0) then wl_display_dispatch d else mret 0);
      if ret =? -1 then mret (Done tt)
      else if negb (Z.land revents POLLOUT =? 0) then
        '(ret, err) ← wl_display_flush d;
        if ret =? 0 then redraw (Z.land events (Z.lnot POLLOUT))
        else if (ret =? -1) && negb (err =? EAGAIN) then mret (Done tt)
        else redraw events
      else redraw events.

Definition _eglutNativeEventLoop (fuel : nat) : M (session X) unit :=
  draw 0;;
  s ← get;
  use (wdisplay (dsp s)) is_display;;
  loop fuel loop_step POLLIN.

End wayland.

(** ** Stepping through the calls *)

Section rules.
Context {X : Type} `{Wayland X}.
Implicit Types (s : session X).

Lemma wl_ask {A} (f : X -> A * X) s (Q : A -> session X -> Prop) E :
  (forall a x, f (xs s) = (a, x) -> Q a (Session (dsp s) (win s) (st s) (sync_done s) (objects s) (fresh s) (log s) x)) -> wp (ask f) s Q E.
Proof. unfold wp, ask. destruct (f (xs s)). auto. Qed.

Lemma wp_create o s (Q : Z -> session X -> Prop) E :
  Q (fresh s) (Session (dsp s) (win s) (st s) (sync_done s) (<[fresh s := o]> (objects s)) (fresh s + 1) (log s) (xs s)) -> wp (create o) s Q E.
Proof. done. Qed.

Lemma wp_use p kind o s (Q : unit -> session X -> Prop) E : objects s !! p = Some o -> kind o = true -> Q tt s -> wp (use p kind) s Q E.
Proof. intros Ho Hk HQ. unfold use, get. do 2 wp_step. wp_step; [by rewrite Ho|done]. Qed.

Lemma wp_destroy p kind o s (Q : unit -> session X -> Prop) E : objects s !! p = Some o -> kind o = true ->
  Q tt (Session (dsp s) (win s) (st s) (sync_done s) (delete p (objects s)) (fresh s) (log s) (xs s)) -> wp (destroy p kind) s Q E.
Proof. intros Ho Hk HQ. unfold destroy. wp_step. by apply (wp_use _ _ o). Qed.

Lemma wp_add_listener p l l' s (Q : unit -> session X -> Prop) E : objects s !! p = Some (wl_callback l') ->
  Q tt (Session (dsp s) (win s) (st s) (sync_done s) (<[p := wl_callback (Some l)]> (objects s)) (fresh s) (log s) (xs s)) -> wp (add_listener p l) s Q E.
Proof. intros Ho HQ. unfold add_listener. wp_step. by apply (wp_use _ _ (wl_callback l')). Qed.

Lemma wl_cur v s (Q : egl_window -> session X -> Prop) E : current (st s) = Some v -> Q v s -> wp cur s Q E.
Proof. intros Hv HQ. unfold cur, get. do 2 wp_step. by rewrite Hv. Qed.
End rules.

(** Steps that need no argument. *)
Ltac wl_step :=
  lazymatch goal with
  | |- wp (ask _) _ _ _ => apply wl_ask; intros
  | |- wp (create _) _ _ _ => apply wp_create
  | |- wp get _ _ _ => apply wp_getS
  | |- wp (record _) _ _ _ => apply wp_updS
  | |- wp (upd _) _ _ _ => apply wp_updS
  | |- wp (upd_win _) _ _ _ => apply wp_updS
  | |- wp (upd_dsp _) _ _ _ => apply wp_updS
  | |- wp (set_done _) _ _ _ => apply wp_updS
  | |- _ => wp_step
  end; cbn beta iota; cbn [dsp win st sync_done objects fresh log xs].

(** Every poll comes right after a flush: everything was sent, or the poll also waits until more can be sent. *)
Definition polls_ok (l : list request) : Prop :=
  forall i ev t, l !! i = Some (Poll ev t) -> exists j r e, i = Datatypes.S j /\ l !! j = Some (Flush r e) /\ (0 <= r \/ e = EAGAIN /\ Z.testbit ev 2 = true).

Definition is_poll (r : request) : bool := match r with Poll _ _ => true | _ => false end.

Lemma polls_snoc l r : polls_ok l -> is_poll r = false -> polls_ok (l ++ [r]).
Proof.
  intros Hl Hr i ev t Hi. apply lookup_app_Some in Hi as [Hi|[Hge Hi]].
  - destruct (Hl _ _ _ Hi) as (j & r0 & e & -> & Hj & Ho). exists j, r0, e. split; [done|]. split; [by apply lookup_app_l_Some|done].
  - apply list_lookup_singleton_Some in Hi as [_ ->]. done.
Qed.

Lemma polls_poll l r e ev t : polls_ok l -> 0 <= r \/ e = EAGAIN /\ Z.testbit ev 2 = true -> polls_ok ((l ++ [Flush r e]) ++ [Poll ev t]).
Proof.
  intros Hl Ho i ev' t' Hi. apply lookup_app_Some in Hi as [Hi|[Hge Hi]].
  - destruct (polls_snoc l (Flush r e) Hl eq_refl _ _ _ Hi) as (j & r0 & e0 & -> & Hj & Ho'). exists j, r0, e0. split; [done|]. split; [by apply lookup_app_l_Some|done].
  - rewrite length_app in Hge, Hi. cbn in Hge, Hi. apply list_lookup_singleton_Some in Hi as [Hi [= -> ->]].
    exists (length l), r, e. split; [lia|]. split; [|done]. rewrite lookup_app_l by (rewrite length_app; cbn; lia). by rewrite lookup_app_r, Nat.sub_diag.
Qed.

(** ** The event loop keeps its objects *)

Section loop.
Context {X : Type} `{Wayland X} (app : app_callback -> M (session X) unit) (mu : X -> nat).
Implicit Types (s : session X).

(** The callbacks of the application may do anything but touch the objects of
    the back end and the window, and may exit; and the answers of the platform
    end: a loop that goes on has less of them left. *)
Record app_ok : Prop := AppOk {
  app_keeps : forall c s, wp (app c) s (fun _ s' => dsp s' = dsp s /\ win s' = win s /\ native_dpy (st s') = native_dpy (st s) /\ current (st s') = current (st s) /\
    objects s' = objects s /\ fresh s' = fresh s /\ log s' = log s /\ (mu (xs s') <= mu (xs s))%nat) (fun _ _ => True) }.

Record patience : Prop := Patience {
  pa_dispatch : forall x r x', dispatch x = (r, x') -> (mu x' <= mu x)%nat /\ (fst r = -1 \/ (mu x' < mu x)%nat);
  pa_pending : forall x r x', dispatch_pending x = (r, x') -> (mu x' <= mu x)%nat;
  pa_flush : forall x r x', flush x = (r, x') -> (mu x' <= mu x)%nat;
  pa_poll : forall ev t x r x', poll ev t x = (r, x') -> (mu x' <= mu x)%nat /\ (fst r = -1 \/ (mu x' < mu x)%nat) }.

(** The state between two steps of the loop: [base] has the objects but the frame callback. *)
Record looping (base : gmap Z object) (d sf ss : Z) (v : egl_window) (cb : option Z) s : Prop := Looping {
  lo_display : wdisplay (dsp s) = d;
  lo_native : native_dpy (st s) = d;
  lo_surface : surface (win s) = sf;
  lo_shell : shell_surface (win s) = ss;
  lo_current : current (st s) = Some v;
  lo_objects : objects s = match cb with Some p => <[p := wl_callback (Some frame_listener)]> base | None => base end;
  lo_callback : forall p, cb = Some p -> callback (win s) = p /\ base !! p = None /\ 0 < p < fresh s;
  lo_fresh : 0 < fresh s;
  lo_named : forall p, is_Some (base !! p) -> p < fresh s;
  lo_polls : polls_ok (log s) }.

(** [base] has no objects that events are delivered to. *)
Record base_ok (base : gmap Z object) (d sf : Z) : Prop := BaseOk {
  ba_display : base !! d = Some wl_display;
  ba_surface : base !! sf = Some wl_surface;
  ba_quiet : forall p o, base !! p = Some o -> is_callback o = false /\ o <> wl_registry true }.

Context (base : gmap Z object) (d sf ss : Z) (v : egl_window) (Happ : app_ok) (Hpat : patience) (Hbase : base_ok base d sf).
Abbreviation exits := (fun (_ : Z) (_ : session X) => True).

Lemma lookup_base s cb p o : looping base d sf ss v cb s -> base !! p = Some o -> objects s !! p = Some o.
Proof.
  intros Hl Hp. rewrite (lo_objects _ _ _ _ _ _ _ Hl). destruct cb as [q|]; [|done].
  destruct (lo_callback _ _ _ _ _ _ _ Hl q eq_refl) as (_ & Hq & _). rewrite lookup_insert_ne; [done|congruence].
Qed.

(** Nothing but the kept parts counts. *)
Lemma looping_same cb s s' : looping base d sf ss v cb s -> dsp s' = dsp s -> win s' = win s -> native_dpy (st s') = native_dpy (st s) -> current (st s') = current (st s) ->
  objects s' = objects s -> fresh s' = fresh s -> polls_ok (log s') -> looping base d sf ss v cb s'.
Proof. intros [] Hd Hw Hn Hc Ho Hf Hp. split; rewrite ?Hd, ?Hw, ?Hn, ?Hc, ?Ho, ?Hf; done. Qed.

Lemma wp_app c cb s (Q : unit -> session X -> Prop) : looping base d sf ss v cb s ->
  (forall s', looping base d sf ss v cb s' -> (mu (xs s') <= mu (xs s))%nat -> log s' = log s -> Q tt s') -> wp (app c) s Q exits.
Proof.
  intros Hl HQ. eapply wp_mono; [apply (app_keeps Happ)| |done]. intros [] s' (? & ? & ? & ? & ? & ? & Hlog & ?).
  apply HQ; [|done|done]. eapply looping_same; try done. rewrite Hlog. apply Hl.
Qed.

Lemma wp_draw_window cb s (Q : unit -> session X -> Prop) : looping base d sf ss v cb s ->
  (forall s', looping base d sf ss v cb s' -> (mu (xs s') <= mu (xs s))%nat -> log s' = log s ++ [SwapBuffers (egl_surface v)] -> Q tt s') -> wp (draw_window app) s Q exits.
Proof.
  intros Hl HQ. unfold draw_window. wp_step. eapply wl_cur; [apply Hl|]. wp_step.
  assert (Hswap : forall s', looping base d sf ss v cb s' -> (mu (xs s') <= mu (xs s))%nat -> log s' = log s ->
    wp (record (SwapBuffers (egl_surface v))) s' Q exits).
  { intros s' Hl' Hmu Hlog. wl_step. apply HQ; cbn; [|done|by rewrite Hlog]. eapply looping_same; try done. apply polls_snoc; [apply Hl'|done]. }
  wp_step; [by apply (wp_app _ cb)|]. by apply Hswap.
Qed.

(** A new frame callback takes the place of the one that was called. *)
Lemma wp_draw cb s (Q : unit -> session X -> Prop) : looping base d sf ss v cb s ->
  (forall s' p, looping base d sf ss v (Some p) s' -> (mu (xs s') <= mu (xs s))%nat ->
     log s' = log s ++ [SwapBuffers (egl_surface v); Frame sf p] -> Q tt s') -> wp (draw app (default 0 cb)) s Q exits.
Proof.
  intros Hl HQ. unfold draw. wp_step. apply (wp_draw_window cb); [done|]. intros s1 H1 Hmu Hlog. wp_step.
  assert (Hnew : forall s2, looping base d sf ss v None s2 -> (mu (xs s2) <= mu (xs s))%nat -> log s2 = log s ++ [SwapBuffers (egl_surface v)] ->
    wp (s ← get; use (surface (win s)) is_surface;; p ← create (wl_callback None); record (Frame (surface (win s)) p);;
        upd_win (fun w => w{{ callback := p }});; add_listener p frame_listener) s2 Q exits).
  { intros s2 H2 Hmu2 Hlog2. do 2 wl_step. wl_step. pose proof (lo_objects _ _ _ _ _ _ _ H2) as Ho.
    eapply wp_use; [eapply lookup_base; [done|]; rewrite (lo_surface _ _ _ _ _ _ _ H2); apply Hbase|done|].
    do 2 wl_step. do 2 wl_step. do 2 wl_step. eapply wp_add_listener; [apply lookup_insert_eq|]. cbn.
    apply (HQ _ (fresh s2)); cbn; [|done|by rewrite Hlog2, (lo_surface _ _ _ _ _ _ _ H2), <- app_assoc].
    destruct H2 as [Hd Hn Hsf Hss Hc _ _ Hf Hnm Hp]. split; cbn; try done; [by rewrite insert_insert_eq, Ho| |lia|intros p Hb; specialize (Hnm p Hb); lia|by apply polls_snoc].
    intros p [= <-]. split; [by destruct (win s2)|]. split; [|lia]. apply eq_None_not_Some. intros Hb. specialize (Hnm _ Hb). lia. }
  destruct cb as [p|]; [change (default 0 (Some p)) with p|wl_step; by apply Hnew].
  destruct (lo_callback _ _ _ _ _ _ _ H1 p eq_refl) as (Hcb & Hbp & Hp). rewrite (proj2 (Z.eqb_neq p 0)) by lia. cbn [negb].
  eapply wp_destroy; [rewrite (lo_objects _ _ _ _ _ _ _ H1); apply lookup_insert_eq|done|]. apply Hnew; cbn; [|done|done].
  destruct H1. split; cbn; try done. rewrite lo_objects0. by apply delete_insert_id.
Qed.
(** The state of a running loop, with its frame callback; [x] is the platform that it may not go behind. *)
Definition running (n : nat) s : Prop := exists p, looping base d sf ss v (Some p) s /\ (mu (xs s) <= n)%nat.

Lemma wp_deliver ev n s (Q : unit -> session X -> Prop) : running n s ->
  (forall s', running n s' -> Q tt s') -> wp (deliver app ev) s Q exits.
Proof.
  intros (p & Hl & Hn) HQ. assert (Hskip : Q tt s) by (apply HQ; by exists p). unfold deliver. do 2 wl_step.
  assert (Hobj : forall q o, objects s !! q = Some o -> q = p /\ o = wl_callback (Some frame_listener) \/ base !! q = Some o).
  { intros q o Ho. rewrite (lo_objects _ _ _ _ _ _ _ Hl) in Ho. apply lookup_insert_Some in Ho as [[<- <-]|[_ Ho]]; [by left|by right]. }
  destruct ev as [r id i ver|r name|cb data]; [|wl_step; done|].
  - destruct (objects s !! r) as [o|] eqn:Ho; [|wl_step; done]. destruct (Hobj _ _ Ho) as [[_ ->]|Hb]; [wl_step; done|].
    destruct (ba_quiet _ _ _ Hbase _ _ Hb) as [_ Hq]. destruct o as [|[|]| | | | | | |]; try (wl_step; done). done.
  - destruct (objects s !! cb) as [o|] eqn:Ho; [|wl_step; done]. destruct (Hobj _ _ Ho) as [[-> ->]|Hb].
    + change p with (default 0 (Some p)). apply wp_draw; [done|]. intros s' q Hl' Hmu _. apply HQ. exists q. split; [done|lia].
    + destruct (ba_quiet _ _ _ Hbase _ _ Hb) as [Hq _]. destruct o; try (wl_step; done). done.
Qed.

Lemma wp_deliver_all evs n s (Q : unit -> session X -> Prop) : running n s ->
  (forall s', running n s' -> Q tt s') -> wp (deliver_all app evs) s Q exits.
Proof.
  revert s. induction evs as [|ev evs IH]; intros s Hr HQ; cbn [deliver_all]; wl_step; [by apply HQ|].
  apply (wp_deliver _ n); [done|]. intros s' Hr'. by apply IH.
Qed.

Lemma running_display n s : running n s -> exists p, looping base d sf ss v (Some p) s /\ wdisplay (dsp s) = d /\ objects s !! d = Some wl_display.
Proof. intros (p & Hl & _). exists p. split; [done|]. split; [apply Hl|eapply lookup_base; [done|apply Hbase]]. Qed.

Lemma running_xs n s x : running n s -> (mu x <= n)%nat ->
  running n (Session (dsp s) (win s) (st s) (sync_done s) (objects s) (fresh s) (log s) x).
Proof. intros (p & Hl & _) Hx. exists p. split; [|done]. eapply looping_same; try done. apply Hl. Qed.

Lemma running_record n s r : running n s -> is_poll r = false ->
  running n (Session (dsp s) (win s) (st s) (sync_done s) (objects s) (fresh s) (log s ++ [r]) (xs s)).
Proof. intros (p & Hl & Hn) Hr. exists p. split; [|done]. eapply looping_same; try done. apply polls_snoc; [apply Hl|done]. Qed.

Lemma wp_dispatch n s (Q : Z -> session X -> Prop) : running n s ->
  (forall r s', running n s' -> Q r s') -> wp (wl_display_dispatch app d) s Q exits.
Proof.
  intros Hr HQ. destruct (running_display _ _ Hr) as (p & Hl & _ & Hd). unfold wl_display_dispatch. wl_step. eapply wp_use; [done|done|].
  do 2 wl_step. destruct a as [ret evs]. wl_step. apply (wp_deliver_all _ n); [|intros s' Hr'; wl_step; by apply HQ].
  apply running_xs; [done|]. destruct Hr as (? & _ & Hn). destruct (pa_dispatch Hpat _ _ _ H0). lia.
Qed.

Lemma wp_dispatch_pending n s (Q : unit -> session X -> Prop) : running n s ->
  (forall s', running n s' -> Q tt s') -> wp (wl_display_dispatch_pending app d) s Q exits.
Proof.
  intros Hr HQ. destruct (running_display _ _ Hr) as (p & Hl & _ & Hd). unfold wl_display_dispatch_pending. wl_step. eapply wp_use; [done|done|].
  do 2 wl_step. apply (wp_deliver_all _ n); [|done].
  apply running_xs; [done|]. destruct Hr as (? & _ & Hn). pose proof (pa_pending Hpat _ _ _ H0). lia.
Qed.

Lemma wp_flush n s (Q : Z * Z -> session X -> Prop) : running n s ->
  (forall r e s' l, running n s' -> polls_ok l -> log s' = l ++ [Flush r e] -> Q (r, e) s') -> wp (wl_display_flush d) s Q exits.
Proof.
  intros Hr HQ. destruct (running_display _ _ Hr) as (p & Hl & _ & Hd). unfold wl_display_flush. wl_step. eapply wp_use; [done|done|].
  do 2 wl_step. destruct a as [r e]. do 3 wl_step. apply (HQ _ _ _ (log s)); [|apply Hl|done].
  apply (running_record n (Session (dsp s) (win s) (st s) (sync_done s) (objects s) (fresh s) (log s) x)); [|done].
  apply running_xs; [done|]. destruct Hr as (? & _ & Hn). pose proof (pa_flush Hpat _ _ _ H0). lia.
Qed.

Lemma wp_redraw n ev s (Q : step Z unit -> session X -> Prop) : running n s ->
  (forall s', running n s' -> Q (Next ev) s') -> wp (redraw app ev) s Q exits.
Proof.
  intros Hr HQ. unfold redraw. do 2 wl_step. wl_step; [|wl_step; by apply HQ]. do 3 wl_step. destruct Hr as (p & Hl & Hn).
  apply (wp_draw_window (Some p)).
  - eapply looping_same; try done; cbn; try (by destruct (st s)). apply Hl.
  - intros s' Hl' Hmu _. wl_step. apply HQ. exists p. split; [done|]. cbn in Hmu. lia.
Qed.

(** The part of a step from [poll] on. *)
Definition poll_step (events : Z) : M (session X) (step Z unit) :=
  s ← get;
  let timeout := if negb (redisplay (st s) =? 0) then 0 else -1 in
  record (Poll events timeout);;
  '(n, revents) ← ask (poll events timeout);
  if n =? -1 then mret (Done tt)
  else if negb (Z.land revents (Z.lor POLLERR POLLHUP) =? 0) then mret (Done tt)
  else
    ret ← (if negb (Z.land revents POLLIN =? 0) then wl_display_dispatch app d else mret 0);
    if ret =? -1 then mret (Done tt)
    else if negb (Z.land revents POLLOUT =? 0) then
      '(ret, err) ← wl_display_flush d;
      if ret =? 0 then redraw app (Z.land events (Z.lnot POLLOUT))
      else if (ret =? -1) && negb (err =? EAGAIN) then mret (Done tt)
      else redraw app events
    else redraw app events.

Lemma wp_poll_step ev n s l r e (Q : step Z unit -> session X -> Prop) : running n s -> polls_ok l -> log s = l ++ [Flush r e] ->
  0 <= r \/ e = EAGAIN /\ Z.testbit ev 2 = true ->
  (forall ev' s' n', (n' < n)%nat -> running n' s' -> Q (Next ev') s') -> (forall s', running n s' -> Q (Done tt) s') ->
  wp (poll_step ev) s Q exits.
Proof.
  intros Hr Hl Hlog Hok HN HD. unfold poll_step. do 2 wl_step. cbv zeta. do 4 wl_step. destruct a as [k revents]. destruct Hr as (p & Hlp & Hn).
  assert (Hr : forall m, (mu x <= m)%nat -> running m (Session (dsp s) (win s) (st s) (sync_done s) (objects s) (fresh s)
      (log s ++ [Poll ev (if negb (redisplay (st s) =? 0) then 0 else -1)]) x)).
  { intros m Hm. exists p. split; [|done]. eapply looping_same; try done. cbn. rewrite Hlog. by apply polls_poll. }
  cbn [xs] in H0. destruct (pa_poll Hpat _ _ _ _ _ H0) as [Hle [Hk|Hmu]]; cbn [fst] in *.
  { subst k. apply HD, Hr. lia. }
  wl_step; [wl_step; apply HD, Hr; lia|]. wl_step; [wl_step; apply HD, Hr; lia|]. specialize (Hr (mu x) ltac:(lia)). clear Hle.
  assert (Hle : forall s', running (mu x) s' -> running n s') by (intros s' (q & Hq & Hm); exists q; split; [done|lia]).
  assert (Hend : forall ret s', running (mu x) s' -> wp (
    if ret =? -1 then mret (Done tt)
    else if negb (Z.land revents POLLOUT =? 0) then
      '(ret, err) ← wl_display_flush d;
      if ret =? 0 then redraw app (Z.land ev (Z.lnot POLLOUT))
      else if (ret =? -1) && negb (err =? EAGAIN) then mret (Done tt)
      else redraw app ev
    else redraw app ev) s' Q exits).
  { intros ret s' Hs'. wl_step; [wl_step; by apply HD, Hle|]. wl_step; [|apply (wp_redraw (mu x)); [done|]; intros; (apply (HN _ _ (mu x)); [lia|done])].
    wl_step. apply (wp_flush (mu x)); [done|]. intros r0 e0 s2 l0 H2 _ _. wl_step; [apply (wp_redraw (mu x)); [done|]; intros; (apply (HN _ _ (mu x)); [lia|done])|].
    wl_step; [wl_step; by apply HD, Hle|]. apply (wp_redraw (mu x)); [done|]. intros; (apply (HN _ _ (mu x)); [lia|done]). }
  wl_step. wl_step; [|wl_step; by apply Hend]. apply (wp_dispatch (mu x)); [done|]. intros ret s' Hs'. by apply Hend.
Qed.

(** A step that does not end the loop consumes an answer of [poll]. *)
Lemma wp_loop_step ev n s (Q : step Z unit -> session X -> Prop) : running n s ->
  (forall ev' s' n', (n' < n)%nat -> running n' s' -> Q (Next ev') s') -> (forall s', running n s' -> Q (Done tt) s') ->
  wp (loop_step app ev) s Q exits.
Proof.
  intros Hr HN HD. unfold loop_step. do 2 wl_step. destruct (running_display _ _ Hr) as (_ & _ & -> & _). wl_step.
  apply (wp_dispatch_pending n); [done|]. intros s1 H1. do 2 wl_step. wl_step.
  assert (Hgo : forall s2, running n s2 ->
    wp ('(ret, err) ← wl_display_flush d;
        let events := if (ret <? 0) && (err =? EAGAIN) then Z.lor ev POLLOUT else ev in
        if (ret <? 0) && negb (err =? EAGAIN) then mret (Done tt) else poll_step events) s2 Q exits).
  { intros s2 H2. wl_step. apply (wp_flush n); [done|]. intros r e s3 l H3 Hl Hlog. cbv zeta. wl_step; [wl_step; by apply HD|].
    eapply wp_poll_step; try done. destruct (Z.ltb_spec r 0) as [Hr0|Hr0]; [|by left].
    cbn [andb] in *. destruct (Z.eqb_spec e EAGAIN) as [->|]; [|done]. right. split; [done|]. cbn [andb]. by rewrite Z.lor_spec, orb_true_r. }
  wl_step; [|wl_step; by apply Hgo]. destruct H1 as (p & Hl & Hn). apply (wp_app _ (Some p)); [done|].
  intros s2 Hl2 Hmu _. apply Hgo. exists p. split; [done|lia].
Qed.
Lemma wp_event_loop fuel s (Q : unit -> session X -> Prop) : looping base d sf ss v None s -> (mu (xs s) < fuel)%nat ->
  (forall s' p, looping base d sf ss v (Some p) s' -> Q tt s') -> wp (_eglutNativeEventLoop app fuel) s Q exits.
Proof.
  intros Hl Hf HQ. unfold _eglutNativeEventLoop. wl_step. change 0 with (default 0 (@None Z)). apply wp_draw; [done|].
  intros s1 p Hl1 Hmu _. do 3 wl_step. destruct (running_display (mu (xs s1)) s1) as (_ & _ & -> & Hd); [by exists p|]. eapply wp_use; [done|done|].
  apply (wp_loop (fun _ s => running (mu (xs s)) s) (fun _ s => mu (xs s))); [by exists p|lia|].
  intros ev s2 H2. apply (wp_loop_step ev (mu (xs s2))); [done| |].
  - intros ev' s3 n' Hn' (q & Hq & Hn). split; [by exists q|lia].
  - intros s3 (q & Hq & _). by apply (HQ _ q).
Qed.
End loop.

(** ** A window from its creation to its destruction *)

Section session.
Context {X : Type} `{Wayland X} (app : app_callback -> M (session X) unit) (mu : X -> nat).
Implicit Types (s : session X).

(** What [_eglutNativeInitDisplay] leaves: no object that events go to. *)
Record opened (d : Z) s : Prop := Opened {
  op_display : wdisplay (dsp s) = d;
  op_native : native_dpy (st s) = d;
  op_object : objects s !! d = Some wl_display;
  op_fresh : 0 < fresh s;
  op_named : forall p, is_Some (objects s !! p) -> p < fresh s;
  op_quiet : forall p o, objects s !! p = Some o -> is_callback o = false /\ o <> wl_registry true;
  op_polls : polls_ok (log s) }.

(** The objects of the window. *)
Definition window_objects (f : Z) (base : gmap Z object) : gmap Z object :=
  <[f + 3 := wl_egl_window]> (<[f + 2 := wl_shell_surface]> (<[f := wl_surface]> base)).

Definition opened_window (v : egl_window) w h (f : Z) : egl_window := v{{ u_window := f + 3; nat_width := w; nat_height := h }}.

Lemma fresh_None d s p : opened d s -> fresh s <= p -> objects s !! p = None.
Proof. intros Ho Hp. apply eq_None_not_Some. intros Hs. pose proof (op_named _ _ Ho p Hs). lia. Qed.

Lemma wl_init_window v x y w h d s (Q : egl_window -> session X -> Prop) E : opened d s ->
  objects s !! compositor (dsp s) = Some wl_compositor -> objects s !! shell (dsp s) = Some wl_shell ->
  (forall s', dsp s' = dsp s -> win s' = Window (fresh s) (fresh s + 2) (callback (win s)) -> st s' = st s -> objects s' = window_objects (fresh s) (objects s) ->
     fresh s' = fresh s + 4 -> xs s' = xs s -> polls_ok (log s') -> Q (opened_window v w h (fresh s)) s') ->
  wp (_eglutNativeInitWindow v x y w h) s Q E.
Proof.
  intros Ho Hc Hs HQ. pose proof (fresh_None d s) as Hnone. unfold _eglutNativeInitWindow. do 3 wl_step. eapply wp_use; [done|done|].
  do 5 wl_step. eapply wp_use; [cbn; rewrite lookup_insert_ne; [exact Hc|]|done|].
  { intros Heq. rewrite <- Heq, (Hnone _ Ho) in Hc by lia. done. }
  do 5 wl_step. eapply wp_use; [cbn; rewrite lookup_insert_ne by lia; apply lookup_insert_eq|done|].
  do 3 wl_step. eapply wp_destroy; [cbn; apply lookup_insert_eq|done|]. cbn. rewrite delete_insert_id by (rewrite lookup_insert_ne by lia; apply (Hnone _ Ho); lia).
  wl_step. eapply wp_use; [cbn; rewrite lookup_insert_ne; [exact Hs|]|done|].
  { intros Heq. rewrite <- Heq, (Hnone _ Ho) in Hs by lia. done. }
  wl_step. eapply wp_use; [cbn; apply lookup_insert_eq|done|]. do 5 wl_step.
  eapply wp_use; [cbn; rewrite lookup_insert_ne by lia; apply lookup_insert_eq|done|]. do 5 wl_step.
  replace (fresh s + 1 + 1 + 1 + 1) with (fresh s + 4) by lia. replace (fresh s + 1 + 1 + 1) with (fresh s + 3) by lia.
  replace (fresh s + 1 + 1) with (fresh s + 2) by lia. apply HQ; cbn; try done.
  repeat apply polls_snoc; try done. apply Ho.
Qed.

Lemma wp_fini_window base v f d cb s (Q : unit -> session X -> Prop) E :
  looping (window_objects f base) d f (f + 2) v (Some cb) s -> u_window v = f + 3 ->
  base !! f = None -> base !! (f + 2) = None -> base !! (f + 3) = None ->
  Q tt (Session (dsp s) (win s) (st s) (sync_done s) base (fresh s) (log s) (xs s)) -> wp (_eglutNativeFiniWindow v) s Q E.
Proof.
  intros [_ _ Hsf Hss _ Ho Hcb _ _ _] Hu H0 H2 H3 HQ. destruct (Hcb cb eq_refl) as (Hc & Hn & Hr). unfold window_objects in *.
  unfold _eglutNativeFiniWindow. apply lookup_insert_None in Hn as [Hn Hn3]. apply lookup_insert_None in Hn as [Hn Hn2]. apply lookup_insert_None in Hn as [Hn Hn0].
  wl_step. eapply wp_destroy; [rewrite Ho, lookup_insert_ne, Hu by congruence; apply lookup_insert_eq|done|].
  do 3 wl_step. cbn. rewrite Hsf, Hss, Hu, Hc, Ho.
  rewrite delete_insert_ne by congruence. rewrite (delete_insert_id (<[f + 2:=_]> _)) by (rewrite !lookup_insert_ne by lia; done).
  eapply wp_destroy; [cbn; rewrite lookup_insert_ne by congruence; apply lookup_insert_eq|done|]. cbn.
  rewrite delete_insert_ne by congruence. rewrite (delete_insert_id (<[f:=_]> _)) by (rewrite !lookup_insert_ne by lia; done).
  wl_step. eapply wp_destroy; [cbn; rewrite lookup_insert_ne by congruence; apply lookup_insert_eq|done|]. cbn.
  rewrite delete_insert_ne by congruence. rewrite (delete_insert_id base) by done.
  rewrite (proj2 (Z.eqb_neq cb 0)) by lia. cbn [negb]. eapply wp_destroy; [cbn; apply lookup_insert_eq|done|]. cbn. by rewrite delete_insert_id.
Qed.

(** A program with one window, after [eglutInit]: what [_eglutCreateWindow], [eglutMakeCurrent],
    [eglutMainLoop], [eglutDestroyWindow] and [eglutFini] call of the back end; [v] is the window from [calloc]. *)
Definition window_session (fuel : nat) (v : egl_window) (x y w h : Z) : M (session X) unit :=
  v ← _eglutNativeInitWindow v x y w h;
  upd (fun e => e{{ current := Some v }});;
  _eglutNativeEventLoop app fuel;;
  _eglutNativeFiniWindow v;;
  _eglutNativeFiniDisplay.

Lemma window_base d s : opened d s -> base_ok (window_objects (fresh s) (objects s)) d (fresh s).
Proof.
  intros Ho. pose proof (op_named _ _ Ho d ltac:(rewrite (op_object _ _ Ho); by eexists)). unfold window_objects. split.
  - rewrite !lookup_insert_ne by lia. apply Ho.
  - rewrite !lookup_insert_ne by lia. apply lookup_insert_eq.
  - intros p o Hp. apply lookup_insert_Some in Hp as [[_ <-]|[_ Hp]]; [done|]. apply lookup_insert_Some in Hp as [[_ <-]|[_ Hp]]; [done|].
    apply lookup_insert_Some in Hp as [[_ <-]|[_ Hp]]; [done|]. by apply (op_quiet _ _ Ho p).
Qed.

Lemma window_looping d s v s' : opened d s -> wdisplay (dsp s') = d -> native_dpy (st s') = d -> current (st s') = Some v ->
  surface (win s') = fresh s -> shell_surface (win s') = fresh s + 2 -> objects s' = window_objects (fresh s) (objects s) -> fresh s' = fresh s + 4 -> polls_ok (log s') ->
  looping (window_objects (fresh s) (objects s)) d (fresh s) (fresh s + 2) v None s'.
Proof.
  intros Ho Hd Hn Hc Hs Hss Hobj Hf Hp. pose proof (op_fresh _ _ Ho). split; try done; [lia|].
  intros p Hb. rewrite Hf. unfold window_objects in Hb. rewrite !lookup_insert_is_Some' in Hb.
  destruct Hb as [<-|[<-|[<-|Hb]]]; [lia..|]. pose proof (op_named _ _ Ho p Hb). lia.
Qed.

Lemma wp_fini_display d s (Q : unit -> session X -> Prop) E : native_dpy (st s) = d -> objects s !! d = Some wl_display ->
  polls_ok (log s) -> (forall s', objects s' = delete d (objects s) -> polls_ok (log s') -> Q tt s') -> wp _eglutNativeFiniDisplay s Q E.
Proof.
  intros Hn Hd Hp HQ. unfold _eglutNativeFiniDisplay. do 2 wl_step. rewrite Hn. wl_step. unfold wl_display_flush. wl_step. eapply wp_use; [done|done|].
  do 2 wl_step. destruct a as [r e]. do 3 wl_step. wl_step. eapply wp_destroy; [done|done|]. wl_step. apply HQ; [done|]. by repeat apply polls_snoc.
Qed.

(** C20: A program with a window over Wayland uses no object that is NULL,
    destroyed or of another kind, whatever events come in whatever order, among
    them late events for objects that are gone, and whatever its callbacks do as
    long as they leave the objects of the back end alone. From a display on which
    the compositor and the shell were announced, creating the window, the event
    loop, and the two functions that tear down terminate as soon as the
    platform has no more answers, unless a callback exits; there is at any
    time one frame callback at most, each call replaces it, and at the end every
    object that was created is destroyed, and the display too. And [poll] is called
    only when the last flush sent everything or the socket was full and the call
    waits for room as well: no request is held back while the program sleeps. *)
Theorem window_session_correct d s fuel v x y w h :
  app_ok app mu -> patience mu -> opened d s ->
  objects s !! compositor (dsp s) = Some wl_compositor -> objects s !! shell (dsp s) = Some wl_shell -> (mu (xs s) < fuel)%nat ->
  wp (window_session fuel v x y w h) s (fun _ s' => objects s' = delete d (objects s) /\ polls_ok (log s')) (fun _ _ => True).
Proof.
  intros Happ Hpat Ho Hc Hs Hf. unfold window_session. wl_step. apply (wl_init_window _ _ _ _ _ d); [done..|].
  intros s1 Hd1 Hw1 Hst1 Hobj1 Hfr1 Hx1 Hp1. do 2 wl_step. wl_step.
  apply (wp_event_loop app mu (window_objects (fresh s) (objects s)) d (fresh s) (fresh s + 2) (opened_window v w h (fresh s)) Happ Hpat (window_base _ _ Ho)).
  - apply window_looping; cbn; rewrite ?Hd1, ?Hw1; try done; try apply Ho. rewrite Hst1. cbn. destruct (st s) eqn:Hst. cbn. pose proof (op_native _ _ Ho) as Hn. rewrite Hst in Hn. done.
  - cbn. by rewrite Hx1.
  - intros s2 p Hl. wl_step. pose proof (lo_native _ _ _ _ _ _ _ Hl) as Hn. eapply wp_fini_window; [done|done|apply (fresh_None d); [done|lia]..|].
    apply (wp_fini_display d); [done|apply Ho|apply Hl|]. done.
Qed.

(** ** Initialisation *)

(** A pointer to an object that was bound, or NULL. *)
Definition bound (p : Z) (o : object) s : Prop := p = 0 \/ objects s !! p = Some o.

(** While [wayland_roundtrip] waits; [reg] is the registry and [cb] the callback, if it was not called yet. *)
Record syncing (d reg cb : Z) s : Prop := Syncing {
  sy_display : wdisplay (dsp s) = d;
  sy_native : native_dpy (st s) = d;
  sy_objects : objects s !! d = Some wl_display /\ objects s !! reg = Some (wl_registry true);
  sy_callback : (sync_done s = 0 /\ objects s !! cb = Some (wl_callback (Some sync_listener))) \/ (sync_done s = 1 /\ objects s !! cb = None);
  sy_fresh : 0 < fresh s;
  sy_named : forall p, is_Some (objects s !! p) -> p < fresh s;
  sy_below : cb < fresh s;
  sy_quiet : forall p o, objects s !! p = Some o -> p <> reg -> p <> cb -> is_callback o = false /\ o <> wl_registry true;
  sy_polls : polls_ok (log s);
  sy_compositor : bound (compositor (dsp s)) wl_compositor s;
  sy_shell : bound (shell (dsp s)) wl_shell s }.

Lemma syncing_bind d reg cb s o id f : syncing d reg cb s -> (o = wl_compositor /\ f = (fun v => v{{ compositor := fresh s }}) \/ o = wl_shell /\ f = (fun v => v{{ shell := fresh s }})) ->
  syncing d reg cb (Session (f (dsp s)) (win s) (st s) (sync_done s) (<[fresh s := o]> (objects s)) (fresh s + 1) (log s ++ [Bind id (fresh s)]) (xs s)).
Proof.
  intros [Hd Hn [Ho Hr] Hcb Hf Hnm Hb Hq Hp Hc Hs] Hof.
  assert (Hold : forall p, p < fresh s -> <[fresh s := o]> (objects s) !! p = objects s !! p) by (intros; by rewrite lookup_insert_ne by lia).
  assert (Hlt : forall p o', objects s !! p = Some o' -> p < fresh s) by (intros p o' Hp'; apply Hnm; by eexists).
  assert (Hbound : forall p o', bound p o' s -> p = 0 \/ <[fresh s := o]> (objects s) !! p = Some o') by (intros p o' [->|Hp']; [by left|right; rewrite Hold by eauto; done]).
  split; cbn; try done.
  - destruct Hof as [[_ ->]|[_ ->]]; by destruct (dsp s).
  - split; rewrite Hold by eauto; done.
  - by rewrite Hold by lia.
  - lia.
  - intros p [o' Hp']. apply lookup_insert_Some in Hp' as [[<- _]|[_ Hp']]; [lia|]. specialize (Hlt _ _ Hp'). lia.
  - lia.
  - intros p o' Hp' Hpr Hpc. apply lookup_insert_Some in Hp' as [[_ <-]|[_ Hp']]; [|by apply (Hq p)]. by destruct Hof as [[-> _]|[-> _]].
  - by apply polls_snoc.
  - destruct Hof as [[-> ->]|[-> ->]]; [right; apply lookup_insert_eq|]. destruct (dsp s). by apply Hbound.
  - destruct Hof as [[-> ->]|[-> ->]]; [|right; apply lookup_insert_eq]. destruct (dsp s). by apply Hbound.
Qed.

Lemma compositor_cstr : is_cstr compositor_name.
Proof. exists (removelast compositor_name). split; [done|]. cbn. set_solver by lia. Qed.

Lemma shell_cstr : is_cstr shell_name.
Proof. exists (removelast shell_name). split; [done|]. cbn. set_solver by lia. Qed.

Definition event_ok (ev : event) : Prop := match ev with Global _ _ interface _ => is_cstr interface | _ => True end.

Lemma wp_deliver_sync d reg cb ev s (Q : unit -> session X -> Prop) E : syncing d reg cb s -> event_ok ev ->
  (forall s', syncing d reg cb s' -> xs s' = xs s -> Q tt s') -> wp (deliver app ev) s Q E.
Proof.
  intros Hs He HQ. unfold deliver. do 2 wl_step. destruct ev as [r id i ver|r name|q data]; [|wl_step; by apply HQ|].
  - destruct (objects s !! r) as [o|] eqn:Ho; [|wl_step; by apply HQ]. destruct o as [|[|]| | | | | | |]; try (wl_step; by apply HQ).
    unfold registry_handle_global. wl_step. apply wp_strcmp; [done|apply compositor_cstr|]. intros c _. wl_step.
    + wl_step. eapply wp_use; [done|done|]. do 5 wl_step. apply HQ; [|done]. by apply syncing_bind; [|left].
    + wl_step. apply wp_strcmp; [done|apply shell_cstr|]. intros c' _. wl_step; [|wl_step; by apply HQ].
      wl_step. eapply wp_use; [done|done|]. do 5 wl_step. apply HQ; [|done]. by apply syncing_bind; [|right].
  - destruct (objects s !! q) as [o|] eqn:Ho; [|wl_step; by apply HQ]. destruct o as [| | | | | | |l|]; try (wl_step; by apply HQ).
    destruct (decide (q = reg)) as [->|Hqr]; [destruct (sy_objects _ _ _ _ Hs); congruence|].
    destruct (decide (q = cb)) as [->|Hqc]; [|destruct (sy_quiet _ _ _ _ Hs _ _ Ho Hqr Hqc); done].
    destruct (sy_callback _ _ _ _ Hs) as [[Hz Hl]|[_ Hl]]; [|congruence]. rewrite Ho in Hl. injection Hl as ->.
    unfold sync_callback. do 2 wl_step. eapply wp_destroy; [done|done|]. cbn. apply HQ; [|done].
    destruct Hs as [Hd Hn [Hdo Hr] _ Hf Hnm Hb Hq Hp Hc Hsh].
    assert (Hne : forall p o, objects s !! p = Some o -> is_callback o = false -> delete cb (objects s) !! p = Some o).
    { intros p o Hpo Hno. rewrite lookup_delete_ne; [done|]. intros ->. rewrite Ho in Hpo. injection Hpo as <-. done. }
    split; cbn; try done; eauto.
    + right. split; [done|apply lookup_delete_eq].
    + intros p [o Hpo]. apply lookup_delete_Some in Hpo as [_ Hpo]. eauto.
    + intros p o Hpo ? ?. apply lookup_delete_Some in Hpo as [_ Hpo]. by apply (Hq p).
    + destruct Hc as [->|Hc]; [by left|right; by apply Hne].
    + destruct Hsh as [->|Hc']; [by left|right; by apply Hne].
Qed.

Lemma wp_deliver_all_sync d reg cb evs s (Q : unit -> session X -> Prop) E : syncing d reg cb s -> Forall event_ok evs ->
  (forall s', syncing d reg cb s' -> xs s' = xs s -> Q tt s') -> wp (deliver_all app evs) s Q E.
Proof.
  intros Hs Hev. revert s Hs. induction Hev as [|ev evs He _ IH]; intros s Hs HQ; cbn [deliver_all]; wl_step; [by apply HQ|].
  apply (wp_deliver_sync d reg cb); [done|done|]. intros s' Hs' Hx. apply IH; [done|]. intros s2 Hs2 Hx2. apply HQ; [done|congruence].
Qed.

Lemma syncing_xs d reg cb s x : syncing d reg cb s -> syncing d reg cb (Session (dsp s) (win s) (st s) (sync_done s) (objects s) (fresh s) (log s) x).
Proof. by intros []. Qed.

(** The loop waits for the callback or an error. *)
Lemma wp_sync_loop fuel d reg cb s (Q : Z -> session X -> Prop) E : patience mu -> (forall x r x', dispatch x = (r, x') -> Forall event_ok (snd r)) ->
  syncing d reg cb s -> (Datatypes.S (mu (xs s)) < fuel)%nat -> (forall r s', syncing d reg cb s' -> Q r s') -> wp (loop fuel (sync_step app d) 0) s Q E.
Proof.
  intros Hpat Hev Hs Hf HQ. apply (wp_loop (fun _ s => syncing d reg cb s) (fun ret s => if ret =? -1 then 0%nat else Datatypes.S (mu (xs s)))); [done|done|].
  clear s Hs Hf. intros ret s Hs. unfold sync_step. do 2 wl_step. wl_step; [|wl_step; by apply HQ].
  unfold wl_display_dispatch. do 2 wl_step. eapply wp_use; [apply Hs|done|]. do 2 wl_step. destruct a as [r evs]. wl_step.
  destruct (pa_dispatch mu Hpat _ _ _ H0) as [_ Hr]. apply (wp_deliver_all_sync d reg cb); [by apply syncing_xs|by apply (Hev _ _ _ H0)|].
  intros s' Hs' Hx. do 2 wl_step. split; [done|]. apply andb_true_iff in Heqb as [Hb _]. apply negb_true_iff in Hb. rewrite Hb.
  cbn in Hr, Hx. rewrite Hx. destruct (Z.eqb_spec r (-1)); lia.
Qed.

(** After the round trip the callback is gone, called or not. *)
Lemma syncing_end d reg cb s : syncing d reg cb s -> reg <> cb -> d <> reg -> d <> cb -> let m := delete reg (delete cb (objects s)) in
  forall e x, native_dpy e = d -> let s' := Session (dsp s) (win s) e (sync_done s) m (fresh s) (log s) x in
  opened d s' /\ bound (compositor (dsp s)) wl_compositor s' /\ bound (shell (dsp s)) wl_shell s'.
Proof.
  intros [Hd Hn [Ho Hr] Hcb Hf Hnm Hb Hq Hp Hc Hs] Hne Hdr Hdc m e x He s'.
  assert (Hkeep : forall p o, objects s !! p = Some o -> is_callback o = false -> o <> wl_registry true -> m !! p = Some o).
  { intros p o Hpo Ho1 Ho2. unfold m. rewrite lookup_delete_ne by (intros ->; congruence). rewrite lookup_delete_ne; [done|]. intros ->. destruct Hcb as [[_ ?]|[_ ?]]; [|congruence].
    rewrite Hpo in H0. injection H0 as ->. done. }
  assert (Hold : forall p o, m !! p = Some o -> objects s !! p = Some o /\ p <> reg /\ p <> cb).
  { intros p o Hpo. apply lookup_delete_Some in Hpo as [? Hpo]. apply lookup_delete_Some in Hpo as [? Hpo]. done. }
  split; [|split].
  - split; cbn; try done; [by apply Hkeep| |].
    + intros p [o Hpo]. apply Hnm. exists o. by apply Hold.
    + intros p o Hpo. destruct (Hold _ _ Hpo) as (? & ? & ?). by apply (Hq p).
  - destruct Hc as [->|Hc]; [by left|right; by apply Hkeep].
  - destruct Hs as [->|Hs]; [by left|right; by apply Hkeep].
Qed.

Record pristine s : Prop := Pristine { pr_dsp : dsp s = Display 0 0 0 0; pr_objects : objects s = ∅; pr_fresh : 0 < fresh s; pr_log : log s = [] }.

Lemma syncing_start s x d' e : pristine s -> wdisplay d' = fresh s -> compositor d' = 0 -> shell d' = 0 -> native_dpy e = fresh s ->
  syncing (fresh s) (fresh s + 1) (fresh s + 2) (Session d' (win s) e 0
    (<[fresh s + 2 := wl_callback (Some sync_listener)]> (<[fresh s + 1 := wl_registry true]> (<[fresh s := wl_display]> (objects s)))) (fresh s + 3) (log s) x).
Proof.
  intros [_ -> Hf ->] Hd Hc Hs He. split; cbn; try done; try lia.
  - rewrite !lookup_insert_ne by lia. rewrite lookup_insert_eq. split; [done|]. rewrite lookup_insert_ne by lia. apply lookup_insert_eq.
  - left. split; [done|apply lookup_insert_eq].
  - intros p Hp. rewrite !lookup_insert_is_Some' in Hp. rewrite lookup_empty in Hp. destruct Hp as [<-|[<-|[<-|[? Hp]]]]; [lia..|done].
  - intros p o Hp H1 H2. rewrite !lookup_insert_ne in Hp by lia. apply lookup_insert_Some in Hp as [[_ <-]|[_ Hp]]; [done|by rewrite lookup_empty in Hp].
  - by left.
  - by left.
Qed.

(** [_eglutNativeInitDisplay] fails without a compositor to connect to;
    otherwise it terminates and leaves the display and what was announced, and
    neither the registry nor the callback of the round trip. *)
Lemma init_display_correct fuel s : patience mu -> (forall x r x', dispatch x = (r, x') -> Forall event_ok (snd r)) -> pristine s -> (Datatypes.S (mu (snd (connect (xs s)))) < fuel)%nat ->
  wp (_eglutNativeInitDisplay app fuel) s
    (fun _ s' => opened (fresh s) s' /\ bound (compositor (dsp s')) wl_compositor s' /\ bound (shell (dsp s')) wl_shell s' /\ surface_type (st s') = EGL_WINDOW_BIT)
    (fun e _ => e = 1 /\ fst (connect (xs s)) = false).
Proof.
  intros Hpat Hev Hpr Hf. unfold _eglutNativeInitDisplay. do 2 wl_step. destruct a as [|].
  2: { do 6 wl_step. cbn. unfold _eglutFatal. wl_step. wl_step. by rewrite H0. }
  do 6 wl_step. wl_step. rewrite (proj2 (Z.eqb_neq (fresh s) 0)) by (pose proof (pr_fresh _ Hpr); lia).
  do 4 wl_step. unfold wayland_roundtrip. do 3 wl_step. eapply wp_use; [cbn; rewrite lookup_insert_ne by lia; apply lookup_insert_eq|done|].
  do 3 wl_step. eapply wp_add_listener; [apply lookup_insert_eq|]. cbn [dsp win st sync_done objects fresh log xs]. rewrite insert_insert_eq.
  replace (fresh s + 1 + 1 + 1) with (fresh s + 3) by lia. replace (fresh s + 1 + 1) with (fresh s + 2) by lia. wl_step.
  apply (wp_sync_loop _ (fresh s) (fresh s + 1) (fresh s + 2)); [done|done|apply syncing_start; try done; cbn; by rewrite (pr_dsp _ Hpr)|by rewrite H0 in Hf|].
  intros r s' Hs. do 3 wl_step.
  assert (Hfin : forall s2, s2 = Session (dsp s') (win s') (st s') (sync_done s') (delete (fresh s + 2) (objects s')) (fresh s') (log s') (xs s') ->
    wp (destroy (fresh s + 1) is_registry;; upd (fun e => e{{ surface_type := EGL_WINDOW_BIT }})) s2
      (fun _ s' => opened (fresh s) s' /\ bound (compositor (dsp s')) wl_compositor s' /\ bound (shell (dsp s')) wl_shell s' /\ surface_type (st s') = EGL_WINDOW_BIT)
      (fun e _ => e = 1 /\ fst (connect (xs s)) = false)).
  { intros s2 ->. wl_step. eapply wp_destroy; [cbn; rewrite lookup_delete_ne by lia; apply (sy_objects _ _ _ _ Hs)|done|]. wl_step.
    pose proof (sy_native _ _ _ _ Hs) as Hn.
    destruct (syncing_end _ _ _ _ Hs ltac:(lia) ltac:(lia) ltac:(lia) ((st s'){{ surface_type := EGL_WINDOW_BIT }}) (xs s')) as (? & ? & ?); [by destruct (st s')|].
    done. }
  destruct (sy_callback _ _ _ _ Hs) as [[-> Hcb]|[-> Hcb]].
  - change (0 =? 0) with true. eapply wp_destroy; [done|done|]. wl_step. by apply Hfin.
  - change (1 =? 0) with false. do 2 wl_step. apply Hfin. rewrite delete_id by done. by destruct s'.
Qed.
End session.

Module Demo.

(** A platform with the answers it has left: the batches of events and the results of [poll]. *)
Record plat : Type := Plat { batches : list (list event); polls : list (Z * Z) }.

#[export] Instance plat_wayland : Wayland plat := {|
  connect x := (true, x);
  dispatch x := match batches x with [] => ((-1, []), x) | b :: bs => ((0, b), Plat bs (polls x)) end;
  dispatch_pending x := ([], x);
  flush x := ((0, 0), x);
  poll _ _ x := match polls x with [] => ((-1, 0), x) | r :: rs => (r, Plat (batches x) rs) end |}.

Definition left_over (x : plat) : nat := length (batches x) + length (polls x).

(** The application asks for a redisplay when it is idle. *)
Definition app (c : app_callback) : M (session plat) unit :=
  match c with display_cb => mret tt | idle_cb => upd (fun e => e{{ redisplay := 1 }}) end.

Lemma app_demo : app_ok app left_over.
Proof. split. intros [|] s; cbn; unfold wp; cbn; [|destruct (st s)]; split_and!; done. Qed.

Lemma plat_patience : patience left_over.
Proof.
  split; intros; unfold left_over in *; cbn in *; try (simplify_eq; done).
  - destruct (batches x) eqn:Hb; simplify_eq; cbn; rewrite ?Hb; cbn; lia.
  - destruct (polls x) eqn:Hb; simplify_eq; cbn; rewrite ?Hb; cbn; lia.
Qed.

Definition new_window : egl_window := Win true 77 0 0 0.
Definition eglut0 : eglut := Eglut 0 0 None true 0.
Definition start (x : plat) : session plat := Session (Display 0 0 0 0) (Window 0 0 0) eglut0 0 ∅ 1 [] x.

(** The display is 1, the registry 2, the callback of the round trip 3, what is bound 4 and 5; then
    the surface 6 and the first frame callback 10. *)
Definition globals : list event := [Global 2 31 compositor_name 1; Global 2 32 shell_name 1; CallbackDone 3 0].
Definition x0 : plat := Plat [globals; [CallbackDone 10 0; CallbackDone 10 0; Global 2 33 shell_name 1]] [(1, POLLIN); (0, 0)].
Definition s0 : session plat := snd (_eglutNativeInitDisplay app 10 (start x0)).

Lemma s0_objects : objects s0 = <[1 := wl_display]> (<[4 := wl_compositor]> (<[5 := wl_shell]> ∅)).
Proof. vm_compute. reflexivity. Qed.

Lemma s0_object p o : objects s0 !! p = Some o -> p < 6 /\ is_callback o = false /\ o <> wl_registry true.
Proof.
  rewrite s0_objects. intros Hp.
  do 3 (apply lookup_insert_Some in Hp as [[<- <-]|[_ Hp]]; [done|]). by rewrite lookup_empty in Hp.
Qed.

Lemma s0_opened : opened 1 s0.
Proof.
  split; try (vm_compute; reflexivity).
  - intros p [o Hp]. change (fresh s0) with 6. by apply (s0_object _ _ Hp).
  - intros p o Hp. by apply (s0_object _ _ Hp).
  - change (log s0) with [Bind 31 4; Bind 32 5]. intros [|[|[|i]]] ev t Hi; done.
Qed.

Lemma window_session_correct_witness :
  app_ok app left_over /\ patience left_over /\ opened 1 s0 /\ objects s0 !! compositor (dsp s0) = Some wl_compositor /\
  objects s0 !! shell (dsp s0) = Some wl_shell /\ (left_over (xs s0) < 10)%nat /\
  wp (window_session app 10 new_window 0 0 640 480) s0 (fun _ s' => objects s' = delete 1 (objects s0) /\ polls_ok (log s')) (fun _ _ => True).
Proof.
  split; [exact app_demo|]. split; [exact plat_patience|]. split; [exact s0_opened|].
  split; [vm_compute; reflexivity|]. split; [vm_compute; reflexivity|]. split; [vm_compute; lia|].
  apply (window_session_correct app left_over 1 s0 10 new_window 0 0 640 480 app_demo plat_patience s0_opened); vm_compute; [reflexivity|reflexivity|lia].
Defined.

(** The requests of the run: the second event for the first frame callback and the late global are dropped. *)
Example requests : log (snd (window_session app 10 new_window 0 0 640 480 s0)) =
  [Bind 31 4; Bind 32 5; RegionAdd 7 0 0 640 480; SetOpaqueRegion 6 7; SetToplevel 8;
   SwapBuffers 77; Frame 6 10; Flush 0 0; Poll POLLIN 0; SwapBuffers 77; Frame 6 11; SwapBuffers 77;
   Flush 0 0; Poll POLLIN 0; SwapBuffers 77; Flush 0 0; Poll POLLIN 0; Flush 0 0; Disconnect 1].
Proof. vm_compute. reflexivity. Qed.

(** ** Where the code fails *)

(** A compositor that does not announce wl_shell, which is deprecated: the window cannot be created. *)
Example no_shell : let s := snd (_eglutNativeInitDisplay app 10 (start (Plat [[Global 2 31 compositor_name 1; CallbackDone 3 0]] []))) in
  shell (dsp s) = 0 /\ fst (_eglutNativeInitWindow new_window 0 0 640 480 s) = Undef.
Proof. vm_compute. done. Qed.

(** [_eglutNativeFiniWindow] leaves the pointer to the callback that it destroyed: a
    second window that is destroyed before it is drawn destroys the callback again. *)
Definition two_windows : M (session plat) unit :=
  v ← _eglutNativeInitWindow new_window 0 0 640 480;
  upd (fun e => e{{ current := Some v }});;
  _eglutNativeEventLoop app 10;;
  _eglutNativeFiniWindow v;;
  v ← _eglutNativeInitWindow new_window 0 0 640 480;
  _eglutNativeFiniWindow v.

Example destroyed_twice : fst (two_windows s0) = Undef.
Proof. vm_compute. reflexivity. Qed.

(** A frame callback is requested after the buffers were swapped, so it waits for
    the next swap; and nothing but a redisplay swaps again. *)
Definition app_quiet (c : app_callback) : M (session plat) unit := mret tt.

Example frame_after_swap : let x := Plat [globals] [(1, 0); (1, 0); (1, 0)] in
  log (snd (window_session app_quiet 10 new_window 0 0 640 480 (snd (_eglutNativeInitDisplay app_quiet 10 (start x))))) =
  [Bind 31 4; Bind 32 5; RegionAdd 7 0 0 640 480; SetOpaqueRegion 6 7; SetToplevel 8; SwapBuffers 77; Frame 6 10;
   Flush 0 0; Poll POLLIN (-1); Flush 0 0; Poll POLLIN (-1); Flush 0 0; Poll POLLIN (-1); Flush 0 0; Poll POLLIN (-1); Flush 0 0; Disconnect 1].
Proof. vm_compute. reflexivity. Qed.

End Demo.
