(* ===== verification/SetjmpCookie.v ===== *)
(** * The cookie of setjmp: [libc-shim/src/bionic/setjmp_cookie.c]

    The static variable is the state; a [long] has 64 bits. The random value is
    an argument of the call that may draw it. [abort] is the error. *)
From S2P Require Import Prelude.

Definition SIGABRT : Z := 6.

(** [value & ~1]: the last bit is for the signal flag. *)
Definition without_flag (value : Z) : Z := Z.land value (Z.lnot 1).

Definition __bionic_init_setjmp_cookie (arc4random : Z) : M Z unit := setS (without_flag arc4random).

Definition __bionic_setjmp_cookie_get (arc4random sigflag : Z) : M Z Z :=
  setjmp_cookie ← getS;
  (if setjmp_cookie =? 0 then __bionic_init_setjmp_cookie arc4random else mret tt);;
  fail_if (negb (without_flag sigflag =? 0)) SIGABRT;;
  setjmp_cookie ← getS;
  mret (Z.lor setjmp_cookie sigflag).

Definition __bionic_setjmp_cookie_check (cookie : Z) : M Z Z :=
  setjmp_cookie ← getS;
  fail_if (negb (setjmp_cookie =? without_flag cookie)) SIGABRT;;
  mret (Z.land cookie 1).

Definition __bionic_setjmp_checksum_mismatch : M Z Z := fail SIGABRT.

(** ** The flag comes back *)

Lemma flag_joined c f : without_flag c = c -> without_flag f = 0 -> without_flag (Z.lor c f) = c /\ Z.land (Z.lor c f) 1 = f.
Proof.
  intros Hc Hf. unfold without_flag in *. rewrite Z.land_lor_distr_l, Hc, Hf, Z.lor_0_r. split; [done|].
  rewrite Z.land_lor_distr_l. rewrite <- Hc at 1. rewrite <- Z.land_assoc, (Z.land_comm (Z.lnot 1)), Z.land_lnot_diag, Z.land_0_r, Z.lor_0_l.
  apply Z.bits_inj'. intros i Hi. rewrite Z.land_spec. pose proof (f_equal (fun x => Z.testbit x i) Hf) as Hb. cbn beta in Hb.
  rewrite Z.land_spec, Z.bits_0, Z.lnot_spec in Hb by done. by destruct (Z.testbit f i), (Z.testbit 1 i).
Qed.

(** A call of another [setjmp] or [longjmp] in between. *)
Inductive call : Type := Get (arc4random sigflag : Z) | CheckCookie (cookie : Z).

Definition run (c : call) : M Z Z :=
  match c with Get r f => __bionic_setjmp_cookie_get r f | CheckCookie k => __bionic_setjmp_cookie_check k end.

(** Once a cookie was drawn that is not zero, no call changes it. *)
Lemma cookie_fixed c s : s <> 0 -> snd (run c s) = s.
Proof.
  intros Hs. destruct c as [r f|k]; cbn [run].
  - unfold __bionic_setjmp_cookie_get, getS, fail_if, mbind, M_bind. cbn. rewrite (proj2 (Z.eqb_neq s 0)) by done. cbn. by destruct (negb _).
  - unfold __bionic_setjmp_cookie_check, getS, fail_if, mbind, M_bind. cbn. by destruct (negb _).
Qed.

(** The flag that [setjmp] stores is what [longjmp] gets back, whatever calls
    come in between; a cookie with other bits aborts. The value drawn must not be 0 or 1. *)
Theorem setjmp_cookie_roundtrip (s r f : Z) (between : list call) :
  without_flag s = s -> without_flag f = 0 -> s <> 0 \/ without_flag r <> 0 ->
  wp (__bionic_setjmp_cookie_get r f) s
    (fun cookie s1 => let s2 := foldl (fun s c => snd (run c s)) s1 between in
       wp (__bionic_setjmp_cookie_check cookie) s2 (fun flag s3 => flag = f /\ s3 = s1) (fun _ _ => False) /\
       forall k, without_flag k <> without_flag cookie -> wp (__bionic_setjmp_cookie_check k) s2 (fun _ _ => False) (fun e _ => e = SIGABRT))
    (fun _ _ => False).
Proof.
  intros Hs Hf Hne. unfold __bionic_setjmp_cookie_get. do 2 wp_step.
  assert (Hrest : forall s', s' <> 0 -> without_flag s' = s' -> foldl (fun s c => snd (run c s)) s' between = s').
  { intros s' H0 _. induction between as [|c l IH]; [done|]. cbn. by rewrite cookie_fixed. }
  assert (Hgo : forall s', s' <> 0 -> without_flag s' = s' ->
    wp (fail_if (negb (without_flag f =? 0)) SIGABRT;; setjmp_cookie ← getS; mret (Z.lor setjmp_cookie f)) s'
      (fun cookie s1 => let s2 := foldl (fun s c => snd (run c s)) s1 between in
         wp (__bionic_setjmp_cookie_check cookie) s2 (fun flag s3 => flag = f /\ s3 = s1) (fun _ _ => False) /\
         forall k, without_flag k <> without_flag cookie -> wp (__bionic_setjmp_cookie_check k) s2 (fun _ _ => False) (fun e _ => e = SIGABRT)) (fun _ _ => False)).
  { intros s' H0 Hw. rewrite Hf. wp_step. wp_step; [done|]. do 3 wp_step. rewrite (Hrest s') by done. destruct (flag_joined s' f Hw Hf) as [Hj1 Hj2]. split.
    - unfold __bionic_setjmp_cookie_check. do 2 wp_step. rewrite Hj1, Z.eqb_refl. wp_step. wp_step; [done|]. wp_step. done.
    - intros k Hk. unfold __bionic_setjmp_cookie_check. do 2 wp_step. rewrite Hj1 in Hk. rewrite (proj2 (Z.eqb_neq s' (without_flag k))) by congruence. by wp_step. }
  wp_step. destruct (Z.eqb_spec s 0) as [->|Hn0].
  - unfold __bionic_init_setjmp_cookie. wp_step. apply Hgo; [by destruct Hne|]. unfold without_flag. by rewrite <- Z.land_assoc, Z.land_diag.
  - wp_step. by apply Hgo.
Qed.

(** A drawn 0 or 1 leaves the cookie unset: the next [setjmp] draws again, and a jump to the first one aborts. *)
Example cookie_drawn_zero :
  let '(o1, s1) := __bionic_setjmp_cookie_get 1 0 0 in let '(_, s2) := __bionic_setjmp_cookie_get 77 0 s1 in
  o1 = Ret 0 /\ fst (__bionic_setjmp_cookie_check 0 s2) = Err SIGABRT.
Proof. vm_compute. done. Qed.

Lemma setjmp_cookie_roundtrip_witness :
  without_flag 1 = 0 /\ wp (__bionic_setjmp_cookie_get 77 1) 0
    (fun cookie s1 => let s2 := foldl (fun s c => snd (run c s)) s1 [Get 5 0; CheckCookie 3] in
       wp (__bionic_setjmp_cookie_check cookie) s2 (fun flag s3 => flag = 1 /\ s3 = s1) (fun _ _ => False) /\
       forall k, without_flag k <> without_flag cookie -> wp (__bionic_setjmp_cookie_check k) s2 (fun _ _ => False) (fun e _ => e = SIGABRT))
    (fun _ _ => False).
Proof. split; [reflexivity|]. apply (setjmp_cookie_roundtrip 0 77 1 [Get 5 0; CheckCookie 3]); [reflexivity|reflexivity|right; vm_compute; discriminate]. Defined.
