(* ===== verification/Base64.v ===== *)
(** * Base64: [upstream-openbsd/lib/libc/net/base64.c]

    The encoder and the decoder, that decoding inverts encoding, and that the
    decoder accepts nothing but encodings (with whitespace). The target is the
    state; [return (-1)] leaves [errno] alone and is the error 0. *)
From S2P Require Import Prelude CString.

(** ** The code *)

(** "ABCDEFGHIJKLMNOPQRSTUVWXYZabcdefghijklmnopqrstuvwxyz0123456789+/" *)
Definition Base64 : list Z :=
  seqZ 65 26 ++ seqZ 97 26 ++ seqZ 48 10 ++ [43; 47].

Definition Pad64 : Z := 61.

(** The first characters of [output], from three input bytes. *)
Definition output (i : Z) (x y z : Z) : Z :=
  if i =? 0 then Z.shiftr x 2
  else if i =? 1 then u8 (Z.shiftl (Z.land x 0x03) 4 + Z.shiftr y 4)
  else if i =? 2 then u8 (Z.shiftl (Z.land y 0x0f) 2 + Z.shiftr z 6)
  else Z.land z 0x3f.

(** [target[datalength++] = Base64[v]] *)
Definition put64 (v datalength : Z) : M (list Z) Z :=
  c ← rd Base64 v;
  wr datalength c;;
  mret (datalength + 1).

(** One iteration of [while (2 < srclength)]. *)
Definition ntop_quantum (src : list Z) (targsize : Z) '((s, srclength, datalength) : Z * Z * Z)
    : M (list Z) (step (Z * Z * Z) (Z * Z * Z)) :=
  if negb (2 <? srclength) then mret (Done (s, srclength, datalength))
  else
    x ← rd src s;
    y ← rd src (s + 1);
    z ← rd src (s + 2);
    fail_if (targsize <? datalength + 4) 0;;
    datalength ← put64 (output 0 x y z) datalength;
    datalength ← put64 (output 1 x y z) datalength;
    datalength ← put64 (output 2 x y z) datalength;
    datalength ← put64 (output 3 x y z) datalength;
    mret (Next (s + 3, srclength - 3, datalength)).

(** The last, incomplete group. *)
Definition ntop_padding (src : list Z) (targsize s srclength datalength : Z) : M (list Z) Z :=
  if srclength =? 0 then mret datalength
  else
    x ← rd src s;
    y ← (if 1 <? srclength then rd src (s + 1) else mret 0);
    fail_if (targsize <? datalength + 4) 0;;
    datalength ← put64 (output 0 x y 0) datalength;
    datalength ← put64 (output 1 x y 0) datalength;
    datalength ←
      (if srclength =? 1 then wr datalength Pad64;; mret (datalength + 1)
       else put64 (output 2 x y 0) datalength);
    wr datalength Pad64;;
    mret (datalength + 1).

Definition b64_ntop (src : list Z) (srclength targsize : Z) : M (list Z) Z :=
  '(s, srclength, datalength) ←
    loop (S (length src)) (ntop_quantum src targsize) (0, srclength, 0);
  datalength ← ntop_padding src targsize s srclength datalength;
  fail_if (targsize <=? datalength) 0;;
  wr datalength 0;;
  mret datalength.

(** [strchr(Base64, ch) - Base64] for a character other than NUL. *)
Fixpoint position (l : list Z) (ch i : Z) : option Z :=
  match l with
  | [] => None
  | c :: l => if c =? ch then Some i else position l ch (i + 1)
  end.

(** [target[tarindex+1] = nextbyte], or the refusal to drop bits. *)
Definition put_next (targsize tarindex nextbyte : Z) : M (list Z) unit :=
  if tarindex + 1 <? targsize then wr (tarindex + 1) nextbyte
  else fail_if (negb (nextbyte =? 0)) 0.

(** [target[tarindex] |= v] *)
Definition or_target (tarindex v : Z) : M (list Z) unit :=
  t ← rdS tarindex;
  wr tarindex (u8 (Z.lor t v)).

(** The switch over [state] for a digit [p]; [target] is not NULL when [tgt]
    is set. The result is the new [state] and [tarindex]. *)
Definition pton_digit (tgt : bool) (targsize p state tarindex : Z) : M (list Z) (Z * Z) :=
  if state =? 0 then
    (if tgt then
       fail_if (targsize <=? tarindex) 0;;
       wr tarindex (u8 (Z.shiftl p 2))
     else mret tt);;
    mret (1, tarindex)
  else if state =? 1 then
    (if tgt then
       fail_if (targsize <=? tarindex) 0;;
       or_target tarindex (Z.shiftr p 4);;
       put_next targsize tarindex (u8 (Z.shiftl (Z.land p 0x0f) 4))
     else mret tt);;
    mret (2, tarindex + 1)
  else if state =? 2 then
    (if tgt then
       fail_if (targsize <=? tarindex) 0;;
       or_target tarindex (Z.shiftr p 2);;
       put_next targsize tarindex (u8 (Z.shiftl (Z.land p 0x03) 6))
     else mret tt);;
    mret (3, tarindex + 1)
  else
    (if tgt then
       fail_if (targsize <=? tarindex) 0;;
       or_target tarindex p
     else mret tt);;
    mret (0, tarindex + 1).

(** One iteration of [while ((ch = ( unsigned char)*src++) != '\0')]; the loop
    ends with [ch], the position behind it, [state] and [tarindex]. *)
Definition pton_char (s : list Z) (tgt : bool) (targsize : Z) '((src, state, tarindex) : Z * Z * Z)
    : M (list Z) (step (Z * Z * Z) (Z * Z * Z * Z)) :=
  ch ← rd s src;
  let src := src + 1 in
  if ch =? 0 then mret (Done (ch, src, state, tarindex))
  else if isspace ch then mret (Next (src, state, tarindex))
  else if ch =? Pad64 then mret (Done (ch, src, state, tarindex))
  else
    match position Base64 ch 0 with
    | None => fail 0
    | Some p =>
        '(state, tarindex) ← pton_digit tgt targsize p state tarindex;
        mret (Next (src, state, tarindex))
    end.

(** [for (; ch != '\0'; ch = *src++) if (!isspace(ch)) break;]: the character
    the loop ends at and the position behind it. *)
Definition space_step {S} (s : list Z) '((ch, src) : Z * Z) : M S (step (Z * Z) (Z * Z)) :=
  if negb (ch =? 0) && isspace ch then
    ch ← rd s src;
    mret (Next (ch, src + 1))
  else mret (Done (ch, src)).

Definition skip_spaces {S} (s : list Z) (ch src : Z) : M S (Z * Z) :=
  loop (Datatypes.S (length s)) (space_step s) (ch, src).

(** From [if (ch == Pad64)] on. *)
Definition pton_tail (s : list Z) (tgt : bool) (targsize ch src state tarindex : Z) : M (list Z) Z :=
  if ch =? Pad64 then
    ch ← rd s src;
    let src := src + 1 in
    fail_if ((state =? 0) || (state =? 1)) 0;;
    '(ch, src) ←
      (if state =? 2 then
         '(ch, src) ← skip_spaces s ch src;
         fail_if (negb (ch =? Pad64)) 0;;
         ch ← rd s src;
         mret (ch, src + 1)
       else mret (ch, src));
    '(ch, _) ← skip_spaces s ch src;
    fail_if (negb (ch =? 0)) 0;;
    (if tgt && (tarindex <? targsize) then
       t ← rdS tarindex;
       fail_if (negb (t =? 0)) 0
     else mret tt);;
    mret tarindex
  else
    fail_if (negb (state =? 0)) 0;;
    mret tarindex.

Definition b64_pton (s : list Z) (tgt : bool) (targsize : Z) : M (list Z) Z :=
  '(ch, src, state, tarindex) ← loop (S (length s)) (pton_char s tgt targsize) (0, 0, 0);
  pton_tail s tgt targsize ch src state tarindex.

(** ** The specification *)

(** The character of a digit, and the digits of a group of three bytes. *)
Definition b64 (d : Z) : Z := default 0 (znth Base64 d).

Fixpoint encode (l : list Z) : list Z :=
  match l with
  | x :: y :: z :: l =>
      map b64 [x / 4; x mod 4 * 16 + y / 16; y mod 16 * 4 + z / 64; z mod 64] ++ encode l
  | [x; y] => map b64 [x / 4; x mod 4 * 16 + y / 16; y mod 16 * 4] ++ [Pad64]
  | [x] => map b64 [x / 4; x mod 4 * 16] ++ [Pad64; Pad64]
  | [] => []
  end.

(** The decoder reads digits one by one: the bytes that are complete, and the
    value of the next byte as far as it is known. *)
Definition feed '((full, state, part) : list Z * Z * Z) (d : Z) : list Z * Z * Z :=
  if state =? 0 then (full, 1, d * 4)
  else if state =? 1 then (full ++ [part + d / 16], 2, d mod 16 * 16)
  else if state =? 2 then (full ++ [part + d / 4], 3, d mod 4 * 64)
  else (full ++ [part + d], 0, 0).

Definition decode (ds : list Z) : list Z * Z * Z := foldl feed ([], 0, 0) ds.

Definition digit (d : Z) : Prop := 0 <= d < 64.

(** ** Bits as arithmetic *)

Lemma output_eq x y z : is_byte x -> is_byte y -> is_byte z ->
  output 0 x y z = x / 4 /\ output 1 x y z = x mod 4 * 16 + y / 16 /\
  output 2 x y z = y mod 16 * 4 + z / 64 /\ output 3 x y z = z mod 64.
Proof.
  unfold is_byte, output, u8. intros Hx Hy Hz. cbn [Z.eqb].
  change 0x03 with (Z.ones 2). change 0x0f with (Z.ones 4). change 0x3f with (Z.ones 6).
  rewrite !Z.land_ones, !Z.shiftl_mul_pow2, !Z.shiftr_div_pow2 by lia.
  change (2 ^ 2) with 4. change (2 ^ 4) with 16. change (2 ^ 6) with 64. change (2 ^ 8) with 256.
  rewrite !(Z.mod_small _ 256); [done|..]; Z.div_mod_to_equations; lia.
Qed.

Lemma b64_digit d : digit d -> znth Base64 d = Some (b64 d).
Proof.
  intros Hd. unfold b64. destruct (znth_lt Base64 d) as [v ->]; [|done]. exact Hd.
Qed.

(** Encoding and decoding a character, for all bytes by evaluation. *)
Lemma position_b64 ch p : is_byte ch -> position Base64 ch 0 = Some p -> digit p /\ b64 p = ch.
Proof.
  intros Hb Hp.
  assert (Hc : match position Base64 ch 0 with
               | Some p => (0 <=? p) && (p <? 64) && (b64 p =? ch)
               | None => true
               end = true).
  { exact (byte_check (fun ch => match position Base64 ch 0 with
      | Some p => (0 <=? p) && (p <? 64) && (b64 p =? ch) | None => true end) ch eq_refl Hb). }
  rewrite Hp in Hc. unfold digit. lia.
Qed.

Lemma b64_position d : digit d ->
  position Base64 (b64 d) 0 = Some d /\ is_byte (b64 d) /\ isspace (b64 d) = false /\
  b64 d <> 0 /\ b64 d <> Pad64.
Proof.
  intros Hd. assert (Hb : is_byte d) by (unfold is_byte, digit in *; lia).
  assert (Hc : (64 <=? d) || bool_decide (position Base64 (b64 d) 0 = Some d) && (0 <=? b64 d) &&
    (b64 d <? 256) && negb (isspace (b64 d)) && negb (b64 d =? 0) && negb (b64 d =? Pad64) = true).
  { exact (byte_check (fun d => (64 <=? d) || bool_decide (position Base64 (b64 d) 0 = Some d) &&
      (0 <=? b64 d) && (b64 d <? 256) && negb (isspace (b64 d)) && negb (b64 d =? 0) &&
      negb (b64 d =? Pad64)) d eq_refl Hb). }
  unfold digit in Hd. rewrite (proj2 (Z.leb_gt _ _)) in Hc by lia. cbn [orb] in Hc.
  rewrite !andb_true_iff, bool_decide_eq_true, Z.leb_le, Z.ltb_lt, !negb_true_iff, !Z.eqb_neq in Hc.
  unfold is_byte. tauto.
Qed.

Lemma u8_small v : 0 <= v < 256 -> u8 v = v.
Proof. intros. by apply Z.mod_small. Qed.

(** ** The encoder *)

Lemma encode_cons x y z l : encode (x :: y :: z :: l) =
  map b64 [x / 4; x mod 4 * 16 + y / 16; y mod 16 * 4 + z / 64; z mod 64] ++ encode l.
Proof. done. Qed.

Lemma zlen_snoc_Z {A} (l : list A) x : zlen (l ++ [x]) = zlen l + 1.
Proof. by rewrite zlen_app. Qed.

(** Induction three bytes at a time. *)
Lemma three_ind (P : list Z -> Prop) :
  P [] -> (forall x, P [x]) -> (forall x y, P [x; y]) ->
  (forall x y z l, P l -> P (x :: y :: z :: l)) -> forall l, P l.
Proof.
  intros H0 H1 H2 H3 l. assert (H : forall n l, (length l <= n)%nat -> P l); [|by apply (H (length l))].
  clear l. induction n as [|n IH]; intros [|x [|y [|z l]]] Hl; cbn in Hl; auto; try lia.
  apply H3, IH. lia.
Qed.

Lemma group_digits x y z : is_byte x -> is_byte y -> is_byte z ->
  digit (x / 4) /\ digit (x mod 4 * 16 + y / 16) /\ digit (y mod 16 * 4 + z / 64) /\ digit (z mod 64).
Proof. unfold is_byte, digit. intros. split_and!; Z.div_mod_to_equations; lia. Qed.

Section ntop.
Context (dst : list Z) (targsize : Z) (Hsize : 0 <= targsize <= zlen dst).
Implicit Types (w src l s : list Z).

Lemma wp_put64 v w s (Q : Z -> list Z -> Prop) E :
digit v -> filled dst targsize w s -> zlen w < targsize ->
(forall s', filled dst targsize (w ++ [b64 v]) s' -> Q (zlen (w ++ [b64 v])) s') ->
wp (put64 v (zlen w)) s Q E.
Proof.
intros Hv Hw Hl HQ. unfold put64. wp_step. eapply wp_rd; [by apply b64_digit|].
wp_step. apply (wp_wr_filled dst targsize ltac:(lia) w); [done|done|]. intros s' Hw'.
wp_step. rewrite zlen_app in HQ. by apply HQ.
Qed.

Lemma wp_ntop_quantum src p x y z q w s (Q : step (Z * Z * Z) (Z * Z * Z) -> list Z -> Prop) E :
src = p ++ x :: y :: z :: q -> is_byte x -> is_byte y -> is_byte z ->
filled dst targsize w s ->
(targsize < zlen w + 4 -> E 0 s) ->
(forall s', filled dst targsize (w ++ map b64 [x / 4; x mod 4 * 16 + y / 16; y mod 16 * 4 + z / 64; z mod 64]) s' ->
   Q (Next (zlen p + 3, zlen q, zlen w + 4)) s') ->
wp (ntop_quantum src targsize (zlen p, zlen (x :: y :: z :: q), zlen w)) s Q E.
Proof.
intros -> Hx Hy Hz Hw HE HQ. unfold ntop_quantum. rewrite !zlen_cons. pose proof (zlen_nonneg q).
rewrite (proj2 (Z.ltb_lt _ _)) by lia. cbn [negb].
destruct (output_eq x y z Hx Hy Hz) as (E0 & E1 & E2 & E3).
destruct (group_digits x y z Hx Hy Hz) as (D0 & D1 & D2 & D3).
assert (Hn : forall i c, 0 <= i -> znth (x :: y :: z :: q) i = Some c ->
          znth (p ++ x :: y :: z :: q) (zlen p + i) = Some c).
{ intros i c Hi Hc. rewrite znth_app_r by lia. by replace (zlen p + i - zlen p) with i by lia. }
wp_step. apply (wp_rd _ _ _ _ _ x). { rewrite <- (Z.add_0_r (zlen p)). by apply Hn. }
wp_step. apply (wp_rd _ _ _ _ _ y). { by apply Hn. }
wp_step. apply (wp_rd _ _ _ _ _ z). { by apply Hn. }
wp_step. wp_step; [apply HE; lia|]. rewrite E0, E1, E2, E3.
wp_step. apply wp_put64; [done|done|lia|]. intros s1 F1.
wp_step. apply wp_put64; [done|done|zlen_simpl; lia|]. intros s2 F2.
wp_step. apply wp_put64; [done|done|zlen_simpl; lia|]. intros s3 F3.
wp_step. apply wp_put64; [done|done|zlen_simpl; lia|]. intros s4 F4. wp_step.
rewrite <- !app_assoc in *. cbn [map] in HQ.
replace (zlen (w ++ _)) with (zlen w + 4) by (rewrite !zlen_app; by zlen_simpl).
replace (zlen q + 1 + 1 + 1 - 3) with (zlen q) by lia. by apply HQ.
Qed.

(** The bytes of the last group, the terminator apart. *)
Lemma wp_ntop_padding src p l w s :
src = p ++ l -> bytes l -> zlen l < 3 -> filled dst targsize w s ->
wp (ntop_padding src targsize (zlen p) (zlen l) (zlen w)) s
   (fun dl s' => dl = zlen (w ++ encode l) /\ filled dst targsize (w ++ encode l) s')
   (fun e _ => e = 0 /\ targsize <= zlen (w ++ encode l)).
Proof.
intros -> Hl Hlen Hw. pose proof (zlen_nonneg w). unfold ntop_padding.
destruct l as [|x l]; [cbn; wp_step; by rewrite app_nil_r|].
pose proof (zlen_nonneg l). rewrite zlen_cons in *. apply Forall_cons in Hl as [Hx Hl].
rewrite (proj2 (Z.eqb_neq (zlen l + 1) 0)) by lia. wp_step. apply (wp_rd _ _ _ _ _ x); [apply znth_middle|].
assert (Hzero : is_byte 0) by (unfold is_byte; lia).
wp_step. destruct l as [|y [|z l]]; [| |rewrite !zlen_cons in *; pose proof (zlen_nonneg l); lia].
- change (zlen (@nil Z) + 1) with 1. cbn [Z.ltb Z.compare Pos.compare Pos.compare_cont Z.eqb Pos.eqb].
  destruct (output_eq x 0 0 Hx Hzero Hzero) as (E0 & E1 & _ & _).
  destruct (group_digits x 0 0 Hx Hzero Hzero) as (D0 & D1 & _ & _).
  change (0 / 16) with 0 in *. rewrite Z.add_0_r in *. cbn [encode map app].
  wp_step. wp_step. wp_step; [split; [done|rewrite zlen_app; zlen_simpl; lia]|].
  rewrite E0, E1.
  wp_step. apply wp_put64; [done|done|lia|]. intros s1 F1.
  wp_step. apply wp_put64; [done|done|zlen_simpl; lia|]. intros s2 F2.
  wp_step. wp_step. apply (wp_wr_filled dst targsize ltac:(lia)); [done|zlen_simpl; lia|]. intros s3 F3.
  wp_step. rewrite <- zlen_snoc_Z with (x := Pad64).
  wp_step. apply (wp_wr_filled dst targsize ltac:(lia)); [done|zlen_simpl; lia|]. intros s4 F4.
  wp_step. rewrite <- !app_assoc in *. split; [zlen_simpl; lia|done].
- apply Forall_cons in Hl as [Hy _].
  change (zlen [y] + 1) with 2. cbn [Z.ltb Z.compare Pos.compare Pos.compare_cont Z.eqb Pos.eqb].
  destruct (output_eq x y 0 Hx Hy Hzero) as (E0 & E1 & E2 & _).
  destruct (group_digits x y 0 Hx Hy Hzero) as (D0 & D1 & D2 & _).
  change (0 / 64) with 0 in *. rewrite Z.add_0_r in *. cbn [encode map app].
  apply (wp_rd _ _ _ _ _ y).
  { rewrite znth_app_r by lia. by replace (zlen p + 1 - zlen p) with 1 by lia. }
  wp_step. wp_step; [split; [done|rewrite zlen_app; zlen_simpl; lia]|].
  rewrite E0, E1, E2.
  wp_step. apply wp_put64; [done|done|lia|]. intros s1 F1.
  wp_step. apply wp_put64; [done|done|zlen_simpl; lia|]. intros s2 F2.
  wp_step. apply wp_put64; [done|done|zlen_simpl; lia|]. intros s3 F3.
  wp_step. apply (wp_wr_filled dst targsize ltac:(lia)); [done|zlen_simpl; lia|]. intros s4 F4.
  wp_step. rewrite <- !app_assoc in *. split; [zlen_simpl; lia|done].
Qed.

Lemma wp_ntop_loop src p l w s fuel :
src = p ++ l -> bytes l -> filled dst targsize w s -> (length l < fuel)%nat ->
wp ('(sp, n, dl) ← loop fuel (ntop_quantum src targsize) (zlen p, zlen l, zlen w);
    ntop_padding src targsize sp n dl) s
   (fun dl s' => dl = zlen (w ++ encode l) /\ filled dst targsize (w ++ encode l) s')
   (fun e _ => e = 0 /\ targsize <= zlen (w ++ encode l)).
Proof.
revert p w s fuel. induction l as [|x|x y|x y z l IH] using three_ind;
  intros p w s [|fuel] Hsrc Hl Hw Hf; try (cbn in Hf; lia).
1-3: wp_step; apply wp_loop_S; unfold ntop_quantum at 1;
  rewrite (proj2 (Z.ltb_ge 2 _)) by (vm_compute; discriminate); cbn [negb]; wp_step;
  apply wp_ntop_padding; [done|done|vm_compute; reflexivity|done].
apply Forall_cons in Hl as [Hx Hl]. apply Forall_cons in Hl as [Hy Hl]. apply Forall_cons in Hl as [Hz Hl].
wp_step. apply wp_loop_S. eapply wp_ntop_quantum; [exact Hsrc|done..| |].
{ intros Hroom. split; [done|]. rewrite zlen_app, encode_cons. rewrite zlen_app.
  change (zlen (map b64 _)) with 4. pose proof (zlen_nonneg (encode l)). lia. }
intros s' Hw'. set (g := map b64 _) in *.
replace (zlen p + 3) with (zlen (p ++ [x; y; z])) by (zlen_simpl; lia).
replace (zlen w + 4) with (zlen (w ++ g)) by (rewrite zlen_app; done).
rewrite encode_cons. fold g. rewrite app_assoc.
apply wp_bind_inv, IH; [by rewrite <- app_assoc|done|done|cbn in Hf; lia].
Qed.
End ntop.

(** ** The decoder *)

(** Induction four digits at a time. *)
Lemma four_ind (P : list Z -> Prop) :
  P [] -> (forall a, P [a]) -> (forall a b, P [a; b]) -> (forall a b c, P [a; b; c]) ->
  (forall a b c d l, P l -> P (a :: b :: c :: d :: l)) -> forall l, P l.
Proof.
  intros H0 H1 H2 H3 H4 l. assert (H : forall n l, (length l <= n)%nat -> P l); [|by apply (H (length l))].
  clear l. induction n as [|n IH]; intros [|a [|b [|c [|d l]]]] Hl; cbn in Hl; auto; try lia.
  apply H4, IH. lia.
Qed.

Definition pad (state : Z) : list Z :=
  if state =? 2 then [Pad64; Pad64] else if state =? 3 then [Pad64] else [].

(** What the digits [ds] decode to is encoded by them, if no bits are lost. *)
Lemma encode_decode w ds :
  Forall digit ds ->
  exists l st part, foldl feed (w, 0, 0) ds = (w ++ l, st, part) /\ 0 <= st < 4 /\
    (st <> 1 -> part = 0 -> map b64 ds ++ pad st = encode l).
Proof.
  revert w. induction ds as [|a|a b|a b c|a b c d ds IH] using four_ind; intros w Hd.
  - exists [], 0, 0. by rewrite app_nil_r.
  - exists [], 1, (a * 4). by rewrite app_nil_r.
  - apply Forall_cons in Hd as [Ha Hd]. apply Forall_cons in Hd as [Hb _]. unfold digit in *.
    exists [a * 4 + b / 16], 2, (b mod 16 * 16). split; [done|split; [done|]]. intros _ Hp.
    cbn [encode map app pad Z.eqb Pos.eqb]. repeat f_equal; Z.div_mod_to_equations; lia.
  - apply Forall_cons in Hd as [Ha Hd]. apply Forall_cons in Hd as [Hb Hd]. apply Forall_cons in Hd as [Hc _].
    unfold digit in *. exists [a * 4 + b / 16; b mod 16 * 16 + c / 4], 3, (c mod 4 * 64).
    split; [cbn; by rewrite <- app_assoc|split; [done|]]. intros _ Hp.
    cbn [encode map app pad Z.eqb Pos.eqb]. repeat f_equal; Z.div_mod_to_equations; lia.
  - apply Forall_cons in Hd as [Ha Hd]. apply Forall_cons in Hd as [Hb Hd].
    apply Forall_cons in Hd as [Hc Hd]. apply Forall_cons in Hd as [He Hd]. unfold digit in *.
    set (g := [a * 4 + b / 16; b mod 16 * 16 + c / 4; c mod 4 * 64 + d]).
    destruct (IH (w ++ g) Hd) as (l & st & part & Hf & Hst & Henc).
    exists (g ++ l), st, part. split_and!; [|lia|lia|].
    + cbn [foldl feed Z.eqb Pos.eqb]. unfold g in Hf. rewrite <- !app_assoc in *. exact Hf.
    + intros Hst1 Hp. specialize (Henc Hst1 Hp). unfold g. cbn [app].
      rewrite encode_cons, <- Henc. cbn [map app]. repeat f_equal; Z.div_mod_to_equations; lia.
Qed.

Section pton.
Context (dst : list Z) (targsize : Z) (Hsize : 0 <= targsize <= zlen dst).
Implicit Types (full s b : list Z).

(** The partial byte in each state. *)
Definition part_ok (st part : Z) : Prop :=
(st = 0 /\ part = 0) \/ (st = 1 /\ exists a, digit a /\ part = a * 2 ^ 2) \/
(st = 2 /\ exists a, 0 <= a < 16 /\ part = a * 2 ^ 4) \/
(st = 3 /\ exists a, 0 <= a < 4 /\ part = a * 2 ^ 6).

(** The target: the complete bytes, and the partial one if there is room;
  without room it is zero. *)
Definition holds full (st part : Z) b : Prop :=
part_ok st part /\ zlen full <= targsize /\
((st = 0 \/ (zlen full = targsize /\ part = 0)) /\ b = splice dst 0 full \/
 st <> 0 /\ zlen full < targsize /\ b = splice dst 0 (full ++ [part])).

(** The bytes that are needed and have no room. *)
Definition no_room full (st part p : Z) : Prop :=
let '(full', st', part') := feed (full, st, part) p in
targsize <= zlen full \/ (zlen full' = targsize /\ part' <> 0).

Lemma wp_put_next full' part' b (Q : unit -> list Z -> Prop) E st' :
part_ok st' part' -> st' <> 0 -> 0 < zlen full' <= targsize -> b = splice dst 0 full' ->
(zlen full' = targsize /\ part' <> 0 -> E 0 b) ->
(forall b', holds full' st' part' b' -> Q tt b') ->
wp (put_next targsize (zlen full' - 1) part') b Q E.
Proof.
intros Hp Hst Hl -> HE HQ. unfold put_next. replace (zlen full' - 1 + 1) with (zlen full') by lia.
destruct (Z.ltb_spec (zlen full') targsize).
- apply wp_wr; [rewrite zlen_splice; lia|]. rewrite splice_snoc_alt by lia.
  apply HQ. split; [done|]. split; [lia|]. right. split_and!; [done|lia|done].
- apply wp_fail_if.
  + intros Hb. apply HE. split; [lia|]. by destruct (Z.eqb_spec part' 0).
  + intros Hb. apply HQ. split; [done|]. split; [lia|]. left. split; [|done]. right.
    split; [lia|]. by destruct (Z.eqb_spec part' 0).
Qed.

Lemma wp_or_target full part v b (Q : unit -> list Z -> Prop) E :
zlen full < targsize -> b = splice dst 0 (full ++ [part]) -> 0 <= Z.lor part v < 256 ->
Q tt (splice dst 0 (full ++ [Z.lor part v])) ->
wp (or_target (zlen full) v) b Q E.
Proof.
intros Hl -> Hv HQ. pose proof (zlen_nonneg full). unfold or_target, rdS. wp_step.
assert (Hn : zlen (full ++ [part]) = zlen full + 1) by apply zlen_snoc_Z.
apply (wp_rd _ _ _ _ _ part).
{ rewrite <- (Z.add_0_l (zlen full)). rewrite znth_splice_new by lia.
  apply znth_middle. }
rewrite u8_small by done. apply wp_wr; [rewrite zlen_splice by lia; lia|].
assert (Hs : zupd (splice dst 0 (full ++ [part])) (zlen full) (Z.lor part v) =
             splice dst 0 (full ++ [Z.lor part v])); [|by rewrite Hs].
rewrite <- (zupd_middle full part [] (Z.lor part v)), <- splice_upd by lia. done.
Qed.

Lemma feed_len full st part p full' st' part' :
0 <= st < 4 -> feed (full, st, part) p = (full', st', part') ->
st' = (st + 1) mod 4 /\ zlen full' = zlen full + (if st =? 0 then 0 else 1).
Proof.
intros Hst. unfold feed.
assert (st = 0 \/ st = 1 \/ st = 2 \/ st = 3) as [->|[->|[->| ->]]] by lia; cbn;
  intros [= <- <- <-]; rewrite ?zlen_snoc_Z; split; done || lia.
Qed.

Lemma wp_pton_digit full st part p b :
holds full st part b -> digit p ->
wp (pton_digit true targsize p st (zlen full)) b
   (fun '(st', ti) b' => exists full' part',
      feed (full, st, part) p = (full', st', part') /\ ti = zlen full' /\ holds full' st' part' b')
   (fun e _ => e = 0 /\ no_room full st part p).
Proof.
intros (Hp & Hl & Hb) Hd. pose proof (zlen_nonneg full). unfold digit in Hd.
unfold pton_digit, no_room, feed.
destruct Hp as [[-> ->]|[(-> & a & Ha & ->)|[(-> & a & Ha & ->)|(-> & a & Ha & ->)]]]; cbn [Z.eqb Pos.eqb].
- destruct Hb as [[_ ->]|(? & _)]; [|done]. wp_step. wp_step. wp_step; [split; [done|left; lia]|].
  apply wp_wr; [rewrite zlen_splice; lia|]. wp_step. exists full, (p * 4).
  split_and!; [done|done|]. split; [right; left; split; [done|]; by exists p|].
  split; [lia|]. right. split_and!; [done|lia|].
  rewrite u8_small by (rewrite Z.shiftl_mul_pow2; lia). rewrite Z.shiftl_mul_pow2 by lia.
  by rewrite splice_snoc_alt by lia.
- wp_step. wp_step. wp_step; [split; [done|left; lia]|]. unfold digit in *.
  destruct Hb as [[[?|[? _]] _]|(_ & Hroom & Hb)]; [done|lia|].
  assert (Hv : Z.lor (a * 2 ^ 2) (Z.shiftr p 4) = a * 2 ^ 2 + p / 16).
  { rewrite Z.shiftr_div_pow2 by lia. apply lor_add; [lia|]. Z.div_mod_to_equations; lia. }
  wp_step. eapply wp_or_target; [lia|exact Hb|rewrite Hv; Z.div_mod_to_equations; lia|].
  rewrite Hv. set (f := full ++ [_]). replace (zlen full) with (zlen f - 1) by (unfold f; rewrite zlen_snoc_Z; lia).
  assert (Hn : u8 (Z.shiftl (Z.land p 15) 4) = p mod 16 * 16).
  { change 15 with (Z.ones 4). rewrite Z.land_ones, Z.shiftl_mul_pow2 by lia. apply u8_small.
    Z.div_mod_to_equations; lia. }
  rewrite Hn. assert (Hf : zlen f = zlen full + 1) by apply zlen_snoc_Z.
  eapply (wp_put_next f (p mod 16 * 16) _ _ _ 2); [right; right; left; split; [done|]; exists (p mod 16); split; [by apply Z.mod_pos_bound|done]|done|lia|done| |].
  + intros [? ?]. split; [done|right; done].
  + intros b' Hb'. wp_step. exists f, (p mod 16 * 16). split_and!; [done|lia|done].
- wp_step. wp_step. wp_step; [split; [done|left; lia]|].
  destruct Hb as [[[?|[? _]] _]|(_ & Hroom & Hb)]; [done|lia|].
  assert (Hv : Z.lor (a * 2 ^ 4) (Z.shiftr p 2) = a * 2 ^ 4 + p / 4).
  { rewrite Z.shiftr_div_pow2 by lia. apply lor_add; [lia|]. Z.div_mod_to_equations; lia. }
  wp_step. eapply wp_or_target; [lia|exact Hb|rewrite Hv; Z.div_mod_to_equations; lia|].
  rewrite Hv. set (f := full ++ [_]). replace (zlen full) with (zlen f - 1) by (unfold f; rewrite zlen_snoc_Z; lia).
  assert (Hn : u8 (Z.shiftl (Z.land p 3) 6) = p mod 4 * 64).
  { change 3 with (Z.ones 2). rewrite Z.land_ones, Z.shiftl_mul_pow2 by lia. apply u8_small.
    Z.div_mod_to_equations; lia. }
  rewrite Hn. assert (Hf : zlen f = zlen full + 1) by apply zlen_snoc_Z.
  eapply (wp_put_next f (p mod 4 * 64) _ _ _ 3); [right; right; right; split; [done|]; exists (p mod 4); split; [by apply Z.mod_pos_bound|done]|done|lia|done| |].
  + intros [? ?]. split; [done|right; done].
  + intros b' Hb'. wp_step. exists f, (p mod 4 * 64). split_and!; [done|lia|done].
- wp_step. wp_step. wp_step; [split; [done|left; lia]|].
  destruct Hb as [[[?|[? _]] _]|(_ & Hroom & Hb)]; [done|lia|].
  assert (Hv : Z.lor (a * 2 ^ 6) p = a * 2 ^ 6 + p) by (apply lor_add; lia).
  eapply wp_or_target; [lia|exact Hb|rewrite Hv; lia|]. rewrite Hv. wp_step.
  exists (full ++ [a * 2 ^ 6 + p]), 0. split_and!; [done|by rewrite zlen_snoc_Z|].
  split; [by left|]. split; [rewrite zlen_snoc_Z; lia|]. left. auto.
Qed.

(** *** The text *)

Definition strip (t : list Z) : list Z := List.filter (fun c => negb (isspace c)) t.

Lemma strip_cons_nonspace c u : isspace c = false -> strip (c :: u) = c :: strip u.
Proof. intros Hsp. unfold strip. cbn [List.filter]. by rewrite Hsp. Qed.

Lemma strip_cons_space c u : isspace c = true -> strip (c :: u) = strip u.
Proof. intros Hsp. unfold strip. cbn [List.filter]. by rewrite Hsp. Qed.

(** Where the loop over the digits ends. *)
Definition pton_end s t ds '((ch, src', st', ti') : Z * Z * Z * Z) full st part b : Prop :=
exists full' part', foldl feed (full, st, part) ds = (full', st', part') /\ ti' = zlen full' /\
  holds full' st' part' b /\
  ((ch = 0 /\ strip t = map b64 ds) \/
   (ch = Pad64 /\ exists u, strip t = map b64 ds ++ Pad64 :: strip u /\ cstr s src' u)).

Lemma pton_end_digit s c t p ds r full st part b full1 st1 part1 :
feed (full, st, part) p = (full1, st1, part1) -> b64 p = c -> isspace c = false ->
pton_end s t ds r full1 st1 part1 b -> pton_end s (c :: t) (p :: ds) r full st part b.
Proof.
intros Hf Hb Hsp. destruct r as [[[ch src'] st'] ti']. unfold pton_end. cbn [foldl map]. rewrite Hf, Hb.
rewrite (strip_cons_nonspace c t) by done.
intros (full' & part' & Hfold & Hti & Hh & Hch). exists full', part'. split_and!; [done|done|done|].
destruct Hch as [[-> Ht]|(-> & u & Ht & Hc)].
- left. split; [done|]. by rewrite Ht.
- right. split; [done|]. exists u. by rewrite Ht.
Qed.

Lemma wp_pton_chars s t src full st part b fuel :
bytes s -> cstr s src t -> 0 <= st < 4 -> holds full st part b -> (length t < fuel)%nat ->
wp (loop fuel (pton_char s true targsize) (src, st, zlen full)) b
   (fun r b' => exists ds, Forall digit ds /\ pton_end s t ds r full st part b') (fun e _ => e = 0).
Proof.
intros Hs. revert src full st part b fuel.
induction t as [|c t IH]; intros src full st part b [|fuel] Hc Hst Hh Hf; cbn in Hf; try lia;
  apply wp_loop_S; unfold pton_char; wp_step.
- eapply wp_rd; [by apply cstr_nul_head|]. cbn. wp_step.
  exists []. split; [done|]. exists full, part. split_and!; [done|done|done|]. by left.
- destruct (cstr_cons_l _ _ _ _ Hc) as (Hc0 & Hr & Hct). eapply wp_rd; [exact Hr|].
  rewrite (proj2 (Z.eqb_neq c 0)) by done. destruct (isspace c) eqn:Hsp; cbn zeta.
  { wp_step. eapply wp_conseq; [apply IH; [done|done|done|lia]|].
    intros [[[ch src'] st'] ti'] b' (ds & Hds & full' & part' & Hfold & Hti & Hh' & Hch).
    exists ds. split; [done|]. exists full', part'. by rewrite strip_cons_space. }
  destruct (Z.eqb_spec c Pad64) as [->|Hpad].
  { wp_step. exists []. split; [done|]. exists full, part. split_and!; [done|done|done|].
    right. split; [done|]. exists t. split; [|done]. by rewrite strip_cons_nonspace. }
  destruct (position Base64 c 0) as [p|] eqn:Hp; [|done].
  destruct (position_b64 c p) as [Hd Hb64]; [by eapply bytes_znth|done|].
  wp_step. eapply wp_mono; [by apply (wp_pton_digit full st part p)| |by intros e b' [-> _]].
  intros [st' ti] b' (full' & part' & Hfeed & -> & Hh'). wp_step.
  destruct (feed_len _ _ _ _ _ _ _ Hst Hfeed) as [Hst' _].
  eapply wp_conseq; [apply (IH _ full' st' part'); [done|rewrite Hst'; by apply Z.mod_pos_bound|done|lia]|].
  intros r b2 (ds & Hds & Hend). exists (p :: ds). split; [by constructor|].
  by eapply pton_end_digit.
Qed.

(** Skipping whitespace from a character that is read already. *)
Lemma wp_skip_spaces {T} s u src (st : T) E :
cstr s (src - 1) u -> 1 <= src ->
wp (skip_spaces s (default 0 (head u)) src) st
   (fun '(ch, src') st' => st' = st /\ exists v, strip u = strip v /\ cstr s (src' - 1) v /\ 1 <= src' /\
      ch = default 0 (head v) /\ (ch <> 0 -> isspace ch = false)) E.
Proof.
intros Hc Hsrc. unfold skip_spaces.
assert (Hf : (length u < S (length s))%nat).
{ pose proof (cstr_len _ _ _ Hc). destruct Hc. unfold zlen in *. lia. }
revert src Hc Hsrc Hf. generalize (S (length s)) as fuel. intros fuel. revert fuel.
induction u as [|c u IH]; intros [|fuel] src Hc Hsrc Hf; cbn in Hf; try lia; apply wp_loop_S; unfold space_step.
- cbn. wp_step. split; [done|]. exists []. split_and!; done.
- destruct (cstr_cons_l _ _ _ _ Hc) as (Hc0 & Hr & Hct).
  change (default 0 (head (c :: u))) with c.
  rewrite (proj2 (Z.eqb_neq c 0)) by done. cbn [negb andb]. destruct (isspace c) eqn:Hsp.
  + wp_step. replace (src - 1 + 1) with (src + 1 - 1) in Hct by lia.
    apply (wp_rd _ _ _ _ _ (default 0 (head u))).
    { destruct u as [|d u].
      - replace src with (src + 1 - 1) by lia. by apply cstr_nul_head.
      - replace src with (src + 1 - 1) by lia. by destruct (cstr_cons_l _ _ _ _ Hct) as (_ & ? & _). }
    wp_step. eapply wp_conseq; [apply IH; [done|lia|lia]|].
    intros [ch src'] st' (-> & v & Hv & Hcv & Hs' & Hch & Hsp'). split; [done|]. exists v.
    split_and!; try done. by rewrite strip_cons_space.
  + wp_step. split; [done|]. exists (c :: u). split_and!; try done.
Qed.

Lemma strip_end v ch : ch = default 0 (head v) -> Forall (fun c => c <> 0) v -> ch = 0 -> strip v = [].
Proof. intros -> Hv H0. destruct v as [|c v]; [done|]. cbn in H0. apply Forall_cons in Hv as [? _]. done. Qed.

(** The part byte that the target holds when the tail looks at it. *)
Lemma wp_tail_check full st part b (Q : Z -> list Z -> Prop) (E : Z -> list Z -> Prop) :
holds full st part b -> 2 <= st < 4 ->
(part <> 0 -> E 0 b) -> (part = 0 -> Q (zlen full) b) ->
wp ((if true && (zlen full <? targsize) then t ← rdS (zlen full); fail_if (negb (t =? 0)) 0 else mret tt);;
    mret (zlen full)) b Q E.
Proof.
intros (Hp & Hl & Hb) Hst HE HQ. pose proof (zlen_nonneg full). cbn [andb]. wp_step.
destruct (Z.ltb_spec (zlen full) targsize) as [Hr|Hr].
- destruct Hb as [[[?|[? ?]] _]|(_ & _ & Hb)]; [lia|lia|]. wp_step. unfold rdS.
  apply (wp_rd _ _ _ _ _ part).
  { rewrite Hb. rewrite <- (Z.add_0_l (zlen full)).
    rewrite znth_splice_new by (rewrite ?zlen_snoc_Z; lia). apply znth_middle. }
  apply wp_fail_if; intros Hz.
  + apply HE. by destruct (Z.eqb_spec part 0).
  + wp_step. apply HQ. by destruct (Z.eqb_spec part 0).
- wp_step. wp_step. apply HQ. destruct Hb as [[[?|[_ ?]] _]|(_ & ? & _)]; [lia|done|lia].
Qed.

Lemma holds_take full st part b : holds full st part b ->
ztake (zlen full) b = full /\ zdrop targsize b = zdrop targsize dst.
Proof.
pose proof (zlen_nonneg full). intros (_ & Hl & [[_ ->]|(_ & Hlt & ->)]); split.
- apply ztake_splice_0.
- rewrite splice_0. unfold zdrop. rewrite drop_app_ge by (unfold zlen in *; lia).
  rewrite drop_drop. f_equal. unfold zlen in *. lia.
- rewrite splice_0, <- app_assoc. by rewrite ztake_app.
- rewrite splice_0. unfold zdrop. rewrite drop_app_ge by (rewrite length_app; cbn; unfold zlen in *; lia).
  rewrite drop_drop. f_equal. rewrite length_app. cbn. unfold zlen in *. rewrite length_app. cbn. lia.
Qed.

(** The text behind the digits: nothing, or the padding. *)
Lemma wp_pton_tail s t ds r full st part b :
pton_end s t ds r full st part b -> 0 <= st < 4 ->
wp (let '(ch, src, st', ti) := r in pton_tail s true targsize ch src st' ti) b
   (fun n b' => exists full' st' part', foldl feed (full, st, part) ds = (full', st', part') /\
      n = zlen full' /\ b' = b /\ holds full' st' part' b /\ st' <> 1 /\ part' = 0 /\
      strip t = map b64 ds ++ pad st')
   (fun e _ => e = 0).
Proof.
destruct r as [[[ch src] st'] ti]. intros (full' & part' & Hf & -> & Hh & Hch) Hst.
pose proof Hh as (Hpart & _ & _). unfold pton_tail.
destruct Hch as [[-> Ht]|(-> & u & Ht & Hc)].
{ change (0 =? Pad64) with false. cbn iota. wp_step. wp_step; [done|].
  assert (st' = 0) as -> by (by destruct (Z.eqb_spec st' 0)). wp_step.
  exists full', 0, part'. split_and!; try done.
  - destruct Hpart as [[_ ?]|[[? _]|[[? _]|[? _]]]]; done.
  - by rewrite Ht, app_nil_r. }
change (Pad64 =? Pad64) with true. cbn iota. pose proof Hc as (Hsrc & _ & _).
wp_step. apply (wp_rd _ _ _ _ _ (default 0 (head u))).
{ destruct u as [|d u]; [by apply cstr_nul_head|]. by destruct (cstr_cons_l _ _ _ _ Hc) as (_ & ? & _). }
wp_step. wp_step; [done|].
assert (Hst' : st' = 2 \/ st' = 3).
{ destruct (Z.eqb_spec st' 0), (Z.eqb_spec st' 1); try done.
  destruct Hpart as [[? _]|[[? _]|[[? _]|[? _]]]]; lia. }
assert (Hc1 : cstr s (src + 1 - 1) u) by (by rewrite Z.add_simpl_r).
wp_step. apply (wp_mono _ _ (fun '(ch, sp) b' => b' = b /\ exists v, ch = default 0 (head v) /\
    cstr s (sp - 1) v /\ 1 <= sp /\ Pad64 :: strip u = pad st' ++ strip v) _ (fun e _ => e = 0)).
{ destruct (Z.eqb_spec st' 2) as [->|Hne].
  - wp_step. eapply wp_conseq; [apply (wp_skip_spaces s u (src + 1)); [done|lia]|].
    intros [ch sp] b' (-> & v & Hv & Hcv & Hsp & Hchv & Hns). wp_step. wp_step; [done|].
    assert (ch = Pad64) as -> by (by destruct (Z.eqb_spec ch Pad64)).
    destruct v as [|c v]; [by vm_compute in Hchv|]. cbn in Hchv. subst c.
    destruct (cstr_cons_l _ _ _ _ Hcv) as (_ & _ & Hcv'). replace (sp - 1 + 1) with sp in Hcv' by lia.
    wp_step. apply (wp_rd _ _ _ _ _ (default 0 (head v))).
    { destruct v as [|d v]; [by apply cstr_nul_head|]. by destruct (cstr_cons_l _ _ _ _ Hcv') as (_ & ? & _). }
    wp_step. split; [done|]. exists v. split_and!; [done|by rewrite Z.add_simpl_r|lia|].
    by rewrite Hv, strip_cons_nonspace.
  - assert (st' = 3) as -> by lia. wp_step. split; [done|]. exists u. split_and!; [done|done|lia|done]. }
2: done.
intros [ch sp] b' (-> & v & -> & Hcv & Hsp & Htail). wp_step.
eapply wp_conseq; [apply (wp_skip_spaces s v sp); [done|lia]|].
intros [ch sp2] b' (-> & v2 & Hv2 & Hcv2 & _ & Hch2 & _). wp_step. wp_step; [done|].
assert (ch = 0) as -> by (by destruct (Z.eqb_spec ch 0)).
assert (Hnil : strip v2 = []) by (eapply strip_end; [done|by eapply cstr_nonzero|done]).
apply (wp_tail_check full' st' part'); [done|lia|done|]. intros Hp0.
exists full', st', part'. split_and!; try done; [lia|].
by rewrite Ht, Htail, Hv2, Hnil, app_nil_r.
Qed.

(** *** A well-formed text is accepted *)

Lemma wp_fwd_digit s src p t full st part b full' st' part' fuel
  (Q : Z * Z * Z * Z -> list Z -> Prop) E :
cstr s src (b64 p :: t) -> digit p -> holds full st part b ->
feed (full, st, part) p = (full', st', part') -> zlen full < targsize ->
(zlen full' = targsize -> part' = 0) ->
(forall b', holds full' st' part' b' ->
   wp (loop fuel (pton_char s true targsize) (src + 1, st', zlen full')) b' Q E) ->
wp (loop (S fuel) (pton_char s true targsize) (src, st, zlen full)) b Q E.
Proof.
intros Hc Hd Hh Hf Hroom Hlast HQ. apply wp_loop_S. unfold pton_char. wp_step.
destruct (cstr_cons_l _ _ _ _ Hc) as (_ & Hr & _). eapply wp_rd; [exact Hr|].
destruct (b64_position p Hd) as (Hpos & _ & Hsp & H0 & Hpad).
rewrite (proj2 (Z.eqb_neq _ 0)) by done. cbn zeta. rewrite Hsp, (proj2 (Z.eqb_neq _ Pad64)), Hpos by done.
wp_step. eapply wp_mono; [by apply (wp_pton_digit full st part p)| |].
- intros [s1 ti] b' (f1 & p1 & Hf1 & -> & Hh1). rewrite Hf in Hf1. injection Hf1 as <- <- <-.
  wp_step. by apply HQ.
- intros e b' [-> Hno]. exfalso. unfold no_room in Hno. rewrite Hf in Hno.
  destruct Hno as [?|[? ?]]; [lia|auto].
Qed.

(** The loop over the digits of an encoding. *)
Definition fwd_end s l '((ch, src', st', ti') : Z * Z * Z * Z) b : Prop :=
ti' = zlen l /\ holds l st' 0 b /\
((ch = 0 /\ st' = 0) \/ (ch = Pad64 /\ st' = 3 /\ cstr s src' []) \/
 (ch = Pad64 /\ st' = 2 /\ cstr s src' [Pad64])).

Lemma wp_fwd_pad s src t full st b fuel (Q : Z * Z * Z * Z -> list Z -> Prop) E :
cstr s src (Pad64 :: t) -> Q (Pad64, src + 1, st, zlen full) b ->
wp (loop (S fuel) (pton_char s true targsize) (src, st, zlen full)) b Q E.
Proof.
intros Hc HQ. apply wp_loop_S. unfold pton_char. wp_step.
destruct (cstr_cons_l _ _ _ _ Hc) as (_ & Hr & _). eapply wp_rd; [exact Hr|]. cbn. by wp_step.
Qed.

Lemma wp_fwd s l w b src fuel :
bytes l -> cstr s src (encode l) -> holds w 0 0 b -> zlen w + zlen l <= targsize ->
(length (encode l) < fuel)%nat ->
wp (loop fuel (pton_char s true targsize) (src, 0, zlen w)) b
   (fun r b' => fwd_end s (w ++ l) r b') (fun _ _ => False).
Proof.
revert w b src fuel. induction l as [|x|x y|x y z l IH] using three_ind;
  intros w b src fuel Hl Hc Hh Hroom Hf; rewrite ?zlen_cons in Hroom;
  try change (zlen (@nil Z)) with 0 in Hroom.
- destruct fuel as [|fuel]; [lia|]. apply wp_loop_S. unfold pton_char. wp_step.
  eapply wp_rd; [by apply cstr_nul_head|]. cbn. wp_step. rewrite app_nil_r.
  split_and!; [done|done|by left].
- apply Forall_cons in Hl as [Hx _]. cbn in Hf.
  assert (Hzero : is_byte 0) by (unfold is_byte; lia).
  destruct (group_digits x 0 0 Hx Hzero Hzero) as (D0 & D1 & _ & _).
  change (0 / 16) with 0 in D1. rewrite Z.add_0_r in D1. cbn [encode map app] in Hc.
  destruct (cstr_cons_l _ _ _ _ Hc) as (_ & _ & Hc1). destruct (cstr_cons_l _ _ _ _ Hc1) as (_ & _ & Hc2).
  destruct (cstr_cons_l _ _ _ _ Hc2) as (_ & _ & Hc3).
  do 3 (destruct fuel as [|fuel]; [lia|]).
  eapply wp_fwd_digit; [exact Hc|exact D0|exact Hh|reflexivity|lia|lia|]. intros b1 Hh1.
  eapply wp_fwd_digit; [exact Hc1|exact D1|exact Hh1|reflexivity|lia| |].
  { intros _. rewrite Z.mod_mul by lia. done. }
  intros b2 Hh2. assert (E1 : x / 4 * 4 + x mod 4 * 16 / 16 = x) by (Z.div_mod_to_equations; lia).
  rewrite E1 in *. rewrite Z.mod_mul in Hh2 by lia.
  eapply wp_fwd_pad; [exact Hc2|]. split_and!; [done|done|]. right. right. done.
- apply Forall_cons in Hl as [Hx Hl]. apply Forall_cons in Hl as [Hy _]. cbn in Hf.
  assert (Hzero : is_byte 0) by (unfold is_byte; lia).
  destruct (group_digits x y 0 Hx Hy Hzero) as (D0 & D1 & D2 & _).
  change (0 / 64) with 0 in D2. rewrite Z.add_0_r in D2. cbn [encode map app] in Hc. unfold is_byte in *.
  destruct (cstr_cons_l _ _ _ _ Hc) as (_ & _ & Hc1). destruct (cstr_cons_l _ _ _ _ Hc1) as (_ & _ & Hc2).
  destruct (cstr_cons_l _ _ _ _ Hc2) as (_ & _ & Hc3). destruct (cstr_cons_l _ _ _ _ Hc3) as (_ & _ & Hc4).
  do 4 (destruct fuel as [|fuel]; [lia|]).
  eapply wp_fwd_digit; [exact Hc|exact D0|exact Hh|reflexivity|lia|lia|]. intros b1 Hh1.
  eapply wp_fwd_digit; [exact Hc1|exact D1|exact Hh1|reflexivity|lia| |].
  { rewrite zlen_snoc_Z. lia. }
  intros b2 Hh2.
  assert (E1 : x / 4 * 4 + (x mod 4 * 16 + y / 16) / 16 = x) by (Z.div_mod_to_equations; lia).
  assert (E2 : (x mod 4 * 16 + y / 16) mod 16 * 16 = y / 16 * 16) by (Z.div_mod_to_equations; lia).
  rewrite E1, E2 in *.
  eapply wp_fwd_digit; [exact Hc2|exact D2|exact Hh2|reflexivity|rewrite zlen_snoc_Z; lia| |].
  { intros _. rewrite Z.mod_mul by lia. done. }
  intros b3 Hh3. assert (E3 : y / 16 * 16 + y mod 16 * 4 / 4 = y) by (Z.div_mod_to_equations; lia).
  rewrite E3 in *. rewrite Z.mod_mul in Hh3 by lia. rewrite <- app_assoc in *.
  eapply wp_fwd_pad; [exact Hc3|]. split_and!; [done|done|]. right. left. done.
- apply Forall_cons in Hl as [Hx Hl]. apply Forall_cons in Hl as [Hy Hl]. apply Forall_cons in Hl as [Hz Hl].
  destruct (group_digits x y z Hx Hy Hz) as (D0 & D1 & D2 & D3). rewrite encode_cons in Hc, Hf.
  cbn [map app] in Hc. cbn in Hf. unfold is_byte in *. pose proof (zlen_nonneg l).
  destruct (cstr_cons_l _ _ _ _ Hc) as (_ & _ & Hc1). destruct (cstr_cons_l _ _ _ _ Hc1) as (_ & _ & Hc2).
  destruct (cstr_cons_l _ _ _ _ Hc2) as (_ & _ & Hc3). destruct (cstr_cons_l _ _ _ _ Hc3) as (_ & _ & Hc4).
  do 4 (destruct fuel as [|fuel]; [lia|]).
  eapply wp_fwd_digit; [exact Hc|exact D0|exact Hh|reflexivity|lia|lia|]. intros b1 Hh1.
  eapply wp_fwd_digit; [exact Hc1|exact D1|exact Hh1|reflexivity|lia|rewrite zlen_snoc_Z; lia|].
  intros b2 Hh2.
  assert (E1 : x / 4 * 4 + (x mod 4 * 16 + y / 16) / 16 = x) by (Z.div_mod_to_equations; lia).
  assert (E2 : (x mod 4 * 16 + y / 16) mod 16 * 16 = y / 16 * 16) by (Z.div_mod_to_equations; lia).
  rewrite E1, E2 in *.
  eapply wp_fwd_digit; [exact Hc2|exact D2|exact Hh2|reflexivity|rewrite zlen_snoc_Z; lia|rewrite !zlen_snoc_Z; lia|].
  intros b3 Hh3.
  assert (E3 : y / 16 * 16 + (y mod 16 * 4 + z / 64) / 4 = y) by (Z.div_mod_to_equations; lia).
  assert (E4 : (y mod 16 * 4 + z / 64) mod 4 * 64 = z / 64 * 64) by (Z.div_mod_to_equations; lia).
  rewrite E3, E4 in *.
  eapply wp_fwd_digit; [exact Hc3|exact D3|exact Hh3|reflexivity|rewrite !zlen_snoc_Z; lia|done|].
  intros b4 Hh4. assert (E5 : z / 64 * 64 + z mod 64 = z) by (Z.div_mod_to_equations; lia).
  rewrite E5 in *. rewrite <- !app_assoc in *. cbn [app] in *.
  change (x :: y :: z :: l) with ([x; y; z] ++ l). rewrite app_assoc.
  apply IH; [done|done|done|rewrite zlen_app; zlen_simpl; lia|lia].
Qed.

(** The tail after an encoding. *)
Lemma wp_fwd_tail s l r b :
fwd_end s l r b ->
wp (let '(ch, src, st', ti) := r in pton_tail s true targsize ch src st' ti) b
   (fun n b' => n = zlen l /\ b' = b) (fun _ _ => False).
Proof.
destruct r as [[[ch src] st'] ti]. intros (-> & Hh & Hch). unfold pton_tail.
destruct Hch as [[-> ->]|[(-> & -> & Hc)|(-> & -> & Hc)]].
- change (0 =? Pad64) with false. cbn. by wp_step.
- pose proof Hc as (Hs & _ & _). change (Pad64 =? Pad64) with true. cbn iota. wp_step.
  apply (wp_rd _ _ _ _ _ 0); [by apply cstr_nul_head|]. cbn [Z.eqb Pos.eqb orb fail_if]. do 4 wp_step.
  wp_step. eapply wp_conseq; [apply (wp_skip_spaces s [] (src + 1)); [by rewrite Z.add_simpl_r|lia]|].
  intros [ch sp] b' (-> & v & Hv & Hcv & _ & -> & Hns). wp_step.
  assert (v = []) as ->.
  { destruct v as [|c v]; [done|exfalso]. pose proof (cstr_nonzero _ _ _ Hcv) as Hnz.
    apply Forall_cons in Hnz as [Hc0 _]. cbn in Hns. rewrite strip_cons_nonspace in Hv by auto. done. }
  cbn [head default Z.eqb negb fail_if]. wp_step.
  by apply (wp_tail_check l 3 0).
- pose proof Hc as (Hs & _ & _). change (Pad64 =? Pad64) with true. cbn iota. wp_step.
  destruct (cstr_cons_l _ _ _ _ Hc) as (_ & Hr & Hc1).
  apply (wp_rd _ _ _ _ _ Pad64); [exact Hr|]. cbn [Z.eqb Pos.eqb orb fail_if]. do 3 wp_step. cbn zeta.
  wp_step. eapply wp_conseq; [apply (wp_skip_spaces s [Pad64] (src + 1)); [by rewrite Z.add_simpl_r|lia]|].
  intros [ch sp] b' (-> & v & Hv & Hcv & Hsp & -> & Hns).
  pose proof (cstr_nonzero _ _ _ Hcv) as Hnz. rewrite (strip_cons_nonspace Pad64) in Hv by done.
  destruct v as [|c v]; [done|]. apply Forall_cons in Hnz as [Hc0 _]. cbn in Hns.
  rewrite strip_cons_nonspace in Hv by auto. injection Hv as <- Hv. cbn in Hv.
  destruct (cstr_cons_l _ _ _ _ Hcv) as (_ & _ & Hcv'). replace (sp - 1 + 1) with sp in Hcv' by lia.
  cbn [head default]. wp_step. wp_step; [done|]. wp_step.
  apply (wp_rd _ _ _ _ _ (default 0 (head v))).
  { destruct v as [|d v]; [by apply cstr_nul_head|]. by destruct (cstr_cons_l _ _ _ _ Hcv') as (_ & ? & _). }
  wp_step. wp_step. eapply wp_conseq; [apply (wp_skip_spaces s v (sp + 1)); [by rewrite Z.add_simpl_r|lia]|].
  intros [ch2 sp2] b2 (-> & v2 & Hv2 & Hcv2 & _ & -> & Hns2). wp_step.
  assert (v2 = []) as ->.
  { destruct v2 as [|c v2]; [done|exfalso]. pose proof (cstr_nonzero _ _ _ Hcv2) as Hnz2.
    apply Forall_cons in Hnz2 as [Hc20 _]. cbn in Hns2. rewrite <- Hv, strip_cons_nonspace in Hv2 by auto. done. }
  cbn [head default Z.eqb negb fail_if]. wp_step.
  by apply (wp_tail_check l 2 0).
Qed.
End pton.

(** ** The theorems *)

Lemma encode_length l : zlen (encode l) = (zlen l + 2) / 3 * 4.
Proof.
  induction l as [|x|x y|x y z l IH] using three_ind; [done..|].
  rewrite encode_cons, zlen_app, !zlen_cons, IH. change (zlen (map b64 _)) with 4.
  replace (zlen l + 1 + 1 + 1 + 2) with (zlen l + 2 + 1 * 3) by lia. rewrite Z.div_add by lia. lia.
Qed.

Lemma map_b64_nonzero ds : Forall digit ds -> Forall (fun c => c <> 0) (map b64 ds).
Proof.
  induction 1 as [|d ds Hd _ IH]; constructor; [|done]. by apply b64_position.
Qed.

Lemma encode_nonzero l : bytes l -> Forall (fun c => c <> 0) (encode l).
Proof.
  assert (H0 : is_byte 0) by (unfold is_byte; lia).
  induction l as [|x|x y|x y z l IH] using three_ind; intros Hl; [constructor|..];
    apply Forall_cons in Hl as [Hx Hl].
  - destruct (group_digits x 0 0 Hx H0 H0) as (? & D1 & _). change (0 / 16) with 0 in D1.
    rewrite Z.add_0_r in D1. apply Forall_app. split; [apply map_b64_nonzero; by rewrite ?Forall_cons, ?Forall_nil|].
    by repeat constructor.
  - apply Forall_cons in Hl as [Hy _].
    destruct (group_digits x y 0 Hx Hy H0) as (? & ? & D2 & _). change (0 / 64) with 0 in D2.
    rewrite Z.add_0_r in D2. apply Forall_app. split; [apply map_b64_nonzero; by rewrite ?Forall_cons, ?Forall_nil|].
    by repeat constructor.
  - apply Forall_cons in Hl as [Hy Hl]. apply Forall_cons in Hl as [Hz Hl].
    destruct (group_digits x y z Hx Hy Hz) as (? & ? & ? & ?). rewrite encode_cons.
    apply Forall_app. split; [apply map_b64_nonzero; by rewrite ?Forall_cons, ?Forall_nil|auto].
Qed.

(** The buffer after encoding. *)
Lemma wp_b64_ntop dst src targsize :
  bytes src -> 0 <= targsize <= zlen dst ->
  wp (b64_ntop src (zlen src) targsize) dst
     (fun n b => n = zlen (encode src) /\ n < targsize /\ filled dst targsize (encode src ++ [0]) b)
     (fun e _ => e = 0 /\ targsize <= zlen (encode src)).
Proof.
  intros Hb Hsize. unfold b64_ntop. wp_step.
  pose proof (wp_ntop_loop dst targsize Hsize src [] src [] dst (S (length src)) eq_refl Hb
    (filled_nil dst targsize (proj1 Hsize)) (Nat.lt_succ_diag_r _)) as H.
  apply wp_bind_inv in H. eapply wp_mono; [exact H| |done].
  intros [[sp n] dl] b Hp. wp_step. eapply wp_mono; [exact Hp| |done]. cbn [app].
  intros d b' [-> Hf]. wp_step. wp_step; [split; [done|lia]|].
  wp_step. apply (wp_wr_filled dst targsize ltac:(lia)); [done|lia|]. intros b2 Hf2. wp_step.
  split_and!; [done|lia|done].
Qed.

(** The decoder on an encoding. *)
Lemma wp_b64_pton_encode s l out targsize :
  bytes l -> cstr s 0 (encode l) -> zlen l <= targsize <= zlen out ->
  wp (b64_pton s true targsize) out
     (fun n b => n = zlen l /\ ztake (zlen l) b = l /\ zdrop targsize b = zdrop targsize out)
     (fun _ _ => False).
Proof.
  intros Hl Hc Hsize. pose proof (zlen_nonneg l) as Hz. pose proof (cstr_len _ _ _ Hc) as Hlen.
  assert (Hs : 0 <= targsize <= zlen out) by lia. unfold b64_pton. wp_step.
  eapply wp_mono; [apply (wp_fwd out targsize Hs s l [] out 0)| |done]; [done|done| |change (zlen (@nil Z)) with 0; lia|unfold zlen in *; lia|].
  { split; [by left|]. split; [change (zlen (@nil Z)) with 0; lia|]. left. split; [by left|]. by rewrite splice_nil. }
  intros r b Hr. cbn [app] in Hr. destruct r as [[[ch sp] st] ti].
  eapply wp_mono; [exact (wp_fwd_tail out targsize Hs s l (ch, sp, st, ti) b Hr)| |done].
  intros n b' [-> ->]. destruct Hr as (_ & Hh & _).
  destruct (holds_take out targsize _ _ _ _ Hh). done.
Qed.

(** C35: [b64_ntop] writes exactly the Base64 encoding of the source and its
    terminator, returns the length [4 * ceil(n / 3)], touches nothing behind
    [targsize], and refuses exactly when encoding and terminator do not fit;
    and [b64_pton] of the text it wrote gives the source back, for every
    target that has room for it. *)
Theorem b64_roundtrip src dst targsize out outsize :
  bytes src -> 0 <= targsize <= zlen dst -> zlen src <= outsize <= zlen out ->
  if (zlen src + 2) / 3 * 4 <? targsize then
    exists text out',
      b64_ntop src (zlen src) targsize dst = (Ret ((zlen src + 2) / 3 * 4), text) /\
      ztake ((zlen src + 2) / 3 * 4 + 1) text = encode src ++ [0] /\
      zdrop targsize text = zdrop targsize dst /\
      b64_pton text true outsize out = (Ret (zlen src), out') /\
      ztake (zlen src) out' = src /\ zdrop outsize out' = zdrop outsize out
  else exists b, b64_ntop src (zlen src) targsize dst = (Err 0, b).
Proof.
  intros Hb Hsize Hout. rewrite <- encode_length.
  destruct (proj1 (wp_eq _ _ _ _) (wp_b64_ntop dst src targsize Hb Hsize))
    as [(n & text & Hn & -> & Hlt & _ & Hbehind & _ & Htake)|(e & b & He & -> & Hge)].
  - rewrite (proj2 (Z.ltb_lt _ _)) by done. rewrite zlen_snoc_Z in Htake.
    assert (Hc : cstr text 0 (encode src)).
    { rewrite <- (ztake_zdrop (zlen (encode src) + 1) text), Htake, <- app_assoc.
      by apply cstr_intro, encode_nonzero. }
    destruct (proj1 (wp_eq _ _ _ _) (wp_b64_pton_encode text src out outsize Hb Hc Hout))
      as [(m & out' & Hm & -> & ? & ?)|(? & ? & _ & [])].
    exists text, out'. done.
  - rewrite (proj2 (Z.ltb_ge _ _)) by done. by exists b.
Qed.

Lemma b64_roundtrip_witness :
  exists text out', b64_ntop [109; 99; 112; 101] 4 9 (replicate 10 7) = (Ret 8, text) /\
    ztake 9 text = [98; 87; 78; 119; 90; 81; 61; 61; 0] /\
    b64_pton text true 4 (replicate 6 1) = (Ret 4, out') /\ ztake 4 out' = [109; 99; 112; 101].
Proof.
  assert (Hb : bytes [109; 99; 112; 101]) by (unfold bytes, is_byte; repeat constructor; lia).
  destruct (b64_roundtrip [109; 99; 112; 101] (replicate 10 7) 9 (replicate 6 1) 4 Hb
    ltac:(vm_compute; split; discriminate) ltac:(vm_compute; split; discriminate))
    as (text & out' & ? & ? & _ & ? & ? & _).
  exists text, out'. done.
Defined.

(** [b64_pton] accepts nothing but encodings: on any NUL-terminated text
    it terminates without an access outside the text and the target, and when
    it returns [r], the text without its whitespace is the encoding of the [r]
    bytes the target now starts with (so no two texts that differ in more than
    whitespace decode alike); [r <= targsize], and what lies behind [targsize]
    is untouched. *)
Theorem b64_pton_canonical s t targsize out :
  bytes s -> cstr s 0 t -> 0 <= targsize <= zlen out ->
  wp (b64_pton s true targsize) out
     (fun r b => exists l, r = zlen l /\ r <= targsize /\ ztake r b = l /\
        strip t = encode l /\ zdrop targsize b = zdrop targsize out)
     (fun e _ => e = 0).
Proof.
  intros Hs Hc Hsize. pose proof (cstr_len _ _ _ Hc) as Hlen. unfold b64_pton. wp_step.
  assert (Hh : holds out targsize [] 0 0 out).
  { split; [by left|]. split; [change (zlen (@nil Z)) with 0; lia|]. left. split; [by left|]. by rewrite splice_nil. }
  eapply wp_mono; [apply (wp_pton_chars out targsize Hsize s t 0 [] 0 0 out); [done|done|lia|done|unfold zlen in *; lia]| |].
  2: { intros e b He. exact He. }
  intros r b (ds & Hds & Hend). destruct r as [[[ch sp] st] ti].
  eapply wp_mono; [exact (wp_pton_tail out targsize Hsize s t ds (ch, sp, st, ti) [] 0 0 b Hend ltac:(lia))| |].
  - intros n b' (full & st' & part & Hf & -> & -> & Hh' & Hst1 & Hp & Hstrip).
    destruct (encode_decode [] ds Hds) as (l & st2 & part2 & Hf2 & _ & Henc). cbn [app] in Hf2.
    rewrite Hf in Hf2. injection Hf2 as -> -> ->.
    exists l. pose proof Hh' as (_ & Hle & _). destruct (holds_take out targsize _ _ _ _ Hh').
    split_and!; [done|done|done| |done]. by rewrite Hstrip, Henc.
  - done.
Qed.

(** "bWNwZQ" with a space and a newline inside and its padding. *)
Lemma b64_pton_canonical_witness :
  let s := [98; 87; 32; 78; 119; 90; 10; 81; 61; 61; 0] in
  wp (b64_pton s true 4) (replicate 5 1)
     (fun r b => exists l, r = zlen l /\ r <= 4 /\ ztake r b = l /\
        strip (ztake 10 s) = encode l /\ zdrop 4 b = zdrop 4 (replicate 5 1))
     (fun e _ => e = 0) /\
  fst (b64_pton s true 4 (replicate 5 1)) = Ret 4.
Proof.
  intros s. split; [|reflexivity]. apply b64_pton_canonical.
  - unfold bytes, is_byte. repeat constructor; lia.
  - apply (cstr_intro (ztake 10 s) []). unfold s, ztake. cbn. repeat constructor; discriminate.
  - vm_compute; split; discriminate.
Defined.
