(* ===== verification/Sha1.v ===== *)
(** * SHA-1: [upstream-netbsd/common/lib/libc/hash/sha1/sha1.c]

    The unrolled transformation with its circular message block, the context
    that collects the data, and the padding. [fips_digest] is the reference: the
    hash of a whole message as FIPS 180 defines it. The little-endian branch of
    [blk0] is modelled, every platform of the launcher is little-endian. *)
From S2P Require Import Prelude.

(** ** The macros *)

Definition at_ (l : list Z) (i : Z) : Z := default 0 (znth l i).
#[local] Arguments at_ : simpl never.

Definition rol (value bits : Z) : Z :=
  Z.lor (u32 (Z.shiftl value bits)) (Z.shiftr value (32 - bits)).

(** [blk0] and [blk] store the word in [block->l] and have it as their value. *)
Definition blk0 (i : Z) (l : list Z) : Z * list Z :=
  let v := Z.lor (Z.land (rol (at_ l i) 24) 0xFF00FF00) (Z.land (rol (at_ l i) 8) 0x00FF00FF) in
  (v, zupd l i v).

Definition blk (i : Z) (l : list Z) : Z * list Z :=
  let v := rol (Z.lxor (Z.lxor (Z.lxor (at_ l (Z.land (i + 13) 15)) (at_ l (Z.land (i + 8) 15)))
                               (at_ l (Z.land (i + 2) 15))) (at_ l (Z.land i 15))) 1 in
  (v, zupd l (Z.land i 15) v).

(** The working variables [a] to [e] are the positions 0 to 4 of a list; a macro
    is given the positions of its arguments. *)
Definition work : Type := list Z * list Z.

Definition R (f : Z -> Z -> Z -> Z) (k : Z) (m : Z -> list Z -> Z * list Z)
    (v w x y z i : Z) '((r, l) : work) : work :=
  let '(t, l) := m i l in
  let r := zupd r z (u32 (at_ r z + (f (at_ r w) (at_ r x) (at_ r y) + t + k + rol (at_ r v) 5))) in
  let r := zupd r w (rol (at_ r w) 30) in
  (r, l).

Definition choose (w x y : Z) : Z := Z.lxor (Z.land w (Z.lxor x y)) y.
Definition parity (w x y : Z) : Z := Z.lxor (Z.lxor w x) y.
Definition majority (w x y : Z) : Z := Z.lor (Z.land (Z.lor w x) y) (Z.land w x).

Definition R0 := R choose 0x5A827999 blk0.
Definition R1 := R choose 0x5A827999 blk.
Definition R2 := R parity 0x6ED9EBA1 blk.
Definition R3 := R majority 0x8F1BBCDC blk.
Definition R4 := R parity 0xCA62C1D6 blk.

(** ** [SHA1Transform] *)

(** "4 rounds of 20 operations each. Loop unrolled." *)
Definition operations (a b c d e : Z) : list (work -> work) :=
  [R0 a b c d e 0; R0 e a b c d 1; R0 d e a b c 2; R0 c d e a b 3;
   R0 b c d e a 4; R0 a b c d e 5; R0 e a b c d 6; R0 d e a b c 7;
   R0 c d e a b 8; R0 b c d e a 9; R0 a b c d e 10; R0 e a b c d 11;
   R0 d e a b c 12; R0 c d e a b 13; R0 b c d e a 14; R0 a b c d e 15;
   R1 e a b c d 16; R1 d e a b c 17; R1 c d e a b 18; R1 b c d e a 19;
   R2 a b c d e 20; R2 e a b c d 21; R2 d e a b c 22; R2 c d e a b 23;
   R2 b c d e a 24; R2 a b c d e 25; R2 e a b c d 26; R2 d e a b c 27;
   R2 c d e a b 28; R2 b c d e a 29; R2 a b c d e 30; R2 e a b c d 31;
   R2 d e a b c 32; R2 c d e a b 33; R2 b c d e a 34; R2 a b c d e 35;
   R2 e a b c d 36; R2 d e a b c 37; R2 c d e a b 38; R2 b c d e a 39;
   R3 a b c d e 40; R3 e a b c d 41; R3 d e a b c 42; R3 c d e a b 43;
   R3 b c d e a 44; R3 a b c d e 45; R3 e a b c d 46; R3 d e a b c 47;
   R3 c d e a b 48; R3 b c d e a 49; R3 a b c d e 50; R3 e a b c d 51;
   R3 d e a b c 52; R3 c d e a b 53; R3 b c d e a 54; R3 a b c d e 55;
   R3 e a b c d 56; R3 d e a b c 57; R3 c d e a b 58; R3 b c d e a 59;
   R4 a b c d e 60; R4 e a b c d 61; R4 d e a b c 62; R4 c d e a b 63;
   R4 b c d e a 64; R4 a b c d e 65; R4 e a b c d 66; R4 d e a b c 67;
   R4 c d e a b 68; R4 b c d e a 69; R4 a b c d e 70; R4 e a b c d 71;
   R4 d e a b c 72; R4 c d e a b 73; R4 b c d e a 74; R4 a b c d e 75;
   R4 e a b c d 76; R4 d e a b c 77; R4 c d e a b 78; R4 b c d e a 79].

(** The words of [CHAR64LONG16] after the [memcpy]. *)
Definition word_le (b : list Z) (i : Z) : Z :=
  at_ b (4 * i) + at_ b (4 * i + 1) * 2 ^ 8 + at_ b (4 * i + 2) * 2 ^ 16 + at_ b (4 * i + 3) * 2 ^ 24.

Definition words_le (b : list Z) : list Z := map (word_le b) (seqZ 0 16).

Definition SHA1Transform (state buffer : list Z) : list Z :=
  let '(r, _) := foldl (fun s op => op s) (state, words_le buffer) (operations 0 1 2 3 4) in
  zip_with (fun s v => u32 (s + v)) state r.

(** ** The context *)

Record SHA1_CTX : Type := Ctx { state : list Z; count0 : Z; count1 : Z; buffer : list Z }.

Definition SHA1Init : M SHA1_CTX unit :=
  updS (fun c => Ctx [0x67452301; 0xEFCDAB89; 0x98BADCFE; 0x10325476; 0xC3D2E1F0] 0 0 (buffer c)).

Definition on_buffer {A} (m : M (list Z) A) : M SHA1_CTX A :=
  zoom buffer (fun b c => Ctx (state c) (count0 c) (count1 c) b) m.

Definition transform (block : list Z) : M SHA1_CTX unit :=
  updS (fun c => Ctx (SHA1Transform (state c) block) (count0 c) (count1 c) (buffer c)).

(** [for ( ; i + 63 < len; i += 64) SHA1Transform(context->state, &data[i])] *)
Definition update_step (data : list Z) (len i : Z) : M SHA1_CTX (step Z Z) :=
  if negb (u32 (i + 63) <? len) then mret (Done i) else
  require (i + 64 <=? zlen data);;
  transform (ztake 64 (zdrop i data));;
  mret (Next (u32 (i + 64))).

Definition SHA1Update (data : list Z) (len : Z) : M SHA1_CTX unit :=
  c ← getS;
  let j := count0 c in
  let count0' := u32 (count0 c + u32 (Z.shiftl len 3)) in
  setS (Ctx (state c) count0' (count1 c) (buffer c));;
  (if count0' <? j then
     updS (fun c => Ctx (state c) (count0 c) (u32 (count1 c + Z.shiftr len 29 + 1)) (buffer c))
   else mret tt);;
  let j := Z.land (Z.shiftr j 3) 63 in
  '(i, j) ←
    (if 63 <? u32 (j + len) then
       let i := 64 - j in
       on_buffer (memcpy data j 0 i);;
       c ← getS;
       transform (buffer c);;
       i ← loop (Z.to_nat len + 1) (update_step data len) i;
       mret (i, 0)
     else mret (0, j));
  on_buffer (memcpy data j i (len - i)).

(** ** [SHA1Final] *)

(** The octets of a word, most significant first: the bodies of the two loops
    [(x >> ((3-(i & 3)) * 8)) & 255]. *)
Definition octet (x i : Z) : Z := Z.land (Z.shiftr x ((3 - Z.land i 3) * 8)) 255.

Definition final_step (_ : unit) : M SHA1_CTX (step unit unit) :=
  c ← getS;
  if Z.land (count0 c) 504 =? 448 then mret (Done tt)
  else SHA1Update [0] 1;; mret (Next tt).

Definition SHA1Final : M SHA1_CTX (list Z) :=
  c ← getS;
  let finalcount := map (fun i => octet (if 4 <=? i then count0 c else count1 c) i) (seqZ 0 8) in
  SHA1Update [0x80] 1;;
  loop 65 final_step tt;;
  SHA1Update finalcount 8;;
  c ← getS;
  mret (map (fun i => octet (at_ (state c) (Z.shiftr i 2)) i) (seqZ 0 20)).

(** ** The reference: FIPS 180 *)

Definition f_t (t x y z : Z) : Z :=
  if t <? 20 then Z.lxor (Z.land x y) (Z.land (Z.lnot x) z)
  else if t <? 40 then Z.lxor (Z.lxor x y) z
  else if t <? 60 then Z.lxor (Z.lxor (Z.land x y) (Z.land x z)) (Z.land y z)
  else Z.lxor (Z.lxor x y) z.

Definition K_t (t : Z) : Z :=
  if t <? 20 then 0x5A827999 else if t <? 40 then 0x6ED9EBA1
  else if t <? 60 then 0x8F1BBCDC else 0xCA62C1D6.

Definition word_be (b : list Z) (i : Z) : Z :=
  at_ b (4 * i) * 2 ^ 24 + at_ b (4 * i + 1) * 2 ^ 16 + at_ b (4 * i + 2) * 2 ^ 8 + at_ b (4 * i + 3).

(** The message schedule: sixteen words of the block, then the recurrence. *)
Fixpoint schedule (n : nat) (ws : list Z) : list Z :=
  match n with
  | O => ws
  | S n =>
      let t := zlen ws in
      schedule n (ws ++ [rol (Z.lxor (Z.lxor (Z.lxor (at_ ws (t - 3)) (at_ ws (t - 8)))
                                             (at_ ws (t - 14))) (at_ ws (t - 16))) 1])
  end.

Definition W (block : list Z) : list Z := schedule 64 (map (word_be block) (seqZ 0 16)).

Definition vars : Type := Z * Z * Z * Z * Z.

Definition fips_round (w : list Z) '((a, b, c, d, e) : vars) (t : Z) : vars :=
  (u32 (rol a 5 + f_t t b c d + e + K_t t + at_ w t), a, rol b 30, c, d).

Definition fips_compress (h : list Z) (block : list Z) : list Z :=
  let '(a, b, c, d, e) :=
    foldl (fips_round (W block)) (at_ h 0, at_ h 1, at_ h 2, at_ h 3, at_ h 4) (seqZ 0 80) in
  [u32 (at_ h 0 + a); u32 (at_ h 1 + b); u32 (at_ h 2 + c); u32 (at_ h 3 + d); u32 (at_ h 4 + e)].

Definition fips_init : list Z := [0x67452301; 0xEFCDAB89; 0x98BADCFE; 0x10325476; 0xC3D2E1F0].

(** ** One transformation *)

Lemma choose_eq t x y z : t < 20 -> choose x y z = f_t t x y z.
Proof.
  intros H. unfold choose, f_t. rewrite (proj2 (Z.ltb_lt _ _)) by done.
  apply Z.bits_inj'. intros i Hi. rewrite !Z.lxor_spec, !Z.land_spec, Z.lnot_spec, Z.lxor_spec by done.
  by destruct (Z.testbit x i), (Z.testbit y i), (Z.testbit z i).
Qed.

Lemma majority_eq x y z : majority x y z = Z.lxor (Z.lxor (Z.land x y) (Z.land x z)) (Z.land y z).
Proof.
  unfold majority. apply Z.bits_inj'. intros i Hi.
  rewrite !Z.lxor_spec, !Z.lor_spec, !Z.land_spec, Z.lor_spec.
  by destruct (Z.testbit x i), (Z.testbit y i), (Z.testbit z i).
Qed.

(** The operation of round [t], with the positions written as a formula. *)
Definition operation (t : Z) : work -> work :=
  (if t <? 16 then R0 else if t <? 20 then R1 else if t <? 40 then R2 else if t <? 60 then R3 else R4)
    ((0 - t) mod 5) ((1 - t) mod 5) ((2 - t) mod 5) ((3 - t) mod 5) ((4 - t) mod 5) t.

Lemma operations_eq : operations 0 1 2 3 4 = map operation (seqZ 0 80).
Proof. reflexivity. Qed.

(** Where the working variables are before round [t]. *)
Definition place (t : Z) '((a, b, c, d, e) : vars) : list Z :=
  match t mod 5 with
  | 0 => [a; b; c; d; e]
  | 1 => [b; c; d; e; a]
  | 2 => [c; d; e; a; b]
  | 3 => [d; e; a; b; c]
  | _ => [e; a; b; c; d]
  end.

Lemma round_place f k m t v l x l' :
  m t l = (x, l') -> 0 <= t ->
  (forall p q r, f p q r = f_t t p q r) -> k = K_t t ->
  R f k m ((0 - t) mod 5) ((1 - t) mod 5) ((2 - t) mod 5) ((3 - t) mod 5) ((4 - t) mod 5) t (place t v, l) =
  (place (t + 1) (let '(a, b, c, d, e) := v in
                  (u32 (rol a 5 + f_t t b c d + e + K_t t + x), a, rol b 30, c, d)), l').
Proof.
  intros Hm Ht Hf ->. destruct v as [[[[a b] c] d] e]. unfold R. rewrite Hm.
  assert (Hsum : forall u, u32 (e + (f b c d + x + K_t t + u)) = u32 (u + f_t t b c d + e + K_t t + x)).
  { intros u. rewrite Hf. f_equal. lia. }
  assert (t mod 5 = 0 \/ t mod 5 = 1 \/ t mod 5 = 2 \/ t mod 5 = 3 \/ t mod 5 = 4) as Hq by (Z.div_mod_to_equations; lia).
  rewrite <- !(Zminus_mod_idemp_r _ t). unfold place. rewrite <- (Zplus_mod_idemp_l t 1).
  destruct Hq as [Hq|[Hq|[Hq|[Hq|Hq]]]]; rewrite Hq;
    cbv -[u32 rol f_t K_t Z.add]; by rewrite Hsum.
Qed.

Lemma schedule_spec n ws :
  16 <= zlen ws ->
  zlen (schedule n ws) = zlen ws + Z.of_nat n /\
  (forall t, 0 <= t < zlen ws -> at_ (schedule n ws) t = at_ ws t) /\
  (forall t, zlen ws <= t < zlen ws + Z.of_nat n ->
     at_ (schedule n ws) t =
       rol (Z.lxor (Z.lxor (Z.lxor (at_ (schedule n ws) (t - 3)) (at_ (schedule n ws) (t - 8)))
                           (at_ (schedule n ws) (t - 14))) (at_ (schedule n ws) (t - 16))) 1).
Proof.
  revert ws. induction n as [|n IH]; intros ws Hl; [split_and!; [cbn; lia|done|intros; lia]|].
  cbn [schedule]. cbv zeta. set (x := rol _ 1).
  assert (Hx : zlen (ws ++ [x]) = zlen ws + 1) by (rewrite zlen_app; done).
  destruct (IH (ws ++ [x])) as (H1 & H2 & H3); [lia|]. rewrite Hx in H1, H2, H3.
  assert (Hold : forall t, 0 <= t < zlen ws -> at_ (schedule n (ws ++ [x])) t = at_ ws t).
  { intros t Ht. rewrite H2 by lia. unfold at_. by rewrite znth_app_l by lia. }
  split_and!; [lia|done|]. intros t Ht. destruct (decide (t = zlen ws)) as [->|]; [|apply H3; lia].
  rewrite (H2 (zlen ws)), (Hold (zlen ws - 3)), (Hold (zlen ws - 8)), (Hold (zlen ws - 14)),
    (Hold (zlen ws - 16)) by lia.
  unfold at_ at 1. by rewrite znth_middle.
Qed.

(** The state of the circular block before round [t]. *)
Definition block_inv (b : list Z) (t : Z) (l : list Z) : Prop :=
  zlen l = 16 /\
  (forall s, 0 <= s -> t - 16 <= s < t -> at_ l (s mod 16) = at_ (W b) s) /\
  (forall j, t <= j < 16 -> at_ l j = word_le b j).

Lemma at_upd_eq l i v : 0 <= i < zlen l -> at_ (zupd l i v) i = v.
Proof. intros. unfold at_. by rewrite znth_zupd_eq. Qed.

Lemma at_upd_ne l i j v : i <> j -> at_ (zupd l i v) j = at_ l j.
Proof. intros. unfold at_. by rewrite znth_zupd_ne. Qed.

Lemma at_map_seq (f : Z -> Z) n i : 0 <= i < n -> at_ (map f (seqZ 0 n)) i = f i.
Proof.
  intros Hi. unfold at_, znth. rewrite (proj2 (Z.ltb_ge i 0)) by lia.
  rewrite list_lookup_fmap, lookup_seqZ_lt by lia. cbn. f_equal. lia.
Qed.

Lemma W_spec b :
  (forall t, 0 <= t < 16 -> at_ (W b) t = word_be b t) /\
  (forall t, 16 <= t < 80 ->
     at_ (W b) t = rol (Z.lxor (Z.lxor (Z.lxor (at_ (W b) (t - 3)) (at_ (W b) (t - 8)))
                               (at_ (W b) (t - 14))) (at_ (W b) (t - 16))) 1).
Proof.
  destruct (schedule_spec 64 (map (word_be b) (seqZ 0 16))) as (_ & H2 & H3); [done|].
  change (zlen (map (word_be b) (seqZ 0 16))) with 16 in *. split.
  - intros t Ht. unfold W. rewrite H2 by done. by apply at_map_seq.
  - intros t Ht. by apply H3.
Qed.

(** The byte swap of a little-endian word is the big-endian word. *)
Lemma testbit_digit h l k i :
  0 <= k -> 0 <= i -> 0 <= l < 2 ^ k ->
  Z.testbit (h * 2 ^ k + l) i = if i <? k then Z.testbit l i else Z.testbit h (i - k).
Proof.
  intros Hk Hi Hl. rewrite <- lor_add, <- Z.shiftl_mul_pow2, Z.lor_spec by done.
  destruct (Z.ltb_spec i k) as [Hlt|Hge].
  - by rewrite Z.shiftl_spec_low.
  - rewrite Z.shiftl_spec by lia. rewrite <- (Z.mod_small l (2 ^ k)), Z.mod_pow2_bits_high by done.
    apply orb_false_r.
Qed.

Lemma bits_small x k : 0 <= k -> 0 <= x -> (forall i, k <= i -> Z.testbit x i = false) -> 0 <= x < 2 ^ k.
Proof.
  intros Hk Hx Hb. split; [done|]. enough (x = x mod 2 ^ k) as -> by (apply Z.mod_pos_bound; lia).
  apply Z.bits_inj'. intros i Hi. destruct (Z.lt_ge_cases i k).
  - by rewrite Z.mod_pow2_bits_low.
  - rewrite Z.mod_pow2_bits_high by done. by apply Hb.
Qed.

Lemma small_bits x k i : 0 <= k <= i -> 0 <= x < 2 ^ k -> Z.testbit x i = false.
Proof. intros Hk Hx. rewrite <- (Z.mod_small x (2 ^ k)) by done. by apply Z.mod_pow2_bits_high. Qed.

(** Bitwise operations act on digits. *)
Lemma digit_land h l mh ml k :
  0 <= k -> 0 <= l < 2 ^ k -> 0 <= ml < 2 ^ k ->
  Z.land (h * 2 ^ k + l) (mh * 2 ^ k + ml) = Z.land h mh * 2 ^ k + Z.land l ml.
Proof.
  intros Hk Hl Hml. apply Z.bits_inj'. intros i Hi. rewrite Z.land_spec, !testbit_digit, !Z.land_spec; try done.
  - by destruct (i <? k).
  - apply bits_small; [done|apply Z.land_nonneg; lia|]. intros j Hj. by rewrite Z.land_spec, (small_bits l k).
Qed.

Lemma digit_lor h l mh ml k :
  0 <= k -> 0 <= l < 2 ^ k -> 0 <= ml < 2 ^ k ->
  Z.lor (h * 2 ^ k + l) (mh * 2 ^ k + ml) = Z.lor h mh * 2 ^ k + Z.lor l ml.
Proof.
  intros Hk Hl Hml. apply Z.bits_inj'. intros i Hi. rewrite Z.lor_spec, !testbit_digit, !Z.lor_spec; try done.
  - by destruct (i <? k).
  - apply bits_small; [done|apply Z.lor_nonneg; lia|].
    intros j Hj. by rewrite Z.lor_spec, (small_bits l k), (small_bits ml k).
Qed.

Lemma land_255 x : is_byte x -> Z.land x 255 = x.
Proof. intros [? ?]. change 255 with (Z.ones 8). rewrite Z.land_ones by done. by apply Z.mod_small. Qed.

Lemma swap_word a b c d :
  is_byte a -> is_byte b -> is_byte c -> is_byte d ->
  let x := a + b * 2 ^ 8 + c * 2 ^ 16 + d * 2 ^ 24 in
  Z.lor (Z.land (rol x 24) 0xFF00FF00) (Z.land (rol x 8) 0x00FF00FF) =
  a * 2 ^ 24 + b * 2 ^ 16 + c * 2 ^ 8 + d.
Proof.
  intros Ha Hb Hc Hd x. unfold is_byte in *.
  assert (H24 : rol x 24 = ((a * 2 ^ 8 + d) * 2 ^ 8 + c) * 2 ^ 8 + b).
  { unfold rol, u32, x. rewrite Z.shiftl_mul_pow2, Z.shiftr_div_pow2 by done. change (32 - 24) with 8.
    replace ((a + b * 2 ^ 8 + c * 2 ^ 16 + d * 2 ^ 24) / 2 ^ 8) with (b + c * 2 ^ 8 + d * 2 ^ 16)
      by (Z.div_mod_to_equations; lia).
    replace (((a + b * 2 ^ 8 + c * 2 ^ 16 + d * 2 ^ 24) * 2 ^ 24) mod 2 ^ 32) with (a * 2 ^ 24)
      by (Z.div_mod_to_equations; lia).
    rewrite lor_add by lia. lia. }
  assert (H8 : rol x 8 = ((c * 2 ^ 8 + b) * 2 ^ 8 + a) * 2 ^ 8 + d).
  { unfold rol, u32, x. rewrite Z.shiftl_mul_pow2, Z.shiftr_div_pow2 by done. change (32 - 8) with 24.
    replace ((a + b * 2 ^ 8 + c * 2 ^ 16 + d * 2 ^ 24) / 2 ^ 24) with d by (Z.div_mod_to_equations; lia).
    replace (((a + b * 2 ^ 8 + c * 2 ^ 16 + d * 2 ^ 24) * 2 ^ 8) mod 2 ^ 32) with ((a + b * 2 ^ 8 + c * 2 ^ 16) * 2 ^ 8)
      by (Z.div_mod_to_equations; lia).
    rewrite lor_add by lia. lia. }
  rewrite H24, H8.
  change 0xFF00FF00 with (((255 * 2 ^ 8 + 0) * 2 ^ 8 + 255) * 2 ^ 8 + 0).
  change 0x00FF00FF with (((0 * 2 ^ 8 + 255) * 2 ^ 8 + 0) * 2 ^ 8 + 255).
  rewrite !digit_land, !land_255, !Z.land_0_r by (unfold is_byte; lia).
  rewrite !digit_lor, !Z.lor_0_r, !Z.lor_0_l by lia. lia.
Qed.

Lemma at_byte b i : bytes b -> is_byte (at_ b i).
Proof.
  intros Hb. unfold at_. destruct (znth b i) eqn:E; cbn; [by eapply bytes_znth|unfold is_byte; lia].
Qed.

(** One operation does one round on the circular block. *)
Lemma operation_round b t v l :
  bytes b -> 0 <= t < 80 -> block_inv b t l ->
  exists l', operation t (place t v, l) = (place (t + 1) (fips_round (W b) v t), l') /\ block_inv b (t + 1) l'.
Proof.
  intros Hb Ht (Hl & Hold & Hraw). destruct (W_spec b) as [W0 W1].
  assert (Hmod : forall k, 0 <= k < 16 -> at_ (zupd l k (at_ (W b) t)) k = at_ (W b) t)
    by (intros; apply at_upd_eq; lia).
  assert (Hnext : block_inv b (t + 1) (zupd l (t mod 16) (at_ (W b) t))).
  { split_and!; [by rewrite zlen_zupd| |].
    - intros s Hs0 Hs. destruct (decide (s = t)) as [->|]; [apply Hmod; by apply Z.mod_pos_bound|].
      rewrite at_upd_ne; [apply Hold; lia|]. Z.div_mod_to_equations. lia.
    - intros j Hj. rewrite at_upd_ne; [apply Hraw; lia|]. rewrite Z.mod_small; lia. }
  exists (zupd l (t mod 16) (at_ (W b) t)). split; [|done].
  assert (Hm : (if t <? 16 then blk0 t l else blk t l) = (at_ (W b) t, zupd l (t mod 16) (at_ (W b) t))).
  { destruct (Z.ltb_spec t 16).
    - unfold blk0. rewrite Hraw by lia. unfold word_le. cbv zeta.
      rewrite (swap_word (at_ b (4 * t)) (at_ b (4 * t + 1)) (at_ b (4 * t + 2)) (at_ b (4 * t + 3)))
        by (by apply at_byte).
      rewrite Z.mod_small, W0 by lia. done.
    - unfold blk. change 15 with (Z.ones 4). rewrite !Z.land_ones by done. change (2 ^ 4) with 16.
      replace ((t + 13) mod 16) with ((t - 3) mod 16) by (Z.div_mod_to_equations; lia).
      replace ((t + 8) mod 16) with ((t - 8) mod 16) by (Z.div_mod_to_equations; lia).
      replace ((t + 2) mod 16) with ((t - 14) mod 16) by (Z.div_mod_to_equations; lia).
      replace (at_ l (t mod 16)) with (at_ l ((t - 16) mod 16)) by (f_equal; Z.div_mod_to_equations; lia).
      rewrite !Hold by lia. rewrite <- W1 by lia. done. }
  unfold operation, fips_round, R0, R1, R2, R3, R4. destruct v as [[[[a c] d] e] f].
  destruct (Z.ltb_spec t 16); [|destruct (Z.ltb_spec t 20); [|destruct (Z.ltb_spec t 40); [|destruct (Z.ltb_spec t 60)]]];
    (refine (round_place _ _ _ t (a, c, d, e, f) l _ _ Hm _ _ _); [lia| |]); unfold f_t, K_t, parity; intros; repeat case_match; try lia; try done.
  - rewrite (choose_eq t) by lia. unfold f_t. by rewrite (proj2 (Z.ltb_lt t 20)) by lia.
  - rewrite (choose_eq t) by lia. unfold f_t. by rewrite (proj2 (Z.ltb_lt t 20)) by lia.
  - apply majority_eq.
Qed.

Lemma operations_rounds b v n :
  bytes b -> (n <= 80)%nat ->
  exists l, foldl (fun s op => op s) (place 0 v, words_le b) (map operation (seqZ 0 (Z.of_nat n))) =
            (place (Z.of_nat n) (foldl (fips_round (W b)) v (seqZ 0 (Z.of_nat n))), l) /\
            block_inv b (Z.of_nat n) l.
Proof.
  intros Hb. induction n as [|n IH]; intros Hn.
  - exists (words_le b). split; [done|]. split_and!; [done|lia|]. intros j Hj. by apply at_map_seq.
  - destruct IH as (l & Hf & Hi); [lia|].
    replace (Z.of_nat (S n)) with (Z.of_nat n + 1) by lia.
    rewrite seqZ_app by lia. rewrite Z.add_0_l. change (seqZ (Z.of_nat n) 1) with [Z.of_nat n].
    rewrite map_app, !foldl_app, Hf. cbn [map foldl].
    destruct (operation_round b (Z.of_nat n) (foldl (fips_round (W b)) v (seqZ 0 (Z.of_nat n))) l) as (l' & Ho & Hi');
      [done|lia|done|]. exists l'. by rewrite Ho.
Qed.

Lemma transform_compress h b :
  zlen h = 5 -> bytes b -> SHA1Transform h b = fips_compress h b.
Proof.
  intros Hh Hb. destruct h as [|h0 [|h1 [|h2 [|h3 [|h4 [|]]]]]]; try (unfold zlen in Hh; cbn in Hh; lia).
  unfold SHA1Transform, fips_compress. rewrite operations_eq.
  change [h0; h1; h2; h3; h4] with (place 0 (h0, h1, h2, h3, h4)) at 1.
  destruct (operations_rounds b (h0, h1, h2, h3, h4) 80 Hb) as (l & Hf & _); [done|].
  change (Z.of_nat 80) with 80 in Hf. rewrite Hf.
  change (at_ [h0; h1; h2; h3; h4] 0, at_ [h0; h1; h2; h3; h4] 1, at_ [h0; h1; h2; h3; h4] 2,
          at_ [h0; h1; h2; h3; h4] 3, at_ [h0; h1; h2; h3; h4] 4) with (h0, h1, h2, h3, h4).
  by destruct (foldl (fips_round (W b)) (h0, h1, h2, h3, h4) (seqZ 0 80)) as [[[[a c] d] e] f].
Qed.

(** ** The digest of a message *)

(** The hash value after the first [n] blocks of [m]. *)
Fixpoint absorb (n : nat) (h m : list Z) : list Z :=
  match n with
  | O => h
  | S n => absorb n (fips_compress h (ztake 64 m)) (zdrop 64 m)
  end.

Definition be64 (x : Z) : list Z := map (fun i => x / 2 ^ (8 * (7 - i)) mod 256) (seqZ 0 8).

Definition zeros (m : list Z) : Z := (55 - zlen m) mod 64.

Definition pad (m : list Z) : list Z :=
  m ++ 0x80 :: replicate (Z.to_nat (zeros m)) 0 ++ be64 (8 * zlen m).

Definition fips_digest (m : list Z) : list Z :=
  let h := absorb (Z.to_nat (zlen (pad m) / 64)) fips_init (pad m) in
  map (fun i => at_ h (i / 4) / 2 ^ (8 * (3 - i mod 4)) mod 256) (seqZ 0 20).

Lemma compress_len h b : zlen (fips_compress h b) = 5.
Proof. unfold fips_compress. by destruct (foldl _ _ _) as [[[[? ?] ?] ?] ?]. Qed.

Lemma absorb_len n h m : zlen h = 5 -> zlen (absorb n h m) = 5.
Proof. revert h m. induction n as [|n IH]; intros h m Hh; [done|]. cbn. apply IH, compress_len. Qed.

Lemma absorb_app n h m x : 64 * Z.of_nat n <= zlen m -> absorb n h (m ++ x) = absorb n h m.
Proof.
  revert h m. induction n as [|n IH]; intros h m Hm; [done|]. cbn.
  rewrite ztake_app_le, zdrop_app_le by lia. apply IH. rewrite zlen_zdrop; lia.
Qed.

Lemma absorb_S n h m :
  absorb (S n) h m = fips_compress (absorb n h m) (ztake 64 (zdrop (64 * Z.of_nat n) m)).
Proof.
  revert h m. induction n as [|n IH]; intros h m; [by cbn|].
  change (absorb (S (S n)) h m) with (absorb (S n) (fips_compress h (ztake 64 m)) (zdrop 64 m)).
  rewrite IH, zdrop_zdrop by lia. cbn [absorb]. by replace (64 + 64 * Z.of_nat n) with (64 * Z.of_nat (S n)) by lia.
Qed.

#[local] Opaque SHA1Transform fips_compress.

(** ** The context after [m] *)

Definition blocks (m : list Z) : nat := Z.to_nat (zlen m / 64).

Record ctx_ok (m : list Z) (c : SHA1_CTX) : Prop := CtxOk {
  ok_bytes : bytes m;
  ok_state : state c = absorb (blocks m) fips_init m;
  ok_count0 : count0 c = (8 * zlen m) mod 2 ^ 32;
  ok_count1 : count1 c = (8 * zlen m) / 2 ^ 32 mod 2 ^ 32;
  ok_size : zlen (buffer c) = 64;
  ok_buffer : ztake (zlen m mod 64) (buffer c) = zdrop (64 * (zlen m / 64)) m }.

Lemma ctx_state_len m c : ctx_ok m c -> zlen (state c) = 5.
Proof. intros [_ -> _ _ _ _]. by apply absorb_len. Qed.

Section update.
Context (m data : list Z) (Hm : bytes m) (Hdata : bytes data).
Let total := m ++ data.

(** After whole blocks: the state and where the data continues. *)
Definition at_block (i : Z) (c : SHA1_CTX) : Prop :=
  0 <= i <= zlen data /\ (zlen m + i) mod 64 = 0 /\
  state c = absorb (Z.to_nat ((zlen m + i) / 64)) fips_init total.

Lemma total_bytes : bytes total.
Proof. by apply Forall_app. Qed.

Lemma transform_next i st blk' :
  0 <= zlen m + i -> (zlen m + i) mod 64 = 0 -> zlen st = 5 ->
  st = absorb (Z.to_nat ((zlen m + i) / 64)) fips_init total ->
  blk' = ztake 64 (zdrop (zlen m + i) total) ->
  SHA1Transform st blk' = absorb (Z.to_nat ((zlen m + (i + 64)) / 64)) fips_init total.
Proof.
  intros Hi Hd Hl Hs ->. pose proof (zlen_nonneg m).
  rewrite transform_compress; [|done|by apply Forall_take, Forall_drop, total_bytes].
  replace (Z.to_nat ((zlen m + (i + 64)) / 64)) with (S (Z.to_nat ((zlen m + i) / 64)))
    by (Z.div_mod_to_equations; lia).
  rewrite absorb_S, <- Hs. do 3 f_equal. Z.div_mod_to_equations. lia.
Qed.

Lemma update_loop i c fuel :
  at_block i c -> zlen data < 2 ^ 31 -> zlen (state c) = 5 -> zlen data < Z.of_nat fuel ->
  wp (loop fuel (update_step data (zlen data)) i) c
     (fun i' c' => at_block i' c' /\ zlen data < i' + 64 /\ count0 c' = count0 c /\ count1 c' = count1 c /\
                   buffer c' = buffer c) (fun _ _ => False).
Proof.
  intros Hi Hlen Hl Hf. pose proof (proj1 Hi). pose proof (zlen_nonneg m) as Hm0.
  apply (wp_loop (fun i c' => at_block i c' /\ zlen (state c') = 5 /\ count0 c' = count0 c /\ count1 c' = count1 c /\
                   buffer c' = buffer c) (fun i _ => Z.to_nat (zlen data - i))); [done|lia|].
  clear i Hi Hl H. intros i c' ((Hi & Hmod & Hs) & Hl & H0 & H1 & H2). unfold update_step.
  assert (Hu : u32 (i + 63) = i + 63) by (apply Z.mod_small; lia).
  rewrite Hu. destruct (Z.ltb_spec (i + 63) (zlen data)); cbn [negb].
  2: { wp_step. split; [exact (conj Hi (conj Hmod Hs))|split; [lia|exact (conj H0 (conj H1 H2))]]. }
  wp_step. wp_step; [lia|]. wp_step. unfold transform. wp_step. wp_step. cbn [state count0 count1 buffer].
  assert (u32 (i + 64) = i + 64) as -> by (apply Z.mod_small; lia).
  assert (Ht : SHA1Transform (state c') (ztake 64 (zdrop i data)) =
               absorb (Z.to_nat ((zlen m + (i + 64)) / 64)) fips_init total).
  { apply transform_next; [lia|exact Hmod|exact Hl|exact Hs|]. unfold total. rewrite zdrop_app_ge by lia. do 2 f_equal. lia. }
  rewrite Ht. split; [|lia]. split; [|split; [by apply absorb_len|exact (conj H0 (conj H1 H2))]].
  split; [lia|]. split; [|reflexivity]. Z.div_mod_to_equations. lia.
Qed.
End update.

Lemma count_bits n : 0 <= n -> Z.land (Z.shiftr ((8 * n) mod 2 ^ 32) 3) 63 = n mod 64.
Proof.
  intros Hn. change 63 with (Z.ones 6). rewrite Z.land_ones, Z.shiftr_div_pow2 by done.
  change (2 ^ 3) with 8. change (2 ^ 6) with 64. Z.div_mod_to_equations. lia.
Qed.

(** The addition to the two words of the bit count. *)
Lemma count_add n len c0 c1 :
  0 <= n -> 0 <= len < 2 ^ 29 -> c0 = (8 * n) mod 2 ^ 32 -> c1 = (8 * n) / 2 ^ 32 mod 2 ^ 32 ->
  u32 (c0 + u32 (Z.shiftl len 3)) = (8 * (n + len)) mod 2 ^ 32 /\
  (if u32 (c0 + u32 (Z.shiftl len 3)) <? c0 then u32 (c1 + Z.shiftr len 29 + 1) else c1) =
  (8 * (n + len)) / 2 ^ 32 mod 2 ^ 32.
Proof.
  intros Hn Hlen -> ->. rewrite Z.shiftl_mul_pow2, Z.shiftr_div_pow2 by done.
  rewrite (Z.div_small len) by lia. unfold u32. rewrite (Z.mod_small (len * 2 ^ 3)) by lia.
  set (x := 8 * n) in *. replace (8 * (n + len)) with (x + len * 2 ^ 3) by lia.
  assert (0 <= x) by lia. clearbody x. split.
  - by rewrite Zplus_mod_idemp_l.
  - rewrite Zplus_mod_idemp_l. set (q := x / 2 ^ 32).
    assert (Hx : x = 2 ^ 32 * q + x mod 2 ^ 32) by (apply Z.div_mod; lia).
    pose proof (Z.mod_pos_bound x (2 ^ 32) eq_refl). set (r := x mod 2 ^ 32) in *.
    assert (Hd : (x + len * 2 ^ 3) / 2 ^ 32 = q + (r + len * 2 ^ 3) / 2 ^ 32).
    { rewrite Hx. replace (2 ^ 32 * q + r + len * 2 ^ 3) with (r + len * 2 ^ 3 + q * 2 ^ 32) by lia.
      rewrite Z.div_add by lia. lia. }
    assert (Hm : (x + len * 2 ^ 3) mod 2 ^ 32 = (r + len * 2 ^ 3) mod 2 ^ 32).
    { rewrite Hx. replace (2 ^ 32 * q + r + len * 2 ^ 3) with (r + len * 2 ^ 3 + q * 2 ^ 32) by lia.
      by rewrite Z.mod_add by lia. }
    rewrite Hd, Hm. clearbody q r. destruct (Z.ltb_spec ((r + len * 2 ^ 3) mod 2 ^ 32) r) as [Hc|Hc].
    + replace ((r + len * 2 ^ 3) / 2 ^ 32) with 1 by (Z.div_mod_to_equations; lia).
      rewrite Z.add_0_r. by rewrite Zplus_mod_idemp_l.
    + replace ((r + len * 2 ^ 3) / 2 ^ 32) with 0 by (Z.div_mod_to_equations; lia). by rewrite Z.add_0_r.
Qed.

(** The data joins what the buffer holds of the message. *)
Section join.
Context (m data st buf : list Z) (Hm : bytes m) (Hdata : bytes data) (Hst : zlen st = 5).
Context (Hs : st = absorb (blocks m) fips_init m) (Hsize : zlen buf = 64).
Context (Hbuf : ztake (zlen m mod 64) buf = zdrop (64 * (zlen m / 64)) m).
Let j := zlen m mod 64.
Let bits := 8 * (zlen m + zlen data).

Lemma tail_len : 0 <= j < 64 /\ zlen (zdrop (64 * (zlen m / 64)) m) = j /\ 64 * (zlen m / 64) = zlen m - j /\ j <= zlen m.
Proof.
  pose proof (zlen_nonneg m). pose proof (Z.mod_pos_bound (zlen m) 64 eq_refl). unfold j.
  rewrite zlen_zdrop by (Z.div_mod_to_equations; lia). Z.div_mod_to_equations. lia.
Qed.

Lemma join_bytes : bytes (m ++ data).
Proof. by apply Forall_app. Qed.

Definition filled_block : list Z := splice buf j (ztake (64 - j) data).

Lemma filled_block_len : 63 < j + zlen data -> zlen filled_block = 64.
Proof. destruct tail_len. intros. unfold filled_block. rewrite zlen_splice; rewrite ?zlen_ztake; lia. Qed.

Lemma filled_block_eq :
  63 < j + zlen data -> filled_block = ztake 64 (zdrop (zlen m - j) (m ++ data)).
Proof.
  intros Hlt. destruct tail_len as (Hj & Ht & He & Hle). rewrite <- He.
  rewrite zdrop_app_le, ztake_app_ge, Ht by lia. unfold filled_block.
  rewrite <- Hbuf. fold j.
  rewrite <- (ztake_splice buf j (ztake (64 - j) data) 64) by (rewrite ?zlen_ztake; lia).
  symmetry. apply ztake_ge. rewrite zlen_splice; rewrite ?zlen_ztake; lia.
Qed.

Lemma filled_transform :
  63 < j + zlen data ->
  SHA1Transform st filled_block = absorb (Z.to_nat ((zlen m + (64 - j)) / 64)) fips_init (m ++ data).
Proof.
  intros Hlt. destruct tail_len as (Hj & Ht & He & Hle). replace (64 - j) with (- j + 64) by lia.
  pose proof (zlen_nonneg m). apply (transform_next m data Hm Hdata (- j)); [lia| |done| |].
  - unfold j. Z.div_mod_to_equations. lia.
  - replace ((zlen m + - j) / 64) with (zlen m / 64) by (Z.div_mod_to_equations; lia).
    rewrite absorb_app by lia. exact Hs.
  - rewrite filled_block_eq by done. do 2 f_equal.
Qed.

(** What is left of the data fits into the buffer. *)
Lemma join_fits :
  j + zlen data < 64 ->
  ctx_ok (m ++ data) (Ctx st (bits mod 2 ^ 32) (bits / 2 ^ 32 mod 2 ^ 32) (splice buf j data)).
Proof.
  intros Hlt. destruct tail_len as (Hj & Ht & He & Hle). pose proof (zlen_nonneg data).
  assert (Hq : zlen (m ++ data) / 64 = zlen m / 64) by (rewrite zlen_app; Z.div_mod_to_equations; lia).
  constructor; cbn [state count0 count1 buffer]; rewrite ?Hq, ?zlen_app; try done.
  - by apply join_bytes.
  - unfold blocks. rewrite Hq, absorb_app by lia. exact Hs.
  - rewrite zlen_splice; lia.
  - replace ((zlen m + zlen data) mod 64) with (j + zlen data) by (unfold j in *; Z.div_mod_to_equations; lia).
    rewrite (ztake_splice buf j data), zdrop_app_le by lia. by f_equal.
Qed.

Lemma join_rest i :
  0 <= i <= zlen data -> (zlen m + i) mod 64 = 0 -> zlen data < i + 64 ->
  ctx_ok (m ++ data) (Ctx (absorb (Z.to_nat ((zlen m + i) / 64)) fips_init (m ++ data))
    (bits mod 2 ^ 32) (bits / 2 ^ 32 mod 2 ^ 32) (splice buf 0 (ztake (zlen data - i) (zdrop i data)))).
Proof.
  intros Hi Hmod Hrest. pose proof (zlen_nonneg m).
  assert (Hlast : zlen (ztake (zlen data - i) (zdrop i data)) = zlen data - i)
    by (rewrite zlen_ztake; rewrite ?zlen_zdrop; lia).
  assert (Hq : zlen (m ++ data) / 64 = (zlen m + i) / 64) by (rewrite zlen_app; Z.div_mod_to_equations; lia).
  constructor; cbn [state count0 count1 buffer]; rewrite ?Hq, ?zlen_app; try done.
  - by apply join_bytes.
  - unfold blocks. by rewrite Hq.
  - rewrite zlen_splice; lia.
  - replace ((zlen m + zlen data) mod 64) with (zlen data - i) by (Z.div_mod_to_equations; lia).
    rewrite (ztake_splice buf 0 _ (zlen data - i)) by lia. change (ztake 0 buf) with (@nil Z). cbn [app].
    rewrite ztake_ge by (rewrite zlen_zdrop; lia).
    rewrite zdrop_app_ge by (Z.div_mod_to_equations; lia). f_equal. Z.div_mod_to_equations. lia.
Qed.
End join.

(** [SHA1Update] appends its data to the message. *)
Lemma wp_SHA1Update m data c :
  ctx_ok m c -> bytes data -> zlen data < 2 ^ 29 ->
  wp (SHA1Update data (zlen data)) c (fun _ c' => ctx_ok (m ++ data) c') (fun _ _ => False).
Proof.
  intros Hok Hdata Hlen. pose proof (ctx_state_len _ _ Hok) as Hl5.
  destruct Hok as [Hm Hs H0 H1 Hsize Hbuf]. destruct c as [st c0 c1 buf]. cbn in *.
  pose proof (zlen_nonneg m). pose proof (zlen_nonneg data).
  destruct (count_add (zlen m) (zlen data) c0 c1) as [Hc0 Hc1]; [lia|lia|done|done|].
  assert (Hj : Z.land (Z.shiftr c0 3) 63 = zlen m mod 64) by (rewrite H0; by apply count_bits).
  destruct (tail_len m data) as (Hjr & _).
  unfold SHA1Update. wp_step. wp_step. wp_step. wp_step. cbn [state count0 count1 buffer]. wp_step.
  rewrite Hj. rewrite Hc0 in Hc1 |- *.
  apply (wp_conseq _ _ (fun _ c' => c' = Ctx st ((8 * (zlen m + zlen data)) mod 2 ^ 32)
                                        ((8 * (zlen m + zlen data)) / 2 ^ 32 mod 2 ^ 32) buf)).
  { rewrite <- Hc1. by destruct (_ <? c0). }
  intros _ ? ->. clear c0 c1 Hc0 Hc1 H0 H1 Hj. wp_step.
  assert (u32 (zlen m mod 64 + zlen data) = zlen m mod 64 + zlen data) as -> by (apply Z.mod_small; lia).
  destruct (Z.ltb_spec 63 (zlen m mod 64 + zlen data)) as [Hlt|Hge].
  - wp_step. apply wp_zoom. apply wp_memcpy; [lia|lia|lia|lia|cbn; lia|]. cbn [buffer state count0 count1].
    wp_step. wp_step. wp_step. unfold transform. wp_step. cbn [buffer state count0 count1].
    rewrite zdrop_0. fold (filled_block m data buf).
    rewrite (filled_transform m data st buf) by done. wp_step.
    eapply wp_conseq; [apply (update_loop m data Hm Hdata (64 - zlen m mod 64)); [|lia|by apply absorb_len|lia]|].
    { split; [lia|]. split; [Z.div_mod_to_equations; lia|reflexivity]. }
    intros i [st' c0 c1 buf'] ((Hi & Hmod & Hst) & Hrest & E0 & E1 & E2). cbn [state count0 count1 buffer] in *.
    subst c0 c1 buf' st'. pose proof (filled_block_len m data buf Hsize Hlt).
    wp_step. apply wp_zoom. apply wp_memcpy; [lia|lia|lia|lia|cbn; lia|]. cbn [state count0 count1 buffer].
    by apply join_rest.
  - wp_step. apply wp_zoom. rewrite Z.sub_0_r.
    apply wp_memcpy; [lia|lia|lia|lia|cbn; lia|]. cbn [state count0 count1 buffer].
    rewrite zdrop_0, ztake_all. apply join_fits; try done. lia.
Qed.

(** ** [SHA1Final] *)

Lemma wp_SHA1Init c :
  zlen (buffer c) = 64 -> wp SHA1Init c (fun _ c' => ctx_ok [] c') (fun _ _ => False).
Proof. intros Hb. unfold SHA1Init. wp_step. constructor; try done. constructor. Qed.

Lemma octet_eq x i : octet x i = x / 2 ^ (8 * (3 - i mod 4)) mod 256.
Proof.
  unfold octet. change 3 with (Z.ones 2) at 2. rewrite Z.land_ones by done. change (2 ^ 2) with 4.
  pose proof (Z.mod_pos_bound i 4 eq_refl).
  rewrite Z.shiftr_div_pow2 by lia. change 255 with (Z.ones 8). rewrite Z.land_ones by done.
  by rewrite (Z.mul_comm 8).
Qed.

(** The two words of the count are the 64-bit length. *)
Lemma finalcount_eq x :
  0 <= x ->
  map (fun i => octet (if 4 <=? i then x mod 2 ^ 32 else x / 2 ^ 32 mod 2 ^ 32) i) (seqZ 0 8) = be64 x.
Proof.
  intros Hx. unfold be64. apply map_ext_in. intros i Hi%list_elem_of_In%elem_of_seqZ.
  assert (Hlow : forall y k, 0 <= k <= 24 -> 0 <= y -> y mod 2 ^ 32 / 2 ^ k mod 256 = y / 2 ^ k mod 256).
  { intros y k Hk Hy. set (q := y / 2 ^ 32). assert (Hd : y = y mod 2 ^ 32 + q * 2 ^ (24 - k) * 256 * 2 ^ k).
    { rewrite <- Z.mul_assoc, <- (Z.mul_assoc q). change 256 with (2 ^ 8).
      rewrite <- !Z.pow_add_r by lia. replace (24 - k + (8 + k)) with 32 by lia.
      pose proof (Z.div_mod y (2 ^ 32)). unfold q. lia. }
    rewrite Hd at 2. rewrite Z.div_add by (apply Z.pow_nonzero; lia). by rewrite Z.mod_add. }
  pose proof (Z.mod_pos_bound x (2 ^ 32) eq_refl). pose proof (Z.mod_pos_bound (x / 2 ^ 32) (2 ^ 32) eq_refl).
  pose proof (Z.mod_pos_bound i 4 eq_refl). pose proof (Z.div_pos x (2 ^ 32) Hx eq_refl).
  destruct (Z.leb_spec 4 i); rewrite octet_eq, Hlow by lia.
  - do 3 f_equal. Z.div_mod_to_equations. lia.
  - rewrite Z.div_div by (try apply Z.pow_nonzero; lia). rewrite <- Z.pow_add_r by lia.
    do 3 f_equal. Z.div_mod_to_equations. lia.
Qed.

(** The padding stops where eight octets are left in the block. *)
Lemma padded_enough n :
  0 <= n -> (Z.land ((8 * n) mod 2 ^ 32) 504 =? 448) = (n mod 64 =? 56).
Proof.
  intros Hn. rewrite <- (shift_mask _ 504 3) by done. rewrite Z.shiftr_land. change (Z.shiftr 504 3) with 63.
  rewrite count_bits, Z.shiftl_mul_pow2 by done. destruct (Z.eqb_spec (n mod 64) 56) as [->|]; [done|].
  apply Z.eqb_neq. lia.
Qed.

Definition padded (m : list Z) (k : Z) : list Z := m ++ 0x80 :: replicate (Z.to_nat k) 0.

Lemma padded_len m k : 0 <= k -> zlen (padded m k) = zlen m + 1 + k.
Proof.
  intros Hk. unfold padded. rewrite zlen_app, zlen_cons. unfold zlen at 2. rewrite length_replicate. lia.
Qed.

Lemma padded_next m k : 0 <= k -> padded m k ++ [0] = padded m (k + 1).
Proof.
  intros Hk. unfold padded. rewrite <- app_assoc. cbn [app]. do 2 f_equal.
  replace (Z.to_nat (k + 1)) with (Z.to_nat k + 1)%nat by lia. by rewrite replicate_add.
Qed.

Lemma zeros_range m : 0 <= zeros m < 64.
Proof. by apply Z.mod_pos_bound. Qed.

Lemma wp_final_loop m c :
  ctx_ok (padded m 0) c ->
  wp (loop 65 final_step tt) c (fun _ c' => ctx_ok (padded m (zeros m)) c') (fun _ _ => False).
Proof.
  intros Hok. pose proof (zlen_nonneg m). pose proof (zeros_range m).
  enough (forall fuel k c, 0 <= k <= zeros m -> zeros m - k < Z.of_nat fuel -> ctx_ok (padded m k) c ->
    wp (loop fuel final_step tt) c (fun _ c' => ctx_ok (padded m (zeros m)) c') (fun _ _ => False)) as Hw.
  { apply (Hw _ 0); [lia|lia|done]. }
  clear c Hok. intros fuel. induction fuel as [|fuel IH]; intros k c Hk Hf Hok; [lia|].
  apply wp_loop_S. unfold final_step. wp_step. wp_step. rewrite (ok_count0 _ _ Hok).
  rewrite padded_enough, padded_len by (rewrite ?padded_len; lia).
  destruct (Z.eqb_spec ((zlen m + 1 + k) mod 64) 56) as [Heq|Hne].
  - wp_step. replace (zeros m) with k; [done|]. unfold zeros in *. Z.div_mod_to_equations. lia.
  - wp_step. eapply wp_conseq; [apply (wp_SHA1Update (padded m k) [0] c Hok); [by repeat constructor|done]|].
    intros [] c' Hok'. wp_step. rewrite padded_next in Hok' by lia. apply (IH (k + 1)); [|lia|done].
    unfold zeros in *. Z.div_mod_to_equations. lia.
Qed.

Lemma pad_eq m : pad m = padded m (zeros m) ++ be64 (8 * zlen m).
Proof. unfold pad, padded. by rewrite <- app_assoc. Qed.

Lemma be64_bytes x : bytes (be64 x).
Proof.
  unfold bytes, be64. apply Forall_map, Forall_true. intros i. apply (Z.mod_pos_bound _ 256). done.
Qed.

Lemma wp_SHA1Final m c :
  ctx_ok m c -> wp SHA1Final c (fun d _ => d = fips_digest m) (fun _ _ => False).
Proof.
  intros Hok. pose proof (zlen_nonneg m). pose proof (zeros_range m). unfold SHA1Final. wp_step. wp_step.
  rewrite (ok_count0 _ _ Hok), (ok_count1 _ _ Hok), finalcount_eq by lia.
  wp_step. eapply wp_conseq; [apply (wp_SHA1Update m [0x80] c Hok); [by repeat constructor|done]|].
  intros [] c1 Hok1. wp_step. eapply wp_conseq; [by apply (wp_final_loop m)|]. intros [] c2 Hok2.
  wp_step. eapply wp_conseq; [apply (wp_SHA1Update _ (be64 (8 * zlen m)) c2 Hok2 (be64_bytes _)); done|].
  intros [] c3 Hok3. wp_step. wp_step. wp_step. rewrite <- pad_eq in Hok3.
  pose proof (ctx_state_len _ _ Hok3) as Hl. unfold fips_digest. fold (blocks (pad m)).
  rewrite <- (ok_state _ _ Hok3). apply map_ext_in. intros i Hi%list_elem_of_In%elem_of_seqZ.
  by rewrite octet_eq, Z.shiftr_div_pow2 by done.
Qed.

(** ** Properties *)

(** A client's sequence of calls: the chunks are hashed one after the other. *)
Fixpoint update_all (chunks : list (list Z)) : M SHA1_CTX unit :=
  match chunks with
  | [] => mret tt
  | data :: chunks => SHA1Update data (zlen data);; update_all chunks
  end.

Definition sha1 (chunks : list (list Z)) : M SHA1_CTX (list Z) :=
  SHA1Init;; update_all chunks;; SHA1Final.

Lemma wp_update_all m chunks c :
  ctx_ok m c -> Forall (fun data => bytes data /\ zlen data < 2 ^ 29) chunks ->
  wp (update_all chunks) c (fun _ c' => ctx_ok (m ++ concat chunks) c') (fun _ _ => False).
Proof.
  intros Hok Hcs. revert m c Hok. induction Hcs as [|data chunks [Hd Hl] _ IH]; intros m c Hok; cbn [update_all concat].
  - wp_step. by rewrite app_nil_r.
  - wp_step. eapply wp_conseq; [by apply (wp_SHA1Update m data)|]. intros [] c' Hok'.
    rewrite app_assoc. by apply IH.
Qed.


Definition dirty_ctx : SHA1_CTX := Ctx [] 7 7 (replicate 64 7).


(** The high word of the bit count is only touched when the low word wraps
    around, the high part of the length is lost otherwise: 2^29 bytes in one
    call leave the count as it was. *)
Theorem SHA1Update_count_lost m data c :
  ctx_ok m c -> bytes data -> zlen data = 2 ^ 29 ->
  wp (SHA1Update data (zlen data)) c
     (fun _ c' => count0 c' = count0 c /\ count1 c' = count1 c /\ ~ ctx_ok (m ++ data) c') (fun _ _ => False).
Proof.
  intros Hok Hdata Hlen. pose proof (ctx_state_len _ _ Hok) as Hl5.
  destruct Hok as [Hm Hs H0 H1 Hsize Hbuf]. destruct c as [st c0 c1 buf]. cbn in *.
  pose proof (zlen_nonneg m). destruct (tail_len m data) as (Hjr & _).
  assert (Hj : Z.land (Z.shiftr c0 3) 63 = zlen m mod 64) by (rewrite H0; by apply count_bits).
  assert (Hc : u32 (c0 + u32 (Z.shiftl (zlen data) 3)) = c0).
  { rewrite Hlen. change (u32 (Z.shiftl (2 ^ 29) 3)) with 0. rewrite Z.add_0_r. unfold u32.
    rewrite Z.mod_small; [done|]. rewrite H0. by apply Z.mod_pos_bound. }
  unfold SHA1Update. wp_step. wp_step. wp_step. wp_step. cbn [state count0 count1 buffer]. rewrite Hc, Hj.
  rewrite Z.ltb_irrefl. wp_step. wp_step. wp_step.
  assert (u32 (zlen m mod 64 + zlen data) = zlen m mod 64 + zlen data) as -> by (apply Z.mod_small; lia).
  rewrite (proj2 (Z.ltb_lt 63 _)) by lia.
  wp_step. apply wp_zoom. apply wp_memcpy; [lia|lia|lia|lia|cbn; lia|]. cbn [buffer state count0 count1].
  wp_step. wp_step. wp_step. unfold transform. wp_step. cbn [buffer state count0 count1].
  rewrite zdrop_0. fold (filled_block m data buf).
  rewrite (filled_transform m data st buf) by (done || lia). wp_step.
  eapply wp_conseq; [apply (update_loop m data Hm Hdata (64 - zlen m mod 64)); [|lia|by apply absorb_len|lia]|].
  { split; [lia|]. split; [Z.div_mod_to_equations; lia|reflexivity]. }
  intros i [st' c0' c1' buf'] ((Hi & _) & Hrest & E0 & E1 & E2). cbn [state count0 count1 buffer] in *.
  subst c0' c1' buf'. pose proof (filled_block_len m data buf Hsize ltac:(lia)).
  wp_step. apply wp_zoom. apply wp_memcpy; [lia|lia|lia|lia|cbn; lia|]. cbn [state count0 count1 buffer].
  split_and!; [done|done|]. intros Hok. pose proof (ok_count1 _ _ Hok) as Hc1. cbn in Hc1.
  rewrite H1, zlen_app, Hlen in Hc1.
  replace (8 * (zlen m + 2 ^ 29)) with (8 * zlen m + 1 * 2 ^ 32) in Hc1 by lia.
  rewrite Z.div_add in Hc1 by done. Z.div_mod_to_equations. lia.
Qed.
