(* ===== verification/Qsort.v ===== *)
(** * Sorting: [upstream-freebsd/lib/libc/stdlib/qsort.c]

    Bentley and McIlroy's quicksort. The array is a list of elements and a
    pointer an index: every pointer of the code is a multiple of the element
    size away from the start, and [swapfunc] exchanges whole elements, so the
    size [es] is the unit. The comparison function is a parameter, and so are
    the laws of an order where the theorems need them. *)
From S2P Require Import Prelude.

Section qsort.
Context {A : Type} (cmp : A -> A -> Z).

(** ** The code *)

(** [CMP(thunk, pi, pj)] *)
Definition compare (i j : Z) : M (list A) Z :=
  x ← rdS i; y ← rdS j; mret (cmp x y).

(** [swapfunc(pi, pj, es)] *)
Definition swap (i j : Z) : M (list A) unit :=
  x ← rdS i; y ← rdS j; wr i y;; wr j x.

(** [vecswap(pi, pj, n)], element by element *)
Definition vecswap_step (i j n k : Z) : M (list A) (step Z unit) :=
  if negb (k <? n) then mret (Done tt) else swap (i + k) (j + k);; mret (Next (k + 1)).

Definition vecswap (i j n : Z) : M (list A) unit :=
  if 0 <? n then loop (Z.to_nat n + 1) (vecswap_step i j n) 0 else mret tt.

Definition med3 (a b c : Z) : M (list A) Z :=
  ab ← compare a b;
  if ab <? 0 then
    bc ← compare b c;
    if bc <? 0 then mret b else ac ← compare a c; mret (if ac <? 0 then c else a)
  else
    bc ← compare b c;
    if 0 <? bc then mret b else ac ← compare a c; mret (if ac <? 0 then a else c).

(** The two nested [for] loops of the insertion sort. *)
Definition insert_step (a pl : Z) : M (list A) (step Z unit) :=
  if negb (a <? pl) then mret (Done tt) else
  c ← compare (pl - 1) pl;
  if 0 <? c then swap pl (pl - 1);; mret (Next (pl - 1)) else mret (Done tt).

Definition insertion_step (a n pm : Z) : M (list A) (step Z unit) :=
  if negb (pm <? a + n) then mret (Done tt) else
  loop (Z.to_nat (pm - a) + 1) (insert_step a) pm;;
  mret (Next (pm + 1)).

Definition insertion_sort (a n : Z) : M (list A) unit :=
  loop (Z.to_nat n + 1) (insertion_step a n) (a + 1).

(** The choice of the pivot. *)
Definition choose_pivot (a n : Z) : M (list A) Z :=
  let pm := a + n / 2 in
  if 7 <? n then
    let pl := a in
    let pn := a + (n - 1) in
    '(pl, pm, pn) ←
      (if 40 <? n then
         let d := n / 8 in
         pl ← med3 pl (pl + d) (pl + 2 * d);
         pm ← med3 (pm - d) pm (pm + d);
         pn ← med3 (pn - 2 * d) (pn - d) pn;
         mret (pl, pm, pn)
       else mret (pl, pm, pn));
    med3 pl pm pn
  else mret pm.

(** [while (pb <= pc && (cmp_result = CMP(thunk, pb, a)) <= 0) ...] *)
Definition left_step (a pc : Z) '((pa, pb, swap_cnt) : Z * Z * Z) : M (list A) (step (Z * Z * Z) (Z * Z * Z)) :=
  if negb (pb <=? pc) then mret (Done (pa, pb, swap_cnt)) else
  cmp_result ← compare pb a;
  if negb (cmp_result <=? 0) then mret (Done (pa, pb, swap_cnt)) else
  if cmp_result =? 0 then swap pa pb;; mret (Next (pa + 1, pb + 1, 1))
  else mret (Next (pa, pb + 1, swap_cnt)).

(** [while (pb <= pc && (cmp_result = CMP(thunk, pc, a)) >= 0) ...] *)
Definition right_step (a pb : Z) '((pc, pd, swap_cnt) : Z * Z * Z) : M (list A) (step (Z * Z * Z) (Z * Z * Z)) :=
  if negb (pb <=? pc) then mret (Done (pc, pd, swap_cnt)) else
  cmp_result ← compare pc a;
  if negb (0 <=? cmp_result) then mret (Done (pc, pd, swap_cnt)) else
  if cmp_result =? 0 then swap pc pd;; mret (Next (pc - 1, pd - 1, 1))
  else mret (Next (pc - 1, pd, swap_cnt)).

(** The [for (;;)] loop around them. *)
Definition partition_step (a : Z) '((pa, pb, pc, pd, swap_cnt) : Z * Z * Z * Z * Z)
    : M (list A) (step (Z * Z * Z * Z * Z) (Z * Z * Z * Z * Z)) :=
  '(pa, pb, swap_cnt) ← loop (Z.to_nat (pc - pb + 1) + 1) (left_step a pc) (pa, pb, swap_cnt);
  '(pc, pd, swap_cnt) ← loop (Z.to_nat (pc - pb + 1) + 1) (right_step a pb) (pc, pd, swap_cnt);
  if pc <? pb then mret (Done (pa, pb, pc, pd, swap_cnt)) else
  swap pb pc;;
  mret (Next (pa, pb + 1, pc - 1, pd, 1)).

Definition partition (a n : Z) : M (list A) (Z * Z * Z * Z * Z) :=
  loop (Z.to_nat n + 1) (partition_step a) (a + 1, a + 1, a + (n - 1), a + (n - 1), 0).

(** [goto loop] is a call in tail position. *)
Fixpoint qsort_loop (fuel : nat) (a n : Z) : M (list A) unit :=
  match fuel with
  | O => nofuel
  | S fuel =>
      if n <? 7 then insertion_sort a n else
      pm ← choose_pivot a n;
      swap a pm;;
      '(pa, pb, pc, pd, swap_cnt) ← partition a n;
      if swap_cnt =? 0 then insertion_sort a n else
      let pn := a + n in
      let d1 := Z.min (pa - a) (pb - pa) in
      vecswap a (pb - d1) d1;;
      let d1 := Z.min (pd - pc) (pn - pd - 1) in
      vecswap pb (pn - d1) d1;;
      let d1 := pb - pa in
      let d2 := pd - pc in
      if d1 <=? d2 then
        (if 1 <? d1 then qsort_loop fuel a d1 else mret tt);;
        (if 1 <? d2 then qsort_loop fuel (pn - d2) d2 else mret tt)
      else
        (if 1 <? d2 then qsort_loop fuel (pn - d2) d2 else mret tt);;
        (if 1 <? d1 then qsort_loop fuel a d1 else mret tt)
  end.

Definition qsort (n : Z) : M (list A) unit := qsort_loop (Z.to_nat n + 1) 0 n.

(** ** Permutations within a range *)

(** [s'] is [s] with the elements of [a, a + n) rearranged. *)
Definition perm_in (a n : Z) (s s' : list A) : Prop :=
  s' ≡ₚ s /\ ztake a s' = ztake a s /\ zdrop (a + n) s' = zdrop (a + n) s.

Lemma perm_in_refl a n s : perm_in a n s s.
Proof. done. Qed.

Lemma perm_in_trans a n s1 s2 s3 : perm_in a n s1 s2 -> perm_in a n s2 s3 -> perm_in a n s1 s3.
Proof. intros (H1 & H2 & H3) (H4 & H5 & H6). split_and!; [by rewrite H4|congruence|congruence]. Qed.

Lemma perm_in_len a n s s' : perm_in a n s s' -> zlen s' = zlen s.
Proof. intros (H & _). unfold zlen. by rewrite H. Qed.

Lemma perm_in_mono a n a' n' s s' :
  0 <= a <= a' -> 0 <= n' -> a' + n' <= a + n -> perm_in a' n' s s' -> perm_in a n s s'.
Proof.
  intros Ha Hn' Hn (H1 & H2 & H3). split_and!; [done| |].
  - rewrite <- (ztake_ztake s' a a'), <- (ztake_ztake s a a') by lia. by rewrite H2.
  - replace (a + n) with (a' + n' + (a + n - (a' + n'))) by lia.
    rewrite <- (zdrop_zdrop _ (a' + n') s'), <- (zdrop_zdrop _ (a' + n') s) by lia. by rewrite H3.
Qed.

(** What is in the range afterwards was in it before. *)
Lemma perm_in_elem a n s s' i x :
  0 <= a -> 0 <= n -> a + n <= zlen s -> perm_in a n s s' -> a <= i < a + n -> znth s' i = Some x ->
  exists j, a <= j < a + n /\ znth s j = Some x.
Proof.
  intros Ha Hn Hl Hp Hi Hx. pose proof (perm_in_len _ _ _ _ Hp) as Hlen. destruct Hp as (H1 & H2 & H3).
  assert (Hsplit : forall t : list A, zlen t = zlen s -> t = ztake a t ++ ztake n (zdrop a t) ++ zdrop (a + n) t).
  { intros t Ht. rewrite <- (ztake_zdrop a t) at 1. f_equal.
    rewrite <- (ztake_zdrop n (zdrop a t)) at 1. f_equal. by rewrite zdrop_zdrop by lia. }
  rewrite (Hsplit s'), (Hsplit s) in H1 by done. rewrite H2, H3 in H1.
  apply Permutation_app_inv_l, Permutation_app_inv_r in H1.
  assert (x ∈ ztake n (zdrop a s')) as Hin.
  { apply (list_elem_of_lookup_2 _ (Z.to_nat (i - a))).
    assert (Hz : znth (ztake n (zdrop a s')) (i - a) = Some x).
    { rewrite znth_ztake by lia. rewrite znth_zdrop by lia. by replace (a + (i - a)) with i by lia. }
    unfold znth in Hz. by rewrite (proj2 (Z.ltb_ge (i - a) 0)) in Hz by lia. }
  rewrite H1 in Hin. apply list_elem_of_lookup_1 in Hin as [k Hk].
  apply lookup_lt_Some in Hk as Hlt. exists (a + Z.of_nat k).
  assert (zlen (ztake n (zdrop a s)) = n) as Hzl by (rewrite zlen_ztake; rewrite ?zlen_zdrop; lia).
  unfold zlen in Hzl. split; [lia|].
  assert (Hz : znth (ztake n (zdrop a s)) (Z.of_nat k) = Some x).
  { unfold znth. rewrite (proj2 (Z.ltb_ge _ 0)) by lia. by rewrite Nat2Z.id. }
  rewrite znth_ztake in Hz by lia. by rewrite znth_zdrop in Hz by lia.
Qed.

Lemma perm_in_out a n s s' i :
  0 <= a -> 0 <= n -> perm_in a n s s' -> i < a \/ a + n <= i -> znth s' i = znth s i.
Proof.
  intros Ha Hn (_ & H2 & H3) Hi. destruct (decide (i < 0)); [by rewrite !znth_None by lia|].
  destruct Hi as [Hi|Hi].
  - rewrite <- (znth_ztake i a s'), <- (znth_ztake i a s) by lia. by rewrite H2.
  - replace i with (a + n + (i - (a + n))) by lia.
    rewrite <- (znth_zdrop _ (a + n) s'), <- (znth_zdrop _ (a + n) s) by lia. by rewrite H3.
Qed.

Lemma perm_in_intro a n s s' :
  0 <= a -> 0 <= n -> s' ≡ₚ s ->
  (forall k, k < a \/ a + n <= k -> znth s' k = znth s k) -> perm_in a n s s'.
Proof.
  intros Ha Hn Hp Hk. split_and!; [done| |]; apply list_eq; intros i.
  - unfold ztake. destruct (decide (i < Z.to_nat a)%nat).
    + rewrite !lookup_take_lt by done. specialize (Hk (Z.of_nat i) ltac:(lia)). unfold znth in Hk.
      rewrite (proj2 (Z.ltb_ge (Z.of_nat i) 0)), Nat2Z.id in Hk by lia. done.
    + by rewrite !lookup_take_ge by lia.
  - unfold zdrop. rewrite !lookup_drop. specialize (Hk (a + n + Z.of_nat i) ltac:(lia)). unfold znth in Hk.
    rewrite (proj2 (Z.ltb_ge (a + n + Z.of_nat i) 0)) in Hk by lia.
    by replace (Z.to_nat (a + n + Z.of_nat i)) with (Z.to_nat (a + n) + i)%nat in Hk by lia.
Qed.

(** ** The exchanges *)

Definition tau (i j k : Z) : Z := if k =? i then j else if k =? j then i else k.

Definition moved (f : Z -> Z) (s s' : list A) : Prop :=
  s' ≡ₚ s /\ zlen s' = zlen s /\ forall k, znth s' k = znth s (f k).

Lemma wp_swap i j s (Q : unit -> list A -> Prop) E :
  0 <= i < zlen s -> 0 <= j < zlen s -> (forall s', moved (tau i j) s s' -> Q tt s') ->
  wp (swap i j) s Q E.
Proof.
  intros Hi Hj HQ. destruct (znth_lt s i Hi) as [x Hx], (znth_lt s j Hj) as [y Hy].
  unfold swap. wp_step. apply (wp_run _ (rd s i) s s); [done|]. apply (wp_rd _ _ _ _ _ x Hx).
  wp_step. apply (wp_run _ (rd s j) s s); [done|]. apply (wp_rd _ _ _ _ _ y Hy).
  wp_step. wp_step; [lia|]. wp_step; [rewrite zlen_zupd; lia|]. apply HQ. split_and!.
  - unfold znth in Hx, Hy. unfold zupd. rewrite (proj2 (Z.ltb_ge i 0)) in * by lia.
    rewrite (proj2 (Z.ltb_ge j 0)) in * by lia. by apply Permutation_insert_swap.
  - by rewrite !zlen_zupd.
  - intros k. unfold tau. destruct (Z.eqb_spec k j) as [Hkj|Hkj], (Z.eqb_spec k i) as [Hki|Hki].
    + rewrite Hkj, znth_zupd_eq by (rewrite zlen_zupd; lia). congruence.
    + rewrite Hkj, znth_zupd_eq by (rewrite zlen_zupd; lia). congruence.
    + rewrite znth_zupd_ne, Hki, znth_zupd_eq by (congruence || lia). congruence.
    + by rewrite !znth_zupd_ne by congruence.
Qed.

Lemma moved_perm_in a n f s s' :
  0 <= a -> 0 <= n -> (forall k, k < a \/ a + n <= k -> f k = k) -> moved f s s' -> perm_in a n s s'.
Proof.
  intros Ha Hn Hf (Hp & _ & Hk). apply perm_in_intro; [done|done|done|]. intros k Hk'. by rewrite Hk, Hf.
Qed.

Definition sigma (i j d k : Z) : Z :=
  if (i <=? k) && (k <? i + d) then k + (j - i)
  else if (j <=? k) && (k <? j + d) then k - (j - i) else k.

Lemma wp_vecswap i j d s (Q : unit -> list A -> Prop) E :
  0 <= i -> i + d <= j -> j + d <= zlen s -> 0 <= j ->
  (forall s', moved (sigma i j d) s s' -> Q tt s') -> wp (vecswap i j d) s Q E.
Proof.
  intros Hi Hij Hj Hj0 HQ. unfold vecswap. destruct (Z.ltb_spec 0 d) as [Hd|Hd].
  2: { wp_step. apply HQ. split_and!; [done|done|]. intros k. unfold sigma. repeat case_match; try done; lia. }
  apply (wp_loop (fun k s' => 0 <= k <= d /\ moved (sigma i j k) s s') (fun k _ => Z.to_nat (d - k))); [|lia|].
  - split; [lia|]. split_and!; [done|done|]. intros k. unfold sigma. repeat case_match; try done; lia.
  - intros k s1 (Hk & Hp & Hl & Hn). unfold vecswap_step. destruct (Z.ltb_spec k d); cbn [negb].
    2: { wp_step. apply HQ. replace d with k by lia. by split_and!. }
    wp_step. apply wp_swap; [lia|lia|]. intros s2 (Hp2 & Hl2 & Hn2). wp_step. split; [|lia].
    split; [lia|]. split_and!; [by rewrite Hp2|lia|]. intros t. rewrite Hn2, Hn. f_equal.
    unfold sigma, tau. repeat case_match; lia.
Qed.

(** ** Comparisons *)

Lemma wp_compare i j s (Q : Z -> list A -> Prop) E :
  0 <= i < zlen s -> 0 <= j < zlen s ->
  (forall x y, znth s i = Some x -> znth s j = Some y -> Q (cmp x y) s) -> wp (compare i j) s Q E.
Proof.
  intros Hi Hj HQ. destruct (znth_lt s i Hi) as [x Hx], (znth_lt s j Hj) as [y Hy].
  unfold compare. wp_step. apply (wp_run _ (rd s i) s s); [done|]. apply (wp_rd _ _ _ _ _ x Hx).
  wp_step. apply (wp_run _ (rd s j) s s); [done|]. apply (wp_rd _ _ _ _ _ y Hy). wp_step. by apply HQ.
Qed.

Lemma wp_med3 a b c s E :
  0 <= a < zlen s -> 0 <= b < zlen s -> 0 <= c < zlen s ->
  wp (med3 a b c) s (fun m s' => s' = s /\ (m = a \/ m = b \/ m = c)) E.
Proof.
  intros Ha Hb Hc. unfold med3. wp_step. apply wp_compare; [done|done|]. intros x y _ _.
  destruct (cmp x y <? 0); wp_step; (apply wp_compare; [done|done|]); intros y' z _ _; wp_step;
    try (wp_step; tauto); wp_step; (apply wp_compare; [done|done|]); intros x' z' _ _; wp_step;
    case_match; tauto.
Qed.

Lemma wp_choose_pivot a n s E :
  0 <= a -> 7 <= n -> a + n <= zlen s ->
  wp (choose_pivot a n) s (fun m s' => s' = s /\ a <= m < a + n) E.
Proof.
  intros Ha Hn Hl. unfold choose_pivot. destruct (Z.ltb_spec 7 n).
  2: { wp_step. split; [done|]. Z.div_mod_to_equations. lia. }
  wp_step. apply (wp_conseq _ _ (fun p s' => s' = s /\ let '(pl, pm, pn) := p in
    a <= pl < a + n /\ a <= pm < a + n /\ a <= pn < a + n)).
  - destruct (Z.ltb_spec 40 n).
    + assert (0 <= n / 8 /\ 8 * (n / 8) <= n /\ n <= 2 * (n / 2) + 1 /\ 2 * (n / 2) <= n) as Hd
        by (Z.div_mod_to_equations; lia).
      do 3 (wp_step; eapply wp_conseq; [apply wp_med3; lia|]; intros ? ? [-> ?]).
      wp_step. split; [done|]. lia.
    + wp_step. split; [done|]. split_and!; try lia; Z.div_mod_to_equations; lia.
  - intros [[pl pm] pn] ? (-> & Hpl & Hpm & Hpn). eapply wp_conseq; [apply wp_med3; lia|].
    intros m ? [-> Hm]. split; [done|]. lia.
Qed.

(** ** The insertion sort *)

(** What the C standard asks of a comparison function. *)
Definition lawful : Prop :=
  (forall x y, 0 < cmp x y <-> cmp y x < 0) /\
  (forall x y z, cmp x y <= 0 -> cmp y z <= 0 -> cmp x z <= 0).

Definition le_at (s : list A) (i j : Z) : Prop :=
  forall x y, znth s i = Some x -> znth s j = Some y -> cmp x y <= 0.

Definition sorted_in (a n : Z) (s : list A) : Prop :=
  forall i j, a <= i -> i < j -> j < a + n -> le_at s i j.

Lemma le_at_trans s i j k : lawful -> 0 <= j < zlen s -> le_at s i j -> le_at s j k -> le_at s i k.
Proof.
  intros [_ Ht] Hj H1 H2 x z Hx Hz. destruct (znth_lt s j Hj) as [y Hy]. eapply Ht; [by apply H1|by apply H2].
Qed.

(** All pairs up to [pm] but those that end at [pl] are in order. *)
Definition almost (a pl pm : Z) (s : list A) : Prop :=
  forall i j, a <= i -> i < j -> j <= pm -> j <> pl -> le_at s i j.

Lemma almost_swap a pl pm s s' :
  lawful -> a < pl <= pm -> almost a pl pm s -> (forall x y, znth s (pl - 1) = Some x -> znth s pl = Some y -> 0 < cmp x y) ->
  moved (tau pl (pl - 1)) s s' -> almost a (pl - 1) pm s'.
Proof.
  intros [Hsym Ht] Hpl Hal Hgt (_ & _ & Hn) i j Hi Hij Hj Hne x y. rewrite !Hn. unfold tau.
  destruct (Z.eqb_spec i pl), (Z.eqb_spec j pl), (Z.eqb_spec i (pl - 1)), (Z.eqb_spec j (pl - 1)); try lia; intros Hx Hy.
  - by apply (Hal (pl - 1) j); lia || done.
  - specialize (Hgt y x Hy Hx). apply Hsym in Hgt. lia.
  - by apply (Hal i (pl - 1)); lia || done.
  - by apply (Hal pl j); lia || done.
  - by apply (Hal i j); lia || done.
Qed.

Lemma wp_insert a n pm s0 s :
  0 <= a -> a + n <= zlen s -> a < pm < a + n -> perm_in a n s0 s -> (lawful -> sorted_in a (pm - a) s) ->
  wp (loop (Z.to_nat (pm - a) + 1) (insert_step a) pm) s
     (fun _ s' => perm_in a n s0 s' /\ (lawful -> sorted_in a (pm + 1 - a) s')) (fun _ _ => False).
Proof.
  intros Ha Hl Hpm Hp Hso.
  apply (wp_loop (fun pl s' => a <= pl <= pm /\ zlen s' = zlen s /\ perm_in a n s0 s' /\ (lawful -> almost a pl pm s'))
           (fun pl _ => Z.to_nat (pl - a))); [|lia|].
  { split_and!; [lia|lia|done|done|]. intros Hlaw i j Hi Hij Hj Hne. apply Hso; [done|lia|lia|lia]. }
  intros pl s1 (Hpl & Hl1 & Hp1 & Hal). unfold insert_step.
  destruct (Z.ltb_spec a pl); cbn [negb].
  2: { wp_step. split; [done|]. intros Hlaw i j Hi Hij Hj. apply (Hal Hlaw); lia. }
  wp_step. apply wp_compare; [lia|lia|]. intros x y Hx Hy. destruct (Z.ltb_spec 0 (cmp x y)).
  - wp_step. apply wp_swap; [lia|lia|]. intros s2 Hm. wp_step. split; [|lia].
    pose proof Hm as (_ & Hl2 & _). split_and!; [lia|lia|lia| |].
    + eapply perm_in_trans; [exact Hp1|]. eapply moved_perm_in; [done|lia| |exact Hm].
      intros k Hk. unfold tau. repeat case_match; lia.
    + intros Hlaw. apply (almost_swap a pl pm s1); [done|lia|by apply Hal| |done]. congruence.
  - wp_step. split; [done|]. intros Hlaw i j Hi Hij Hj. destruct (decide (j = pl)) as [->|]; [|apply (Hal Hlaw); lia].
    assert (le_at s1 (pl - 1) pl) by (intros x' y' ? ?; simplify_eq; lia).
    destruct (decide (i = pl - 1)) as [->|]; [done|].
    apply (le_at_trans s1 i (pl - 1) pl); [done|lia| |done]. apply (Hal Hlaw); lia.
Qed.

Lemma wp_insertion_sort a n s :
  0 <= a -> 0 <= n -> a + n <= zlen s ->
  wp (insertion_sort a n) s (fun _ s' => perm_in a n s s' /\ (lawful -> sorted_in a n s')) (fun _ _ => False).
Proof.
  intros Ha Hn Hl. unfold insertion_sort.
  apply (wp_loop (fun pm s' => a + 1 <= pm /\ perm_in a n s s' /\ (lawful -> sorted_in a (pm - a) s'))
           (fun pm _ => Z.to_nat (a + n - pm))); [|lia|].
  { split_and!; [lia|done|]. intros _ i j. lia. }
  intros pm s1 (Hpm & Hp & Hso). pose proof (perm_in_len _ _ _ _ Hp). unfold insertion_step.
  destruct (Z.ltb_spec pm (a + n)); cbn [negb].
  2: { wp_step. split; [done|]. intros Hlaw i j Hi Hij Hj. apply (Hso Hlaw); lia. }
  wp_step. eapply wp_conseq; [apply (wp_insert a n pm s s1); [done|lia|lia|done|done]|].
  intros [] s2 [Hp2 Hso2]. wp_step. split; [|lia]. split_and!; [lia|done|done].
Qed.

(** ** The partition *)

(** The order of the element at [k] and the pivot. *)
Definition all_in (P : Z -> Prop) (v : A) (lo hi : Z) (s : list A) : Prop :=
  forall k x, lo <= k < hi -> znth s k = Some x -> P (cmp x v).

Definition zero (c : Z) : Prop := c = 0.
Definition neg (c : Z) : Prop := c < 0.
Definition pos (c : Z) : Prop := 0 < c.

Section partition.
Context (a n : Z) (s0 : list A) (v : A) (Ha : 0 <= a) (Hn : 7 <= n) (Hl : a + n <= zlen s0).

Definition part_inv (pa pb pc pd : Z) (s : list A) : Prop :=
  perm_in a n s0 s /\ znth s a = Some v /\
  a + 1 <= pa <= pb /\ pb <= pc + 1 /\ pc <= pd <= a + n - 1 /\
  all_in zero v (a + 1) pa s /\ all_in neg v pa pb s /\ all_in pos v (pc + 1) (pd + 1) s /\ all_in zero v (pd + 1) (a + n) s.

Lemma part_inv_swap pa pb pc pd i j pa' pb' pc' pd' s s' :
  part_inv pa pb pc pd s -> a + 1 <= i < a + n -> a + 1 <= j < a + n -> moved (tau i j) s s' ->
  a + 1 <= pa' <= pb' -> pb' <= pc' + 1 -> pc' <= pd' <= a + n - 1 ->
  all_in zero v (a + 1) pa' s' -> all_in neg v pa' pb' s' -> all_in pos v (pc' + 1) (pd' + 1) s' -> all_in zero v (pd' + 1) (a + n) s' ->
  part_inv pa' pb' pc' pd' s'.
Proof.
  intros (Hp & Hv & _) Hi Hj Hm. intros. split_and!; try lia; try done.
  - eapply perm_in_trans; [exact Hp|]. eapply moved_perm_in; [done|lia| |exact Hm].
    intros k Hk. unfold tau. repeat case_match; lia.
  - destruct Hm as (_ & _ & Hk). rewrite Hk. unfold tau. repeat case_match; try lia. done.
Qed.

Lemma part_len pa pb pc pd s : part_inv pa pb pc pd s -> zlen s = zlen s0.
Proof. intros (Hp & _). by eapply perm_in_len. Qed.

(** The facts about a class after an exchange, position by position. *)
Ltac classes Hk :=
  let k := fresh "k" in let x := fresh "x" in let Hx := fresh "Hx" in
  intros k x ? Hx; rewrite Hk in Hx; unfold tau in Hx; unfold zero, neg, pos in *; repeat case_match; try lia;
  simplify_eq;
  first [ done
        | match goal with H : all_in _ _ _ _ _ |- _ => solve [eapply H; [|eassumption]; lia] end
        | match goal with H1 : znth ?s ?i = Some ?x, H2 : znth ?s ?j = Some ?y |- _ =>
            assert (i = j) by lia; assert (x = y) by congruence; congruence
          end ].

Lemma wp_left pa pb pc pd sc s :
  part_inv pa pb pc pd s ->
  wp (loop (Z.to_nat (pc - pb + 1) + 1) (left_step a pc) (pa, pb, sc)) s
     (fun '(pa', pb', _) s' => part_inv pa' pb' pc pd s' /\ pb <= pb' /\
        (pb' <= pc -> forall x, znth s' pb' = Some x -> 0 < cmp x v)) (fun _ _ => False).
Proof.
  intros Hi.
  apply (wp_loop (fun '(pa', pb', _) s' => part_inv pa' pb' pc pd s' /\ pb <= pb')
           (fun '(_, pb', _) _ => Z.to_nat (pc + 1 - pb'))); [done| |].
  { destruct Hi as (_ & _ & ? & ? & _). lia. }
  clear pa sc s Hi. intros [[pa pb'] sc] s (Hi & Hge). unfold left_step.
  pose proof Hi as (_ & Hv & Hpa & Hpb & Hpd & He1 & Hlt & Hgt & He2). pose proof (part_len _ _ _ _ _ Hi).
  destruct (Z.leb_spec pb' pc); cbn [negb].
  2: { wp_step. split_and!; [done|done|lia]. }
  wp_step. apply wp_compare; [lia|lia|]. intros x w Hx Hw. assert (w = v) as -> by congruence.
  destruct (Z.leb_spec (cmp x v) 0); cbn [negb].
  2: { wp_step. split_and!; [done|done|]. intros _ x' Hx'. congruence. }
  destruct (Z.eqb_spec (cmp x v) 0) as [Heq|Hne].
  - wp_step. apply wp_swap; [lia|lia|]. intros s2 Hm. pose proof Hm as (_ & _ & Hk). wp_step. split; [|lia]. split; [|lia].
    eapply (part_inv_swap pa pb' pc pd pa pb' _ _ _ _ _ _ Hi); try lia; try done; classes Hk.
  - wp_step. split; [|lia]. split; [|lia]. pose proof Hi as (Hp & _). split_and!; try lia; try done.
    intros k y Hk Hy. destruct (decide (k = pb')) as [->|]; [|by eapply (Hlt k); [lia|]]. assert (y = x) by congruence.
    subst. unfold neg. lia.
Qed.

(** Both scans are done at [pb] and [pc]. *)
Definition stopped (pb pc : Z) (s : list A) : Prop :=
  pb <= pc -> (forall x, znth s pb = Some x -> 0 < cmp x v) /\ (forall x, znth s pc = Some x -> cmp x v < 0).

Lemma wp_right pa pb pc pd sc s :
  part_inv pa pb pc pd s -> (pb <= pc -> forall x, znth s pb = Some x -> 0 < cmp x v) ->
  wp (loop (Z.to_nat (pc - pb + 1) + 1) (right_step a pb) (pc, pd, sc)) s
     (fun '(pc', pd', _) s' => part_inv pa pb pc' pd' s' /\ pc' <= pc /\ stopped pb pc' s') (fun _ _ => False).
Proof.
  intros Hi Hpos.
  apply (wp_loop (fun '(pc', pd', _) s' => part_inv pa pb pc' pd' s' /\ pc' <= pc /\
                     (pb <= pc' -> forall x, znth s' pb = Some x -> 0 < cmp x v))
           (fun '(pc', _, _) _ => Z.to_nat (pc' + 1 - pb))); [done| |].
  { destruct Hi as (_ & _ & ? & ? & _). lia. }
  clear pd sc s Hi Hpos. intros [[pc' pd] sc] s (Hi & Hge & Hpos). unfold right_step.
  pose proof Hi as (_ & Hv & Hpa & Hpb & Hpd & He1 & Hlt & Hgt & He2). pose proof (part_len _ _ _ _ _ Hi).
  destruct (Z.leb_spec pb pc') as [Hbc|]; cbn [negb].
  2: { wp_step. split_and!; [done|done|]. intros ?. lia. }
  specialize (Hpos Hbc).
  wp_step. apply wp_compare; [lia|lia|]. intros x w Hx Hw. assert (w = v) as -> by congruence.
  destruct (Z.leb_spec 0 (cmp x v)); cbn [negb].
  2: { wp_step. split_and!; [done|done|]. intros _. split; [done|]. intros x' Hx'. congruence. }
  destruct (Z.eqb_spec (cmp x v) 0) as [Heq|Hne].
  - assert (pb <> pc') by (intros ->; specialize (Hpos x Hx); lia).
    wp_step. apply wp_swap; [lia|lia|]. intros s2 Hm. pose proof Hm as (_ & _ & Hk). wp_step. split; [|lia].
    split_and!; [|lia|].
    + eapply (part_inv_swap pa pb pc' pd pc' pd _ _ _ _ _ _ Hi); try lia; try done; classes Hk.
    + intros _ y Hy. rewrite Hk in Hy. unfold tau in Hy. repeat case_match; try lia. by apply Hpos.
  - wp_step. split; [|lia]. pose proof Hi as (Hp & _). split_and!; [|lia|intros _; exact Hpos].
    split_and!; try lia; try done.
    intros k y Hk Hy. destruct (decide (k = pc')) as [->|]; [|by eapply (Hgt k); [lia|]]. assert (y = x) by congruence.
    subst. unfold pos. lia.
Qed.

Lemma wp_partition s :
  perm_in a n s0 s -> znth s a = Some v ->
  wp (partition a n) s
     (fun '(pa, pb, pc, pd, _) s' => part_inv pa pb pc pd s' /\ pb = pc + 1) (fun _ _ => False).
Proof.
  intros Hp Hv. unfold partition.
  apply (wp_loop (fun '(pa, pb, pc, pd, _) s' => part_inv pa pb pc pd s')
           (fun '(_, pb, pc, _, _) _ => Z.to_nat (pc + 1 - pb))); [|lia|].
  { split_and!; try lia; try done; intros k x Hk; lia. }
  clear s Hp Hv. intros [[[[pa pb] pc] pd] sc] s Hi. unfold partition_step.
  wp_step. eapply wp_conseq; [by apply wp_left|]. intros [[pa1 pb1] sc1] s1 (Hi1 & Hge1 & Hpos).
  wp_step. eapply wp_conseq; [by apply wp_right|]. intros [[pc1 pd1] sc2] s2 (Hi2 & Hle2 & Hstop).
  pose proof Hi2 as (_ & Hv & Hpa & Hpb & Hpd & He1 & Hlt & Hgt & He2). pose proof (part_len _ _ _ _ _ Hi2).
  destruct (Z.ltb_spec pc1 pb1); [wp_step; split; [done|lia]|].
  destruct (Hstop ltac:(lia)) as [Hb Hc].
  assert (pb1 <> pc1).
  { intros E. destruct (znth_lt s2 pb1) as [x Hx]; [lia|]. pose proof (Hb x Hx). rewrite E in Hx. specialize (Hc x Hx). lia. }
  wp_step. apply wp_swap; [lia|lia|]. intros s3 Hm. pose proof Hm as (_ & _ & Hk). wp_step. split; [|lia].
  eapply (part_inv_swap pa1 pb1 pc1 pd1 pb1 pc1 _ _ _ _ _ _ Hi2); try lia; try done.
  - classes Hk.
  - intros k x Hk1 Hx. rewrite Hk in Hx. unfold tau in Hx. repeat case_match; try lia.
    + by apply Hc.
    + by eapply (Hlt k); [lia|].
  - intros k x Hk1 Hx. rewrite Hk in Hx. unfold tau in Hx. repeat case_match; try lia.
    + by apply Hb.
    + by eapply (Hgt k); [lia|].
  - classes Hk.
Qed.

(** The blocks of equal elements are moved to the middle. *)
Definition same (c : Z) (x : A) : Prop := c = 0 \/ x = v.

Definition three_way (d1 d2 : Z) (s : list A) : Prop :=
  perm_in a n s0 s /\ 0 <= d1 /\ 0 <= d2 /\ d1 + d2 < n /\
  all_in neg v a (a + d1) s /\
  (forall k x, a + d1 <= k < a + n - d2 -> znth s k = Some x -> cmp x v = 0 \/ x = v) /\
  all_in pos v (a + n - d2) (a + n) s.

Lemma wp_blocks pa pb pc pd s :
  part_inv pa pb pc pd s -> pb = pc + 1 ->
  wp (vecswap a (pb - Z.min (pa - a) (pb - pa)) (Z.min (pa - a) (pb - pa));;
      vecswap pb (a + n - Z.min (pd - pc) (a + n - pd - 1)) (Z.min (pd - pc) (a + n - pd - 1))) s
     (fun _ s' => three_way (pb - pa) (pd - pc) s') (fun _ _ => False).
Proof.
  intros Hi Hpc. pose proof Hi as (Hp & Hv & Hpa & Hpb & Hpd & He1 & Hlt & Hgt & He2).
  pose proof (part_len _ _ _ _ _ Hi).
  wp_step. apply wp_vecswap; [lia|lia|lia|lia|]. intros s1 (Hp1 & Hl1 & Hk1).
  apply wp_vecswap; [lia|lia|lia|lia|]. intros s2 (Hp2 & Hl2 & Hk2).
  assert (Hk : forall k, znth s2 k = znth s (sigma a (pb - Z.min (pa - a) (pb - pa)) (Z.min (pa - a) (pb - pa))
     (sigma pb (a + n - Z.min (pd - pc) (a + n - pd - 1)) (Z.min (pd - pc) (a + n - pd - 1)) k)))
    by (intros k; by rewrite Hk2, Hk1).
  assert (Heq : forall k x, a <= k < pa -> znth s k = Some x -> cmp x v = 0 \/ x = v).
  { intros k x Hk' Hx. destruct (decide (k = a)) as [->|]; [right; congruence|left]. by eapply (He1 k); [lia|]. }
  clear Hk1 Hk2. split_and!; try lia.
  - eapply perm_in_trans; [exact Hp|]. apply perm_in_intro; [done|lia|by rewrite Hp2, Hp1|].
    intros k Hk'. rewrite Hk. f_equal. unfold sigma. repeat case_match; lia.
  - intros k x Hk' Hx. rewrite Hk in Hx. eapply Hlt; [|exact Hx]. clear Hx. unfold sigma. repeat case_match; lia.
  - intros k x Hk' Hx. rewrite Hk in Hx. destruct (decide (k < pb)).
    + eapply Heq; [|exact Hx]. clear Hx. unfold sigma. repeat case_match; lia.
    + left. eapply He2; [|exact Hx]. clear Hx. unfold sigma. repeat case_match; lia.
  - intros k x Hk' Hx. rewrite Hk in Hx. eapply Hgt; [|exact Hx]. clear Hx. unfold sigma. repeat case_match; lia.
Qed.

Lemma all_in_perm P lo d s s' :
  0 <= lo -> 0 <= d -> lo + d <= zlen s -> all_in P v lo (lo + d) s -> perm_in lo d s s' -> all_in P v lo (lo + d) s'.
Proof.
  intros Hlo Hd Hle Hall Hp k x Hk Hx. destruct (perm_in_elem lo d s s' k x) as (j & Hj & Hx'); try done.
  by apply (Hall j x).
Qed.

(** Rearranging the elements of an outer block keeps the three blocks. *)
Lemma three_way_left d1 d2 s s' : three_way d1 d2 s -> perm_in a d1 s s' -> three_way d1 d2 s'.
Proof.
  intros (Hp & H1 & H2 & Hd & Hlt & Heq & Hgt) Hp'. pose proof (perm_in_len _ _ _ _ Hp).
  assert (Hout : forall k, a + d1 <= k -> znth s' k = znth s k) by (intros; eapply perm_in_out; [| |exact Hp'|]; lia).
  split_and!; try lia.
  - eapply perm_in_trans; [exact Hp|]. eapply perm_in_mono; [| | |exact Hp']; lia.
  - by eapply all_in_perm; [..|exact Hlt|exact Hp']; lia.
  - intros k x Hk Hx. rewrite Hout in Hx by lia. by apply (Heq k).
  - intros k x Hk Hx. rewrite Hout in Hx by lia. by apply (Hgt k).
Qed.

Lemma three_way_right d1 d2 s s' : three_way d1 d2 s -> perm_in (a + n - d2) d2 s s' -> three_way d1 d2 s'.
Proof.
  intros (Hp & H1 & H2 & Hd & Hlt & Heq & Hgt) Hp'. pose proof (perm_in_len _ _ _ _ Hp).
  assert (Hout : forall k, k < a + n - d2 -> znth s' k = znth s k) by (intros; eapply perm_in_out; [| |exact Hp'|]; lia).
  split_and!; try lia.
  - eapply perm_in_trans; [exact Hp|]. eapply perm_in_mono; [| | |exact Hp']; lia.
  - intros k x Hk Hx. rewrite Hout in Hx by lia. by apply (Hlt k).
  - intros k x Hk Hx. rewrite Hout in Hx by lia. by apply (Heq k).
  - replace (a + n) with (a + n - d2 + d2) in * by lia. replace (a + n - d2 + d2 - d2) with (a + n - d2) in * by lia.
    by eapply all_in_perm; [..|exact Hgt|exact Hp']; lia.
Qed.

Lemma three_way_sorted d1 d2 s :
  lawful -> three_way d1 d2 s -> sorted_in a d1 s -> sorted_in (a + n - d2) d2 s -> sorted_in a n s.
Proof.
  intros [Hsym Htr] (Hp & H1 & H2 & Hd & Hlt & Heq & Hgt) Hs1 Hs2 i j Hi Hij Hj x y Hx Hy.
  assert (Hvv : cmp v v = 0) by (pose proof (Hsym v v); lia).
  assert (Hle : forall k z, k < a + n - d2 -> a <= k -> znth s k = Some z -> cmp z v <= 0).
  { intros k z Hk Hk' Hz. destruct (decide (k < a + d1)).
    - assert (neg (cmp z v)) by (by apply (Hlt k)). unfold neg in *. lia.
    - destruct (Heq k z) as [?| ->]; [lia|done|lia|lia]. }
  assert (Hge : forall k z, a + d1 <= k -> k < a + n -> znth s k = Some z -> cmp v z <= 0).
  { intros k z Hk Hk' Hz. pose proof (Hsym v z). pose proof (Hsym z v). destruct (decide (k < a + n - d2)).
    - destruct (Heq k z) as [?| ->]; [lia|done|lia|lia].
    - assert (pos (cmp z v)) by (apply (Hgt k); [lia|done]). unfold pos in *. lia. }
  destruct (decide (j < a + d1)); [by apply (Hs1 i j); try lia|].
  destruct (decide (a + n - d2 <= i)); [by apply (Hs2 i j); try lia|].
  apply (Htr x v y); [apply (Hle i x); [lia|lia|done]|apply (Hge j y); [lia|lia|done]].
Qed.
End partition.

(** ** The whole sort *)

Lemma wp_part fuel (IH : forall a n s, n < Z.of_nat fuel -> 0 <= a -> 0 <= n -> a + n <= zlen s ->
    wp (qsort_loop fuel a n) s (fun _ s' => perm_in a n s s' /\ (lawful -> sorted_in a n s')) (fun _ _ => False)) a d s :
  d < Z.of_nat fuel -> 0 <= a -> 0 <= d -> a + d <= zlen s ->
  wp (if 1 <? d then qsort_loop fuel a d else mret tt) s
     (fun _ s' => perm_in a d s s' /\ (lawful -> sorted_in a d s')) (fun _ _ => False).
Proof.
  intros Hd Ha Hd0 Hl. destruct (Z.ltb_spec 1 d); [by apply IH|]. wp_step. split; [done|].
  intros _ i j. lia.
Qed.

Lemma wp_qsort_loop fuel : forall a n s, n < Z.of_nat fuel -> 0 <= a -> 0 <= n -> a + n <= zlen s ->
  wp (qsort_loop fuel a n) s (fun _ s' => perm_in a n s s' /\ (lawful -> sorted_in a n s')) (fun _ _ => False).
Proof.
  induction fuel as [|fuel IH]; intros a n s Hf Ha Hn Hl; [lia|]. cbn [qsort_loop].
  destruct (Z.ltb_spec n 7); [by apply wp_insertion_sort|].
  wp_step. eapply wp_conseq; [apply wp_choose_pivot; lia|]. intros pm ? [-> Hpm].
  wp_step. apply wp_swap; [lia|lia|]. intros s1 Hm.
  assert (Hp1 : perm_in a n s s1).
  { eapply moved_perm_in; [done|lia| |exact Hm]. intros k Hk. unfold tau. repeat case_match; lia. }
  pose proof Hm as (_ & Hl1 & _). destruct (znth_lt s1 a) as [v Hv]; [lia|].
  wp_step. eapply wp_conseq; [by apply (wp_partition a n s v Ha)|].
  intros [[[[pa pb] pc] pd] sc] s2 [Hi Hpc]. pose proof Hi as (Hp2 & _ & Hpa & Hpb & Hpd & _).
  pose proof (perm_in_len _ _ _ _ Hp2).
  destruct (sc =? 0).
  { eapply wp_conseq; [apply wp_insertion_sort; lia|]. intros [] s3 [Hp3 Hs3]. split; [|done].
    by eapply perm_in_trans. }
  cbv zeta. assert (Hassoc : forall (m1 m2 m3 : M (list A) unit) Q E, wp (m1;; m2) s2 (fun _ s' => wp m3 s' Q E) E ->
    wp (m1;; m2;; m3) s2 Q E).
  { intros m1 m2 m3 Q E Hw. wp_step. apply wp_bind_inv in Hw. eapply wp_conseq; [exact Hw|]. intros ? ? Hw'. by wp_step. }
  apply Hassoc. eapply wp_mono; [by apply (wp_blocks a n s v Ha ltac:(lia) ltac:(lia) pa pb pc pd)| |done].
  intros [] s3 H3. pose proof H3 as (Hp3 & Hd1 & Hd2 & Hd & _). pose proof (perm_in_len _ _ _ _ Hp3).
  assert (Hfin : forall s5, three_way a n s v (pb - pa) (pd - pc) s5 ->
    (lawful -> sorted_in a (pb - pa) s5) -> (lawful -> sorted_in (a + n - (pd - pc)) (pd - pc) s5) ->
    perm_in a n s s5 /\ (lawful -> sorted_in a n s5)).
  { intros s5 H5 Hso1 Hso2. split; [by destruct H5|]. intros Hlaw.
    eapply three_way_sorted; [done|exact H5|by apply Hso1|by apply Hso2]. }
  destruct (pb - pa <=? pd - pc).
  - wp_step. eapply wp_conseq; [apply (wp_part fuel IH); lia|]. intros [] s4 [Hp4 Hs4].
    assert (H4 : three_way a n s v (pb - pa) (pd - pc) s4) by (eapply three_way_left; [..|exact H3|exact Hp4]; lia).
    pose proof (perm_in_len _ _ _ _ Hp4).
    eapply wp_conseq; [apply (wp_part fuel IH); lia|]. intros [] s5 [Hp5 Hs5]. apply Hfin; [|intros Hlaw|done].
    + eapply three_way_right; [..|exact H4|exact Hp5]; lia.
    + intros i j Hi' Hij Hj x y. rewrite !(perm_in_out (a + n - (pd - pc)) (pd - pc) s4 s5) by (done || lia). by apply Hs4.
  - wp_step. eapply wp_conseq; [apply (wp_part fuel IH); lia|]. intros [] s4 [Hp4 Hs4].
    assert (H4 : three_way a n s v (pb - pa) (pd - pc) s4) by (eapply three_way_right; [..|exact H3|exact Hp4]; lia).
    pose proof (perm_in_len _ _ _ _ Hp4).
    eapply wp_conseq; [apply (wp_part fuel IH); lia|]. intros [] s5 [Hp5 Hs5]. apply Hfin; [|done|intros Hlaw].
    + eapply three_way_left; [..|exact H4|exact Hp5]; lia.
    + intros i j Hi' Hij Hj x y. rewrite !(perm_in_out a (pb - pa) s4 s5) by (done || lia). by apply Hs4.
Qed.
End qsort.

(** ** The properties *)

(** C39: The sort terminates, never leaves the array and only rearranges the
    [n] elements it was given, whatever the comparison function answers: the
    answers may contradict each other, the calls stay in bounds all the same
    and what lies behind the [n] elements is untouched. *)
Theorem qsort_permutes {A} (cmp : A -> A -> Z) n (s : list A) :
  0 <= n <= zlen s ->
  wp (qsort cmp n) s (fun _ s' => s' ≡ₚ s /\ zdrop n s' = zdrop n s) (fun _ _ => False).
Proof.
  intros Hn. eapply wp_conseq; [apply (wp_qsort_loop cmp _ 0 n); lia|]. by intros _ s' [(Hp & _ & Hd) _].
Qed.

(** A comparison that calls every element greater than every other. *)
Lemma qsort_permutes_witness :
  wp (qsort (fun _ _ => 1) 9) [5; 3; 9; 1; 4; 4; 8; 2; 7; 6]
     (fun _ s' => s' ≡ₚ [5; 3; 9; 1; 4; 4; 8; 2; 7; 6] /\ zdrop 9 s' = [6]) (fun _ _ => False).
Proof. apply (qsort_permutes (fun _ _ => 1) 9 [5; 3; 9; 1; 4; 4; 8; 2; 7; 6]). by vm_compute. Defined.

(** C17: With a comparison function that is a total preorder, the [n] elements
    end in ascending order: the insertion sort of short arrays, the partition
    into less, equal and greater with its two block exchanges, the recursion
    into the shorter part and the iteration over the longer one, and the early
    switch to the insertion sort included. *)
Theorem qsort_sorts {A} (cmp : A -> A -> Z) n (s : list A) :
  lawful cmp -> 0 <= n <= zlen s ->
  wp (qsort cmp n) s
     (fun _ s' => forall i j x y, 0 <= i -> i < j -> j < n -> znth s' i = Some x -> znth s' j = Some y ->
        cmp x y <= 0)
     (fun _ _ => False).
Proof.
  intros Hlaw Hn. eapply wp_conseq; [apply (wp_qsort_loop cmp _ 0 n); lia|].
  intros _ s' [_ Hs] i j x y Hi Hij Hj. by apply Hs.
Qed.

Lemma lawful_sub : lawful Z.sub.
Proof. split; lia. Qed.

Lemma qsort_sorts_witness :
  wp (qsort Z.sub 9) [5; 3; 9; 1; 4; 4; 8; 2; 7; 6]
     (fun _ s' => forall i j x y, 0 <= i -> i < j -> j < 9 -> znth s' i = Some x -> znth s' j = Some y -> x - y <= 0)
     (fun _ _ => False) /\
  snd (qsort Z.sub 9 [5; 3; 9; 1; 4; 4; 8; 2; 7; 6]) = [1; 2; 3; 4; 4; 5; 7; 8; 9; 6].
Proof.
  split; [|by vm_compute].
  apply (qsort_sorts Z.sub 9 [5; 3; 9; 1; 4; 4; 8; 2; 7; 6]); [apply lawful_sub|by vm_compute].
Defined.

(** More than forty elements: the pivot is a median of medians. *)
Example qsort_sample :
  let l := (fun k => Z.of_nat k * 37 mod 61) <$> seq 0 60 in
  snd (qsort Z.sub 60 l) = filter (fun v => v ∈ l) (seqZ 0 61).
Proof. by vm_compute. Qed.
