(* ===== verification/Tsearch.v ===== *)
(** * Binary search trees: [tsearch.c] and [tfind.c] of [upstream-openbsd/lib/libc/stdlib]

    The nodes are in a heap, a [node**] is a link: the caller's root pointer or
    one of the links of a node. The keys are values of any type [K], compared by
    a function of the caller. [malloc] gives the address of a block that is not
    in use, or NULL. A freed node leaves the heap, so a use of it is undefined. *)
From stdpp Require Import sorting.
From S2P Require Import Prelude.

(** ** Data *)

Record node (K : Type) : Type := Node { key : K; left : option Z; right : option Z }.
Arguments Node {K} _ _ _.
Arguments key {K} _.
Arguments left {K} _.
Arguments right {K} _.

Record forest (K : Type) : Type := Forest { root : option Z; nodes : gmap Z (node K) }.
Arguments Forest {K} _ _.
Arguments root {K} _.
Arguments nodes {K} _.

(** A [node**]. *)
Inductive link : Type :=
  | Rootp
  | Left_of (p : Z)
  | Right_of (p : Z).

Inductive VISIT : Type := preorder | postorder | endorder | leaf.

(** ** The code *)

Section code.
Context {K : Type} (compar : K -> K -> Z) (malloc : gmap Z (node K) -> option Z).

Definition node_at (p : Z) : M (forest K) (node K) :=
  f ← getS;
  match nodes f !! p with Some n => mret n | None => undef end.

Definition put_node (p : Z) (n : node K) : M (forest K) unit := updS (fun f => Forest (root f) (<[p := n]> (nodes f))).

(** The value of a link, [*rootp]. *)
Definition get_link (l : link) : M (forest K) (option Z) :=
  match l with
  | Rootp => f ← getS; mret (root f)
  | Left_of p => n ← node_at p; mret (left n)
  | Right_of p => n ← node_at p; mret (right n)
  end.

Definition set_link (l : link) (o : option Z) : M (forest K) unit :=
  match l with
  | Rootp => updS (fun f => Forest o (nodes f))
  | Left_of p => n ← node_at p; put_node p (Node (key n) o (right n))
  | Right_of p => n ← node_at p; put_node p (Node (key n) (left n) o)
  end.

(** A pointer that is dereferenced. *)
Definition pointer (o : option Z) : M (forest K) Z := match o with Some p => mret p | None => undef end.

Definition free_node (p : Z) : M (forest K) unit :=
  node_at p;; updS (fun f => Forest (root f) (delete p (nodes f))).

(** The loop of [tsearch] and [tfind]: the node with the key, or the link where it is missing. *)
Definition descend_step (k : K) (rootp : link) : M (forest K) (step link (Z + link)) :=
  o ← get_link rootp;
  match o with
  | None => mret (Done (inr rootp))
  | Some p =>
      n ← node_at p;
      let r := compar k (key n) in
      if r =? 0 then mret (Done (inl p))
      else mret (Next (if r <? 0 then Left_of p else Right_of p))
  end.

Definition tsearch (k : K) (vrootp : option link) : M (forest K) (option Z) :=
  match vrootp with
  | None => mret None
  | Some rootp =>
      f ← getS;
      found ← loop (S (size (nodes f))) (descend_step k) rootp;
      match found with
      | inl p => mret (Some p)
      | inr rootp =>
          f ← getS;
          match malloc (nodes f) with
          | None => mret None
          | Some q =>
              set_link rootp (Some q);;
              put_node q (Node k None None);;
              mret (Some q)
          end
      end
  end.

Definition tfind (k : K) (vrootp : option link) : M (forest K) (option Z) :=
  match vrootp with
  | None => mret None
  | Some rootp =>
      f ← getS;
      found ← loop (S (size (nodes f))) (descend_step k) rootp;
      mret (match found with inl p => Some p | inr _ => None end)
  end.

(** The loop of [tdelete]: the link to the node and its parent; [None] if there is no such node. *)
Definition locate_step (k : K) '((rootp, p) : link * Z) : M (forest K) (step (link * Z) (option (link * Z))) :=
  o ← get_link rootp;
  x ← pointer o;
  n ← node_at x;
  let cmp := compar k (key n) in
  if cmp =? 0 then mret (Done (Some (rootp, p))) else
  let rootp := if cmp <? 0 then Left_of x else Right_of x in
  o ← get_link rootp;
  match o with
  | None => mret (Done None)
  | Some _ => mret (Next (rootp, x))
  end.

(** [for (q = r->left; q->left != NULL; q = r->left) r = q;] *)
Definition leftmost_step '((q, r) : Z * Z) : M (forest K) (step (Z * Z) (Z * Z)) :=
  n ← node_at q;
  match left n with
  | None => mret (Done (q, r))
  | Some _ =>
      let r := q in
      o ← get_link (Left_of r);
      q ← pointer o;
      mret (Next (q, r))
  end.

(** D1 to D3: what takes the place of the node [x] when it is deleted. *)
Definition replacement (x : Z) : M (forest K) (option Z) :=
  n ← node_at x;
  match left n, right n with
  | None, r => mret r
  | Some q, None => mret (Some q)
  | Some q, Some r =>
      rn ← node_at r;
      match left rn with
      | None => set_link (Left_of r) (Some q);; mret (Some r)
      | Some q =>
          f ← getS;
          '(q, r) ← loop (S (size (nodes f))) leftmost_step (q, r);
          qn ← node_at q;
          set_link (Left_of r) (right qn);;
          n ← node_at x;
          set_link (Left_of q) (left n);;
          n ← node_at x;
          set_link (Right_of q) (right n);;
          mret (Some q)
      end
  end.

(** The parent of the deleted node, [(node * )1] for the root. *)
Definition tdelete (k : K) (vrootp : option link) : M (forest K) (option Z) :=
  match vrootp with
  | None => mret None
  | Some rootp =>
      o ← get_link rootp;
      match o with
      | None => mret None
      | Some _ =>
          f ← getS;
          found ← loop (S (size (nodes f))) (locate_step k) (rootp, 1);
          match found with
          | None => mret None
          | Some (rootp, p) =>
              o ← get_link rootp;
              x ← pointer o;
              q ← replacement x;
              o ← get_link rootp;
              x ← pointer o;
              free_node x;;
              set_link rootp q;;
              mret (Some p)
          end
      end
  end.

(** The state is the trees, which [action] does not change, and what it works on. *)
Context {U : Type} (action : Z -> VISIT -> Z -> M U unit).

Definition on_trees {A} (m : M (forest K) A) : M (forest K * U) A := zoom fst (fun f s => (f, s.2)) m.
Definition act (p : Z) (v : VISIT) (level : Z) : M (forest K * U) unit := zoom snd (fun u s => (s.1, u)) (action p v level).

Fixpoint trecurse (fuel : nat) (p : Z) (level : Z) : M (forest K * U) unit :=
  match fuel with
  | O => nofuel
  | S fuel =>
      n ← on_trees (node_at p);
      match left n, right n with
      | None, None => act p leaf level
      | l, r =>
          act p preorder level;;
          match l with Some l => trecurse fuel l (level + 1) | None => mret tt end;;
          act p postorder level;;
          match r with Some r => trecurse fuel r (level + 1) | None => mret tt end;;
          act p endorder level
      end
  end.

(** [action] is not NULL. *)
Definition twalk (vroot : option Z) : M (forest K * U) unit :=
  match vroot with
  | None => mret tt
  | Some p => f ← on_trees getS; trecurse (size (nodes f)) p 0
  end.
End code.

(** ** Trees *)

Inductive tree (K : Type) : Type :=
  | Leaf
  | Tree (l : tree K) (p : Z) (k : K) (r : tree K).
Arguments Leaf {K}.
Arguments Tree {K} _ _ _ _.

(** The nodes in the order of their keys. *)
Fixpoint inorder {K} (t : tree K) : list (Z * K) :=
  match t with
  | Leaf => []
  | Tree l p k r => inorder l ++ (p, k) :: inorder r
  end.

(** The tree at the pointer [o]. *)
Fixpoint rep {K} (h : gmap Z (node K)) (t : tree K) (o : option Z) : Prop :=
  match t with
  | Leaf => o = None
  | Tree l p k r => o = Some p /\ exists lo ro, h !! p = Some (Node k lo ro) /\ rep h l lo /\ rep h r ro
  end.

(** A tree with a hole: the path from the root to a link. *)
Inductive context (K : Type) : Type :=
  | Hole
  | In_left (c : context K) (p : Z) (k : K) (r : tree K)
  | In_right (c : context K) (l : tree K) (p : Z) (k : K).
Arguments Hole {K}.
Arguments In_left {K} _ _ _ _.
Arguments In_right {K} _ _ _ _.

Fixpoint fill {K} (c : context K) (t : tree K) : tree K :=
  match c with
  | Hole => t
  | In_left c p k r => fill c (Tree t p k r)
  | In_right c l p k => fill c (Tree l p k t)
  end.

(** What comes before and behind the hole. *)
Fixpoint before {K} (c : context K) : list (Z * K) :=
  match c with
  | Hole => []
  | In_left c _ _ _ => before c
  | In_right c l p k => before c ++ inorder l ++ [(p, k)]
  end.
Fixpoint behind {K} (c : context K) : list (Z * K) :=
  match c with
  | Hole => []
  | In_left c p k r => (p, k) :: inorder r ++ behind c
  | In_right c _ _ _ => behind c
  end.

(** The link with the hole, and the node it belongs to. *)
Definition link_of {K} (c : context K) (top : link) : link :=
  match c with
  | Hole => top
  | In_left _ p _ _ => Left_of p
  | In_right _ _ p _ => Right_of p
  end.
Definition parent_of {K} (c : context K) (top : Z) : Z :=
  match c with
  | Hole => top
  | In_left _ p _ _ => p
  | In_right _ _ p _ => p
  end.

(** The context in the heap, from the pointer [top] to the content [o] of the hole. *)
Fixpoint crep {K} (h : gmap Z (node K)) (c : context K) (top o : option Z) : Prop :=
  match c with
  | Hole => top = o
  | In_left c p k r => exists ro, h !! p = Some (Node k o ro) /\ rep h r ro /\ crep h c top (Some p)
  | In_right c l p k => exists lo, h !! p = Some (Node k lo o) /\ rep h l lo /\ crep h c top (Some p)
  end.

Section trees.
Context {K : Type}.
Implicit Types (h : gmap Z (node K)) (t : tree K) (c : context K).

Lemma inorder_fill c : forall t, inorder (fill c t) = before c ++ inorder t ++ behind c.
Proof.
  induction c as [|c IH p k r|c IH l p k]; intros t; cbn [fill before behind]; [by rewrite app_nil_r| |];
    rewrite IH; cbn [inorder]; by rewrite <- !app_assoc.
Qed.

Lemma rep_fill h c : forall t top o, crep h c top o -> rep h t o -> rep h (fill c t) top.
Proof.
  induction c as [|c IH p k r|c IH l p k]; intros t top o; cbn [crep fill]; [by intros ->| |];
    intros (x & Hp & Hx & Hc) Ht; (eapply IH; [exact Hc|]); cbn [rep]; (split; [done|]); [by exists o, x|by exists x, o].
Qed.

Lemma rep_fill_inv h c : forall t top, rep h (fill c t) top -> exists o, crep h c top o /\ rep h t o.
Proof.
  induction c as [|c IH p k r|c IH l p k]; intros t top; cbn [crep fill]; [by exists top| |]; intros (o & Hc & Ht)%IH;
    destruct Ht as (-> & lo & ro & Hp & Hl & Hr); [exists lo|exists ro]; (split; [|done]); [by exists ro|by exists lo].
Qed.

(** Nothing but the nodes of a tree matters to it. *)
Lemma rep_ext h h' t : forall o, (forall p, p ∈ (inorder t).*1 -> h' !! p = h !! p) -> rep h t o -> rep h' t o.
Proof.
  induction t as [|l IHl p k r IHr]; intros o Hh; cbn [rep]; [done|]. intros (-> & lo & ro & Hp & Hl & Hr). split; [done|].
  cbn [inorder] in Hh. rewrite fmap_app, fmap_cons in Hh. exists lo, ro.
  split_and!; [rewrite Hh; [done|set_solver]|apply IHl; [|done]|apply IHr; [|done]]; intros q Hq; apply Hh; set_solver.
Qed.

Lemma crep_ext h h' c : forall top o, (forall p, p ∈ (before c ++ behind c).*1 -> h' !! p = h !! p) -> crep h c top o -> crep h' c top o.
Proof.
  induction c as [|c IH p k r|c IH l p k]; intros top o Hh; cbn [crep]; [done| |]; intros (x & Hp & Hx & Hc);
    cbn [before behind] in Hh; rewrite ?fmap_app, ?fmap_cons, ?fmap_app in Hh; exists x;
    (split_and!; [rewrite Hh; [done|set_solver]|eapply rep_ext; [|done]|apply IH; [|done]]);
    intros q Hq; apply Hh; rewrite ?fmap_app in Hq; set_solver.
Qed.

(** The content of the hole is the content of its link. *)
Lemma crep_link h c top o : crep h c top o ->
  match c with
  | Hole => o = top
  | In_left _ p k _ => exists ro, h !! p = Some (Node k o ro)
  | In_right _ _ p k => exists lo, h !! p = Some (Node k lo o)
  end.
Proof. destruct c; cbn [crep]; [done| |]; intros (x & ? & _); by exists x. Qed.

(** The heap and the top pointer after the link of the hole is set. *)
Definition set_in h c (v : option Z) : gmap Z (node K) :=
  match link_of c Rootp with
  | Rootp => h
  | Left_of p => match h !! p with Some n => <[p := Node (key n) v (right n)]> h | None => h end
  | Right_of p => match h !! p with Some n => <[p := Node (key n) (left n) v]> h | None => h end
  end.
Definition top_in c (top v : option Z) : option Z := match c with Hole => v | _ => top end.

Lemma set_in_other h c v q : q ∉ (before c ++ behind c).*1 -> set_in h c v !! q = h !! q.
Proof.
  unfold set_in. destruct c as [|c p k r|c l p k]; cbn [link_of before behind]; [done| |]; rewrite !fmap_app; cbn [fmap list_fmap fst]; intros Hq;
    (destruct (h !! p); [|done]); apply lookup_insert_ne; set_solver.
Qed.

Lemma set_in_dom h c v q : is_Some (set_in h c v !! q) <-> is_Some (h !! q).
Proof.
  unfold set_in. destruct (link_of c Rootp) as [|p|p]; [done| |]; (destruct (h !! p) as [n|] eqn:Hp; [|done]);
    (destruct (decide (p = q)) as [->|]; [rewrite lookup_insert_eq, Hp; by split; eauto|by rewrite lookup_insert_ne]).
Qed.

Lemma crep_set_in h c top o v : NoDup (before c ++ behind c).*1 -> crep h c top o -> crep (set_in h c v) c (top_in c top v) v.
Proof.
  unfold set_in. destruct c as [|c p k r|c l p k]; cbn [crep link_of top_in before behind]; [done| |]; intros Hnd (x & Hp & Hx & Hc); rewrite Hp;
    cbn [key left right]; exists x; rewrite !fmap_app in Hnd; cbn [fmap list_fmap fst] in Hnd; rewrite ?fmap_app in Hnd; (split_and!; [by rewrite lookup_insert_eq| |]).
  - eapply rep_ext; [|exact Hx]. intros q Hq. apply lookup_insert_ne. apply NoDup_app in Hnd as (_ & _ & [Hn _]%NoDup_cons). set_solver.
  - eapply crep_ext; [|exact Hc]. rewrite fmap_app. intros q Hq. apply lookup_insert_ne.
    apply NoDup_app in Hnd as (_ & Hd & [Hn _]%NoDup_cons). set_solver.
  - eapply rep_ext; [|exact Hx]. intros q Hq. apply lookup_insert_ne.
    apply NoDup_app in Hnd as (Hnd & _ & _). rewrite app_assoc in Hnd. apply NoDup_app in Hnd as (_ & Hd & _). set_solver.
  - eapply crep_ext; [|exact Hc]. rewrite fmap_app. intros q Hq. apply lookup_insert_ne.
    apply NoDup_app in Hnd as (Hnd & Hb & _). rewrite app_assoc in Hnd. apply NoDup_app in Hnd as (_ & Hd & _). set_solver.
Qed.

(** ** Access *)

Lemma wp_node_at f p n (Q : node K -> forest K -> Prop) E : nodes f !! p = Some n -> Q n f -> wp (node_at p) f Q E.
Proof. intros Hp HQ. unfold node_at. wp_step. apply wp_getS. rewrite Hp. by wp_step. Qed.

Lemma wp_get_link f c o (Q : option Z -> forest K -> Prop) E :
  crep (nodes f) c (root f) o -> Q o f -> wp (get_link (link_of c Rootp)) f Q E.
Proof.
  intros Hc%crep_link HQ. destruct c; cbn [link_of get_link].
  - wp_step. apply wp_getS. wp_step. by subst.
  - destruct Hc as [ro Hp]. wp_step. eapply wp_node_at; [exact Hp|]. by wp_step.
  - destruct Hc as [lo Hp]. wp_step. eapply wp_node_at; [exact Hp|]. by wp_step.
Qed.

(** Setting the link of a context that starts at [top], which is the caller's pointer if the hole is there. *)
Lemma wp_set_link f c top o v (Q : unit -> forest K -> Prop) E :
  crep (nodes f) c top o -> (c = Hole -> top = root f) ->
  Q tt (Forest (top_in c (root f) v) (set_in (nodes f) c v)) -> wp (set_link (link_of c Rootp) v) f Q E.
Proof.
  intros Hc%crep_link Ht HQ. destruct f as [rt h], c; cbn [link_of set_link root nodes top_in] in *.
  - by apply wp_updS.
  - destruct Hc as [ro Hp]. wp_step. eapply wp_node_at; [exact Hp|]. unfold put_node. apply wp_updS. unfold set_in in HQ. cbn [link_of] in HQ. by rewrite Hp in HQ.
  - destruct Hc as [lo Hp]. wp_step. eapply wp_node_at; [exact Hp|]. unfold put_node. apply wp_updS. unfold set_in in HQ. cbn [link_of] in HQ. by rewrite Hp in HQ.
Qed.
End trees.

(** ** Search trees *)

Section order.
Context {K : Type} (compar : K -> K -> Z).

(** What is asked of a comparison function. *)
Definition comparison : Prop :=
  (forall x y, 0 < compar x y <-> compar y x < 0) /\
  (forall x y z, compar x y <= 0 -> compar y z <= 0 -> compar x z <= 0).

Definition less (x y : Z * K) : Prop := compar x.2 y.2 < 0.

(** The key comes after, or before, all of these. *)
Definition below (k : K) (l : list (Z * K)) : Prop := Forall (fun x => compar x.2 k < 0) l.
Definition above (k : K) (l : list (Z * K)) : Prop := Forall (fun x => compar k x.2 < 0) l.

(** The forest is the tree [t]: it has its nodes and no others, and they are in order. *)
Record is_tree (f : forest K) (t : tree K) : Prop := IsTree {
  it_rep : rep (nodes f) t (root f);
  it_nodup : NoDup (inorder t).*1;
  it_nodes : forall p, is_Some (nodes f !! p) <-> p ∈ (inorder t).*1;
  it_ordered : StronglySorted less (inorder t) }.

(** The forest holds these nodes, in the order of their keys. *)
Definition holds (f : forest K) (l : list (Z * K)) : Prop := exists t, is_tree f t /\ inorder t = l.

Context (Hcmp : comparison).

Lemma compare_trans x y z : compar x y < 0 -> compar y z < 0 -> compar x z < 0.
Proof.
  destruct Hcmp as [Ha Ht]. intros Hxy Hyz. destruct (Z.lt_ge_cases (compar x z) 0) as [|Hge]; [done|].
  assert (Hzx : compar z x <= 0) by (pose proof (Ha z x); lia). pose proof (Ht y z x ltac:(lia) Hzx). apply Ha in Hxy. lia.
Qed.

Lemma compare_eq_l x y z : compar x y = 0 -> compar y z < 0 -> compar x z < 0.
Proof.
  destruct Hcmp as [Ha Ht]. intros Hxy Hyz. destruct (Z.lt_ge_cases (compar x z) 0) as [|Hge]; [done|].
  assert (Hzx : compar z x <= 0) by (pose proof (Ha z x); lia). pose proof (Ht z x y Hzx ltac:(lia)). apply Ha in Hyz. lia.
Qed.

Lemma compare_eq_r x y z : compar x y < 0 -> compar y z = 0 -> compar x z < 0.
Proof.
  destruct Hcmp as [Ha Ht]. intros Hxy Hyz. destruct (Z.lt_ge_cases (compar x z) 0) as [|Hge]; [done|].
  assert (Hzx : compar z x <= 0) by (pose proof (Ha z x); lia). pose proof (Ht y z x ltac:(lia) Hzx). apply Ha in Hxy. lia.
Qed.

Lemma compare_eq_sym x y : compar x y = 0 -> compar y x = 0.
Proof. destruct Hcmp as [Ha _]. pose proof (Ha x y). pose proof (Ha y x). lia. Qed.

Lemma above_less k p k' l : compar k k' < 0 -> Forall (less (p, k')) l -> above k l.
Proof. intros Hk Hl. eapply Forall_impl; [exact Hl|]. intros x Hx. by eapply compare_trans. Qed.

Lemma below_less k p k' l : compar k' k < 0 -> Forall (fun x => less x (p, k')) l -> below k l.
Proof. intros Hk Hl. eapply Forall_impl; [exact Hl|]. intros x Hx. exact (compare_trans _ _ _ Hx Hk). Qed.

(** In a sorted list everything before an element is less, everything behind it is greater. *)
Lemma sorted_middle l1 (x : Z * K) l2 : StronglySorted less (l1 ++ x :: l2) -> Forall (fun y => less y x) l1 /\ Forall (less x) l2.
Proof.
  intros (Hlt & _ & Hs)%StronglySorted_app. apply StronglySorted_cons in Hs as [Hx _]. split; [|done].
  rewrite Forall_forall. intros y Hy. apply Hlt; [done|by left].
Qed.

(** A key between [l1] and [l2] is not in the list. *)
Lemma between_missing k l1 l2 : below k l1 -> above k l2 -> forall p k', (p, k') ∈ l1 ++ l2 -> compar k k' <> 0.
Proof.
  intros Hb Ha p k' [Hin|Hin]%elem_of_app; [pose proof (proj1 (Forall_forall _ _) Hb _ Hin) as H|pose proof (proj1 (Forall_forall _ _) Ha _ Hin) as H];
    cbn [snd] in H; [|lia]. intros H0%compare_eq_sym. lia.
Qed.

(** ** Descending *)

Lemma tree_size f t : is_tree f t -> (length (inorder t) = size (nodes f))%nat.
Proof.
  intros [_ Hnd Hn _]. rewrite <- size_dom. rewrite <- (length_fmap fst), <- (size_list_to_set (C := gset Z)) by done.
  f_equal. apply leibniz_equiv. intros p. rewrite elem_of_list_to_set, elem_of_dom. by rewrite Hn.
Qed.

(** Going left or right from a node. *)
Lemma descend_left c l p k' r k :
  StronglySorted less (inorder (fill c (Tree l p k' r))) -> above k (behind c) -> compar k k' < 0 -> above k (behind (In_left c p k' r)).
Proof.
  rewrite inorder_fill. cbn [inorder behind]. intros Hs Hb Hk. rewrite <- !app_assoc in Hs. cbn [app] in Hs. rewrite app_assoc in Hs.
  destruct (sorted_middle _ _ _ Hs) as [_ Hr]. apply Forall_app in Hr as [Hr _]. constructor; [done|]. apply Forall_app. split; [|done].
  by eapply above_less.
Qed.

Lemma descend_right c l p k' r k :
  StronglySorted less (inorder (fill c (Tree l p k' r))) -> below k (before c) -> 0 < compar k k' -> below k (before (In_right c l p k')).
Proof.
  rewrite inorder_fill. cbn [inorder before]. intros Hs Hb Hk%Hcmp. rewrite <- !app_assoc in Hs. cbn [app] in Hs. rewrite app_assoc in Hs.
  destruct (sorted_middle _ _ _ Hs) as [Hl _]. apply Forall_app in Hl as [_ Hl]. unfold below. rewrite !Forall_app. split_and!; [done| |by constructor].
  by eapply below_less.
Qed.

Lemma wp_descend k f : forall t fuel c o (Q : Z + link -> forest K -> Prop) E,
  crep (nodes f) c (root f) o -> rep (nodes f) t o -> (length (inorder t) < fuel)%nat ->
  StronglySorted less (inorder (fill c t)) -> below k (before c) -> above k (behind c) ->
  (forall l1 p k' l2, inorder (fill c t) = l1 ++ (p, k') :: l2 -> compar k k' = 0 -> Q (inl p) f) ->
  (forall c', fill c t = fill c' Leaf -> crep (nodes f) c' (root f) None -> below k (before c') -> above k (behind c') -> Q (inr (link_of c' Rootp)) f) ->
  wp (loop fuel (descend_step compar k) (link_of c Rootp)) f Q E.
Proof.
  induction t as [|l IHl p k' r IHr]; intros fuel c o Q E Hc Ht Hf Hs Hb Ha HF HM; (destruct fuel as [|fuel]; [lia|]); apply wp_loop_S;
    unfold descend_step; wp_step; (eapply wp_get_link; [exact Hc|]).
  - cbn in Ht. subst o. wp_step. by apply (HM c).
  - destruct Ht as (-> & lo & ro & Hp & Hl & Hr). wp_step. eapply wp_node_at; [exact Hp|]. cbn [key].
    cbn [inorder] in Hf. rewrite length_app in Hf. cbn [length] in Hf. pose proof (descend_left c l p k' r k Hs Ha) as HL. pose proof (descend_right c l p k' r k Hs Hb) as HR.
    destruct (Z.eqb_spec (compar k k') 0) as [H0|Hne]; wp_step; [|destruct (Z.ltb_spec (compar k k') 0) as [Hlt|Hge]].
    + eapply (HF (before c ++ inorder l) p k' (inorder r ++ behind c)); [|done]. rewrite inorder_fill. cbn [inorder]. by rewrite <- !app_assoc.
    + apply (IHl fuel (In_left c p k' r) lo); [by exists ro|done|lia|done|done|by apply HL|done|done].
    + apply (IHr fuel (In_right c l p k') ro); [by exists lo|done|lia|done|by apply HR; lia|done|done|done].
Qed.

(** ** Inserting *)

Lemma sorted_insert k q l1 l2 :
  StronglySorted less (l1 ++ l2) -> below k l1 -> above k l2 -> StronglySorted less (l1 ++ (q, k) :: l2).
Proof.
  intros (Hlt & H1 & H2)%StronglySorted_app Hb Ha. unfold below, above in *. rewrite Forall_forall in Hb. apply StronglySorted_app. split_and!; [|done|].
  - intros x y Hx [->|Hy]%elem_of_cons; [by apply Hb|by apply Hlt].
  - apply StronglySorted_cons. split; [|done]. eapply Forall_impl; [exact Ha|done].
Qed.

Lemma insert_tree f c q k :
  is_tree f (fill c Leaf) -> crep (nodes f) c (root f) None -> nodes f !! q = None -> below k (before c) -> above k (behind c) ->
  is_tree (Forest (top_in c (root f) (Some q)) (<[q := Node k None None]> (set_in (nodes f) c (Some q)))) (fill c (Tree Leaf q k Leaf)).
Proof.
  intros [_ Hnd Hn Hs] Hc Hq Hb Ha. rewrite inorder_fill in *. cbn [inorder app] in *.
  assert (Hq' : q ∉ (before c ++ behind c).*1) by (rewrite <- Hn, Hq; by intros [? ?]).
  constructor; cbn [root nodes]; rewrite ?inorder_fill; cbn [inorder app].
  - eapply rep_fill; [eapply crep_ext; [|by eapply crep_set_in]|cbn [rep]].
    + intros p Hp. apply lookup_insert_ne. by intros ->.
    + split; [done|]. exists None, None. by rewrite lookup_insert_eq.
  - rewrite ?fmap_app, ?fmap_cons in *. cbn [fst]. apply NoDup_app in Hnd as (? & ? & ?).
    apply NoDup_app. split_and!; [done|set_solver|]. apply NoDup_cons. set_solver.
  - intros p. rewrite fmap_app, fmap_cons. cbn [fst]. destruct (decide (p = q)) as [->|Hne].
    + rewrite lookup_insert_eq. split; [set_solver|by eauto].
    + rewrite lookup_insert_ne, set_in_dom, Hn, fmap_app by done. set_solver.
  - by apply sorted_insert.
Qed.

Section memory.
Context (malloc : gmap Z (node K) -> option Z) (malloc_free : forall h q, malloc h = Some q -> h !! q = None).

(** What [tsearch] does to a forest that holds [l]: the node with an equal key, or a new one in its place, if there is memory. *)
Definition searched (k : K) (f : forest K) (l : list (Z * K)) (r : option Z) (f' : forest K) : Prop :=
  (exists l1 p k' l2, l = l1 ++ (p, k') :: l2 /\ compar k k' = 0 /\ r = Some p /\ f' = f) \/
  ((forall p k', (p, k') ∈ l -> compar k k' <> 0) /\
   match malloc (nodes f) with
   | None => r = None /\ f' = f
   | Some q => r = Some q /\ exists l1 l2, l = l1 ++ l2 /\ below k l1 /\ above k l2 /\ holds f' (l1 ++ (q, k) :: l2)
   end).

Lemma wp_tsearch k f l (Q : option Z -> forest K -> Prop) E :
  holds f l -> (forall r f', searched k f l r f' -> Q r f') -> wp (tsearch compar malloc k (Some Rootp)) f Q E.
Proof.
  intros (t & Ht & <-) HQ. pose proof (tree_size _ _ Ht) as Hsz. unfold tsearch. wp_step. apply wp_getS. wp_step.
  eapply (wp_descend k f t _ Hole (root f)); [done|exact (it_rep _ _ Ht)|lia|exact (it_ordered _ _ Ht)|by constructor|by constructor| |].
  - intros l1 p k' l2 Hin H0. wp_step. apply HQ. left. by exists l1, p, k', l2.
  - intros c Hfill Hc Hb Ha. cbn [fill] in Hfill. wp_step. apply wp_getS. subst t.
    assert (Hl : inorder (fill c Leaf) = before c ++ behind c) by by rewrite inorder_fill.
    assert (Hmiss : forall p k', (p, k') ∈ inorder (fill c Leaf) -> compar k k' <> 0) by (rewrite Hl; by apply between_missing).
    destruct (malloc (nodes f)) as [q|] eqn:Hm.
    + wp_step. eapply wp_set_link; [exact Hc|done|]. wp_step. apply wp_updS. wp_step. apply HQ. right. split; [done|]. rewrite Hm. split; [done|].
      exists (before c), (behind c). split_and!; [done|done|done|]. eexists. split; [by apply insert_tree; [..|by apply malloc_free| |]|].
      by rewrite inorder_fill.
    + wp_step. apply HQ. right. split; [done|]. by rewrite Hm.
Qed.
End memory.

Lemma wp_tfind k f l (Q : option Z -> forest K -> Prop) E :
  holds f l ->
  (forall r, (exists l1 p k' l2, l = l1 ++ (p, k') :: l2 /\ compar k k' = 0 /\ r = Some p) \/
             ((forall p k', (p, k') ∈ l -> compar k k' <> 0) /\ r = None) -> Q r f) ->
  wp (tfind compar k (Some Rootp)) f Q E.
Proof.
  intros (t & Ht & <-) HQ. pose proof (tree_size _ _ Ht) as Hsz. unfold tfind. wp_step. apply wp_getS. wp_step.
  eapply (wp_descend k f t _ Hole (root f)); [done|exact (it_rep _ _ Ht)|lia|exact (it_ordered _ _ Ht)|by constructor|by constructor| |].
  - intros l1 p k' l2 Hin H0. wp_step. apply HQ. left. by exists l1, p, k', l2.
  - intros c Hfill Hc Hb Ha. cbn [fill] in Hfill. wp_step. apply HQ. right. split; [|done]. rewrite Hfill, inorder_fill. by apply between_missing.
Qed.

(** ** Deleting *)

Lemma wp_locate k f : forall t fuel c o (Q : option (link * Z) -> forest K -> Prop) E,
  t <> Leaf -> crep (nodes f) c (root f) o -> rep (nodes f) t o -> (length (inorder t) < fuel)%nat ->
  StronglySorted less (inorder (fill c t)) -> below k (before c) -> above k (behind c) ->
  (forall c' l p k' r, fill c t = fill c' (Tree l p k' r) -> crep (nodes f) c' (root f) (Some p) -> compar k k' = 0 ->
     Q (Some (link_of c' Rootp, parent_of c' 1)) f) ->
  (forall c', fill c t = fill c' Leaf -> below k (before c') -> above k (behind c') -> Q None f) ->
  wp (loop fuel (locate_step compar k) (link_of c Rootp, parent_of c 1)) f Q E.
Proof.
  induction t as [|l IHl p k' r IHr]; intros fuel c o Q E Hne Hc Ht Hf Hs Hb Ha HF HM; [done|]. destruct fuel as [|fuel]; [lia|].
  destruct Ht as (-> & lo & ro & Hp & Hl & Hr). apply wp_loop_S. unfold locate_step. wp_step. eapply wp_get_link; [exact Hc|].
  wp_step. cbn [pointer]. wp_step. wp_step. eapply wp_node_at; [exact Hp|]. cbn [key].
  cbn [inorder] in Hf. rewrite length_app in Hf. cbn [length] in Hf.
  pose proof (descend_left c l p k' r k Hs Ha) as HL. pose proof (descend_right c l p k' r k Hs Hb) as HR.
  destruct (Z.eqb_spec (compar k k') 0) as [H0|Hk]; [wp_step; by apply (HF c l p k' r)|].
  destruct (Z.ltb_spec (compar k k') 0) as [Hlt|Hge].
  - assert (Hcl : crep (nodes f) (In_left c p k' r) (root f) lo) by (by exists ro). wp_step.
    change (Left_of p) with (link_of (In_left c p k' r) Rootp). eapply wp_get_link; [exact Hcl|]. destruct l as [|l1 p1 k1 l2].
    + cbn in Hl. subst lo. wp_step. apply (HM (In_left c p k' r)); [done|done|by apply HL].
    + destruct Hl as (-> & Hl). wp_step. apply (IHl fuel (In_left c p k' r) (Some p1)); [done|exact Hcl|done|lia|done|done|by apply HL|done|done].
  - assert (Hcr : crep (nodes f) (In_right c l p k') (root f) ro) by (by exists lo). wp_step.
    change (Right_of p) with (link_of (In_right c l p k') Rootp). eapply wp_get_link; [exact Hcr|]. destruct r as [|r1 p1 k1 r2].
    + cbn in Hr. subst ro. wp_step. apply (HM (In_right c l p k')); [done|by apply HR; lia|done].
    + destruct Hr as (-> & Hr). wp_step. apply (IHr fuel (In_right c l p k') (Some p1)); [done|exact Hcr|done|lia|done|by apply HR; lia|done|done|done].
Qed.

(** The first node of a tree: on the way to it nothing is before the hole. *)
Lemma wp_leftmost f top : forall a fuel c q kq b r (Q : Z * Z -> forest K -> Prop) E,
  crep (nodes f) c top (Some q) -> link_of c Rootp = Left_of r -> before c = [] -> rep (nodes f) (Tree a q kq b) (Some q) ->
  (length (inorder a) < fuel)%nat ->
  (forall c' q' kq' b' r', fill c (Tree a q kq b) = fill c' (Tree Leaf q' kq' b') -> crep (nodes f) c' top (Some q') ->
     link_of c' Rootp = Left_of r' -> before c' = [] -> rep (nodes f) (Tree Leaf q' kq' b') (Some q') -> Q (q', r') f) ->
  wp (loop fuel leftmost_step (q, r)) f Q E.
Proof.
  induction a as [|a1 IH p1 k1 a2 _]; intros fuel c q kq b r Q E Hc Hlk Hb Ht Hf HQ; (destruct fuel as [|fuel]; [lia|]);
    pose proof Ht as (_ & lo & ro & Hq & Hl & Hr); apply wp_loop_S; unfold leftmost_step; wp_step; (eapply wp_node_at; [exact Hq|]); cbn [left].
  - cbn in Hl. subst lo. wp_step. by eapply HQ.
  - pose proof Hl as (-> & _). assert (Hcl : crep (nodes f) (In_left c q kq b) top (Some p1)) by (by exists ro).
    wp_step. cbn [get_link]. wp_step. eapply wp_node_at; [exact Hq|]. wp_step. cbn [left pointer]. wp_step. wp_step. wp_step.
    cbn [inorder] in Hf. rewrite length_app in Hf. cbn [length] in Hf.
    apply (IH fuel (In_left c q kq b) p1 k1 a2 q); [exact Hcl|done|done|exact Hl|lia|exact HQ].
Qed.

(** D3 on the heap: the first node [q] of the right subtree leaves its place to its right subtree and takes that of the deleted node. *)
Lemma successor_tree (h : gmap Z (node K)) (c : context K) l lo top q kq b qro :
  crep h c top (Some q) -> before c = [] -> c <> Hole -> h !! q = Some (Node kq None qro) -> rep h b qro -> rep h l lo ->
  NoDup (inorder l ++ (q, kq) :: inorder b ++ behind c).*1 ->
  let h' := <[q := Node kq lo top]> (set_in h c qro) in
  rep h' (Tree l q kq (fill c b)) (Some q) /\ inorder (Tree l q kq (fill c b)) = inorder l ++ (q, kq) :: inorder b ++ behind c /\
  (forall p, p ∉ (inorder l ++ (q, kq) :: inorder b ++ behind c).*1 -> h' !! p = h !! p) /\ (forall p, is_Some (h' !! p) <-> is_Some (h !! p)).
Proof.
  intros Hc Hb Hne Hq Hbq Hl Hnd h'. rewrite fmap_app, fmap_cons, fmap_app in Hnd. cbn [fst] in Hnd.
  apply NoDup_app in Hnd as (Hndl & Hlr & [Hqn Hndb]%NoDup_cons). apply NoDup_app in Hndb as (Hndb & Hbc & Hndc).
  assert (Ho : forall p, p ∉ (behind c).*1 -> set_in h c qro !! p = h !! p) by (intros p Hp; apply set_in_other; by rewrite Hb).
  assert (Hlq : forall p, p ∈ (inorder l).*1 -> q <> p /\ p ∉ (behind c).*1) by (intros p Hp; specialize (Hlr p Hp); set_solver).
  assert (Hsub : inorder (fill c b) = inorder b ++ behind c) by (by rewrite inorder_fill, Hb).
  split_and!.
  - split; [done|]. exists lo, top. unfold h'. rewrite lookup_insert_eq. split_and!; [done| |].
    + eapply rep_ext; [|exact Hl]. intros p [Hpq Hpc]%Hlq. by rewrite lookup_insert_ne, Ho.
    + apply (rep_ext (set_in h c qro)).
      * intros p Hp. apply lookup_insert_ne. intros <-. rewrite Hsub, fmap_app in Hp. done.
      * eapply rep_fill; [|eapply rep_ext; [|exact Hbq]; intros p Hp; by apply Ho, Hbc].
        pose proof (crep_set_in h c top (Some q) qro ltac:(by rewrite Hb) Hc) as Hc1. by destruct c.
  - cbn [inorder]. by rewrite Hsub.
  - intros p Hp. rewrite fmap_app, fmap_cons, fmap_app in Hp. cbn [fst] in Hp. unfold h'. rewrite lookup_insert_ne, Ho by set_solver. done.
  - intros p. unfold h'. destruct (decide (q = p)) as [<-|Hqp]; [rewrite lookup_insert_eq, Hq; by split; eauto|].
    rewrite lookup_insert_ne by done. apply set_in_dom.
Qed.

(** The assignments of D3. *)
Lemma wp_successor rt (h : gmap Z (node K)) (c : context K) x k' lo ro q kq qro r (Q : option Z -> forest K -> Prop) E :
  crep h c ro (Some q) -> link_of c Rootp = Left_of r -> h !! q = Some (Node kq None qro) -> h !! x = Some (Node k' lo ro) -> x <> q ->
  x ∉ (before c ++ behind c).*1 -> q ∉ (before c ++ behind c).*1 ->
  Q (Some q) (Forest rt (<[q := Node kq lo ro]> (set_in h c qro))) ->
  wp (qn ← node_at q; set_link (Left_of r) (right qn);; n ← node_at x; set_link (Left_of q) (left n);;
      n ← node_at x; set_link (Right_of q) (right n);; mret (Some q)) (Forest rt h) Q E.
Proof.
  intros Hc Hlk Hq Hx Hxq Hxc Hqc HQ. set (h1 := set_in h c qro) in *. assert (Htop : top_in c rt qro = rt) by (by destruct c).
  assert (Hx1 : h1 !! x = Some (Node k' lo ro)) by (unfold h1; by rewrite set_in_other).
  assert (Hq1 : h1 !! q = Some (Node kq None qro)) by (unfold h1; by rewrite set_in_other).
  wp_step. eapply wp_node_at; [exact Hq|]. cbn [right]. wp_step. rewrite <- Hlk.
  eapply (wp_set_link (Forest rt h) c ro); [exact Hc|by intros ->|]. cbn [nodes root]. fold h1. rewrite Htop.
  wp_step. eapply wp_node_at; [exact Hx1|]. cbn [left set_link]. wp_step. wp_step. eapply wp_node_at; [exact Hq1|]. unfold put_node. apply wp_updS.
  cbn [key right root nodes]. wp_step. eapply wp_node_at; [cbn [nodes]; rewrite lookup_insert_ne by done; exact Hx1|]. cbn [right].
  wp_step. wp_step. eapply wp_node_at; [apply lookup_insert_eq|]. apply wp_updS. cbn [key left root nodes]. rewrite insert_insert_eq. by wp_step.
Qed.

(** What takes the place of the node: the tree [u] of the nodes below it, in a heap that differs only there. *)
Lemma wp_replacement f x k' l r lo ro (Q : option Z -> forest K -> Prop) E :
  nodes f !! x = Some (Node k' lo ro) -> rep (nodes f) l lo -> rep (nodes f) r ro -> NoDup (inorder (Tree l x k' r)).*1 ->
  (length (inorder r) <= size (nodes f))%nat ->
  (forall h' u q, rep h' u q -> inorder u = inorder l ++ inorder r ->
     (forall p, p ∉ (inorder l ++ inorder r).*1 -> h' !! p = nodes f !! p) -> (forall p, is_Some (h' !! p) <-> is_Some (nodes f !! p)) ->
     Q q (Forest (root f) h')) ->
  wp (replacement x) f Q E.
Proof.
  intros Hx Hl Hr Hnd Hsz HQ. destruct f as [rt h]. cbn [nodes root] in *. unfold replacement. wp_step. eapply wp_node_at; [exact Hx|]. cbn [left right].
  destruct l as [|l1 lp lk l2]; [cbn in Hl; subst lo; wp_step; by apply (HQ h r ro)|]. pose proof Hl as (-> & _). set (l := Tree l1 lp lk l2) in *.
  destruct r as [|r1 rp rk r2]; [cbn in Hr; subst ro; wp_step; apply (HQ h l (Some lp)); [done|by rewrite app_nil_r|done|done]|].
  pose proof Hr as (-> & rlo & rro & Hrp & Hr1 & Hr2). wp_step. eapply wp_node_at; [exact Hrp|]. cbn [left].
  change (inorder (Tree ?l x k' ?r)) with (inorder l ++ (x, k') :: inorder r) in Hnd.
  assert (Hp : inorder l ++ (x, k') :: inorder (Tree r1 rp rk r2) ≡ₚ (x, k') :: inorder l ++ inorder (Tree r1 rp rk r2)) by solve_Permutation.
  rewrite Hp, fmap_cons in Hnd. apply NoDup_cons in Hnd as [Hxn Hnd]. cbn [fst] in Hxn. clear Hp.
  destruct r1 as [|a qk0 kq0 b0].
  - cbn in Hr1. subst rlo. set (c := In_left Hole rp rk r2). assert (Hc : crep h c (Some rp) None) by (by exists rro).
    assert (Hbc : before c ++ behind c = inorder (Tree Leaf rp rk r2)) by (cbn [before behind c inorder app]; by rewrite app_nil_r).
    rewrite fmap_app in Hnd. apply NoDup_app in Hnd as (Hndl & Hlr & Hndr).
    wp_step. change (Left_of rp) with (link_of c Rootp). eapply (wp_set_link (Forest rt h) c (Some rp)); [exact Hc|done|].
    wp_step. apply (HQ (set_in h c (Some lp)) (Tree l rp rk r2) (Some rp)); [|done| |intros p; apply set_in_dom].
    + apply (rep_fill _ c l (Some rp) (Some lp)); [apply (crep_set_in h c (Some rp) None); [by rewrite Hbc|exact Hc]|].
      eapply rep_ext; [|exact Hl]. intros p Hp. apply set_in_other. rewrite Hbc. by apply Hlr.
    + intros p Hp. apply set_in_other. rewrite Hbc. rewrite fmap_app in Hp. intros Hin. apply Hp. apply elem_of_app. by right.
  - pose proof Hr1 as (-> & _). wp_step. apply wp_getS. wp_step. cbn [nodes].
    eapply (wp_leftmost (Forest rt h) (Some rp) a _ (In_left Hole rp rk r2)); [by exists rro|done|done|exact Hr1|
      cbn [inorder] in Hsz; rewrite !length_app in Hsz; cbn [length] in Hsz; lia|].
    intros c q kq b r' Hfill Hc Hlk Hb (_ & qlo & qro & Hq & -> & Hbq). cbn [fill] in Hfill. cbn [nodes] in *.
    assert (Hin : inorder (Tree (Tree a qk0 kq0 b0) rp rk r2) = (q, kq) :: inorder b ++ behind c) by (rewrite Hfill, inorder_fill, Hb; done).
    rewrite Hin in *. destruct (successor_tree h c l (Some lp) (Some rp) q kq b qro Hc Hb ltac:(by intros ->) Hq Hbq Hl Hnd) as (Hu & Hui & Huo & Hud).
    rewrite !fmap_app, !fmap_cons, !fmap_app in Hnd, Hxn. cbn [fst] in Hnd, Hxn. apply NoDup_app in Hnd as (_ & _ & [Hqn _]%NoDup_cons).
    eapply (wp_successor rt h c x k' (Some lp) (Some rp) q kq qro r'); [exact Hc|exact Hlk|exact Hq|exact Hx|set_solver|rewrite Hb; cbn [app]; set_solver..|].
    by eapply HQ.
Qed.

(** What points to the node [x]: the root pointer, which is reported as 1, or a link of its parent [p]. *)
Definition points_to (f : forest K) (p x : Z) : Prop :=
  (p = 1 /\ root f = Some x) \/ exists n, nodes f !! p = Some n /\ (left n = Some x \/ right n = Some x).

Lemma parent_points f c x : crep (nodes f) c (root f) (Some x) -> points_to f (parent_of c 1) x.
Proof.
  intros Hc%crep_link. destruct c; cbn [parent_of]; [by left| |]; right; destruct Hc as [o Hp]; eexists; (split; [exact Hp|]); cbn; tauto.
Qed.

(** The tree without the node, with [u] in its place. *)
Lemma delete_tree f c l x k' r u h' q :
  is_tree f (fill c (Tree l x k' r)) -> crep (nodes f) c (root f) (Some x) -> rep h' u q -> inorder u = inorder l ++ inorder r ->
  (forall p, p ∉ (inorder l ++ inorder r).*1 -> h' !! p = nodes f !! p) -> (forall p, is_Some (h' !! p) <-> is_Some (nodes f !! p)) ->
  crep h' c (root f) (Some x) /\ crep (delete x h') c (root f) (Some x) /\ is_tree (Forest (top_in c (root f) q) (set_in (delete x h') c q)) (fill c u).
Proof.
  intros [_ Hnd Hn Hs] Hc Hu Hin Ho Hd. rewrite inorder_fill in Hnd, Hn, Hs. cbn [inorder] in Hnd, Hn, Hs. rewrite <- !app_assoc in Hnd, Hs.
  cbn [app] in Hnd, Hs.
  assert (Hperm : (before c ++ inorder l ++ (x, k') :: inorder r ++ behind c) ≡ₚ (x, k') :: (inorder l ++ inorder r) ++ before c ++ behind c) by solve_Permutation.
  assert (Hnd' := Hnd). rewrite Hperm, fmap_cons, fmap_app in Hnd'. cbn [fst] in Hnd'. apply NoDup_cons in Hnd' as [Hx Hnd'].
  apply NoDup_app in Hnd' as (Hnu & Huc & Hnc). rewrite <- Hin in Hnu, Huc, Hx, Ho. apply not_elem_of_app in Hx as [Hxu Hxc].
  assert (Hch : crep h' c (root f) (Some x)) by (eapply crep_ext; [|exact Hc]; intros p Hp; apply Ho; intros Hpu; by apply (Huc p)).
  assert (Hc' : crep (delete x h') c (root f) (Some x)) by (eapply crep_ext; [|exact Hch]; intros p Hp; apply lookup_delete_ne; by intros <-).
  split; [done|]. split; [done|]. constructor; cbn [root nodes]; rewrite ?inorder_fill.
  - eapply rep_fill; [by eapply crep_set_in|]. eapply rep_ext; [|exact Hu]. intros p Hp. rewrite set_in_other; [|intros Hpc; by apply (Huc p)].
    apply lookup_delete_ne. by intros <-.
  - assert (Hp2 : before c ++ inorder u ++ behind c ≡ₚ inorder u ++ before c ++ behind c) by solve_Permutation.
    rewrite Hp2, fmap_app. apply NoDup_app. split_and!; [done|exact Huc|done].
  - intros p. rewrite set_in_dom. assert (Hp2 : before c ++ inorder u ++ behind c ≡ₚ inorder u ++ before c ++ behind c) by solve_Permutation.
    rewrite Hp2, fmap_app, elem_of_app. destruct (decide (p = x)) as [->|Hne].
    + rewrite lookup_delete_eq. split; [by intros [? ?]|by intros [?|?]].
    + rewrite lookup_delete_ne, Hd, Hn by done. rewrite <- !app_assoc. cbn [app]. rewrite Hperm, <- Hin, fmap_cons, fmap_app, elem_of_cons, elem_of_app.
      cbn [fst]. tauto.
  - rewrite Hin, <- !app_assoc. rewrite app_assoc in Hs |- *. apply StronglySorted_app in Hs as (H1 & H2 & H3). apply StronglySorted_cons in H3 as [_ H3].
    apply StronglySorted_app. split_and!; [|done|done]. intros y z Hy Hz. apply H1; [done|by right].
Qed.

(** What [tdelete] does: the node with an equal key goes, the others stay where they are. *)
Definition deleted (k : K) (f : forest K) (l : list (Z * K)) (r : option Z) (f' : forest K) : Prop :=
  (exists l1 x k' l2 p, l = l1 ++ (x, k') :: l2 /\ compar k k' = 0 /\ r = Some p /\ points_to f p x /\ holds f' (l1 ++ l2)) \/
  ((forall p k', (p, k') ∈ l -> compar k k' <> 0) /\ r = None /\ f' = f).

Lemma wp_tdelete k f l (Q : option Z -> forest K -> Prop) E :
  holds f l -> (forall r f', deleted k f l r f' -> Q r f') -> wp (tdelete compar k (Some Rootp)) f Q E.
Proof.
  intros (t & Ht & <-) HQ. pose proof (tree_size _ _ Ht) as Hsz. pose proof (it_rep _ _ Ht) as Hr. unfold tdelete. cbn [get_link].
  wp_step. wp_step. apply wp_getS. wp_step. destruct t as [|tl tp tk tr] eqn:Htr.
  { cbn in Hr. rewrite Hr. wp_step. apply HQ. right. split_and!; [by intros ? ? ?%not_elem_of_nil|done|done]. }
  rewrite <- Htr in *. assert (Hne : t <> Leaf) by by rewrite Htr. assert (Hroot : root f = Some tp) by (rewrite Htr in Hr; apply Hr). rewrite Hroot.
  wp_step. apply wp_getS. wp_step.
  eapply (wp_locate k f t _ Hole (root f)); [done|done|exact Hr|lia|exact (it_ordered _ _ Ht)|by constructor|by constructor| |].
  - intros c l x k' r Hfill Hc H0. cbn [fill] in Hfill. rewrite Hfill in Ht, Hr. clear Htr. subst t.
    destruct (rep_fill_inv _ _ _ _ Hr) as (o & Hc2 & Hx). assert (o = Some x) as -> by (destruct Hx; congruence). destruct Hx as (_ & lo & ro & Hx & Hl & Hrr).
    assert (Hnd := it_nodup _ _ Ht). rewrite inorder_fill in Hnd, Hsz. rewrite !length_app in Hsz.
    assert (Hnd2 : NoDup (inorder (Tree l x k' r)).*1) by (rewrite !fmap_app in Hnd; by apply NoDup_app in Hnd as (_ & _ & (? & _)%NoDup_app)).
    wp_step. eapply wp_get_link; [exact Hc|]. wp_step. cbn [pointer]. wp_step. wp_step.
    eapply wp_replacement; [exact Hx|exact Hl|exact Hrr|exact Hnd2|cbn [inorder] in Hsz; rewrite length_app in Hsz; cbn [length] in Hsz; lia|].
    intros h' u q Hu Hin Ho Hd. destruct (delete_tree f c l x k' r u h' q Ht Hc Hu Hin Ho Hd) as (Hch & Hc' & Ht').
    wp_step. eapply (wp_get_link (Forest (root f) h')); [exact Hch|]. wp_step. cbn [pointer]. wp_step.
    assert (Hxh : is_Some (h' !! x)) by (apply Hd; by rewrite Hx). destruct Hxh as [n Hxh]. wp_step. unfold free_node. wp_step.
    eapply wp_node_at; [exact Hxh|]. apply wp_updS. cbn [root nodes]. wp_step.
    eapply (wp_set_link (Forest (root f) (delete x h'))); [exact Hc'|done|]. wp_step. apply HQ. left.
    exists (before c ++ inorder l), x, k', (inorder r ++ behind c), (parent_of c 1).
    split_and!; [rewrite inorder_fill; cbn [inorder]; by rewrite <- !app_assoc|done|done|by apply parent_points|].
    eexists. split; [exact Ht'|]. by rewrite inorder_fill, Hin, <- !app_assoc.
  - intros c Hfill Hb Ha. cbn [fill] in Hfill. wp_step. apply HQ. right. split; [|done]. rewrite Hfill, inorder_fill. by apply between_missing.
Qed.

(** ** Sequences of calls *)

Inductive tree_call : Type :=
  | Search (k : K)
  | Find (k : K)
  | Delete (k : K).

Definition run_call (malloc : gmap Z (node K) -> option Z) (x : tree_call) : M (forest K) (option Z) :=
  match x with
  | Search k => tsearch compar malloc k (Some Rootp)
  | Find k => tfind compar k (Some Rootp)
  | Delete k => tdelete compar k (Some Rootp)
  end.

Fixpoint run_calls (malloc : gmap Z (node K) -> option Z) (xs : list tree_call) : M (forest K) unit :=
  match xs with
  | [] => mret tt
  | x :: xs => run_call malloc x;; run_calls malloc xs
  end.

(** The same calls on a sorted list of keys. *)
Fixpoint insert_key (k : K) (l : list K) : list K :=
  match l with
  | [] => [k]
  | x :: l => if compar k x <? 0 then k :: x :: l else if compar k x =? 0 then x :: l else x :: insert_key k l
  end.

Definition delete_key (k : K) (l : list K) : list K := filter (fun x => compar k x <> 0) l.

Definition list_call (l : list K) (x : tree_call) : list K :=
  match x with
  | Search k => insert_key k l
  | Find _ => l
  | Delete k => delete_key k l
  end.

Lemma insert_key_below k l1 l2 : below k l1 -> insert_key k (l1.*2 ++ l2) = l1.*2 ++ insert_key k l2.
Proof.
  induction 1 as [|[p x] l1 Hx _ IH]; cbn [fmap list_fmap app insert_key snd]; [done|]. cbn [snd] in Hx. apply Hcmp in Hx.
  rewrite (proj2 (Z.ltb_ge _ _)), (proj2 (Z.eqb_neq _ _)) by lia. by rewrite <- IH.
Qed.

Lemma insert_key_above k l : above k l -> insert_key k l.*2 = k :: l.*2.
Proof. destruct 1 as [|[p x] l Hx _]; cbn [fmap list_fmap insert_key snd]; [done|]. by rewrite (proj2 (Z.ltb_lt _ _)). Qed.

Lemma below_equal k k' p l1 l2 : StronglySorted less (l1 ++ (p, k') :: l2) -> compar k k' = 0 -> below k l1 /\ above k l2.
Proof.
  intros [Hl Hr]%sorted_middle H0. split; (eapply Forall_impl; [eassumption|]); intros x Hx; [|by eapply compare_eq_l].
  eapply compare_eq_r; [exact Hx|]. by apply compare_eq_sym.
Qed.

Lemma delete_key_middle k k' p l1 l2 : below k l1 -> above k l2 -> compar k k' = 0 -> delete_key k (l1 ++ (p, k') :: l2).*2 = (l1 ++ l2).*2.
Proof.
  intros Hb Ha H0. unfold delete_key. rewrite !fmap_app, fmap_cons, filter_app. cbn [snd]. rewrite filter_cons_False by lia.
  assert (Hid : forall l : list K, (forall x, x ∈ l -> compar k x <> 0) -> filter (fun x => compar k x <> 0) l = l).
  { induction l as [|x l IH]; intros Hl; [done|]. rewrite filter_cons_True by (apply Hl; by left). f_equal. apply IH. intros y Hy. apply Hl. by right. }
  rewrite !Hid; [done| |]; intros x (y & -> & Hy)%list_elem_of_fmap.
  - pose proof (proj1 (Forall_forall _ _) Ha _ Hy). cbn beta in *. lia.
  - pose proof (proj1 (Forall_forall _ _) Hb _ Hy) as Hlt. cbn beta in *. intros Hk%compare_eq_sym. lia.
Qed.

Lemma delete_key_missing k (l : list (Z * K)) : (forall p k', (p, k') ∈ l -> compar k k' <> 0) -> delete_key k l.*2 = l.*2.
Proof.
  induction l as [|[p x] l IH]; intros Hl; [done|]. unfold delete_key in *. rewrite fmap_cons, filter_cons_True by (apply (Hl p); by left).
  f_equal. apply IH. intros q k' Hq. apply (Hl q). by right.
Qed.

Section calls.
Context (malloc : gmap Z (node K) -> option Z) (malloc_free : forall h q, malloc h = Some q -> h !! q = None).

Lemma holds_sorted f l : holds f l -> StronglySorted less l.
Proof. intros (t & Ht & <-). exact (it_ordered _ _ Ht). Qed.

Lemma wp_tree_call x f l : holds f l ->
  wp (run_call malloc x) f
     (fun _ f' => exists l', holds f' l' /\ ((forall h, malloc h <> None) -> l'.*2 = list_call l.*2 x)) (fun _ _ => False).
Proof.
  intros Hf. pose proof (holds_sorted _ _ Hf) as Hs. destruct x as [k|k|k]; cbn [run_call list_call].
  - apply (wp_tsearch malloc malloc_free k f l); [done|]. intros r f' [(l1 & p & k' & l2 & -> & H0 & _ & ->)|[Hmiss Hm]].
    + exists (l1 ++ (p, k') :: l2). split; [done|]. intros _. destruct (below_equal _ _ _ _ _ Hs H0) as [Hb _].
      rewrite fmap_app, fmap_cons, insert_key_below by done. cbn [insert_key snd]. by rewrite H0.
    + destruct (malloc (nodes f)) as [q|] eqn:Hq.
      * destruct Hm as (_ & l1 & l2 & -> & Hb & Ha & Hh). eexists. split; [exact Hh|]. intros _.
        by rewrite !fmap_app, fmap_cons, insert_key_below, insert_key_above.
      * destruct Hm as [_ ->]. exists l. split; [done|]. intros Hall. by destruct (Hall (nodes f)).
  - apply (wp_tfind k f l); [done|]. intros r _. by exists l.
  - apply (wp_tdelete k f l); [done|]. intros r f' [(l1 & p & k' & l2 & y & -> & H0 & _ & _ & Hh)|(Hmiss & _ & ->)].
    + exists (l1 ++ l2). split; [done|]. intros _. destruct (below_equal _ _ _ _ _ Hs H0) as [Hb Ha]. by rewrite (delete_key_middle k k' p).
    + exists l. split; [done|]. intros _. by rewrite delete_key_missing.
Qed.

Lemma wp_tree_calls xs : forall f l, holds f l ->
  wp (run_calls malloc xs) f
     (fun _ f' => exists l', holds f' l' /\ ((forall h, malloc h <> None) -> l'.*2 = foldl list_call l.*2 xs)) (fun _ _ => False).
Proof.
  induction xs as [|x xs IH]; intros f l Hf; cbn [run_calls foldl]; [wp_step; by exists l|]. wp_step.
  eapply wp_conseq; [by apply (wp_tree_call x f l)|]. intros r f' (l' & Hf' & Hl'). eapply wp_conseq; [by apply (IH f' l')|].
  intros _ f2 (l2 & Hf2 & Hl2). exists l2. split; [done|]. intros Hm. by rewrite Hl2, Hl'.
Qed.
End calls.
End order.

(** ** Walking *)

Section walk.
Context {K U : Type} (action : Z -> VISIT -> Z -> M U unit).

(** The visits of the nodes of a tree, in their order. *)
Fixpoint visits (t : tree K) (level : Z) : list (Z * VISIT * Z) :=
  match t with
  | Leaf => []
  | Tree Leaf p _ Leaf => [(p, leaf, level)]
  | Tree l p _ r => (p, preorder, level) :: visits l (level + 1) ++ (p, postorder, level) :: visits r (level + 1) ++ [(p, endorder, level)]
  end.

Fixpoint perform (vs : list (Z * VISIT * Z)) : M U unit :=
  match vs with
  | [] => mret tt
  | (p, v, level) :: vs => action p v level;; perform vs
  end.

(** The visits at which a node is in its place in the order. *)
Definition in_place (v : Z * VISIT * Z) : option Z :=
  match v with
  | (p, (postorder | leaf), _) => Some p
  | _ => None
  end.

Lemma visits_inorder t : forall level, omap in_place (visits t level) = (inorder t).*1.
Proof.
  induction t as [|l IHl p k r IHr]; intros level; [done|]. cbn [inorder]. rewrite fmap_app, fmap_cons, <- (IHl (level + 1)), <- (IHr (level + 1)).
  destruct l, r; [done|..]; cbn [visits]; cbn [omap list_omap in_place fst]; rewrite omap_app; cbn [omap list_omap in_place];
    rewrite omap_app; cbn [omap list_omap in_place]; by rewrite app_nil_r.
Qed.

Lemma perform_app vs ws u : perform (vs ++ ws) u = (perform vs;; perform ws) u.
Proof.
  revert u. induction vs as [|[[p v] level] vs IH]; intros u; [done|]. cbn [app perform]. unfold mbind, M_bind.
  destruct (action p v level u) as [[] u']; [|done..]. apply IH.
Qed.

(** A walk does what its visits do, and leaves the trees alone. *)
Definition does (f : forest K) (m : M (forest K * U) unit) (vs : list (Z * VISIT * Z)) : Prop :=
  forall u, m (f, u) = let '(o, u') := perform vs u in (o, (f, u')).

Lemma does_act f p v level : does f (act action p v level) [(p, v, level)].
Proof. intros u. unfold act, zoom. cbn [snd fst perform]. unfold mbind, M_bind. by destruct (action p v level u) as [[[]| | |] u']. Qed.

Lemma does_seq f m1 m2 vs ws : does f m1 vs -> does f m2 ws -> does f (m1;; m2) (vs ++ ws).
Proof.
  intros H1 H2 u. rewrite perform_app. unfold mbind, M_bind. rewrite H1. destruct (perform vs u) as [[[]| | |] u']; [apply H2|done..].
Qed.

Lemma trecurse_visits f : forall t fuel p level, rep (nodes f) t (Some p) -> (length (inorder t) <= fuel)%nat ->
  does f (trecurse action fuel p level) (visits t level).
Proof.
  induction t as [|l IHl p k r IHr]; intros fuel q level Ht Hf; [done|]. destruct Ht as ([= ->] & lo & ro & Hp & Hl & Hr).
  cbn [inorder] in Hf. rewrite length_app in Hf. cbn [length] in Hf. destruct fuel as [|fuel]; [lia|].
  assert (Hbody : does f (match lo, ro with
                          | None, None => act action p leaf level
                          | l, r => act action p preorder level;; match l with Some l => trecurse action fuel l (level + 1) | None => mret tt end;;
                              act action p postorder level;; match r with Some r => trecurse action fuel r (level + 1) | None => mret tt end;;
                              act action p endorder level
                          end) (visits (Tree l p k r) level)).
  { assert (Hsub : forall t o, rep (nodes f) t o -> (forall q, o = Some q -> does f (trecurse action fuel q (level + 1)) (visits t (level + 1))) ->
      does f (match o with Some q => trecurse action fuel q (level + 1) | None => mret tt end) (visits t (level + 1))).
    { intros t [q|] Ht H; [by apply H|]. destruct t; [done|by destruct Ht]. }
    assert (Hl' : does f (match lo with Some q => trecurse action fuel q (level + 1) | None => mret tt end) (visits l (level + 1))).
    { apply Hsub; [done|]. intros q ->. apply IHl; [done|lia]. }
    assert (Hr' : does f (match ro with Some q => trecurse action fuel q (level + 1) | None => mret tt end) (visits r (level + 1))).
    { apply Hsub; [done|]. intros q ->. apply IHr; [done|lia]. }
    pose proof (does_seq _ _ _ _ _ (does_act f p preorder level) (does_seq _ _ _ _ _ Hl' (does_seq _ _ _ _ _ (does_act f p postorder level)
      (does_seq _ _ _ _ _ Hr' (does_act f p endorder level))))) as Hall.
    destruct l as [|? ? ? ?], r as [|? ? ? ?]; cbn in Hl, Hr; destruct lo, ro; try (by destruct Hl); try (by destruct Hr); try done; [apply does_act|exact Hall..]. }
  intros u. rewrite <- Hbody. cbn [trecurse]. unfold mbind at 1, M_bind at 1, on_trees, zoom, node_at. cbn [fst snd]. unfold mbind at 1, M_bind at 1, getS. cbn beta iota.
  rewrite Hp. by destruct lo, ro.
Qed.
End walk.

(** ** Theorems *)

(** [tsearch] in any search tree, for a comparison function that is a total
    preorder: if a node has an equal key it is returned and nothing changes.
    Otherwise a new node with the key is returned, between the nodes with
    smaller and those with greater keys, all of which stay where they are; or
    NULL, without a change, if there is no memory. *)
Theorem tsearch_correct {K} (compar : K -> K -> Z) (malloc : gmap Z (node K) -> option Z) k f l :
  comparison compar -> (forall h q, malloc h = Some q -> h !! q = None) -> holds compar f l ->
  wp (tsearch compar malloc k (Some Rootp)) f (fun r f' => searched compar malloc k f l r f') (fun _ _ => False).
Proof. intros Hc Hm Hf. by eapply wp_tsearch. Qed.

(** [tdelete] in any search tree: if a node has an equal key, that node is
    freed and no other, the others stay where they are, and the address
    returned is that of the node whose link pointed to it, or 1 if it was the
    root; otherwise NULL is returned and nothing changes. *)
Theorem tdelete_correct {K} (compar : K -> K -> Z) k f l :
  comparison compar -> holds compar f l ->
  wp (tdelete compar k (Some Rootp)) f (fun r f' => deleted compar k f l r f') (fun _ _ => False).
Proof. intros Hc Hf. by eapply wp_tdelete. Qed.

(** C18: From the empty tree, any sequence of calls of [tsearch], [tfind] and
    [tdelete] returns and leaves a search tree: the heap has exactly its nodes,
    each at one place, and their keys are in strictly increasing order. The
    keys are those of the same calls on a sorted list, if there is memory. *)
Theorem tree_calls_correct {K} (compar : K -> K -> Z) (malloc : gmap Z (node K) -> option Z) xs :
  comparison compar -> (forall h q, malloc h = Some q -> h !! q = None) ->
  wp (run_calls compar malloc xs) (Forest None ∅)
     (fun _ f => exists t, is_tree compar f t /\ ((forall h, malloc h <> None) -> (inorder t).*2 = foldl (list_call compar) [] xs))
     (fun _ _ => False).
Proof.
  intros Hc Hm. eapply wp_conseq; [apply (wp_tree_calls compar Hc malloc Hm xs (Forest None ∅) [])|].
  - exists Leaf. split; [|done]. constructor; cbn; [done|by apply NoDup_nil_2| |constructor].
    intros p. rewrite lookup_empty. split; [by intros [? ?]|by intros ?%not_elem_of_nil].
  - intros _ f (l & (t & Ht & <-) & Hl). by exists t.
Qed.

(** [twalk] of a search tree calls the action for the visits of the tree and
    nothing else: a node without children once as a leaf, another one before
    its left subtree, between its subtrees and behind the right one, with its
    depth; so the leaf and postorder visits are in the order of the keys. The
    calls stop where an action does not return. *)
Theorem twalk_correct {K U} (compar : K -> K -> Z) (action : Z -> VISIT -> Z -> M U unit) f t u :
  is_tree compar f t ->
  (twalk action (root f) (f, u) = let '(o, u') := perform action (visits t 0) u in (o, (f, u'))) /\
  omap in_place (visits t 0) = (inorder t).*1 /\ StronglySorted (less compar) (inorder t).
Proof.
  intros Ht. split_and!; [|apply visits_inorder|exact (it_ordered _ _ _ Ht)]. pose proof (it_rep _ _ _ Ht) as Hr. destruct (root f) as [p|] eqn:Hroot.
  - unfold twalk, on_trees, zoom, getS. unfold mbind at 1, M_bind at 1. cbn [fst snd].
    apply trecurse_visits; [done|]. by rewrite (tree_size compar f t Ht).
  - destruct t; [done|by destruct Hr].
Qed.

(** ** Examples *)

(** The keys 4, 2, 6, 5, 8 and 7 at the addresses 2, 3, 4, ..., of which 6 is deleted. *)
Definition sample_malloc (h : gmap Z (node Z)) : option Z := Some (fresh (dom h ∪ {[0; 1]})).
Definition difference (x y : Z) : Z := x - y.
Definition sample_calls : list tree_call := [Search 4; Search 2; Search 6; Search 5; Search 8; Search 7; Search 2; Delete 6; Find 6].
Definition sample_forest : forest Z := snd (run_calls difference sample_malloc sample_calls (Forest None ∅)).
Definition sample_tree : tree Z := Tree (Tree Leaf 3 2 Leaf) 2 4 (Tree (Tree Leaf 5 5 Leaf) 7 7 (Tree Leaf 6 8 Leaf)).

Lemma difference_comparison : comparison difference.
Proof. unfold difference. split; intros; lia. Qed.

Lemma sample_malloc_free h q : sample_malloc h = Some q -> h !! q = None.
Proof. intros [= <-]. apply not_elem_of_dom. pose proof (is_fresh (dom h ∪ {[0; 1]})). set_solver. Qed.

Lemma sample_is_tree : is_tree difference sample_forest sample_tree.
Proof.
  assert (Hd : dom (nodes sample_forest) = (list_to_set [3; 2; 5; 7; 6] : gset Z)) by (by vm_compute).
  constructor.
  - assert (H2 : nodes sample_forest !! 2 = Some (Node 4 (Some 3) (Some 7))) by (by vm_compute).
    assert (H3 : nodes sample_forest !! 3 = Some (Node 2 None None)) by (by vm_compute).
    assert (H7 : nodes sample_forest !! 7 = Some (Node 7 (Some 5) (Some 6))) by (by vm_compute).
    assert (H5 : nodes sample_forest !! 5 = Some (Node 5 None None)) by (by vm_compute).
    assert (H6 : nodes sample_forest !! 6 = Some (Node 8 None None)) by (by vm_compute).
    cbn [rep sample_tree]. split; [by vm_compute|]. eexists _, _. split; [exact H2|]. split; (split; [done|]); eexists _, _; [by split_and!; [exact H3|..]|].
    split; [exact H7|]. split; (split; [done|]); eexists _, _; [by split_and!; [exact H5|..]|by split_and!; [exact H6|..]].
  - apply (bool_decide_unpack _). by vm_compute.
  - intros p. rewrite <- elem_of_dom, Hd, elem_of_list_to_set. done.
  - unfold sample_tree. cbn [inorder app]. repeat constructor.
Qed.

Lemma sample_holds : holds difference sample_forest [(3, 2); (2, 4); (5, 5); (7, 7); (6, 8)].
Proof. exists sample_tree. split; [exact sample_is_tree|done]. Qed.

Lemma tree_calls_correct_witness :
  foldl (list_call difference) [] sample_calls = [2; 4; 5; 7; 8] /\
  wp (run_calls difference sample_malloc sample_calls) (Forest None ∅)
     (fun _ f => exists t, is_tree difference f t /\
        ((forall h, sample_malloc h <> None) -> (inorder t).*2 = foldl (list_call difference) [] sample_calls)) (fun _ _ => False).
Proof. split; [by vm_compute|]. apply tree_calls_correct; [exact difference_comparison|exact sample_malloc_free]. Defined.

(** A new key, and a key that is there. *)
Lemma tsearch_correct_witness :
  fst (tsearch difference sample_malloc 6 (Some Rootp) sample_forest) = Ret (Some 8) /\
  fst (tsearch difference sample_malloc 7 (Some Rootp) sample_forest) = Ret (Some 7) /\
  wp (tsearch difference sample_malloc 6 (Some Rootp)) sample_forest
     (fun r f' => searched difference sample_malloc 6 sample_forest [(3, 2); (2, 4); (5, 5); (7, 7); (6, 8)] r f') (fun _ _ => False).
Proof.
  split; [by vm_compute|]. split; [by vm_compute|].
  apply tsearch_correct; [exact difference_comparison|exact sample_malloc_free|exact sample_holds].
Defined.

(** The root is deleted: the address 1 is returned. *)
Lemma tdelete_correct_witness :
  fst (tdelete difference 4 (Some Rootp) sample_forest) = Ret (Some 1) /\
  fst (tdelete difference 5 (Some Rootp) sample_forest) = Ret (Some 7) /\
  wp (tdelete difference 4 (Some Rootp)) sample_forest
     (fun r f' => deleted difference 4 sample_forest [(3, 2); (2, 4); (5, 5); (7, 7); (6, 8)] r f') (fun _ _ => False).
Proof.
  split; [by vm_compute|]. split; [by vm_compute|]. apply tdelete_correct; [exact difference_comparison|exact sample_holds].
Defined.

(** An action that records the addresses in order. *)
Definition record (p : Z) (v : VISIT) (level : Z) : M (list Z) unit :=
  match v with postorder | leaf => updS (fun l => l ++ [p]) | _ => mret tt end.

Lemma twalk_correct_witness :
  twalk record (root sample_forest) (sample_forest, []) = (Ret tt, (sample_forest, [3; 2; 5; 7; 6])) /\
  (twalk record (root sample_forest) (sample_forest, []) =
     let '(o, u') := perform record (visits sample_tree 0) [] in (o, (sample_forest, u'))) /\
  omap in_place (visits sample_tree 0) = (inorder sample_tree).*1 /\ StronglySorted (less difference) (inorder sample_tree).
Proof. split; [by vm_compute|]. apply twalk_correct. exact sample_is_tree. Defined.
