(* ===== verification/Hsearch.v ===== *)
(** * Hash tables: [hsearch_r.c], [hcreate_r.c], [hdestroy_r.c], [hcreate.c] of [upstream-freebsd/lib/libc/stdlib]

    A table of 2^k entries with quadratic probing, which is doubled when half of
    it is used. A key is a string or NULL, a pointer to an entry its index.
    Whether the allocations succeed is an argument, and so is the random start
    of the hash. [size_t] has 64 bits. *)
From S2P Require Import Prelude CString.

(** [typedef enum { FIND, ENTER } ACTION] *)
Inductive ACTION : Type := FIND | ENTER.

Definition ESRCH : Z := 3.
Definition ENOMEM : Z := 12.

(** The loop [while ( *str != '\0')]; [uint8_t]: the octets are unsigned. *)
Definition fnv_step {S} (str : list Z) '((i, hash) : Z * Z) : M S (step (Z * Z) Z) :=
  c ← rd str i;
  if negb (c =? 0) then mret (Next (i + 1, u64 (Z.lxor hash (u8 c) * 1099511628211))) else mret (Done hash).

Definition hsearch_hash {S} (offset_basis : Z) (str : list Z) : M S Z :=
  loop (Datatypes.S (length str)) (fnv_step str) (0, offset_basis).

Section hsearch.
Context {D : Type} (null : D).

Record ENTRY : Type := Entry { key : option (list Z); data : D }.

(** [struct __hsearch] *)
Record __hsearch : Type := Hsearch { offset_basis : Z; index_mask : Z; entries_used : Z; entries : list ENTRY }.

Definition blank : ENTRY := Entry None null.

Definition on_entries {A} (m : M (list ENTRY) A) : M __hsearch A :=
  zoom entries (fun l h => Hsearch (offset_basis h) (index_mask h) (entries_used h) l) m.

(** [index += ++i] *)
Definition advance '((index, i) : Z * Z) : Z * Z := let i := u64 (i + 1) in (u64 (index + i), i).

Definition free_step (l : Z * Z) : M __hsearch (step (Z * Z) Z) :=
  h ← getS;
  let p := Z.land (fst l) (index_mask h) in
  entry ← rd (entries h) p;
  match key entry with
  | None => mret (Done p)
  | Some _ => mret (Next (advance l))
  end.

Definition hsearch_lookup_free (hash : Z) : M __hsearch Z :=
  h ← getS;
  loop (Datatypes.S (length (entries h))) free_step (hash, 0).

(** The search for the key: its entry, or the first one that is not used. *)
Definition find_step (k : list Z) (l : Z * Z) : M __hsearch (step (Z * Z) (Z + Z)) :=
  h ← getS;
  let p := Z.land (fst l) (index_mask h) in
  entry ← rd (entries h) p;
  match key entry with
  | None => mret (Done (inr p))
  | Some k' =>
      c ← strcmp k' k;
      if c =? 0 then mret (Done (inl p)) else mret (Next (advance l))
  end.

(** [for (i = 0; i < old_count; ++i)] *)
Definition copy_step (old_entries : list ENTRY) (old_count : Z) (i : Z) : M __hsearch (step Z unit) :=
  if i <? old_count then
    entry ← rd old_entries i;
    match key entry with
    | Some k =>
        h ← getS;
        old_hash ← hsearch_hash (offset_basis h) k;
        p ← hsearch_lookup_free old_hash;
        on_entries (wr p entry);;
        mret (Next (u64 (i + 1)))
    | None => mret (Next (u64 (i + 1)))
    end
  else mret (Done tt).

(** A new table with the old entries; [room]: [calloc] succeeds. *)
Definition grow (room : bool) : M __hsearch unit :=
  h ← getS;
  let old_count := u64 (index_mask h + 1) in
  let old_entries := entries h in
  let new_count := u64 (u64 (index_mask h + 1) * 2) in
  fail_if (negb room) ENOMEM;;
  setS (Hsearch (offset_basis h) (u64 (new_count - 1)) (entries_used h) (replicate (Z.to_nat new_count) blank));;
  loop (Datatypes.S (length old_entries)) (copy_step old_entries old_count) 0.

Definition hsearch_r (room : bool) (item : ENTRY) (action : ACTION) : M __hsearch Z :=
  h ← getS;
  k ← match key item with Some k => mret k | None => undef end;
  hash ← hsearch_hash (offset_basis h) k;
  r ← loop (Datatypes.S (length (entries h))) (find_step k) (hash, 0);
  match r with
  | inl entry => mret entry
  | inr entry =>
      match action with
      | FIND => fail ESRCH
      | ENTER =>
          entry ← (if index_mask h <=? u64 (entries_used h * 2)
                   then grow room;; hsearch_lookup_free hash
                   else mret entry);
          on_entries (wr entry item);;
          updS (fun h => Hsearch (offset_basis h) (index_mask h) (u64 (entries_used h + 1)) (entries h));;
          mret entry
      end
  end.

(** ** Creating and destroying; the table of the process *)

(** [basis] is what [arc4random_buf] gives; [room]: [malloc] and [calloc] succeed. *)
Definition hcreate_r (basis : Z) (room : bool) (nel : Z) : M (option __hsearch) Z :=
  if room then
    setS (Some (Hsearch basis 15 0 (replicate 16 blank)));;
    mret 1
  else mret 0.

(** The memory is gone; a table that was not created is no table. *)
Definition hdestroy_r : M (option __hsearch) unit :=
  t ← getS;
  match t with
  | Some _ => setS None
  | None => undef
  end.

Record globals : Type := Globals { global_hashtable : option __hsearch; global_hashtable_initialized : bool }.

Definition on_table {A} (m : M (option __hsearch) A) : M globals A :=
  zoom global_hashtable (fun t p => Globals t (global_hashtable_initialized p)) m.

Definition hcreate (nel : Z) : M globals Z := mret 1.

Definition hdestroy : M globals unit :=
  p ← getS;
  if global_hashtable_initialized p then
    on_table hdestroy_r;;
    updS (fun p => Globals (global_hashtable p) false)
  else mret tt.

(** [hsearch_r] on [htab->__hsearch]. *)
Definition on_htab {A} (m : M __hsearch A) : M (option __hsearch) A := fun t =>
  match t with
  | Some h => let '(o, h) := m h in (o, Some h)
  | None => (Undef, None)
  end.

(** NULL is an error. *)
Definition hsearch (basis : Z) (room : bool) (item : ENTRY) (action : ACTION) : M globals Z :=
  p ← getS;
  (if negb (global_hashtable_initialized p) then
     r ← on_table (hcreate_r basis room 0);
     fail_if (r =? 0) ENOMEM;;
     updS (fun p => Globals (global_hashtable p) true)
   else mret tt);;
  on_table (on_htab (hsearch_r room item action)).

End hsearch.

#[global] Arguments ENTRY : clear implicits.
#[global] Arguments __hsearch : clear implicits.
#[global] Arguments globals : clear implicits.

(** ** Probing *)

Definition tri (j : Z) : Z := j * (j + 1) / 2.

Lemma tri_double j : 2 * tri j = j * (j + 1).
Proof.
  unfold tri. assert (H : (j * (j + 1)) mod 2 = 0).
  { rewrite Z.mul_mod, Z.add_mod by lia. pose proof (Z.mod_pos_bound j 2 ltac:(lia)). assert (j mod 2 = 0 \/ j mod 2 = 1) as [->| ->] by lia; done. }
  pose proof (Z.div_mod (j * (j + 1)) 2 ltac:(lia)). lia.
Qed.

Lemma tri_next j : tri (j + 1) = tri j + (j + 1).
Proof. pose proof (tri_double j). pose proof (tri_double (j + 1)). lia. Qed.

(** A power of two divides a product with an odd factor only if it divides the other. *)
Lemma pow2_odd n x y : 0 <= n -> Z.odd y = true -> (2 ^ n | x * y) -> (2 ^ n | x).
Proof.
  intros Hn Hy. revert n Hn x. apply (natlike_ind (fun n => forall x, (2 ^ n | x * y) -> (2 ^ n | x))).
  - intros x _. apply Z.divide_1_l.
  - intros n Hn IH x [q Hq]. rewrite Z.pow_succ_r in * by done.
    assert (He : Z.even x = true).
    { assert (Z.even (x * y) = true) as H by (rewrite Hq, Z.even_mul, Z.even_mul; cbn; by rewrite orb_true_r).
      rewrite Z.even_mul, <- (Z.negb_odd y), Hy in H. by rewrite orb_false_r in H. }
    apply Z.even_spec in He as [x' ->]. destruct (IH x') as [r ->]; [exists q; lia|]. exists r. lia.
Qed.

(** The first 2^k places of a probe are different. *)
Lemma probe_inj k h a b : 0 <= k -> 0 <= a < 2 ^ k -> 0 <= b < 2 ^ k -> (h + tri a) mod 2 ^ k = (h + tri b) mod 2 ^ k -> a = b.
Proof.
  intros Hk. assert (Hlt : forall a b, 0 <= a -> a < b -> b < 2 ^ k -> (h + tri a) mod 2 ^ k <> (h + tri b) mod 2 ^ k).
  { clear a b. intros a b Ha Hab Hb Heq. pose proof (Z.pow_pos_nonneg 2 k ltac:(lia) Hk).
    assert (Hd : (2 ^ (k + 1) | (b - a) * (a + b + 1))).
    { pose proof (tri_double a). pose proof (tri_double b). pose proof (Z.div_mod (h + tri a) (2 ^ k) ltac:(lia)). pose proof (Z.div_mod (h + tri b) (2 ^ k) ltac:(lia)).
      exists ((h + tri b) / 2 ^ k - (h + tri a) / 2 ^ k). rewrite Z.pow_add_r, Z.pow_1_r by lia. nia. }
    assert (Hle : forall x, 0 < x -> x < 2 * 2 ^ k -> ~ (2 ^ (k + 1) | x)).
    { intros x Hx Hx2 Hdx. apply Z.divide_pos_le in Hdx; [|done]. rewrite Z.pow_add_r, Z.pow_1_r in Hdx by lia. lia. }
    destruct (Z.odd (a + b + 1)) eqn:Ho.
    - apply (Hle (b - a)); [lia|lia|]. by apply (pow2_odd _ _ (a + b + 1)); [lia| |].
    - apply (Hle (a + b + 1)); [lia|lia|]. apply (pow2_odd _ _ (b - a)); [lia| |by rewrite Z.mul_comm].
      replace (b - a) with (a + b + 1 - (2 * a + 1)) by lia. rewrite Z.odd_sub, Ho, Z.odd_add, Z.odd_mul. done. }
  intros Ha Hb Heq. destruct (Z.lt_trichotomy a b) as [H|[H|H]]; [|done|]; exfalso; eapply Hlt; [| | |exact Heq| | | |symmetry; exact Heq]; lia.
Qed.

(** So they are all places. *)
Lemma probe_surj k h p : 0 <= k -> 0 <= p < 2 ^ k -> exists j, 0 <= j < 2 ^ k /\ (h + tri j) mod 2 ^ k = p.
Proof.
  intros Hk Hp. set (l := map (fun n => (h + tri (Z.of_nat n)) mod 2 ^ k) (seq 0 (Z.to_nat (2 ^ k)))).
  assert (Hin : p ∈ l).
  { assert (Hincl : List.incl (map Z.of_nat (seq 0 (Z.to_nat (2 ^ k)))) l).
    { apply List.NoDup_length_incl.
      - apply NoDup_ListNoDup. unfold l. apply NoDup_fmap_2_strong; [|apply NoDup_seq].
        intros x y Hx%elem_of_seq Hy%elem_of_seq Heq. apply probe_inj in Heq; lia.
      - unfold l. by rewrite !length_map.
      - intros x [n [<- Hn]]%in_map_iff. apply in_map_iff. pose proof (Z.mod_pos_bound (h + tri (Z.of_nat n)) (2 ^ k) ltac:(lia)).
        exists (Z.to_nat ((h + tri (Z.of_nat n)) mod 2 ^ k)). split; [lia|]. apply in_seq. lia. }
    apply list_elem_of_In, Hincl, in_map_iff. exists (Z.to_nat p). split; [lia|]. apply in_seq. lia. }
  apply list_elem_of_In, in_map_iff in Hin as [n [Hn Hs]]. apply in_seq in Hs. exists (Z.of_nat n). split; [lia|done].
Qed.

(** ** Hashing *)

Definition hash_of (offset_basis : Z) (k : list Z) : Z :=
  foldl (fun h c => u64 (Z.lxor h (u8 c) * 1099511628211)) offset_basis (ztake (zlen k - 1) k).

Lemma wp_hsearch_hash {S} b k (s : S) (Q : Z -> S -> Prop) E : is_cstr k -> Q (hash_of b k) s -> wp (hsearch_hash b k) s Q E.
Proof.
  intros (t & -> & Ht) HQ. unfold hash_of in HQ. rewrite zlen_app in HQ. change (zlen [0]) with 1 in HQ.
  replace (zlen t + 1 - 1) with (zlen t) in HQ by lia. rewrite ztake_app in HQ. unfold hsearch_hash.
  assert (Hloop : forall v u fuel h, t = u ++ v -> (length v < fuel)%nat ->
    Q (foldl (fun h c => u64 (Z.lxor h (u8 c) * 1099511628211)) h v) s -> wp (loop fuel (fnv_step (t ++ [0])) (zlen u, h)) s Q E).
  { induction v as [|c v IH]; intros u [|fuel] h Heq Hf HQ'; try (cbn in Hf; lia); apply wp_loop_S; unfold fnv_step; wp_step.
    - rewrite app_nil_r in Heq. subst u. eapply wp_rd; [apply znth_middle|]. wp_step. exact HQ'.
    - subst t. eapply wp_rd; [rewrite <- app_assoc; apply znth_middle|]. rewrite (proj2 (Z.eqb_neq c 0)) by set_solver. wp_step.
      replace (zlen u + 1) with (zlen (u ++ [c])) by (by rewrite zlen_app). apply IH; [by rewrite <- app_assoc|cbn in Hf; lia|exact HQ']. }
  apply (Hloop t []); [done|rewrite length_app; lia|exact HQ].
Qed.

(** ** The table *)

Section table.
Context {D : Type} (null : D).
Implicit Types (h : __hsearch D) (e : ENTRY D).

Definition used e : Prop := key e <> None.
Definition slot h (hash j : Z) : Z := (hash + tri j) mod zlen (entries h).

(** The entry [p] is where a search for [k] finds it: the places before are in use. *)
Definition reached (l : list (ENTRY D)) (hash p : Z) : Prop := exists j, 0 <= j < zlen l /\ p = (hash + tri j) mod zlen l /\
  forall i, 0 <= i < j -> exists e, znth l ((hash + tri i) mod zlen l) = Some e /\ used e.

Record placed (basis : Z) (l : list (ENTRY D)) : Prop := Placed {
  pl_keys : forall p e k, znth l p = Some e -> key e = Some k -> is_cstr k /\ reached l (hash_of basis k) p;
  pl_unique : forall p q e e' k, znth l p = Some e -> znth l q = Some e' -> key e = Some k -> key e' = Some k -> p = q }.

Definition count (l : list (ENTRY D)) : Z := zlen (filter (fun e => is_Some (key e)) l).

(** A table of 2^k entries of which at most half are in use. *)
Definition table_ok h : Prop := exists k, 4 <= k <= 62 /\ zlen (entries h) = 2 ^ k /\ index_mask h = 2 ^ k - 1 /\
  entries_used h = count (entries h) /\ 2 * count (entries h) <= 2 ^ k /\ 0 <= offset_basis h < 2 ^ 64 /\ placed (offset_basis h) (entries h).

(** A table with a place left, whatever its use. *)
Definition sized h : Prop := exists k, 0 <= k <= 63 /\ zlen (entries h) = 2 ^ k /\ index_mask h = 2 ^ k - 1 /\ count (entries h) < 2 ^ k.

Lemma filter_all {A} (P : A -> Prop) `{!forall x, Decision (P x)} (l : list A) : Forall P l -> filter P l = l.
Proof. induction 1 as [|x l Hx _ IH]; [done|]. by rewrite filter_cons_True, IH. Qed.

Lemma count_range l : 0 <= count l <= zlen l.
Proof. unfold count, zlen. pose proof (length_filter (fun e => is_Some (key e)) l). lia. Qed.

Lemma has_free l : count l < zlen l -> exists p e, znth l p = Some e /\ key e = None.
Proof.
  intros Hc. destruct (decide (Forall (fun e => is_Some (key e)) l)) as [Hall|Hno].
  - exfalso. unfold count in Hc. rewrite (filter_all _ _ Hall) in Hc. lia.
  - apply not_Forall_Exists in Hno; [|apply _]. apply Exists_exists in Hno as (e & Hin & He). apply list_elem_of_lookup in Hin as [i Hi].
    exists (Z.of_nat i), e. split.
    + unfold znth. rewrite (proj2 (Z.ltb_ge _ _)) by lia. by rewrite Nat2Z.id.
    + cbn in He. destruct (key e); [|done]. destruct He. by eexists.
Qed.

(** The slot that the loop looks at. *)
Lemma slot_index h k hash i : 0 <= k <= 63 -> zlen (entries h) = 2 ^ k -> index_mask h = 2 ^ k - 1 ->
  Z.land (u64 (hash + tri i)) (index_mask h) = slot h hash i.
Proof.
  intros Hk Hl ->. unfold slot. rewrite Hl. replace (2 ^ k - 1) with (Z.ones k) by (rewrite Z.ones_equiv; lia). rewrite Z.land_ones by lia.
  unfold u64. apply Z.mod_mod_divide. exists (2 ^ (64 - k)). rewrite <- Z.pow_add_r by lia. f_equal. lia.
Qed.

Lemma advance_eq hash i : 0 <= i < 2 ^ 63 -> advance (u64 (hash + tri i), i) = (u64 (hash + tri (i + 1)), i + 1).
Proof.
  intros Hi. unfold advance. rewrite (u64_id (i + 1)) by lia. rewrite tri_next. f_equal. unfold u64.
  rewrite Zplus_mod_idemp_l. f_equal. lia.
Qed.

(** A loop over the probe sequence: it stops where [stop] holds, and it does stop
    at a slot that is not in use. *)
Lemma wp_probe {R} (body : Z * Z -> M (__hsearch D) (step (Z * Z) R)) h hash (go : Z -> Prop) (Q : R -> __hsearch D -> Prop) E :
  sized h ->
  (forall index i p e, p = Z.land index (index_mask h) -> znth (entries h) p = Some e ->
     wp (body (index, i)) h (fun r h' => h' = h /\
        match r with
        | Next l => l = advance (index, i) /\ used e /\ go p
        | Done r => forall j, 0 <= j < zlen (entries h) -> p = slot h hash j ->
            (forall i, 0 <= i < j -> go (slot h hash i) /\ exists e, znth (entries h) (slot h hash i) = Some e /\ used e) -> Q r h
        end) E) ->
  0 <= hash < 2 ^ 64 -> wp (loop (Datatypes.S (length (entries h))) body (hash, 0)) h Q E.
Proof.
  intros (k & Hk & Hl & Hm & Hcount) Hbody Hh. destruct (has_free (entries h)) as (pf & ef & Hpf & Hef); [lia|].
  destruct (probe_surj k hash pf ltac:(lia)) as (jf & Hjf & Hpj); [rewrite <- Hl; exact (znth_Some _ _ _ Hpf)|].
  apply (wp_loop (fun l h' => h' = h /\ exists i, l = (u64 (hash + tri i), i) /\ 0 <= i < zlen (entries h) /\
      forall i', 0 <= i' < i -> go (slot h hash i') /\ exists e, znth (entries h) (slot h hash i') = Some e /\ used e)
    (fun l _ => Z.to_nat (zlen (entries h) - snd l))).
  - split; [done|]. exists 0. split; [by rewrite Z.add_0_r, u64_id|]. split; [lia|]. lia.
  - cbn. unfold zlen. lia.
  - intros l h' (-> & i & -> & Hi & Hgo). assert (H63 : 2 ^ k <= 2 ^ 63) by (apply Z.pow_le_mono_r; lia).
    pose proof (slot_index h k hash i Hk Hl Hm) as Hs. assert (Hr : 0 <= slot h hash i < zlen (entries h)) by (unfold slot; apply Z.mod_pos_bound; lia).
    destruct (znth_lt (entries h) (slot h hash i) Hr) as [e He].
    eapply wp_mono; [apply (Hbody _ i (slot h hash i) e); [by rewrite Hs|done]| |done].
    intros r h' [-> Hx]. destruct r as [l|r]; [|by apply (Hx i)]. destruct Hx as (-> & Hu & Hg). rewrite advance_eq by lia.
    assert (Hne : i <> jf) by (intros ->; unfold slot in He; rewrite Hl, Hpj in He; unfold used in Hu; congruence).
    assert (Hlt : i + 1 < zlen (entries h)).
    { destruct (Z.eq_dec (i + 1) (zlen (entries h))); [|lia]. exfalso. destruct (Hgo jf ltac:(lia)) as (_ & e' & He' & Hu').
      unfold slot in He'. rewrite Hl, Hpj in He'. unfold used in Hu'. congruence. }
    split; [|cbn; lia]. split; [done|]. exists (i + 1). split; [done|]. split; [lia|]. intros i' Hi'.
    destruct (Z.eq_dec i' i) as [->|]; [split; [done|by exists e]|apply Hgo; lia].
Qed.

Lemma hash_range b k : 0 <= b < 2 ^ 64 -> 0 <= hash_of b k < 2 ^ 64.
Proof.
  intros Hb. unfold hash_of. generalize (ztake (zlen k - 1) k). intros l. revert b Hb.
  induction l as [|c l IH]; intros b Hb; [done|]. cbn. apply IH. apply Z.mod_pos_bound. lia.
Qed.

(** What a probe has seen when it stops at [p]. *)
Lemma reached_of h hash p j : 0 <= j < zlen (entries h) -> p = slot h hash j ->
  (forall i, 0 <= i < j -> exists e, znth (entries h) (slot h hash i) = Some e /\ used e) -> reached (entries h) hash p.
Proof. intros Hj -> Hb. by exists j. Qed.

Lemma wp_lookup_free h hash (Q : Z -> __hsearch D -> Prop) E : sized h -> 0 <= hash < 2 ^ 64 ->
  (forall p e, znth (entries h) p = Some e -> key e = None -> reached (entries h) hash p -> Q p h) ->
  wp (hsearch_lookup_free hash) h Q E.
Proof.
  intros Hs Hh HQ. unfold hsearch_lookup_free. do 2 wp_step. apply (wp_probe _ _ _ (fun _ => True)); [done| |done].
  intros index i p e -> He. unfold free_step. do 2 wp_step. cbn [fst]. wp_step. eapply wp_rd; [done|].
  destruct (key e) eqn:Hk; wp_step; (split; [done|]).
  - split; [done|]. split; [|done]. unfold used. by rewrite Hk.
  - intros j Hj Hp Hgo. eapply HQ; [done|done|]. apply (reached_of _ _ _ j Hj Hp). intros. by apply Hgo.
Qed.

(** The key is found, or it is not in the table. *)
Lemma wp_find h k (Q : Z + Z -> __hsearch D -> Prop) E :
  sized h -> 0 <= offset_basis h < 2 ^ 64 -> placed (offset_basis h) (entries h) -> is_cstr k ->
  (forall p e, znth (entries h) p = Some e -> key e = Some k -> Q (inl p) h) ->
  (forall p e, znth (entries h) p = Some e -> key e = None -> reached (entries h) (hash_of (offset_basis h) k) p ->
     (forall e', e' ∈ entries h -> key e' <> Some k) -> Q (inr p) h) ->
  wp (loop (Datatypes.S (length (entries h))) (find_step k) (hash_of (offset_basis h) k, 0)) h Q E.
Proof.
  intros Hs Hb [Hkeys Huniq] Hk Hfound Hfree. pose proof (hash_range _ k Hb) as Hh.
  apply (wp_probe _ _ _ (fun p => forall e, znth (entries h) p = Some e -> key e <> Some k)); [done| |done].
  intros index i p e Hpi He. unfold find_step. do 2 wp_step. cbn [fst]. rewrite <- Hpi. wp_step. eapply wp_rd; [done|].
  destruct (key e) as [k'|] eqn:Hke.
  - destruct (Hkeys _ _ _ He Hke) as [Hc' _]. wp_step. apply wp_strcmp; [done|done|]. intros r Hr.
    destruct (Z.eqb_spec r 0) as [Hz|Hz]; wp_step; (split; [done|]).
    + intros j Hj Hp _. eapply Hfound; [done|]. rewrite Hke. by rewrite (proj1 Hr Hz).
    + split; [done|]. split; [unfold used; by rewrite Hke|]. intros e0 He0. rewrite He in He0. injection He0 as <-. rewrite Hke. intros [= ->]. tauto.
  - wp_step. split; [done|]. intros j Hj Hp Hgo. eapply Hfree; [done|done|apply (reached_of _ _ _ j Hj Hp); intros; by apply Hgo|].
    intros e' Hin Hke'. apply list_elem_of_lookup in Hin as [q Hq].
    assert (Hq' : znth (entries h) (Z.of_nat q) = Some e') by (unfold znth; rewrite (proj2 (Z.ltb_ge _ _)) by lia; by rewrite Nat2Z.id).
    destruct (Hkeys _ _ _ Hq' Hke') as (_ & j' & Hj' & Hqj & Hbefore). fold (slot h (hash_of (offset_basis h) k) j') in Hqj.
    destruct (Z.lt_trichotomy j' j) as [Hlt|[->|Hgt]].
    + destruct (Hgo j' ltac:(lia)) as [Hg _]. rewrite <- Hqj in Hg. by apply (Hg e').
    + rewrite Hqj, <- Hp, He in Hq'. congruence.
    + destruct (Hbefore j ltac:(lia)) as (e0 & He0 & Hu0). fold (slot h (hash_of (offset_basis h) k) j) in He0. rewrite <- Hp, He in He0.
      injection He0 as <-. by apply Hu0.
Qed.

(** ** Storing an entry *)

Lemma znth_split {A} (l : list A) p x : znth l p = Some x -> exists u v, l = u ++ x :: v /\ zlen u = p.
Proof.
  intros Hx. pose proof (znth_Some _ _ _ Hx). exists (ztake p l), (zdrop (p + 1) l). split; [|apply zlen_ztake; lia].
  rewrite <- (ztake_zdrop (p + 1) l) at 1. rewrite (ztake_snoc _ _ _ Hx). by rewrite <- app_assoc.
Qed.

Lemma elem_znth {A} (l : list A) x : x ∈ l <-> exists p, znth l p = Some x.
Proof.
  rewrite list_elem_of_lookup. split; intros [i Hi].
  - exists (Z.of_nat i). unfold znth. rewrite (proj2 (Z.ltb_ge _ _)) by lia. by rewrite Nat2Z.id.
  - unfold znth in Hi. case_match; [done|]. by exists (Z.to_nat i).
Qed.

Lemma count_app a b : count (a ++ b) = count a + count b.
Proof. unfold count, zlen. rewrite filter_app, length_app. lia. Qed.

Lemma count_one e : count [e] = match key e with Some _ => 1 | None => 0 end.
Proof.
  unfold count. rewrite filter_cons, filter_nil. destruct (key e); case_decide as Hs; try done.
  destruct Hs. by eexists.
Qed.

Section put.
Context (l : list (ENTRY D)) (p : Z) (old item : ENTRY D) (k : list Z).
Hypothesis (Hold : znth l p = Some old) (Hfree : key old = None) (Hitem : key item = Some k).

Lemma count_put : count (zupd l p item) = count l + 1.
Proof.
  destruct (znth_split _ _ _ Hold) as (u & v & Heq & Hp). rewrite Heq, <- Hp, zupd_middle.
  rewrite !(count_app u), (count_app [item] v : count (item :: v) = _), (count_app [old] v : count (old :: v) = _), !count_one, Hfree, Hitem. lia.
Qed.

Lemma elem_put e : used e -> e ∈ zupd l p item <-> e = item \/ e ∈ l.
Proof.
  intros Hu. destruct (znth_split _ _ _ Hold) as (u & v & Heq & Hp). rewrite Heq, <- Hp, zupd_middle.
  rewrite !elem_of_app, !elem_of_cons. assert (e <> old) by (intros ->; by apply Hu). tauto.
Qed.

Lemma reached_put hash q : reached l hash q -> reached (zupd l p item) hash q.
Proof.
  intros (j & Hj & -> & Hb). exists j. rewrite zlen_zupd. split; [done|]. split; [done|]. intros i Hi.
  destruct (Hb i Hi) as (e & He & Hu). destruct (Z.eq_dec p ((hash + tri i) mod zlen l)) as [<-|Hne].
  - exists item. rewrite znth_zupd_eq by (by eapply znth_Some). split; [done|]. unfold used. by rewrite Hitem.
  - exists e. by rewrite znth_zupd_ne.
Qed.

Lemma placed_put basis : placed basis l -> is_cstr k -> reached l (hash_of basis k) p -> (forall e, e ∈ l -> key e <> Some k) ->
  placed basis (zupd l p item).
Proof.
  intros [Hkeys Huniq] Hk Hr Hno. pose proof (znth_Some _ _ _ Hold) as Hp.
  assert (Hother : forall q e, znth l q = Some e -> key e <> Some k) by (intros q e Hq; apply Hno, elem_znth; by exists q). split.
  - intros q e k' Hq Hk'. destruct (Z.eq_dec p q) as [<-|Hne].
    + rewrite znth_zupd_eq in Hq by done. injection Hq as <-. rewrite Hitem in Hk'. injection Hk' as <-. split; [done|by apply reached_put].
    + rewrite znth_zupd_ne in Hq by done. destruct (Hkeys _ _ _ Hq Hk'). split; [done|by apply reached_put].
  - intros q q' e e' k' Hq Hq' Hk' Hk''. destruct (Z.eq_dec p q) as [<-|Hne], (Z.eq_dec p q') as [<-|Hne']; [done| | |].
    + rewrite znth_zupd_eq in Hq by done. rewrite znth_zupd_ne in Hq' by done. injection Hq as <-. destruct (Hother _ _ Hq'). congruence.
    + rewrite znth_zupd_eq in Hq' by done. rewrite znth_zupd_ne in Hq by done. injection Hq' as <-. destruct (Hother _ _ Hq). congruence.
    + rewrite znth_zupd_ne in Hq, Hq' by done. by eapply Huniq.
Qed.
End put.

Lemma wp_put_entry p item h (Q : unit -> __hsearch D -> Prop) E : 0 <= p < zlen (entries h) ->
  Q tt (Hsearch (offset_basis h) (index_mask h) (entries_used h) (zupd (entries h) p item)) -> wp (on_entries (wr p item)) h Q E.
Proof. intros Hp HQ. apply wp_zoom. by apply wp_wr. Qed.

(** ** Doubling the table *)

(** The table [h] has the entries of [l], and what [h0] has otherwise. *)
Record filled (h0 : __hsearch D) (l : list (ENTRY D)) h : Prop := Filled {
  fi_basis : offset_basis h = offset_basis h0;
  fi_mask : index_mask h = index_mask h0;
  fi_used : entries_used h = entries_used h0;
  fi_len : zlen (entries h) = zlen (entries h0);
  fi_placed : placed (offset_basis h0) (entries h);
  fi_count : count (entries h) = count l;
  fi_elem : forall e, used e -> e ∈ entries h <-> e ∈ l }.

Lemma filled_snoc_unused h0 l h e : filled h0 l h -> key e = None -> filled h0 (l ++ [e]) h.
Proof.
  intros [] He. split; try done.
  - rewrite count_app, count_one, He. lia.
  - intros e' Hu. rewrite elem_of_app, list_elem_of_singleton. assert (e' <> e) by (intros ->; by apply Hu). naive_solver.
Qed.

Lemma filled_store h0 l h p old item k : filled h0 l h -> znth (entries h) p = Some old -> key old = None -> key item = Some k -> is_cstr k ->
  reached (entries h) (hash_of (offset_basis h0) k) p -> (forall e, e ∈ l -> key e <> Some k) ->
  filled h0 (l ++ [item]) (Hsearch (offset_basis h) (index_mask h) (entries_used h) (zupd (entries h) p item)).
Proof.
  intros [Hb Hm Hu Hl Hpl Hc He] Hold Hfree Hitem Hk Hr Hno. split; cbn; try done.
  - by rewrite zlen_zupd.
  - eapply placed_put; try done. intros e Hin Hke. apply (Hno e); [|done]. apply He; [|done]. unfold used. by rewrite Hke.
  - rewrite (count_put _ _ _ _ k) by done. rewrite count_app, count_one, Hitem. lia.
  - intros e Hue. rewrite (elem_put _ _ _ _ Hold Hfree) by done. rewrite elem_of_app, list_elem_of_singleton, (He e Hue). tauto.
Qed.

Lemma filled_sized h0 l h k : filled h0 l h -> 0 <= k <= 63 -> zlen (entries h0) = 2 ^ k -> index_mask h0 = 2 ^ k - 1 -> count l < 2 ^ k -> sized h.
Proof. intros [] Hk Hl Hm Hc. exists k. split; [done|]. split; [congruence|]. split; [congruence|lia]. Qed.

(** An entry that the part before it does not have. *)
Lemma placed_fresh b l i e k : placed b l -> znth l i = Some e -> key e = Some k -> forall e', e' ∈ ztake i l -> key e' <> Some k.
Proof.
  intros [_ Huniq] He Hk e' Hin Hk'. pose proof (znth_Some _ _ _ He). apply elem_znth in Hin as [q Hq].
  pose proof (znth_Some _ _ _ Hq) as Hqr. rewrite zlen_ztake in Hqr by lia. rewrite znth_ztake in Hq by lia.
  rewrite (Huniq q i e' e k Hq He Hk' Hk) in Hqr. lia.
Qed.

Lemma count_ztake i l : count (ztake i l) <= count l.
Proof. rewrite <- (ztake_zdrop i l) at 2. rewrite count_app. pose proof (count_range (zdrop i l)). lia. Qed.

Lemma wp_copy h0 l k (Q : unit -> __hsearch D -> Prop) E :
  0 <= k <= 63 -> zlen (entries h0) = 2 ^ k -> index_mask h0 = 2 ^ k - 1 -> 0 <= offset_basis h0 < 2 ^ 64 ->
  zlen l < 2 ^ 63 -> count l < 2 ^ k -> placed (offset_basis h0) l -> filled h0 [] h0 ->
  (forall h, filled h0 l h -> Q tt h) -> wp (loop (Datatypes.S (length l)) (copy_step l (zlen l)) 0) h0 Q E.
Proof.
  intros Hk Hlen Hmask Hb Hl Hc Hpl H0 HQ.
  apply (wp_loop (fun i h => 0 <= i <= zlen l /\ filled h0 (ztake i l) h) (fun i _ => Z.to_nat (zlen l - i))).
  - split; [|exact H0]. pose proof (zlen_nonneg l). lia.
  - unfold zlen. lia.
  - intros i h [Hi Hf]. unfold copy_step. wp_step; [apply Z.ltb_lt in Heqb|apply Z.ltb_ge in Heqb].
    2: { wp_step. apply HQ. by rewrite ztake_ge in Hf by lia. }
    destruct (znth_lt l i ltac:(lia)) as [e He]. wp_step. eapply wp_rd; [done|]. pose proof (count_ztake i l).
    assert (Hnext : forall h', filled h0 (ztake i l ++ [e]) h' -> (0 <= u64 (i + 1) <= zlen l /\ filled h0 (ztake (u64 (i + 1)) l) h') /\
      (Z.to_nat (zlen l - u64 (i + 1)) < Z.to_nat (zlen l - i))%nat).
    { intros h' Hf'. rewrite u64_id by lia. rewrite (ztake_snoc _ _ _ He). split; [split; [lia|done]|lia]. }
    destruct (key e) as [ke|] eqn:Hke; [|wp_step; by apply Hnext, filled_snoc_unused].
    destruct (pl_keys _ _ Hpl _ _ _ He Hke) as [Hcs _]. do 3 wp_step. apply wp_hsearch_hash; [done|]. wp_step.
    rewrite (fi_basis _ _ _ Hf). apply wp_lookup_free; [eapply filled_sized; try done; lia|by apply hash_range|].
    intros p old Hold Hfree Hr. wp_step. apply wp_put_entry; [by eapply znth_Some|]. wp_step. apply Hnext.
    eapply filled_store; try done. by eapply placed_fresh.
Qed.

Lemma blank_table (n : nat) basis : placed basis (replicate n (blank null)) /\ count (replicate n (blank null)) = 0 /\
  forall e, used e -> ~ e ∈ replicate n (blank null).
Proof.
  assert (Hin : forall e, e ∈ replicate n (blank null) -> e = blank null) by (intros e [-> _]%elem_of_replicate; done).
  assert (Hp : forall p e, znth (replicate n (blank null)) p = Some e -> e = blank null) by (intros p e Hp; apply Hin, elem_znth; by exists p).
  split; [split|split].
  - intros p e k He%Hp Hk. by subst e.
  - intros p q e e' k He%Hp _ Hk _. by subst e.
  - unfold count. clear. induction n as [|n IH]; [done|]. cbn [replicate]. rewrite filter_cons_False; [done|]. by intros [].
  - intros e Hu He%Hin. subst e. by apply Hu.
Qed.

Definition emptied h : __hsearch D :=
  Hsearch (offset_basis h) (index_mask h * 2 + 1) (entries_used h) (replicate (Z.to_nat (2 * zlen (entries h))) (blank null)).

Lemma wp_grow_none h (Q : unit -> __hsearch D -> Prop) (E : Z -> __hsearch D -> Prop) : E ENOMEM h -> wp (grow null false) h Q E.
Proof. done. Qed.

Lemma wp_grow h k room (Q : unit -> __hsearch D -> Prop) (E : Z -> __hsearch D -> Prop) : 0 <= k <= 61 -> zlen (entries h) = 2 ^ k -> index_mask h = 2 ^ k - 1 ->
  0 <= offset_basis h < 2 ^ 64 -> placed (offset_basis h) (entries h) ->
  (room = false -> E ENOMEM h) -> (room = true -> forall h', filled (emptied h) (entries h) h' -> Q tt h') -> wp (grow null room) h Q E.
Proof.
  intros Hk Hl Hm Hb Hpl HE HQ. unfold grow. do 2 wp_step. assert (H61 : 0 < 2 ^ k <= 2 ^ 61) by (split; [apply Z.pow_pos_nonneg; lia|apply Z.pow_le_mono_r; lia]).
  rewrite (u64_id (index_mask h + 1)) by lia. rewrite (u64_id ((index_mask h + 1) * 2)) by lia. rewrite u64_id by lia. wp_step. wp_step; [apply HE; by destruct room|]. do 2 wp_step.
  destruct room; [|done]. destruct (blank_table (Z.to_nat (2 * zlen (entries h))) (offset_basis h)) as (Hbp & Hbc & Hbe).
  replace (index_mask h + 1) with (zlen (entries h)) by lia.
  replace (Hsearch _ _ _ _) with (emptied h) by (unfold emptied; f_equal; [lia|f_equal; lia]).
  pose proof (count_range (entries h)). apply (wp_copy _ _ (k + 1)); cbn; rewrite ?zlen_replicate, ?Z.pow_add_r, ?Z.pow_1_r by lia; try lia; try done.
  - split; cbn; try done. intros e Hu. split; [intros He; by destruct (Hbe e Hu)|by intros ?%elem_of_nil].
  - by apply HQ.
Qed.

(** ** The table as a map from keys to entries *)

Definition represents h (m : gmap (list Z) (ENTRY D)) : Prop := forall k e, m !! k = Some e <-> key e = Some k /\ e ∈ entries h.

Lemma represents_store h h' m k item : represents h m -> key item = Some k -> m !! k = None ->
  (forall e, used e -> e ∈ entries h' <-> e = item \/ e ∈ entries h) -> represents h' (<[k := item]> m).
Proof.
  intros Hm Hk Hno He k' e. destruct (decide (k = k')) as [<-|Hne].
  - rewrite lookup_insert_eq. split.
    + intros [= <-]. split; [done|]. apply He; [unfold used; by rewrite Hk|by left].
    + intros [Hke Hin]. apply He in Hin as [->|Hin]; [done| |unfold used; by rewrite Hke]. assert (m !! k = Some e) by (by apply Hm). congruence.
  - rewrite lookup_insert_ne by done. rewrite (Hm k' e). split; intros [Hke Hin]; (split; [done|]).
    + apply He; [unfold used; by rewrite Hke|by right].
    + apply He in Hin as [->|Hin]; [congruence|done|unfold used; by rewrite Hke].
Qed.

(** The entry is put at a free place [p] of the table [h], which has the entries of [h0]. *)
Lemma table_store h0 h j p old item m k : represents h0 m -> m !! k = None -> key item = Some k -> is_cstr k ->
  4 <= j <= 62 -> zlen (entries h) = 2 ^ j -> index_mask h = 2 ^ j - 1 -> entries_used h = count (entries h) -> 2 * (count (entries h) + 1) <= 2 ^ j ->
  0 <= offset_basis h < 2 ^ 64 -> placed (offset_basis h) (entries h) -> (forall e, used e -> e ∈ entries h <-> e ∈ entries h0) ->
  znth (entries h) p = Some old -> key old = None -> reached (entries h) (hash_of (offset_basis h) k) p ->
  let h' := Hsearch (offset_basis h) (index_mask h) (u64 (entries_used h + 1)) (zupd (entries h) p item) in
  table_ok h' /\ represents h' (<[k := item]> m) /\ znth (entries h') p = Some item.
Proof.
  intros Hm Hno Hitem Hk Hj Hlen Hmask Hused Hcount Hb Hpl Hsame Hold Hfree Hr h'. pose proof (znth_Some _ _ _ Hold).
  pose proof (count_range (entries h)). assert (2 ^ j <= 2 ^ 62) by (apply Z.pow_le_mono_r; lia).
  assert (Hnone : forall e, e ∈ entries h -> key e <> Some k).
  { intros e Hin Hke. apply Hsame in Hin; [|unfold used; by rewrite Hke]. assert (m !! k = Some e) by (by apply Hm). congruence. }
  split; [|split].
  - exists j. unfold h'. cbn. rewrite zlen_zupd, (count_put _ _ _ _ k Hold Hfree Hitem), u64_id by lia. split_and!; try lia. by eapply placed_put.
  - eapply represents_store; [done..|]. intros e Hu. unfold h'. cbn. rewrite (elem_put _ _ _ _ Hold Hfree) by done. by rewrite (Hsame e Hu).
  - unfold h'. cbn. by apply znth_zupd_eq.
Qed.

(** A result of [hsearch_r] on a table with the entries [m]: the state after it and the place of the entry. *)
Definition answered (m : gmap (list Z) (ENTRY D)) (item : ENTRY D) (action : ACTION) (k : list Z) (p : Z) h' : Prop :=
  table_ok h' /\ match m !! k with
                 | Some e => represents h' m /\ znth (entries h') p = Some e
                 | None => action = ENTER /\ represents h' (<[k := item]> m) /\ znth (entries h') p = Some item
                 end.

Definition refused (m : gmap (list Z) (ENTRY D)) (room : bool) (action : ACTION) (k : list Z) (er : Z) : Prop :=
  m !! k = None /\ ((action = FIND /\ er = ESRCH) \/ (action = ENTER /\ room = false /\ er = ENOMEM)).

Lemma grown_used j c : 4 <= j -> 2 * c <= 2 ^ j -> 0 <= c -> 2 ^ j - 1 <= 2 * c -> 2 * (c + 1) <= 2 ^ (j + 1).
Proof. intros. rewrite Z.pow_add_r, Z.pow_1_r by lia. assert (2 ^ 4 <= 2 ^ j) by (apply Z.pow_le_mono_r; lia). lia. Qed.

Lemma half_used j c : 4 <= j -> 2 * c <= 2 ^ j -> 2 * c < 2 ^ j - 1 -> 2 * (c + 1) <= 2 ^ j.
Proof. intros. replace j with (j - 1 + 1) in * by lia. rewrite Z.pow_add_r, Z.pow_1_r in * by lia. lia. Qed.

Lemma wp_enter h m room item k p old : table_ok h -> represents h m -> key item = Some k -> is_cstr k -> m !! k = None ->
  (room = true -> zlen (entries h) < 2 ^ 62) -> znth (entries h) p = Some old -> key old = None -> reached (entries h) (hash_of (offset_basis h) k) p ->
  wp (entry ← (if index_mask h <=? u64 (entries_used h * 2) then grow null room;; hsearch_lookup_free (hash_of (offset_basis h) k) else mret p);
      on_entries (wr entry item);;
      updS (fun h => Hsearch (offset_basis h) (index_mask h) (u64 (entries_used h + 1)) (entries h));;
      mret entry) h (answered m item ENTER k) (fun er h' => h' = h /\ refused m room ENTER k er).
Proof.
  intros (j & Hj & Hlen & Hmask & Hused & Hhalf & Hb & Hpl) Hm Hitem Hk Hno Hroom Hold Hfree Hr.
  pose proof (count_range (entries h)). assert (H62 : 2 ^ j <= 2 ^ 62) by (apply Z.pow_le_mono_r; lia). rewrite u64_id by lia.
  wp_step. wp_step; [apply Z.leb_le in Heqb|apply Z.leb_gt in Heqb; wp_step].
  - assert (Hj' : room = true -> j <= 61) by (intros R; specialize (Hroom R); apply Z.lt_succ_r, (Z.pow_lt_mono_r_iff 2); lia). wp_step.
    destruct room.
    2: { apply wp_grow_none. split; [done|]. split; [done|]. by right. }
    apply (wp_grow _ j); [split; [lia|by apply Hj']|done..| |]; [done|]. intros _ h' Hf. specialize (Hj' eq_refl).
    assert (Hlen' : zlen (entries (emptied h)) = 2 ^ (j + 1)) by (cbn; rewrite zlen_replicate, Z.pow_add_r, Z.pow_1_r by lia; lia).
    assert (Hmask' : index_mask (emptied h) = 2 ^ (j + 1) - 1) by (cbn; rewrite Z.pow_add_r, Z.pow_1_r by lia; lia).
    pose proof (grown_used j (count (entries h)) ltac:(lia) Hhalf ltac:(lia) ltac:(lia)).
    apply wp_lookup_free; [eapply (filled_sized _ _ _ (j + 1)); try done; lia|by apply hash_range|].
    intros q old' Hq Hfree' Hr'. wp_step. apply wp_put_entry; [by eapply znth_Some|]. do 3 wp_step. cbn. unfold answered. rewrite Hno.
    destruct Hf as [Hfb Hfm Hfu Hfl Hfp Hfc Hfe]. cbn [offset_basis emptied] in *.
    edestruct (table_store h h' (j + 1) q old' item m k) as (? & ? & ?); try done; rewrite ?Hfb; try done; try lia; try congruence.
    cbn in Hfu. congruence.
  - wp_step. apply wp_put_entry; [by eapply znth_Some|]. do 3 wp_step. cbn. unfold answered. rewrite Hno.
    edestruct (table_store h h j p old item m k) as (? & ? & ?); try done. apply half_used; lia.
Qed.

Lemma wp_hsearch_r h m room item action k : table_ok h -> represents h m -> key item = Some k -> is_cstr k ->
  (room = true -> zlen (entries h) < 2 ^ 62) ->
  wp (hsearch_r null room item action) h (answered m item action k) (fun er h' => h' = h /\ refused m room action k er).
Proof.
  intros Hok Hm Hitem Hk Hroom. pose proof Hok as (j & Hj & Hlen & Hmask & Hused & Hhalf & Hb & Hpl).
  unfold hsearch_r. do 2 wp_step. rewrite Hitem. do 3 wp_step. apply wp_hsearch_hash; [done|]. wp_step.
  apply wp_find; [|done|done|done| |].
  - exists j. pose proof (count_range (entries h)). assert (0 < 2 ^ j) by (apply Z.pow_pos_nonneg; lia). split_and!; try lia.
  - intros p e He Hke. wp_step. split; [done|]. assert (Hme : m !! k = Some e) by (apply Hm; split; [done|apply elem_znth; by exists p]). by rewrite Hme.
  - intros p e He Hke Hr Hnone. assert (Hno : m !! k = None).
    { destruct (m !! k) as [e'|] eqn:Hme; [|done]. apply Hm in Hme as [Hk' Hin]. by destruct (Hnone _ Hin). }
    destruct action; [wp_step; split; [done|]; split; [done|by left]|]. by eapply wp_enter.
Qed.

(** ** The table of the process *)

(** An empty table at first, then the one that the entries are in. *)
Definition globals_ok (p : globals D) (m : gmap (list Z) (ENTRY D)) : Prop :=
  if global_hashtable_initialized p then exists h, global_hashtable p = Some h /\ table_ok h /\ represents h m else m = ∅.

Lemma created basis : 0 <= basis < 2 ^ 64 -> let h := Hsearch basis 15 0 (replicate 16 (blank null)) in table_ok h /\ represents h ∅.
Proof.
  intros Hb h. destruct (blank_table 16 basis) as (Hp & Hc & He). split.
  - exists 4. change (entries h) with (replicate 16 (blank null)). rewrite Hc. split_and!; try done; try (cbn; lia).
  - intros k e. rewrite lookup_empty. split; [done|]. intros [Hk Hin]. destruct (He e); [|done]. unfold used. by rewrite Hk.
Qed.

(** C19: The hash table of the process is a map from keys to entries. For
    whatever the table holds, however many entries it has, and whatever the
    random start of the hash is, [hsearch] terminates with the entry of the
    key's string if there is one; if there is none, FIND fails with ESRCH, and
    ENTER stores the item, which alone is added: the table is created when it is
    not there and doubled when half of it is used, and then it holds the same
    entries as before. When memory is lacking, the call fails with ENOMEM and
    the entries are as before. *)
Theorem hsearch_correct basis room item action (p : globals D) m k :
  0 <= basis < 2 ^ 64 -> globals_ok p m -> key item = Some k -> is_cstr k ->
  (forall h, room = true -> global_hashtable p = Some h -> zlen (entries h) < 2 ^ 62) ->
  wp (hsearch null basis room item action) p
    (fun q p' => exists h, global_hashtable_initialized p' = true /\ global_hashtable p' = Some h /\ answered m item action k q h)
    (fun er p' => globals_ok p' m /\ (refused m room action k er \/ m = ∅ /\ room = false /\ er = ENOMEM)).
Proof.
  intros Hb Hok Hitem Hk Hroom. unfold hsearch. do 2 wp_step. unfold globals_ok in Hok.
  assert (Hrun : forall h p', table_ok h -> represents h m -> global_hashtable_initialized p' = true -> global_hashtable p' = Some h ->
    (room = true -> zlen (entries h) < 2 ^ 62) ->
    wp (on_table (on_htab (hsearch_r null room item action))) p'
      (fun q p' => exists h, global_hashtable_initialized p' = true /\ global_hashtable p' = Some h /\ answered m item action k q h)
      (fun er p' => globals_ok p' m /\ (refused m room action k er \/ m = ∅ /\ room = false /\ er = ENOMEM))).
  { intros h [t b] Ht Hm Hi Hg Hr. cbn in Hi, Hg. subst b t. apply wp_zoom. cbn. unfold on_htab.
    pose proof (wp_hsearch_r h m room item action k Ht Hm Hitem Hk Hr) as Hw. unfold wp in *. destruct (hsearch_r null room item action h) as [[q|e| |] h']; try done.
    - by exists h'.
    - destruct Hw as [-> Hre]. split; [by exists h|by left]. }
  destruct (global_hashtable_initialized p) eqn:Hi; cbn [negb]; wp_step.
  - wp_step. destruct Hok as (h & Hg & Ht & Hm). apply (Hrun h); try done. intros R. by apply Hroom.
  - wp_step. apply wp_zoom. unfold hcreate_r. destruct room.
    + do 3 wp_step. do 2 wp_step; [done|]. wp_step. destruct (created basis Hb) as [Ht Hm]. subst m. by eapply Hrun.
    + wp_step. do 2 wp_step; [|done]. destruct p as [t b]. cbn in *. subst b. split; [done|]. right. done.
Qed.

(** After an item was put in the empty table. *)
Lemma entered h item k : table_ok h -> represents h ∅ -> key item = Some k -> is_cstr k -> zlen (entries h) < 2 ^ 62 ->
  globals_ok (Globals (Some (snd (hsearch_r null true item ENTER h))) true) {[k := item]}.
Proof.
  intros Ht Hm Hk Hc Hl. pose proof (wp_hsearch_r h ∅ true item ENTER k Ht Hm Hk Hc (fun _ => Hl)) as Hw. unfold wp in Hw.
  destruct (hsearch_r null true item ENTER h) as [[q|e| |] h']; try done.
  - destruct Hw as [Hok Hw]. rewrite lookup_empty in Hw. destruct Hw as (_ & Hr & _). by exists h'.
  - destruct Hw as (_ & _ & [[? _]|(_ & ? & _)]); done.
Qed.

(** [hdestroy] leaves no entry, whether or not there is a table. *)
Lemma hdestroy_correct p m : globals_ok p m -> wp hdestroy p (fun _ p' => globals_ok p' ∅) (fun _ _ => False).
Proof.
  intros Hok. unfold globals_ok in Hok. unfold hdestroy. do 2 wp_step. destruct (global_hashtable_initialized p) eqn:Hi.
  - destruct Hok as (h & Hg & _). wp_step. apply wp_zoom. unfold hdestroy_r. rewrite Hg. do 2 wp_step. do 2 wp_step. done.
  - wp_step. unfold globals_ok. by rewrite Hi.
Qed.
End table.

Module Demo.

Definition name (c : Z) : list Z := [107; c; 0].
Definition item (c : Z) : ENTRY Z := Entry (Some (name c)) c.

(** The table in which one entry was put. *)
Definition table : __hsearch Z := snd (hsearch_r 0 true (item 97) ENTER (Hsearch 14695981039346656037 15 0 (replicate 16 (blank 0)))).
Definition proc : globals Z := Globals (Some table) true.

Lemma name_cstr c : c <> 0 -> is_cstr (name c).
Proof. intros Hc. exists [107; c]. split; [done|]. set_solver by lia. Qed.

Lemma proc_ok : globals_ok proc {[name 97 := item 97]}.
Proof.
  destruct (created 0 14695981039346656037 ltac:(lia)) as [Ht Hm].
  apply entered; [done|done|done|apply name_cstr; lia|reflexivity].
Qed.

Lemma hsearch_correct_witness : let m := {[name 97 := item 97]} : gmap (list Z) (ENTRY Z) in
  globals_ok proc m /\ m !! name 98 = None /\
  wp (hsearch 0 5 true (item 98) ENTER) proc
    (fun q p' => exists h, global_hashtable_initialized p' = true /\ global_hashtable p' = Some h /\ answered m (item 98) ENTER (name 98) q h)
    (fun er p' => globals_ok p' m /\ (refused m true ENTER (name 98) er \/ m = ∅ /\ true = false /\ er = ENOMEM)).
Proof.
  cbv zeta. split; [exact proc_ok|]. split; [reflexivity|].
  apply (hsearch_correct 0 5 true (item 98) ENTER proc _ (name 98)); [lia|exact proc_ok|reflexivity|apply name_cstr; lia|].
  intros h _ Hg. vm_compute in Hg. injection Hg as <-. vm_compute. reflexivity.
Defined.

Fixpoint enter (cs : list Z) : M (globals Z) unit :=
  match cs with
  | [] => mret tt
  | c :: cs => hsearch 0 14695981039346656037 true (item c) ENTER;; enter cs
  end.

Definition full : globals Z := snd (enter [1; 2; 3; 4; 5; 6; 7; 8; 9] (Globals None false)).
Definition find (c : Z) : outcome Z := fst (hsearch 0 0 true (item c) FIND full).

(** The ninth entry doubles the table. *)
Example doubled : (fun h => (index_mask h, entries_used h)) <$> global_hashtable full = Some (31, 9).
Proof. vm_compute. reflexivity. Qed.

Example doubled_find : map find [1; 9; 10] = [Ret 17; Ret 25; Err ESRCH].
Proof. vm_compute. reflexivity. Qed.

End Demo.
