(* ===== verification/Inet.v ===== *)
(** * Internet addresses: [upstream-openbsd/lib/libc/net/inet_pton.c] and [inet_ntop.c]

    The text of an address is an array that ends in a NUL, read with checked
    accesses; the destination is the state. The arrays of the frames ([tmp],
    [words]) are run with [on_local], from arbitrary bytes where the code does
    not initialise them. A pointer into an array is an index. [inet_pton]
    returns 1 or 0, or fails with [errno]; [inet_ntop] returns or fails. *)
From S2P Require Import Prelude CString NsName.

Definition AF_INET : Z := 2.
Definition AF_INET6 : Z := 10.
Definition INADDRSZ : Z := 4.
Definition IN6ADDRSZ : Z := 16.
Definition INT16SZ : Z := 2.

(** ** inet_pton.c *)

(** The loop of [inet_pton4] over [tmp]; the result is [octets], or [None] where
    the code returns 0. *)
Definition pton4_step (src : list Z) '((s, tp, saw_digit, octets) : Z * Z * bool * Z)
    : M (list Z) (step (Z * Z * bool * Z) (option Z)) :=
  ch ← rd src s;
  if ch =? 0 then mret (Done (Some octets)) else
  match digit_pos ch with
  | Some d =>
      v ← rdS tp;
      let new := v * 10 + d in
      if 255 <? new then mret (Done None)
      else if negb saw_digit then
        if 4 <? octets + 1 then mret (Done None)
        else wr tp new;; mret (Next (s + 1, tp, true, octets + 1))
      else wr tp new;; mret (Next (s + 1, tp, saw_digit, octets))
  | None =>
      if (ch =? 46) && saw_digit then
        if octets =? 4 then mret (Done None)
        else wr (tp + 1) 0;; mret (Next (s + 1, tp + 1, false, octets))
      else mret (Done None)
  end.

Definition inet_pton4 (tmp0 src : list Z) (s : Z) : M (list Z) Z :=
  '(r, tmp) ← on_local tmp0
    (wr 0 0;; loop (Z.to_nat (zlen src - s) + 1) (pton4_step src) (s, 0, false, 0));
  match r with
  | None => mret 0
  | Some octets =>
      if octets <? 4 then mret 0
      else memcpy tmp 0 0 INADDRSZ;; mret 1
  end.

(** [strchr] in [xdigits_l], then in [xdigits_u]: the position. *)
Definition xdigit_pos (c : Z) : option Z :=
  if isdigit c then Some (c - 48)
  else if (97 <=? c) && (c <=? 102) then Some (c - 87)
  else if (65 <=? c) && (c <=? 70) then Some (c - 55)
  else None.

(** [*tp++ = (u_char) (val >> 8) & 0xff; *tp++ = (u_char) val & 0xff;] *)
Definition put_word (tp val : Z) : M (list Z) Z :=
  wr tp (Z.land (u8 (Z.shiftr val 8)) 0xff);;
  wr (tp + 1) (Z.land (u8 val) 0xff);;
  mret (tp + 2).

(** The locals of the loop of [inet_pton6]; [colonp] is [None] for NULL. *)
Record scan6 : Type := Scan6 {
  p_src : Z; p_tp : Z; p_colonp : option Z; p_curtok : Z;
  p_saw_xdigit : bool; p_count_xdigit : Z; p_val : Z
}.

(** The result is [tp], [colonp], [saw_xdigit] and [val] behind the loop, or
    [None] where the code returns 0; [tmp4] is the frame of [inet_pton4]. *)
Definition pton6_step (tmp4 src : list Z) (l : scan6)
    : M (list Z) (step scan6 (option (Z * option Z * bool * Z))) :=
  let '(Scan6 s tp colonp curtok saw_xdigit count_xdigit val) := l in
  let endp := IN6ADDRSZ in
  ch ← rd src s;
  let s := s + 1 in
  if ch =? 0 then mret (Done (Some (tp, colonp, saw_xdigit, val))) else
  match xdigit_pos ch with
  | Some d =>
      if 4 <=? count_xdigit then mret (Done None) else
      let val := Z.lor (u32 (Z.shiftl val 4)) d in
      if 0xffff <? val then mret (Done None)
      else mret (Next (Scan6 s tp colonp curtok true (count_xdigit + 1) val))
  | None =>
      if ch =? 58 then
        let curtok := s in
        if negb saw_xdigit then
          match colonp with
          | Some _ => mret (Done None)
          | None => mret (Next (Scan6 s tp (Some tp) curtok saw_xdigit count_xdigit val))
          end
        else
          c ← rd src s;
          if c =? 0 then mret (Done None)
          else if endp <? tp + INT16SZ then mret (Done None)
          else
            tp ← put_word tp val;
            mret (Next (Scan6 s tp colonp curtok false 0 0))
      else if (ch =? 46) && (tp + INADDRSZ <=? endp) then
        r ← at_off tp (inet_pton4 tmp4 src curtok);
        if 0 <? r then mret (Done (Some (tp + INADDRSZ, colonp, false, val)))
        else mret (Done None)
      else mret (Done None)
  end.

(** [endp[-i] = colonp[n - i]; colonp[n - i] = 0;] *)
Definition shift_step (colonp n i : Z) : M (list Z) (step Z unit) :=
  if negb (i <=? n) then mret (Done tt) else
  v ← rdS (colonp + (n - i));
  wr (IN6ADDRSZ - i) v;;
  wr (colonp + (n - i)) 0;;
  mret (Next (i + 1)).

Definition shift_gap (tp colonp : Z) : M (list Z) unit :=
  let n := tp - colonp in
  loop (Z.to_nat n + 1) (shift_step colonp n) 1.

(** What follows the loop: the last group and the gap. [None] is [return (0)]. *)
Definition last_group (tp : Z) (saw_xdigit : bool) (val : Z) : M (list Z) (option Z) :=
  if saw_xdigit then
    if IN6ADDRSZ <? tp + INT16SZ then mret None
    else tp ← put_word tp val; mret (Some tp)
  else mret (Some tp).

Definition close_gap (tp : Z) (colonp : option Z) : M (list Z) (option Z) :=
  match colonp with
  | Some colonp =>
      if tp =? IN6ADDRSZ then mret None
      else shift_gap tp colonp;; mret (Some IN6ADDRSZ)
  | None => mret (Some tp)
  end.

(** Leading [::] requires some special handling. *)
Definition leading_colon (src : list Z) (s : Z) : M (list Z) (option Z) :=
  c ← rd src s;
  if c =? 58 then
    c ← rd src (s + 1);
    if negb (c =? 58) then mret None else mret (Some (s + 1))
  else mret (Some s).

(** [return (0)] of a part of a function. *)
Definition or_0 {A} (r : option A) (k : A -> M (list Z) Z) : M (list Z) Z :=
  match r with Some a => k a | None => mret 0 end.

Definition pton6_tail (r : option (Z * option Z * bool * Z)) : M (list Z) Z :=
  or_0 r (fun '(tp, colonp, saw_xdigit, val) =>
  r ← last_group tp saw_xdigit val;
  or_0 r (fun tp =>
  r ← close_gap tp colonp;
  or_0 r (fun tp => if negb (tp =? IN6ADDRSZ) then mret 0 else mret 1))).

(** The part of [inet_pton6] that works on [tmp]: the return value. *)
Definition pton6_tmp (tmp4 src : list Z) (s : Z) : M (list Z) Z :=
  setS (replicate (Z.to_nat IN6ADDRSZ) 0);;
  r ← leading_colon src s;
  or_0 r (fun s =>
  r ← loop (Z.to_nat (zlen src - s) + 1) (pton6_step tmp4 src) (Scan6 s 0 None s false 0 0);
  pton6_tail r).

Definition inet_pton6 (tmp0 tmp4 src : list Z) (s : Z) : M (list Z) Z :=
  '(r, tmp) ← on_local tmp0 (pton6_tmp tmp4 src s);
  if r =? 0 then mret 0 else memcpy tmp 0 0 IN6ADDRSZ;; mret 1.

Definition inet_pton (tmp0 tmp4 : list Z) (af : Z) (src : list Z) (s : Z) : M (list Z) Z :=
  if af =? AF_INET then inet_pton4 tmp4 src s
  else if af =? AF_INET6 then inet_pton6 tmp0 tmp4 src s
  else fail EAFNOSUPPORT.

(** ** inet_ntop.c *)

(** ["%u.%u.%u.%u"] and ["%x"] *)
Definition fmt_quad (a b c d : Z) : list Z :=
  fmt_d a ++ [46] ++ fmt_d b ++ [46] ++ fmt_d c ++ [46] ++ fmt_d d.

Definition inet_ntop4 (tmp0 src : list Z) (o size : Z) : M (list Z) unit :=
  a ← rd src o; b ← rd src (o + 1); c ← rd src (o + 2); d ← rd src (o + 3);
  '(l, tmp) ← on_local tmp0 (snprintf 0 16 (fmt_quad a b c d));
  fail_if ((l <=? 0) || (size <=? l)) ENOSPC;;
  strlcpy tmp size;;
  mret tt.

(** [words[i / 2] |= (src[i] << ((1 - (i % 2)) << 3))], where the state is [words] *)
Definition words_step (src : list Z) (i : Z) : M (list Z) (step Z unit) :=
  if negb (i <? IN6ADDRSZ) then mret (Done tt) else
  v ← rd src i;
  w ← rdS (i / 2);
  wr (i / 2) (Z.lor w (Z.shiftl v (Z.shiftl (1 - i mod 2) 3)));;
  mret (Next (i + 1)).

(** A run of zero words: its base, -1 for none, and its length, which the code
    reads only when there is one. *)
Definition zrun : Type := Z * Z.

Definition better (cur best : zrun) : zrun :=
  if (best.1 =? -1) || (best.2 <? cur.2) then cur else best.

Definition best_step {S} (words : list Z) '((i, best, cur) : Z * zrun * zrun) : M S (step (Z * zrun * zrun) (zrun * zrun)) :=
  if negb (i <? 8) then mret (Done (best, cur)) else
  w ← rd words i;
  if w =? 0 then
    mret (Next (i + 1, best, if cur.1 =? -1 then (i, 1) else (cur.1, cur.2 + 1)))
  else if negb (cur.1 =? -1) then mret (Next (i + 1, better cur best, (-1, cur.2)))
  else mret (Next (i + 1, best, cur)).

Definition best_run {S} (words : list Z) : M S zrun :=
  '(best, cur) ← loop 9 (best_step words) (0, (-1, 0), (-1, 0));
  let best := if negb (cur.1 =? -1) then better cur best else best in
  mret (if negb (best.1 =? -1) && (best.2 <? 2) then (-1, best.2) else best).

(** [if (tp + 1 >= ep) { errno = ENOSPC; return (NULL); } *tp++ = c;] *)
Definition put_char (ep tp c : Z) : M (list Z) Z :=
  fail_if (ep <=? tp + 1) ENOSPC;; wr tp c;; mret (tp + 1).

Definition ntop6_size : Z := 46.

(** The loop that formats the words; the result is [tp]. *)
Definition ntop6_step (tmp4 src words : list Z) (best : zrun) '((i, tp) : Z * Z) : M (list Z) (step (Z * Z) Z) :=
  let ep := ntop6_size in
  if negb ((i <? 8) && (tp <? ep)) then mret (Done tp) else
  if negb (best.1 =? -1) && (best.1 <=? i) && (i <? best.1 + best.2) then
    tp ← (if i =? best.1 then put_char ep tp 58 else mret tp);
    mret (Next (i + 1, tp))
  else
    tp ← (if negb (i =? 0) then put_char ep tp 58 else mret tp);
    w5 ← rd words 5;
    if (i =? 6) && (best.1 =? 0) && ((best.2 =? 6) || ((best.2 =? 5) && (w5 =? 0xffff))) then
      at_off tp (inet_ntop4 tmp4 src 12 (ep - tp));;
      tmp ← getS;
      n ← strlen (zdrop tp tmp);
      mret (Done (tp + n))
    else
      w ← rd words i;
      advance ← snprintf tp (ep - tp) (hex_digits 8 w []);
      fail_if ((advance <=? 0) || (ep - tp <=? advance)) ENOSPC;;
      mret (Next (i + 1, tp + advance)).

(** The part of [inet_ntop6] that works on [tmp]: the final [tp]. *)
Definition ntop6_tmp (tmp4 src : list Z) : M (list Z) Z :=
  let ep := ntop6_size in
  '(_, words) ← on_local (replicate 8 0) (loop 17 (words_step src) 0);
  best ← best_run words;
  tp ← loop 9 (ntop6_step tmp4 src words best) (0, 0);
  tp ← (if negb (best.1 =? -1) && (best.1 + best.2 =? 8) then put_char ep tp 58 else mret tp);
  put_char ep tp 0.

Definition inet_ntop6 (tmp0 tmp4 src : list Z) (size : Z) : M (list Z) unit :=
  '(tp, tmp) ← on_local tmp0 (ntop6_tmp tmp4 src);
  fail_if (size <? tp) ENOSPC;;
  strlcpy tmp size;;
  mret tt.

Definition inet_ntop (tmp0 tmp4 : list Z) (af : Z) (src : list Z) (size : Z) : M (list Z) unit :=
  if af =? AF_INET then inet_ntop4 tmp4 src 0 size
  else if af =? AF_INET6 then inet_ntop6 tmp0 tmp4 src size
  else fail EAFNOSUPPORT.

(** ** The texts of addresses *)

(** The fields of a text between the separators [c]. *)
Fixpoint split (c : Z) (t : list Z) : list (list Z) :=
  match t with
  | [] => [[]]
  | x :: t =>
      if x =? c then [] :: split c t
      else match split c t with
           | f :: fs => (x :: f) :: fs
           | [] => [[x]]
           end
  end.

Definition dec_val (f : list Z) : Z := foldl (fun v c => v * 10 + (c - 48)) 0 f.

(** A decimal octet: any number of leading zeros. *)
Definition decimal (f : list Z) : option Z :=
  if (0 <? zlen f) && forallb isdigit f && (dec_val f <=? 255) then Some (dec_val f) else None.

(** Four decimal octets between dots. *)
Definition quad (t : list Z) : option (list Z) :=
  match mapM decimal (split 46 t) with
  | Some a => if zlen a =? INADDRSZ then Some a else None
  | None => None
  end.

Definition xdigit (c : Z) : Z := default 0 (xdigit_pos c).
Definition hex_val (f : list Z) : Z := foldl (fun v c => v * 16 + xdigit c) 0 f.

Definition octets_of_word (w : Z) : list Z := [w / 256; w mod 256].

(** One to four hexadecimal digits. *)
Definition hextet (f : list Z) : option (list Z) :=
  if (0 <? zlen f) && (zlen f <=? 4) && forallb (fun c => bool_decide (is_Some (xdigit_pos c))) f
  then Some (octets_of_word (hex_val f)) else None.

(** The last field may be a dotted quad, whose first octet has four digits at most. *)
Definition last_field (f : list Z) : option (list Z) :=
  match hextet f with
  | Some b => Some b
  | None => if zlen (hd [] (split 46 f)) <=? 4 then quad f else None
  end.

(** The sixteen octets: those before and behind the gap at [c], if there is one,
    which stands for at least one octet. *)
Definition finish (b : list Z) (c : option Z) : option (list Z) :=
  match c with
  | None => if zlen b =? IN6ADDRSZ then Some b else None
  | Some c =>
      if zlen b <? IN6ADDRSZ
      then Some (ztake c b ++ replicate (Z.to_nat (IN6ADDRSZ - zlen b)) 0 ++ zdrop c b) else None
  end.

(** The fields between the colons, [b] being the octets before them and [c] the
    gap: an empty field is the gap; one that ends the text follows the gap. *)
Fixpoint fields6 (b : list Z) (c : option Z) (fs : list (list Z)) : option (list Z) :=
  match fs with
  | [] => None
  | f :: fs' =>
      match f, fs' with
      | _, [] => match last_field f with Some x => finish (b ++ x) c | None => None end
      | [], _ =>
          match c, fs' with
          | Some _, _ => None
          | None, [[]] => finish b (Some (zlen b))
          | None, _ => fields6 b (Some (zlen b)) fs'
          end
      | _, _ => match hextet f with Some x => fields6 (b ++ x) c fs' | None => None end
      end
  end.

Definition address6 (t : list Z) : option (list Z) :=
  match t with
  | 58 :: t' => match t' with 58 :: _ => fields6 [] None (split 58 t') | _ => None end
  | _ => fields6 [] None (split 58 t)
  end.

(** ** Lemmas on fields *)

Lemma split_cons c t : exists f fs, split c t = f :: fs.
Proof.
  induction t as [|x t (f & fs & IH)]; [by exists [], []|]. cbn [split]. rewrite IH.
  destruct (x =? c); eauto.
Qed.

(** Characters that are no separators belong to the first field. *)
Lemma split_app c u t :
  Forall (fun x => x <> c) u ->
  split c (u ++ t) = match split c t with f :: fs => (u ++ f) :: fs | [] => [] end.
Proof.
  intros Hu. destruct (split_cons c t) as (f & fs & Hs). rewrite Hs.
  induction Hu as [|x u Hx Hu IH]; [done|]. cbn [split app]. rewrite (proj2 (Z.eqb_neq x c) Hx). by rewrite IH.
Qed.

Lemma split_none c u : Forall (fun x => x <> c) u -> split c u = [u].
Proof. intros Hu. rewrite <- (app_nil_r u) at 1. rewrite split_app by done. cbn. by rewrite app_nil_r. Qed.

Lemma split_sep c u t : Forall (fun x => x <> c) u -> split c (u ++ c :: t) = u :: split c t.
Proof. intros Hu. rewrite split_app by done. cbn [split]. by rewrite Z.eqb_refl, app_nil_r. Qed.

Definition digit (c : Z) : Prop := isdigit c = true.

Lemma decimal_bad u c f : ~ digit c -> decimal (u ++ c :: f) = None.
Proof.
  intros Hc. unfold decimal. rewrite forallb_app. cbn [forallb]. unfold digit in Hc.
  destruct (isdigit c); [done|]. by rewrite !andb_false_r, andb_false_l.
Qed.

Lemma dec_val_app u f : dec_val (u ++ f) = foldl (fun v c => v * 10 + (c - 48)) (dec_val u) f.
Proof. unfold dec_val. by rewrite foldl_app. Qed.

Lemma dec_val_snoc u c : dec_val (u ++ [c]) = dec_val u * 10 + (c - 48).
Proof. by rewrite dec_val_app. Qed.

Lemma dec_val_mono f : Forall digit f -> forall v, 0 <= v -> v <= foldl (fun v c => v * 10 + (c - 48)) v f.
Proof.
  induction 1 as [|c f Hc _ IH]; intros v Hv; [done|]. cbn [foldl]. unfold digit, isdigit in Hc.
  etrans; [|apply IH]; lia.
Qed.

Lemma dec_val_nonneg u : Forall digit u -> 0 <= dec_val u.
Proof. intros. by apply dec_val_mono. Qed.

(** A number that is too large stays too large. *)
Lemma decimal_big u f : Forall digit u -> 255 < dec_val u -> decimal (u ++ f) = None.
Proof.
  intros Hu Hv. unfold decimal. destruct (forallb isdigit (u ++ f)) eqn:Hf; [|by rewrite andb_false_r].
  rewrite forallb_app, andb_true_iff, !forallb_forall in Hf. destruct Hf as [_ Hf].
  rewrite dec_val_app. rewrite (proj2 (Z.leb_gt _ 255)); [by rewrite !andb_false_r|].
  eapply Z.lt_le_trans; [exact Hv|]. apply dec_val_mono; [|lia]. by apply List.Forall_forall.
Qed.

Lemma decimal_ok u : u <> [] -> Forall digit u -> dec_val u <= 255 -> decimal u = Some (dec_val u).
Proof.
  intros Hn Hu Hv. unfold decimal. rewrite (proj2 (Z.ltb_lt 0 _)) by (destruct u; [done|rewrite zlen_cons; pose proof (zlen_nonneg u); lia]).
  rewrite (proj2 (forallb_forall isdigit u)) by (by apply List.Forall_forall). by rewrite (proj2 (Z.leb_le _ _)).
Qed.

Lemma digit_ne u c : Forall digit u -> isdigit c = false -> Forall (fun x => x <> c) u.
Proof. intros Hu Hc. eapply Forall_impl; [exact Hu|]. unfold digit. intros x Hx ->. congruence. Qed.

(** ** inet_pton4 *)

(** The octets [vs] of complete fields and the fields still to come. *)
Definition quad_from (vs : list Z) (t : list Z) : option (list Z) :=
  match mapM decimal (split 46 t) with
  | Some ws => if zlen (vs ++ ws) =? 4 then Some (vs ++ ws) else None
  | None => None
  end.

(** What the loop of [inet_pton4] returns for the octets [a]. *)
Definition pton4_result (a : option (list Z)) (r : option Z) (tmp : list Z) : Prop :=
  match a with
  | Some a => r = Some 4 /\ tmp = a
  | None => match r with Some o => o < 4 | None => True end
  end.

Lemma quad_from_bad vs u c t :
  Forall digit u -> c <> 46 -> ~ digit c -> quad_from vs (u ++ c :: t) = None.
Proof.
  intros Hu Hc Hd. unfold quad_from. rewrite split_app by (by apply digit_ne). cbn [split].
  rewrite (proj2 (Z.eqb_neq c 46) Hc). destruct (split_cons 46 t) as (f & fs & ->). cbn.
  by rewrite decimal_bad.
Qed.

Lemma quad_from_big vs u t : Forall digit u -> 255 < dec_val u -> quad_from vs (u ++ t) = None.
Proof.
  intros Hu Hv. unfold quad_from. rewrite split_app by (by apply digit_ne).
  destruct (split_cons 46 t) as (f & fs & ->). cbn. by rewrite decimal_big.
Qed.

Lemma quad_from_dot vs u t :
  u <> [] -> Forall digit u -> dec_val u <= 255 ->
  quad_from vs (u ++ 46 :: t) = if zlen vs =? 3 then None else quad_from (vs ++ [dec_val u]) t.
Proof.
  intros Hn Hu Hv. unfold quad_from. rewrite split_sep by (by apply digit_ne). cbn.
  rewrite decimal_ok by done. destruct (split_cons 46 t) as (f & fs & ->). cbn.
  destruct (decimal f) as [v|]; cbn; [|by case_match].
  destruct (mapM decimal fs) as [ws|]; cbn; [|by case_match].
  rewrite <- (app_assoc vs). cbn. rewrite !zlen_app, !zlen_cons. pose proof (zlen_nonneg ws).
  destruct (Z.eqb_spec (zlen vs) 3); [|done]. rewrite (proj2 (Z.eqb_neq _ 4)) by lia. done.
Qed.

Lemma quad_from_end vs u :
  Forall digit u -> dec_val u <= 255 -> 
  quad_from vs u = if (0 <? zlen u) && (zlen vs =? 3) then Some (vs ++ [dec_val u]) else None.
Proof.
  intros Hu Hv. unfold quad_from. rewrite split_none by (by apply digit_ne). cbn.
  destruct u as [|x u]; [done|]. rewrite decimal_ok by done. generalize (dec_val (x :: u)). intros v. cbn.
  rewrite zlen_app, (zlen_cons x). pose proof (zlen_nonneg u). rewrite (proj2 (Z.ltb_lt 0 _)) by lia.
  change (zlen [v]) with 1. cbn.
  destruct (Z.eqb_spec (zlen vs) 3), (Z.eqb_spec (zlen vs + 1) 4); (lia || done).
Qed.

Lemma digit_pos_spec c d : digit_pos c = Some d -> digit c /\ d = c - 48 /\ 0 <= d <= 9.
Proof. unfold digit_pos, digit. destruct (isdigit c) eqn:Hc; [|done]. intros [= <-]. unfold isdigit in Hc. lia. Qed.

Lemma cstr_rd {S} src s t (st : S) (Q : Z -> S -> Prop) E :
  cstr src s t ->
  (match t with
   | [] => Q 0 st
   | c :: t' => c <> 0 -> cstr src (s + 1) t' -> Q c st
   end) -> wp (rd src s) st Q E.
Proof.
  intros Hc HQ. destruct t as [|c t].
  - apply (wp_rd _ _ _ _ _ 0); [|done]. pose proof (cstr_nul _ _ _ Hc) as Hn. by rewrite zlen_nil, Z.add_0_r in Hn.
  - destruct (cstr_cons_l _ _ _ _ Hc) as (Hr & Hc0 & Hc'). apply (wp_rd _ _ _ _ _ c); [done|]. by apply HQ.
Qed.

Lemma nonempty_ltb {A} (u : list A) : (0 <? zlen u) = if decide (u = []) then false else true.
Proof. case_decide as Hu; [by subst|]. destruct u; [done|]. rewrite zlen_cons. pose proof (zlen_nonneg u). lia. Qed.

(** The next digit: the number grows, or it is too large. *)
Lemma wp_pton4_digit (L : Type) tmp0 u vs tmp c t (k1 k2 : L) (Q : step L (option Z) -> list Z -> Prop) E :
  zlen tmp0 = 4 -> zlen vs <= 3 -> digit c -> Forall digit u -> filled tmp0 4 (vs ++ [dec_val u]) tmp ->
  (quad_from vs (u ++ c :: t) = None -> Q (Done None) tmp) ->
  (forall tmp', dec_val (u ++ [c]) <= 255 -> filled tmp0 4 (vs ++ [dec_val (u ++ [c])]) tmp' ->
     Q (Next (if 0 <? zlen u then k2 else k1)) tmp') ->
  wp (v ← rdS (zlen vs);
      let new := v * 10 + (c - 48) in
      if 255 <? new then mret (Done None)
      else if negb (0 <? zlen u) then
        if 4 <? zlen vs + (if 0 <? zlen u then 1 else 0) + 1 then mret (Done None)
        else wr (zlen vs) new;; mret (Next k1)
      else wr (zlen vs) new;; mret (Next k2)) tmp Q E.
Proof.
  intros H0 Hvs Hc Hu Hf Hbad Hnext.
  assert (Hv : znth tmp (zlen vs) = Some (dec_val u)).
  { destruct Hf as (Hl & _ & Hle & Ht). rewrite <- (znth_ztake _ (zlen (vs ++ [dec_val u]))) by (zlen_simpl; lia).
    rewrite Ht. apply znth_middle. }
  wp_step. apply (wp_run _ (rd tmp (zlen vs)) tmp tmp); [done|]. apply (wp_rd _ _ _ _ _ _ Hv). cbv zeta.
  rewrite <- dec_val_snoc. destruct (Z.ltb_spec 255 (dec_val (u ++ [c]))) as [Hbig|Hbig].
  { wp_step. apply Hbad. replace (u ++ c :: t) with ((u ++ [c]) ++ t) by (by rewrite <- app_assoc).
    apply quad_from_big; [|done]. apply Forall_app. by repeat constructor. }
  destruct (filled_len _ _ _ _ Hf) as [Hfl Hfz]. rewrite zlen_app in Hfl. zlen_simpl. pose proof (zlen_nonneg vs).
  assert (Hw : filled tmp0 4 (vs ++ [dec_val (u ++ [c])]) (zupd tmp (zlen vs) (dec_val (u ++ [c]))))
    by (eapply filled_upd, Hf).
  specialize (Hnext _ Hbig Hw). destruct (0 <? zlen u); cbn [negb].
  - wp_step. wp_step; [lia|]. by wp_step.
  - rewrite (proj2 (Z.ltb_ge 4 _)) by lia. wp_step. wp_step; [lia|]. by wp_step.
Qed.

Lemma wp_pton4_loop tmp0 src t : forall n s u vs tmp,
  zlen tmp0 = 4 -> cstr src s t -> zlen t < Z.of_nat n -> zlen vs <= 3 ->
  Forall digit u -> dec_val u <= 255 -> filled tmp0 4 (vs ++ [dec_val u]) tmp ->
  wp (loop n (pton4_step src) (s, zlen vs, 0 <? zlen u, zlen vs + (if 0 <? zlen u then 1 else 0))) tmp
     (fun r tmp' => zlen tmp' = 4 /\ pton4_result (quad_from vs (u ++ t)) r tmp') (fun _ _ => False).
Proof.
  induction t as [|c t IH]; intros n s u vs tmp H0 Hc Hn Hvs Hu Huv Hf; destruct (filled_len _ _ _ _ Hf) as [Hfl Hfz];
    (destruct n as [|n]; [unfold zlen in Hn; lia|]); apply wp_loop_S;
    unfold pton4_step at 1; wp_step; (eapply cstr_rd; [exact Hc|]); cbn beta iota.
  { cbn. wp_step. split; [lia|].
    rewrite app_nil_r, quad_from_end by done. destruct Hf as (Hl & _ & Hle & Ht). rewrite zlen_app in *. zlen_simpl.
    destruct (0 <? zlen u); cbn; [|lia]. destruct (Z.eqb_spec (zlen vs) 3) as [E3|E3]; cbn; [|lia].
    rewrite E3 in *. split; [done|]. rewrite <- Ht. change (3 + 1) with 4. rewrite <- H0, <- Hl. by rewrite ztake_all. }
  intros Hc0 Hc'. rewrite (proj2 (Z.eqb_neq c 0)) by done. rewrite zlen_cons in Hn. destruct (digit_pos c) as [d|] eqn:Hd.
  { apply digit_pos_spec in Hd as (Hd & -> & Hr). eapply wp_pton4_digit; [done..| |].
    - intros Hbad. rewrite Hbad. split; [lia|done].
    - intros tmp' Hbig Hf'. replace (u ++ c :: t) with ((u ++ [c]) ++ t) by (by rewrite <- app_assoc).
      assert (Hlu : (0 <? zlen (u ++ [c])) = true) by (rewrite zlen_app; pose proof (zlen_nonneg u); zlen_simpl; lia).
      specialize (IH n (s + 1) (u ++ [c]) vs tmp'). rewrite Hlu in IH.
      destruct (0 <? zlen u); rewrite ?Z.add_0_r; (apply IH; try done; try lia; apply Forall_app; by repeat constructor). }
  assert (Hnd : ~ digit c) by (unfold digit_pos, digit in *; by destruct (isdigit c)).
  destruct (Z.eqb_spec c 46) as [->|Hdot]; cbn [andb].
  2: { wp_step. split; [lia|]. by rewrite quad_from_bad. }
  rewrite nonempty_ltb. case_decide as Hlu.
  { subst u. wp_step. split; [lia|]. cbn. unfold quad_from. cbn. by destruct (mapM decimal (split 46 t)). }
  rewrite quad_from_dot by done.
  destruct (Z.eqb_spec (zlen vs + 1) 4), (Z.eqb_spec (zlen vs) 3); try lia; wp_step; [split; [lia|done]|].
  assert (Hl1 : zlen vs + 1 = zlen (vs ++ [dec_val u])) by (rewrite zlen_app; by zlen_simpl).
  rewrite Hl1. apply (wp_wr_filled tmp0 4 ltac:(lia) _ _ _ _ _ Hf); [lia|]. intros tmp' Hf'. wp_step.
  specialize (IH n (s + 1) [] (vs ++ [dec_val u]) tmp'). cbn in IH. rewrite Z.add_0_r in IH.
  apply IH; (done || lia).
Qed.

Lemma wp_inet_pton4 tmp0 src s t dst :
  zlen tmp0 = 4 -> cstr src s t -> 4 <= zlen dst ->
  wp (inet_pton4 tmp0 src s) dst
     (fun r dst' => match quad t with
                    | Some a => zlen a = 4 /\ r = 1 /\ dst' = splice dst 0 a
                    | None => r = 0 /\ dst' = dst
                    end) (fun _ _ => False).
Proof.
  intros H0 Hc Hd. pose proof (cstr_len _ _ _ Hc). unfold inet_pton4. wp_step. apply wp_on_local.
  wp_step. wp_step; [lia|].
  eapply wp_conseq; [apply (wp_pton4_loop tmp0 src t _ s [] []); try done; try lia|].
  - apply (filled_snoc tmp0 4 ltac:(lia) [] 0 tmp0); [by apply filled_nil; lia|done].
  - intros r tmp' [Hl Hr]. cbn [app] in Hr. change (quad_from [] t) with (quad t) in Hr. destruct (quad t) as [a|].
    + destruct Hr as [-> ->]. cbn. wp_step. apply wp_memcpy; try (unfold INADDRSZ; lia).
      wp_step. split_and!; [done|done|]. unfold INADDRSZ. rewrite zdrop_0. rewrite <- Hl at 1. by rewrite ztake_all.
    + destruct r as [o|]; cbn in Hr; [|by wp_step]. rewrite (proj2 (Z.ltb_lt o 4) Hr). by wp_step.
Qed.

(** ** The fields of a version 6 address *)

Definition xd (c : Z) : Prop := is_Some (xdigit_pos c).

Lemma xdigit_pos_spec c d : xdigit_pos c = Some d -> xd c /\ d = xdigit c /\ 0 <= d < 16 /\ c <> 58 /\ c <> 46.
Proof.
  intros Hd. unfold xd, xdigit. rewrite Hd. split; [by eexists|]. split; [done|]. revert Hd.
  unfold xdigit_pos, isdigit. repeat case_match; intros Hd; simplify_eq; lia.
Qed.

Lemma xd_ne u c : Forall xd u -> xdigit_pos c = None -> Forall (fun x => x <> c) u.
Proof. intros Hu Hc. eapply Forall_impl; [exact Hu|]. intros x [d Hx] ->. congruence. Qed.

Lemma hex_val_snoc u c : hex_val (u ++ [c]) = hex_val u * 16 + xdigit c.
Proof. unfold hex_val. by rewrite foldl_app. Qed.

Lemma xdigit_range c : 0 <= xdigit c < 16.
Proof. unfold xdigit. destruct (xdigit_pos c) eqn:H; cbn; [|lia]. by apply xdigit_pos_spec in H as (_ & _ & ? & _). Qed.

Lemma hex_val_bound u : 0 <= hex_val u < 16 ^ zlen u.
Proof.
  induction u as [|c u IH] using rev_ind; [done|]. rewrite hex_val_snoc, zlen_app. change (zlen [c]) with 1.
  pose proof (zlen_nonneg u). rewrite Z.pow_add_r by lia. pose proof (xdigit_range c). lia.
Qed.

Lemma hextet_bad u c f : ~ xd c -> hextet (u ++ c :: f) = None.
Proof.
  intros Hc. unfold hextet. rewrite forallb_app. cbn [forallb]. rewrite (bool_decide_eq_false_2 _ Hc).
  by rewrite !andb_false_r.
Qed.

Lemma hextet_long u f : 4 < zlen u -> hextet (u ++ f) = None.
Proof.
  intros Hl. unfold hextet. rewrite (proj2 (Z.leb_gt (zlen (u ++ f)) 4)); [by rewrite andb_false_r|].
  rewrite zlen_app. pose proof (zlen_nonneg f). lia.
Qed.

Lemma hextet_ok u : u <> [] -> zlen u <= 4 -> Forall xd u -> hextet u = Some (octets_of_word (hex_val u)).
Proof.
  intros Hn Hl Hu. unfold hextet.
  rewrite (proj2 (Z.ltb_lt 0 _)) by (destruct u; [done|rewrite zlen_cons; pose proof (zlen_nonneg u); lia]).
  rewrite (proj2 (Z.leb_le _ _) Hl), (proj2 (forallb_forall _ u)); [done|].
  intros x Hx. apply bool_decide_eq_true_2. rewrite List.Forall_forall in Hu. by apply Hu.
Qed.

Lemma split_in c x t : x ∈ t -> x <> c -> Exists (fun f => x ∈ f) (split c t).
Proof.
  intros Hin Hx. induction t as [|y t IH]; [by apply not_elem_of_nil in Hin|]. cbn [split].
  apply elem_of_cons in Hin as [<-|Hin].
  - rewrite (proj2 (Z.eqb_neq x c) Hx). destruct (split_cons c t) as (f & fs & ->). constructor. set_solver.
  - specialize (IH Hin). destruct (y =? c); [by constructor 2|]. destruct (split_cons c t) as (f & fs & Hs).
    rewrite Hs in *. apply Exists_cons in IH as [Hf|Hf]; [constructor; set_solver|by constructor 2].
Qed.

(** A character that is neither a digit nor a dot excludes a dotted quad. *)
Lemma quad_bad t c : c ∈ t -> c <> 46 -> ~ digit c -> quad t = None.
Proof.
  intros Hin Hc Hd. unfold quad. rewrite (proj2 (mapM_None decimal _)); [done|].
  eapply Exists_impl; [by apply (split_in 46 c t)|]. intros f Hf. cbn in Hf.
  apply list_elem_of_split in Hf as (f1 & f2 & ->). by apply decimal_bad.
Qed.

Lemma last_bad u c f : ~ xd c -> c <> 46 -> last_field (u ++ c :: f) = None.
Proof.
  intros Hx Hc. unfold last_field. rewrite hextet_bad by done.
  rewrite (quad_bad _ c); [by case_match|set_solver|done|]. intros Hd. apply Hx. unfold xd, xdigit_pos. rewrite Hd. by eexists.
Qed.

Lemma last_long u f : Forall xd u -> 4 < zlen u -> last_field (u ++ f) = None.
Proof.
  intros Hu Hl. unfold last_field. rewrite hextet_long, split_app by (done || by apply xd_ne).
  destruct (split_cons 46 f) as (g & gs & ->). cbn [hd]. rewrite zlen_app. pose proof (zlen_nonneg g).
  by rewrite (proj2 (Z.leb_gt _ 4)) by lia.
Qed.

Lemma last_quad u f : Forall xd u -> zlen u <= 4 -> last_field (u ++ 46 :: f) = quad (u ++ 46 :: f).
Proof.
  intros Hu Hl. unfold last_field. rewrite hextet_bad by (by intros []). rewrite split_sep by (by apply xd_ne).
  cbn [hd]. by rewrite (proj2 (Z.leb_le _ 4)).
Qed.

Lemma last_ok u : u <> [] -> zlen u <= 4 -> Forall xd u -> last_field u = Some (octets_of_word (hex_val u)).
Proof. intros. unfold last_field. by rewrite hextet_ok. Qed.

(** ** The parser along a text *)

Lemma finish_long b c : 16 < zlen b -> finish b c = None.
Proof.
  intros Hb. unfold finish. destruct c; [by rewrite (proj2 (Z.ltb_ge _ _)) by (unfold IN6ADDRSZ; lia)|].
  by rewrite (proj2 (Z.eqb_neq _ _)) by (unfold IN6ADDRSZ; lia).
Qed.

Lemma fields6_long fs : forall b c, 16 < zlen b -> fields6 b c fs = None.
Proof.
  assert (Hw : forall b x : list Z, 16 < zlen b -> 16 < zlen (b ++ x)).
  { intros b x Hb. rewrite zlen_app. pose proof (zlen_nonneg x). lia. }
  induction fs as [|f fs IH]; intros b c Hb; [done|]. cbn.
  destruct f as [|y f], fs as [|g fs]; try (destruct (last_field _); [by apply finish_long, Hw|done]).
  - destruct c; [done|]. destruct g, fs; try (by apply IH). by apply (finish_long b (Some (zlen b))).
  - destruct (hextet _); [by apply IH, Hw|done].
Qed.

Lemma fields6_bad b c k fs :
  k <> [] -> hextet k = None -> (fs = [] -> last_field k = None) -> fields6 b c (k :: fs) = None.
Proof. intros Hk Hh Hl. cbn. destruct k, fs; try done; [by rewrite Hl|by rewrite Hh]. Qed.

(** An excluded first character of the rest after the digits [u]. *)
Lemma fields6_other b c u x t :
  Forall xd u -> xdigit_pos x = None -> x <> 58 -> x <> 46 -> fields6 b c (split 58 (u ++ x :: t)) = None.
Proof.
  intros Hu Hx H1 H2. assert (Hnx : ~ xd x) by (unfold xd; rewrite Hx; by intros []).
  rewrite split_app by (by apply xd_ne). cbn [split]. rewrite (proj2 (Z.eqb_neq x 58) H1).
  destruct (split_cons 58 t) as (f & fs & ->). apply fields6_bad; [by destruct u|by apply hextet_bad|].
  intros _. by apply last_bad.
Qed.

Lemma fields6_many b c u t : Forall xd u -> 4 < zlen u -> fields6 b c (split 58 (u ++ t)) = None.
Proof.
  intros Hu Hl. rewrite split_app by (by apply xd_ne). destruct (split_cons 58 t) as (f & fs & ->).
  apply fields6_bad; [by destruct u|by apply hextet_long|]. intros _. by apply last_long.
Qed.

Lemma split_more c t : c ∈ t -> exists f g fs, split c t = f :: g :: fs.
Proof.
  induction t as [|x t IH]; intros Hin; [by apply not_elem_of_nil in Hin|]. cbn [split].
  destruct (Z.eqb_spec x c) as [->|Hx]; [destruct (split_cons c t) as (f & fs & ->); eauto|].
  apply elem_of_cons in Hin as [?|Hin]; [congruence|]. destruct (IH Hin) as (f & g & fs & ->). eauto.
Qed.

Lemma fields6_dot b c u t :
  Forall xd u -> zlen u <= 4 ->
  fields6 b c (split 58 (u ++ 46 :: t)) =
    match quad (u ++ 46 :: t) with Some x => finish (b ++ x) c | None => None end.
Proof.
  intros Hu Hl. destruct (decide (58 ∈ t)) as [Hin|Hin].
  - rewrite (quad_bad _ 58) by (set_solver || done). rewrite split_app by (by apply xd_ne). cbn [split].
    change (46 =? 58) with false. destruct (split_more 58 t Hin) as (f & g & fs & ->). cbn iota.
    apply fields6_bad; [by destruct u|by apply hextet_bad; intros []|done].
  - rewrite split_none. 2: { apply Forall_app; split; [by apply xd_ne|]. constructor; [done|]. apply Forall_forall. by intros x Hx ->. }
    rewrite <- last_quad by done. cbn. by destruct u.
Qed.

Lemma fields6_colon b c u t :
  u <> [] -> Forall xd u -> zlen u <= 4 ->
  fields6 b c (split 58 (u ++ 58 :: t)) = fields6 (b ++ octets_of_word (hex_val u)) c (split 58 t).
Proof.
  intros Hn Hu Hl. rewrite split_sep by (by apply xd_ne). destruct (split_cons 58 t) as (f & fs & Hs). rewrite Hs.
  cbn. destruct u; [done|]. by rewrite hextet_ok.
Qed.

Lemma fields6_one b c f :
  fields6 b c [f] = match last_field f with Some x => finish (b ++ x) c | None => None end.
Proof. by destruct f. Qed.

Lemma fields6_gap b c t :
  fields6 b c (split 58 (58 :: t)) =
    match c with
    | Some _ => None
    | None => if decide (t = []) then finish b (Some (zlen b)) else fields6 b (Some (zlen b)) (split 58 t)
    end.
Proof.
  cbn. destruct (split_cons 58 t) as (f & fs & Hs). rewrite Hs. destruct c; [done|]. case_decide as Ht.
  - subst t. by injection Hs as <- <-.
  - destruct f, fs; try done. destruct t as [|x t]; [done|]. cbn in Hs. destruct (split_cons 58 t) as (g & gs & Hs').
    rewrite Hs' in Hs. by destruct (x =? 58).
Qed.

(** ** inet_pton6 *)

(** The array [tmp] with the octets [b] stored. *)
Definition buf (b : list Z) : list Z := b ++ replicate (Z.to_nat (IN6ADDRSZ - zlen b)) 0.

Lemma zlen_buf b : zlen b <= 16 -> zlen (buf b) = 16.
Proof. intros. unfold buf. rewrite zlen_app, zlen_replicate. unfold IN6ADDRSZ. lia. Qed.

Lemma znth_replicate {A} n (x : A) i : 0 <= i < Z.of_nat n -> znth (replicate n x) i = Some x.
Proof. intros. unfold znth. rewrite (proj2 (Z.ltb_ge _ _)) by lia. apply lookup_replicate_2. lia. Qed.

Lemma wp_wr_buf b v (Q : unit -> list Z -> Prop) E :
  zlen b < 16 -> Q tt (buf (b ++ [v])) -> wp (wr (zlen b) v) (buf b) Q E.
Proof.
  intros Hb HQ. pose proof (zlen_nonneg b). apply wp_wr; [rewrite zlen_buf; lia|].
  replace (zupd (buf b) (zlen b) v) with (buf (b ++ [v])); [done|]. unfold buf, IN6ADDRSZ.
  replace (Z.to_nat (16 - zlen b)) with (S (Z.to_nat (16 - zlen (b ++ [v])))) by (rewrite zlen_app; zlen_simpl; lia).
  cbn [replicate]. by rewrite zupd_middle, <- app_assoc.
Qed.

Lemma wp_put_word b w (Q : Z -> list Z -> Prop) E :
  zlen b + 2 <= 16 -> 0 <= w < 65536 ->
  Q (zlen b + 2) (buf (b ++ octets_of_word w)) -> wp (put_word (zlen b) w) (buf b) Q E.
Proof.
  intros Hb Hw HQ. unfold put_word. wp_step. apply wp_wr_buf; [lia|]. wp_step.
  replace (zlen b + 1) with (zlen (b ++ [Z.land (u8 (Z.shiftr w 8)) 255])) by (rewrite zlen_app; by zlen_simpl).
  apply wp_wr_buf; [rewrite zlen_app; zlen_simpl; lia|]. wp_step. rewrite <- app_assoc. cbn [app].
  change 255 with (Z.ones 8). rewrite !Z.land_ones, Z.shiftr_div_pow2 by done. unfold u8. rewrite !Z.mod_mod by done.
  by rewrite (Z.mod_small (w / 2 ^ 8)) by (Z.div_mod_to_equations; lia).
Qed.

(** The array while the octets behind the gap are moved: [i - 1] of them are done. *)
Definition shifted (b : list Z) (i : Z) (s : list Z) : Prop :=
  zlen s = 16 /\ forall j, 0 <= j < 16 ->
    znth s j = if 16 - (i - 1) <=? j then znth b (j - (16 - zlen b))
               else if zlen b - (i - 1) <=? j then Some 0 else znth b j.

Lemma shifted_step b i s v :
  1 <= i <= zlen b -> zlen b < 16 -> shifted b i s -> znth b (zlen b - i) = Some v ->
  shifted b (i + 1) (zupd (zupd s (16 - i) v) (zlen b - i) 0).
Proof.
  intros Hi Hb [Hl Hs] Hv. split; [by rewrite !zlen_zupd|]. intros j Hj.
  destruct (Z.eq_dec j (zlen b - i)) as [->|Hj1].
  { rewrite znth_zupd_eq by (rewrite zlen_zupd; lia). repeat case_match; (done || lia). }
  rewrite znth_zupd_ne by done. destruct (Z.eq_dec j (16 - i)) as [->|Hj2].
  { rewrite znth_zupd_eq, <- Hv by lia. repeat case_match; try lia. f_equal. lia. }
  rewrite znth_zupd_ne, Hs by done. repeat case_match; (done || lia).
Qed.

Lemma shifted_gap b c s :
  0 <= c <= zlen b -> zlen b < 16 -> shifted b (zlen b - c + 1) s ->
  s = ztake c b ++ replicate (Z.to_nat (16 - zlen b)) 0 ++ zdrop c b.
Proof.
  intros Hc Hb [Hl Hs]. apply znth_ext. intros j Hj. destruct (Z.lt_ge_cases j 16) as [Hj16|Hj16].
  2: { rewrite !znth_None; [done| |]; right; rewrite ?zlen_app, ?zlen_replicate, ?zlen_ztake, ?zlen_zdrop; lia. }
  rewrite Hs by lia. destruct (Z.lt_ge_cases j c) as [H1|H1].
  { rewrite znth_app_l, znth_ztake by (rewrite ?zlen_ztake; lia). repeat case_match; (done || lia). }
  rewrite znth_app_r, zlen_ztake by (rewrite ?zlen_ztake; lia).
  destruct (Z.lt_ge_cases (j - c) (16 - zlen b)) as [H2|H2].
  { rewrite znth_app_l, znth_replicate by (rewrite ?zlen_replicate; lia). repeat case_match; (done || lia). }
  rewrite znth_app_r, zlen_replicate, znth_zdrop by (rewrite ?zlen_replicate; lia).
  repeat case_match; try lia. f_equal. lia.
Qed.

Lemma wp_shift_gap b c E :
  0 <= c <= zlen b -> zlen b < 16 ->
  wp (shift_gap (zlen b) c) (buf b)
     (fun _ s => s = ztake c b ++ replicate (Z.to_nat (16 - zlen b)) 0 ++ zdrop c b) E.
Proof.
  intros Hc Hb. unfold shift_gap.
  apply (wp_loop (fun i s => 1 <= i <= zlen b - c + 1 /\ shifted b i s) (fun i _ => Z.to_nat (zlen b - c + 1 - i))); [|lia|].
  - split; [lia|]. split; [apply zlen_buf; lia|]. intros j Hj. unfold buf.
    destruct (Z.leb_spec (16 - (1 - 1)) j); [lia|]. destruct (Z.leb_spec (zlen b - (1 - 1)) j).
    + rewrite znth_app_r, znth_replicate by (unfold IN6ADDRSZ; lia). done.
    + by rewrite znth_app_l by lia.
  - intros i s [Hi Hs]. unfold shift_step. destruct (Z.leb_spec i (zlen b - c)); cbn [negb].
    2: { wp_step. apply shifted_gap; [done|done|]. by replace (zlen b - c + 1) with i by lia. }
    replace (c + (zlen b - c - i)) with (zlen b - i) by lia. destruct (znth_lt b (zlen b - i)) as [v Hv]; [lia|].
    wp_step. apply (wp_run _ (rd s (zlen b - i)) s s); [done|]. apply (wp_rd _ _ _ _ _ v).
    { destruct Hs as [_ Hs]. rewrite Hs by lia. repeat case_match; (done || lia). }
    unfold IN6ADDRSZ. pose proof Hs as [Hl _]. wp_step. wp_step; [lia|]. wp_step. wp_step; [rewrite zlen_zupd; lia|]. wp_step.
    split; [|lia]. split; [lia|]. apply shifted_step; (done || lia).
Qed.

(** What a part of [inet_pton6] that works on [tmp] leaves for the octets [a]. *)
Definition pton6_result (a : option (list Z)) (r : Z) (tmp : list Z) : Prop :=
  zlen tmp = 16 /\ match a with Some a => r = 1 /\ tmp = a | None => r = 0 end.

Lemma wp_close_gap b c :
  zlen b <= 16 -> match c with Some c => 0 <= c <= zlen b | None => True end ->
  wp (r ← close_gap (zlen b) c; or_0 r (fun tp => if negb (tp =? IN6ADDRSZ) then mret 0 else mret 1)) (buf b)
     (pton6_result (finish b c)) (fun _ _ => False).
Proof.
  intros Hb Hc. unfold close_gap, finish, pton6_result. wp_step. pose proof (zlen_nonneg b). destruct c as [c|].
  - destruct (Z.eqb_spec (zlen b) IN6ADDRSZ) as [E|E]; unfold IN6ADDRSZ in *.
    + wp_step. cbn. wp_step. split; [by apply zlen_buf|]. by rewrite (proj2 (Z.ltb_ge _ 16)) by lia.
    + wp_step. eapply wp_conseq; [apply wp_shift_gap; [done|lia]|]. intros [] s ->. wp_step. cbn. wp_step.
      rewrite (proj2 (Z.ltb_lt _ 16)) by lia.
      split; [|done]. rewrite !zlen_app, zlen_replicate, zlen_ztake, zlen_zdrop by lia. lia.
  - wp_step. cbn. destruct (Z.eqb_spec (zlen b) IN6ADDRSZ) as [E|E]; cbn; wp_step.
    + split; [by apply zlen_buf|]. split; [done|]. unfold buf. rewrite E. apply app_nil_r.
    + split; [by apply zlen_buf|done].
Qed.

Lemma wp_pton6_tail b c (saw : bool) w :
  zlen b <= 16 -> match c with Some c => 0 <= c <= zlen b | None => True end -> 0 <= w < 65536 ->
  wp (pton6_tail (Some (zlen b, c, saw, w))) (buf b)
     (pton6_result (finish (if saw then b ++ octets_of_word w else b) c)) (fun _ _ => False).
Proof.
  intros Hb Hc Hw. unfold pton6_tail, last_group. cbn [or_0]. destruct saw.
  2: { wp_step. wp_step. by apply wp_close_gap. }
  assert (Hl : zlen (b ++ octets_of_word w) = zlen b + 2) by (by rewrite zlen_app).
  unfold INT16SZ, IN6ADDRSZ. wp_step. destruct (Z.ltb_spec 16 (zlen b + 2)).
  - wp_step. cbn. wp_step. split; [by apply zlen_buf|]. by rewrite finish_long by lia.
  - wp_step. apply wp_put_word; [lia|done|]. wp_step. cbn [or_0]. rewrite <- Hl. apply wp_close_gap; [lia|].
    destruct c; [lia|done].
Qed.

Lemma wp_at_off {A B} d (m : M (list A) B) b Q E :
  wp m (zdrop d b) (fun r t => Q r (ztake d b ++ t)) (fun e t => E e (ztake d b ++ t)) -> wp (at_off d m) b Q E.
Proof. intros H. by apply wp_zoom. Qed.

Lemma buf_quad b q :
  zlen q = 4 -> zlen b + 4 <= 16 -> ztake (zlen b) (buf b) ++ splice (zdrop (zlen b) (buf b)) 0 q = buf (b ++ q).
Proof.
  intros Hq Hb. pose proof (zlen_nonneg b). unfold buf. rewrite ztake_app, zdrop_app, splice_0, <- app_assoc. do 2 f_equal.
  rewrite Hq, zlen_app. unfold zdrop, IN6ADDRSZ. rewrite drop_replicate. f_equal. lia.
Qed.

(** What the parser makes of the digits [u] of the current field and the rest [t]. *)
Definition parse_from (b : list Z) (c : option Z) (u t : list Z) : option (list Z) :=
  if decide (u ++ t = []) then finish b c else fields6 b c (split 58 (u ++ t)).

Definition gap_ok (b : list Z) (c : option Z) : Prop := match c with Some c => 0 <= c <= zlen b | None => True end.

Definition pton6_post (a : option (list Z)) (r : option (Z * option Z * bool * Z)) (s : list Z) : Prop :=
  wp (pton6_tail r) s (pton6_result a) (fun _ _ => False).

Lemma pton6_post_None a b : zlen b <= 16 -> a = None -> pton6_post a None (buf b).
Proof. intros Hb ->. unfold pton6_post, pton6_tail. cbn. wp_step. split; [by apply zlen_buf|done]. Qed.

(** [val <<= 4; val |= digit] with at most four digits. *)
Lemma hex_step u x d :
  xdigit_pos x = Some d -> zlen u < 4 ->
  Z.lor (u32 (Z.shiftl (hex_val u) 4)) d = hex_val (u ++ [x]) /\ hex_val (u ++ [x]) < 65536.
Proof.
  intros (_ & -> & Hd & _)%xdigit_pos_spec Hu. pose proof (hex_val_bound u). pose proof (zlen_nonneg u).
  assert (16 ^ zlen u <= 16 ^ 3) by (apply Z.pow_le_mono_r; lia).
  rewrite hex_val_snoc, Z.shiftl_mul_pow2 by done. unfold u32. rewrite Z.mod_small by lia. rewrite lor_add by lia. lia.
Qed.

Section pton6.
Context (tmp4 src : list Z) (Htmp : zlen tmp4 = 4).

(** The property of the loop from a position with the rest [t] of the text. *)
Definition loop_ok (t : list Z) : Prop := forall n s u b c,
  cstr src s t -> 0 <= s - zlen u -> cstr src (s - zlen u) (u ++ t) -> zlen t < Z.of_nat n ->
  zlen b <= 16 -> gap_ok b c -> Forall xd u -> zlen u <= 4 ->
  wp (loop n (pton6_step tmp4 src) (Scan6 s (zlen b) c (s - zlen u) (0 <? zlen u) (zlen u) (hex_val u))) (buf b)
     (pton6_post (parse_from b c u t)) (fun _ _ => False).

Lemma parse_from_end b c u :
  Forall xd u -> zlen u <= 4 ->
  parse_from b c u [] = finish (if 0 <? zlen u then b ++ octets_of_word (hex_val u) else b) c.
Proof.
  intros Hu Hl. unfold parse_from. rewrite app_nil_r, nonempty_ltb. case_decide as Hn; [done|].
  rewrite split_none by (by apply xd_ne). cbn. destruct u; [done|]. by rewrite last_ok.
Qed.

Lemma parse_from_fields b c u x t : parse_from b c u (x :: t) = fields6 b c (split 58 (u ++ x :: t)).
Proof. unfold parse_from. by rewrite decide_False by (by destruct u). Qed.

Lemma hex_val_word u : zlen u <= 4 -> 0 <= hex_val u < 65536.
Proof.
  intros Hu. pose proof (hex_val_bound u). pose proof (zlen_nonneg u).
  assert (16 ^ zlen u <= 16 ^ 4) by (apply Z.pow_le_mono_r; lia). lia.
Qed.

(** A colon: the gap, the end of a group, or an error. *)
Lemma wp_pton6_colon t n s u b c :
  loop_ok t -> cstr src (s + 1) t -> zlen t < Z.of_nat n -> 0 <= s ->
  zlen b <= 16 -> gap_ok b c -> Forall xd u -> zlen u <= 4 ->
  wp (if negb (0 <? zlen u) then
        match c with
        | Some _ => mret (Done None)
        | None => mret (Next (Scan6 (s + 1) (zlen b) (Some (zlen b)) (s + 1) (0 <? zlen u) (zlen u) (hex_val u)))
        end
      else
        c' ← rd src (s + 1);
        if c' =? 0 then mret (Done None)
        else if IN6ADDRSZ <? zlen b + INT16SZ then mret (Done None)
        else
          tp ← put_word (zlen b) (hex_val u);
          mret (Next (Scan6 (s + 1) tp c (s + 1) false 0 0)))
     (buf b)
     (fun st s' => match st with
                   | Next l => wp (loop n (pton6_step tmp4 src) l) s'
                                  (pton6_post (fields6 b c (split 58 (u ++ 58 :: t)))) (fun _ _ => False)
                   | Done r => pton6_post (fields6 b c (split 58 (u ++ 58 :: t))) r s'
                   end) (fun _ _ => False).
Proof.
  intros IH Hc Hn Hs Hb Hg Hu Hl.
  assert (Hnext : forall b c, zlen b <= 16 -> gap_ok b c ->
    wp (loop n (pton6_step tmp4 src) (Scan6 (s + 1) (zlen b) c (s + 1) false 0 0)) (buf b)
       (pton6_post (parse_from b c [] t)) (fun _ _ => False)).
  { intros b' c' Hb' Hg'. specialize (IH n (s + 1) [] b' c'). change (zlen (@nil Z)) with 0 in IH. rewrite Z.sub_0_r in IH. apply IH; try done; lia. }
  rewrite nonempty_ltb. case_decide as Hn0; cbn [negb].
  - subst u. cbn [app]. rewrite fields6_gap. destruct c; wp_step; [by apply pton6_post_None|].
    apply (Hnext b (Some (zlen b))); [done|]. cbn. pose proof (zlen_nonneg b). lia.
  - rewrite fields6_colon by done. wp_step. eapply cstr_rd; [exact Hc|]. destruct t as [|y t].
    { cbn. wp_step. by apply pton6_post_None. }
    intros Hy _. rewrite (proj2 (Z.eqb_neq y 0)) by done. unfold IN6ADDRSZ, INT16SZ.
    assert (Hw : zlen (b ++ octets_of_word (hex_val u)) = zlen b + 2) by (by rewrite zlen_app).
    destruct (Z.ltb_spec 16 (zlen b + 2)).
    { wp_step. apply pton6_post_None; [done|]. apply fields6_long. lia. }
    wp_step. apply wp_put_word; [lia|by apply hex_val_word|]. wp_step. rewrite <- Hw.
    apply (Hnext (b ++ octets_of_word (hex_val u)) c); [lia|]. unfold gap_ok in *. destruct c; [lia|done].
Qed.

Lemma quad_len t a : quad t = Some a -> zlen a = 4.
Proof. unfold quad. destruct (mapM _ _); [|done]. destruct (Z.eqb_spec (zlen l) INADDRSZ); [|done]. by intros [= <-]. Qed.

(** A dot: the rest of the text from the current field on is a dotted quad, or it is an error. *)
Lemma wp_pton6_dot t n s u b c :
  cstr src (s - zlen u) (u ++ 46 :: t) -> zlen b <= 16 -> gap_ok b c -> Forall xd u -> zlen u <= 4 ->
  wp (if zlen b + INADDRSZ <=? IN6ADDRSZ then
        r ← at_off (zlen b) (inet_pton4 tmp4 src (s - zlen u));
        if 0 <? r then mret (Done (Some (zlen b + INADDRSZ, c, false, hex_val u))) else mret (Done None)
      else mret (Done None)) (buf b)
     (fun st s' => match st with
                   | Next l => wp (loop n (pton6_step tmp4 src) l) s'
                                  (pton6_post (fields6 b c (split 58 (u ++ 46 :: t)))) (fun _ _ => False)
                   | Done r => pton6_post (fields6 b c (split 58 (u ++ 46 :: t))) r s'
                   end) (fun _ _ => False).
Proof.
  intros Hc Hb Hg Hu Hl. rewrite fields6_dot by done. unfold INADDRSZ, IN6ADDRSZ. pose proof (zlen_nonneg b).
  destruct (Z.leb_spec (zlen b + 4) 16).
  2: { wp_step. apply pton6_post_None; [done|]. destruct (quad _) as [q|] eqn:Hq; [|done].
       apply quad_len in Hq. rewrite finish_long; [done|]. rewrite zlen_app. lia. }
  wp_step. apply wp_at_off. eapply wp_mono; [apply wp_inet_pton4; [done|exact Hc|]| |done].
  { rewrite zlen_zdrop; rewrite zlen_buf; lia. }
  cbn. intros r s'. destruct (quad _) as [q|] eqn:Hq.
  - intros (_ & -> & ->). apply quad_len in Hq. cbn. wp_step. rewrite buf_quad by done.
    replace (zlen b + 4) with (zlen (b ++ q)) by (rewrite zlen_app; lia).
    apply (wp_pton6_tail (b ++ q) c false); [rewrite zlen_app; lia| |by apply hex_val_word].
    unfold gap_ok in Hg. rewrite zlen_app. destruct c; [lia|done].
  - intros [-> ->]. rewrite ztake_zdrop. wp_step. by apply pton6_post_None.
Qed.

Lemma wp_pton6_loop t : loop_ok t.
Proof.
  induction t as [|x t IH]; intros n s u b c Hc Hs0 Hu0 Hn Hb Hg Hu Hl;
    (destruct n as [|n]; [unfold zlen in Hn; lia|]); apply wp_loop_S; unfold pton6_step at 1;
    wp_step; (eapply cstr_rd; [exact Hc|]); cbv zeta.
  { cbn. wp_step. rewrite parse_from_end by done. apply wp_pton6_tail; [done|done|by apply hex_val_word]. }
  intros Hx0 Hc'. rewrite (proj2 (Z.eqb_neq x 0)), parse_from_fields by done. rewrite zlen_cons in Hn.
  destruct (xdigit_pos x) as [d|] eqn:Hx.
  { destruct (Z.leb_spec 4 (zlen u)) as [H4|H4].
    - wp_step. apply pton6_post_None; [done|]. apply xdigit_pos_spec in Hx as (Hxd & _).
      replace (u ++ x :: t) with ((u ++ [x]) ++ t) by (by rewrite <- app_assoc).
      apply fields6_many; [apply Forall_app; by repeat constructor|rewrite zlen_app; zlen_simpl; lia].
    - destruct (hex_step u x d Hx) as [-> Hv]; [done|]. rewrite (proj2 (Z.ltb_ge 0xffff _)) by lia. wp_step.
      apply xdigit_pos_spec in Hx as (Hxd & _). pose proof (zlen_nonneg u).
      assert (Hl1 : zlen (u ++ [x]) = zlen u + 1) by (rewrite zlen_app; by zlen_simpl).
      replace true with (0 <? zlen (u ++ [x])) by lia. rewrite <- Hl1.
      replace (s - zlen u) with (s + 1 - zlen (u ++ [x])) by lia. rewrite <- parse_from_fields.
      replace (parse_from b c u (x :: t)) with (parse_from b c (u ++ [x]) t)
        by (unfold parse_from; by rewrite <- app_assoc).
      apply IH; rewrite ?Hl1, <- ?app_assoc; try done; try lia.
      + by replace (s + 1 - (zlen u + 1)) with (s - zlen u) by lia.
      + apply Forall_app. by repeat constructor. }
  destruct (Z.eqb_spec x 58) as [->|H58]; [pose proof (zlen_nonneg u); apply wp_pton6_colon; (done || lia)|].
  destruct (Z.eqb_spec x 46) as [->|H46]; cbn [andb].
  2: { wp_step. apply pton6_post_None; [done|]. by apply fields6_other. }
  by apply wp_pton6_dot.
Qed.
End pton6.

Lemma wp_pton6_tmp tmp0 tmp4 src s t :
  zlen tmp4 = 4 -> cstr src s t ->
  wp (pton6_tmp tmp4 src s) tmp0 (pton6_result (address6 t)) (fun _ _ => False).
Proof.
  intros H4 Hc. pose proof Hc as (Hs & _). unfold pton6_tmp, leading_colon. wp_step. wp_step. wp_step. wp_step.
  change (replicate (Z.to_nat IN6ADDRSZ) 0) with (buf []).
  assert (Hrun : forall s t, cstr src s t ->
    wp (r ← loop (Z.to_nat (zlen src - s) + 1) (pton6_step tmp4 src) (Scan6 s 0 None s false 0 0); pton6_tail r) (buf [])
       (pton6_result (parse_from [] None [] t)) (fun _ _ => False)).
  { intros s' t' Hc'. pose proof (cstr_len _ _ _ Hc'). pose proof Hc' as (Hs' & _). wp_step.
    pose proof (wp_pton6_loop tmp4 src H4 t' (Z.to_nat (zlen src - s') + 1)%nat s' [] [] None) as Hl.
    change (zlen (@nil Z)) with 0 in Hl. rewrite Z.sub_0_r in Hl. apply Hl; (done || lia). }
  assert (Hpf : forall t, parse_from [] None [] t = fields6 [] None (split 58 t)) by (intros []; done).
  eapply cstr_rd; [exact Hc|]. destruct t as [|x t].
  { cbn. wp_step. cbn [or_0]. specialize (Hrun s [] Hc). by rewrite Hpf in Hrun. }
  intros Hx0 Hc'. destruct (Z.eqb_spec x 58) as [->|Hx].
  - wp_step. eapply cstr_rd; [exact Hc'|]. destruct t as [|y t]; [cbn iota; wp_step; cbn [or_0]; wp_step; done|].
    intros _ _. destruct (Z.eqb_spec y 58) as [->|Hy]; cbn [negb]; wp_step; cbn [or_0].
    + specialize (Hrun (s + 1) _ Hc'). by rewrite Hpf in Hrun.
    + wp_step. split; [done|]. cbn. by repeat (case_match; try done; try congruence).
  - wp_step. cbn [or_0]. specialize (Hrun s _ Hc). rewrite Hpf in Hrun. unfold address6.
    by repeat (case_match; try done; try congruence).
Qed.

(** C30: [inet_pton] on any text: it terminates, reads nothing behind the
    terminator, and writes the destination only when it returns 1. A version 4
    text is accepted exactly when it is four decimal octets between dots; a
    version 6 text exactly when its fields between the colons are groups of one
    to four hexadecimal digits, the last one possibly a dotted quad, with at
    most one gap that stands for at least one octet, and the octets make
    sixteen. Every other address family is an [EAFNOSUPPORT]. *)
Theorem inet_pton_correct (tmp0 tmp4 src t dst : list Z) (af s : Z) :
  zlen tmp4 = 4 -> cstr src s t ->
  (af = AF_INET -> 4 <= zlen dst) -> (af = AF_INET6 -> 16 <= zlen dst) ->
  wp (inet_pton tmp0 tmp4 af src s) dst
     (fun r dst' => (af = AF_INET \/ af = AF_INET6) /\
        match (if af =? AF_INET then quad t else address6 t) with
        | Some a => r = 1 /\ dst' = splice dst 0 a
        | None => r = 0 /\ dst' = dst
        end)
     (fun e dst' => e = EAFNOSUPPORT /\ dst' = dst /\ af <> AF_INET /\ af <> AF_INET6).
Proof.
  intros H4 Hc Hd4 Hd6. unfold inet_pton. destruct (Z.eqb_spec af AF_INET) as [E4|E4].
  { eapply wp_mono; [by apply wp_inet_pton4; auto| |done]. cbn. intros r s' Hr. split; [by left|].
    destruct (quad t); [|done]. by destruct Hr as (_ & ? & ?). }
  destruct (Z.eqb_spec af AF_INET6) as [E6|E6]; [|by wp_step].
  unfold inet_pton6. wp_step. apply wp_on_local. eapply wp_mono; [by apply wp_pton6_tmp| |done].
  cbn. intros r tmp [Hl Hr]. destruct (address6 t) as [a|].
  - destruct Hr as [-> ->]. cbn. wp_step. unfold IN6ADDRSZ. specialize (Hd6 E6). apply wp_memcpy; try lia.
    wp_step. split; [by right|]. rewrite zdrop_0, <- Hl, ztake_all. done.
  - subst r. cbn. wp_step. split; [by right|done].
Qed.

(** ** The text of an address *)

Definition hex (w : Z) : list Z := hex_digits 8 w [].

Fixpoint join (fs : list (list Z)) : list Z :=
  match fs with
  | [] => []
  | [f] => f
  | f :: fs => f ++ 58 :: join fs
  end.

Definition octet_at (a : list Z) (i : Z) : Z := default 0 (znth a i).
Definition word (a : list Z) (i : Z) : Z := octet_at a (2 * i) * 256 + octet_at a (2 * i + 1).
Definition words (a : list Z) : list Z := word a <$> seqZ 0 8.

(** The places of a gap, the longer ones first and, of one length, the leftmost. *)
Definition gaps : list zrun :=
  l ← [8; 7; 6; 5; 4; 3; 2]; (fun b => (b, l)) <$> seqZ 0 (9 - l).

Definition gap (zeros : list bool) : option zrun :=
  List.find (fun '(b, l) => forallb id (ztake l (zdrop b zeros))) gaps.

Definition text4 (a : list Z) (o : Z) : list Z :=
  fmt_quad (octet_at a o) (octet_at a (o + 1)) (octet_at a (o + 2)) (octet_at a (o + 3)).

(** The recommended text: [::] for the leftmost longest run of two zero words or
    more, and a dotted quad behind the prefixes [::] and [::ffff:]. *)
Definition text6 (a : list Z) : list Z :=
  let ws := words a in
  match gap ((fun w => w =? 0) <$> ws) with
  | None => join (hex <$> ws)
  | Some (b, l) =>
      if (b =? 0) && (l =? 6) then [58; 58] ++ text4 a 12
      else if (b =? 0) && (l =? 5) && (word a 5 =? 0xffff) then [58; 58] ++ hex 0xffff ++ [58] ++ text4 a 12
      else join (hex <$> ztake b ws) ++ [58; 58] ++ join (hex <$> zdrop (b + l) ws)
  end.

(** *** Digits *)

Lemma fmt_d_byte v : is_byte v ->
  decimal (fmt_d v) = Some v /\ Forall digit (fmt_d v) /\ 1 <= zlen (fmt_d v) <= 3.
Proof.
  intros Hv.
  pose proof (byte_check (fun v => bool_decide (decimal (fmt_d v) = Some v /\ Forall digit (fmt_d v) /\ 1 <= zlen (fmt_d v) <= 3)) v ltac:(by vm_compute) Hv) as H.
  cbn beta in H. by apply bool_decide_eq_true_1 in H.
Qed.

Lemma hex_eq w : 0 <= w < 65536 ->
  hex w = if w <? 16 then [hexdigit w]
          else if w <? 256 then [hexdigit (w / 16); hexdigit (w mod 16)]
          else if w <? 4096 then [hexdigit (w / 256); hexdigit (w / 16 mod 16); hexdigit (w mod 16)]
          else [hexdigit (w / 4096); hexdigit (w / 256 mod 16); hexdigit (w / 16 mod 16); hexdigit (w mod 16)].
Proof.
  intros Hw. unfold hex. do 4 (cbn [hex_digits]; cbv zeta). rewrite !Z.div_div by done.
  change (16 * 16) with 256. change (256 * 16) with 4096. change (4096 * 16) with 65536.
  destruct (Z.ltb_spec w 16); [rewrite Z.div_small, Z.mod_small by lia; done|].
  rewrite (proj2 (Z.eqb_neq (w / 16) 0)) by (Z.div_mod_to_equations; lia).
  destruct (Z.ltb_spec w 256); [rewrite (Z.div_small w 256) by lia; rewrite (Z.mod_small (w / 16)) by (Z.div_mod_to_equations; lia); done|].
  rewrite (proj2 (Z.eqb_neq (w / 256) 0)) by (Z.div_mod_to_equations; lia).
  destruct (Z.ltb_spec w 4096); [rewrite (Z.div_small w 4096) by lia; rewrite (Z.mod_small (w / 256)) by (Z.div_mod_to_equations; lia); done|].
  rewrite (proj2 (Z.eqb_neq (w / 4096) 0)) by (Z.div_mod_to_equations; lia).
  rewrite (Z.div_small w 65536) by lia. by rewrite (Z.mod_small (w / 4096)) by (Z.div_mod_to_equations; lia).
Qed.

Lemma hexdigit_spec v : 0 <= v < 16 -> xd (hexdigit v) /\ xdigit (hexdigit v) = v /\ hexdigit v <> 0.
Proof.
  intros Hv. unfold xdigit, xd, hexdigit, xdigit_pos, isdigit.
  destruct (Z.ltb_spec v 10); repeat (case_match; try lia); cbn; split_and!; (done || lia || eauto).
Qed.

Lemma hex_spec w : 0 <= w < 65536 ->
  Forall xd (hex w) /\ 1 <= zlen (hex w) <= 4 /\ hex_val (hex w) = w /\ Forall (fun c => c <> 0) (hex w).
Proof.
  intros Hw. rewrite hex_eq by done.
  assert (Hd : forall v, 0 <= v < 16 -> xd (hexdigit v) /\ xdigit (hexdigit v) = v /\ hexdigit v <> 0) by apply hexdigit_spec.
  assert (Hx : forall v, 0 <= v < 16 -> xdigit (hexdigit v) = v) by (intros; by apply Hd).
  repeat case_match; unfold hex_val; cbn [foldl];
    split_and!; try (zlen_simpl; lia);
    repeat (apply Forall_cons_2; [apply Hd; Z.div_mod_to_equations; lia|]); try apply Forall_nil_2;
    try (rewrite !Hx by (Z.div_mod_to_equations; lia); Z.div_mod_to_equations; lia).
Qed.

(** *** Words *)

Definition partial_word (a : list Z) (i j : Z) : Z :=
  if 2 * j + 2 <=? i then word a j else if 2 * j + 1 <=? i then octet_at a (2 * j) * 256 else 0.

Lemma octet_znth a i : 0 <= i < zlen a -> znth a i = Some (octet_at a i).
Proof. intros Hi. unfold octet_at. by destruct (znth_lt a i Hi) as [v ->]. Qed.

Lemma octet_byte a i : bytes a -> 0 <= octet_at a i < 256.
Proof. intros Ha. unfold octet_at. destruct (znth a i) as [v|] eqn:H; cbn; [|lia]. by eapply bytes_znth. Qed.

Lemma word_range a i : bytes a -> 0 <= word a i < 65536.
Proof. intros Ha. unfold word. pose proof (octet_byte a (2 * i) Ha). pose proof (octet_byte a (2 * i + 1) Ha). lia. Qed.

Lemma znth_words a j : 0 <= j < 8 -> znth (words a) j = Some (word a j).
Proof.
  intros Hj. unfold words, znth. rewrite (proj2 (Z.ltb_ge j 0)), list_lookup_fmap, lookup_seqZ_lt by lia.
  cbn. do 2 f_equal. lia.
Qed.

Lemma wp_words a E :
  zlen a = 16 -> bytes a ->
  wp (loop 17 (words_step a) 0) (replicate 8 0) (fun _ s => s = words a) E.
Proof.
  intros Hl Ha.
  apply (wp_loop (fun i s => 0 <= i <= 16 /\ zlen s = 8 /\ forall j, 0 <= j < 8 -> znth s j = Some (partial_word a i j))
    (fun i _ => Z.to_nat (16 - i))); [|lia|].
  - split_and!; [lia|lia|done|]. intros j Hj. rewrite znth_replicate by lia. unfold partial_word.
    repeat case_match; (done || lia).
  - intros i s (Hi & Hls & Hs). unfold words_step, IN6ADDRSZ. destruct (Z.ltb_spec i 16); cbn [negb]; wp_step.
    2: { apply znth_ext. intros j Hj. destruct (Z.lt_ge_cases j 8).
         - rewrite Hs, znth_words by lia. unfold partial_word. by rewrite (proj2 (Z.leb_le _ _)) by lia.
         - rewrite !znth_None; [done| |]; right; [|lia]. unfold words, zlen. rewrite length_fmap, length_seqZ. lia. }
    assert (Hi2 : 0 <= i / 2 < 8) by (Z.div_mod_to_equations; lia).
    apply (wp_rd _ _ _ _ _ (octet_at a i)); [apply octet_znth; lia|]. wp_step.
    apply (wp_run _ (rd s (i / 2)) s s); [done|]. apply (wp_rd _ _ _ _ _ _ (Hs _ Hi2)).
    wp_step. wp_step; [lia|]. wp_step. split; [|lia]. split_and!; [lia|lia|by rewrite zlen_zupd|]. intros j Hj.
    destruct (Z.eq_dec (i / 2) j) as [<-|Hne].
    2: { rewrite znth_zupd_ne, Hs by done. f_equal. unfold partial_word.
         repeat case_match; try done; Z.div_mod_to_equations; lia. }
    rewrite znth_zupd_eq by lia. f_equal. unfold partial_word. pose proof (octet_byte a i Ha).
    pose proof (octet_byte a (2 * (i / 2)) Ha). destruct (Z.eq_dec (i mod 2) 0) as [Hm|Hm].
    + replace i with (2 * (i / 2)) at 4 6 by (Z.div_mod_to_equations; lia).
      rewrite Hm. change (Z.shiftl (1 - 0) 3) with 8. rewrite Z.shiftl_mul_pow2 by done.
      repeat case_match; try (Z.div_mod_to_equations; lia). apply Z.lor_0_l.
    + assert (Hm1 : i mod 2 = 1) by (Z.div_mod_to_equations; lia). rewrite Hm1.
      change (Z.shiftl (1 - 1) 3) with 0. rewrite Z.shiftl_0_r.
      assert (Hi1 : i = 2 * (i / 2) + 1) by (Z.div_mod_to_equations; lia).
      repeat case_match; try (Z.div_mod_to_equations; lia). change 256 with (2 ^ 8). rewrite lor_add by (done || lia).
      unfold word. by rewrite <- Hi1.
Qed.

(** *** The longest run of zeros *)

Lemma loop_ext {S L R} (f g : L -> M S (step L R)) : (forall l s, f l s = g l s) ->
  forall n l s, loop n f l s = loop n g l s.
Proof.
  intros Hfg n. induction n as [|n IH]; intros l s; [done|]. rewrite !loop_S. unfold mbind, M_bind. rewrite Hfg.
  by destruct (g l s) as [[[]| | |] ?].
Qed.

Definition pattern (zeros : list bool) : list Z := (fun z : bool => if z then 0 else 1) <$> zeros.

(** Only which words are zero matters. *)
Lemma best_run_pattern {S} ws (s : S) : best_run ws s = best_run (pattern ((fun w => w =? 0) <$> ws)) s.
Proof.
  unfold best_run, mbind, M_bind. rewrite (loop_ext _ (best_step (pattern ((fun w => w =? 0) <$> ws)))); [done|].
  intros [[i best] cur] s'. unfold best_step. case_match; [done|]. unfold mbind, M_bind, rd, pattern, znth.
  destruct (i <? 0); [done|]. rewrite <- list_fmap_compose, list_lookup_fmap. destruct (ws !! Z.to_nat i) as [w|]; [|done].
  cbn. by destruct (w =? 0).
Qed.

Lemma best_run_gap {S} (z0 z1 z2 z3 z4 z5 z6 z7 : bool) (s : S) :
  let zeros := [z0; z1; z2; z3; z4; z5; z6; z7] in
  wp (best_run (pattern zeros)) s (fun r s' => s' = s /\ match gap zeros with Some g => r = g | None => r.1 = -1 end)
     (fun _ _ => False).
Proof. destruct z0, z1, z2, z3, z4, z5, z6, z7; by vm_compute. Qed.

Lemma wp_best_run {S} a (s : S) :
  wp (best_run (words a)) s
     (fun r s' => s' = s /\ match gap ((fun w => w =? 0) <$> words a) with Some g => r = g | None => r.1 = -1 end)
     (fun _ _ => False).
Proof. eapply wp_run; [apply best_run_pattern|]. apply best_run_gap. Qed.

(** *** The formatting loop *)

Lemma wp_snprintf_filled dst p text s (Q : Z -> list Z -> Prop) E :
  filled dst 46 p s -> zlen p + zlen text < 46 -> 46 <= zlen dst ->
  (forall s', filled dst 46 (p ++ text ++ [0]) s' -> Q (zlen text) s') ->
  wp (snprintf (zlen p) (46 - zlen p) text) s Q E.
Proof.
  intros Hf Hl Hd HQ. pose proof (zlen_nonneg p). pose proof (zlen_nonneg text). destruct (filled_len _ _ _ _ Hf).
  unfold snprintf. rewrite (proj2 (Z.eqb_neq _ 0)) by lia. rewrite ztake_ge by lia.
  assert (Hz : zlen (text ++ [0]) = zlen text + 1) by (rewrite zlen_app; by zlen_simpl).
  wp_step. apply wp_memcpy; try lia. wp_step. apply HQ. rewrite zdrop_0, ztake_all.
  apply filled_splice; (done || lia).
Qed.

Lemma text4_spec a o : bytes a ->
  quad (text4 a o) = Some [octet_at a o; octet_at a (o + 1); octet_at a (o + 2); octet_at a (o + 3)] /\
  7 <= zlen (text4 a o) <= 15 /\ Forall (fun c => c <> 0) (text4 a o).
Proof.
  intros Ha. unfold text4, fmt_quad. assert (Hb : forall i, is_byte (octet_at a i)) by (intros; by apply octet_byte).
  destruct (fmt_d_byte _ (Hb o)) as (D1 & F1 & L1), (fmt_d_byte _ (Hb (o + 1))) as (D2 & F2 & L2),
    (fmt_d_byte _ (Hb (o + 2))) as (D3 & F3 & L3), (fmt_d_byte _ (Hb (o + 3))) as (D4 & F4 & L4).
  split_and!.
  - unfold quad. cbn [app]. rewrite !split_sep by (by apply digit_ne). rewrite split_none by (by apply digit_ne).
    cbn [mapM]. by rewrite D1, D2, D3, D4.
  - rewrite !zlen_app. zlen_simpl. lia.
  - rewrite !zlen_app. zlen_simpl. lia.
  - cbn [app]. repeat (apply Forall_app; split; [by eapply digit_ne|]; apply Forall_cons_2; [done|]). by eapply digit_ne.
Qed.

(** The four octets from [o] on, for a destination that may be too small. *)
Lemma wp_inet_ntop4 tmp0 a o size dst :
  bytes a -> 0 <= o -> o + 4 <= zlen a -> 16 <= zlen tmp0 -> 0 <= size <= zlen dst ->
  wp (inet_ntop4 tmp0 a o size) dst
     (fun _ s => zlen (text4 a o) < size /\ s = splice dst 0 (text4 a o ++ [0]))
     (fun e s => e = ENOSPC /\ size <= zlen (text4 a o) /\ s = dst).
Proof.
  intros Ha Ho Hl Ht Hs. destruct (text4_spec a o Ha) as (_ & Hlen & Hnz). unfold inet_ntop4.
  do 4 (wp_step; eapply wp_rd; [apply octet_znth; lia|]).
  change (fmt_quad _ _ _ _) with (text4 a o). set (t := text4 a o) in *. wp_step. apply wp_on_local. unfold snprintf. cbn beta.
  change (16 =? 0) with false. cbn iota. rewrite ztake_ge by lia.
  assert (Hz : zlen (t ++ [0]) = zlen t + 1) by (rewrite zlen_app; by zlen_simpl).
  wp_step. apply wp_memcpy; try lia. wp_step. rewrite zdrop_0, ztake_all. wp_step. wp_step; [split_and!; (done || lia)|]. wp_step.
  eapply wp_mono; [apply (wp_strlcpy _ t _ size (fun _ _ => False)); [|lia]| |done].
  - rewrite splice_0, <- app_assoc. by apply cstr_intro.
  - intros r s' [_ ->]. wp_step. rewrite (proj2 (Z.eqb_neq size 0)) by lia. unfold strlcpy_buf.
    rewrite Z.min_l, ztake_all by lia. split; [lia|done].
Qed.

Definition sep (i : Z) : list Z := if i =? 0 then [] else [58].
Definition in_run (best : zrun) (i : Z) : bool := negb (best.1 =? -1) && (best.1 <=? i) && (i <? best.1 + best.2).
Definition embedded (a : list Z) (best : zrun) (i : Z) : bool :=
  (i =? 6) && (best.1 =? 0) && ((best.2 =? 6) || ((best.2 =? 5) && (word a 5 =? 0xffff))).

(** What the loop writes from the word [i] on. *)
Fixpoint fmt6 (a : list Z) (best : zrun) (fuel : nat) (i : Z) : list Z :=
  match fuel with
  | O => []
  | S fuel =>
      if in_run best i then (if i =? best.1 then [58] else []) ++ fmt6 a best fuel (i + 1)
      else if embedded a best i then sep i ++ text4 a 12
      else sep i ++ hex (word a i) ++ fmt6 a best fuel (i + 1)
  end.

Section ntop6.
Context (tmp4 tmp0 a : list Z) (best : zrun).
Context (H4 : 16 <= zlen tmp4) (H0 : zlen tmp0 = 46) (Hla : zlen a = 16) (Ha : bytes a).

(** The text of the first [i] words is short. *)
Definition short (p : list Z) (i : Z) : Prop :=
  zlen p <= 5 * i /\ (best.1 = 0 -> zlen p <= 1 + 5 * Z.max 0 (i - best.2)).

Lemma wp_put_char p c s (Q : Z -> list Z -> Prop) E :
  filled tmp0 46 p s -> zlen p + 1 < 46 ->
  (forall s', filled tmp0 46 (p ++ [c]) s' -> Q (zlen (p ++ [c])) s') -> wp (put_char 46 (zlen p) c) s Q E.
Proof.
  intros Hf Hl HQ. unfold put_char. wp_step. wp_step; [lia|]. wp_step.
  eapply wp_wr_filled; [|exact Hf|lia|]; [lia|]. intros s' Hf'. wp_step. specialize (HQ s' Hf').
  rewrite zlen_app in HQ. by zlen_simpl.
Qed.

Lemma wp_embedded p s (Q : step (Z * Z) Z -> list Z -> Prop) :
  filled tmp0 46 p s -> zlen p <= 30 ->
  (forall s', filled tmp0 46 (p ++ text4 a 12) s' -> Q (Done (zlen (p ++ text4 a 12))) s') ->
  wp (at_off (zlen p) (inet_ntop4 tmp4 a 12 (46 - zlen p));;
      tmp ← getS; n ← strlen (zdrop (zlen p) tmp); mret (Done (zlen p + n))) s Q (fun _ _ => False).
Proof.
  intros Hf Hp HQ. pose proof (zlen_nonneg p). destruct (filled_len _ _ _ _ Hf) as [_ Hl].
  destruct (text4_spec a 12 Ha) as (_ & Hlen & Hnz). set (t := text4 a 12) in *.
  assert (Hd : zlen (zdrop (zlen p) s) = 46 - zlen p) by (rewrite zlen_zdrop; lia).
  wp_step. apply wp_at_off.
  eapply wp_mono; [apply wp_inet_ntop4; try done; lia| |]; fold t; cbn beta;
    [|intros e s' (_ & Hz & _); lia].
  intros _ s' [_ ->]. wp_step. wp_step. wp_step.
  eapply wp_conseq; [apply (wp_strlen _ t)|].
  - rewrite zdrop_app_alt by (rewrite zlen_ztake; lia). rewrite splice_0, <- app_assoc. by apply cstr_intro.
  - intros n s' [-> ->]. wp_step. rewrite <- zlen_app. apply HQ.
    assert (Hsp : ztake (zlen p) s ++ splice (zdrop (zlen p) s) 0 (t ++ [0]) = splice s (zlen p) (t ++ [0])).
    { rewrite splice_0. unfold splice. pose proof (zlen_nonneg (t ++ [0])). rewrite zdrop_zdrop by lia. done. }
    rewrite Hsp. eapply (filled_app_inv tmp0 46 _ [0]). rewrite <- app_assoc. apply filled_splice; [lia|done|].
    rewrite zlen_app. zlen_simpl. lia.
Qed.

Lemma wp_ntop6_loop fuel : forall i p s,
  i = 8 - Z.of_nat fuel -> 0 <= i -> (best.1 <> -1 -> 0 <= best.2) -> filled tmp0 46 p s -> short p i ->
  wp (loop (S fuel) (ntop6_step tmp4 a (words a) best) (i, zlen p)) s
     (fun tp s' => tp = zlen (p ++ fmt6 a best fuel i) /\ tp <= 43 /\ filled tmp0 46 (p ++ fmt6 a best fuel i) s')
     (fun _ _ => False).
Proof.
  induction fuel as [|fuel IH]; intros i p s Hi Hi0 Hb Hf [Hs1 Hs2]; apply wp_loop_S; unfold ntop6_step at 1;
    unfold ntop6_size; cbv zeta.
  { rewrite (proj2 (Z.ltb_ge i 8)) by lia. cbn. wp_step. rewrite app_nil_r. split_and!; (done || lia). }
  rewrite (proj2 (Z.ltb_lt i 8)), (proj2 (Z.ltb_lt (zlen p) 46)) by lia. cbn [andb negb fmt6].
  change (negb (best.1 =? -1) && (best.1 <=? i) && (i <? best.1 + best.2)) with (in_run best i).
  assert (Hnext : forall q s', filled tmp0 46 (p ++ q) s' -> short (p ++ q) (i + 1) ->
    wp (loop (S fuel) (ntop6_step tmp4 a (words a) best) (i + 1, zlen (p ++ q))) s'
      (fun tp s' => tp = zlen (p ++ q ++ fmt6 a best fuel (i + 1)) /\ tp <= 43 /\
                    filled tmp0 46 (p ++ q ++ fmt6 a best fuel (i + 1)) s') (fun _ _ => False)).
  { intros q s' Hf' Hs'. rewrite app_assoc. by apply IH; try lia. }
  destruct (in_run best i) eqn:Hr.
  { unfold in_run in Hr. wp_step. destruct (Z.eqb_spec i best.1).
    - apply wp_put_char; [done|lia|]. intros s' Hf'. wp_step. apply Hnext; [done|].
      unfold short. rewrite zlen_app. zlen_simpl. lia.
    - wp_step. wp_step. specialize (Hnext [] s). rewrite app_nil_r in Hnext. apply Hnext; [done|]. unfold short. lia. }
  assert (Hsep : forall (k : Z -> M (list Z) (step (Z * Z) Z)) Q, 
    (forall s', filled tmp0 46 (p ++ sep i) s' -> wp (k (zlen (p ++ sep i))) s' Q (fun _ _ => False)) ->
    wp (tp ← (if negb (i =? 0) then put_char 46 (zlen p) 58 else mret (zlen p)); k tp) s Q (fun _ _ => False)).
  { intros k Q Hk. unfold sep in Hk. wp_step. destruct (i =? 0); cbn [negb].
    - wp_step. rewrite app_nil_r in Hk. by apply Hk.
    - apply wp_put_char; [done|lia|]. exact Hk. }
  assert (Hlsep : 0 <= zlen (sep i) <= 1) by (unfold sep; by destruct (i =? 0)).
  apply Hsep. intros s1 Hf1. wp_step. eapply wp_rd; [apply znth_words; lia|].
  change ((i =? 6) && (best.1 =? 0) && ((best.2 =? 6) || ((best.2 =? 5) && (word a 5 =? 65535)))) with (embedded a best i).
  destruct (embedded a best i) eqn:He.
  { rewrite app_assoc. unfold embedded, in_run in *. apply wp_embedded; [done|rewrite zlen_app; lia|].
    intros s' Hf'. split_and!; [done| |done]. destruct (text4_spec a 12 Ha) as (_ & Hlen & _).
    rewrite !zlen_app. lia. }
  wp_step. eapply wp_rd; [apply znth_words; lia|]. wp_step.
  destruct (hex_spec (word a i) (word_range a i Ha)) as (_ & Hlh & _). unfold hex in Hlh.
  eapply wp_snprintf_filled; [exact Hf1|rewrite zlen_app; lia|lia|]. intros s2 Hf2. wp_step.
  wp_step; [rewrite zlen_app in *; lia|]. wp_step. change (hex_digits 8 (word a i) []) with (hex (word a i)) in *.
  specialize (Hnext (sep i ++ hex (word a i)) s2). rewrite <- !app_assoc in Hnext.
  rewrite <- (zlen_app (p ++ sep i)), <- app_assoc. apply Hnext.
  - eapply (filled_app_inv tmp0 46 _ [0]). by rewrite <- !app_assoc in *.
  - unfold short, in_run in *. rewrite !zlen_app. unfold hex in *. lia.
Qed.
End ntop6.

(** *** The loop writes the recommended text *)

Lemma gap_Some zeros b l :
  gap zeros = Some (b, l) -> List.In (b, l) gaps /\ forallb id (ztake l (zdrop b zeros)) = true.
Proof. intros H. by apply List.find_some in H. Qed.

Ltac gap_cases H :=
  let Hin := fresh "Hin" in
  apply gap_Some in H as [Hin H]; vm_compute in Hin; repeat destruct Hin as [[= <- <-]|Hin]; [..|by destruct Hin].

(** Evaluation with the digits, the words and the dotted quad left abstract. *)
Ltac fmt6_eval a He :=
  cbn [fmt6]; unfold embedded; revert He; generalize (word a 5 =? 65535); intros e He; cbn [fst snd] in *;
  generalize dependent (word a); intros w He; generalize (text4 a 12); intros q;
  generalize dependent hex; intros h;
  destruct e; cbv -[app] in *; try rewrite (He eq_refl); cbn [app]; repeat (rewrite <- app_assoc; cbn [app]);
  rewrite ?app_nil_r; reflexivity.

Lemma fmt6_text a r :
  match gap ((fun w => w =? 0) <$> words a) with Some g => r = g | None => r.1 = -1 end ->
  fmt6 a r 8 0 ++ (if negb (r.1 =? -1) && (r.1 + r.2 =? 8) then [58] else []) = text6 a /\ (r.1 <> -1 -> 0 <= r.2).
Proof.
  unfold text6. cbv zeta. change (words a) with (word a <$> [0; 1; 2; 3; 4; 5; 6; 7]).
  assert (He : (word a 5 =? 65535) = true -> word a 5 = 65535) by lia.
  destruct (gap _) as [[b l]|] eqn:Hg.
  - intros ->. gap_cases Hg; clear Hg; (split; [|done]); fmt6_eval a He.
  - destruct r as [b l]. cbn [fst]. intros ->. split; [|done]. unfold in_run. cbn [fst]. clear Hg.
    cbn [negb Z.eqb andb]. fmt6_eval a He.
Qed.

(** *** inet_ntop6 *)

Lemma hex_nonzero a i : bytes a -> Forall (fun c => c <> 0) (hex (word a i)).
Proof. intros Ha. by apply hex_spec, word_range. Qed.

Lemma fmt6_nonzero a r fuel i : bytes a -> Forall (fun c => c <> 0) (fmt6 a r fuel i).
Proof.
  intros Ha. revert i. induction fuel as [|fuel IH]; intros i; cbn [fmt6]; [done|].
  assert (Hs : Forall (fun c => c <> 0) (sep i)) by (unfold sep; case_match; by repeat constructor).
  destruct (in_run r i); [|destruct (embedded a r i)]; (apply Forall_app; split); try done.
  - case_match; by repeat constructor.
  - by apply text4_spec.
  - apply Forall_app. split; [by apply hex_nonzero|done].
Qed.

Lemma text6_nonzero a : bytes a -> Forall (fun c => c <> 0) (text6 a).
Proof.
  intros Ha.
  destruct (fmt6_text a (default (-1, 0) (gap ((fun w => w =? 0) <$> words a)))) as [<- _]; [by destruct (gap _)|].
  apply Forall_app. split; [by apply fmt6_nonzero|]. case_match; by repeat constructor.
Qed.

Lemma wp_ntop6_tmp tmp4 tmp0 a :
  16 <= zlen tmp4 -> zlen tmp0 = 46 -> zlen a = 16 -> bytes a ->
  wp (ntop6_tmp tmp4 a) tmp0
     (fun tp tmp => tp = zlen (text6 a) + 1 /\ tp <= 46 /\ filled tmp0 46 (text6 a ++ [0]) tmp) (fun _ _ => False).
Proof.
  intros H4 H0 Hl Ha. unfold ntop6_tmp, ntop6_size. cbv zeta. wp_step. apply wp_on_local.
  eapply wp_mono; [by apply (wp_words a (fun _ _ => False))| |done]. intros [] ws ->. wp_step.
  eapply wp_conseq; [apply wp_best_run|]. intros r s' [-> Hr]. destruct (fmt6_text a r Hr) as [Ht Hr2]. rewrite <- Ht.
  clear Hr Ht. wp_step.
  eapply wp_conseq; [apply (wp_ntop6_loop tmp4 tmp0 a r H4 H0 Hl Ha 8 0 []); try done; try lia|].
  { unfold short. change (zlen (@nil Z)) with 0. lia. }
  cbn [app]. intros tp s (-> & Htp & Hf). wp_step.
  assert (Hend : forall p s', filled tmp0 46 p s' -> zlen p <= 44 ->
    wp (put_char 46 (zlen p) 0) s' (fun tp tmp => tp = zlen p + 1 /\ tp <= 46 /\ filled tmp0 46 (p ++ [0]) tmp) (fun _ _ => False)).
  { intros p s' Hp Hpl. apply (wp_put_char tmp0 H0); [done|lia|]. intros s2 Hs2. rewrite zlen_app. zlen_simpl. split_and!; (done || lia). }
  destruct (negb (r.1 =? -1) && (r.1 + r.2 =? 8)).
  - apply (wp_put_char tmp0 H0); [done|lia|]. intros s' Hf'. apply Hend; [done|]. rewrite zlen_app. zlen_simpl. lia.
  - wp_step. rewrite app_nil_r. apply Hend; [done|lia].
Qed.

Lemma filled_cstr dst eom t s : Forall (fun c => c <> 0) t -> filled dst eom (t ++ [0]) s -> cstr s 0 t.
Proof.
  intros Ht (_ & _ & _ & Hf). rewrite <- (ztake_zdrop (zlen (t ++ [0])) s), Hf, <- app_assoc. by apply cstr_intro.
Qed.

Lemma wp_inet_ntop6 tmp0 tmp4 a size dst :
  16 <= zlen tmp4 -> zlen tmp0 = 46 -> zlen a = 16 -> bytes a -> 0 <= size <= zlen dst ->
  wp (inet_ntop6 tmp0 tmp4 a size) dst
     (fun _ s => zlen (text6 a) < size /\ s = splice dst 0 (text6 a ++ [0]))
     (fun e s => e = ENOSPC /\ size <= zlen (text6 a) /\ s = dst).
Proof.
  intros H4 H0 Hl Ha Hs. unfold inet_ntop6. wp_step. apply wp_on_local.
  eapply wp_mono; [by apply wp_ntop6_tmp| |done]. intros tp tmp (-> & Htp & Hf). cbn beta iota.
  pose proof (zlen_nonneg (text6 a)). wp_step. wp_step; [split_and!; (done || lia)|]. wp_step.
  eapply wp_mono; [apply (wp_strlcpy tmp (text6 a) dst size (fun _ _ => False)); [|lia]| |done].
  - eapply filled_cstr; [by apply text6_nonzero|exact Hf].
  - intros r s' [_ ->]. wp_step. rewrite (proj2 (Z.eqb_neq size 0)) by lia. unfold strlcpy_buf.
    rewrite Z.min_l, ztake_all by lia. split; [lia|done].
Qed.

(** *** The parser reads the text back *)

Section reads_back.
Context (a : list Z) (Hl : zlen a = 16) (Ha : bytes a).

Lemma octets_word i : octets_of_word (word a i) = [octet_at a (2 * i); octet_at a (2 * i + 1)].
Proof.
  unfold octets_of_word, word. pose proof (octet_byte a (2 * i + 1) Ha).
  rewrite Z.div_add_l, Z.div_small, Z.add_0_r by lia. rewrite Z.add_comm, Z.mod_add, Z.mod_small by lia. done.
Qed.

Lemma word_zero i : word a i = 0 -> octet_at a (2 * i) = 0 /\ octet_at a (2 * i + 1) = 0.
Proof. unfold word. pose proof (octet_byte a (2 * i) Ha). pose proof (octet_byte a (2 * i + 1) Ha). lia. Qed.

Lemma octets_all : a = octet_at a <$> seqZ 0 16.
Proof.
  apply znth_ext. intros i Hi. destruct (Z.lt_ge_cases i 16).
  - rewrite octet_znth by lia. unfold znth. rewrite (proj2 (Z.ltb_ge i 0)), list_lookup_fmap, lookup_seqZ_lt by lia.
    cbn. do 2 f_equal. lia.
  - rewrite !znth_None; [done| |]; right; [|lia]. unfold zlen. rewrite length_fmap, length_seqZ. lia.
Qed.

Lemma hex_field i : hex (word a i) <> [] /\ zlen (hex (word a i)) <= 4 /\ Forall xd (hex (word a i)).
Proof.
  destruct (hex_spec (word a i) (word_range a i Ha)) as (? & ? & _). split_and!; [|lia|done].
  intros E. rewrite E in *. change (zlen (@nil Z)) with 0 in *. lia.
Qed.

Lemma hex_val_hex i : octets_of_word (hex_val (hex (word a i))) = [octet_at a (2 * i); octet_at a (2 * i + 1)].
Proof. rewrite <- octets_word. do 2 f_equal. by apply hex_spec, word_range. Qed.

Lemma read_hex b c i t :
  fields6 b c (split 58 (hex (word a i) ++ 58 :: t)) = fields6 (b ++ [octet_at a (2 * i); octet_at a (2 * i + 1)]) c (split 58 t).
Proof. destruct (hex_field i) as (? & ? & ?). by rewrite fields6_colon, hex_val_hex. Qed.

Lemma read_last b c i :
  fields6 b c (split 58 (hex (word a i))) = finish (b ++ [octet_at a (2 * i); octet_at a (2 * i + 1)]) c.
Proof.
  destruct (hex_field i) as (? & ? & ?). rewrite split_none, fields6_one by (by apply xd_ne).
  by rewrite last_ok, hex_val_hex.
Qed.

Lemma read_gap_nonempty b u t :
  u <> [] -> fields6 b None (split 58 (58 :: u ++ t)) = fields6 b (Some (zlen b)) (split 58 (u ++ t)).
Proof. intros Hu. rewrite fields6_gap, decide_False; [done|]. by destruct u. Qed.

Lemma read_gap b i t :
  fields6 b None (split 58 (58 :: hex (word a i) ++ t)) = fields6 b (Some (zlen b)) (split 58 (hex (word a i) ++ t)).
Proof. apply read_gap_nonempty, hex_field. Qed.

Lemma read_gap_last b i :
  fields6 b None (split 58 (58 :: hex (word a i))) = fields6 b (Some (zlen b)) (split 58 (hex (word a i))).
Proof. rewrite <- (app_nil_r (hex _)). apply read_gap. Qed.

Lemma read_gap_quad b :
  fields6 b None (split 58 (58 :: text4 a 12)) = fields6 b (Some (zlen b)) (split 58 (text4 a 12)).
Proof.
  rewrite <- (app_nil_r (text4 a 12)). apply read_gap_nonempty. destruct (text4_spec a 12 Ha) as (_ & Hlen & _).
  intros E. rewrite E in Hlen. change (zlen (@nil Z)) with 0 in Hlen. lia.
Qed.

Lemma read_gap_start t : address6 (58 :: 58 :: t) = fields6 [] None (split 58 (58 :: t)).
Proof. done. Qed.

Lemma read_gap_end b : fields6 b None (split 58 [58]) = finish b (Some (zlen b)).
Proof. done. Qed.

Lemma read_quad b c :
  fields6 b c (split 58 (text4 a 12)) = finish (b ++ [octet_at a 12; octet_at a 13; octet_at a 14; octet_at a 15]) c.
Proof.
  destruct (text4_spec a 12 Ha) as (Hq & _). destruct (fmt_d_byte (octet_at a 12)) as (_ & Hd & Hlen); [by apply octet_byte|].
  unfold text4, fmt_quad in *. cbn [app] in *. rewrite fields6_dot, Hq; [done| |lia].
  eapply Forall_impl; [exact Hd|]. intros x Hx. unfold digit in Hx. unfold xd, xdigit_pos. rewrite Hx. by eexists.
Qed.

Lemma read_start i t : address6 (hex (word a i) ++ t) = fields6 [] None (split 58 (hex (word a i) ++ t)).
Proof.
  destruct (hex_field i) as (Hn & _ & Hx). destruct (hex (word a i)) as [|x u]; [done|]. cbn [app]. unfold address6.
  assert (x <> 58) by (inversion Hx as [|? ? [d Hd]]; intros ->; done).
  repeat (case_match; try done).
Qed.
(** Reads a text whose fields are known. *)
Ltac read_fields :=
  rewrite ?read_start, ?read_gap_start;
  repeat first [rewrite read_hex | rewrite read_gap_end | rewrite read_gap | rewrite read_gap_last
               | rewrite read_gap_quad | rewrite read_quad | rewrite read_last].

Ltac text_eval :=
  cbn [Z.eqb Pos.eqb andb]; try (destruct (Z.eqb_spec (word a 5) 65535) as [<-|]);
  cbv -[app hex word text4 address6 octet_at seqZ]; cbn [app]; repeat (rewrite <- app_assoc; cbn [app]);
  rewrite ?app_nil_r.

Ltac zero_words Hg :=
  cbv -[word Z.eqb] in Hg;
  repeat match type of Hg with
  | context [word a ?k =? 0] =>
      let E := fresh "E" in destruct (Z.eqb_spec (word a k) 0) as [E|]; [apply word_zero in E as [? ?]|done]
  end; clear Hg.

Ltac octets_eval :=
  generalize dependent (octet_at a); clear; intros o; intros; cbv in *;
  repeat match goal with E : o _ = 0 |- _ => rewrite E; clear E end; reflexivity.

Lemma address6_text6 : address6 (text6 a) = Some a.
Proof.
  rewrite octets_all at 2. unfold text6. cbv zeta. change (words a) with (word a <$> [0; 1; 2; 3; 4; 5; 6; 7]).
  destruct (gap _) as [[b l]|] eqn:Hg.
  - gap_cases Hg; zero_words Hg; text_eval; read_fields; octets_eval.
  - clear Hg. text_eval; read_fields; octets_eval.
Qed.
End reads_back.

Lemma quad_text4 a : zlen a = 4 -> bytes a -> quad (text4 a 0) = Some a.
Proof.
  intros Hl Ha. destruct (text4_spec a 0 Ha) as (-> & _). f_equal.
  destruct a as [|a0 [|a1 [|a2 [|a3 [|]]]]]; try done. exfalso. unfold zlen in Hl. cbn in Hl. lia.
Qed.

(** ** The properties of [inet_ntop] *)

Definition text_of (af : Z) (a : list Z) : list Z := if af =? AF_INET then text4 a 0 else text6 a.

(** C31: [inet_ntop] writes the recommended text of every address, with its
    terminator, exactly when that fits the size it was given, and leaves the
    destination alone with [ENOSPC] otherwise; [inet_pton] of what it wrote
    gives the address back. The text of a version 6 address has [::] for the
    leftmost longest run of two zero groups or more and shows embedded version
    4 addresses as dotted quads. *)
Theorem inet_ntop_pton (tmp0 tmp4 a dst : list Z) (af size : Z) :
  zlen tmp0 = 46 -> 16 <= zlen tmp4 -> bytes a -> 0 <= size <= zlen dst ->
  (af = AF_INET -> zlen a = 4) -> (af = AF_INET6 -> zlen a = 16) ->
  wp (inet_ntop tmp0 tmp4 af a size) dst
     (fun _ s => zlen (text_of af a) < size /\ s = splice dst 0 (text_of af a ++ [0]) /\
        forall p0 p4 d, zlen p4 = 4 -> zlen a <= zlen d ->
          wp (inet_pton p0 p4 af s 0) d (fun r d' => r = 1 /\ d' = splice d 0 a) (fun _ _ => False))
     (fun e s => s = dst /\
        if bool_decide (af = AF_INET \/ af = AF_INET6) then e = ENOSPC /\ size <= zlen (text_of af a)
        else e = EAFNOSUPPORT).
Proof.
  intros H0 H4 Ha Hs Hl4 Hl6. unfold inet_ntop, text_of. destruct (Z.eqb_spec af AF_INET) as [->|E4].
  - specialize (Hl4 eq_refl). eapply wp_mono; [apply wp_inet_ntop4; (done || lia)| |].
    2: { cbn. intros e s (-> & ? & ->). done. }
    cbn beta. intros _ s [Hsz ->]. split_and!; [done|done|]. intros p0 p4 d Hp4 Hd. unfold inet_pton. cbn [Z.eqb].
    eapply wp_mono; [apply (wp_inet_pton4 p4 _ 0 (text4 a 0)); [done| |lia]| |done].
    + rewrite splice_0, <- app_assoc. by apply cstr_intro, text4_spec.
    + cbn beta. rewrite quad_text4 by done. by intros r d' (_ & ? & ?).
  - destruct (Z.eqb_spec af AF_INET6) as [->|E6].
    2: { wp_step. split; [done|]. rewrite bool_decide_eq_false_2; [done|]. by intros [?|?]. }
    specialize (Hl6 eq_refl). eapply wp_mono; [apply wp_inet_ntop6; done| |].
    2: { cbn. intros e s (-> & ? & ->). done. }
    cbn beta. intros _ s [Hsz ->]. split_and!; [done|done|]. intros p0 p4 d Hp4 Hd. unfold inet_pton, inet_pton6. cbn [Z.eqb].
    change (AF_INET6 =? AF_INET) with false. change (AF_INET6 =? AF_INET6) with true. cbn iota.
    wp_step. apply wp_on_local. eapply wp_mono; [apply (wp_pton6_tmp p0 p4 _ 0 (text6 a) Hp4)| |done].
    + rewrite splice_0, <- app_assoc. by apply cstr_intro, text6_nonzero.
    + cbn beta. rewrite address6_text6 by done. intros r tmp (Hz & -> & ->). cbn [Z.eqb]. cbn iota.
      wp_step. unfold IN6ADDRSZ. apply wp_memcpy; try lia. wp_step. split; [done|]. by rewrite zdrop_0, <- Hz, ztake_all.
Qed.

(** 1:0:0:2::4, in a buffer that is just large enough, and ::ffff:1.2.3.4 in one
    that is too small. *)
Definition sample6 : list Z := [0; 1; 0; 0; 0; 0; 0; 2; 0; 0; 0; 0; 0; 0; 0; 4].
Definition mapped6 : list Z := [0; 0; 0; 0; 0; 0; 0; 0; 0; 0; 0xff; 0xff; 1; 2; 3; 4].

Lemma inet_ntop_pton_witness :
  let r := inet_ntop (replicate 46 7) (replicate 16 7) AF_INET6 sample6 11 (replicate 12 5) in
  wp (inet_pton (replicate 16 7) (replicate 4 7) AF_INET6 (snd r) 0) (replicate 16 9)
     (fun r d => r = 1 /\ d = sample6) (fun _ _ => False) /\
  r = (Ret tt, [49; 58; 48; 58; 48; 58; 50; 58; 58; 52; 0; 5]) /\
  inet_ntop (replicate 46 7) (replicate 16 7) AF_INET6 mapped6 14 (replicate 14 5) = (Err ENOSPC, replicate 14 5).
Proof.
  pose proof (inet_ntop_pton (replicate 46 7) (replicate 16 7) sample6 (replicate 12 5) AF_INET6 11
    ltac:(by vm_compute) ltac:(by vm_compute) ltac:(by apply bytes_check) ltac:(by vm_compute) ltac:(done) ltac:(by vm_compute)) as H.
  apply wp_eq in H as [(u & s & Hr & _ & _ & H)|(e & s & Hr & _)]; [|by vm_compute in Hr].
  split_and!; [|by vm_compute|by vm_compute]. rewrite Hr. cbn [snd]. by apply H; vm_compute.
Defined.

(** 1::0102:0304 with the last two groups as a dotted quad, and a text with two gaps. *)
Lemma inet_pton_correct_witness :
  wp (inet_pton [] (replicate 4 7) AF_INET6 [49; 58; 58; 49; 46; 50; 46; 51; 46; 52; 0] 0) (replicate 16 9)
     (fun r d => r = 1 /\ d = [0; 1; 0; 0; 0; 0; 0; 0; 0; 0; 0; 0; 1; 2; 3; 4]) (fun _ _ => False) /\
  address6 [49; 58; 58; 50; 58; 58; 51] = None.
Proof.
  split; [|by vm_compute].
  eapply wp_mono; [apply (inet_pton_correct [] (replicate 4 7) [49; 58; 58; 49; 46; 50; 46; 51; 46; 52; 0]
    [49; 58; 58; 49; 46; 50; 46; 51; 46; 52] (replicate 16 9) AF_INET6 0)| |].
  - by vm_compute.
  - apply (cstr_intro [49; 58; 58; 49; 46; 50; 46; 51; 46; 52] []). by repeat constructor.
  - done.
  - by vm_compute.
  - intros r d [_ H]. by vm_compute in H.
  - by intros e d (_ & _ & _ & H).
Defined.
