(* ===== verification/NsTtl.v ===== *)
(** * Times to live: [bionic/libc/dns/nameser/ns_ttl.c]

    [ns_format_ttl] fills the buffer that is the state; [ns_parse_ttl] reads an
    array that ends in a NUL and leaves the state alone. [u_long] has 64 bits;
    the error return of [ns_format_ttl], which sets no [errno], is the error 0. *)
From S2P Require Import Prelude CString NsName.

(** ** The code *)

(** [<ctype.h>] of characters below 128. *)
Definition isascii (c : Z) : bool := c <? 128.
Definition isprint (c : Z) : bool := (32 <=? c) && (c <=? 126).
Definition isupper (c : Z) : bool := (65 <=? c) && (c <=? 90).
Definition islower (c : Z) : bool := (97 <=? c) && (c <=? 122).
Definition tolower (c : Z) : Z := if isupper c then c + 32 else c.
Definition toupper (c : Z) : Z := if islower c then c - 32 else c.

(** [*buf] and [*buflen] are passed and returned. *)
Definition fmt1 (t s buf buflen : Z) : M (list Z) (Z * Z) :=
  let tmp := fmt_int t ++ [s] in
  let len := zlen tmp in
  if buflen <? len + 1 then fail 0
  else
    memcpy (tmp ++ [0]) buf 0 (len + 1);;
    mret (buf + len, buflen - len).

(** [if (b) { T(fmt1(t, s, &dst, &dstlen)); x++; }] *)
Definition unit_part (b : bool) (t s : Z) '((dst, dstlen, x) : Z * Z * Z) : M (list Z) (Z * Z * Z) :=
  if b then
    '(dst, dstlen) ← fmt1 t s dst dstlen;
    mret (dst, dstlen, x + 1)
  else mret (dst, dstlen, x).

Definition lower_step (p : Z) : M (list Z) (step Z unit) :=
  ch ← rdS p;
  if ch =? 0 then mret (Done tt)
  else
    (if isascii ch && isupper ch then wr p (tolower ch) else mret tt);;
    mret (Next (p + 1)).

(** The five units, from [x = 0] on. *)
Definition format_parts (weeks days hours mins secs dstlen : Z) : M (list Z) (Z * Z * Z) :=
  let some := negb (weeks =? 0) || negb (days =? 0) || negb (hours =? 0) || negb (mins =? 0) in
  l ← unit_part (negb (weeks =? 0)) weeks 87 (0, dstlen, 0);
  l ← unit_part (negb (days =? 0)) days 68 l;
  l ← unit_part (negb (hours =? 0)) hours 72 l;
  l ← unit_part (negb (mins =? 0)) mins 77 l;
  unit_part (negb (secs =? 0) || negb some) secs 83 l.

Definition ns_format_ttl (src dstlen : Z) : M (list Z) Z :=
  let secs := src mod 60 in let src := src / 60 in
  let mins := src mod 60 in let src := src / 60 in
  let hours := src mod 24 in let src := src / 24 in
  let days := src mod 7 in let src := src / 7 in
  let weeks := s32 src in
  '(dst, dstlen, x) ← format_parts weeks days hours mins secs dstlen;
  (if 1 <? x then b ← getS; loop (Datatypes.S (length b)) lower_step 0 else mret tt);;
  mret dst.

(** The [switch], with its fall-through: [None] is [goto einval]. *)
Definition scale (ch tmp : Z) : option Z :=
  if ch =? 87 then Some (u64 (u64 (u64 (u64 (tmp * 7) * 24) * 60) * 60))
  else if ch =? 68 then Some (u64 (u64 (u64 (tmp * 24) * 60) * 60))
  else if ch =? 72 then Some (u64 (u64 (tmp * 60) * 60))
  else if ch =? 77 then Some (u64 (tmp * 60))
  else if ch =? 83 then Some tmp
  else None.

Record ttl_locals : Type := Ttl { t_src : Z; t_ttl : Z; t_tmp : Z; t_digits : Z; t_dirty : bool }.

Definition parse_step {S} (src : list Z) (l : ttl_locals) : M S (step ttl_locals ttl_locals) :=
  let '(Ttl s ttl tmp digits dirty) := l in
  ch ← rd src s;
  if ch =? 0 then mret (Done l)
  else
    fail_if (negb (isascii ch) || negb (isprint ch)) EINVAL;;
    if isdigit ch then mret (Next (Ttl (s + 1) ttl (u64 (u64 (tmp * 10) + (ch - 48))) (digits + 1) dirty))
    else
      fail_if (digits =? 0) EINVAL;;
      let ch := if islower ch then toupper ch else ch in
      match scale ch tmp with
      | None => fail EINVAL
      | Some tmp => mret (Next (Ttl (s + 1) (u64 (ttl + tmp)) 0 0 true))
      end.

(** The value stored in [*dst]. *)
Definition ns_parse_ttl {S} (src : list Z) (s : Z) : M S Z :=
  '(Ttl _ ttl tmp digits dirty) ← loop (Z.to_nat (zlen src - s) + 1) (parse_step src) (Ttl s 0 0 0 false);
  if 0 <? digits then
    fail_if dirty EINVAL;;
    mret (u64 (ttl + tmp))
  else
    fail_if (negb dirty) EINVAL;;
    mret ttl.

(** ** The text of a time to live *)

(** The units, with the number of each. *)
Definition parts (ttl : Z) : list (Z * Z) :=
  let l := List.filter (fun '(n, _) => negb (n =? 0))
    [(ttl / 604800, 87); (ttl / 86400 mod 7, 68); (ttl / 3600 mod 24, 72); (ttl / 60 mod 60, 77); (ttl mod 60, 83)] in
  if decide (l = []) then [(0, 83)] else l.

Definition part_text (p : Z * Z) : list Z := fmt_d p.1 ++ [p.2].

(** Lower case when there is more than one unit. *)
Definition ttl_text (ttl : Z) : list Z :=
  let t := mjoin (part_text <$> parts ttl) in
  if 1 <? zlen (parts ttl) then tolower <$> t else t.

(** ** Numbers *)

Lemma dec_digits_value fuel : forall v acc, 0 <= v < 10 ^ Z.of_nat fuel -> (0 < fuel)%nat ->
  foldl (fun x c => x * 10 + (c - 48)) 0 (dec_digits fuel v acc) = foldl (fun x c => x * 10 + (c - 48)) v acc.
Proof.
  induction fuel as [|fuel IH]; intros v acc Hv Hf; [lia|]. cbn [dec_digits]. cbv zeta.
  pose proof (Z.div_mod v 10 ltac:(lia)) as Hdm. destruct (Z.eqb_spec (v / 10) 0) as [E|E].
  - cbn [foldl]. f_equal. lia.
  - assert (0 <= v / 10 < 10 ^ Z.of_nat fuel).
    { rewrite Nat2Z.inj_succ, Z.pow_succ_r in Hv by lia. Z.div_mod_to_equations. lia. }
    destruct fuel; [cbn in *; lia|]. rewrite IH by lia. cbn [foldl]. f_equal. lia.
Qed.

Lemma dec_digits_digits fuel : forall v acc, 0 <= v -> Forall (fun c => isdigit c = true) acc ->
  Forall (fun c => isdigit c = true) (dec_digits fuel v acc).
Proof.
  induction fuel as [|fuel IH]; intros v acc Hv Ha; [done|]. cbn [dec_digits]. cbv zeta.
  assert (Hd : Forall (fun c => isdigit c = true) ((48 + v mod 10) :: acc)).
  { constructor; [|done]. unfold isdigit. Z.div_mod_to_equations. lia. }
  case_match; [done|]. apply IH; [|done]. Z.div_mod_to_equations. lia.
Qed.

Lemma dec_digits_nonempty fuel v acc : (0 < fuel)%nat -> dec_digits fuel v acc <> [].
Proof.
  intros Hf. assert (Hl : forall fuel v acc, (length acc <= length (dec_digits fuel v acc))%nat).
  { clear. induction fuel as [|fuel IH]; intros v acc; [done|]. cbn [dec_digits]. cbv zeta. case_match; cbn; [lia|].
    etrans; [|apply IH]. cbn. lia. }
  destruct fuel as [|fuel]; [lia|]. cbn [dec_digits]. cbv zeta. case_match; [done|]. intros E.
  specialize (Hl fuel (v / 10) ((48 + v mod 10) :: acc)). rewrite E in Hl. cbn in Hl. lia.
Qed.

Lemma u64_u64_add a b : u64 (u64 a + b) = u64 (a + b).
Proof. unfold u64. apply Zplus_mod_idemp_l. Qed.

Lemma u64_u64_add_r a b : u64 (a + u64 b) = u64 (a + b).
Proof. unfold u64. apply Zplus_mod_idemp_r. Qed.

Lemma u64_u64_mul a b : u64 (u64 a * b) = u64 (a * b).
Proof. unfold u64. apply Zmult_mod_idemp_l. Qed.

(** ** Parsing *)

Definition acc10 (x c : Z) : Z := x * 10 + (c - 48).

(** The seconds of a unit. *)
Definition seconds (c : Z) : Z :=
  if c =? 87 then 604800 else if c =? 68 then 86400 else if c =? 72 then 3600 else if c =? 77 then 60 else 1.

Definition is_unit (c : Z) : Prop := c ∈ [87; 68; 72; 77; 83].
#[local] Instance is_unit_decision c : Decision (is_unit c).
Proof. unfold is_unit. apply _. Defined.

Lemma scale_seconds c x : is_unit c -> scale c (u64 x) = Some (u64 (seconds c * x)).
Proof.
  unfold is_unit. rewrite !elem_of_cons. intros Hc.
  destruct_or! Hc; try subst c; try (by apply not_elem_of_nil in Hc); unfold scale, seconds; cbn [Z.eqb Pos.eqb];
    repeat match goal with
      | |- context [u64 (u64 ?a * ?b)] => lazymatch a with context [u64 _] => fail | _ => rewrite (u64_u64_mul a b) end
      end; do 2 f_equal; lia.
Qed.

Section parse.
Context {S : Type} (src : list Z).

Lemma wp_parse_digits ds : forall n s t ttl x digits dirty (st : S) Q E,
  Forall (fun c => isdigit c = true) ds -> cstr src s (ds ++ t) ->
  (cstr src (s + zlen ds) t ->
   wp (loop n (parse_step src) (Ttl (s + zlen ds) ttl (u64 (foldl acc10 x ds)) (digits + zlen ds) dirty)) st Q E) ->
  wp (loop (length ds + n) (parse_step src) (Ttl s ttl (u64 x) digits dirty)) st Q E.
Proof.
  induction ds as [|d ds IH]; intros n s t ttl x digits dirty st Q E Hds Hc Hw.
  { change (zlen (@nil Z)) with 0 in Hw. rewrite !Z.add_0_r in Hw. by apply Hw. }
  inversion Hds as [|? ? Hd Hds']; subst. destruct (cstr_cons_l _ _ _ _ Hc) as (Hd0 & Hr & Hc').
  cbn [length Nat.add]. apply wp_loop_S. unfold parse_step at 1. wp_step. apply (wp_rd _ _ _ _ _ d Hr).
  rewrite (proj2 (Z.eqb_neq d 0)) by done.
  assert (Hdr : 48 <= d <= 57) by (unfold isdigit in Hd; lia).
  wp_step. wp_step; [unfold isascii, isprint in *; lia|]. rewrite Hd. wp_step.
  rewrite u64_u64_mul, u64_u64_add. apply (IH n (s + 1) t); [done|done|]. rewrite zlen_cons in Hw.
  replace (s + 1 + zlen ds) with (s + (zlen ds + 1)) by lia.
  replace (digits + 1 + zlen ds) with (digits + (zlen ds + 1)) by lia. exact Hw.
Qed.

(** A unit, in upper or in lower case. *)
Lemma wp_parse_unit n s u c t ttl x digits dirty (st : S) Q E :
  is_unit u -> c = u \/ c = tolower u -> 0 < digits -> cstr src s (c :: t) ->
  (cstr src (s + 1) t -> wp (loop n (parse_step src) (Ttl (s + 1) (u64 (ttl + seconds u * x)) 0 0 true)) st Q E) ->
  wp (loop (Datatypes.S n) (parse_step src) (Ttl s (u64 ttl) (u64 x) digits dirty)) st Q E.
Proof.
  intros Hu Hcu Hdg Hc Hw. destruct (cstr_cons_l _ _ _ _ Hc) as (Hd0 & Hr & Hc'). specialize (Hw Hc').
  assert (Hcr : u ∈ [87; 68; 72; 77; 83]) by done. rewrite !elem_of_cons in Hcr.
  apply wp_loop_S. unfold parse_step at 1. wp_step. apply (wp_rd _ _ _ _ _ c Hr).
  rewrite (proj2 (Z.eqb_neq c 0)) by done.
  assert (Hp : isascii c = true /\ isprint c = true /\ isdigit c = false /\
    (if islower c then toupper c else c) = u).
  { destruct_or! Hcr; try (by apply not_elem_of_nil in Hcr); subst u; destruct Hcu as [-> | ->]; by vm_compute. }
  destruct Hp as (Ha & Hpr & Hd & Hup). wp_step. wp_step; [by rewrite Ha, Hpr in *|]. rewrite Hd.
  wp_step. wp_step; [lia|]. rewrite Hup, scale_seconds by done. wp_step.
  by rewrite u64_u64_add, u64_u64_add_r.
Qed.

Definition total (ps : list (Z * Z)) : Z := foldr (fun p x => seconds p.2 * p.1 + x) 0 ps.

(** The texts of parts, with the case [f] of the units. *)
Definition parts_text (f : Z -> Z) (ps : list (Z * Z)) : list Z := mjoin ((fun p => fmt_d p.1 ++ [f p.2]) <$> ps).

Definition good_part (p : Z * Z) : Prop := 0 <= p.1 < 10 ^ 10 /\ is_unit p.2.

Lemma fmt_d_spec v : 0 <= v < 10 ^ 10 ->
  foldl acc10 0 (fmt_d v) = v /\ Forall (fun c => isdigit c = true) (fmt_d v) /\ 0 < zlen (fmt_d v).
Proof.
  intros Hv. unfold fmt_d. split_and!.
  - pose proof (dec_digits_value 10 v [] Hv ltac:(lia)) as H. exact H.
  - apply dec_digits_digits; [lia|done].
  - destruct (dec_digits 10 v []) eqn:E; [by apply dec_digits_nonempty in E; [|lia]|]. rewrite zlen_cons.
    pose proof (zlen_nonneg l). lia.
Qed.

Lemma wp_parse_parts f ps : (forall u, f u = u) \/ (forall u, f u = tolower u) -> Forall good_part ps ->
  forall n s ttl dirty (st : S), cstr src s (parts_text f ps) -> (length (parts_text f ps) < n)%nat ->
  wp (loop n (parse_step src) (Ttl s (u64 ttl) 0 0 dirty)) st
     (fun r st' => st' = st /\ t_ttl r = u64 (ttl + total ps) /\ t_digits r = 0 /\
                   t_dirty r = (if decide (ps = []) then dirty else true)) (fun _ _ => False).
Proof.
  intros Hf Hps. induction Hps as [|[v u] ps [Hv Hu] Hps IH]; intros n s ttl dirty st Hc Hn.
  - destruct n as [|n]; [cbn in Hn; lia|]. apply wp_loop_S. unfold parse_step. wp_step.
    apply (wp_rd _ _ _ _ _ 0); [pose proof (cstr_nul _ _ _ Hc) as Hz; by rewrite Z.add_0_r in Hz|]. wp_step.
    cbn. by rewrite Z.add_0_r.
  - cbn [fst snd] in *. change (parts_text f ((v, u) :: ps)) with ((fmt_d v ++ [f u]) ++ parts_text f ps) in *.
    rewrite <- app_assoc in Hc. cbn [app] in Hc. destruct (fmt_d_spec v Hv) as (Hval & Hdig & Hpos).
    rewrite !length_app in Hn. cbn [length] in Hn.
    replace n with (length (fmt_d v) + Datatypes.S (n - length (fmt_d v) - 1))%nat by lia.
    change 0 with (u64 0) at 1. eapply wp_parse_digits; [exact Hdig|exact Hc|]. rewrite Hval. intros Hc1.
    eapply (wp_parse_unit _ _ u (f u)); [exact Hu|by destruct Hf as [-> | ->]; auto|lia|exact Hc1|]. intros Hc2.
    eapply wp_conseq; [apply IH; [exact Hc2|lia]|]. cbn beta. intros r st' (-> & -> & -> & ->).
    change (total ((v, u) :: ps)) with (seconds u * v + total ps). split_and!; try done; [f_equal; lia|].
    by case_decide.
Qed.
End parse.

(** ** Formatting *)

Lemma parts_text_app f ps qs : parts_text f (ps ++ qs) = parts_text f ps ++ parts_text f qs.
Proof. unfold parts_text. by rewrite fmap_app, join_app. Qed.

Lemma fmt_int_nonneg t : 0 <= t -> fmt_int t = fmt_d t.
Proof. intros. unfold fmt_int. by rewrite (proj2 (Z.ltb_ge t 0)). Qed.

Section format.
Context (dst : list Z) (size : Z) (Hsize : 0 <= size <= zlen dst).

Abbreviation T := (parts_text id).

(** The parts [ps] have been written, with the terminator behind them. *)
Definition written (ps : list (Z * Z)) (s : list Z) : Prop :=
  filled dst size (T ps) s /\ (ps <> [] -> filled dst size (T ps ++ [0]) s).

(** Some of the parts have been written, nothing at or behind [size]. *)
Definition untouched (s : list Z) : Prop := zlen s = zlen dst /\ zdrop size s = zdrop size dst.

Lemma wp_unit_part b t c ps s :
  0 <= t -> written ps s ->
  wp (unit_part b t c (zlen (T ps), size - zlen (T ps), zlen ps)) s
     (fun l s' => let ps' := ps ++ (if b then [(t, c)] else []) in
        l = (zlen (T ps'), size - zlen (T ps'), zlen ps') /\ written ps' s')
     (fun e s' => e = 0 /\ untouched s' /\ b = true /\ size <= zlen (T (ps ++ [(t, c)]))).
Proof.
  intros Ht [Hf Hz]. unfold unit_part. pose proof (filled_len dst size _ _ Hf) as [Hfl Hfz].
  pose proof (zlen_nonneg (T ps)). cbv zeta. destruct b; [|wp_step; by rewrite app_nil_r].
  assert (HT : T (ps ++ [(t, c)]) = T ps ++ fmt_d t ++ [c]) by (rewrite parts_text_app; unfold parts_text; f_equal; apply app_nil_r).
  unfold fmt1. rewrite fmt_int_nonneg by done. set (tmp := fmt_d t ++ [c]) in *. pose proof (zlen_nonneg tmp).
  assert (Htz : zlen (tmp ++ [0]) = zlen tmp + 1) by (rewrite zlen_app; by zlen_simpl).
  wp_step. destruct (Z.ltb_spec (size - zlen (T ps)) (zlen tmp + 1)).
  { wp_step. destruct Hf as (? & ? & _). split_and!; try done. rewrite HT, zlen_app. lia. }
  wp_step. apply wp_memcpy; try lia. wp_step. wp_step. rewrite zdrop_0, <- Htz, ztake_all, HT.
  assert (Hf' : filled dst size (T ps ++ tmp ++ [0]) (splice s (zlen (T ps)) (tmp ++ [0]))) by (apply filled_splice; (done || lia)).
  split.
  - rewrite !zlen_app. zlen_simpl. by rewrite Z.sub_add_distr.
  - unfold written. rewrite HT, app_assoc in *. split; [|done]. by eapply filled_app_inv.
Qed.

Lemma wp_lower w s :
  Forall (fun c => c <> 0) w -> filled dst size (w ++ [0]) s ->
  wp (b ← getS; loop (Datatypes.S (length b)) lower_step 0) s
     (fun _ s' => filled dst size ((tolower <$> w) ++ [0]) s') (fun _ _ => False).
Proof.
  intros Hw Hf. wp_step. wp_step. destruct (filled_len _ _ _ _ Hf) as [Hl Hz]. rewrite zlen_app in Hl. zlen_simpl.
  pose proof (zlen_nonneg w).
  apply (wp_loop (fun p s' => exists u v, w = u ++ v /\ p = zlen u /\ filled dst size ((tolower <$> u) ++ v ++ [0]) s')
    (fun p _ => Z.to_nat (zlen w - p))).
  { by exists [], w. }
  { unfold zlen in *. lia. }
  intros p s' (u & v & -> & -> & Hf'). unfold lower_step.
  assert (Hlu : zlen (tolower <$> u) = zlen u) by (unfold zlen; by rewrite length_fmap).
  assert (Hrd : znth s' (zlen u) = znth ((tolower <$> u) ++ v ++ [0]) (zlen u)).
  { destruct Hf' as (Hf1 & _ & Hle & Ht). rewrite <- Ht. symmetry. apply znth_ztake. rewrite !zlen_app. zlen_simpl.
    pose proof (zlen_nonneg v). lia. }
  destruct v as [|c v].
  - wp_step. apply (wp_run _ (rd s' (zlen u)) s' s'); [done|]. apply (wp_rd _ _ _ _ _ 0); [rewrite Hrd, <- Hlu; apply znth_middle|].
    wp_step. by rewrite app_nil_r.
  - wp_step. apply (wp_run _ (rd s' (zlen u)) s' s'); [done|]. apply (wp_rd _ _ _ _ _ c); [rewrite Hrd, <- Hlu; apply znth_middle|].
    apply Forall_app in Hw as [_ Hw]. inversion Hw as [|? ? Hc0 _]; subst. rewrite (proj2 (Z.eqb_neq c 0)) by done.
    assert (Hnext : forall s2, filled dst size ((tolower <$> u) ++ tolower c :: v ++ [0]) s2 ->
      (exists u' v', u ++ c :: v = u' ++ v' /\ zlen u + 1 = zlen u' /\ filled dst size ((tolower <$> u') ++ v' ++ [0]) s2) /\
      (Z.to_nat (zlen (u ++ c :: v) - (zlen u + 1)) < Z.to_nat (zlen (u ++ c :: v) - zlen u))%nat).
    { intros s2 Hs2. rewrite !zlen_app, zlen_cons. pose proof (zlen_nonneg v). split; [|lia]. exists (u ++ [c]), v.
      rewrite <- app_assoc, fmap_app, <- app_assoc, zlen_app. by zlen_simpl. }
    wp_step. destruct (isupper c) eqn:Hup.
    + replace (isascii c) with true by (unfold isascii, isupper in *; lia). cbn [andb].
      wp_step; [rewrite zlen_app, zlen_cons in *; pose proof (zlen_nonneg u); pose proof (zlen_nonneg v); pose proof (filled_len _ _ _ _ Hf') as [_ ->]; lia|].
      wp_step. apply Hnext. rewrite <- Hlu. by eapply filled_upd.
    + rewrite andb_false_r. wp_step. wp_step. apply Hnext. unfold tolower at 2. by rewrite Hup.
Qed.
End format.

(** ** The property *)

Lemma parts_good ttl : 0 <= ttl -> ttl / 604800 < 2 ^ 31 -> Forall good_part (parts ttl).
Proof.
  intros H0 Hw. assert (Hu : forall u, u ∈ [87; 68; 72; 77; 83] -> is_unit u) by done.
  assert (Hall : Forall good_part
    [(ttl / 604800, 87); (ttl / 86400 mod 7, 68); (ttl / 3600 mod 24, 72); (ttl / 60 mod 60, 77); (ttl mod 60, 83)]).
  { change (2 ^ 31) with 2147483648 in Hw. unfold good_part. change (10 ^ 10) with 10000000000.
    repeat apply Forall_cons_2; try apply Forall_nil_2; cbn [fst snd]; (split; [|apply Hu; set_solver]);
      clear Hu; Z.div_mod_to_equations; lia. }
  unfold parts. case_decide as Hn.
  - apply Forall_cons_2; [|constructor]. split; [cbn; lia|apply Hu; set_solver].
  - rewrite List.Forall_forall in *. intros p Hp. apply Hall. apply List.filter_In in Hp. tauto.
Qed.

Lemma total_filter l :
  total (List.filter (fun '(n, _) => negb (n =? 0)) l) = total l.
Proof.
  induction l as [|[n u] l IH]; [done|]. cbn [List.filter]. destruct (Z.eqb_spec n 0) as [->|]; cbn [negb].
  - change (total ((0, u) :: l)) with (seconds u * 0 + total l). lia.
  - change (seconds u * n + total (List.filter (fun '(n, _) => negb (n =? 0)) l) = seconds u * n + total l). lia.
Qed.

Lemma parts_total ttl : 0 <= ttl -> total (parts ttl) = ttl.
Proof.
  intros H0. assert (Ht : total (List.filter (fun '(n, _) => negb (n =? 0))
    [(ttl / 604800, 87); (ttl / 86400 mod 7, 68); (ttl / 3600 mod 24, 72); (ttl / 60 mod 60, 77); (ttl mod 60, 83)]) = ttl).
  { rewrite total_filter. cbn. change 604800 with (86400 * 7) at 2. change 86400 with (3600 * 24). change 3600 with (60 * 60).
    rewrite <- !Z.div_div by done. Z.div_mod_to_equations. lia. }
  unfold parts. case_decide as Hn; [|exact Ht]. rewrite Hn in Ht. cbn in *. lia.
Qed.

Lemma parts_text_nonzero ps : Forall good_part ps -> Forall (fun c => c <> 0) (parts_text id ps).
Proof.
  induction 1 as [|[v u] ps [Hv Hu] _ IH]; [done|].
  change (parts_text id ((v, u) :: ps)) with ((fmt_d v ++ [u]) ++ parts_text id ps).
  apply Forall_app. split; [|done]. apply Forall_app. split.
  - destruct (fmt_d_spec v Hv) as (_ & Hd & _). eapply Forall_impl; [exact Hd|]. intros c Hc ->. done.
  - constructor; [|constructor]. cbn in Hu. intros ->. revert Hu. by apply (bool_decide_eq_false_1 (is_unit 0)).
Qed.

Lemma tolower_parts ps : Forall good_part ps -> tolower <$> parts_text id ps = parts_text tolower ps.
Proof.
  induction 1 as [|[v u] ps [Hv Hu] _ IH]; [done|].
  change (parts_text id ((v, u) :: ps)) with ((fmt_d v ++ [u]) ++ parts_text id ps).
  change (parts_text tolower ((v, u) :: ps)) with ((fmt_d v ++ [tolower u]) ++ parts_text tolower ps).
  rewrite !fmap_app, IH. f_equal. f_equal. destruct (fmt_d_spec v Hv) as (_ & Hd & _).
  induction Hd as [|c l Hc _ IHl]; [done|]. cbn. rewrite IHl. f_equal. unfold tolower, isupper, isdigit in *.
  by case_match; [lia|].
Qed.

Lemma ttl_text_parts ttl : Forall good_part (parts ttl) ->
  ttl_text ttl = parts_text (if 1 <? zlen (parts ttl) then tolower else id) (parts ttl).
Proof. intros Hg. unfold ttl_text. case_match; [by rewrite <- tolower_parts|done]. Qed.

Definition part_if (b : bool) (t c : Z) : list (Z * Z) := if b then [(t, c)] else [].

Lemma parts_eq w d h m s :
  let some := negb (w =? 0) || negb (d =? 0) || negb (h =? 0) || negb (m =? 0) in
  let l := List.filter (fun '(n, _) => negb (n =? 0)) [(w, 87); (d, 68); (h, 72); (m, 77); (s, 83)] in
  (if decide (l = []) then [(0, 83)] else l) =
    part_if (negb (w =? 0)) w 87 ++ part_if (negb (d =? 0)) d 68 ++ part_if (negb (h =? 0)) h 72 ++
    part_if (negb (m =? 0)) m 77 ++ part_if (negb (s =? 0) || negb some) s 83.
Proof.
  cbn [List.filter]. unfold part_if.
  destruct (Z.eqb_spec s 0) as [->|]; destruct (w =? 0), (d =? 0), (h =? 0), (m =? 0); done.
Qed.

Lemma zlen_parts_prefix f ps qs : zlen (parts_text f ps) <= zlen (parts_text f (ps ++ qs)).
Proof. rewrite parts_text_app, zlen_app. pose proof (zlen_nonneg (parts_text f qs)). lia. Qed.

(** The five parts, from left to right. *)
Lemma wp_all_parts (dst : list Z) size (b1 b2 b3 b4 b5 : bool) w d h m s :
  0 <= size <= zlen dst -> 0 <= w -> 0 <= d -> 0 <= h -> 0 <= m -> 0 <= s ->
  let ps := part_if b1 w 87 ++ part_if b2 d 68 ++ part_if b3 h 72 ++ part_if b4 m 77 ++ part_if b5 s 83 in
  wp (l ← unit_part b1 w 87 (0, size, 0); l ← unit_part b2 d 68 l; l ← unit_part b3 h 72 l;
      l ← unit_part b4 m 77 l; unit_part b5 s 83 l) dst
     (fun l s' => l = (zlen (parts_text id ps), size - zlen (parts_text id ps), zlen ps) /\ written dst size ps s')
     (fun e s' => e = 0 /\ untouched dst size s' /\ size <= zlen (parts_text id ps)).
Proof.
  intros Hs Hw Hd Hh Hm Hs0 ps.
  assert (Herr : forall q b t c r e s', q ++ part_if b t c ++ r = ps ->
    (e = 0 /\ untouched dst size s' /\ b = true /\ size <= zlen (parts_text id (q ++ [(t, c)]))) ->
    e = 0 /\ untouched dst size s' /\ size <= zlen (parts_text id ps)).
  { intros q b t c r e s' <- (-> & Hu & -> & Hz). split_and!; [done|done|]. etrans; [exact Hz|].
    rewrite app_assoc. apply zlen_parts_prefix. }
  assert (H0 : written dst size [] dst) by (split; [by apply filled_nil; lia|done]).
  wp_step. change (0, size, 0) with (zlen (parts_text id []), 0 + size, zlen (@nil (Z * Z))).
  replace (0 + size) with (size - zlen (parts_text id [])) by (change (zlen (parts_text id [])) with 0; lia).
  eapply wp_mono; [by apply wp_unit_part| |intros e s'; apply (Herr [] b1 w 87 _ e s' eq_refl)]. intros l s1 [-> H1].
  wp_step. eapply wp_mono; [by apply wp_unit_part| |intros e s'; apply (Herr _ b2 d 68 (part_if b3 h 72 ++ part_if b4 m 77 ++ part_if b5 s 83)); by unfold ps; rewrite <- ?app_assoc].
  intros l s2 [-> H2].
  wp_step. eapply wp_mono; [by apply wp_unit_part| |intros e s'; apply (Herr _ b3 h 72 (part_if b4 m 77 ++ part_if b5 s 83)); by unfold ps; rewrite <- ?app_assoc].
  intros l s3 [-> H3].
  wp_step. eapply wp_mono; [by apply wp_unit_part| |intros e s'; apply (Herr _ b4 m 77 (part_if b5 s 83)); by unfold ps; rewrite <- ?app_assoc].
  intros l s4 [-> H4].
  eapply wp_mono; [by apply wp_unit_part| |intros e s'; apply (Herr _ b5 s 83 []); by unfold ps; rewrite <- ?app_assoc, ?app_nil_r].
  intros l s5 [-> H5]. cbv zeta in H5.
  match type of H5 with written _ _ ?p _ => replace p with ps in * by (unfold ps; by rewrite <- ?app_assoc) end. done.
Qed.

Lemma ns_format_ttl_split src : 0 <= src -> src / 604800 < 2 ^ 31 ->
  s32 (src / 60 / 60 / 24 / 7) = src / 604800 /\ src / 60 / 60 / 24 mod 7 = src / 86400 mod 7 /\
  src / 60 / 60 mod 24 = src / 3600 mod 24.
Proof.
  intros H0 Hw. rewrite !Z.div_div by done. cbn [Z.mul Pos.mul Pos.add Pos.succ]. split_and!; [|done|done].
  apply s32_id. change (60 * 60 * 24 * 7) with 604800. pose proof (Z.div_pos src 604800 H0 ltac:(lia)). lia.
Qed.

(** [ns_format_ttl] writes the time to live as weeks, days, hours, minutes
    and seconds, the units that are zero left out, in lower case when there is
    more than one, with a terminator, exactly when that fits; otherwise it fails
    and has written nothing at or behind the size it was given. [ns_parse_ttl]
    of the text gives the number back, for every number whose weeks fit an
    [int]. *)
Theorem ns_ttl_roundtrip (dst : list Z) (src size : Z) :
  0 <= src -> src / 604800 < 2 ^ 31 -> 0 <= size <= zlen dst ->
  wp (ns_format_ttl src size) dst
     (fun n s => n = zlen (ttl_text src) /\ n < size /\ ztake (n + 1) s = ttl_text src ++ [0] /\
        untouched dst size s /\ wp (ns_parse_ttl s 0) tt (fun v _ => v = src) (fun _ _ => False))
     (fun e s => e = 0 /\ size <= zlen (ttl_text src) /\ untouched dst size s).
Proof.
  intros H0 Hw Hs. pose proof (parts_good src H0 Hw) as Hg. pose proof (ttl_text_parts src Hg) as Htext.
  assert (Htl : zlen (ttl_text src) = zlen (parts_text id (parts src))).
  { rewrite Htext. case_match; [|done]. rewrite <- tolower_parts by done. unfold zlen. by rewrite length_fmap. }
  unfold ns_format_ttl. cbv zeta. destruct (ns_format_ttl_split src H0 Hw) as (-> & -> & ->).
  wp_step. unfold format_parts. cbv zeta.
  eapply wp_mono; [apply wp_all_parts; [done| | | | |]; Z.div_mod_to_equations; lia| |].
  2: { intros e s (-> & Hu & Hz). rewrite <- parts_eq in Hz. rewrite Htl. by split_and!. }
  cbv zeta. rewrite <- parts_eq. change (if decide _ then _ else _) with (parts src).
  set (ps := parts src) in *. intros l s [-> [Hf Hz]]. cbn beta iota.
  assert (Hne : ps <> []) by (unfold ps, parts; by case_decide).
  specialize (Hz Hne). clear Hf.
  wp_step. apply (wp_conseq _ _ (fun _ s' => filled dst size (ttl_text src ++ [0]) s')).
  { rewrite Htext. destruct (1 <? zlen ps); [|by wp_step]. rewrite <- tolower_parts by done.
    apply (wp_mono _ _ _ _ (fun _ _ => False) _ (wp_lower dst size Hs _ s (parts_text_nonzero ps Hg) Hz)); [done|done]. }
  intros [] s' Hf. wp_step. rewrite <- Htl. pose proof Hf as (Hl & Hd & Hle & Ht). rewrite zlen_app in *. zlen_simpl.
  split_and!; [done|lia|done|done|].
  assert (Hc : cstr s' 0 (ttl_text src)).
  { rewrite <- (ztake_zdrop (zlen (ttl_text src) + 1) s'), Ht, <- app_assoc. apply cstr_intro. rewrite Htext.
    case_match; [|by apply parts_text_nonzero]. rewrite <- tolower_parts by done. apply Forall_fmap.
    eapply Forall_impl; [by apply parts_text_nonzero|]. intros c Hc. cbn. unfold tolower, isupper. case_match; [lia|done]. }
  unfold ns_parse_ttl. wp_step. rewrite Htext in Hc. pose proof (cstr_len _ _ _ Hc) as Hcl.
  set (f := if 1 <? zlen ps then tolower else id) in *.
  assert (Hcase : (forall u, f u = u) \/ (forall u, f u = tolower u)) by (unfold f; case_match; auto).
  eapply wp_conseq; [apply (wp_parse_parts s' f ps Hcase Hg _ 0 0 false tt Hc)|].
  - unfold zlen in *. lia.
  - intros [sp ttl tmp dg dirty] [] (_ & Httl & Hdg & Hdirty). cbn in Httl, Hdg, Hdirty. subst ttl dg dirty.
    rewrite decide_False by done. cbn. wp_step. wp_step. wp_step. unfold ps. rewrite Z.add_0_l, parts_total by done.
    unfold u64. apply Z.mod_small. Z.div_mod_to_equations. lia.
Qed.

(** 694861 seconds are 1w1d1h1m1s; 7 seconds keep the capital. *)
Lemma ns_ttl_roundtrip_witness :
  let r := ns_format_ttl 694861 20 (replicate 20 9) in
  wp (ns_parse_ttl (snd r) 0) tt (fun v _ => v = 694861) (fun _ _ => False) /\
  r = (Ret 10, [49; 119; 49; 100; 49; 104; 49; 109; 49; 115; 0; 9; 9; 9; 9; 9; 9; 9; 9; 9]) /\
  ns_format_ttl 7 3 [9; 9; 9] = (Ret 2, [55; 83; 0]) /\ fst (ns_format_ttl 694861 10 (replicate 20 9)) = Err 0.
Proof.
  pose proof (ns_ttl_roundtrip (replicate 20 9) 694861 20 ltac:(lia) ltac:(by vm_compute) ltac:(by vm_compute)) as H.
  apply wp_eq in H as [(n & s & Hr & _ & _ & _ & _ & H)|(e & s & Hr & _)]; [|by vm_compute in Hr].
  split_and!; [by rewrite Hr|by vm_compute..].
Defined.
