(* ===== verification/NsSamedomain.v ===== *)
(** * Comparing domain names: [bionic/libc/dns/nameser/ns_samedomain.c]

    Names are arrays that end in a NUL, read with checked accesses. The buffer
    that [ns_makecanon] fills is the state; the arrays [ta] and [tb] of
    [ns_samename] are run with [on_local], from arbitrary bytes. A result that
    is an [int] used as a truth value stays an integer. *)
From S2P Require Import Prelude CString NsName.

(** ** The code *)

(** [for (i = ...; i > 0; i--) if (a[i - 1] == '\\') ... else break;] *)
Definition escaped_step {S} (a : list Z) '((i, escaped) : Z * bool) : M S (step (Z * bool) bool) :=
  if negb (0 <? i) then mret (Done escaped) else
  c ← rd a (i - 1);
  if c =? 92 then mret (Next (i - 1, if escaped then false else true)) else mret (Done escaped).

(** Whether the character at [i] is escaped. *)
Definition escaped_at {S} (a : list Z) (i : Z) : M S bool :=
  loop (Datatypes.S (length a)) (escaped_step a) (i, false).

(** Ignore a trailing label separator. *)
Definition trim_dot {S} (a : list Z) (la : Z) : M S Z :=
  if la =? 0 then mret la else
  c ← rd a (la - 1);
  if c =? 46 then
    escaped ← escaped_at a (la - 1);
    mret (if escaped : bool then la else la - 1)
  else mret la.

Definition of_bool (b : bool) : Z := if b then 1 else 0.

Definition ns_samedomain {S} (a b : list Z) : M S Z :=
  la ← strlen a;
  lb ← strlen b;
  la ← trim_dot a la;
  lb ← trim_dot b lb;
  if lb =? 0 then mret 1
  else if la <? lb then mret 0
  else if lb =? la then r ← strncasecmp a b 0 0 lb; mret (of_bool (r =? 0))
  else
    let diff := la - lb in
    if diff <? 2 then mret 0 else
    c ← rd a (diff - 1);
    if negb (c =? 46) then mret 0 else
    escaped ← escaped_at a (diff - 1);
    if escaped : bool then mret 0
    else r ← strncasecmp a b diff 0 lb; mret (of_bool (r =? 0)).

(** [n >= 2U && dst[n - 2] == '\\' && (n < 3U || dst[n - 3] != '\\')] *)
Definition ends_escaped (n : Z) : M (list Z) bool :=
  if negb (2 <=? n) then mret false else
  c2 ← rdS (n - 2);
  if negb (c2 =? 92) then mret false
  else if n <? 3 then mret true
  else c3 ← rdS (n - 3); mret (negb (c3 =? 92)).

Definition canon_step (n : Z) : M (list Z) (step Z Z) :=
  if negb (1 <=? n) then mret (Done n) else
  c ← rdS (n - 1);
  if negb (c =? 46) then mret (Done n) else
  stop ← ends_escaped n;
  if stop : bool then mret (Done n) else wr (n - 1) 0;; mret (Next (n - 1)).

Definition ns_makecanon (src : list Z) (dstsize : Z) : M (list Z) unit :=
  n ← strlen src;
  fail_if (dstsize <? n + 2) EMSGSIZE;;
  memcpy src 0 0 (n + 1);;
  n ← loop (Z.to_nat n + 1) canon_step n;
  wr n 46;;
  wr (n + 1) 0.

(** The result is 1 or 0; the error stands for -1. *)
Definition ns_samename {S} (ta0 tb0 a b : list Z) : M S Z :=
  '(_, ta) ← on_local ta0 (ns_makecanon a NS_MAXDNAME);
  '(_, tb) ← on_local tb0 (ns_makecanon b NS_MAXDNAME);
  r ← strcasecmp ta tb 0 0;
  mret (if r =? 0 then 1 else 0).

Definition ns_subdomain {S} (ta0 tb0 a b : list Z) : M S Z :=
  r ← try (ns_samename ta0 tb0 a b);
  match r with
  | inl 1 => mret 0
  | _ => r ← ns_samedomain a b; mret (of_bool (negb (r =? 0)))
  end.

(** ** Names and their separators *)

(** Whether a character behind the text is escaped, reading from the left. *)
Definition esc_after (x : list Z) : bool := foldl (fun e c => negb e && (c =? 92)) false x.

(** The text without one separator at its end. *)
Definition strip_dot (t : list Z) : list Z :=
  let u := ztake (zlen t - 1) t in
  if bool_decide (znth t (zlen t - 1) = Some 46) && negb (esc_after u) then u else t.

Definition same (a b : list Z) : Prop := map lower a = map lower b.

(** [a] is [b] or ends in a separator and [b], without regard to case. *)
Definition at_or_below (a b : list Z) : Prop :=
  b = [] \/ same a b \/ exists x y, a = x ++ 46 :: y /\ x <> [] /\ esc_after x = false /\ same y b.

Lemma esc_after_snoc x c : esc_after (x ++ [c]) = negb (esc_after x) && (c =? 92).
Proof. unfold esc_after. by rewrite foldl_app. Qed.

Lemma cstr_znth mem t i : cstr mem 0 t -> 0 <= i < zlen t -> znth mem i = znth t i.
Proof. intros Hc Hi. destruct (cstr_at _ _ _ i Hc Hi) as (c & -> & _ & H). exact H. Qed.

Lemma wp_escaped_at {S} a t i (st : S) Q E :
  cstr a 0 t -> 0 <= i <= zlen t -> Q (esc_after (ztake i t)) st -> wp (escaped_at a i) st Q E.
Proof.
  intros Hc Hi HQ. pose proof (cstr_len _ _ _ Hc). unfold escaped_at.
  apply (wp_loop (fun '(j, e) st' => st' = st /\ 0 <= j <= zlen t /\ xorb e (esc_after (ztake j t)) = esc_after (ztake i t))
    (fun '(j, _) _ => Z.to_nat j)).
  - split_and!; [done|lia|lia|]. by destruct (esc_after _).
  - unfold zlen in *. lia.
  - intros [j e] st' (-> & Hj & Hx). unfold escaped_step. destruct (Z.ltb_spec 0 j); cbn [negb].
    2: { wp_step. replace j with 0 in Hx by lia. cbn in Hx. rewrite xorb_false_r in Hx. by rewrite Hx. }
    destruct (znth_lt t (j - 1)) as [c Hr]; [lia|].
    assert (Ht : ztake j t = ztake (j - 1) t ++ [c]) by (rewrite <- (ztake_snoc _ _ _ Hr); f_equal; lia).
    rewrite Ht, esc_after_snoc in Hx. wp_step. apply (wp_rd _ _ _ _ _ c); [by rewrite (cstr_znth a t) by (done || lia)|].
    destruct (c =? 92); wp_step.
    + split; [|lia]. split_and!; [done|lia|lia|]. rewrite <- Hx. by destruct e, (esc_after (ztake (j - 1) t)).
    + rewrite andb_false_r, xorb_false_r in Hx. by rewrite Hx.
Qed.

Lemma wp_trim_dot {S} a t (st : S) E :
  cstr a 0 t ->
  wp (trim_dot a (zlen t)) st
     (fun la st' => st' = st /\ strip_dot t = ztake la t /\ 0 <= la <= zlen t /\ la = zlen (strip_dot t)) E.
Proof.
  intros Hc. pose proof (zlen_nonneg t). unfold trim_dot, strip_dot. cbv zeta. destruct (Z.eqb_spec (zlen t) 0) as [Hz|Hz].
  { destruct t as [|x t]; [by wp_step|]. rewrite zlen_cons in Hz. pose proof (zlen_nonneg t). lia. }
  destruct (znth_lt t (zlen t - 1)) as [c Hr]; [lia|]. rewrite Hr.
  wp_step. apply (wp_rd _ _ _ _ _ c); [by rewrite (cstr_znth a t) by (done || lia)|].
  destruct (Z.eqb_spec c 46) as [->|Hne].
  - wp_step. apply (wp_escaped_at a t); [done|lia|]. wp_step. rewrite bool_decide_eq_true_2 by done. cbn [andb].
    destruct (esc_after _); cbn [negb].
    + rewrite ztake_all. done.
    + rewrite zlen_ztake by lia. split_and!; (done || lia).
  - wp_step. rewrite bool_decide_eq_false_2 by congruence. cbn. rewrite ztake_all. done.
Qed.

(** The characters of [strncasecmp] in a string. *)
Lemma wp_strncasecmp_cstr {S} a b ta u v o n (st : S) (Q : Z -> S -> Prop) E :
  bytes a -> bytes b -> cstr a 0 (ta ++ u) -> zlen ta = o -> n <= zlen u -> 0 <= n -> cstr b 0 v -> n <= zlen v ->
  (forall r, r = 0 <-> same (ztake n u) (ztake n v) -> Q r st) ->
  wp (strncasecmp a b o 0 n) st Q E.
Proof.
  intros Ha Hb Hca Hta Hnu Hn Hcb Hnv HQ. pose proof (zlen_nonneg ta).
  eapply wp_conseq; [apply (wp_strncasecmp a b o 0 (ztake n u) (ztake n v) n); try done; [rewrite zlen_ztake; lia..| |]|].
  - intros i Hi. rewrite !znth_ztake by lia. rewrite (cstr_znth a (ta ++ u)), (cstr_znth b v) by (rewrite ?zlen_app; done || lia).
    rewrite znth_app_r by lia. split; [f_equal; lia|done].
  - apply Forall_take. apply Forall_forall. intros c Hc. apply list_elem_of_lookup_1 in Hc as [i Hi].
    destruct (cstr_at _ _ _ (o + Z.of_nat i) Hca) as (c' & Hc' & Hne & _).
    { apply lookup_lt_Some in Hi. rewrite zlen_app. unfold zlen in *. lia. }
    rewrite znth_app_r in Hc' by lia. unfold znth in Hc'. rewrite (proj2 (Z.ltb_ge _ _)) in Hc' by lia.
    replace (Z.to_nat (o + Z.of_nat i - zlen ta)) with i in Hc' by lia. congruence.
  - intros r st' [Hr ->]. by apply HQ.
Qed.

Lemma same_len a b : same a b -> zlen a = zlen b.
Proof. unfold same, zlen. intros H%(f_equal length). rewrite !length_map in H. lia. Qed.

(** Where the separator and the ancestor have to be. *)
Lemma at_or_below_below a b :
  zlen b < zlen a -> b <> [] ->
  at_or_below a b <->
    2 <= zlen a - zlen b /\ znth a (zlen a - zlen b - 1) = Some 46 /\
    esc_after (ztake (zlen a - zlen b - 1) a) = false /\ same (zdrop (zlen a - zlen b) a) b.
Proof.
  intros Hl Hb. pose proof (zlen_nonneg b). split.
  - intros [?|[Hs%same_len|(x & y & -> & Hx & He & Hs)]]; [done|lia|]. pose proof (same_len _ _ Hs) as Hly.
    rewrite zlen_app, zlen_cons in *. assert (0 < zlen x) by (destruct x; [done|rewrite zlen_cons; pose proof (zlen_nonneg x); lia]).
    replace (zlen x + (zlen y + 1) - zlen b) with (zlen x + 1) by lia. rewrite Z.add_simpl_r.
    split_and!; [lia|apply znth_middle|by rewrite ztake_app|].
    replace (x ++ 46 :: y) with ((x ++ [46]) ++ y) by (by rewrite <- app_assoc).
    rewrite zdrop_app_alt; [done|]. rewrite zlen_app. by zlen_simpl.
  - intros (H2 & Hd & He & Hs). right. right. exists (ztake (zlen a - zlen b - 1) a), (zdrop (zlen a - zlen b) a).
    split_and!; [|intros E; apply (f_equal zlen) in E; rewrite zlen_ztake in E by lia; change (zlen (@nil Z)) with 0 in E; lia|done|done].
    rewrite <- (ztake_zdrop (zlen a - zlen b - 1) a) at 1. f_equal. rewrite (zdrop_cons _ _ _ Hd). do 2 f_equal. lia.
Qed.

(** C33: [ns_samedomain] of two names, whatever their escapes: it terminates,
    reads nothing behind the terminators, and tells whether the first name, a
    separator at its end aside, is the second one or ends in an unescaped
    separator, with something before it, and the second one. Case does not
    matter, and every name is below the root. *)
Theorem ns_samedomain_correct {S} (a b ta tb : list Z) (st : S) :
  bytes a -> bytes b -> cstr a 0 ta -> cstr b 0 tb ->
  wp (ns_samedomain a b) st
     (fun r st' => st' = st /\ (r = 0 \/ r = 1) /\ (r = 1 <-> at_or_below (strip_dot ta) (strip_dot tb)))
     (fun _ _ => False).
Proof.
  intros Ha Hb Hca Hcb. unfold ns_samedomain.
  wp_step. eapply wp_conseq; [by apply (wp_strlen a ta)|]. intros ? ? [-> ->].
  wp_step. eapply wp_conseq; [by apply (wp_strlen b tb)|]. intros ? ? [-> ->].
  wp_step. eapply wp_conseq; [by apply (wp_trim_dot a ta)|]. intros la ? (-> & Hsa & Hla & Hza).
  wp_step. eapply wp_conseq; [by apply (wp_trim_dot b tb)|]. intros lb ? (-> & Hsb & Hlb & Hzb).
  set (a' := strip_dot ta) in *. set (b' := strip_dot tb) in *.
  assert (H10 : forall (c : bool) (P : Prop), (c = true <-> P) -> (of_bool c = 0 \/ of_bool c = 1) /\ (of_bool c = 1 <-> P)).
  { intros [] P HP; unfold of_bool; (split; [by auto|]); rewrite <- HP; done. }
  destruct (Z.eqb_spec lb 0) as [H0|H0].
  { wp_step. split_and!; [done|by right|]. split; [|done]. intros _. left. destruct b' as [|x l]; [done|].
    rewrite zlen_cons in Hzb. pose proof (zlen_nonneg l). lia. }
  assert (Hbn : b' <> []) by (intros E; rewrite E in Hzb; done).
  destruct (Z.ltb_spec la lb) as [Hlt|Hge].
  { wp_step. split_and!; [done|by left|]. split; [done|]. intros [?|[Hs%same_len|(x & y & Hxy & _ & _ & Hs%same_len)]]; [done|lia|].
    rewrite Hxy, zlen_app, zlen_cons in Hza. pose proof (zlen_nonneg x). lia. }
  destruct (Z.eqb_spec lb la) as [Heq|Hne].
  { wp_step. eapply (wp_strncasecmp_cstr a b [] ta tb); try done; try lia. intros r Hr. wp_step. split; [done|].
    apply H10. rewrite Z.eqb_eq, Hr, Heq, <- Hsa, <- Heq, <- Hsb. split; [by right; left|].
    intros [?|[?|(x & y & Hxy & Hx & _ & Hs%same_len)]]; [done|done|]. exfalso. rewrite Hxy, zlen_app, zlen_cons in Hza.
    pose proof (zlen_nonneg x). lia. }
  pose proof (at_or_below_below a' b' ltac:(lia) Hbn) as Hiff. rewrite <- Hza, <- Hzb in Hiff. cbv zeta.
  destruct (Z.ltb_spec (la - lb) 2) as [H2|H2]; [wp_step; split_and!; [done|by left|]; rewrite Hiff; lia|].
  assert (Hzn : forall i, 0 <= i < la -> znth a i = znth a' i) by (intros; rewrite Hsa, znth_ztake, (cstr_znth a ta) by (done || lia); done).
  destruct (znth_lt a' (la - lb - 1)) as [c Hc]; [lia|].
  wp_step. apply (wp_rd _ _ _ _ _ c); [rewrite Hzn; (done || lia)|].
  destruct (Z.eqb_spec c 46) as [->|Hcd]; cbn [negb].
  2: { wp_step. split_and!; [done|by left|]. rewrite Hiff. split; [done|]. intros (_ & Hd & _). congruence. }
  wp_step. apply (wp_escaped_at a ta); [done|lia|].
  assert (Hpre : ztake (la - lb - 1) ta = ztake (la - lb - 1) a') by (rewrite Hsa, ztake_ztake by lia; done).
  rewrite Hpre. destruct (esc_after (ztake (la - lb - 1) a')) eqn:He.
  { wp_step. split_and!; [done|by left|]. rewrite Hiff. split; [done|]. intros (_ & _ & He' & _). congruence. }
  wp_step. eapply (wp_strncasecmp_cstr a b (ztake (la - lb) ta) (zdrop (la - lb) ta) tb);
    rewrite ?ztake_zdrop, ?zlen_ztake, ?zlen_zdrop by lia; try done; try lia.
  intros r Hr. wp_step. split; [done|]. apply H10. rewrite Z.eqb_eq, Hr, Hiff, <- Hsb.
  assert (Hsuf : ztake lb (zdrop (la - lb) ta) = zdrop (la - lb) a').
  { rewrite Hsa. unfold ztake, zdrop. rewrite skipn_firstn_comm. f_equal. lia. }
  rewrite Hsuf. split; [intros ?; by split_and!|]. by intros (_ & _ & _ & ?).
Qed.

(** foo.bar.Top. is below BAR.top; foo\.bar.top is not below bar.top. *)
Lemma ns_samedomain_correct_witness :
  let a := [102; 111; 111; 46; 98; 97; 114; 46; 84; 111; 112; 46] in
  let e := [102; 92; 46; 98; 97; 114] in
  let b := [66; 65; 82; 46; 116; 111; 112] in
  at_or_below (strip_dot a) (strip_dot b) /\
  fst (ns_samedomain (a ++ [0]) (b ++ [0]) tt) = Ret 1 /\ fst (ns_samedomain (e ++ [0]) [98; 97; 114; 0] tt) = Ret 0.
Proof.
  cbv zeta.
  pose proof (ns_samedomain_correct ([102; 111; 111; 46; 98; 97; 114; 46; 84; 111; 112; 46] ++ [0])
    ([66; 65; 82; 46; 116; 111; 112] ++ [0]) [102; 111; 111; 46; 98; 97; 114; 46; 84; 111; 112; 46]
    [66; 65; 82; 46; 116; 111; 112] tt ltac:(by apply bytes_check) ltac:(by apply bytes_check)
    ltac:(apply cstr_intro; by repeat constructor) ltac:(apply cstr_intro; by repeat constructor)) as H.
  apply wp_eq in H as [(r & s & Hr & _ & _ & H)|(? & ? & _ & H)]; [|done].
  split_and!; [|by vm_compute|by vm_compute]. apply H. by vm_compute in Hr; injection Hr.
Defined.

(** ** Equal names *)

(** The text without the separators at its end, on the reversed text. *)
Fixpoint strip_rev (r : list Z) : list Z :=
  match r with
  | c :: r' => if (c =? 46) && negb (esc_after (reverse r')) then strip_rev r' else r
  | [] => []
  end.
Definition strip_seps (t : list Z) : list Z := reverse (strip_rev (reverse t)).

(** Three backslashes in a row. *)
Definition three_backslashes (t : list Z) : Prop := exists u v, t = u ++ [92; 92; 92] ++ v.

Lemma strip_seps_snoc u c :
  strip_seps (u ++ [c]) = if (c =? 46) && negb (esc_after u) then strip_seps u else u ++ [c].
Proof.
  unfold strip_seps. rewrite reverse_snoc. cbn [strip_rev]. rewrite reverse_involutive.
  case_match; [done|]. by rewrite reverse_cons, reverse_involutive.
Qed.

(** What [ns_makecanon] looks at in front of the dot. *)
Definition looks_escaped (u : list Z) : bool :=
  bool_decide (znth u (zlen u - 1) = Some 92) && negb (bool_decide (znth u (zlen u - 2) = Some 92)).

Lemma looks_escaped_snoc u c :
  looks_escaped (u ++ [c]) = (c =? 92) && negb (bool_decide (znth u (zlen u - 1) = Some 92)).
Proof.
  unfold looks_escaped. rewrite zlen_app. change (zlen [c]) with 1. replace (zlen u + 1 - 1) with (zlen u) by lia.
  rewrite znth_middle. replace (zlen u + 1 - 2) with (zlen u - 1) by lia. rewrite (znth_app_l u) by lia. f_equal.
  destruct (Z.eqb_spec c 92) as [->|Hc]; [by rewrite bool_decide_eq_true_2|]. rewrite bool_decide_eq_false_2; [done|congruence].
Qed.

Lemma looks_escaped_spec u : ~ three_backslashes u -> looks_escaped u = esc_after u.
Proof.
  intros H3. destruct u as [|c v _] using rev_ind; [done|]. rewrite looks_escaped_snoc, esc_after_snoc.
  destruct (Z.eqb_spec c 92) as [->|]; [|by rewrite andb_false_r]. rewrite andb_true_r. cbn [andb]. f_equal.
  destruct v as [|d w _] using rev_ind; [done|]. rewrite esc_after_snoc, zlen_app. change (zlen [d]) with 1.
  replace (zlen w + 1 - 1) with (zlen w) by lia. rewrite znth_middle.
  destruct (Z.eqb_spec d 92) as [->|]; [|rewrite bool_decide_eq_false_2 by congruence; by rewrite andb_false_r].
  rewrite bool_decide_eq_true_2, andb_true_r by done.
  destruct w as [|e x _] using rev_ind; [done|]. rewrite esc_after_snoc.
  destruct (Z.eqb_spec e 92) as [->|]; [|by rewrite andb_false_r]. exfalso. apply H3. exists x, []. by rewrite <- !app_assoc.
Qed.

Lemma three_backslashes_app u v : three_backslashes u -> three_backslashes (u ++ v).
Proof. intros (x & y & ->). exists x, (y ++ v). by rewrite <- !app_assoc. Qed.

(** The text [t] without the last characters is at the start of the buffer. *)
Definition holds (s t : list Z) (n : Z) : Prop := 0 <= n <= zlen t /\ zlen t < zlen s /\ ztake n s = ztake n t.

Lemma holds_znth s t n i : holds s t n -> i < n -> znth s i = znth t i.
Proof. intros (_ & _ & H) Hi. by rewrite <- (znth_ztake i n s), H, znth_ztake. Qed.

Lemma wp_rd_holds {B} s t n i (k : Z -> M (list Z) B) Q E :
  holds s t n -> 0 <= i < n -> (forall c, znth t i = Some c -> wp (k c) s Q E) -> wp (c ← rdS i; k c) s Q E.
Proof.
  intros Hh Hi Hk. destruct (znth_lt t i) as [c Hc]; [destruct Hh; lia|]. wp_step.
  apply (wp_run _ (rd s i) s s); [done|]. apply (wp_rd _ _ _ _ _ c); [by rewrite (holds_znth s t n) by (done || lia)|]. by apply Hk.
Qed.

Lemma znth_ztake_lt {A} (t : list A) n i : i < n -> znth (ztake n t) i = znth t i.
Proof. apply znth_ztake. Qed.

Lemma wp_ends_escaped s t n (Q : bool -> list Z -> Prop) E :
  holds s t n -> 1 <= n -> Q (looks_escaped (ztake (n - 1) t)) s -> wp (ends_escaped n) s Q E.
Proof.
  intros Hh Hn HQ. pose proof Hh as (Hnt & _). unfold looks_escaped in HQ. rewrite zlen_ztake in HQ by lia.
  unfold ends_escaped. destruct (Z.leb_spec 2 n) as [H2|H2]; cbn [negb].
  2: { wp_step. rewrite znth_None in HQ by lia. rewrite bool_decide_eq_false_2 in HQ by done. exact HQ. }
  eapply wp_rd_holds; [exact Hh|lia|]. intros c Hc. rewrite znth_ztake in HQ by lia.
  replace (n - 1 - 1) with (n - 2) in HQ by lia. rewrite Hc in HQ.
  destruct (Z.eqb_spec c 92) as [->|Hne]; cbn [negb].
  2: { wp_step. rewrite bool_decide_eq_false_2 in HQ by congruence. exact HQ. }
  rewrite bool_decide_eq_true_2 in HQ by done. cbn [andb] in HQ. destruct (Z.ltb_spec n 3).
  { wp_step. rewrite znth_None in HQ by lia. rewrite bool_decide_eq_false_2 in HQ by done. exact HQ. }
  eapply wp_rd_holds; [exact Hh|lia|]. intros d Hd. wp_step. rewrite znth_ztake in HQ by lia.
  replace (n - 1 - 2) with (n - 3) in HQ by lia. rewrite Hd in HQ. destruct (Z.eqb_spec d 92) as [->|Hne].
  - by rewrite bool_decide_eq_true_2 in HQ.
  - by rewrite bool_decide_eq_false_2 in HQ by congruence.
Qed.

Lemma bytes_zupd b i v : bytes b -> is_byte v -> bytes (zupd b i v).
Proof. intros Hb Hv. unfold zupd. case_match; [done|]. by apply Forall_insert. Qed.

Lemma wp_canon_loop s t E :
  zlen t < zlen s -> ztake (zlen t) s = t -> bytes s ->
  wp (loop (Z.to_nat (zlen t) + 1) canon_step (zlen t)) s
     (fun n s' => holds s' t n /\ zlen s' = zlen s /\ bytes s' /\ (~ three_backslashes t -> ztake n t = strip_seps t)) E.
Proof.
  intros Hs Ht Hb. pose proof (zlen_nonneg t).
  apply (wp_loop (fun n s' => holds s' t n /\ zlen s' = zlen s /\ bytes s' /\ (~ three_backslashes t -> strip_seps (ztake n t) = strip_seps t))
    (fun n _ => Z.to_nat n)).
  - split_and!; [split; [lia|]; by rewrite ztake_all|done|done|]. by rewrite ztake_all.
  - lia.
  - intros n s' (Hh & Hl & Hbs & Hst). pose proof Hh as (Hn & Hls & Htk). unfold canon_step.
    destruct (Z.leb_spec 1 n); cbn [negb].
    2: { wp_step. split_and!; [done|done|done|]. intros H3. rewrite <- Hst by done. by replace n with 0 by lia. }
    eapply wp_rd_holds; [exact Hh|lia|]. intros c Hc.
    assert (Hsn : ztake n t = ztake (n - 1) t ++ [c]) by (rewrite <- (ztake_snoc _ _ _ Hc); f_equal; lia).
    assert (H3n : ~ three_backslashes t -> ~ three_backslashes (ztake (n - 1) t)).
    { intros H3 H3'. apply H3. rewrite <- (ztake_zdrop (n - 1) t). by apply three_backslashes_app. }
    destruct (Z.eqb_spec c 46) as [->|Hne]; cbn [negb].
    2: { wp_step. split_and!; [done|done|done|]. intros H3. rewrite <- Hst, Hsn, strip_seps_snoc by done.
         by rewrite (proj2 (Z.eqb_neq c 46) Hne). }
    wp_step. eapply wp_ends_escaped; [exact Hh|lia|]. destruct (looks_escaped _) eqn:Hlk.
    + wp_step. split_and!; [done|done|done|]. intros H3. rewrite looks_escaped_spec in Hlk by auto.
      by rewrite <- Hst, Hsn, strip_seps_snoc, Hlk by done.
    + wp_step. wp_step; [lia|]. wp_step. split; [|lia]. split_and!; [|by rewrite zlen_zupd|by apply bytes_zupd|].
      * split; [lia|]. rewrite zlen_zupd. split; [lia|]. rewrite <- (ztake_ztake t (n - 1) n), <- Htk by lia.
        unfold ztake, zupd. rewrite (proj2 (Z.ltb_ge _ _)) by lia. rewrite take_insert_ge by lia.
        rewrite take_take. f_equal. lia.
      * intros H3. rewrite looks_escaped_spec in Hlk by auto. rewrite <- Hst by done.
        by rewrite Hsn, strip_seps_snoc, Hlk.
Qed.

Lemma wp_makecanon src t size dst (st : list Z) :
  bytes src -> cstr src 0 t -> dst = st -> bytes dst -> 0 <= size <= zlen dst ->
  wp (ns_makecanon src size) st
     (fun _ s => zlen t + 2 <= size /\ exists u, cstr s 0 (u ++ [46]) /\ bytes s /\
        Forall (fun c => is_byte c /\ c <> 0) u /\ (~ three_backslashes t -> u = strip_seps t))
     (fun e s => e = EMSGSIZE /\ size < zlen t + 2).
Proof.
  intros Hb Hc -> Hbs Hs. pose proof (cstr_len _ _ _ Hc). pose proof (zlen_nonneg t). unfold ns_makecanon.
  wp_step. eapply wp_conseq; [by apply (wp_strlen src t)|]. intros ? ? [-> ->].
  wp_step. wp_step; [split; [done|lia]|]. wp_step. apply wp_memcpy; try lia.
  assert (Hsrc : ztake (zlen t + 1) (zdrop 0 src) = t ++ [0]).
  { rewrite zdrop_0, (ztake_snoc _ _ 0), (cstr_ztake src t); [done|done|]. by apply (cstr_nul src 0). }
  rewrite Hsrc. set (s0 := splice st 0 (t ++ [0])).
  assert (Hl0 : zlen s0 = zlen st) by (apply zlen_splice; rewrite ?zlen_app; zlen_simpl; lia).
  assert (Hpre : ztake (zlen t) s0 = t) by (unfold s0; rewrite splice_0, <- app_assoc; apply ztake_app).
  assert (Hb0 : bytes s0).
  { unfold s0, splice. repeat (apply Forall_app; split); [by apply Forall_take| |by repeat constructor|by apply Forall_drop].
    eapply Forall_impl; [exact (cstr_bytes src 0 t Hb Hc)|]. by intros c [? _]. }
  wp_step. eapply wp_conseq; [apply (wp_canon_loop s0 t); (done || lia)|]. intros n s1 ([Hn [Hls1 Hh]] & Hl1 & Hb1 & Hst).
  wp_step. wp_step; [lia|]. wp_step; [rewrite zlen_zupd; lia|]. split; [lia|]. exists (ztake n t).
  assert (Hu : Forall (fun c => is_byte c /\ c <> 0) (ztake n t)) by (apply Forall_take; exact (cstr_bytes src 0 t Hb Hc)).
  assert (Hlu : zlen (ztake n t) = n) by (apply zlen_ztake; lia).
  split; [|split; [by repeat apply bytes_zupd|by split]].
  rewrite (zupd_splice s1) by lia. rewrite splice_snoc_alt by (zlen_simpl; lia). cbn [app].
  assert (Hs2 : ztake (n + 2) (splice s1 n [46; 0]) = ztake n t ++ [46; 0]) by (rewrite ztake_splice by (done || lia); by rewrite Hh).
  rewrite <- (ztake_zdrop (n + 2) (splice _ _ _)), Hs2. change [46; 0] with ([46] ++ [0]). rewrite app_assoc, <- (app_assoc _ [0]).
  apply cstr_intro. apply Forall_app. split; [|by repeat constructor]. eapply Forall_impl; [exact Hu|]. by intros c [_ ?].
Qed.

(** [ns_samename] of two names: it terminates and stays in its two arrays,
    fails with EMSGSIZE when a name is too long for them, and otherwise tells,
    unless a name has three backslashes in a row, whether the names without the
    separators at their ends are the same, without regard to case. *)
Theorem ns_samename_correct {S} (ta0 tb0 a b ta tb : list Z) (st : S) :
  zlen ta0 = NS_MAXDNAME -> zlen tb0 = NS_MAXDNAME -> bytes ta0 -> bytes tb0 ->
  bytes a -> bytes b -> cstr a 0 ta -> cstr b 0 tb ->
  wp (ns_samename ta0 tb0 a b) st
     (fun r st' => st' = st /\ zlen ta + 2 <= NS_MAXDNAME /\ zlen tb + 2 <= NS_MAXDNAME /\ (r = 0 \/ r = 1) /\
        (~ three_backslashes ta -> ~ three_backslashes tb -> r = 1 <-> same (strip_seps ta) (strip_seps tb)))
     (fun e st' => e = EMSGSIZE /\ st' = st /\ (NS_MAXDNAME < zlen ta + 2 \/ NS_MAXDNAME < zlen tb + 2)).
Proof.
  intros Hla Hlb Hba0 Hbb0 Ha Hb Hca Hcb. unfold ns_samename.
  wp_step. apply wp_on_local. eapply wp_mono; [apply (wp_makecanon a ta NS_MAXDNAME ta0); try done; rewrite Hla; done| |].
  2: { intros e s [-> ?]. by auto. }
  intros _ sa (Hna & u & Hcu & Hbu & Hu & Hsu). cbn beta iota.
  wp_step. apply wp_on_local. eapply wp_mono; [apply (wp_makecanon b tb NS_MAXDNAME tb0); try done; rewrite Hlb; done| |].
  2: { intros e s [-> ?]. by auto. }
  intros _ sb (Hnb & v & Hcv & Hbv & Hv & Hsv). cbn beta iota.
  wp_step. eapply wp_conseq; [by apply (wp_strcasecmp sa sb 0 0 (u ++ [46]) (v ++ [46]))|]. intros ? ? [-> ->]. wp_step.
  split_and!; [done|done|done|case_match; by auto|]. intros H3a H3b. rewrite <- (Hsu H3a), <- (Hsv H3b).
  assert (Hdot : Forall (fun c => is_byte c /\ c <> 0) [46]) by (constructor; [|constructor]; split; [unfold is_byte; lia|done]).
  pose proof (casecmp_0 (u ++ [46]) (v ++ [46])) as Hcmp. rewrite !Forall_app in Hcmp. specialize (Hcmp (conj Hu Hdot) (conj Hv Hdot)).
  unfold same. rewrite !map_app in Hcmp. transitivity (map lower u ++ map lower [46] = map lower v ++ map lower [46]).
  - rewrite <- Hcmp. case_match; [split; lia|]. split; [done|lia].
  - split; [apply app_inv_tail|by intros ->].
Qed.

(** "foo.." and "FOO" are the same name. *)
Lemma ns_samename_correct_witness :
  let a := [102; 111; 111; 46; 46] in
  let b := [70; 79; 79] in
  let r := ns_samename (replicate 1025 7) (replicate 1025 7) (a ++ [0]) (b ++ [0]) tt in
  same (strip_seps a) (strip_seps b) /\ r = (Ret 1, tt).
Proof.
  cbv zeta.
  pose proof (ns_samename_correct (replicate 1025 7) (replicate 1025 7) ([102; 111; 111; 46; 46] ++ [0]) ([70; 79; 79] ++ [0])
    [102; 111; 111; 46; 46] [70; 79; 79] tt ltac:(by vm_compute) ltac:(by vm_compute) ltac:(by apply bytes_check)
    ltac:(by apply bytes_check) ltac:(by apply bytes_check) ltac:(by apply bytes_check)
    ltac:(apply cstr_intro; by repeat constructor) ltac:(apply cstr_intro; by repeat constructor)) as H.
  assert (H3 : forall l, forallb (fun c => negb (c =? 92)) l = true -> ~ three_backslashes l).
  { intros l Hl (u & v & ->). rewrite !forallb_app in Hl. cbn in Hl. by rewrite andb_false_r in Hl. }
  apply wp_eq in H as [(r & s & Hr & _ & _ & _ & _ & H)|(? & ? & Hr & _)]; [|by vm_compute in Hr].
  split; [|by vm_compute]. apply H; [by apply H3|by apply H3|]. vm_compute in Hr. by injection Hr.
Defined.

(** An escaped dot behind an escaped backslash is taken for a separator: the
    canonical form of a\\\. is the name itself, without a separator at its end. *)
Theorem ns_makecanon_three :
  let src := [97; 92; 92; 92; 46; 0] in
  ns_makecanon src 7 (replicate 7 9) = (Ret tt, [97; 92; 92; 92; 46; 0; 9]) /\ strip_seps [97; 92; 92; 92; 46] = [97; 92; 92; 92; 46].
Proof. by vm_compute. Qed.
