(* ===== verification/NsHost.v ===== *)
(** * Character sets of domain names: [bionic/libc/dns/resolv/res_comp.c]

    [res_hnok], [res_ownok], [res_mailok] and [res_dnok] read an array that ends
    in a NUL, from an offset on, and leave the state alone. [dn_expand] and
    [dn_skipname] of the same file are in [NsParse.v]. *)
From S2P Require Import Prelude CString NsSamedomain.

(** ** The code *)

Definition hyphenchar (c : Z) : bool := c =? 0x2d.
Definition bslashchar (c : Z) : bool := c =? 0x5c.
Definition periodchar (c : Z) : bool := c =? 0x2e.
Definition asterchar (c : Z) : bool := c =? 0x2a.
Definition alphachar (c : Z) : bool := ((0x41 <=? c) && (c <=? 0x5a)) || ((0x61 <=? c) && (c <=? 0x7a)).
Definition digitchar (c : Z) : bool := (0x30 <=? c) && (c <=? 0x39).
Definition underscorechar (c : Z) : bool := c =? 0x5f.
Definition borderchar (c : Z) : bool := alphachar c || digitchar c.
Definition middlechar (c : Z) : bool := borderchar c || hyphenchar c || underscorechar c.
Definition domainchar (c : Z) : bool := (0x20 <? c) && (c <? 0x7f).

Definition hnok_step {S} (mem : list Z) '((pch, ch, dn) : Z * Z * Z) : M S (step (Z * Z * Z) Z) :=
  if ch =? 0 then mret (Done 1)
  else
    nch ← rd mem dn;
    if periodchar ch then mret (Next (ch, nch, dn + 1))
    else if periodchar pch then
      if negb (borderchar ch) then mret (Done 0) else mret (Next (ch, nch, dn + 1))
    else if periodchar nch || (nch =? 0) then
      if negb (borderchar ch) then mret (Done 0) else mret (Next (ch, nch, dn + 1))
    else if negb (middlechar ch) then mret (Done 0) else mret (Next (ch, nch, dn + 1)).

Definition res_hnok {S} (mem : list Z) (dn : Z) : M S Z :=
  ch ← rd mem dn;
  loop (Datatypes.S (length mem)) (hnok_step mem) (0x2e, ch, dn + 1).

Definition res_ownok {S} (mem : list Z) (dn : Z) : M S Z :=
  c0 ← rd mem dn;
  if asterchar c0 then
    c1 ← rd mem (dn + 1);
    if periodchar c1 then res_hnok mem (dn + 2)
    else if c1 =? 0 then mret 1
    else res_hnok mem dn
  else res_hnok mem dn.

(** [inl] is [return (0)], [inr] the loop's end with [ch] and [dn]. *)
Definition mailok_step {S} (mem : list Z) '((dn, escaped) : Z * bool) : M S (step (Z * bool) (unit + Z * Z)) :=
  ch ← rd mem dn;
  if ch =? 0 then mret (Done (inr (ch, dn + 1)))
  else if negb (domainchar ch) then mret (Done (inl tt))
  else if negb escaped && periodchar ch then mret (Done (inr (ch, dn + 1)))
  else mret (Next (dn + 1, if escaped then false else bslashchar ch)).

Definition res_mailok {S} (mem : list Z) (dn : Z) : M S Z :=
  c ← rd mem dn;
  if c =? 0 then mret 1
  else
    r ← loop (Datatypes.S (length mem)) (mailok_step mem) (dn, false);
    match r with
    | inl _ => mret 0
    | inr (ch, dn) => if periodchar ch then res_hnok mem dn else mret 0
    end.

Definition dnok_step {S} (mem : list Z) (dn : Z) : M S (step Z Z) :=
  ch ← rd mem dn;
  if ch =? 0 then mret (Done 1)
  else if negb (domainchar ch) then mret (Done 0)
  else mret (Next (dn + 1)).

Definition res_dnok {S} (mem : list Z) (dn : Z) : M S Z :=
  loop (Datatypes.S (length mem)) (dnok_step mem) dn.

(** ** Names *)

(** The pieces between the dots. *)
Fixpoint labels (t : list Z) : list (list Z) :=
  match t with
  | [] => [[]]
  | c :: t =>
      if c =? 46 then [] :: labels t
      else match labels t with
           | l :: ls => (c :: l) :: ls
           | [] => [[c]]
           end
  end.

(** A letter or digit at both ends, and letters, digits, hyphens and
    underscores between them; or nothing at all. *)
Definition host_label (l : list Z) : bool :=
  match l with
  | [] => true
  | c :: _ => borderchar c && borderchar (List.last l 0) && forallb middlechar l
  end.

Definition hostname (t : list Z) : bool := forallb host_label (labels t).

(** [*], or [*.] and a host name, or a host name. *)
Definition ownername (t : list Z) : bool :=
  bool_decide (t = [42]) || (bool_decide (take 2 t = [42; 46]) && hostname (drop 2 t)) || hostname t.

(** No name, or printable characters up to an unescaped dot and a host name. *)
Definition mailname (t : list Z) : Prop :=
  t = [] \/ exists u v, t = u ++ 46 :: v /\ forallb domainchar u = true /\ esc_after u = false /\
    (forall x y, u = x ++ 46 :: y -> esc_after x = true) /\ hostname v = true.

(** ** [res_hnok] *)

Definition ends (t : list Z) : bool := match t with [] => true | c :: _ => periodchar c end.

(** The loop, with the character before the text. *)
Fixpoint hn (pch : Z) (t : list Z) : bool :=
  match t with
  | [] => true
  | c :: t =>
      (if periodchar c then true
       else if periodchar pch || ends t then borderchar c else middlechar c) && hn c t
  end.

(** A label behind its first character. *)
Definition rest_ok (l : list Z) : bool :=
  match l with [] => true | _ => borderchar (List.last l 0) && forallb middlechar l end.

Lemma border_middle c : borderchar c = true -> middlechar c = true.
Proof. unfold middlechar. by intros ->. Qed.

Lemma labels_cons t : exists l ls, labels t = l :: ls.
Proof. destruct t as [|c t]; [by exists [], []|]. cbn. case_match; [by eauto|]. case_match; by eauto. Qed.

Lemma labels_ends t l ls : labels t = l :: ls -> ends t = bool_decide (l = []).
Proof.
  destruct t as [|c t]; [by intros [= <- <-]|]. cbn. unfold periodchar.
  destruct (Z.eqb_spec c 46); [by intros [= <- <-]|]. case_match; by intros [= <- <-].
Qed.

Lemma host_label_cons c l : host_label (c :: l) = borderchar c && rest_ok l.
Proof.
  cbn [host_label forallb]. destruct (borderchar c) eqn:E; [|done]. rewrite (border_middle _ E). cbn [andb].
  destruct l as [|d l]; [|done]. change (List.last [c] 0) with c. by rewrite E.
Qed.

Lemma rest_ok_cons c l : rest_ok (c :: l) = (if bool_decide (l = []) then borderchar c else middlechar c) && rest_ok l.
Proof.
  cbn [rest_ok forallb]. destruct l as [|d l].
  - change (List.last [c] 0) with c. cbn. destruct (borderchar c) eqn:E; [by rewrite (border_middle _ E)|done].
  - change (List.last (c :: d :: l) 0) with (List.last (d :: l) 0). rewrite bool_decide_eq_false_2 by done.
    cbn [rest_ok]. by destruct (borderchar _), (middlechar c).
Qed.

Lemma hn_labels t :
  hn 46 t = hostname t /\
  (forall p l ls, p <> 46 -> labels t = l :: ls -> hn p t = rest_ok l && forallb host_label ls).
Proof.
  unfold hostname. induction t as [|c t [IH1 IH2]]; [split; [done|by intros p l ls _ [= <- <-]]|].
  destruct (labels_cons t) as (l & ls & Hl). cbn [hn labels]. unfold periodchar. rewrite Hl in *.
  destruct (Z.eqb_spec c 46) as [->|Hc].
  - rewrite IH1. split; [done|]. by intros p l' ls' _ [= <- <-].
  - rewrite (IH2 c l ls) by done. split; [cbn [forallb]; rewrite host_label_cons; cbn; by rewrite andb_assoc|].
    intros p l' ls' Hp [= <- <-]. rewrite rest_ok_cons, <- (labels_ends _ _ _ Hl).
    rewrite (proj2 (Z.eqb_neq p 46) Hp). cbn [orb]. by rewrite andb_assoc.
Qed.

Definition esc_from (e : bool) (x : list Z) : bool := foldl (fun e c => negb e && (c =? 92)) e x.

Section cstr.
Context {S : Type} (mem : list Z) (st : S).

(** The character at a string's start. *)
Lemma wp_rd_cstr {B} off t (k : Z -> M S B) Q E :
  cstr mem off t -> wp (k (List.hd 0 t)) st Q E -> wp (c ← rd mem off; k c) st Q E.
Proof.
  intros Hc Hk. apply wp_bind. eapply wp_rd; [|exact Hk].
  destruct t as [|c t]; [by apply cstr_nul_head|by apply cstr_cons_l in Hc as (_ & ? & _)].
Qed.

Lemma wp_hnok_loop t : forall n off p E, cstr mem off t -> (length t < n)%nat ->
  wp (loop n (hnok_step mem) (p, List.hd 0 t, off + 1)) st (fun r st' => r = of_bool (hn p t) /\ st' = st) E.
Proof.
  induction t as [|c t IH]; intros n off p E Hc Hn; (destruct n as [|n]; [cbn in Hn; lia|]); apply wp_loop_S.
  { cbn. by wp_step. }
  apply cstr_cons_l in Hc as (Hc0 & _ & Hc). cbn [length] in Hn.
  assert (Hnext : wp (loop n (hnok_step mem) (c, List.hd 0 t, off + 1 + 1)) st (fun r st' => r = of_bool (hn c t) /\ st' = st) E)
    by (apply IH; [done|lia]).
  assert (He : periodchar (List.hd 0 t) || (List.hd 0 t =? 0) = ends t).
  { destruct t as [|d t]; [done|]. apply cstr_cons_l in Hc as (Hd & _). cbn. by rewrite (proj2 (Z.eqb_neq d 0) Hd), orb_false_r. }
  unfold hnok_step. cbn [List.hd hn]. rewrite (proj2 (Z.eqb_neq c 0) Hc0). apply (wp_rd_cstr _ t); [done|]. rewrite He.
  destruct (periodchar c); [by wp_step|]. destruct (periodchar p); cbn [orb].
  { destruct (borderchar c); by wp_step. }
  destruct (ends t); [destruct (borderchar c)|destruct (middlechar c)]; by wp_step.
Qed.

Lemma wp_res_hnok t off E : cstr mem off t ->
  wp (res_hnok mem off) st (fun r st' => r = of_bool (hostname t) /\ st' = st) E.
Proof.
  intros Hc. unfold res_hnok. apply (wp_rd_cstr _ t); [done|]. rewrite <- (proj1 (hn_labels t)).
  apply wp_hnok_loop; [done|]. pose proof (cstr_len _ _ _ Hc). destruct Hc as [? _]. unfold zlen in *. lia.
Qed.

Lemma wp_res_dnok t off E : cstr mem off t ->
  wp (res_dnok mem off) st (fun r st' => r = of_bool (forallb domainchar t) /\ st' = st) E.
Proof.
  intros Hc. unfold res_dnok. assert (Hl : (length t < Datatypes.S (length mem))%nat).
  { pose proof (cstr_len _ _ _ Hc). destruct Hc as [? _]. unfold zlen in *. lia. }
  revert Hl. generalize (Datatypes.S (length mem)). revert off Hc. induction t as [|c t IH]; intros off Hc n Hn;
    (destruct n as [|n]; [cbn in Hn; lia|]); apply wp_loop_S; unfold dnok_step at 1; (eapply wp_rd_cstr; [done|]); cbn [List.hd].
  { by wp_step. }
  apply cstr_cons_l in Hc as (Hc0 & _ & Hc). rewrite (proj2 (Z.eqb_neq c 0) Hc0). cbn [forallb].
  destruct (domainchar c); cbn [negb andb]; wp_step; [|done]. apply IH; [done|]. cbn in Hn. lia.
Qed.

Lemma wp_res_ownok t off E : cstr mem off t ->
  wp (res_ownok mem off) st (fun r st' => r = of_bool (ownername t) /\ st' = st) E.
Proof.
  intros Hc. unfold res_ownok. apply (wp_rd_cstr _ t); [done|].
  pose proof (wp_res_hnok t off E Hc) as Hh. unfold ownername, asterchar.
  destruct t as [|c t]; [exact Hh|]. cbn [List.hd]. destruct (Z.eqb_spec c 42) as [->|Hne].
  2: { rewrite !bool_decide_eq_false_2; [exact Hh| |]; intros [= ? _]; done. }
  apply cstr_cons_l in Hc as (_ & _ & Hc). apply (wp_rd_cstr _ t); [done|]. destruct t as [|d t].
  { cbn. by wp_step. }
  apply cstr_cons_l in Hc as (Hd0 & _ & Hc). cbn [List.hd take]. rewrite (proj2 (Z.eqb_neq d 0) Hd0).
  unfold periodchar. rewrite (bool_decide_eq_false_2 (42 :: d :: t = [42])) by done. cbn [orb].
  destruct (Z.eqb_spec d 46) as [->|Hd].
  - rewrite bool_decide_eq_true_2 by done. cbn [andb drop].
    replace (hostname (42 :: 46 :: t)) with false by done. rewrite orb_false_r.
    replace (off + 2) with (off + 1 + 1) by lia. by apply wp_res_hnok.
  - rewrite bool_decide_eq_false_2 by (intros [= ?]; done). exact Hh.
Qed.

(** The loop of [res_mailok]: the text behind the first unescaped dot. *)
Fixpoint mailrest (escaped : bool) (t : list Z) : option (list Z) :=
  match t with
  | [] => None
  | c :: t =>
      if negb (domainchar c) then None
      else if negb escaped && periodchar c then Some t
      else mailrest (if escaped then false else bslashchar c) t
  end.

Lemma wp_mailok_loop t : forall n off e (Q : unit + Z * Z -> S -> Prop) E, cstr mem off t -> (length t < n)%nat ->
  (forall r, match mailrest e t with
             | Some v => exists p, r = inr (46, p) /\ cstr mem p v
             | None => r = inl tt \/ exists p, r = inr (0, p)
             end -> Q r st) ->
  wp (loop n (mailok_step mem) (off, e)) st Q E.
Proof.
  induction t as [|c t IH]; intros n off e Q E Hc Hn HQ; (destruct n as [|n]; [cbn in Hn; lia|]); apply wp_loop_S;
    unfold mailok_step at 1; (eapply wp_rd_cstr; [done|]); cbn [List.hd].
  { wp_step. apply HQ. right. by eexists. }
  apply cstr_cons_l in Hc as (Hc0 & _ & Hc). rewrite (proj2 (Z.eqb_neq c 0) Hc0). cbn [mailrest] in HQ.
  destruct (domainchar c); cbn [negb] in *; [|wp_step; apply HQ; by left].
  destruct (negb e && periodchar c) eqn:Hp.
  - wp_step. apply HQ. exists (off + 1). split; [|done]. apply andb_true_iff in Hp as [_ Hp]. unfold periodchar in Hp.
    do 3 f_equal. lia.
  - wp_step. apply IH; [done|cbn in Hn; lia|done].
Qed.

Lemma mailrest_spec t : forall e v, mailrest e t = Some v <->
  exists u, t = u ++ 46 :: v /\ forallb domainchar u = true /\ esc_from e u = false /\
    (forall x y, u = x ++ 46 :: y -> esc_from e x = true).
Proof.
  induction t as [|c t IH]; intros e v; cbn [mailrest].
  { split; [done|]. by intros ([|] & ? & _). }
  destruct (domainchar c) eqn:Hd; cbn [negb].
  2: { split; [done|]. intros ([|d u] & [= -> ->] & Hu & _); [done|]. cbn in Hu. by rewrite Hd in Hu. }
  unfold periodchar, bslashchar. destruct (Z.eqb_spec c 46) as [->|Hc]; destruct e; cbn [negb andb].
  - rewrite IH. split; intros (u & Hu & Hdu & He & Hx).
    + exists (46 :: u). cbn. rewrite Hu, Hdu. split_and!; [done|done|done|]. intros [|d x] y; [done|]. intros [= <- Hy]. eauto.
    + destruct u as [|d u]; [done|]. injection Hu as <- ->. cbn in Hdu. exists u. split_and!; [done|done|done|].
      intros x y ->. by apply (Hx (46 :: x) y).
  - split.
    + intros [= ->]. exists []. split_and!; [done..|]. by intros [|] ?.
    + intros (u & Hu & _ & _ & Hx). destruct u as [|d u]; [by injection Hu as ->|]. injection Hu as <- _.
      by specialize (Hx [] u eq_refl).
  - rewrite IH. split; intros (u & Hu & Hdu & He & Hx).
    + exists (c :: u). cbn. rewrite Hu, Hdu, Hd. split_and!; [done|done|done|]. intros [|d x] y; [done|]. intros [= <- Hy]. eauto.
    + destruct u as [|d u]; [injection Hu; congruence|]. injection Hu as <- ->. cbn in Hdu. apply andb_true_iff in Hdu as [_ Hdu].
      exists u. split_and!; [done|done|done|]. intros x y ->. by apply (Hx (c :: x) y).
  - rewrite IH. split; intros (u & Hu & Hdu & He & Hx).
    + exists (c :: u). cbn. rewrite Hu, Hdu, Hd. split_and!; [done|done|done|]. intros [|d x] y; [intros [= ? _]; congruence|].
      intros [= <- Hy]. cbn. eauto.
    + destruct u as [|d u]; [injection Hu; congruence|]. injection Hu as <- ->. cbn in Hdu. apply andb_true_iff in Hdu as [_ Hdu].
      exists u. split_and!; [done|done|done|]. intros x y ->. by apply (Hx (c :: x) y).
Qed.

Lemma mailname_spec t : t <> [] -> mailname t <-> exists v, mailrest false t = Some v /\ hostname v = true.
Proof.
  intros Hne. unfold mailname. setoid_rewrite mailrest_spec. split.
  - intros [?|(u & v & ? & ? & ? & ? & ?)]; [done|]. exists v. eauto 10.
  - intros (v & (u & ? & ? & ? & ?) & ?). right. exists u, v. by split_and!.
Qed.

Lemma wp_res_mailok t off E : cstr mem off t ->
  wp (res_mailok mem off) st (fun r st' => (r = 0 \/ r = 1) /\ (r = 1 <-> mailname t) /\ st' = st) E.
Proof.
  intros Hc. unfold res_mailok. apply (wp_rd_cstr _ t); [done|]. destruct t as [|c t].
  { wp_step. split; [by right|]. split; [|done]. split; [by left|done]. }
  pose proof (cstr_cons_l _ _ _ _ Hc) as (Hc0 & _ & _). cbn [List.hd]. rewrite (proj2 (Z.eqb_neq c 0) Hc0).
  pose proof (mailname_spec (c :: t) ltac:(done)) as Hm. set (u := c :: t) in *. wp_step.
  eapply (wp_mailok_loop u); [done| |].
  { pose proof (cstr_len _ _ _ Hc). destruct Hc as [? _]. unfold zlen in *. lia. }
  intros r Hr. destruct (mailrest false u) as [v|].
  - destruct Hr as (p & -> & Hp). cbn. eapply wp_conseq; [by apply (wp_res_hnok v)|]. intros ? ? [-> ->].
    split; [unfold of_bool; case_match; by auto|]. split; [|done]. rewrite Hm. unfold of_bool.
    destruct (hostname v) eqn:Hv; [split; by eauto|]. split; [done|]. intros (? & [= <-] & ?). congruence.
  - assert (Hno : (0 : Z) = 1 <-> mailname u) by (rewrite Hm; split; [done|by intros (? & ? & _)]).
    destruct Hr as [->|[p ->]]; cbn; wp_step; (split; [by left|done]).
Qed.
End cstr.

(** C34: The character checks on a name, from any place of an array that ends in
    a NUL: they terminate, read nothing behind the terminator and return 0 or 1.
    [res_hnok] accepts the names all of whose labels are empty or made of
    letters, digits, hyphens and underscores with a letter or a digit at both
    ends; [res_ownok] also takes one star in place of the first label;
    [res_mailok] takes printable characters up to the first unescaped dot and a
    host name behind it, or no name; [res_dnok] takes printable characters. *)
Theorem res_names_correct {S} (mem t : list Z) (dn : Z) (st : S) :
  cstr mem dn t ->
  wp (res_hnok mem dn) st (fun r st' => r = of_bool (hostname t) /\ st' = st) (fun _ _ => False) /\
  wp (res_ownok mem dn) st (fun r st' => r = of_bool (ownername t) /\ st' = st) (fun _ _ => False) /\
  wp (res_mailok mem dn) st (fun r st' => (r = 0 \/ r = 1) /\ (r = 1 <-> mailname t) /\ st' = st) (fun _ _ => False) /\
  wp (res_dnok mem dn) st (fun r st' => r = of_bool (forallb domainchar t) /\ st' = st) (fun _ _ => False).
Proof.
  intros Hc. split_and!; [by apply wp_res_hnok|by apply wp_res_ownok|by apply wp_res_mailok|by apply wp_res_dnok].
Qed.

(** *.a_b.c is an owner and no host; x\.y.c is a mailbox at the host c; x\.y has no host. *)
Lemma res_names_correct_witness :
  let n := [42; 46; 97; 95; 98; 46; 99] in
  let m := [120; 92; 46; 121; 46; 99] in
  res_ownok (n ++ [0]) 0 tt = (Ret 1, tt) /\ hostname n = false /\ mailname m /\
  ~ mailname [120; 92; 46; 121].
Proof.
  cbv zeta.
  pose proof (res_names_correct ([42; 46; 97; 95; 98; 46; 99] ++ [0]) [42; 46; 97; 95; 98; 46; 99] 0 tt
    ltac:(apply cstr_intro; by repeat constructor)) as (_ & Ho & _).
  pose proof (res_names_correct ([120; 92; 46; 121; 46; 99] ++ [0]) [120; 92; 46; 121; 46; 99] 0 tt
    ltac:(apply cstr_intro; by repeat constructor)) as (_ & _ & Hm & _).
  pose proof (res_names_correct ([120; 92; 46; 121] ++ [0]) [120; 92; 46; 121] 0 tt
    ltac:(apply cstr_intro; by repeat constructor)) as (_ & _ & Hn & _).
  apply wp_eq in Ho as [(r & [] & Hr & -> & _)|(? & ? & _ & [])].
  apply wp_eq in Hm as [(m & ? & Hrm & _ & Hm & _)|(? & ? & _ & [])].
  apply wp_eq in Hn as [(n & ? & Hrn & _ & Hn & _)|(? & ? & _ & [])].
  split_and!; [by rewrite Hr|by vm_compute| |].
  - apply Hm. vm_compute in Hrm. congruence.
  - rewrite <- Hn. vm_compute in Hrn. intros ->. congruence.
Defined.
