(* ===== verification/Time64.v ===== *)
(** * Calendar time in 64 bits: [bionic/time64.c]

    A [struct tm] is a record, [time_t] has 32 bits and [Time64_T] 64. [/] and
    [%] round towards zero. Arithmetic in [int] is checked with [int32]; that of
    [Year] and [Time64_T] stays far below 2^63. An [assert] is a [require]. A NULL
    return is an error, with [errno] or 0 where it is not set. The system's
    [mktime] and [localtime_r] are arguments. *)
From S2P Require Import Prelude NsName.

(** ** Tables and constants *)

(** [struct tm] of [include/time.h] *)
Record tm : Type := Tm {
  tm_sec : Z; tm_min : Z; tm_hour : Z; tm_mday : Z; tm_mon : Z; tm_year : Z; tm_wday : Z; tm_yday : Z; tm_isdst : Z;
  tm_gmtoff : Z; tm_zone : option (list Z) }.

Definition days_in_month : list (list Z) :=
  [[31; 28; 31; 30; 31; 30; 31; 31; 30; 31; 30; 31];
   [31; 29; 31; 30; 31; 30; 31; 31; 30; 31; 30; 31]].

Definition julian_days_by_month : list (list Z) :=
  [[0; 31; 59; 90; 120; 151; 181; 212; 243; 273; 304; 334];
   [0; 31; 60; 91; 121; 152; 182; 213; 244; 274; 305; 335]].

Definition wday_name : list (list Z) :=
  [[83; 117; 110]; [77; 111; 110]; [84; 117; 101]; [87; 101; 100]; [84; 104; 117]; [70; 114; 105]; [83; 97; 116]].

Definition mon_name : list (list Z) :=
  [[74; 97; 110]; [70; 101; 98]; [77; 97; 114]; [65; 112; 114]; [77; 97; 121]; [74; 117; 110];
   [74; 117; 108]; [65; 117; 103]; [83; 101; 112]; [79; 99; 116]; [78; 111; 118]; [68; 101; 99]].

Definition length_of_year : list Z := [365; 366].
Definition years_in_gregorian_cycle : Z := 400.
Definition days_in_gregorian_cycle : Z := 365 * 400 + 100 - 4 + 1.
Definition seconds_in_gregorian_cycle : Z := days_in_gregorian_cycle * 60 * 60 * 24.
Definition MAX_SAFE_YEAR : Z := 2037.
Definition MIN_SAFE_YEAR : Z := 1971.
Definition SOLAR_CYCLE_LENGTH : Z := 28.

Definition safe_years_high : list Z :=
  [2016; 2017; 2018; 2019; 2020; 2021; 2022; 2023; 2024; 2025; 2026; 2027; 2028; 2029; 2030; 2031; 2032; 2033; 2034; 2035;
   2036; 2037; 2010; 2011; 2012; 2013; 2014; 2015].

Definition safe_years_low : list Z :=
  [1996; 1997; 1998; 1971; 1972; 1973; 1974; 1975; 1976; 1977; 1978; 1979; 1980; 1981; 1982; 1983; 1984; 1985; 1986; 1987;
   1988; 1989; 1990; 1991; 1992; 1993; 1994; 1995].

Definition CHEAT_DAYS : Z := Z.quot (Z.quot (Z.quot 1199145600 24) 60) 60.
Definition CHEAT_YEARS : Z := 108.
Definition EOVERFLOW : Z := 75.

(** [SHOULD_USE_SYSTEM_LOCALTIME(a)] *)
Definition SHOULD_USE_SYSTEM_LOCALTIME (a : Z) : bool := (a <=? 2147483647) && (-2147483647 <=? a).

(** [IS_LEAP(n)] on a [Year], as an index. *)
Definition IS_LEAP (n : Z) : Z :=
  if (Z.rem (n + 1900) 400 =? 0) || ((Z.rem (n + 1900) 4 =? 0) && negb (Z.rem (n + 1900) 100 =? 0)) then 1 else 0.

(** [WRAP(a, b, m)] *)
Definition WRAP (a b m : Z) : Z * Z := if a <? 0 then (a + m, b - 1) else (a, b).

Section operations.
Context {S : Type}.

(** The value of an expression of type [int]. *)
Definition int32 (v : Z) : M S Z := require ((- 2 ^ 31 <=? v) && (v <? 2 ^ 31));; mret v.

(** [IS_LEAP(n)] on an [int]. *)
Definition is_leap_int (n : Z) : M S Z := _ ← int32 (n + 1900); mret (IS_LEAP n).

Definition rd2 (l : list (list Z)) (i j : Z) : M S Z := row ← rd l i; rd row j.

(** ** timegm64 *)

(** [while (year < orig_year)] and [do ... while (year >= orig_year)] *)
Definition timegm_up (orig_year : Z) '((days, year) : Z * Z) : M S (step (Z * Z) Z) :=
  if year <? orig_year then
    l ← rd length_of_year (IS_LEAP year);
    mret (Next (days + l, year + 1))
  else mret (Done days).

Definition timegm_down (orig_year : Z) '((days, year) : Z * Z) : M S (step (Z * Z) Z) :=
  l ← rd length_of_year (IS_LEAP year);
  let days := days - l in
  let year := year - 1 in
  if orig_year <=? year then mret (Next (days, year)) else mret (Done days).

Definition timegm64 (date : tm) : M S Z :=
  let orig_year := tm_year date in
  '(orig_year, days) ←
    (if (100 <? orig_year) || (orig_year <? -300) then
       let cycles := s32 (Z.quot (orig_year - 100) 400) in
       years ← int32 (cycles * 400);
       mret (orig_year - years, cycles * days_in_gregorian_cycle)
     else mret (orig_year, 0));
  days ←
    (if 70 <? orig_year then loop 431 (timegm_up orig_year) (days, 70)
     else if orig_year <? 70 then loop 431 (timegm_down orig_year) (days, 69)
     else mret days);
  d ← rd2 julian_days_by_month (IS_LEAP orig_year) (tm_mon date);
  let days := days + d in
  d ← int32 (tm_mday date - 1);
  let days := days + d in
  let seconds := days * 60 * 60 * 24 in
  h ← int32 (tm_hour date * 60);
  h ← int32 (h * 60);
  let seconds := seconds + h in
  m ← int32 (tm_min date * 60);
  let seconds := seconds + m in
  mret (seconds + tm_sec date).

(** ** check_tm *)

Definition between (a x b : Z) : bool := (a <=? x) && (x <=? b).

Definition check_tm (t : tm) : M S unit :=
  require (between 0 (tm_sec t) 61);;
  require (between 0 (tm_min t) 59);;
  require (between 0 (tm_hour t) 23);;
  require (1 <=? tm_mday t);;
  leap ← is_leap_int (tm_year t);
  d ← rd2 days_in_month leap (tm_mon t);
  require (tm_mday t <=? d);;
  require (between 0 (tm_mon t) 11);;
  require (between 0 (tm_wday t) 6);;
  require (0 <=? tm_yday t);;
  y ← rd length_of_year leap;
  require (tm_yday t <=? y);;
  require (between (- (24 * 60 * 60)) (tm_gmtoff t) (24 * 60 * 60)).

(** ** Safe years *)

Definition is_exception_century (year : Z) : bool := (Z.rem year 100 =? 0) && negb (Z.rem year 400 =? 0).

Definition cycle_offset (year : Z) : Z :=
  let start_year := 2000 in
  let year_diff := year - start_year in
  let year_diff := if start_year <? year then year_diff - 1 else year_diff in
  let exceptions := Z.quot year_diff 100 - Z.quot year_diff 400 in
  exceptions * 16.

(** The position in the cycle of 28 years. *)
Definition year_cycle (year : Z) : Z :=
  let c := year + cycle_offset year in
  let c := if year <? MIN_SAFE_YEAR then c - 8 else c in
  let c := if is_exception_century year then c + 11 else c in
  let c := if is_exception_century (year - 1) then c + 17 else c in
  let c := Z.rem c SOLAR_CYCLE_LENGTH in
  if c <? 0 then SOLAR_CYCLE_LENGTH + c else c.

Definition safe_year (year : Z) : M S Z :=
  if between MIN_SAFE_YEAR year MAX_SAFE_YEAR then mret (s32 year)
  else
    let c := year_cycle year in
    require (0 <=? c);;
    require (c <? SOLAR_CYCLE_LENGTH);;
    y ← (if year <? MIN_SAFE_YEAR then rd safe_years_low c
         else if MAX_SAFE_YEAR <? year then rd safe_years_high c
         else undef);
    require (between MIN_SAFE_YEAR y MAX_SAFE_YEAR);;
    mret y.

(** ** mktime64 *)

Definition between_step (left_year increment : Z) '((right_year, seconds) : Z * Z) : M S (step (Z * Z) Z) :=
  if negb (left_year =? right_year) then
    l ← rd length_of_year (IS_LEAP (right_year - 1900));
    mret (Next (right_year + increment, seconds + l * 60 * 60 * 24))
  else mret (Done seconds).

Definition seconds_between_years (left_year right_year : Z) : M S Z :=
  let increment := if right_year <? left_year then 1 else -1 in
  '(left_year, seconds) ←
    (if 2400 <? left_year then
       let cycles := s32 (Z.quot (left_year - 2400) 400) in
       years ← int32 (cycles * 400);
       mret (left_year - years, cycles * seconds_in_gregorian_cycle)
     else if left_year <? 1600 then
       let cycles := s32 (Z.quot (left_year - 1600) 400) in
       years ← int32 (cycles * 400);
       mret (left_year + years, cycles * seconds_in_gregorian_cycle)
     else mret (left_year, 0));
  seconds ← loop (Datatypes.S (Z.to_nat (Z.abs (left_year - right_year)))) (between_step left_year increment) (right_year, seconds);
  mret (seconds * increment).

Definition with_year (d : tm) (year : Z) : tm :=
  Tm (tm_sec d) (tm_min d) (tm_hour d) (tm_mday d) (tm_mon d) year (tm_wday d) (tm_yday d) (tm_isdst d) (tm_gmtoff d) (tm_zone d).

(** [mktime] gives the time and what it leaves in the structure. *)
Definition mktime64 (mktime : tm -> Z * tm) (input_date : tm) : M S Z :=
  year ← int32 (tm_year input_date + 1900);
  if between MIN_SAFE_YEAR year MAX_SAFE_YEAR then mret (fst (mktime input_date))
  else
    y ← safe_year year;
    y ← int32 (y - 1900);
    let '(time, safe_date) := mktime (with_year input_date y) in
    y ← int32 (tm_year safe_date + 1900);
    d ← seconds_between_years year y;
    mret (time + d).

Definition timelocal64 (mktime : tm -> Z * tm) (date : tm) : M S Z := mktime64 mktime date.

(** ** Loops of gmtime64_r *)

Definition years_up '((m, year, leap) : Z * Z * Z) : M S (step (Z * Z * Z) (Z * Z * Z)) :=
  l ← rd length_of_year leap;
  if l <=? m then
    let year := year + 1 in
    mret (Next (m - l, year, IS_LEAP year))
  else mret (Done (m, year, leap)).

Definition months_up (leap : Z) '((m, mon) : Z * Z) : M S (step (Z * Z) (Z * Z)) :=
  d ← rd2 days_in_month leap mon;
  if d <=? m then mret (Next (m - d, mon + 1)) else mret (Done (m, mon)).

Definition years_down '((m, year, leap) : Z * Z * Z) : M S (step (Z * Z * Z) (Z * Z * Z)) :=
  l ← rd length_of_year leap;
  if m <? - l then
    let year := year - 1 in
    mret (Next (m + l, year, IS_LEAP year))
  else mret (Done (m, year, leap)).

Definition months_down (leap : Z) '((m, mon) : Z * Z) : M S (step (Z * Z) (Z * Z)) :=
  d ← rd2 days_in_month leap mon;
  if m <? - d then mret (Next (m + d, mon - 1)) else mret (Done (m, mon)).

(** [if (cycles)] *)
Definition skip_cycles (cycles m year : Z) : Z * Z :=
  if negb (cycles =? 0)
  then (m - cycles * days_in_gregorian_cycle, year + cycles * years_in_gregorian_cycle) else (m, year).

(** From the number of days to the year, month and day of the month. *)
Definition split_days (m : Z) : M S (Z * Z * Z * Z) :=
  let year := 70 in
  let '(m, year) := if CHEAT_DAYS <=? m then (m - CHEAT_DAYS, CHEAT_YEARS) else (m, year) in
  if 0 <=? m then
    let cycles := s32 (Z.quot m days_in_gregorian_cycle) in
    let '(m, year) := skip_cycles cycles m year in
    '(m, year, leap) ← loop 403 years_up (m, year, IS_LEAP year);
    '(m, mon) ← loop 13 (months_up leap) (m, 0);
    mret (m, year, leap, mon)
  else
    let year := year - 1 in
    let cycles := s32 (Z.quot m days_in_gregorian_cycle + 1) in
    let '(m, year) := skip_cycles cycles m year in
    '(m, year, leap) ← loop 803 years_down (m, year, IS_LEAP year);
    '(m, mon) ← loop 13 (months_down leap) (m, 11);
    d ← rd2 days_in_month leap mon;
    mret (m + d, year, leap, mon).
End operations.

(** ** gmtime64_r *)

Definition UTC : list Z := [85; 84; 67; 0].

Definition gmtime64_r (in_time : Z) : M tm unit :=
  let time := in_time in
  updS (fun p => Tm (tm_sec p) (tm_min p) (tm_hour p) (tm_mday p) (tm_mon p) (tm_year p) (tm_wday p) (tm_yday p) 0 0 (Some UTC));;
  let v_tm_sec := Z.rem time 60 in
  let time := Z.quot time 60 in
  let v_tm_min := Z.rem time 60 in
  let time := Z.quot time 60 in
  let v_tm_hour := Z.rem time 24 in
  let time := Z.quot time 24 in
  let v_tm_tday := time in
  let '(v_tm_sec, v_tm_min) := WRAP v_tm_sec v_tm_min 60 in
  let '(v_tm_min, v_tm_hour) := WRAP v_tm_min v_tm_hour 60 in
  let '(v_tm_hour, v_tm_tday) := WRAP v_tm_hour v_tm_tday 24 in
  let v_tm_wday := Z.rem (v_tm_tday + 4) 7 in
  let v_tm_wday := if v_tm_wday <? 0 then v_tm_wday + 7 else v_tm_wday in
  '(m, year, leap, v_tm_mon) ← split_days v_tm_tday;
  updS (fun p => with_year p (s32 year));;
  fail_if (negb (s32 year =? year)) EOVERFLOW;;
  j ← rd2 julian_days_by_month leap v_tm_mon;
  updS (fun p => Tm v_tm_sec v_tm_min v_tm_hour (m + 1) v_tm_mon (tm_year p) v_tm_wday (j + m) (tm_isdst p) (tm_gmtoff p) (tm_zone p));;
  p ← getS;
  check_tm p.

(** ** localtime64_r *)

Definition with_yday (d : tm) (yday : Z) : tm :=
  Tm (tm_sec d) (tm_min d) (tm_hour d) (tm_mday d) (tm_mon d) (tm_year d) (tm_wday d) yday (tm_isdst d) (tm_gmtoff d) (tm_zone d).

(** [safe0] and [gm0] are what [safe_date] and [gm_tm] hold before they are written. *)
Definition localtime64_r (localtime_r : Z -> option tm) (safe0 gm0 : tm) (time : Z) : M tm unit :=
  if SHOULD_USE_SYSTEM_LOCALTIME time then
    setS (default safe0 (localtime_r time));;
    local_tm ← getS;
    check_tm local_tm
  else
    '(_, gm_tm) ← on_local gm0 (gmtime64_r time);
    let orig_year := tm_year gm_tm in
    gm_tm ←
      (if (2037 - 1900 <? tm_year gm_tm) || (tm_year gm_tm <? 1970 - 1900) then
         y ← int32 (tm_year gm_tm + 1900);
         y ← safe_year y;
         y ← int32 (y - 1900);
         mret (with_year gm_tm y)
       else mret gm_tm);
    safe_time ← timegm64 gm_tm;
    match localtime_r (s32 safe_time) with
    | None => fail 0
    | Some safe_date =>
        setS safe_date;;
        updS (fun d => with_year d (s32 orig_year));;
        local_tm ← getS;
        fail_if (negb (tm_year local_tm =? orig_year)) EOVERFLOW;;
        month_diff ← int32 (tm_mon local_tm - tm_mon gm_tm);
        y ← (if month_diff =? 11 then int32 (orig_year - 1) else mret orig_year);
        y ← (if month_diff =? -11 then int32 (y + 1) else mret y);
        updS (fun d => with_year d y);;
        leap ← is_leap_int y;
        local_tm ← getS;
        (if (leap =? 0) && (tm_yday local_tm =? 365) then updS (fun d => with_yday d (tm_yday d - 1)) else mret tt);;
        local_tm ← getS;
        check_tm local_tm
    end.

(** ** Copies, and replacements for the reentrant functions *)

(** [memset(p, 0, sizeof( *p))] *)
Definition zero_tm : tm := Tm 0 0 0 0 0 0 0 0 0 0 None.

Definition copy_tm_to_TM (src : option tm) : M tm unit := setS (default zero_tm src).
Definition copy_TM_to_tm (src : option tm) : M tm unit := setS (default zero_tm src).

(** [localtime] and [gmtime] give NULL or the static structure. *)
Definition fake_localtime_r (localtime : Z -> option tm) (clock : Z) : M tm unit :=
  match localtime clock with
  | None => setS zero_tm;; fail 0
  | Some static_result => setS static_result
  end.

Definition fake_gmtime_r (gmtime : Z -> option tm) (clock : Z) : M tm unit :=
  match gmtime clock with
  | None => setS zero_tm;; fail 0
  | Some static_result => setS static_result
  end.

(** ** asctime64_r *)

Definition valid_tm_wday (date : tm) : bool := (0 <=? tm_wday date) && (tm_wday date <=? 6).
Definition valid_tm_mon (date : tm) : bool := (0 <=? tm_mon date) && (tm_mon date <=? 11).

(** ["%3d"] and ["%.2d"] of an [int]. *)
Definition fmt_pad3 (v : Z) : list Z := let t := fmt_int v in replicate (3 - length t) 32 ++ t.
Definition fmt_prec2 (v : Z) : list Z :=
  let t := fmt_d (Z.abs v) in
  (if v <? 0 then [45] else []) ++ replicate (2 - length t) 48 ++ t.

(** The format ["%.3s %.3s%3d %.2d:%.2d:%.2d %d\n"]. *)
Definition asctime_text (wday mon : list Z) (date : tm) (year : Z) : list Z :=
  wday ++ [32] ++ mon ++ fmt_pad3 (tm_mday date) ++ [32] ++ fmt_prec2 (tm_hour date) ++ [58] ++ fmt_prec2 (tm_min date) ++ [58] ++
  fmt_prec2 (tm_sec date) ++ [32] ++ fmt_int year ++ [10].

Definition asctime64_r (date : tm) : M (list Z) unit :=
  if negb (valid_tm_wday date) || negb (valid_tm_mon date) then fail 0
  else
    year ← int32 (1900 + tm_year date);
    if 9999 <? year then fail 0
    else
      wday ← rd wday_name (tm_wday date);
      mon ← rd mon_name (tm_mon date);
      _ ← snprintf 0 26 (asctime_text wday mon date year);
      mret tt.

(** [date0] is what [date] holds before it is written. *)
Definition ctime64_r (localtime_r : Z -> option tm) (safe0 gm0 date0 : tm) (time : Z) : M (list Z) unit := fun result =>
  match localtime64_r localtime_r safe0 gm0 time date0 with
  | (Ret _, date) | (Err _, date) => asctime64_r date result
  | (Undef, _) => (Undef, result)
  | (NoFuel, _) => (NoFuel, result)
  end.

(** ** The functions with static memory *)

Record statics : Type := Statics { Static_Return_Date : tm; Static_Return_String : list Z }.

Definition on_date {A} (m : M tm A) : M statics A :=
  zoom Static_Return_Date (fun d s => Statics d (Static_Return_String s)) m.
Definition on_string {A} (m : M (list Z) A) : M statics A :=
  zoom Static_Return_String (fun b s => Statics (Static_Return_Date s) b) m.

Definition gmtime64 (time : Z) : M statics unit := on_date (gmtime64_r time).
Definition localtime64 (localtime_r : Z -> option tm) (safe0 gm0 : tm) (time : Z) : M statics unit :=
  on_date (localtime64_r localtime_r safe0 gm0 time).

(** A NULL [date] is [None]. *)
Definition asctime64 (date : option tm) : M statics unit :=
  match date with
  | Some date => on_string (asctime64_r date)
  | None => undef
  end.

Definition ctime64 (localtime_r : Z -> option tm) (safe0 gm0 : tm) (time : Z) : M statics unit :=
  r ← try (localtime64 localtime_r safe0 gm0 time);
  s ← getS;
  asctime64 (match r with inl _ => Some (Static_Return_Date s) | inr _ => None end).

(** ** Years and days *)

Definition leap (y : Z) : bool := (y mod 4 =? 0) && (negb (y mod 100 =? 0) || (y mod 400 =? 0)).
Definition b2z (b : bool) : Z := if b then 1 else 0.

(** The days from 1 January 1970 to 1 January of the year [y]. *)
Definition jan1 (y : Z) : Z := 365 * (y - 1970) + ((y - 1) / 4 - (y - 1) / 100 + (y - 1) / 400) - 477.

Definition year_days (y : Z) : Z := 365 + b2z (leap y).

Lemma jan1_next y : jan1 (y + 1) = jan1 y + year_days y.
Proof.
  unfold jan1, year_days, leap, b2z. replace (y + 1 - 1) with y by lia.
  destruct (Z.eqb_spec (y mod 4) 0), (Z.eqb_spec (y mod 100) 0), (Z.eqb_spec (y mod 400) 0); cbn [andb orb negb];
  Z.to_euclidean_division_equations; lia.
Qed.

Lemma jan1_cycle y k : jan1 (y + 400 * k) = jan1 y + k * days_in_gregorian_cycle.
Proof. unfold jan1, days_in_gregorian_cycle. Z.to_euclidean_division_equations; lia. Qed.

Lemma leap_cycle y k : leap (y + 400 * k) = leap y.
Proof.
  unfold leap. replace ((y + 400 * k) mod 4) with (y mod 4) by (Z.to_euclidean_division_equations; lia).
  replace ((y + 400 * k) mod 100) with (y mod 100) by (Z.to_euclidean_division_equations; lia).
  by replace ((y + 400 * k) mod 400) with (y mod 400) by (Z.to_euclidean_division_equations; lia).
Qed.

Lemma jan1_1970 : jan1 1970 = 0.
Proof. reflexivity. Qed.

Lemma IS_LEAP_spec n : IS_LEAP n = b2z (leap (n + 1900)).
Proof.
  unfold IS_LEAP, leap. 
  assert (H : forall k, 0 < k -> (Z.rem (n + 1900) k =? 0) = ((n + 1900) mod k =? 0)).
  { intros k Hk. destruct (Z.eqb_spec (Z.rem (n + 1900) k) 0) as [H|H], (Z.eqb_spec ((n + 1900) mod k) 0) as [H'|H']; try done; exfalso.
    - apply H'. apply Z.mod_divide; [lia|]. apply Z.rem_divide; lia.
    - apply H. apply Z.rem_divide; [lia|]. by apply Z.mod_divide; [lia|]. }
  rewrite !H by lia. destruct (Z.eqb_spec ((n + 1900) mod 400) 0) as [H4|H4].
  - assert ((n + 1900) mod 4 = 0) as -> by (Z.to_euclidean_division_equations; lia). cbn. by rewrite orb_true_r.
  - cbn [orb]. rewrite orb_false_r. by destruct (_ && _).
Qed.

(** ** Months *)

Definition month_len (l : bool) (mon : Z) : Z := default 0 (znth (default [] (znth days_in_month (b2z l))) mon).
Definition month_start (l : bool) (mon : Z) : Z := default 0 (znth (default [] (znth julian_days_by_month (b2z l))) mon).

Lemma month_case (P : Z -> Prop) mon :
  P 0 -> P 1 -> P 2 -> P 3 -> P 4 -> P 5 -> P 6 -> P 7 -> P 8 -> P 9 -> P 10 -> P 11 -> 0 <= mon < 12 -> P mon.
Proof.
  intros. assert (mon = 0 \/ mon = 1 \/ mon = 2 \/ mon = 3 \/ mon = 4 \/ mon = 5 \/ mon = 6 \/ mon = 7 \/ mon = 8 \/ mon = 9 \/ mon = 10 \/ mon = 11)
    as Hm by lia. destruct_or!; by subst.
Qed.

Lemma month_len_range l mon : 0 <= mon < 12 -> 28 <= month_len l mon <= 31.
Proof. intros Hm. pattern mon. apply month_case; [..|exact Hm]; by destruct l. Qed.

(** The months lie one behind the other. *)
Lemma month_start_next l mon : 0 <= mon < 12 -> month_start l mon + month_len l mon = if mon =? 11 then 365 + b2z l else month_start l (mon + 1).
Proof. intros Hm. pattern mon. apply month_case; [..|exact Hm]; by destruct l. Qed.

Lemma month_start_range l mon : 0 <= mon < 12 -> 0 <= month_start l mon /\ month_start l mon + month_len l mon <= 365 + b2z l.
Proof. intros Hm. pattern mon. apply month_case; [..|exact Hm]; by destruct l. Qed.

(** A later month begins behind an earlier one. *)
Lemma month_start_mono l a b : 0 <= a -> a < b -> b < 12 -> month_start l a + month_len l a <= month_start l b.
Proof.
  intros Ha Hab. assert (exists k, b = a + 1 + Z.of_nat k) as [k ->] by (exists (Z.to_nat (b - a - 1)); lia).
  clear Hab. induction k as [|k IH]; intros Hb.
  - rewrite month_start_next by lia. rewrite (proj2 (Z.eqb_neq a 11)) by lia. rewrite Z.add_0_r. done.
  - specialize (IH ltac:(lia)). pose proof (month_start_next l (a + 1 + Z.of_nat k) ltac:(lia)) as Hn.
    rewrite (proj2 (Z.eqb_neq _ 11)) in Hn by lia. replace (a + 1 + Z.of_nat k + 1) with (a + 1 + Z.of_nat (Datatypes.S k)) in Hn by lia.
    pose proof (month_len_range l (a + 1 + Z.of_nat k) ltac:(lia)). lia.
Qed.

Section reads.
Context {S : Type}.
Implicit Types (s : S).

Lemma wp_length_of_year y s (Q : Z -> S -> Prop) E : Q (year_days (y + 1900)) s -> wp (rd length_of_year (IS_LEAP y)) s Q E.
Proof. intros HQ. rewrite IS_LEAP_spec. unfold year_days in HQ. by destruct (leap (y + 1900)). Qed.

Lemma wp_days_in_month l mon s (Q : Z -> S -> Prop) E : 0 <= mon < 12 -> Q (month_len l mon) s -> wp (rd2 days_in_month (b2z l) mon) s Q E.
Proof.
  intros Hm. pattern mon. apply month_case; [..|exact Hm]; destruct l; intros HQ; exact HQ.
Qed.

Lemma wp_julian l mon s (Q : Z -> S -> Prop) E : 0 <= mon < 12 -> Q (month_start l mon) s -> wp (rd2 julian_days_by_month (b2z l) mon) s Q E.
Proof.
  intros Hm. pattern mon. apply month_case; [..|exact Hm]; destruct l; intros HQ; exact HQ.
Qed.

Lemma wp_int32 v s (Q : Z -> S -> Prop) E : - 2 ^ 31 <= v < 2 ^ 31 -> Q v s -> wp (int32 v) s Q E.
Proof. intros Hv HQ. unfold int32. wp_step. wp_step; [lia|]. by wp_step. Qed.

Lemma wp_is_leap_int n s (Q : Z -> S -> Prop) E : - 2 ^ 31 <= n + 1900 < 2 ^ 31 -> Q (b2z (leap (n + 1900))) s -> wp (is_leap_int n) s Q E.
Proof. intros Hn HQ. unfold is_leap_int. wp_step. apply wp_int32; [done|]. wp_step. by rewrite IS_LEAP_spec. Qed.

(** ** The loops over years and months *)

Lemma year_days_range y : 365 <= year_days y <= 366.
Proof. unfold year_days, b2z. destruct (leap y); lia. Qed.

Lemma wp_years_up m0 y0 fuel s (Q : Z * Z * Z -> S -> Prop) E :
  0 <= m0 -> (Z.to_nat (m0 / 365) < fuel)%nat ->
  (forall m y, 0 <= m < year_days (y + 1900) -> jan1 (y + 1900) + m = jan1 (y0 + 1900) + m0 -> Q (m, y, b2z (leap (y + 1900))) s) ->
  wp (loop fuel years_up (m0, y0, IS_LEAP y0)) s Q E.
Proof.
  intros H0 Hf HQ.
  apply (wp_loop (fun '(m, y, lp) s' => s' = s /\ 0 <= m /\ lp = IS_LEAP y /\ jan1 (y + 1900) + m = jan1 (y0 + 1900) + m0)
    (fun '(m, _, _) _ => Z.to_nat (m / 365))); [done|done|].
  intros [[m y] lp] s' (-> & Hm & -> & Hj). unfold years_up. wp_step. apply wp_length_of_year. pose proof (year_days_range (y + 1900)).
  destruct (Z.leb_spec (year_days (y + 1900)) m) as [Hle|Hgt]; wp_step.
  - split.
    + split; [done|]. split; [lia|]. split; [done|]. replace (y + 1 + 1900) with (y + 1900 + 1) by lia. rewrite jan1_next. lia.
    + assert ((m - year_days (y + 1900)) / 365 < m / 365) by (Z.to_euclidean_division_equations; lia).
      assert (0 <= (m - year_days (y + 1900)) / 365) by (apply Z.div_pos; lia). lia.
  - rewrite IS_LEAP_spec. apply HQ; [lia|done].
Qed.

Lemma wp_years_down m0 y0 fuel s (Q : Z * Z * Z -> S -> Prop) E :
  m0 < 0 -> (Z.to_nat (- m0 / 365) < fuel)%nat ->
  (forall m y, - year_days (y + 1900) <= m < 0 -> jan1 (y + 1900 + 1) + m = jan1 (y0 + 1900 + 1) + m0 -> Q (m, y, b2z (leap (y + 1900))) s) ->
  wp (loop fuel years_down (m0, y0, IS_LEAP y0)) s Q E.
Proof.
  intros H0 Hf HQ.
  apply (wp_loop (fun '(m, y, lp) s' => s' = s /\ m < 0 /\ lp = IS_LEAP y /\ jan1 (y + 1900 + 1) + m = jan1 (y0 + 1900 + 1) + m0)
    (fun '(m, _, _) _ => Z.to_nat (- m / 365))); [done|done|].
  intros [[m y] lp] s' (-> & Hm & -> & Hj). unfold years_down. wp_step. apply wp_length_of_year. pose proof (year_days_range (y + 1900)).
  destruct (Z.ltb_spec m (- year_days (y + 1900))) as [Hle|Hgt]; wp_step.
  - split.
    + split; [done|]. split; [lia|]. split; [done|]. replace (y - 1 + 1900 + 1) with (y + 1900) by lia. rewrite jan1_next in Hj. lia.
    + assert (- (m + year_days (y + 1900)) / 365 < - m / 365) by (Z.to_euclidean_division_equations; lia).
      assert (0 <= - (m + year_days (y + 1900)) / 365) by (apply Z.div_pos; lia). lia.
  - rewrite IS_LEAP_spec. apply HQ; [lia|done].
Qed.

Lemma wp_months_up l m0 s (Q : Z * Z -> S -> Prop) E :
  0 <= m0 < 365 + b2z l ->
  (forall m mon, 0 <= mon < 12 -> 0 <= m < month_len l mon -> month_start l mon + m = m0 -> Q (m, mon) s) ->
  wp (loop 13 (months_up (b2z l)) (m0, 0)) s Q E.
Proof.
  intros H0 HQ.
  apply (wp_loop (fun '(m, mon) s' => s' = s /\ 0 <= m /\ 0 <= mon < 12 /\ month_start l mon + m = m0) (fun '(_, mon) _ => Z.to_nat (12 - mon))).
  - split; [done|]. split; [lia|]. split; [lia|]. by destruct l.
  - cbn. lia.
  - intros [m mon] s' (-> & Hm & Hmon & Hj). unfold months_up. wp_step. apply wp_days_in_month; [done|].
    pose proof (month_start_next l mon Hmon) as Hn. destruct (Z.leb_spec (month_len l mon) m) as [Hle|Hgt]; wp_step; [|by apply HQ].
    destruct (Z.eqb_spec mon 11); [lia|]. split; [|lia]. split; [done|]. lia.
Qed.

Lemma wp_months_down l m0 s (Q : Z * Z -> S -> Prop) E :
  - (365 + b2z l) <= m0 < 0 ->
  (forall m mon, 0 <= mon < 12 -> - month_len l mon <= m < 0 -> month_start l mon + month_len l mon + m = 365 + b2z l + m0 -> Q (m, mon) s) ->
  wp (loop 13 (months_down (b2z l)) (m0, 11)) s Q E.
Proof.
  intros H0 HQ.
  apply (wp_loop (fun '(m, mon) s' => s' = s /\ m < 0 /\ 0 <= mon < 12 /\ month_start l mon + month_len l mon + m = 365 + b2z l + m0)
    (fun '(_, mon) _ => Z.to_nat (mon + 1))).
  - split; [done|]. split; [lia|]. split; [lia|]. by destruct l.
  - cbn. lia.
  - intros [m mon] s' (-> & Hm & Hmon & Hj). unfold months_down. wp_step. apply wp_days_in_month; [done|].
    destruct (Z.ltb_spec m (- month_len l mon)) as [Hle|Hgt]; wp_step; [|apply HQ; [done|lia|done]].
    assert (mon <> 0) by (intros ->; assert (month_start l 0 = 0) by (by destruct l); lia).
    pose proof (month_start_next l (mon - 1) ltac:(lia)) as Hn. rewrite (proj2 (Z.eqb_neq _ 11)) in Hn by lia.
    replace (mon - 1 + 1) with mon in Hn by lia. split; [|lia]. split; [done|]. lia.
Qed.
End reads.

(** ** The date of a day *)

(** The day [m] days after 1 January 1970 is the day [d], counted from 0, of the month [mon] of [year]. *)
Definition day_is (m d year mon : Z) : Prop :=
  0 <= mon < 12 /\ 0 <= d < month_len (leap (year + 1900)) mon /\
  jan1 (year + 1900) + month_start (leap (year + 1900)) mon + d = m.

Lemma skip_cycles_spec c m y : skip_cycles c m y = (m - c * days_in_gregorian_cycle, y + 400 * c).
Proof. unfold skip_cycles. destruct (Z.eqb_spec c 0) as [->|Hc]; cbn [negb]; f_equal; unfold years_in_gregorian_cycle; lia. Qed.

Section split.
Context {S : Type}.
Implicit Types (s : S).

Lemma wp_split_up m y s (Q : Z * Z * Z * Z -> S -> Prop) E :
  0 <= m < 2 ^ 47 ->
  (forall d y' mon, day_is (jan1 (y + 1900) + m) d y' mon -> Q (d, y', b2z (leap (y' + 1900)), mon) s) ->
  wp (let cycles := s32 (Z.quot m days_in_gregorian_cycle) in
      let '(m, year) := skip_cycles cycles m y in
      '(m, year, leap) ← loop 403 years_up (m, year, IS_LEAP year);
      '(m, mon) ← loop 13 (months_up leap) (m, 0);
      mret (m, year, leap, mon)) s Q E.
Proof.
  intros Hm HQ. cbv zeta. rewrite Z.quot_div_nonneg by (unfold days_in_gregorian_cycle; lia).
  assert (Hc : 0 <= m / days_in_gregorian_cycle < 2 ^ 31) by (unfold days_in_gregorian_cycle; Z.to_euclidean_division_equations; lia).
  rewrite s32_id, skip_cycles_spec by lia. set (c := m / days_in_gregorian_cycle) in *.
  assert (Hr : 0 <= m - c * days_in_gregorian_cycle < days_in_gregorian_cycle) by (unfold c, days_in_gregorian_cycle; Z.to_euclidean_division_equations; lia).
  wp_step. apply wp_years_up; [lia| |].
  { assert ((m - c * days_in_gregorian_cycle) / 365 <= 400); [|lia]. unfold days_in_gregorian_cycle in *. Z.to_euclidean_division_equations; lia. }
  intros m' y' Hm' Hj. wp_step. apply wp_months_up; [exact Hm'|]. intros d mon Hmon Hd Hs. wp_step. apply HQ.
  split; [done|]. split; [done|]. replace (y + 400 * c + 1900) with (y + 1900 + 400 * c) in Hj by lia. rewrite jan1_cycle in Hj. lia.
Qed.

Lemma wp_split_down m s (Q : Z * Z * Z * Z -> S -> Prop) E :
  - 2 ^ 47 < m < 0 ->
  (forall d y' mon, day_is m d y' mon -> Q (d, y', b2z (leap (y' + 1900)), mon) s) ->
  wp (let year := 70 - 1 in
      let cycles := s32 (Z.quot m days_in_gregorian_cycle + 1) in
      let '(m, year) := skip_cycles cycles m year in
      '(m, year, leap) ← loop 803 years_down (m, year, IS_LEAP year);
      '(m, mon) ← loop 13 (months_down leap) (m, 11);
      d ← rd2 days_in_month leap mon;
      mret (m + d, year, leap, mon)) s Q E.
Proof.
  intros Hm HQ. cbv zeta. assert (Hq : Z.quot m days_in_gregorian_cycle = - (- m / days_in_gregorian_cycle)).
  { rewrite <- (Z.opp_involutive m) at 1. rewrite Z.quot_opp_l by done. rewrite Z.quot_div_nonneg by (unfold days_in_gregorian_cycle; lia). done. }
  rewrite Hq. clear Hq. assert (Hc : 0 <= - m / days_in_gregorian_cycle < 2 ^ 31 - 1) by (unfold days_in_gregorian_cycle; Z.to_euclidean_division_equations; lia).
  rewrite s32_id, skip_cycles_spec by lia. set (c := - (- m / days_in_gregorian_cycle) + 1).
  assert (Hr : - 2 * days_in_gregorian_cycle < m - c * days_in_gregorian_cycle < 0) by (unfold c, days_in_gregorian_cycle; Z.to_euclidean_division_equations; lia).
  wp_step. apply wp_years_down; [lia| |].
  { assert (- (m - c * days_in_gregorian_cycle) / 365 <= 801); [|lia]. unfold days_in_gregorian_cycle in *. Z.to_euclidean_division_equations; lia. }
  intros m' y' Hm' Hj. unfold year_days in Hm'. wp_step. apply wp_months_down; [lia|]. intros d mon Hmon Hd Hs. wp_step.
  apply wp_days_in_month; [done|]. wp_step. apply HQ. split; [done|]. split; [lia|].
  replace (70 - 1 + 400 * c + 1900 + 1) with (1970 + 400 * c) in Hj by lia. rewrite jan1_cycle, jan1_1970, jan1_next in Hj. unfold year_days in Hj. lia.
Qed.

Lemma wp_split_days m s (Q : Z * Z * Z * Z -> S -> Prop) E :
  - 2 ^ 47 < m < 2 ^ 47 ->
  (forall d y mon, day_is m d y mon -> Q (d, y, b2z (leap (y + 1900)), mon) s) -> wp (split_days m) s Q E.
Proof.
  intros Hm HQ. unfold split_days. cbv zeta. assert (HC : CHEAT_DAYS = 13879) by done. destruct (Z.leb_spec CHEAT_DAYS m) as [Hc|Hc].
  - rewrite (proj2 (Z.leb_le 0 _)) by lia. apply (wp_split_up _ CHEAT_YEARS); [lia|]. intros d y mon Hd. apply HQ.
    replace (jan1 (CHEAT_YEARS + 1900)) with CHEAT_DAYS in Hd by done. by replace (CHEAT_DAYS + (m - CHEAT_DAYS)) with m in Hd by lia.
  - destruct (Z.leb_spec 0 m) as [H0|H0]; [|apply wp_split_down; [lia|exact HQ]].
    apply (wp_split_up _ 70); [lia|]. intros d y mon Hd. apply HQ. by replace (jan1 (70 + 1900) + m) with m in Hd by (change (jan1 (70 + 1900)) with 0; lia).
Qed.
End split.

(** ** Dates *)

Definition stamp (d : tm) : Z :=
  86400 * (jan1 (tm_year d + 1900) + month_start (leap (tm_year d + 1900)) (tm_mon d) + (tm_mday d - 1)) +
  3600 * tm_hour d + 60 * tm_min d + tm_sec d.

(** [d] is the date and the time of day [t] seconds after the beginning of 1970. *)
Record civil (t : Z) (d : tm) : Prop := Civil {
  cv_sec : 0 <= tm_sec d < 60;
  cv_min : 0 <= tm_min d < 60;
  cv_hour : 0 <= tm_hour d < 24;
  cv_mon : 0 <= tm_mon d < 12;
  cv_mday : 1 <= tm_mday d <= month_len (leap (tm_year d + 1900)) (tm_mon d);
  cv_stamp : stamp d = t;
  cv_yday : tm_yday d = month_start (leap (tm_year d + 1900)) (tm_mon d) + (tm_mday d - 1);
  cv_wday : tm_wday d = (t / 86400 + 4) mod 7 }.

Definition split_time (time : Z) : Z * Z * Z * Z :=
  let v_tm_sec := Z.rem time 60 in
  let time := Z.quot time 60 in
  let v_tm_min := Z.rem time 60 in
  let time := Z.quot time 60 in
  let v_tm_hour := Z.rem time 24 in
  let time := Z.quot time 24 in
  let v_tm_tday := time in
  let '(v_tm_sec, v_tm_min) := WRAP v_tm_sec v_tm_min 60 in
  let '(v_tm_min, v_tm_hour) := WRAP v_tm_min v_tm_hour 60 in
  let '(v_tm_hour, v_tm_tday) := WRAP v_tm_hour v_tm_tday 24 in
  (v_tm_sec, v_tm_min, v_tm_hour, v_tm_tday).

Lemma split_time_parts t : exists s m h d, split_time t = (s, m, h, d) /\
  0 <= s < 60 /\ 0 <= m < 60 /\ 0 <= h < 24 /\ 86400 * d + 3600 * h + 60 * m + s = t.
Proof.
  unfold split_time, WRAP. cbv zeta.
  pose proof (Z.quot_rem' t 60) as H1. pose proof (Z.quot_rem' (Z.quot t 60) 60) as H2. pose proof (Z.quot_rem' (Z.quot (Z.quot t 60) 60) 24) as H3.
  set (q1 := Z.quot t 60) in *. set (q2 := Z.quot q1 60) in *. set (q3 := Z.quot q2 24) in *.
  assert (Hr : forall a b, 0 < b -> - b < Z.rem a b < b) by (intros a b Hb; pose proof (Z.rem_bound_abs a b ltac:(lia)); lia).
  pose proof (Hr t 60 ltac:(lia)). pose proof (Hr q1 60 ltac:(lia)). pose proof (Hr q2 24 ltac:(lia)).
  set (r1 := Z.rem t 60) in *. set (r2 := Z.rem q1 60) in *. set (r3 := Z.rem q2 24) in *.
  destruct (Z.ltb_spec r1 0); cbn beta iota; match goal with |- context [?x <? 0] => destruct (Z.ltb_spec x 0) end; cbn beta iota;
    match goal with |- context [?x <? 0] => destruct (Z.ltb_spec x 0) end; cbn beta iota;
    do 4 eexists; (split; [reflexivity|]); lia.
Qed.

Lemma split_time_spec t : exists s m h, split_time t = (s, m, h, t / 86400) /\
  0 <= s < 60 /\ 0 <= m < 60 /\ 0 <= h < 24 /\ 86400 * (t / 86400) + 3600 * h + 60 * m + s = t.
Proof.
  destruct (split_time_parts t) as (s & m & h & d & -> & Hs & Hm & Hh & Ht).
  assert (Hd : t / 86400 = d) by (rewrite <- Ht; Z.to_euclidean_division_equations; lia). rewrite Hd. by exists s, m, h.
Qed.

Lemma civil_of_day t s m h d year mon isdst gmtoff zone :
  0 <= s < 60 -> 0 <= m < 60 -> 0 <= h < 24 -> 86400 * (t / 86400) + 3600 * h + 60 * m + s = t -> day_is (t / 86400) d year mon ->
  civil t (Tm s m h (d + 1) mon year ((t / 86400 + 4) mod 7) (month_start (leap (year + 1900)) mon + d) isdst gmtoff zone).
Proof.
  intros Hs Hm Hh Ht (Hmon & Hd & Hj). constructor; cbn [tm_sec tm_min tm_hour tm_mday tm_mon tm_year tm_wday tm_yday]; try done; [lia| |lia].
  unfold stamp. cbn [tm_sec tm_min tm_hour tm_mday tm_mon tm_year]. replace (d + 1 - 1) with d by lia. rewrite Hj. exact Ht.
Qed.

(** What [check_tm] asks for holds of dates. *)
Lemma wp_check_tm {S} t d (s : S) (Q : unit -> S -> Prop) E :
  civil t d -> - 2 ^ 31 <= tm_year d + 1900 < 2 ^ 31 -> -86400 <= tm_gmtoff d <= 86400 -> Q tt s -> wp (check_tm d) s Q E.
Proof.
  intros [Hs Hm Hh Hmon Hmd _ Hyd Hwd] Hy Hg HQ. unfold check_tm, between.
  pose proof (month_start_range (leap (tm_year d + 1900)) (tm_mon d) Hmon) as [Hms Hme].
  assert (Hw : 0 <= tm_wday d < 7) by (rewrite Hwd; apply Z.mod_pos_bound; lia).
  wp_step. wp_step; [lia|]. wp_step. wp_step; [lia|]. wp_step. wp_step; [lia|]. wp_step. wp_step; [lia|].
  wp_step. apply wp_is_leap_int; [done|]. wp_step. apply wp_days_in_month; [done|]. wp_step. wp_step; [lia|]. wp_step. wp_step; [lia|].
  wp_step. wp_step; [lia|]. wp_step. wp_step; [lia|]. wp_step. rewrite <- IS_LEAP_spec. apply wp_length_of_year. unfold year_days.
  wp_step. wp_step; [lia|]. wp_step; [lia|]. done.
Qed.

Lemma wday_wrap m : (let w := Z.rem (m + 4) 7 in if w <? 0 then w + 7 else w) = (m + 4) mod 7.
Proof. cbv zeta. destruct (Z.ltb_spec (Z.rem (m + 4) 7) 0); Z.to_euclidean_division_equations; lia. Qed.

(** The year of a day, and which days have a year below a bound. *)
Lemma jan1_mono a b : a <= b -> jan1 a <= jan1 b.
Proof.
  intros Hab. assert (exists k, b = a + Z.of_nat k) as [k ->] by (exists (Z.to_nat (b - a)); lia). clear Hab.
  induction k as [|k IH]; [rewrite Z.add_0_r; lia|]. replace (a + Z.of_nat (Datatypes.S k)) with (a + Z.of_nat k + 1) by lia.
  rewrite jan1_next. pose proof (year_days_range (a + Z.of_nat k)). lia.
Qed.

Lemma day_is_year m d y mon a : day_is m d y mon -> (jan1 (a + 1900) <= m <-> a <= y).
Proof.
  intros (Hmon & Hd & Hj). pose proof (month_start_range (leap (y + 1900)) mon Hmon) as [Hms Hme]. split; intros H.
  - destruct (Z.le_gt_cases a y) as [|Hgt]; [done|]. pose proof (jan1_mono (y + 1900 + 1) (a + 1900) ltac:(lia)) as Hm.
    rewrite jan1_next in Hm. unfold year_days in Hm. lia.
  - pose proof (jan1_mono (a + 1900) (y + 1900) ltac:(lia)). lia.
Qed.

(** ** gmtime64_r *)

(** The times whose year fits [tm_year] and, counted from 0, an [int]; and those whose year does not fit [tm_year]. *)
Definition representable (t : Z) : Prop := 86400 * jan1 (1900 - 2 ^ 31) <= t < 86400 * jan1 (2 ^ 31).
Definition overflows (t : Z) : Prop := t < 86400 * jan1 (1900 - 2 ^ 31) \/ 86400 * jan1 (1900 + 2 ^ 31) <= t.

Lemma year_range t d y mon a : day_is (t / 86400) d y mon -> (86400 * jan1 (a + 1900) <= t <-> a <= y).
Proof. intros Hd. rewrite <- (day_is_year _ _ _ _ a Hd). Z.to_euclidean_division_equations; lia. Qed.

Section gmtime.
Context (t : Z) (Ht : - 2 ^ 63 <= t < 2 ^ 63).

(** The year is computed right whether it fits or not. *)
Lemma wp_gmtime_split p (Q : unit -> tm -> Prop) E :
  (forall s m h d mon year, 0 <= s < 60 -> 0 <= m < 60 -> 0 <= h < 24 -> 86400 * (t / 86400) + 3600 * h + 60 * m + s = t ->
     day_is (t / 86400) d year mon ->
     wp (updS (fun p => with_year p (s32 year));;
         fail_if (negb (s32 year =? year)) EOVERFLOW;;
         j ← rd2 julian_days_by_month (b2z (leap (year + 1900))) mon;
         updS (fun p => Tm s m h (d + 1) mon (tm_year p) ((t / 86400 + 4) mod 7) (j + d) (tm_isdst p) (tm_gmtoff p) (tm_zone p));;
         p ← getS;
         check_tm p)
       (Tm (tm_sec p) (tm_min p) (tm_hour p) (tm_mday p) (tm_mon p) (tm_year p) (tm_wday p) (tm_yday p) 0 0 (Some UTC)) Q E) ->
  wp (gmtime64_r t) p Q E.
Proof.
  intros HQ. unfold gmtime64_r. cbv zeta. destruct (split_time_spec t) as (s & m & h & Hsp & Hs & Hm & Hh & Heq).
  unfold split_time in Hsp. cbv zeta in Hsp. wp_step. wp_step.
  destruct (WRAP (Z.rem t 60) _ 60) as [s1 m1]. destruct (WRAP m1 _ 60) as [m2 h1]. destruct (WRAP h1 _ 24) as [h2 d2].
  injection Hsp as -> -> -> ->. wp_step. apply wp_split_days; [Z.to_euclidean_division_equations; lia|].
  intros d y mon Hd. specialize (HQ s m h d mon y Hs Hm Hh Heq Hd). rewrite <- wday_wrap in HQ. exact HQ.
Qed.

Lemma wp_gmtime64_r p (Q : unit -> tm -> Prop) E :
  representable t ->
  (forall p', civil t p' -> tm_isdst p' = 0 -> tm_gmtoff p' = 0 -> tm_zone p' = Some UTC ->
     - 2 ^ 31 <= tm_year p' -> tm_year p' + 1900 < 2 ^ 31 -> Q tt p') ->
  wp (gmtime64_r t) p Q E.
Proof.
  intros [Hlo Hhi] HQ. apply wp_gmtime_split. intros s m h d mon y Hs Hm Hh Heq Hd.
  pose proof (year_range _ _ _ _ (- 2 ^ 31) Hd) as H1. pose proof (year_range _ _ _ _ (2 ^ 31 - 1900) Hd) as H2.
  replace (- 2 ^ 31 + 1900) with (1900 - 2 ^ 31) in H1 by lia. replace (2 ^ 31 - 1900 + 1900) with (2 ^ 31) in H2 by lia.
  assert (Hy : - 2 ^ 31 <= y < 2 ^ 31 - 1900) by lia. clear H1 H2 Hlo Hhi.
  wp_step. wp_step. rewrite s32_id by lia. unfold fail_if at 1. rewrite Z.eqb_refl. cbn [negb]. wp_step. wp_step. wp_step. apply wp_julian; [by destruct Hd|]. wp_step. wp_step. wp_step. wp_step.
  cbn [tm_year tm_isdst tm_gmtoff tm_zone with_year].
  pose proof (civil_of_day t s m h d y mon 0 0 (Some UTC) Hs Hm Hh Heq Hd) as Hc.
  apply (wp_check_tm t); [exact Hc|cbn; lia|cbn; lia|]. apply HQ; try done; cbn; lia.
Qed.

Lemma wp_gmtime64_r_overflow p (Q : unit -> tm -> Prop) (E : Z -> tm -> Prop) :
  overflows t -> (forall p', E EOVERFLOW p') -> wp (gmtime64_r t) p Q E.
Proof.
  intros Ho HE. apply wp_gmtime_split. intros s m h d mon y Hs Hm Hh Heq Hd.
  pose proof (year_range _ _ _ _ (- 2 ^ 31) Hd) as H1. pose proof (year_range _ _ _ _ (2 ^ 31) Hd) as H2.
  replace (- 2 ^ 31 + 1900) with (1900 - 2 ^ 31) in H1 by lia. replace (2 ^ 31 + 1900) with (1900 + 2 ^ 31) in H2 by lia.
  assert (Hy : y < - 2 ^ 31 \/ 2 ^ 31 <= y) by (destruct Ho; lia).
  assert (Hs32 : s32 y <> y) by (unfold s32; pose proof (Z.mod_pos_bound (y + 2 ^ 31) (2 ^ 32) ltac:(lia)); lia).
  wp_step. wp_step. rewrite (proj2 (Z.eqb_neq _ _) Hs32). wp_step. unfold fail_if. wp_step. apply HE.
Qed.
End gmtime.

(** In the last 1900 years of an [int] the check of the result overflows. *)
Lemma gmtime64_r_last_years p :
  fst (gmtime64_r (86400 * jan1 (2 ^ 31)) p) = Undef /\ fst (gmtime64_r (86400 * jan1 (1900 + 2 ^ 31) - 1) p) = Undef.
Proof. split; reflexivity. Qed.

(** ** timegm64 *)

Section timegm.
Context {S : Type}.
Implicit Types (s : S).

Lemma wp_timegm_up orig days s (Q : Z -> S -> Prop) E :
  70 <= orig < 500 -> Q (days + jan1 (orig + 1900)) s -> wp (loop 431 (timegm_up orig) (days, 70)) s Q E.
Proof.
  intros Ho HQ. apply (wp_loop (fun '(x, y) s' => s' = s /\ 70 <= y <= orig /\ x = days + jan1 (y + 1900)) (fun '(_, y) _ => Z.to_nat (orig - y))).
  - split; [done|]. split; [lia|]. change (jan1 (70 + 1900)) with 0. lia.
  - lia.
  - intros [x y] s' (-> & Hy & ->). unfold timegm_up. destruct (Z.ltb_spec y orig) as [Hlt|Hge].
    + wp_step. apply wp_length_of_year. wp_step. split; [|lia]. split; [done|]. split; [lia|].
      replace (y + 1 + 1900) with (y + 1900 + 1) by lia. rewrite jan1_next. lia.
    + wp_step. by replace y with orig in * by lia.
Qed.

Lemma wp_timegm_down orig days s (Q : Z -> S -> Prop) E :
  -300 <= orig < 70 -> Q (days + jan1 (orig + 1900)) s -> wp (loop 431 (timegm_down orig) (days, 69)) s Q E.
Proof.
  intros Ho HQ. apply (wp_loop (fun '(x, y) s' => s' = s /\ orig <= y <= 69 /\ x = days + jan1 (y + 1900 + 1)) (fun '(_, y) _ => Z.to_nat (y - orig))).
  - split; [done|]. split; [lia|]. change (jan1 (69 + 1900 + 1)) with 0. lia.
  - lia.
  - intros [x y] s' (-> & Hy & ->). unfold timegm_down. cbv zeta. wp_step. apply wp_length_of_year. rewrite jan1_next.
    replace (days + (jan1 (y + 1900) + year_days (y + 1900)) - year_days (y + 1900)) with (days + jan1 (y + 1900)) by lia.
    destruct (Z.leb_spec orig (y - 1)) as [Hle|Hgt].
    + wp_step. split; [|lia]. split; [done|]. split; [lia|]. by replace (y - 1 + 1900 + 1) with (y + 1900) by lia.
    + wp_step. by replace y with orig in * by lia.
Qed.

(** What [timegm64] does with the fields: they only have to be small enough for the products in [int]. *)
Definition small_fields (d : tm) : Prop :=
  0 <= tm_mon d < 12 /\ - 2 ^ 31 <= tm_year d < 2 ^ 31 /\ - 2 ^ 31 <= tm_mday d - 1 < 2 ^ 31 /\
  - 2 ^ 31 <= 3600 * tm_hour d < 2 ^ 31 /\ - 2 ^ 31 <= 60 * tm_min d < 2 ^ 31.

Lemma wp_timegm64 d s (Q : Z -> S -> Prop) E : small_fields d -> Q (stamp d) s -> wp (timegm64 d) s Q E.
Proof.
  intros (Hmon & Hy & Hmd & Hh & Hm) HQ. unfold timegm64. cbv zeta.
  assert (Hred : wp (if (100 <? tm_year d) || (tm_year d <? -300) then
       years ← int32 (s32 (Z.quot (tm_year d - 100) 400) * 400);
       mret (tm_year d - years, s32 (Z.quot (tm_year d - 100) 400) * days_in_gregorian_cycle)
     else mret (tm_year d, 0)) s (fun '(o, x) s' => s' = s /\ -300 <= o < 500 /\ exists k, tm_year d = o + 400 * k /\ x = k * days_in_gregorian_cycle) E).
  { destruct ((100 <? tm_year d) || (tm_year d <? -300)) eqn:Hc.
    - assert (Hq : - 2 ^ 31 <= Z.quot (tm_year d - 100) 400 < 2 ^ 31) by (Z.to_euclidean_division_equations; lia). rewrite s32_id by done.
      wp_step. apply wp_int32; [Z.to_euclidean_division_equations; lia|]. wp_step. split; [done|].
      split; [apply orb_true_iff in Hc as [?%Z.ltb_lt|?%Z.ltb_lt]; Z.to_euclidean_division_equations; lia|]. eexists. split; [|reflexivity]. lia.
    - wp_step. split; [done|]. split; [lia|]. exists 0. lia. }
  wp_step. eapply wp_mono; [exact Hred| |done]. clear Hred. intros [o x] s' (-> & Ho & k & Hk & ->). wp_step.
  assert (Hyears : forall Q', Q' (jan1 (tm_year d + 1900)) s -> wp (if 70 <? o then loop 431 (timegm_up o) (k * days_in_gregorian_cycle, 70)
      else if o <? 70 then loop 431 (timegm_down o) (k * days_in_gregorian_cycle, 69) else mret (k * days_in_gregorian_cycle)) s Q' E).
  { intros Q' HQ'. replace (tm_year d + 1900) with (o + 1900 + 400 * k) in HQ' by lia. rewrite jan1_cycle in HQ'.
    destruct (Z.ltb_spec 70 o); [apply wp_timegm_up; [lia|]; by rewrite Z.add_comm|].
    destruct (Z.ltb_spec o 70); [apply wp_timegm_down; [lia|]; by rewrite Z.add_comm|].
    wp_step. by replace o with 70 in HQ' by lia. }
  apply Hyears. wp_step. rewrite IS_LEAP_spec.
  replace (leap (o + 1900)) with (leap (tm_year d + 1900)) by (rewrite Hk; replace (o + 400 * k + 1900) with (o + 1900 + 400 * k) by lia; apply leap_cycle).
  apply wp_julian; [done|]. wp_step. apply wp_int32; [done|]. wp_step. apply wp_int32; [lia|]. wp_step. apply wp_int32; [lia|].
  wp_step. apply wp_int32; [lia|]. wp_step. unfold stamp in HQ. match goal with |- Q ?x s => match type of HQ with Q ?y s => replace x with y by lia end end. exact HQ.
Qed.
End timegm.

(** ** Safe years *)

(** [safe] has the calendar of the year [y], and so have the years before. *)
Definition same_calendar (y safe : Z) : Prop :=
  leap safe = leap y /\ (jan1 safe - jan1 y) mod 7 = 0 /\ leap (safe - 1) = leap (y - 1).

Definition safe_of (y : Z) : Z :=
  if between MIN_SAFE_YEAR y MAX_SAFE_YEAR then y
  else default 0 (znth (if y <? MIN_SAFE_YEAR then safe_years_low else safe_years_high) (year_cycle y)).

Definition safe_check (y : Z) : bool :=
  (0 <=? year_cycle y) && (year_cycle y <? 28) && between MIN_SAFE_YEAR (safe_of y) MAX_SAFE_YEAR &&
  Bool.eqb (leap (safe_of y)) (leap y) && ((jan1 (safe_of y) - jan1 y) mod 7 =? 0) && Bool.eqb (leap (safe_of y - 1)) (leap (y - 1)).

Definition raw_cycle (year : Z) : Z :=
  let c := year + cycle_offset year in
  let c := if year <? MIN_SAFE_YEAR then c - 8 else c in
  let c := if is_exception_century year then c + 11 else c in
  if is_exception_century (year - 1) then c + 17 else c.

Lemma year_cycle_mod y : year_cycle y = raw_cycle y mod 28.
Proof.
  unfold year_cycle. cbv zeta. fold (raw_cycle y). unfold SOLAR_CYCLE_LENGTH.
  destruct (Z.ltb_spec (Z.rem (raw_cycle y) 28) 0); Z.to_euclidean_division_equations; lia.
Qed.

Lemma exception_cycle y k : is_exception_century (y + 400 * k) = is_exception_century y.
Proof.
  assert (H : forall x n, 0 < n -> (Z.rem x n =? 0) = (x mod n =? 0)).
  { intros x n Hn. destruct (Z.eqb_spec (Z.rem x n) 0) as [H|H], (Z.eqb_spec (x mod n) 0) as [H'|H']; try done; exfalso.
    - apply H'. apply Z.mod_divide; [lia|]. apply Z.rem_divide; lia.
    - apply H. apply Z.rem_divide; [lia|]. by apply Z.mod_divide; [lia|]. }
  unfold is_exception_century. rewrite !H by lia.
  replace ((y + 400 * k) mod 100) with (y mod 100) by (Z.to_euclidean_division_equations; lia).
  by replace ((y + 400 * k) mod 400) with (y mod 400) by (Z.to_euclidean_division_equations; lia).
Qed.

(** 400 years later, and 400 years earlier, the cycle is at the same place. *)
Lemma raw_cycle_shift y k : (2000 < y /\ 0 <= k) \/ (y <= 1970 /\ k <= 0) -> raw_cycle (y + 400 * k) = raw_cycle y + 448 * k.
Proof.
  intros Hy. unfold raw_cycle. rewrite exception_cycle. replace (y + 400 * k - 1) with (y - 1 + 400 * k) by lia. rewrite exception_cycle.
  assert (Ho : cycle_offset (y + 400 * k) = cycle_offset y + 48 * k).
  { unfold cycle_offset. cbv zeta. destruct (Z.ltb_spec 2000 (y + 400 * k)), (Z.ltb_spec 2000 y); try lia; Z.to_euclidean_division_equations; lia. }
  rewrite Ho. unfold MIN_SAFE_YEAR. cbv zeta. destruct (Z.ltb_spec (y + 400 * k) 1971), (Z.ltb_spec y 1971); try lia;
    destruct (is_exception_century y), (is_exception_century (y - 1)); lia.
Qed.

Lemma safe_check_shift y k : (2037 < y /\ 0 <= k) \/ (y <= 1970 /\ k <= 0) -> safe_check (y + 400 * k) = safe_check y.
Proof.
  intros Hy. assert (Hc : year_cycle (y + 400 * k) = year_cycle y).
  { rewrite !year_cycle_mod, raw_cycle_shift by lia. replace (448 * k) with (16 * k * 28) by lia. apply Z.mod_add. lia. }
  assert (Hs : safe_of (y + 400 * k) = safe_of y).
  { unfold safe_of, between, MIN_SAFE_YEAR, MAX_SAFE_YEAR. rewrite Hc.
    destruct (Z.leb_spec 1971 (y + 400 * k)), (Z.leb_spec (y + 400 * k) 2037), (Z.leb_spec 1971 y), (Z.leb_spec y 2037); try lia; cbn [andb];
    destruct (Z.ltb_spec (y + 400 * k) 1971), (Z.ltb_spec y 1971); try lia; done. }
  unfold safe_check. rewrite Hs, Hc, leap_cycle. replace (y + 400 * k - 1) with (y - 1 + 400 * k) by lia. rewrite leap_cycle, jan1_cycle.
  do 2 f_equal. f_equal. unfold days_in_gregorian_cycle. replace (jan1 (safe_of y) - (jan1 y + k * (365 * 400 + 100 - 4 + 1))) with (jan1 (safe_of y) - jan1 y + (- 20871 * k) * 7) by lia.
  apply Z.mod_add. lia.
Qed.

Lemma safe_check_all y : ~ (1971 <= y <= 2037) -> safe_check y = true.
Proof.
  intros Hy.
  assert (Hfin : forall a, forallb safe_check (map (fun n => a + Z.of_nat n) (seq 0 400)) = true -> forall x, a <= x < a + 400 -> safe_check x = true).
  { intros a H x Hx. rewrite forallb_forall in H. apply H, in_map_iff. exists (Z.to_nat (x - a)). split; [lia|]. apply in_seq. lia. }
  destruct (Z.lt_ge_cases 2037 y).
  - pose proof (Hfin 2038 ltac:(by vm_compute) ((y - 2038) mod 400 + 2038) ltac:(pose proof (Z.mod_pos_bound (y - 2038) 400); lia)) as H'.
    rewrite <- (safe_check_shift _ ((y - 2038) / 400)) in H'; [|left; pose proof (Z.mod_pos_bound (y - 2038) 400); split; [lia|apply Z.div_pos; lia]].
    rewrite <- H'. f_equal. Z.to_euclidean_division_equations; lia.
  - pose proof (Hfin 1571 ltac:(by vm_compute) ((y - 1571) mod 400 + 1571) ltac:(pose proof (Z.mod_pos_bound (y - 1571) 400); lia)) as H'.
    rewrite <- (safe_check_shift _ ((y - 1571) / 400)) in H'; [|right; pose proof (Z.mod_pos_bound (y - 1571) 400); Z.to_euclidean_division_equations; lia].
    rewrite <- H'. f_equal. Z.to_euclidean_division_equations; lia.
Qed.

Lemma safe_of_spec y : MIN_SAFE_YEAR <= safe_of y <= MAX_SAFE_YEAR /\ same_calendar y (safe_of y).
Proof.
  destruct (decide (1971 <= y <= 2037)) as [Hy|Hy].
  - assert (safe_of y = y) as ->; [|by unfold same_calendar; rewrite Z.sub_diag].
    unfold safe_of, between, MIN_SAFE_YEAR, MAX_SAFE_YEAR. by rewrite !(proj2 (Z.leb_le _ _)) by lia.
  - pose proof (safe_check_all y Hy) as H. unfold safe_check, between in H. rewrite !andb_true_iff, !Z.leb_le, Z.ltb_lt, Z.eqb_eq, !Bool.eqb_true_iff in H.
    unfold same_calendar. tauto.
Qed.

Lemma wp_safe_year {S} y (s : S) (Q : Z -> S -> Prop) E : Q (safe_of y) s -> wp (safe_year y) s Q E.
Proof.
  intros HQ. pose proof (proj1 (safe_of_spec y)) as Hr. unfold safe_year, safe_of in *. unfold between, MIN_SAFE_YEAR, MAX_SAFE_YEAR in *.
  destruct ((1971 <=? y) && (y <=? 2037)) eqn:Hb; wp_step.
  - rewrite s32_id by lia. exact HQ.
  - pose proof (Z.mod_pos_bound (raw_cycle y) 28 ltac:(lia)) as Hc. rewrite <- year_cycle_mod in Hc. unfold SOLAR_CYCLE_LENGTH.
    wp_step; [lia|]. wp_step. wp_step; [lia|]. wp_step.
    assert (Hrd : forall l, zlen l = 28 -> default 0 (znth l (year_cycle y)) = safe_of y -> wp (rd l (year_cycle y)) s (fun v s' => v = safe_of y /\ s' = s) E).
    { intros l Hl Hd. destruct (znth_lt l (year_cycle y)) as [v Hv]; [lia|]. rewrite Hv in Hd. by apply (wp_rd _ _ _ _ _ _ Hv). }
    unfold safe_of, between, MIN_SAFE_YEAR, MAX_SAFE_YEAR in Hrd. rewrite Hb in Hrd.
    destruct (Z.ltb_spec y 1971).
    + eapply wp_mono; [by apply Hrd| |done]. intros v s' [-> ->]. wp_step. wp_step; [lia|]. by wp_step.
    + rewrite (proj2 (Z.ltb_lt 2037 y)) by lia. eapply wp_mono; [by apply Hrd| |done]. intros v s' [-> ->]. wp_step. wp_step; [lia|]. by wp_step.
Qed.

(** ** Dates moved to another year *)

Definition yday_of (d : tm) : Z := month_start (leap (tm_year d + 1900)) (tm_mon d) + (tm_mday d - 1).
Definition tod (d : tm) : Z := 3600 * tm_hour d + 60 * tm_min d + tm_sec d.

Lemma stamp_eq d : stamp d = 86400 * (jan1 (tm_year d + 1900) + yday_of d) + tod d.
Proof. unfold stamp, yday_of, tod. lia. Qed.

Lemma civil_bounds t d : civil t d ->
  0 <= tod d < 86400 /\ 0 <= yday_of d < year_days (tm_year d + 1900) /\
  t = 86400 * (jan1 (tm_year d + 1900) + yday_of d) + tod d /\
  (yday_of d < 31 -> tm_mon d = 0) /\ (tm_mon d = 0 -> yday_of d < 31) /\
  (334 + b2z (leap (tm_year d + 1900)) <= yday_of d -> tm_mon d = 11) /\
  (tm_mon d = 11 -> 334 + b2z (leap (tm_year d + 1900)) <= yday_of d).
Proof.
  intros [Hs Hm Hh Hmon Hmd Hst _ _]. unfold tod, yday_of, year_days. split; [lia|].
  pose proof (month_start_range (leap (tm_year d + 1900)) (tm_mon d) Hmon) as [H1 H2]. split; [lia|].
  split; [rewrite <- Hst, stamp_eq; unfold yday_of, tod; lia|]. set (l := leap (tm_year d + 1900)) in *.
  assert (H0 : month_start l 0 = 0 /\ month_len l 0 = 31) by (by destruct l). destruct H0 as [H00 H01].
  assert (H11 : month_start l 11 = 334 + b2z l) by (by destruct l).
  split; [|split; [|split]].
  - intros Hy. destruct (Z.eq_dec (tm_mon d) 0) as [|Hne]; [done|]. pose proof (month_start_mono l 0 (tm_mon d)). lia.
  - intros He. rewrite He in *. lia.
  - intros Hy. destruct (Z.eq_dec (tm_mon d) 11) as [|Hne]; [done|]. pose proof (month_start_mono l (tm_mon d) 11). lia.
  - intros He. rewrite He in *. lia.
Qed.

(** A date of the year [a] in the year [b] that has its calendar; 1 January needs only its day of the week. *)
Lemma civil_move u d b :
  civil u d -> (jan1 b - jan1 (tm_year d + 1900)) mod 7 = 0 ->
  leap b = leap (tm_year d + 1900) \/ yday_of d < 31 ->
  civil (u + 86400 * (jan1 b - jan1 (tm_year d + 1900))) (with_year d (b - 1900)).
Proof.
  intros Hc Hw Hl. destruct (civil_bounds _ _ Hc) as (_ & _ & Ht & Hj & _). destruct Hc as [Hs Hm Hh Hmon Hmd Hst Hyd Hwd].
  set (a := tm_year d + 1900) in *. unfold with_year. 
  assert (Hms : month_start (leap b) (tm_mon d) = month_start (leap a) (tm_mon d) /\ month_len (leap b) (tm_mon d) = month_len (leap a) (tm_mon d)).
  { destruct Hl as [->|Hl]; [done|]. rewrite (Hj Hl). by destruct (leap a), (leap b). }
  destruct Hms as [Hms Hml]. constructor; cbn [tm_sec tm_min tm_hour tm_mday tm_mon tm_year tm_wday tm_yday]; try done;
    replace (b - 1900 + 1900) with b by lia; rewrite ?Hms, ?Hml; try done.
  - unfold stamp. cbn [tm_sec tm_min tm_hour tm_mday tm_mon tm_year]. replace (b - 1900 + 1900) with b by lia. rewrite Hms.
    rewrite <- Hst. unfold stamp. fold a. lia.
  - rewrite Hwd. replace (u + 86400 * (jan1 b - jan1 a)) with (u + (jan1 b - jan1 a) * 86400) by lia. rewrite Z.div_add by lia.
    apply Z.mod_divide in Hw as [k Hk]; [|lia]. rewrite Hk. replace (u / 86400 + k * 7 + 4) with (u / 86400 + 4 + k * 7) by lia.
    by rewrite Z.mod_add by lia.
Qed.

(** Less than a day away from a date of the year [s] is a date of [s], the last
    day of the year before or the first day of the year behind it; the months tell which. *)
Lemma nearby g d t off :
  civil t g -> civil (t + off) d -> - 86400 < off < 86400 ->
  (tm_year d = tm_year g /\ tm_mon d - tm_mon g <> 11 /\ tm_mon d - tm_mon g <> -11) \/
  (tm_year d = tm_year g - 1 /\ tm_mon d - tm_mon g = 11) \/
  (tm_year d = tm_year g + 1 /\ tm_mon d - tm_mon g = -11 /\ yday_of d < 31).
Proof.
  intros Hg Hd Hoff. destruct (civil_bounds _ _ Hg) as (Htg & Hyg & Hg1 & Hg2 & Hg3 & Hg4 & Hg5), (civil_bounds _ _ Hd) as (Htd & Hyd & Hd1 & Hd2 & Hd3 & Hd4 & Hd5).
  set (a := tm_year g + 1900) in *. set (b := tm_year d + 1900) in *. unfold year_days in *.
  assert (Hab : jan1 b + yday_of d - 1 <= jan1 a + yday_of g <= jan1 b + yday_of d + 1) by lia.
  destruct (Z.lt_trichotomy b a) as [Hlt|[Heq|Hgt]].
  - right; left. pose proof (jan1_mono (b + 1) a ltac:(lia)) as Hm. rewrite jan1_next in Hm. unfold year_days in Hm.
    assert (Hyg0 : yday_of g = 0) by lia. assert (Hba : b = a - 1).
    { destruct (Z.eq_dec b (a - 1)); [done|]. pose proof (jan1_mono (b + 1) (a - 1) ltac:(lia)) as Hm'. rewrite jan1_next in Hm'.
      pose proof (jan1_next (a - 1)) as Hn. replace (a - 1 + 1) with a in Hn by lia. pose proof (year_days_range (a - 1)). unfold year_days in Hm'. lia. }
    split; [unfold a, b in *; lia|]. rewrite Hg2 by lia. rewrite Hd4; [done|]. unfold b2z in *. destruct (leap b); lia.
  - left. split; [unfold a, b in *; lia|]. rewrite Heq in *. assert (- 1 <= yday_of d - yday_of g <= 1) by lia.
    pose proof (cv_mon _ _ Hg). pose proof (cv_mon _ _ Hd). unfold b2z in *.
    split; intros Hdiff; [assert (tm_mon d = 11 /\ tm_mon g = 0) by lia|assert (tm_mon d = 0 /\ tm_mon g = 11) by lia]; destruct (leap a); lia.
  - right; right. pose proof (jan1_mono (a + 1) b ltac:(lia)) as Hm. rewrite jan1_next in Hm. unfold year_days in Hm.
    assert (Hyd0 : yday_of d = 0) by lia. assert (Hba : b = a + 1).
    { destruct (Z.eq_dec b (a + 1)); [done|]. pose proof (jan1_mono (a + 1 + 1) b ltac:(lia)) as Hm'. rewrite !jan1_next in Hm'.
      pose proof (year_days_range (a + 1)). unfold year_days in *. lia. }
    split; [unfold a, b in *; lia|]. split; [|lia]. rewrite Hd2 by lia. rewrite Hg4; [done|]. unfold b2z in *. destruct (leap a); lia.
Qed.

(** ** localtime64_r *)

(** The time [t'] is that of the date of [t] in a year with the same calendar that the system can handle. *)
Definition moved (t t' : Z) (g : tm) : Prop :=
  let y := tm_year g + 1900 in
  civil t g /\ MIN_SAFE_YEAR <= safe_of y <= MAX_SAFE_YEAR /\ same_calendar y (safe_of y) /\ t' = stamp (with_year g (safe_of y - 1900)).

Lemma moved_eq t t' g : moved t t' g ->
  t' = t + 86400 * (jan1 (safe_of (tm_year g + 1900)) - jan1 (tm_year g + 1900)) /\ civil t' (with_year g (safe_of (tm_year g + 1900) - 1900)).
Proof.
  intros (Hg & _ & (Hl & Hw & _) & ->). pose proof (civil_move _ _ _ Hg Hw (or_introl Hl)) as Hc.
  pose proof (cv_stamp _ _ Hc) as Hs. rewrite Hs. done.
Qed.

Lemma moved_small t t' g : moved t t' g -> - 2 ^ 31 <= t' < 2 ^ 31.
Proof.
  intros Hmv. pose proof Hmv as (_ & Hr & _). destruct (moved_eq _ _ _ Hmv) as [_ Hc].
  destruct (civil_bounds _ _ Hc) as (Ht & Hy & -> & _). cbn [tm_year with_year] in *. set (s := safe_of _) in *.
  replace (s - 1900 + 1900) with s in * by lia. unfold MIN_SAFE_YEAR, MAX_SAFE_YEAR in *. pose proof (year_days_range s).
  pose proof (jan1_mono 1971 s ltac:(lia)) as H1. pose proof (jan1_mono s 2037 ltac:(lia)) as H2.
  change (jan1 1971) with 365 in H1. change (jan1 2037) with 24472 in H2. lia.
Qed.

(** What the year is corrected to. *)
Definition year_diff (diff : Z) : Z := if diff =? 11 then -1 else if diff =? -11 then 1 else 0.

Lemma moved_back t t' g d off :
  moved t t' g -> civil (t' + off) d -> - 86400 < off < 86400 ->
  civil (t + off) (with_year d (tm_year g + year_diff (tm_mon d - tm_mon g))).
Proof.
  intros Hmv Hd Hoff. pose proof Hmv as (_ & _ & (Hl & Hw & Hp) & _). destruct (moved_eq _ _ _ Hmv) as [Ht' Hg'].
  set (Y := tm_year g + 1900) in *. set (s := safe_of Y) in *.
  assert (Hgo : forall b, (jan1 b - jan1 (tm_year d + 1900)) = - (jan1 s - jan1 Y) -> leap b = leap (tm_year d + 1900) \/ yday_of d < 31 ->
    civil (t + off) (with_year d (b - 1900))).
  { intros b Hb Hlb. replace (t + off) with (t' + off + 86400 * (jan1 b - jan1 (tm_year d + 1900))) by lia.
    apply civil_move; [done| |done]. rewrite Hb. apply Z.mod_divide in Hw as [k ->]; [|lia]. replace (- (k * 7)) with (- k * 7) by lia. apply Z.mod_mul. lia. }
  destruct (nearby _ _ _ _ Hg' Hd Hoff) as [(Hy & Hm1 & Hm2)|[(Hy & Hm)|(Hy & Hm & Hyd)]]; cbn [tm_year tm_mon with_year] in *; unfold year_diff.
  - rewrite (proj2 (Z.eqb_neq _ 11) Hm1), (proj2 (Z.eqb_neq _ (-11)) Hm2). replace (tm_year g + 0) with (Y - 1900) by (unfold Y; lia).
    apply Hgo; rewrite Hy; replace (s - 1900 + 1900) with s by lia; [lia|by left].
  - rewrite Hm. cbn [Z.eqb Pos.eqb]. replace (tm_year g + -1) with (Y - 1 - 1900) by (unfold Y; lia).
    pose proof (jan1_next (s - 1)) as N1. pose proof (jan1_next (Y - 1)) as N2. unfold year_days in *. rewrite Hp in N1.
    replace (s - 1 + 1) with s in N1 by lia. replace (Y - 1 + 1) with Y in N2 by lia.
    apply Hgo; rewrite Hy; replace (s - 1900 - 1 + 1900) with (s - 1) by lia; [lia|by left].
  - rewrite Hm. cbn [Z.eqb Pos.eqb]. replace (tm_year g + 1) with (Y + 1 - 1900) by (unfold Y; lia).
    pose proof (jan1_next s) as N1. pose proof (jan1_next Y) as N2. unfold year_days in *. rewrite Hl in N1.
    apply Hgo; rewrite Hy; replace (s - 1900 + 1 + 1900) with (s + 1) by lia; [lia|by right].
Qed.

(** The system's local time, with the offset of each instant from UTC. *)
Definition system_zone (localtime_r : Z -> option tm) (zone : Z -> Z) : Prop := forall t, - 2 ^ 31 <= t < 2 ^ 31 ->
  - 86400 < zone t < 86400 /\ exists d, localtime_r t = Some d /\ civil (t + zone t) d /\ tm_gmtoff d = zone t.

(** The times whose year is two less than the largest [int] at most. *)
Definition comfortable (t : Z) : Prop := 86400 * jan1 (1901 - 2 ^ 31) <= t < 86400 * jan1 (2 ^ 31 - 1).

Lemma comfortable_year t g : comfortable t -> civil t g -> - 2 ^ 31 < tm_year g < 2 ^ 31 - 1901.
Proof.
  intros [Hlo Hhi] Hg. destruct (civil_bounds _ _ Hg) as (H1 & H2 & -> & _). unfold year_days in H2. split.
  - destruct (Z.lt_ge_cases (- 2 ^ 31) (tm_year g)) as [|Hle]; [done|].
    pose proof (jan1_mono (tm_year g + 1900 + 1) (1901 - 2 ^ 31) ltac:(lia)) as Hm. rewrite jan1_next in Hm. unfold year_days in Hm. lia.
  - destruct (Z.lt_ge_cases (tm_year g) (2 ^ 31 - 1901)) as [|Hle]; [done|].
    pose proof (jan1_mono (2 ^ 31 - 1) (tm_year g + 1900) ltac:(lia)). lia.
Qed.

Lemma small_year t off d : - 2 ^ 31 <= t < 2 ^ 31 -> - 86400 < off < 86400 -> civil (t + off) d -> - 2 ^ 31 <= tm_year d + 1900 < 2 ^ 31.
Proof.
  intros Ht Ho Hd. assert (H1 : 86400 * jan1 (1901 - 2 ^ 31) < - 2 ^ 40) by (by vm_compute).
  assert (H2 : 2 ^ 40 < 86400 * jan1 (2 ^ 31 - 1)) by (by vm_compute).
  assert (Hc : comfortable (t + off)) by (split; lia). pose proof (comfortable_year _ _ Hc Hd). lia.
Qed.

Lemma wp_localtime64_r localtime_r zone safe0 gm0 t p (Q : unit -> tm -> Prop) E :
  system_zone localtime_r zone -> - 2 ^ 63 <= t < 2 ^ 63 -> comfortable t ->
  (forall t' d, (if SHOULD_USE_SYSTEM_LOCALTIME t then t' = t else exists g, moved t t' g) -> civil (t + zone t') d ->
     tm_gmtoff d = zone t' -> Q tt d) ->
  wp (localtime64_r localtime_r safe0 gm0 t) p Q E.
Proof.
  intros Hz Ht Hct HQ. unfold localtime64_r, SHOULD_USE_SYSTEM_LOCALTIME in *.
  destruct ((t <=? 2147483647) && (-2147483647 <=? t)) eqn:Hs.
  { destruct (Hz t ltac:(lia)) as (Hoff & d & Hd & Hc & Hg). rewrite Hd. wp_step. wp_step. wp_step. wp_step. change (default safe0 (Some d)) with d.
    apply (wp_check_tm (t + zone t)); [exact Hc| |lia|by apply (HQ t)]. by apply (small_year t (zone t)); [lia|lia|]. }
  assert (Hrep : representable t).
  { destruct Hct. pose proof (jan1_mono (1900 - 2 ^ 31) (1901 - 2 ^ 31) ltac:(lia)). pose proof (jan1_mono (2 ^ 31 - 1) (2 ^ 31) ltac:(lia)). split; lia. }
  wp_step. apply wp_on_local. apply wp_gmtime64_r; [done|done|]. intros g Hg _ _ _ _ _. pose proof (comfortable_year _ _ Hct Hg) as Hyg. cbv zeta.
  assert (Hmv : moved t (stamp (with_year g (safe_of (tm_year g + 1900) - 1900))) g) by (destruct (safe_of_spec (tm_year g + 1900)); by split).
  assert (Hfar : (2037 - 1900 <? tm_year g) || (tm_year g <? 1970 - 1900) = true).
  { destruct (civil_bounds _ _ Hg) as (H1 & H2 & H3 & _). apply orb_true_iff. rewrite !Z.ltb_lt. unfold year_days, b2z in H2.
    destruct (Z.lt_ge_cases 137 (tm_year g)) as [|Hle]; [left; lia|]. right. destruct (Z.lt_ge_cases (tm_year g) 70) as [|Hge]; [done|]. exfalso.
    pose proof (jan1_mono 1970 (tm_year g + 1900) ltac:(lia)) as Hm1. change (jan1 1970) with 0 in Hm1.
    pose proof (jan1_mono (tm_year g + 1900 + 1) 2038 ltac:(lia)) as Hm2. rewrite jan1_next in Hm2. change (jan1 2038) with 24837 in Hm2. unfold year_days, b2z in Hm2.
    destruct (leap (tm_year g + 1900)); lia. }
  rewrite Hfar. clear Hfar. set (Y := tm_year g + 1900) in *. pose proof (proj1 (safe_of_spec Y)) as Hsr. unfold MIN_SAFE_YEAR, MAX_SAFE_YEAR in Hsr.
  wp_step. wp_step. apply wp_int32; [unfold Y; lia|]. wp_step. apply wp_safe_year. fold Y. wp_step. apply wp_int32; [lia|]. wp_step.
  set (t' := stamp (with_year g (safe_of Y - 1900))) in *. wp_step. pose proof (cv_mday _ _ Hg). pose proof (month_len_range (leap (tm_year g + 1900)) _ (cv_mon _ _ Hg)).
  apply wp_timegm64; [destruct Hg; unfold small_fields; cbn; lia|]. fold t'. pose proof (moved_small _ _ _ Hmv) as Hsm. rewrite s32_id by done.
  destruct (Hz t' Hsm) as (Hoff & d & -> & Hd & Hgo). wp_step. wp_step. wp_step. wp_step. wp_step. wp_step. rewrite s32_id by lia.
  cbn [tm_year with_year]. wp_step. unfold fail_if. rewrite Z.eqb_refl. wp_step. wp_step.
  pose proof (moved_back _ _ _ _ _ Hmv Hd Hoff) as Hfin. pose proof (cv_mon _ _ Hd). pose proof (cv_mon _ _ Hg).
  wp_step. cbn [tm_mon with_year]. apply wp_int32; [lia|]. set (diff := tm_mon d - tm_mon g) in *.
  assert (Hadj : wp (y ← (if diff =? 11 then int32 (tm_year g - 1) else mret (tm_year g)); if diff =? -11 then int32 (y + 1) else mret y)
      (with_year d (tm_year g)) (fun y s => y = tm_year g + year_diff diff /\ s = with_year d (tm_year g)) E).
  { unfold year_diff. destruct (Z.eqb_spec diff 11) as [->|].
    - wp_step. apply wp_int32; [lia|]. by wp_step.
    - wp_step. wp_step. destruct (Z.eqb_spec diff (-11)); [apply wp_int32; [lia|]; done|wp_step; split; [lia|done]]. }
  apply wp_bind_inv in Hadj. wp_step. eapply wp_mono; [exact Hadj| |done]. clear Hadj. cbn beta. intros y1 s1 Hadj.
  wp_step. eapply wp_mono; [exact Hadj| |done]. clear Hadj y1 s1. cbn beta. intros y1 s1 [-> ->]. set (y1 := tm_year g + year_diff diff) in *.
  assert (Hy1 : - 2 ^ 31 <= y1 + 1900 < 2 ^ 31) by (unfold y1, year_diff; repeat case_match; lia).
  wp_step. wp_step. wp_step. apply wp_is_leap_int; [done|]. wp_step. wp_step.
  assert (Hyd : (b2z (leap (y1 + 1900)) =? 0) && (tm_yday d =? 365) = false).
  { destruct (civil_bounds _ _ Hfin) as (_ & Hb & _). pose proof (cv_yday _ _ Hfin) as Hyy. unfold yday_of, year_days in Hb. cbn [tm_yday tm_year tm_mon tm_mday with_year] in *.
    unfold b2z in *. destruct (leap (y1 + 1900)); [done|]. cbn [Z.eqb andb]. lia. }
  cbn [tm_yday with_year]. rewrite Hyd. wp_step. wp_step. wp_step. wp_step.
  apply (wp_check_tm (t + zone t')); [exact Hfin|exact Hy1|cbn; lia|]. apply (HQ t'); [by exists g|exact Hfin|exact Hgo].
Qed.

(** ** mktime64 *)

Section mktime.
Context {S : Type}.
Implicit Types (s : S).

(** The reduction of a distant year; [k] cycles are left out. *)
Lemma wp_reduce_year left right s (Q : Z * Z -> S -> Prop) E :
  1600 - 2 ^ 31 <= left < 2 ^ 31 + 1900 -> 1600 <= right <= 2400 ->
  (forall k, 0 <= k -> (right < left /\ right <= left - 400 * k) \/ left <= right \/ k = 0 ->
     Q (left - 400 * k, (if right <? left then 1 else -1) * (86400 * (k * days_in_gregorian_cycle))) s) ->
  wp (if 2400 <? left then
        years ← int32 (s32 (Z.quot (left - 2400) 400) * 400);
        mret (left - years, s32 (Z.quot (left - 2400) 400) * seconds_in_gregorian_cycle)
      else if left <? 1600 then
        years ← int32 (s32 (Z.quot (left - 1600) 400) * 400);
        mret (left + years, s32 (Z.quot (left - 1600) 400) * seconds_in_gregorian_cycle)
      else mret (left, 0)) s Q E.
Proof.
  intros Hl Hr HQ. unfold seconds_in_gregorian_cycle. destruct (Z.ltb_spec 2400 left) as [Hh|Hh]; [|destruct (Z.ltb_spec left 1600) as [Hlo|Hlo]].
  - set (q := Z.quot (left - 2400) 400) in *. assert (Hq : 0 <= q < 2 ^ 31 /\ 400 * q <= left - 2400) by (unfold q; Z.to_euclidean_division_equations; lia).
    rewrite s32_id by lia. wp_step. apply wp_int32; [lia|]. wp_step. specialize (HQ q ltac:(lia) ltac:(left; lia)).
    rewrite (proj2 (Z.ltb_lt right left)) in HQ by lia. replace (q * 400) with (400 * q) by lia.
    replace (q * (days_in_gregorian_cycle * 60 * 60 * 24)) with (1 * (86400 * (q * days_in_gregorian_cycle))) by (unfold days_in_gregorian_cycle; lia). exact HQ.
  - set (q := - Z.quot (left - 1600) 400) in *. assert (Hq : Z.quot (left - 1600) 400 = - q) by (unfold q; lia).
    assert (Hqr : 0 <= q < 2 ^ 31 /\ 400 * q <= 1600 - left) by (unfold q; Z.to_euclidean_division_equations; lia).
    rewrite Hq, s32_id by lia. wp_step. apply wp_int32; [lia|]. wp_step. specialize (HQ q ltac:(lia) ltac:(right; left; lia)).
    rewrite (proj2 (Z.ltb_ge right left)) in HQ by lia. replace (left + - q * 400) with (left - 400 * q) by lia.
    replace (- q * (days_in_gregorian_cycle * 60 * 60 * 24)) with (-1 * (86400 * (q * days_in_gregorian_cycle))) by (unfold days_in_gregorian_cycle; lia). exact HQ.
  - wp_step. specialize (HQ 0 ltac:(lia) ltac:(by do 2 right)). rewrite Z.mul_0_r, Z.sub_0_r, Z.mul_0_l, !Z.mul_0_r in HQ. exact HQ.
Qed.

(** The loop upwards and downwards. *)
Lemma wp_between_up left right x s (Q : Z -> S -> Prop) E :
  right <= left -> Q (x + 86400 * (jan1 left - jan1 right)) s ->
  wp (loop (Datatypes.S (Z.to_nat (Z.abs (left - right)))) (between_step left 1) (right, x)) s Q E.
Proof.
  intros Hle HQ. apply (wp_loop (fun '(r, z) s' => s' = s /\ right <= r <= left /\ z = x + 86400 * (jan1 r - jan1 right)) (fun '(r, _) _ => Z.to_nat (left - r))).
  - split; [done|]. split; lia.
  - lia.
  - intros [r z] s' (-> & Hr & ->). unfold between_step. destruct (Z.eqb_spec left r) as [<-|Hne]; cbn [negb]; [by wp_step|].
    wp_step. apply wp_length_of_year. wp_step. replace (r - 1900 + 1900) with r by lia. rewrite jan1_next. split; [|lia]. split; [done|]. lia.
Qed.

Lemma wp_between_down left right x s (Q : Z -> S -> Prop) E :
  left <= right -> Q (x + 86400 * (jan1 (right + 1) - jan1 (left + 1))) s ->
  wp (loop (Datatypes.S (Z.to_nat (Z.abs (left - right)))) (between_step left (-1)) (right, x)) s Q E.
Proof.
  intros Hle HQ. apply (wp_loop (fun '(r, z) s' => s' = s /\ left <= r <= right /\ z = x + 86400 * (jan1 (right + 1) - jan1 (r + 1))) (fun '(r, _) _ => Z.to_nat (r - left))).
  - split; [done|]. split; lia.
  - lia.
  - intros [r z] s' (-> & Hr & ->). unfold between_step. destruct (Z.eqb_spec left r) as [<-|Hne]; cbn [negb]; [by wp_step|].
    wp_step. apply wp_length_of_year. wp_step. replace (r - 1900 + 1900) with r by lia. rewrite (jan1_next r).
    replace (r + -1 + 1) with r by lia. split; [|lia]. split; [done|]. lia.
Qed.

(** The seconds between the beginnings of two years: downwards the years are
    counted from their ends, which is the same if both or none are leap years. *)
Lemma wp_seconds_between left right s (Q : Z -> S -> Prop) E :
  1600 - 2 ^ 31 <= left < 2 ^ 31 + 1900 -> 1600 <= right <= 2400 ->
  Q (if right <? left then 86400 * (jan1 left - jan1 right) else 86400 * (jan1 (left + 1) - jan1 (right + 1))) s ->
  wp (seconds_between_years left right) s Q E.
Proof.
  intros Hl Hr HQ. unfold seconds_between_years. cbv zeta. wp_step. apply (wp_reduce_year left right); [done|done|]. intros k Hk Hcase.
  wp_step. pose proof (jan1_cycle left (- k)) as Hj. pose proof (jan1_cycle (left + 1) (- k)) as Hj1.
  replace (left + 400 * - k) with (left - 400 * k) in Hj by lia. replace (left + 1 + 400 * - k) with (left - 400 * k + 1) in Hj1 by lia.
  destruct (Z.ltb_spec right left) as [Hlt|Hge].
  - apply wp_between_up; [lia|]. wp_step. match goal with |- Q ?x s => match type of HQ with Q ?y s => replace x with y by lia end end. exact HQ.
  - apply wp_between_down; [lia|]. wp_step. match goal with |- Q ?x s => match type of HQ with Q ?y s => replace x with y by lia end end. exact HQ.
Qed.

(** The fields of [d] are those of a date. *)
Definition dated (d : tm) : Prop :=
  0 <= tm_sec d < 60 /\ 0 <= tm_min d < 60 /\ 0 <= tm_hour d < 24 /\ 0 <= tm_mon d < 12 /\
  1 <= tm_mday d <= month_len (leap (tm_year d + 1900)) (tm_mon d).

(** The system's [mktime] with the offset of a local date from UTC. *)
Definition system_mktime (mktime : tm -> Z * tm) (offset : tm -> Z) : Prop := forall d,
  dated d -> MIN_SAFE_YEAR <= tm_year d + 1900 <= MAX_SAFE_YEAR ->
  exists d', mktime d = (stamp d - offset d, d') /\ tm_year d' = tm_year d.

Definition in_safe_year (d : tm) : tm := with_year d (safe_of (tm_year d + 1900) - 1900).

Lemma wp_mktime64 mktime offset d s (Q : Z -> S -> Prop) E :
  system_mktime mktime offset -> dated d -> 1600 - 2 ^ 31 <= tm_year d + 1900 < 2 ^ 31 ->
  Q (stamp d - offset (in_safe_year d)) s -> wp (mktime64 mktime d) s Q E.
Proof.
  intros Hmk Hd Hy HQ. destruct (safe_of_spec (tm_year d + 1900)) as [Hr (Hl & _ & _)]. unfold MIN_SAFE_YEAR, MAX_SAFE_YEAR in *.
  unfold mktime64, in_safe_year in *. set (Y := tm_year d + 1900) in *. unfold between, MIN_SAFE_YEAR, MAX_SAFE_YEAR in *.
  wp_step. apply wp_int32; [lia|]. destruct ((1971 <=? Y) && (Y <=? 2037)) eqn:Hsafe.
  - assert (Hs : safe_of Y = Y) by (unfold safe_of, between, MIN_SAFE_YEAR, MAX_SAFE_YEAR; by rewrite Hsafe).
    rewrite Hs in HQ. assert (Hw : with_year d (Y - 1900) = d) by (unfold Y; replace (tm_year d + 1900 - 1900) with (tm_year d) by lia; by destruct d).
    rewrite Hw in HQ. destruct (Hmk d Hd) as (d' & -> & _); [fold Y; unfold MIN_SAFE_YEAR, MAX_SAFE_YEAR; lia|]. by wp_step.
  - wp_step. apply wp_safe_year. wp_step. apply wp_int32; [lia|]. set (d1 := with_year d (safe_of Y - 1900)) in *.
    assert (Hd1 : dated d1) by (destruct Hd as (? & ? & ? & ? & ?); unfold dated, d1; cbn; replace (safe_of Y - 1900 + 1900) with (safe_of Y) by lia; rewrite Hl; tauto).
    destruct (Hmk d1 Hd1) as (d' & -> & Hd'); [cbn; unfold MIN_SAFE_YEAR, MAX_SAFE_YEAR; lia|]. rewrite Hd'. cbn [tm_year with_year d1].
    replace (safe_of Y - 1900 + 1900) with (safe_of Y) by lia. wp_step. apply wp_int32; [lia|]. wp_step. apply wp_seconds_between; [lia|lia|]. wp_step.
    assert (Hst : stamp d1 = stamp d + 86400 * (jan1 (safe_of Y) - jan1 Y)).
    { unfold stamp, d1. cbn [tm_sec tm_min tm_hour tm_mday tm_mon tm_year with_year]. replace (safe_of Y - 1900 + 1900) with (safe_of Y) by lia. rewrite Hl. fold Y. lia. }
    rewrite Hst. pose proof (jan1_next Y) as N1. pose proof (jan1_next (safe_of Y)) as N2. unfold year_days in *. rewrite Hl in N2.
    match goal with |- Q ?x s => match type of HQ with Q ?y s => replace x with y; [exact HQ|destruct (safe_of Y <? Y); lia] end end.
Qed.
End mktime.

(** ** One date for each time *)

Definition fields (d : tm) : list Z :=
  [tm_sec d; tm_min d; tm_hour d; tm_mday d; tm_mon d; tm_year d; tm_wday d; tm_yday d].

Lemma civil_unique t d d' : civil t d -> civil t d' -> fields d = fields d'.
Proof.
  intros Hd Hd'. destruct (civil_bounds _ _ Hd) as (T1 & Y1 & E1 & _), (civil_bounds _ _ Hd') as (T2 & Y2 & E2 & _).
  assert (Hday : jan1 (tm_year d + 1900) + yday_of d = jan1 (tm_year d' + 1900) + yday_of d' /\ tod d = tod d') by lia.
  destruct Hday as [Hday Htod]. assert (Hy : tm_year d = tm_year d').
  { destruct (Z.lt_trichotomy (tm_year d) (tm_year d')) as [Hlt|[He|Hgt]]; [exfalso|done|exfalso].
    - pose proof (jan1_mono (tm_year d + 1900 + 1) (tm_year d' + 1900) ltac:(lia)) as Hm. rewrite jan1_next in Hm. lia.
    - pose proof (jan1_mono (tm_year d' + 1900 + 1) (tm_year d + 1900) ltac:(lia)) as Hm. rewrite jan1_next in Hm. lia. }
  destruct Hd as [Hs Hm Hh Hmon Hmd _ Hyd Hwd], Hd' as [Hs' Hm' Hh' Hmon' Hmd' _ Hyd' Hwd']. unfold tod in Htod. unfold yday_of in *. rewrite <- Hy in *.
  assert (Hmm : tm_mon d = tm_mon d').
  { set (l := leap (tm_year d + 1900)) in *. destruct (Z.lt_trichotomy (tm_mon d) (tm_mon d')) as [Hlt|[He|Hgt]]; [exfalso|done|exfalso].
    - pose proof (month_start_mono l (tm_mon d) (tm_mon d') ltac:(lia) Hlt ltac:(lia)). lia.
    - pose proof (month_start_mono l (tm_mon d') (tm_mon d) ltac:(lia) Hgt ltac:(lia)). lia. }
  rewrite <- Hmm in *. unfold fields. repeat (f_equal; try lia).
Qed.

(** ** asctime64_r *)

Definition printable_date (date : tm) : bool :=
  valid_tm_wday date && valid_tm_mon date && (1900 + tm_year date <=? 9999).

Lemma wp_asctime64_r date b (Q : unit -> list Z -> Prop) (E : Z -> list Z -> Prop) :
  tm_year date + 1900 < 2 ^ 31 -> - 2 ^ 31 <= tm_year date -> 26 <= zlen b ->
  (printable_date date = false -> E 0 b) ->
  (forall wday mon, znth wday_name (tm_wday date) = Some wday -> znth mon_name (tm_mon date) = Some mon -> printable_date date = true ->
     Q tt (splice b 0 (ztake 25 (asctime_text wday mon date (1900 + tm_year date)) ++ [0]))) ->
  wp (asctime64_r date) b Q E.
Proof.
  intros Hy Hy' Hb HE HQ. unfold asctime64_r, printable_date in *.
  destruct (valid_tm_wday date) eqn:Hw, (valid_tm_mon date) eqn:Hm; cbn [negb orb andb] in *; try (wp_step; by apply HE).
  wp_step. apply wp_int32; [lia|]. destruct (Z.ltb_spec 9999 (1900 + tm_year date)) as [Hbig|Hsmall].
  { wp_step. apply HE. lia. }
  unfold valid_tm_wday, valid_tm_mon in *. destruct (znth_lt wday_name (tm_wday date)) as [wday Hwd]; [change (zlen wday_name) with 7; lia|].
  destruct (znth_lt mon_name (tm_mon date)) as [mon Hmo]; [change (zlen mon_name) with 12; lia|].
  wp_step. apply (wp_rd _ _ _ _ _ _ Hwd). wp_step. apply (wp_rd _ _ _ _ _ _ Hmo). wp_step. unfold snprintf. change (26 =? 0) with false.
  change (26 - 1) with 25. cbv zeta. set (txt := asctime_text wday mon date (1900 + tm_year date)) in *. set (w := ztake 25 txt ++ [0]).
  assert (Hz : 0 <= zlen w <= 26) by (unfold w; rewrite zlen_app; change (zlen [0]) with 1; pose proof (zlen_nonneg (ztake 25 txt)); unfold zlen, ztake in *; rewrite length_take in *; lia).
  wp_step. wp_step. apply wp_memcpy; [lia|lia|lia|lia|lia|]. wp_step. wp_step. rewrite zdrop_0, ztake_all. apply HQ; [done|done|lia].
Qed.

(** Two digits of a number below 100, three characters of one below 1000 and four digits of a year. *)
Lemma fmt_lengths : forallb (fun v => (length (fmt_prec2 v) =? 2)%nat && (length (fmt_pad3 v) =? 3)%nat) (map Z.of_nat (seq 0 100)) = true /\
  forallb (fun v => (length (fmt_int v) =? 4)%nat) (map (fun n => 1000 + Z.of_nat n) (seq 0 (Z.to_nat 9000))) = true.
Proof. split; by vm_compute. Qed.

(** The text of a date of four digits is 25 characters long, so that nothing is cut off. *)
Lemma asctime_text_length t d wday mon : civil t d -> -900 <= tm_year d <= 8099 ->
  znth wday_name (tm_wday d) = Some wday -> znth mon_name (tm_mon d) = Some mon ->
  zlen (asctime_text wday mon d (1900 + tm_year d)) = 25.
Proof.
  intros [Hs Hm Hh Hmon Hmd _ _ _] Hy Hw Hmo. pose proof (month_len_range (leap (tm_year d + 1900)) (tm_mon d) Hmon).
  assert (H2 : forall v, 0 <= v < 100 -> zlen (fmt_prec2 v) = 2 /\ zlen (fmt_pad3 v) = 3).
  { intros v Hv. destruct fmt_lengths as [H1 _]. rewrite forallb_forall in H1. specialize (H1 v). unfold zlen.
    apply andb_true_iff in H1 as [?%Nat.eqb_eq ?%Nat.eqb_eq]; [lia|]. apply in_map_iff. exists (Z.to_nat v). split; [lia|]. apply in_seq. lia. }
  assert (H4 : zlen (fmt_int (1900 + tm_year d)) = 4).
  { destruct fmt_lengths as [_ H1]. rewrite forallb_forall in H1. specialize (H1 (1900 + tm_year d)). unfold zlen.
    apply Nat.eqb_eq in H1; [lia|]. apply in_map_iff. exists (Z.to_nat (900 + tm_year d)). split; [lia|]. apply in_seq. lia. }
  assert (Hwl : zlen wday = 3).
  { assert (Hall : Forall (fun w => zlen w = 3) wday_name) by (repeat constructor). exact (Forall_znth _ _ _ _ Hall Hw). }
  assert (Hml : zlen mon = 3).
  { assert (Hall : Forall (fun w => zlen w = 3) mon_name) by (repeat constructor). exact (Forall_znth _ _ _ _ Hall Hmo). }
  unfold asctime_text. rewrite !zlen_app, H4, Hwl, Hml. rewrite (proj2 (H2 (tm_mday d) ltac:(lia))).
  rewrite (proj1 (H2 (tm_hour d) ltac:(lia))), (proj1 (H2 (tm_min d) ltac:(lia))), (proj1 (H2 (tm_sec d) ltac:(lia))). done.
Qed.

(** ** Properties *)

Lemma civil_small t d : civil t d -> - 2 ^ 31 <= tm_year d < 2 ^ 31 -> small_fields d.
Proof.
  intros [Hs Hm Hh Hmon Hmd _ _ _] Hy. pose proof (month_len_range (leap (tm_year d + 1900)) (tm_mon d) Hmon). unfold small_fields. lia.
Qed.


(** A structure with nothing in it, and the system's functions of a zone one hour before UTC. *)
Definition blank_tm : tm := Tm 0 0 0 0 0 0 0 0 0 0 None.

Definition with_gmtoff (d : tm) (off : Z) : tm :=
  Tm (tm_sec d) (tm_min d) (tm_hour d) (tm_mday d) (tm_mon d) (tm_year d) (tm_wday d) (tm_yday d) (tm_isdst d) off (tm_zone d).

Definition zone_localtime_r (off t : Z) : option tm :=
  match gmtime64_r (t + off) blank_tm with
  | (Ret _, d) => Some (with_gmtoff d off)
  | _ => None
  end.

Definition zone_mktime (off : Z) (d : tm) : Z * tm := (stamp d - off, d).

Lemma zone_localtime_ok off : - 86400 < off < 86400 -> system_zone (zone_localtime_r off) (fun _ => off).
Proof.
  intros Ho t Ht. split; [done|]. unfold zone_localtime_r.
  assert (H1 : 86400 * jan1 (1900 - 2 ^ 31) < - 2 ^ 40) by (by vm_compute).
  assert (H2 : 2 ^ 40 < 86400 * jan1 (2 ^ 31)) by (by vm_compute).
  assert (Hw : wp (gmtime64_r (t + off)) blank_tm (fun _ d => civil (t + off) d) (fun _ _ => False))
    by (apply wp_gmtime64_r; [lia|split; lia|]; intros d Hd _ _ _ _ _; exact Hd).
  unfold wp in Hw. destruct (gmtime64_r (t + off) blank_tm) as [[[]|e| |] d]; try done.
  eexists. split; [reflexivity|]. split; [|done]. by destruct d, Hw.
Qed.

Lemma zone_mktime_ok off : system_mktime (zone_mktime off) (fun _ => off).
Proof. intros d _ _. by exists d. Qed.


(** C22: [localtime64_r] agrees with the calendar in every year: given a system
    that converts the times of 32 bits, the result is the one date and time of
    day of [t] shifted by an offset, in all its fields. The offset is the
    system's for [t] where it can handle it, and otherwise its offset for the
    same date in the year that [safe_year] chooses, which lies between 1971 and
    2037 and has the same calendar; neither the new year between the local
    date and UTC nor a leap year at only one of its sides leads astray. *)
Theorem localtime64_r_correct localtime_r zone safe0 gm0 t p :
  system_zone localtime_r zone -> - 2 ^ 63 <= t < 2 ^ 63 -> comfortable t ->
  wp (localtime64_r localtime_r safe0 gm0 t) p
     (fun _ d => exists t', (if SHOULD_USE_SYSTEM_LOCALTIME t then t' = t else exists g, moved t t' g) /\
        civil (t + zone t') d /\ tm_gmtoff d = zone t')
     (fun _ _ => False).
Proof. intros Hz Ht Hc. apply (wp_localtime64_r localtime_r zone); [done|done|done|]. intros t' d H1 H2 H3. by exists t'. Qed.

(** Half an hour before the year 2100, which is no leap year, in UTC. *)
Lemma localtime64_r_correct_witness :
  fields (snd (localtime64_r (zone_localtime_r 3600) blank_tm blank_tm 4102443000 blank_tm)) = [0; 30; 0; 1; 0; 200; 5; 0] /\
  wp (localtime64_r (zone_localtime_r 3600) blank_tm blank_tm 4102443000) blank_tm
     (fun _ d => exists t', (if SHOULD_USE_SYSTEM_LOCALTIME 4102443000 then t' = 4102443000 else exists g, moved 4102443000 t' g) /\
        civil (4102443000 + 3600) d /\ tm_gmtoff d = 3600)
     (fun _ _ => False).
Proof.
  split; [by vm_compute|].
  apply (localtime64_r_correct (zone_localtime_r 3600) (fun _ => 3600) blank_tm blank_tm 4102443000 blank_tm).
  - apply zone_localtime_ok. lia.
  - lia.
  - split; by vm_compute.
Defined.



(** [asctime64_r] writes at most 26 octets, and for a date with a year of four
    digits the whole text, ended by a new line and NUL. *)
Lemma asctime64_r_bounded date b :
  - 2 ^ 31 <= tm_year date -> tm_year date + 1900 < 2 ^ 31 -> 26 <= zlen b ->
  wp (asctime64_r date) b
     (fun _ b' => zdrop 26 b' = zdrop 26 b /\ forall t, civil t date -> -900 <= tm_year date ->
        exists wday mon, znth wday_name (tm_wday date) = Some wday /\ znth mon_name (tm_mon date) = Some mon /\
          ztake 26 b' = asctime_text wday mon date (1900 + tm_year date) ++ [0])
     (fun e b' => e = 0 /\ b' = b).
Proof.
  intros Hlo Hhi Hb. apply wp_asctime64_r; [done|done|done|done|]. intros wday mon Hw Hm Hpr.
  set (txt := asctime_text wday mon date (1900 + tm_year date)). set (w := ztake 25 txt ++ [0]).
  assert (Hz : zlen w <= 26) by (unfold w; rewrite zlen_app; change (zlen [0]) with 1; unfold zlen, ztake; rewrite length_take; lia).
  split.
  - rewrite splice_0. rewrite zdrop_app_ge by done. rewrite zdrop_zdrop; [|lia|apply zlen_nonneg]. f_equal. lia.
  - intros t Hc Hy. exists wday, mon. split; [done|]. split; [done|]. unfold printable_date in Hpr.
    pose proof (asctime_text_length t date wday mon Hc ltac:(lia) Hw Hm) as Hl. fold txt in Hl.
    assert (Hw2 : w = txt ++ [0]) by (unfold w; by rewrite <- Hl, ztake_all). assert (Hwl : zlen w = 26) by (rewrite Hw2, zlen_app, Hl; done).
    fold txt. rewrite Hw2 at 1. rewrite <- Hw2, <- Hwl at 1. rewrite ztake_splice_0. exact Hw2.
Qed.

(** For a time whose year does not fit, [ctime64_r] prints what its variable held
    before, and [ctime64] follows the null pointer. *)
Lemma ctime64_r_unset localtime_r safe0 gm0 date0 b :
  ctime64_r localtime_r safe0 gm0 date0 (2 ^ 63 - 1) b = asctime64_r date0 b.
Proof. reflexivity. Qed.

Lemma ctime64_null localtime_r safe0 gm0 s : fst (ctime64 localtime_r safe0 gm0 (2 ^ 63 - 1) s) = Undef.
Proof. reflexivity. Qed.

(** A date that [mktime] has to carry into the next year, 32 December 2040, is
    taken for one a year earlier. *)
Lemma mktime64_carry_lost :
  let mktime d := (stamp d, Tm 0 0 0 1 0 (tm_year d + 1) 0 0 0 0 None) in
  let d := Tm 0 0 0 32 11 140 0 0 0 0 None in
  stamp d = 86400 * jan1 2041 /\ fst (mktime64 mktime d tt) = Ret (86400 * jan1 2040).
Proof. split; by vm_compute. Qed.
