(* ===== verification/ResPacket.v ===== *)
(** * Queries of the resolver cache: [dns/resolv/res_cache.c], first half

    The [DnsPacket] functions: checking, hashing and comparing query packets. A
    packet is the array, the offset of its end and the cursor; it is the state,
    or half of it for the functions on two packets. An [int] used as a truth
    value is a [bool]. The functions that only print are left out. *)
From S2P Require Import Prelude CString NsName NsWire NsParse.

(** ** Packets *)

Definition DNS_HEADER_SIZE : Z := 12.

(** The octets of the string literals; the octal escape of [DNS_TYPE_ALL],
    ["\00\0377"], ends behind its third digit. *)
Definition DNS_TYPE_A : list Z := [0; 1].
Definition DNS_TYPE_PTR : list Z := [0; 12].
Definition DNS_TYPE_MX : list Z := [0; 15].
Definition DNS_TYPE_AAAA : list Z := [0; 28].
Definition DNS_TYPE_ALL : list Z := [0; 31; 55].
Definition DNS_CLASS_IN : list Z := [0; 1].

Record DnsPacket : Type := Packet { base : list Z; pend : Z; cursor : Z }.

Definition set_cursor (p : Z) : M DnsPacket unit := updS (fun k => Packet (base k) (pend k) p).

Definition _dnsPacket_init (buff : list Z) (bufflen : Z) : M DnsPacket unit :=
  setS (Packet buff bufflen 0).

Definition _dnsPacket_rewind : M DnsPacket unit := set_cursor 0.

Definition _dnsPacket_skip (count : Z) : M DnsPacket unit :=
  k ← getS;
  let p := cursor k + count in
  set_cursor (if pend k <? p then pend k else p).

Definition _dnsPacket_readInt16 : M DnsPacket Z :=
  k ← getS;
  let p := cursor k in
  if pend k <? p + 2 then mret (-1)
  else
    set_cursor (p + 2);;
    get16 (base k) p.

(** [memcmp(a + i, b + j, n) == 0]; the [int] [n] is converted to [size_t]. *)
Definition memcmp_eq {S} (a : list Z) (i : Z) (b : list Z) (j n : Z) : M S bool :=
  let n := u64 n in
  require ((0 <=? i) && (i + n <=? zlen a) && (0 <=? j) && (j + n <=? zlen b));;
  mret (bool_decide (ztake n (zdrop i a) = ztake n (zdrop j b))).

(** ** Query checking *)

Definition _dnsPacket_checkBytes (numBytes : Z) (bytes : list Z) : M DnsPacket bool :=
  k ← getS;
  let p := cursor k in
  if pend k <? p + numBytes then mret false
  else
    same ← memcmp_eq (base k) p bytes 0 numBytes;
    if negb same then mret false else set_cursor (p + numBytes);; mret true.

Definition checkQName_step (p : Z) : M DnsPacket (step Z bool) :=
  k ← getS;
  if pend k <=? p then mret (Done false) else
  c ← rd (base k) p;
  let p := p + 1 in
  if c =? 0 then set_cursor p;; mret (Done true)
  else if 64 <=? c then mret (Done false)
  else mret (Next (p + c)).

Definition _dnsPacket_checkQName : M DnsPacket bool :=
  k ← getS;
  loop (Datatypes.S (length (base k))) checkQName_step (cursor k).

(** [a && b] and [a || b] of calls. *)
Definition andM {S} (m1 m2 : M S bool) : M S bool := b ← m1; if b : bool then m2 else mret false.
Definition orM {S} (m1 m2 : M S bool) : M S bool := b ← m1; if b : bool then mret true else m2.

Definition _dnsPacket_checkQR : M DnsPacket bool :=
  ok ← _dnsPacket_checkQName;
  if negb ok then mret false else
  ok ← orM (_dnsPacket_checkBytes 2 DNS_TYPE_A) (orM (_dnsPacket_checkBytes 2 DNS_TYPE_PTR)
        (orM (_dnsPacket_checkBytes 2 DNS_TYPE_MX) (orM (_dnsPacket_checkBytes 2 DNS_TYPE_AAAA)
          (_dnsPacket_checkBytes 2 DNS_TYPE_ALL))));
  if negb ok then mret false else
  ok ← _dnsPacket_checkBytes 2 DNS_CLASS_IN;
  mret ok.

Definition checkQRs_step (qdCount : Z) : M DnsPacket (step Z bool) :=
  if negb (0 <? qdCount) then mret (Done true) else
  ok ← _dnsPacket_checkQR;
  if negb ok then mret (Done false) else mret (Next (qdCount - 1)).

Definition _dnsPacket_checkQuery : M DnsPacket bool :=
  k ← getS;
  let b := base k in
  let p := 0 in
  if pend k <? p + DNS_HEADER_SIZE then mret false else
  c2 ← rd b (p + 2); c3 ← rd b (p + 3);
  if negb (Z.land c2 0xFC =? 0) || negb (Z.land c3 0xCF =? 0) then mret false else
  qdCount ← get16 b (p + 4);
  anCount ← get16 b (p + 6);
  dnCount ← get16 b (p + 8);
  arCount ← get16 b (p + 10);
  if negb (anCount =? 0) || negb (dnCount =? 0) || (1 <? arCount) then mret false
  else if qdCount =? 0 then mret false
  else
    set_cursor (p + DNS_HEADER_SIZE);;
    loop (Z.to_nat qdCount + 1) checkQRs_step qdCount.

(** ** Query hashing *)

Definition FNV_MULT : Z := 16777619.
Definition FNV_BASIS : Z := 2166136261.

(** [hash * FNV_MULT ^ c] *)
Definition fnv (hash c : Z) : Z := Z.lxor (u32 (hash * FNV_MULT)) c.

(** [numBytes] is not counted down. *)
Definition hashBytes_step (numBytes : Z) '((p, hash) : Z * Z) : M DnsPacket (step (Z * Z) (Z * Z)) :=
  k ← getS;
  if negb ((0 <? numBytes) && (p <? pend k)) then mret (Done (p, hash)) else
  c ← rd (base k) p;
  mret (Next (p + 1, fnv hash c)).

Definition _dnsPacket_hashBytes (numBytes hash : Z) : M DnsPacket Z :=
  k ← getS;
  '(p, hash) ← loop (Datatypes.S (length (base k))) (hashBytes_step numBytes) (cursor k, hash);
  set_cursor p;;
  mret hash.

Definition hashLabel_step '((p, c, hash) : Z * Z * Z) : M DnsPacket (step (Z * Z * Z) (Z * Z)) :=
  if negb (0 <? c) then mret (Done (p, hash)) else
  k ← getS;
  x ← rd (base k) p;
  mret (Next (p + 1, c - 1, fnv hash x)).

Definition hashQName_step '((p, hash) : Z * Z) : M DnsPacket (step (Z * Z) (Z * Z)) :=
  k ← getS;
  if pend k <=? p then mret (Done (p, hash)) else
  c ← rd (base k) p;
  let p := p + 1 in
  if c =? 0 then mret (Done (p, hash))
  else if 64 <=? c then mret (Done (p, hash))
  else if pend k <=? p + c then mret (Done (p, hash))
  else
    l ← loop (Z.to_nat c + 1) hashLabel_step (p, c, hash);
    mret (Next l).

Definition _dnsPacket_hashQName (hash : Z) : M DnsPacket Z :=
  k ← getS;
  '(p, hash) ← loop (Datatypes.S (length (base k))) hashQName_step (cursor k, hash);
  set_cursor p;;
  mret hash.

Definition _dnsPacket_hashQR (hash : Z) : M DnsPacket Z :=
  hash ← _dnsPacket_hashQName hash;
  _dnsPacket_hashBytes 4 hash.

Definition _dnsPacket_hashRR (hash : Z) : M DnsPacket Z :=
  hash ← _dnsPacket_hashQR hash;
  hash ← _dnsPacket_hashBytes 4 hash;
  rdlength ← _dnsPacket_readInt16;
  _dnsPacket_hashBytes rdlength hash.

(** [for ( ; count > 0; count-- ) hash = f(packet, hash);] *)
Definition hash_step (f : Z -> M DnsPacket Z) '((count, hash) : Z * Z) : M DnsPacket (step (Z * Z) Z) :=
  if negb (0 <? count) then mret (Done hash) else
  hash ← f hash;
  mret (Next (count - 1, hash)).

Definition _dnsPacket_hashQuery : M DnsPacket Z :=
  let hash := FNV_BASIS in
  _dnsPacket_rewind;;
  _dnsPacket_skip 2;;
  k ← getS;
  c ← rd (base k) 2;
  let hash := fnv hash (Z.land c 1) in
  _dnsPacket_skip 1;;
  hash ← _dnsPacket_hashBytes 1 hash;
  count ← _dnsPacket_readInt16;
  _dnsPacket_skip 4;;
  arcount ← _dnsPacket_readInt16;
  hash ← loop (Z.to_nat count + 1) (hash_step _dnsPacket_hashQR) (count, hash);
  loop (Z.to_nat arcount + 1) (hash_step _dnsPacket_hashRR) (arcount, hash).

(** ** Query comparison *)

Definition packets : Type := DnsPacket * DnsPacket.
Definition on_pack1 {A} (m : M DnsPacket A) : M packets A := zoom fst (fun k s => (k, s.2)) m.
Definition on_pack2 {A} (m : M DnsPacket A) : M packets A := zoom snd (fun k s => (s.1, k)) m.

Definition equalName_step '((p1, p2) : Z * Z) : M packets (step (Z * Z) bool) :=
  k1 ← on_pack1 getS; k2 ← on_pack2 getS;
  if (pend k1 <=? p1) || (pend k2 <=? p2) then mret (Done false) else
  c1 ← rd (base k1) p1; c2 ← rd (base k2) p2;
  let p1 := p1 + 1 in let p2 := p2 + 1 in
  if negb (c1 =? c2) then mret (Done false)
  else if c1 =? 0 then
    on_pack1 (set_cursor p1);; on_pack2 (set_cursor p2);; mret (Done true)
  else if 64 <=? c1 then mret (Done false)
  else if (pend k1 <? p1 + c1) || (pend k2 <? p2 + c1) then mret (Done false)
  else
    same ← memcmp_eq (base k1) p1 (base k2) p2 c1;
    if negb same then mret (Done false) else mret (Next (p1 + c1, p2 + c1)).

Definition _dnsPacket_isEqualDomainName : M packets bool :=
  k1 ← on_pack1 getS; k2 ← on_pack2 getS;
  loop (Datatypes.S (length (base k1))) equalName_step (cursor k1, cursor k2).

Definition _dnsPacket_isEqualBytes (numBytes : Z) : M packets bool :=
  k1 ← on_pack1 getS; k2 ← on_pack2 getS;
  let p1 := cursor k1 in let p2 := cursor k2 in
  if (pend k1 <? p1 + numBytes) || (pend k2 <? p2 + numBytes) then mret false else
  same ← memcmp_eq (base k1) p1 (base k2) p2 numBytes;
  if negb same then mret false
  else on_pack1 (set_cursor (p1 + numBytes));; on_pack2 (set_cursor (p2 + numBytes));; mret true.

Definition _dnsPacket_isEqualQR : M packets bool :=
  andM _dnsPacket_isEqualDomainName (_dnsPacket_isEqualBytes (2 + 2)).

Definition _dnsPacket_isEqualRR : M packets bool :=
  ok ← andM _dnsPacket_isEqualQR (_dnsPacket_isEqualBytes 4);
  if negb ok then mret false else
  rdlength1 ← on_pack1 _dnsPacket_readInt16;
  rdlength2 ← on_pack2 _dnsPacket_readInt16;
  if negb (rdlength1 =? rdlength2) then mret false
  else _dnsPacket_isEqualBytes rdlength1.

(** [for ( ; count > 0; count--) if (!f(pack1, pack2)) return 0;] *)
Definition equal_step (f : M packets bool) (count : Z) : M packets (step Z bool) :=
  if negb (0 <? count) then mret (Done true) else
  ok ← f;
  if negb ok then mret (Done false) else mret (Next (count - 1)).

Definition _dnsPacket_isEqualQuery : M packets bool :=
  on_pack1 _dnsPacket_rewind;; on_pack2 _dnsPacket_rewind;;
  k1 ← on_pack1 getS; k2 ← on_pack2 getS;
  x1 ← rd (base k1) 2; x2 ← rd (base k2) 2;
  if negb (Z.land x1 1 =? Z.land x2 1) then mret false else
  y1 ← rd (base k1) 3; y2 ← rd (base k2) 3;
  if negb (y1 =? y2) then mret false else
  on_pack1 (_dnsPacket_skip 4);; on_pack2 (_dnsPacket_skip 4);;
  count1 ← on_pack1 _dnsPacket_readInt16; count2 ← on_pack2 _dnsPacket_readInt16;
  if negb (count1 =? count2) || (count1 <? 0) then mret false else
  on_pack1 (_dnsPacket_skip 4);; on_pack2 (_dnsPacket_skip 4);;
  arcount1 ← on_pack1 _dnsPacket_readInt16; arcount2 ← on_pack2 _dnsPacket_readInt16;
  if negb (arcount1 =? arcount2) || (arcount1 <? 0) then mret false else
  ok ← loop (Z.to_nat count1 + 1) (equal_step _dnsPacket_isEqualQR) count1;
  if negb ok then mret false else
  loop (Z.to_nat arcount1 + 1) (equal_step _dnsPacket_isEqualRR) arcount1.

(** ** What a query is *)

(** A name of plain labels, from [p] to [q]. *)
Inductive qname_at (b : list Z) (e : Z) : Z -> Z -> Prop :=
  | qname_root p : p < e -> znth b p = Some 0 -> qname_at b e p (p + 1)
  | qname_label p c q :
      p < e -> znth b p = Some c -> 0 < c < 64 -> qname_at b e (p + 1 + c) q -> qname_at b e p q.

(** The types that are cached: A, PTR, MX, AAAA and 31. *)
Definition cached_types : list Z := [1; 12; 15; 28; 31].

Definition question_at (b : list Z) (e p q : Z) : Prop :=
  exists n, qname_at b e p n /\ q = n + 4 /\ q <= e /\ u16_at b n ∈ cached_types /\ u16_at b (n + 2) = 1.

(** [n] times [R], one behind the other. *)
Inductive times (R : Z -> Z -> Prop) : Z -> Z -> Z -> Prop :=
  | times_none n p : n <= 0 -> times R n p p
  | times_more n p q r : 0 < n -> R p q -> times R (n - 1) q r -> times R n p r.

Record query_ok (b : list Z) (e : Z) : Prop := QueryOk {
  ok_header : 12 <= e;
  ok_flags : Z.land (byte_at b 2) 0xFC = 0 /\ Z.land (byte_at b 3) 0xCF = 0;
  ok_counts : u16_at b 4 <> 0 /\ u16_at b 6 = 0 /\ u16_at b 8 = 0 /\ u16_at b 10 <= 1;
  ok_questions : exists q, times (question_at b e) (u16_at b 4) 12 q }.

(** A record of the additional section, its name a plain one. *)
Definition record_at (b : list Z) (e p q : Z) : Prop :=
  exists n, qname_at b e p n /\ n + 10 <= e /\ q = n + 10 + u16_at b (n + 8) /\ q <= e.

Lemma times_fun R n p q q' :
  (forall p q q', R p q -> R p q' -> q = q') -> times R n p q -> times R n p q' -> q = q'.
Proof.
  intros HR H. revert q'. induction H as [n p Hn|n p q r Hn Hpq _ IH]; intros q'.
  - inversion 1; subst; [done|lia].
  - inversion 1; subst; [lia|]. apply IH. by rewrite (HR p q q0).
Qed.

Lemma times_le (R : Z -> Z -> Prop) n p q : (forall p q, R p q -> p <= q) -> times R n p q -> p <= q.
Proof. intros HR. induction 1; [lia|]. specialize (HR _ _ H0). lia. Qed.

Section qname.
Context (b : list Z) (e : Z).

Lemma qname_bounds p q : qname_at b e p q -> p < q <= e.
Proof. induction 1; lia. Qed.

Lemma qname_fun p q q' : qname_at b e p q -> qname_at b e p q' -> q = q'.
Proof.
  intros H. revert q'. induction H as [p Hp H0|p c q Hp Hc Hc0 _ IH]; intros q'; inversion 1; simplify_eq; try lia. by apply IH.
Qed.

Lemma question_fun p q q' : question_at b e p q -> question_at b e p q' -> q = q'.
Proof. intros (n & Hn & -> & _) (n' & Hn' & -> & _). by rewrite (qname_fun _ _ _ Hn Hn'). Qed.

Lemma record_fun p q q' : record_at b e p q -> record_at b e p q' -> q = q'.
Proof. intros (n & Hn & _ & -> & _) (n' & Hn' & _ & -> & _). by rewrite (qname_fun _ _ _ Hn Hn'). Qed.
End qname.

(** ** The checks *)

Section check.
Context (b : list Z) (e : Z) (Hb : bytes b) (He : e <= zlen b).

Lemma wp_memcmp_eq {S} (a : list Z) i j n (st : S) (Q : bool -> S -> Prop) E :
  0 <= n < 2 ^ 64 -> 0 <= i -> i + n <= zlen b -> 0 <= j -> j + n <= zlen a ->
  Q (bool_decide (ztake n (zdrop i b) = ztake n (zdrop j a))) st -> wp (memcmp_eq b i a j n) st Q E.
Proof. intros. unfold memcmp_eq. rewrite u64_id by done. cbv zeta. wp_step. apply wp_require; [lia|]. by wp_step. Qed.

(** A check leaves the cursor behind what it accepts, and where it was if it
    accepts nothing. *)
Definition checks (R : Z -> Z -> Prop) (m : M DnsPacket bool) : Prop :=
  forall p E, 0 <= p ->
    wp m (Packet b e p)
       (fun r k => exists q, k = Packet b e q /\ 0 <= q /\ if r then R p q else (forall q, ~ R p q)) E.

Lemma ztake_2 p (l : list Z) x y : znth l p = Some x -> znth l (p + 1) = Some y -> ztake 2 (zdrop p l) = [x; y].
Proof. intros Hx Hy. rewrite (zdrop_cons _ _ _ Hx), (zdrop_cons _ _ _ Hy). done. Qed.

(** Two octets that are the start of a literal. *)
Definition two_at (x : Z) (p q : Z) : Prop := q = p + 2 /\ q <= e /\ u16_at b p = x.

Lemma wp_check2 x u p (Q : bool -> DnsPacket -> Prop) E :
  0 <= p -> is_byte x ->
  (two_at x p (p + 2) -> Q true (Packet b e (p + 2))) ->
  (~ two_at x p (p + 2) -> Q false (Packet b e p)) ->
  wp (_dnsPacket_checkBytes 2 (0 :: x :: u)) (Packet b e p) Q E.
Proof.
  intros Hp Hx HT HF. unfold _dnsPacket_checkBytes. wp_step. apply wp_getS. cbn [base pend cursor]. cbv zeta.
  destruct (Z.ltb_spec e (p + 2)) as [Hlt|Hge].
  { wp_step. apply HF. intros (_ & ? & _). lia. }
  destruct (znth_lt b p) as [v Hv]; [lia|]. destruct (znth_lt b (p + 1)) as [w Hw]; [lia|].
  pose proof (bytes_znth _ _ _ Hb Hv) as Hbv. pose proof (bytes_znth _ _ _ Hb Hw) as Hbw. unfold is_byte in *.
  pose proof (zlen_nonneg u).
  wp_step. apply wp_memcmp_eq; [lia|lia|lia|lia|rewrite !zlen_cons; lia|].
  rewrite (ztake_2 p b v w), (ztake_2 0 (0 :: x :: u) 0 x) by done.
  assert (Hu : u16_at b p = v * 256 + w) by (unfold u16_at, byte_at; by rewrite Hv, Hw).
  case_bool_decide as Heq; cbn [negb].
  - wp_step. apply wp_updS. wp_step. apply HT. simplify_eq. split_and!; [done|lia|]. rewrite Hu. lia.
  - wp_step. apply HF. intros (_ & _ & Ht). rewrite Hu in Ht. apply Heq. f_equal; [lia|f_equal; lia].
Qed.

Lemma checks_qname : checks (qname_at b e) _dnsPacket_checkQName.
Proof.
  intros p E Hp. unfold _dnsPacket_checkQName. wp_step. apply wp_getS. cbn [base cursor].
  apply (wp_loop (fun p' k => k = Packet b e p /\ 0 <= p' /\ (forall q, qname_at b e p q <-> qname_at b e p' q))
    (fun p' _ => Z.to_nat (e - p'))).
  - done.
  - unfold zlen in *. lia.
  - intros p' k (-> & Hp' & Hiff). unfold checkQName_step. wp_step. apply wp_getS. cbn [base pend].
    destruct (Z.leb_spec e p') as [Hle|Hlt].
    { wp_step. exists p. split_and!; [done|done|]. intros q Hq. apply Hiff in Hq. inversion Hq; lia. }
    wp_step. apply wp_rd_lt; [lia|]. intros c Hc. pose proof (bytes_znth _ _ _ Hb Hc) as Hbc. unfold is_byte in Hbc. cbv zeta.
    destruct (Z.eqb_spec c 0) as [->|Hc0].
    { wp_step. apply wp_updS. wp_step. exists (p' + 1). split_and!; [done|lia|]. apply Hiff. by apply qname_root. }
    destruct (Z.leb_spec 64 c) as [Hc64|Hc64].
    { wp_step. exists p. split_and!; [done|done|]. intros q Hq. apply Hiff in Hq. inversion Hq; simplify_eq; lia. }
    wp_step. split; [|lia]. split_and!; [done|lia|]. intros q. rewrite Hiff. split.
    + inversion 1; by simplify_eq.
    + intros Hq. apply (qname_label b e p' c); [done|done|lia|]. done.
Qed.

Lemma wp_andM {S} (m1 m2 : M S bool) s Q E :
  wp m1 s (fun r s' => if r then wp m2 s' Q E else Q false s') E -> wp (andM m1 m2) s Q E.
Proof. intros H. unfold andM. wp_step. eapply wp_conseq; [exact H|]. intros [] s' Hs; [done|by wp_step]. Qed.

Lemma wp_orM {S} (m1 m2 : M S bool) s Q E :
  wp m1 s (fun r s' => if r then Q true s' else wp m2 s' Q E) E -> wp (orM m1 m2) s Q E.
Proof. intros H. unfold orM. wp_step. eapply wp_conseq; [exact H|]. intros [] s' Hs; [by wp_step|done]. Qed.

(** One of the types of [checkQR], the others to follow. *)
Lemma wp_or_check2 x u m p (Q : bool -> DnsPacket -> Prop) E :
  0 <= p -> is_byte x ->
  (two_at x p (p + 2) -> Q true (Packet b e (p + 2))) ->
  (~ two_at x p (p + 2) -> wp m (Packet b e p) Q E) ->
  wp (orM (_dnsPacket_checkBytes 2 (0 :: x :: u)) m) (Packet b e p) Q E.
Proof. intros Hp Hx HT HF. apply wp_orM. by apply wp_check2. Qed.

Lemma checks_QR : checks (question_at b e) _dnsPacket_checkQR.
Proof.
  intros p E Hp. unfold _dnsPacket_checkQR. wp_step. eapply wp_conseq; [by apply checks_qname|].
  intros r k (n & -> & Hn & Hq). destruct r; cbn [negb].
  2: { wp_step. exists n. split_and!; [done|done|]. intros q (n' & Hn' & _). by apply (Hq n'). }
  pose proof (qname_bounds _ _ _ _ Hq). wp_step.
  apply (wp_conseq _ _ (fun r k => if r : bool then k = Packet b e (n + 2) /\ n + 2 <= e /\ u16_at b n ∈ cached_types
                          else k = Packet b e n /\ (n + 2 <= e -> u16_at b n ∉ cached_types))).
  { assert (HT : forall x, two_at x n (n + 2) -> x ∈ cached_types ->
      Packet b e (n + 2) = Packet b e (n + 2) /\ n + 2 <= e /\ u16_at b n ∈ cached_types)
      by (intros x (_ & ? & ->); by auto).
    apply wp_or_check2; [done|done|intros H1; apply (HT _ H1); set_solver|intros H1].
    apply wp_or_check2; [done|done|intros H2; apply (HT _ H2); set_solver|intros H2].
    apply wp_or_check2; [done|done|intros H3; apply (HT _ H3); set_solver|intros H3].
    apply wp_or_check2; [done|done|intros H4; apply (HT _ H4); set_solver|intros H4].
    apply wp_check2; [done|done|intros H5; apply (HT _ H5); set_solver|intros H5].
    split; [done|]. intros Hle Hin. unfold cached_types in Hin. unfold two_at in *. set_solver. }
  intros r k. destruct r; cbn [negb].
  - intros (-> & Hle & Ht). wp_step. apply wp_check2; [lia|done| |]; intros H1; wp_step.
    + exists (n + 2 + 2). split_and!; [done|lia|]. destruct H1 as (_ & H1 & H2). exists n. split_and!; (done || lia).
    + exists (n + 2). split_and!; [done|lia|]. intros q (n' & Hn' & -> & Hle' & _ & Hc). apply H1.
      rewrite (qname_fun _ _ _ _ _ Hq Hn'). unfold two_at. split_and!; (done || lia).
  - intros (-> & Hno). wp_step. exists n. split_and!; [done|lia|]. intros q (n' & Hn' & -> & Hle & Hin & _).
    rewrite <- (qname_fun _ _ _ _ _ Hq Hn') in *. apply Hno; [lia|done].
Qed.

(** A loop of checks. *)
Lemma wp_checks_times R m : checks R m -> (forall p q q', R p q -> R p q' -> q = q') -> forall fuel n p E,
  0 <= p -> (Z.to_nat n < fuel)%nat ->
  wp (loop fuel (fun n => if negb (0 <? n) then mret (Done true)
                          else ok ← m; if negb ok then mret (Done false) else mret (Next (n - 1))) n) (Packet b e p)
     (fun r k => exists q, k = Packet b e q /\ 0 <= q /\ if r : bool then times R n p q else (forall q, ~ times R n p q)) E.
Proof.
  intros Hm HR. induction fuel as [|fuel IH]; intros n p E Hp Hf; [lia|]. apply wp_loop_S.
  destruct (Z.ltb_spec 0 n) as [Hn|Hn]; cbn [negb].
  2: { wp_step. exists p. split_and!; [done|done|]. by apply times_none. }
  wp_step. eapply wp_conseq; [by apply Hm|]. intros r k (q & -> & Hq & Hr). destruct r; cbn [negb]; wp_step.
  - eapply wp_conseq; [apply (IH (n - 1)); lia|]. intros r k (q' & -> & Hq' & Hr'). exists q'. split_and!; [done|done|].
    destruct r; [by apply (times_more R n p q)|]. intros q2. inversion 1; subst; [lia|]. apply (Hr' q2). by rewrite (HR p q q0).
  - exists q. split_and!; [done|done|]. intros q2. inversion 1; subst; [lia|]. by apply (Hr q0).
Qed.

Lemma wp_checkQuery p E :
  wp _dnsPacket_checkQuery (Packet b e p) (fun r k => (r = true <-> query_ok b e) /\ exists q, k = Packet b e q) E.
Proof.
  unfold _dnsPacket_checkQuery. wp_step. apply wp_getS. cbn [base pend cursor]. cbv zeta.
  assert (Hno : forall k : DnsPacket, (exists q, k = Packet b e q) -> (query_ok b e -> False) ->
    (false = true <-> query_ok b e) /\ exists q, k = Packet b e q) by (intros k Hk Hq; split; [split; [done|by intros ?%Hq]|done]).
  unfold DNS_HEADER_SIZE. destruct (Z.ltb_spec e (0 + 12)) as [Hlt|Hge].
  { wp_step. apply Hno; [by eexists|]. intros [? _ _ _]. lia. }
  wp_step. apply wp_rd_byte; [lia|]. wp_step. apply wp_rd_byte; [lia|]. rewrite !Z.add_0_l.
  destruct (negb _ || negb _) eqn:Hf.
  { wp_step. apply Hno; [by eexists|]. intros [_ [H2 H3] _ _]. rewrite H2, H3 in Hf. done. }
  apply orb_false_iff in Hf as [Hf2%negb_false_iff%Z.eqb_eq Hf3%negb_false_iff%Z.eqb_eq].
  do 4 (wp_step; apply wp_get16; [done|lia|lia|]).
  destruct (negb _ || negb _ || _) eqn:Hc.
  { wp_step. apply Hno; [by eexists|]. intros [_ _ (H4 & H6 & H8 & H10) _]. rewrite H6, H8 in Hc.
    cbn in Hc. lia. }
  apply orb_false_iff in Hc as [Hc H10]. apply orb_false_iff in Hc as [H6%negb_false_iff%Z.eqb_eq H8%negb_false_iff%Z.eqb_eq].
  destruct (Z.eqb_spec (u16_at b 4) 0) as [H4|H4].
  { wp_step. apply Hno; [by eexists|]. intros [_ _ (? & _) _]. done. }
  wp_step. apply wp_updS. cbn [base pend].
  eapply wp_conseq; [apply (wp_checks_times _ _ checks_QR (question_fun b e)); lia|].
  intros r k (q & -> & Hq & Hr). destruct r.
  - split; [split; [|done]|by eexists]. intros _. split; [lia|done| |by eexists]. split_and!; (done || lia).
  - apply Hno; [by eexists|]. intros [_ _ _ [q' Hq']]. by apply (Hr q').
Qed.
End check.

(** ** The hash *)

(** The RD bit and every octet behind the first byte of flags. *)
Definition query_hash (b : list Z) (e : Z) : Z :=
  foldl fnv (fnv FNV_BASIS (Z.land (byte_at b 2) 1)) (ztake (e - 3) (zdrop 3 b)).

Lemma fnv_range h c : is_byte c -> 0 <= fnv h c < 2 ^ 32.
Proof.
  intros Hc. unfold is_byte in Hc. unfold fnv. pose proof (u32_range (h * FNV_MULT)) as Hu.
  set (a := u32 (h * FNV_MULT)) in *.
  replace (Z.lxor a c) with (Z.land (Z.lxor a c) (Z.ones 32)); [rewrite Z.land_ones by lia; by apply Z.mod_pos_bound|].
  rewrite <- (Z.mod_small a (2 ^ 32)), <- (Z.mod_small c (2 ^ 32)), <- !Z.land_ones by lia.
  apply Z.bits_inj'. intros i Hi. rewrite !Z.land_spec, !Z.lxor_spec, !Z.land_spec.
  by destruct (Z.testbit a i), (Z.testbit c i), (Z.testbit _ i).
Qed.

Section hash.
Context (b : list Z) (e : Z) (Hb : bytes b) (He : e <= zlen b).

Lemma query_hash_range : 0 <= query_hash b e < 2 ^ 32.
Proof.
  unfold query_hash. assert (H0 : 0 <= fnv FNV_BASIS (Z.land (byte_at b 2) 1) < 2 ^ 32).
  { apply fnv_range. pose proof (Z.land_ones (byte_at b 2) 1 ltac:(lia)) as Hl. change (Z.ones 1) with 1 in Hl. change (2 ^ 1) with 2 in Hl. rewrite Hl.
    pose proof (Z.mod_pos_bound (byte_at b 2) 2 ltac:(lia)). unfold is_byte. lia. }
  assert (Hl : bytes (ztake (e - 3) (zdrop 3 b))) by (apply Forall_take, Forall_drop, Hb).
  revert H0 Hl. generalize (fnv FNV_BASIS (Z.land (byte_at b 2) 1)). induction (ztake (e - 3) (zdrop 3 b)) as [|c l IH]; [done|].
  intros h _ [Hc Hl]%Forall_cons. cbn [foldl]. apply IH; [by apply fnv_range|done].
Qed.

(** [hashBytes] takes everything that is left. *)
Lemma wp_hashBytes n p hash (Q : Z -> DnsPacket -> Prop) E :
  0 < n -> 0 <= p <= e -> Q (foldl fnv hash (ztake (e - p) (zdrop p b))) (Packet b e e) ->
  wp (_dnsPacket_hashBytes n hash) (Packet b e p) Q E.
Proof.
  intros Hn Hp HQ. unfold _dnsPacket_hashBytes. wp_step. apply wp_getS. cbn [base cursor]. wp_step.
  apply (wp_loop (fun '(p', h) k => k = Packet b e p /\ 0 <= p' <= e /\
      foldl fnv h (ztake (e - p') (zdrop p' b)) = foldl fnv hash (ztake (e - p) (zdrop p b)))
    (fun '(p', _) _ => Z.to_nat (e - p'))).
  - split; [done|]. split; [lia|done].
  - unfold zlen in *. lia.
  - intros [p' h] k (-> & Hp' & Hfold). unfold hashBytes_step. wp_step. apply wp_getS. cbn [base pend].
    rewrite (proj2 (Z.ltb_lt 0 n)) by done. destruct (Z.ltb_spec p' e) as [Hlt|Hge]; cbn [andb negb].
    + wp_step. apply wp_rd_lt; [lia|]. intros c Hc. wp_step. split; [|lia]. split; [done|]. split; [lia|]. rewrite <- Hfold.
      rewrite (zdrop_cons _ _ _ Hc). replace (e - p') with ((e - (p' + 1)) + 1) by lia.
      unfold ztake at 2. rewrite Z2Nat.inj_add, Nat.add_comm by lia. done.
    + wp_step. wp_step. apply wp_updS. wp_step. replace p' with e in * by lia. rewrite Z.sub_diag in Hfold.
      change (ztake 0 (zdrop e b)) with (@nil Z) in Hfold. cbn [foldl] in Hfold. by rewrite Hfold.
Qed.

Lemma wp_readInt16_end p (Q : Z -> DnsPacket -> Prop) E :
  e < p + 2 -> Q (-1) (Packet b e p) -> wp _dnsPacket_readInt16 (Packet b e p) Q E.
Proof.
  intros Hp HQ. unfold _dnsPacket_readInt16. wp_step. apply wp_getS. cbn [base pend cursor].
  rewrite (proj2 (Z.ltb_lt _ _)) by lia. by wp_step.
Qed.

Lemma wp_readInt16 p (Q : Z -> DnsPacket -> Prop) E :
  0 <= p -> p + 2 <= e -> Q (u16_at b p) (Packet b e (p + 2)) -> wp _dnsPacket_readInt16 (Packet b e p) Q E.
Proof.
  intros Hp Hle HQ. unfold _dnsPacket_readInt16. wp_step. apply wp_getS. cbn [base pend cursor]. cbv zeta.
  rewrite (proj2 (Z.ltb_ge _ _)) by lia. wp_step. apply wp_updS. by apply wp_get16; [done|lia|lia|].
Qed.

Lemma wp_packet_skip n p (Q : unit -> DnsPacket -> Prop) E :
  Q tt (Packet b e (Z.min e (p + n))) -> wp (_dnsPacket_skip n) (Packet b e p) Q E.
Proof.
  intros HQ. unfold _dnsPacket_skip. wp_step. apply wp_getS. cbn [base pend cursor]. apply wp_updS. cbn [base pend].
  destruct (Z.ltb_spec e (p + n)); [by rewrite Z.min_l in HQ by lia|by rewrite Z.min_r in HQ by lia].
Qed.

Lemma wp_hashQuery p E : 3 <= e ->
  wp _dnsPacket_hashQuery (Packet b e p) (fun h k => h = query_hash b e /\ exists q, k = Packet b e q) E.
Proof.
  intros H3. unfold _dnsPacket_hashQuery. cbv zeta. wp_step. apply wp_updS. cbn [base pend].
  wp_step. apply wp_packet_skip. rewrite Z.min_r by lia. wp_step. apply wp_getS. cbn [base].
  wp_step. apply wp_rd_byte; [lia|]. wp_step. apply wp_packet_skip. rewrite Z.min_r by lia. rewrite Z.add_0_l.
  change (2 + 1) with 3. wp_step. apply wp_hashBytes; [lia|lia|].
  wp_step. apply wp_readInt16_end; [lia|]. wp_step. apply wp_packet_skip. rewrite Z.min_l by lia.
  wp_step. apply wp_readInt16_end; [lia|]. wp_step. change (Z.to_nat (-1) + 1)%nat with 1%nat.
  apply wp_loop_S. cbn [hash_step Z.ltb Z.compare negb]. wp_step. apply wp_loop_S. cbn [hash_step Z.ltb Z.compare negb].
  wp_step. split; [done|by eexists].
Qed.
End hash.

(** ** Comparing queries *)

(** A question for the comparison, which takes any type and class. *)
Definition qr_at (b : list Z) (e p q : Z) : Prop := exists n, qname_at b e p n /\ q = n + 4 /\ q <= e.

Definition agree (b1 b2 : list Z) (p q : Z) : Prop := forall i, p <= i < q -> znth b1 i = znth b2 i.

(** The same questions and additional records, and the same flags but for TC. *)
Record same_query (b1 b2 : list Z) (e : Z) : Prop := SameQuery {
  same_flags : Z.land (byte_at b1 2) 1 = Z.land (byte_at b2 2) 1 /\ byte_at b1 3 = byte_at b2 3;
  same_counts : u16_at b1 4 = u16_at b2 4 /\ u16_at b1 10 = u16_at b2 10;
  same_body : exists q r, times (qr_at b1 e) (u16_at b1 4) 12 q /\ times (record_at b1 e) (u16_at b1 10) q r /\ agree b1 b2 12 r }.

(** The additional records, which the check does not look at, are there. *)
Definition additional_ok (b : list Z) (e : Z) : Prop :=
  forall q, times (qr_at b e) (u16_at b 4) 12 q -> exists r, times (record_at b e) (u16_at b 10) q r.

Lemma agree_app b1 b2 p q r : agree b1 b2 p q -> agree b1 b2 q r -> agree b1 b2 p r.
Proof. intros H1 H2 i Hi. destruct (Z.lt_ge_cases i q); [apply H1|apply H2]; lia. Qed.

Lemma agree_sub b1 b2 p q p' q' : agree b1 b2 p q -> p <= p' -> q' <= q -> agree b1 b2 p' q'.
Proof. intros H ? ? i Hi. apply H. lia. Qed.

Lemma agree_sym b1 b2 p q : agree b1 b2 p q -> agree b2 b1 p q.
Proof. intros H i Hi. symmetry. by apply H. Qed.

Lemma qr_fun b e p q q' : qr_at b e p q -> qr_at b e p q' -> q = q'.
Proof. intros (n & Hn & -> & _) (n' & Hn' & -> & _). by rewrite (qname_fun _ _ _ _ _ Hn Hn'). Qed.

Section transfer.
Context (b1 b2 : list Z) (e : Z).

Lemma qname_agree p q : qname_at b1 e p q -> agree b1 b2 p q -> qname_at b2 e p q.
Proof.
  induction 1 as [p Hp H0|p c q Hp Hc Hc0 Hq IH]; intros Ha.
  - apply qname_root; [done|]. rewrite <- H0. symmetry. apply Ha. lia.
  - pose proof (qname_bounds _ _ _ _ Hq). apply (qname_label _ _ _ c); [done| |done|].
    + rewrite <- Hc. symmetry. apply Ha. lia.
    + apply IH. by eapply agree_sub; [done|lia|].
Qed.

Lemma u16_agree n : agree b1 b2 n (n + 2) -> u16_at b1 n = u16_at b2 n.
Proof. intros Ha. unfold u16_at, byte_at. rewrite !Ha by lia. done. Qed.

Lemma qr_agree p q : qr_at b1 e p q -> agree b1 b2 p q -> qr_at b2 e p q.
Proof. intros (n & Hn & -> & Hq) Ha. exists n. split; [|done]. apply qname_agree; [done|]. eapply agree_sub; [done|lia|lia]. Qed.

Lemma record_le p q : bytes b1 -> record_at b1 e p q -> p + 11 <= q.
Proof.
  intros Hb (n & Hn & _ & -> & _). pose proof (qname_bounds _ _ _ _ Hn). pose proof (u16_at_range b1 Hb (n + 8)). lia.
Qed.

Lemma record_agree p q : bytes b1 -> record_at b1 e p q -> agree b1 b2 p q -> record_at b2 e p q.
Proof.
  intros Hb (n & Hn & Hn10 & -> & Hq) Ha. pose proof (qname_bounds _ _ _ _ Hn). pose proof (u16_at_range b1 Hb (n + 8)).
  exists n. rewrite <- u16_agree; [split_and!; try done|].
  - apply qname_agree; [done|]. eapply agree_sub; [done|lia|lia].
  - eapply agree_sub; [done|lia|lia].
Qed.

Lemma times_agree (R1 R2 : Z -> Z -> Prop) n p q :
  (forall p q, R1 p q -> p <= q) -> (forall p q, R1 p q -> agree b1 b2 p q -> R2 p q) ->
  times R1 n p q -> agree b1 b2 p q -> times R2 n p q.
Proof.
  intros Hle HR. induction 1 as [n p Hn|n p q r Hn Hpq Hqr IH]; intros Ha; [by apply times_none|].
  pose proof (Hle _ _ Hpq). pose proof (times_le _ _ _ _ Hle Hqr).
  apply (times_more _ _ _ q); [done|apply HR; [done|]|apply IH]; (eapply agree_sub; [done|lia|lia]).
Qed.
End transfer.

Lemma qr_le b e p q : qr_at b e p q -> p <= q.
Proof. intros (n & Hn & -> & _). pose proof (qname_bounds _ _ _ _ Hn). lia. Qed.

Lemma record_le' b e p q : bytes b -> record_at b e p q -> p <= q.
Proof. intros Hb H. pose proof (record_le _ _ _ _ Hb H). lia. Qed.

(** What two equal queries have in common. *)
Lemma same_body_transfer b1 b2 e q r : bytes b1 ->
  times (qr_at b1 e) (u16_at b1 4) 12 q -> times (record_at b1 e) (u16_at b1 10) q r -> agree b1 b2 12 r ->
  u16_at b1 4 = u16_at b2 4 -> u16_at b1 10 = u16_at b2 10 ->
  times (qr_at b2 e) (u16_at b2 4) 12 q /\ times (record_at b2 e) (u16_at b2 10) q r.
Proof.
  intros Hb Hq Hr Ha <- <-. pose proof (times_le _ _ _ _ (qr_le b1 e) Hq) as Hle1.
  pose proof (times_le _ _ _ _ (fun p q => record_le' b1 e p q Hb) Hr) as Hle2. split.
  - apply (times_agree b1 b2 (qr_at b1 e)); [apply qr_le|apply qr_agree|done|]. eapply agree_sub; [done|lia|lia].
  - apply (times_agree b1 b2 (record_at b1 e)); [by intros; eapply record_le'|by intros; eapply record_agree|done|].
    eapply agree_sub; [done|lia|lia].
Qed.

Lemma same_query_sym b1 b2 e : bytes b1 -> same_query b1 b2 e -> same_query b2 b1 e.
Proof.
  intros Hb [[Hf Hf'] [Hc Hc'] (q & r & Hq & Hr & Ha)].
  destruct (same_body_transfer _ _ _ _ _ Hb Hq Hr Ha Hc Hc'). split; [done|done|]. exists q, r. split_and!; [done|done|by apply agree_sym].
Qed.

Lemma same_query_trans b1 b2 b3 e : bytes b1 -> bytes b2 ->
  same_query b1 b2 e -> same_query b2 b3 e -> same_query b1 b3 e.
Proof.
  intros Hb1 Hb2 [[Hf Hf'] [Hc Hc'] (q & r & Hq & Hr & Ha)] [[Hg Hg'] [Hd Hd'] (q' & r' & Hq' & Hr' & Ha')].
  destruct (same_body_transfer _ _ _ _ _ Hb1 Hq Hr Ha Hc Hc') as [Hq2 Hr2].
  assert (q' = q) as -> by (eapply times_fun; [apply (qr_fun b2 e)|done|done]).
  assert (r' = r) as -> by (eapply times_fun; [apply (record_fun b2 e)|done|done]).
  split; [by rewrite Hf, Hf'|by rewrite Hc, Hc'|]. exists q, r. split_and!; [done|done|].
  intros i Hi. rewrite Ha by done. by apply Ha'.
Qed.

Lemma question_qr b e p q : question_at b e p q -> qr_at b e p q.
Proof. intros (n & ? & ? & ? & _). by exists n. Qed.

Lemma times_mono (R1 R2 : Z -> Z -> Prop) n p q : (forall p q, R1 p q -> R2 p q) -> times R1 n p q -> times R2 n p q.
Proof. intros HR. induction 1; [by apply times_none|]. eapply times_more; [done|by apply HR|done]. Qed.

(** A checked query with its additional records is the same as itself. *)
Lemma same_query_refl b e : query_ok b e -> additional_ok b e -> same_query b b e.
Proof.
  intros [_ _ _ [q Hq]] Hadd. apply (times_mono _ _ _ _ _ (question_qr b e)) in Hq. destruct (Hadd q Hq) as [r Hr].
  split; [done|done|]. by exists q, r.
Qed.

Section compare.
Context (b1 b2 : list Z) (e : Z) (Hb1 : bytes b1) (Hb2 : bytes b2) (He1 : e <= zlen b1) (He2 : e <= zlen b2).

Definition at_ (p : Z) : packets := (Packet b1 e p, Packet b2 e p).

Definition compares (P : Z -> Prop) (R : Z -> Z -> Prop) (m : M packets bool) : Prop :=
  forall p E, 0 <= p -> P p ->
    wp m (at_ p)
       (fun r s => if r : bool then exists q, s = at_ q /\ 0 <= q /\ R p q /\ agree b1 b2 p q
                   else forall q, R p q -> ~ agree b1 b2 p q) E.

Lemma wp_pack1 {A} (m : M DnsPacket A) p p2 Q E :
  wp m (Packet b1 e p) (fun a k => Q a (k, p2)) (fun x k => E x (k, p2)) -> wp (on_pack1 m) (Packet b1 e p, p2) Q E.
Proof. intros H. unfold on_pack1. apply wp_zoom. exact H. Qed.

Lemma wp_pack2 {A} (m : M DnsPacket A) p p1 Q E :
  wp m (Packet b2 e p) (fun a k => Q a (p1, k)) (fun x k => E x (p1, k)) -> wp (on_pack2 m) (p1, Packet b2 e p) Q E.
Proof. intros H. unfold on_pack2. apply wp_zoom. exact H. Qed.

Lemma agree_slices p n : 0 <= n -> 0 <= p -> p + n <= e ->
  bool_decide (ztake n (zdrop p b1) = ztake n (zdrop p b2)) = true <-> agree b1 b2 p (p + n).
Proof.
  intros Hn Hp Hle. rewrite bool_decide_eq_true. split.
  - intros Heq i Hi. replace i with (p + (i - p)) by lia. rewrite <- !znth_zdrop by lia.
    rewrite <- (znth_ztake (i - p) n (zdrop p b1)), <- (znth_ztake (i - p) n (zdrop p b2)) by lia. by rewrite Heq.
  - intros Ha. apply znth_ext. intros i Hi. destruct (Z.lt_ge_cases i n).
    + rewrite !znth_ztake, !znth_zdrop by lia. apply Ha. lia.
    + rewrite !znth_None; [done|right..]; rewrite zlen_ztake; rewrite ?zlen_zdrop; lia.
Qed.

Lemma compares_bytes n : 0 <= n < 2 ^ 64 -> compares (fun _ => True) (fun p q => q = p + n /\ q <= e) (_dnsPacket_isEqualBytes n).
Proof.
  intros Hn p E Hp _. unfold _dnsPacket_isEqualBytes, at_.
  wp_step. apply wp_pack1, wp_getS. wp_step. apply wp_pack2, wp_getS. cbn [base pend cursor]. cbv zeta. rewrite orb_diag.
  destruct (Z.ltb_spec e (p + n)) as [Hlt|Hge]; [wp_step; intros q [-> ?]; lia|].
  wp_step. apply wp_memcmp_eq; [lia..|]. pose proof (agree_slices p n ltac:(lia) Hp ltac:(lia)) as Hs.
  destruct (bool_decide _); cbn [negb].
  - wp_step. apply wp_pack1, wp_updS. wp_step. apply wp_pack2, wp_updS. wp_step.
    exists (p + n). split_and!; [done|lia|done|lia|by apply Hs].
  - wp_step. intros q [-> _] Ha. apply Hs in Ha. done.
Qed.

Lemma compares_name : compares (fun _ => True) (qname_at b1 e) _dnsPacket_isEqualDomainName.
Proof.
  intros p E Hp _. unfold _dnsPacket_isEqualDomainName, at_.
  wp_step. apply wp_pack1, wp_getS. wp_step. apply wp_pack2, wp_getS. cbn [base cursor].
  apply (wp_loop (fun '(p1, p2) s => s = (Packet b1 e p, Packet b2 e p) /\ p1 = p2 /\ 0 <= p1 /\
      (forall q, qname_at b1 e p q /\ agree b1 b2 p q <-> qname_at b1 e p1 q /\ agree b1 b2 p1 q))
    (fun '(p1, _) _ => Z.to_nat (e - p1))).
  - done.
  - unfold zlen in *. lia.
  - intros [p1 p2] s (-> & <- & Hp1 & Hiff). unfold equalName_step.
    assert (Hno : (forall q, qname_at b1 e p1 q -> ~ agree b1 b2 p1 q) -> forall q, qname_at b1 e p q -> ~ agree b1 b2 p q)
      by (intros H q Hq Ha; destruct (proj1 (Hiff q) (conj Hq Ha)); by apply (H q)).
    wp_step. apply wp_pack1, wp_getS. wp_step. apply wp_pack2, wp_getS. cbn [base pend]. rewrite orb_diag.
    destruct (Z.leb_spec e p1) as [Hle|Hlt]; [wp_step; apply Hno; intros q Hq; inversion Hq; lia|].
    wp_step. apply wp_rd_lt; [lia|]. intros c1 Hc1. wp_step. apply wp_rd_lt; [lia|]. intros c2 Hc2. cbv zeta.
    pose proof (bytes_znth _ _ _ Hb1 Hc1) as Hbc. unfold is_byte in Hbc.
    destruct (Z.eqb_spec c1 c2) as [<-|Hne]; cbn [negb].
    2: { wp_step. apply Hno. intros q Hq Ha. pose proof (qname_bounds _ _ _ _ Hq). specialize (Ha p1 ltac:(lia)). congruence. }
    destruct (Z.eqb_spec c1 0) as [->|Hc0].
    { wp_step. apply wp_pack1, wp_updS. wp_step. apply wp_pack2, wp_updS. wp_step.
      exists (p1 + 1). split; [done|]. split; [lia|]. apply Hiff. split; [by apply qname_root|].
      intros i Hi. replace i with p1 by lia. congruence. }
    destruct (Z.leb_spec 64 c1) as [H64|H64]; [wp_step; apply Hno; intros q Hq; inversion Hq; simplify_eq; lia|].
    rewrite orb_diag. destruct (Z.ltb_spec e (p1 + 1 + c1)) as [Hlt2|Hge2].
    { wp_step. apply Hno. intros q Hq. inversion Hq; simplify_eq.
      match goal with H : qname_at _ _ (_ + 1 + _) _ |- _ => pose proof (qname_bounds _ _ _ _ H) end. lia. }
    wp_step. apply wp_memcmp_eq; [lia..|].
    pose proof (agree_slices (p1 + 1) c1 ltac:(lia) ltac:(lia) ltac:(lia)) as Hs.
    assert (Hsplit : forall q, qname_at b1 e p1 q -> qname_at b1 e (p1 + 1 + c1) q /\ p1 + 1 + c1 < q)
      by (intros q Hq; inversion Hq; simplify_eq; split; [done|]; by eapply qname_bounds).
    destruct (bool_decide _); cbn [negb]; wp_step.
    + split; [|lia]. split; [done|]. split; [done|]. split; [lia|]. intros q. rewrite Hiff. split.
      * intros [Hq Ha]. destruct (Hsplit q Hq). split; [done|]. eapply agree_sub; [done|lia|lia].
      * intros [Hq Ha]. split; [apply (qname_label _ _ _ c1); (done || lia)|].
        apply (agree_app _ _ _ (p1 + 1 + c1)); [|done]. apply (agree_app _ _ _ (p1 + 1)); [|by apply Hs].
        intros i Hi. replace i with p1 by lia. congruence.
    + apply Hno. intros q Hq Ha. destruct (Hsplit q Hq).
      assert (false = true) by (apply Hs; eapply agree_sub; [done|lia|lia]). done.
Qed.

Lemma compares_QR : compares (fun _ => True) (qr_at b1 e) _dnsPacket_isEqualQR.
Proof.
  intros p E Hp _. unfold _dnsPacket_isEqualQR. apply wp_andM. eapply wp_conseq; [by apply compares_name|].
  intros [] s.
  - intros (n & -> & Hn & Hq & Ha). eapply wp_conseq; [by apply (compares_bytes (2 + 2))|]. cbn beta. intros [] s.
    + intros (q & -> & ? & [-> Hle] & Ha'). exists (n + 4). split_and!; [done|lia| |by eapply agree_app]. by exists n.
    + intros Hno q (n' & Hn' & -> & Hle) Ha'. rewrite <- (qname_fun _ _ _ _ _ Hq Hn') in *.
      pose proof (qname_bounds _ _ _ _ Hq). apply (Hno (n + 4)); [done|]. eapply agree_sub; [done|lia|lia].
  - intros Hno q (n & Hn & -> & _) Ha. apply (Hno n); [done|]. eapply agree_sub; [done|lia|lia].
Qed.

Lemma compares_RR : compares (fun p => exists q, record_at b1 e p q) (record_at b1 e) _dnsPacket_isEqualRR.
Proof.
  intros p E Hp (q0 & n & Hn & Hn10 & -> & Hq0). pose proof (qname_bounds _ _ _ _ Hn) as Hpn.
  pose proof (u16_at_range b1 Hb1 (n + 8)) as Hr1.
  assert (Hrec : forall q, record_at b1 e p q -> q = n + 10 + u16_at b1 (n + 8)).
  { intros q (n' & Hn' & _ & -> & _). by rewrite (qname_fun _ _ _ _ _ Hn Hn'). }
  assert (Hno : forall r, p <= r <= n + 10 + u16_at b1 (n + 8) -> ~ agree b1 b2 p r -> forall q, record_at b1 e p q -> ~ agree b1 b2 p q).
  { intros r Hr Hna q ->%Hrec Ha. apply Hna. eapply agree_sub; [done|lia|lia]. }
  unfold _dnsPacket_isEqualRR. wp_step. apply wp_andM. eapply wp_conseq; [by apply compares_QR|]. intros [] s; cbn [negb].
  2: { intros Hne. wp_step. apply (Hno (n + 4)); [lia|]. apply Hne. exists n. split_and!; (done || lia). }
  intros (q & -> & Hq & (n' & Hn' & -> & _) & Ha). rewrite <- (qname_fun _ _ _ _ _ Hn Hn') in *. clear n' Hn'.
  eapply wp_conseq; [by apply (compares_bytes 4)|]. cbn beta. intros [] s; cbn [negb].
  2: { intros Hne. wp_step. apply (Hno (n + 8)); [lia|]. intros Ha'. apply (Hne (n + 4 + 4)); [split; [done|lia]|].
       eapply agree_sub; [done|lia|lia]. }
  intros (q & -> & _ & [-> _] & Ha2). replace (n + 4 + 4) with (n + 8) in * by lia.
  pose proof (agree_app _ _ _ _ _ Ha Ha2) as Ha8. unfold at_.
  wp_step. apply wp_pack1, wp_readInt16; [done|lia|lia|lia|]. wp_step. apply wp_pack2, wp_readInt16; [done|lia|lia|lia|].
  destruct (Z.eqb_spec (u16_at b1 (n + 8)) (u16_at b2 (n + 8))) as [Heq|Hne]; cbn [negb].
  2: { wp_step. apply (Hno (n + 10)); [lia|]. intros Ha'. apply Hne, u16_agree. eapply agree_sub; [done|lia|lia]. }
  assert (Ha10 : agree b1 b2 (n + 8) (n + 10)).
  { pose proof (byte_at_range b1 Hb1 (n + 8)). pose proof (byte_at_range b1 Hb1 (n + 8 + 1)).
    pose proof (byte_at_range b2 Hb2 (n + 8)). pose proof (byte_at_range b2 Hb2 (n + 8 + 1)). unfold is_byte in *.
    unfold u16_at in Heq. assert (byte_at b1 (n + 8) = byte_at b2 (n + 8) /\ byte_at b1 (n + 8 + 1) = byte_at b2 (n + 8 + 1)) as [H8 H9] by lia.
    intros i Hi. assert (byte_at b1 i = byte_at b2 i) as Hi' by (assert (i = n + 8 \/ i = n + 8 + 1) as [->| ->] by lia; done).
    unfold byte_at in Hi'. destruct (znth_lt b1 i ltac:(lia)) as [x Hx], (znth_lt b2 i ltac:(lia)) as [y Hy].
    rewrite Hx, Hy in *. cbn in Hi'. by subst. }
  eapply wp_conseq; [apply (compares_bytes (u16_at b1 (n + 8))); [lia|lia|done]|]. cbn beta.
  replace (n + 8 + 2) with (n + 10) by lia. intros [] s.
  - intros (q & -> & Hq' & [-> Hle] & Ha3). exists (n + 10 + u16_at b1 (n + 8)). split_and!; [done|lia| |].
    + exists n. by split_and!.
    + eapply agree_app; [exact Ha8|]. by eapply agree_app.
  - intros Hne. apply (Hno (n + 10 + u16_at b1 (n + 8))); [lia|]. intros Ha'. apply (Hne (n + 10 + u16_at b1 (n + 8))); [done|].
    eapply agree_sub; [done|lia|lia].
Qed.

(** A loop of comparisons. *)
Lemma compares_times P R m : compares P R m -> (forall p q q', R p q -> R p q' -> q = q') -> (forall p q, R p q -> p <= q) ->
  forall fuel n p E, 0 <= p -> (Z.to_nat n < fuel)%nat ->
  ((forall p, P p) \/ exists q, times R n p q /\ (forall p q, R p q -> P p)) ->
  wp (loop fuel (equal_step m) n) (at_ p)
     (fun r s => if r : bool then exists q, s = at_ q /\ 0 <= q /\ times R n p q /\ agree b1 b2 p q
                 else forall q, times R n p q -> ~ agree b1 b2 p q) E.
Proof.
  intros Hm HR Hle. induction fuel as [|fuel IH]; intros n p E Hp Hf HP; [lia|]. apply wp_loop_S. unfold equal_step at 1.
  destruct (Z.ltb_spec 0 n) as [Hn|Hn]; cbn [negb].
  2: { wp_step. exists p. split_and!; [done|done|by apply times_none|]. intros i Hi. lia. }
  assert (HPp : P p) by (destruct HP as [HP|(q & Ht & HP)]; [done|]; inversion Ht; subst; [lia|]; by eapply HP).
  wp_step. eapply wp_conseq; [by apply Hm|]. intros [] s; cbn [negb].
  - intros (q & -> & Hq & Hpq & Ha). wp_step. eapply wp_conseq; [apply (IH (n - 1)); [lia|lia|]|].
    { destruct HP as [HP|(q2 & Ht & HP)]; [by left|]. right. exists q2. inversion Ht; subst; [lia|]. by rewrite (HR p q q0). }
    intros [] s.
    + intros (q' & -> & Hq' & Ht & Ha'). exists q'. split_and!; [done|done|by eapply times_more|by eapply agree_app].
    + intros Hno q2 Ht Ha'. inversion Ht; subst; [lia|]. rewrite <- (HR p q q0) in * by done. pose proof (Hle _ _ Hpq).
      apply (Hno q2); [done|]. eapply agree_sub; [done|lia|lia].
  - intros Hno. wp_step. intros q2 Ht Ha. inversion Ht; subst; [lia|].
    match goal with H : times R (n - 1) _ _ |- _ => pose proof (times_le _ _ _ _ Hle H) end.
    apply (Hno q); [done|]. eapply agree_sub; [done|lia|lia].
Qed.

(** [isEqualQuery] of packets with a whole header, the first with all the
    additional records it announces. *)
Lemma wp_isEqualQuery p1 p2 E : 12 <= e -> additional_ok b1 e ->
  wp _dnsPacket_isEqualQuery (Packet b1 e p1, Packet b2 e p2) (fun r _ => r = true <-> same_query b1 b2 e) E.
Proof.
  intros H12 Hadd. unfold _dnsPacket_isEqualQuery.
  wp_step. apply wp_pack1, wp_updS. wp_step. apply wp_pack2, wp_updS. cbn [base pend].
  wp_step. apply wp_pack1, wp_getS. wp_step. apply wp_pack2, wp_getS. cbn [base].
  assert (Hno : ~ same_query b1 b2 e -> false = true <-> same_query b1 b2 e) by (intros H; by split).
  do 2 (wp_step; apply wp_rd_byte; [lia|]).
  destruct (Z.eqb_spec (Z.land (byte_at b1 2) 1) (Z.land (byte_at b2 2) 1)) as [H2|H2]; cbn [negb].
  2: { wp_step. apply Hno. by intros [[? _] _ _]. }
  do 2 (wp_step; apply wp_rd_byte; [lia|]).
  destruct (Z.eqb_spec (byte_at b1 3) (byte_at b2 3)) as [H3|H3]; cbn [negb]; [|wp_step; apply Hno; by intros [[_ ?] _ _]].
  wp_step. apply wp_pack1, wp_packet_skip. wp_step. apply wp_pack2, wp_packet_skip. rewrite Z.min_r by lia.
  wp_step. apply wp_pack1, wp_readInt16; [done|lia|lia|lia|]. wp_step. apply wp_pack2, wp_readInt16; [done|lia|lia|lia|].
  pose proof (u16_at_range b1 Hb1 (0 + 4)). pose proof (u16_at_range b1 Hb1 10). rewrite (proj2 (Z.ltb_ge (u16_at b1 (0 + 4)) 0)), orb_false_r by lia.
  destruct (Z.eqb_spec (u16_at b1 (0 + 4)) (u16_at b2 (0 + 4))) as [H4|H4]; cbn [negb]; [|wp_step; apply Hno; by intros [_ [? _] _]].
  wp_step. apply wp_pack1, wp_packet_skip. wp_step. apply wp_pack2, wp_packet_skip. rewrite Z.min_r by lia. change (0 + 4 + 2 + 4) with 10.
  wp_step. apply wp_pack1, wp_readInt16; [done|lia|lia|lia|]. wp_step. apply wp_pack2, wp_readInt16; [done|lia|lia|lia|].
  rewrite (proj2 (Z.ltb_ge (u16_at b1 10) 0)), orb_false_r by lia. change (0 + 4) with 4 in *. change (10 + 2) with 12.
  destruct (Z.eqb_spec (u16_at b1 10) (u16_at b2 10)) as [H10|H10]; cbn [negb]; [|wp_step; apply Hno; by intros [_ [_ ?] _]].
  wp_step. eapply wp_conseq.
  { apply (compares_times _ _ _ compares_QR (qr_fun b1 e) (qr_le b1 e) _ (u16_at b1 4) 12); [lia|lia|by left]. }
  pose proof (fun p q => record_le' b1 e p q Hb1) as Hrle.
  intros [] s; cbn [negb].
  2: { intros Hne. wp_step. apply Hno. intros [_ _ (q & r & Hq & Hr & Ha)]. apply (Hne q); [done|].
       pose proof (times_le _ _ _ _ Hrle Hr). eapply agree_sub; [done|lia|lia]. }
  intros (q & -> & Hq0 & Hq & Ha). destruct (Hadd q Hq) as [r Hr]. eapply wp_conseq.
  { apply (compares_times _ _ _ compares_RR (record_fun b1 e) Hrle _ (u16_at b1 10) q); [done|lia|]. right. exists r. split; [done|].
    intros p q' Hrec. by exists q'. }
  intros [] s.
  - intros (r' & -> & _ & Hr' & Ha'). split; [|done]. intros _. split; [done|done|]. exists q, r'.
    split_and!; [done|done|]. by eapply agree_app.
  - intros Hne. apply Hno. intros [_ _ (q' & r' & Hq' & Hr' & Ha')].
    assert (q' = q) as -> by (eapply times_fun; [apply (qr_fun b1 e)|done|done]). apply (Hne r'); [done|].
    pose proof (times_le _ _ _ _ (qr_le b1 e) Hq). eapply agree_sub; [done|lia|lia].
Qed.
End compare.
