(* ===== verification/ResTtl.v ===== *)
(** * How long an answer is kept: [answer_getTTL] of [dns/resolv/res_cache.c]

    The least TTL of the answer section, or for an answer without one the least
    of the SOA records in the authority section, found with [ns_initparse] and
    [ns_parserr]. The message handle and the record of the C functions are
    local and not initialised; here they are arguments, as is the array in which
    [ns_parserr] expands names. *)
From S2P Require Import Prelude CString NsName NsWire NsText NsNtop NsPton NsParse NsRecords.

(** ** The code *)

Definition ns_t_soa : Z := 6.

(** [continue] in the loop is [Next]; [dn_skipname(...) == -1] is its error. *)
Definition negative_step (tmp0 : list Z) (nscount : Z) '((n, result) : Z * Z) : M (ns_msg * ns_rr) (step (Z * Z) Z) :=
  if negb (n <? nscount) then mret (Done result) else
  ok ← try (ns_parserr tmp0 ns_s_ns n);
  '(handle, rr) ← getS;
  match ok with
  | inr _ => mret (Next (n + 1, result))
  | inl _ =>
      if negb (type (fixed rr) =? ns_t_soa) then mret (Next (n + 1, result)) else
      data ← non_null (rdata (fixed rr));
      let edata := data + rdlength (fixed rr) in
      let rec_result := ttl (fixed rr) in
      len ← try (dn_skipname (_msg handle) data edata);
      match len with
      | inr _ => mret (Next (n + 1, result))
      | inl len =>
          let data := data + len in
          len ← try (dn_skipname (_msg handle) data edata);
          match len with
          | inr _ => mret (Next (n + 1, result))
          | inl len =>
              let data := data + len in
              if negb (edata - data =? 5 * NS_INT32SZ) then mret (Next (n + 1, result)) else
              let data := data + NS_INT32SZ * 4 in
              minimum ← get32 (_msg handle) data;
              let rec_result := if minimum <? rec_result then minimum else rec_result in
              mret (Next (n + 1, if (n =? 0) || (rec_result <? result) then rec_result else result))
          end
      end
  end.

Definition ns_msg_count {S} (handle : ns_msg) (section : Z) : M S Z := rd (_counts handle) section.

Definition answer_getNegativeTTL {S} (tmp0 : list Z) (rr : ns_rr) (handle : ns_msg) : M S Z :=
  nscount ← ns_msg_count handle ns_s_ns;
  '(result, _) ← on_local (handle, rr) (loop (Z.to_nat nscount + 1) (negative_step tmp0 nscount) (0, 0));
  mret result.

Definition ttl_step (tmp0 : list Z) (ancount : Z) '((n, result) : Z * Z) : M (ns_msg * ns_rr) (step (Z * Z) Z) :=
  if negb (n <? ancount) then mret (Done result) else
  ok ← try (ns_parserr tmp0 ns_s_an n);
  '(_, rr) ← getS;
  match ok with
  | inr _ => mret (Next (n + 1, result))
  | inl _ =>
      let t := ttl (fixed rr) in
      mret (Next (n + 1, if (n =? 0) || (t <? result) then t else result))
  end.

Definition answer_getTTL {S} (tmp0 : list Z) (handle : ns_msg) (rr : ns_rr) (answer : list Z) (answerlen : Z) : M S Z :=
  ok ← try (on_local handle (ns_initparse answer answerlen));
  match ok with
  | inr _ => mret 0
  | inl (_, handle) =>
      ancount ← ns_msg_count handle ns_s_an;
      if ancount =? 0 then answer_getNegativeTTL tmp0 rr handle
      else
        '(result, _) ← on_local (handle, rr) (loop (Z.to_nat ancount + 1) (ttl_step tmp0 ancount) (0, 0));
        mret result
  end.

(** ** The least time to live *)

(** The least of the known times; 0 when the first one is not known. *)
Definition least (ts : list (option Z)) : Z :=
  match ts with
  | Some t :: ts => foldr Z.min t (omap id ts)
  | _ => 0
  end.

Section records.
Context (b : list Z) (eom : Z).

(** The TTL of the answer record at [p]; none if its name cannot be expanded. *)
Definition answer_ttl (p : Z) (t : option Z) : Prop :=
  match t with
  | Some t => exists m, span_at b p m /\ t = u32_at b (m + 4)
  | None => forall ls, ~ expandable b eom p NS_MAXDNAME ls
  end.

(** The data of an SOA record: two names and five numbers. *)
Definition soa_at (data edata q : Z) : Prop :=
  exists q1, span_at b data q1 /\ span_at b q1 q /\ q + 20 = edata.

(** The lesser of the TTL and the last field of the SOA record at [p]. *)
Definition negative_ttl (p : Z) (t : option Z) : Prop :=
  match t with
  | Some t => exists m q, span_at b p m /\ u16_at b m = ns_t_soa /\ soa_at (m + 10) (m + 10 + u16_at b (m + 8)) q /\
                t = Z.min (u32_at b (m + 4)) (u32_at b (q + 16))
  | None => (forall ls, ~ expandable b eom p NS_MAXDNAME ls) \/
            (exists m, span_at b p m /\ (u16_at b m <> ns_t_soa \/ forall q, ~ soa_at (m + 10) (m + 10 + u16_at b (m + 8)) q))
  end.

(** How long a well-formed answer is kept. *)
Definition kept (starts : list (list Z)) (v : Z) : Prop :=
  exists ps ts, (match znth starts 1 with
     | Some [] => znth starts 2 = Some ps /\ Forall2 negative_ttl ps ts
     | s => s = Some ps /\ Forall2 answer_ttl ps ts
     end) /\ v = least ts.
End records.

(** ** The loops *)

(** A loop over the records of a section that keeps the least time. *)
Lemma least_snoc ts t :
  0 <= default 0 t ->
  least (ts ++ [t]) = match t with
                      | None => least ts
                      | Some t => if (zlen ts =? 0) || (t <? least ts) then t else least ts
                      end.
Proof.
  intros Ht. destruct ts as [|[x|] ts].
  - by destruct t.
  - cbn [least app]. rewrite omap_app. pose proof (zlen_nonneg ts). rewrite zlen_cons, (proj2 (Z.eqb_neq _ 0)) by lia. cbn [orb].
    destruct t as [t|]; cbn; [|by rewrite app_nil_r]. rewrite foldr_app. cbn.
    assert (Hmin : forall l a, foldr Z.min (Z.min t a) l = Z.min t (foldr Z.min a l)).
    { induction l as [|y l IH]; intros a; [done|]. cbn. rewrite IH. lia. }
    rewrite Hmin. destruct (Z.ltb_spec t (foldr Z.min x (omap id ts))); lia.
  - pose proof (zlen_nonneg ts). rewrite zlen_cons, (proj2 (Z.eqb_neq _ 0)) by lia. cbn [orb least app].
    destruct t as [t|]; [|done]. cbn in Ht. by rewrite (proj2 (Z.ltb_ge _ _)) by lia.
Qed.

Section loops.
Context (b : list Z) (eom : Z) (Hb : bytes b) (Hr : readable b eom) (starts : list (list Z)).
Context (Hwf : well_formed b eom starts).
Context (tmp0 : list Z) (Htmp : zlen tmp0 = NS_MAXCDNAME).

(** The handle and the record of a loop. *)
Definition parsing '((h, r) : ns_msg * ns_rr) : Prop :=
  handle_ok starts h /\ _msg h = b /\ _eom h = eom /\ zlen (name r) = NS_MAXDNAME.

Lemma wp_nth_record section n ps s E :
  parsing s -> znth starts section = Some ps -> 0 <= n < zlen ps ->
  wp (try (ns_parserr tmp0 section n)) s
     (fun ok s' => parsing s' /\ exists p m, znth ps n = Some p /\ span_at b p m /\ 0 <= m /\ m + rr_size b section m <= eom /\
        match ok with
        | inl _ => fixed s'.2 = fixed_at b section m
        | inr _ => forall ls, ~ expandable b eom p NS_MAXDNAME ls
        end) E.
Proof.
  destruct s as [h r]. intros (Hok & Hm & He & Hl) Hps Hn.
  destruct (znth_lt ps n Hn) as [p Hp].
  assert (Htgt : target h section n = n) by (unfold target; case_match; lia).
  assert (Hnth : nth_record starts section n = Some p) by (unfold nth_record; by rewrite Hps).
  destruct (record_facts b eom Hb starts Hwf _ _ _ Hnth) as (ps' & m & e & _ & _ & _ & Hs & Hm0 & Hfit & _).
  rewrite <- Hm in Hb. apply wp_try. eapply wp_mono.
  { apply (wp_parserr_handle tmp0 starts h r section n); [done|done|by rewrite Hm, He|done|done]. }
  - intros _ [h' r'] (p' & m' & ls & Hp' & _ & Hs' & _ & Hl' & Hf & Hok' & Hsame & _). rewrite Htgt, Hnth in Hp'. injection Hp' as <-.
    rewrite Hm in Hs', Hf. rewrite <- (span_at_fun _ _ _ _ Hs Hs') in Hf.
    split; [|exists p, m; by split_and!]. unfold parsing. rewrite Hsame. split_and!; [by rewrite <- Hsame|done|done|done].
  - intros err [h' r'] (Hok' & Hsame & Hl' & Hno). rewrite Htgt, Hnth in Hno. destruct Hno as [_ Hno]. rewrite Hm, He in Hno.
    split; [|exists p, m; by split_and!]. unfold parsing. rewrite Hsame. split_and!; [by rewrite <- Hsame|done|done|done].
Qed.

Lemma u32_at_range p : 0 <= u32_at b p < 2 ^ 32.
Proof. pose proof (u16_at_range b Hb p). pose proof (u16_at_range b Hb (p + 2)). unfold u32_at. lia. Qed.

(** The invariant of both loops, and how a record extends it. *)
Definition so_far (R : Z -> option Z -> Prop) (ps : list Z) '((n, result) : Z * Z) (s : ns_msg * ns_rr) : Prop :=
  parsing s /\ 0 <= n <= zlen ps /\ exists ts, Forall2 R (ztake n ps) ts /\ result = least ts.

Lemma so_far_next (R : Z -> option Z -> Prop) ps n result s s' p t :
  so_far R ps (n, result) s -> parsing s' -> znth ps n = Some p -> R p t -> 0 <= default 0 t ->
  so_far R ps (n + 1, match t with
                      | None => result
                      | Some t => if (n =? 0) || (t <? result) then t else result
                      end) s'.
Proof.
  intros (_ & Hn & ts & Hts & ->) Hs' Hp Ht H0. pose proof (znth_Some _ _ _ Hp). split; [done|]. split; [lia|].
  exists (ts ++ [t]). split.
  - rewrite (ztake_snoc _ _ _ Hp). apply Forall2_app; [done|]. by constructor.
  - rewrite least_snoc by done. replace (zlen ts) with n; [done|]. apply Forall2_length in Hts.
    rewrite <- (zlen_ztake n ps) by lia. unfold zlen. by rewrite Hts.
Qed.

(** One of the loops, whose step extends the invariant. *)
Lemma wp_least_loop R ps step_ s E :
  parsing s ->
  (forall n result s, so_far R ps (n, result) s ->
     wp (step_ (n, result)) s
        (fun st s' => match st with
                      | Next l => so_far R ps l s' /\ l.1 = n + 1
                      | Done r => r = result /\ n = zlen ps
                      end) E) ->
  wp (loop (Z.to_nat (zlen ps) + 1) step_ (0, 0)) s (fun r _ => exists ts, Forall2 R ps ts /\ r = least ts) E.
Proof.
  intros Hs Hstep. apply (wp_loop (so_far R ps) (fun '(n, _) _ => Z.to_nat (zlen ps - n))).
  - split; [done|]. pose proof (zlen_nonneg ps). split; [lia|]. exists []. split; [constructor|done].
  - lia.
  - intros [n result] s' Hinv. eapply wp_conseq; [by apply Hstep|]. intros [[n' r']|r] s'' Hst.
    + destruct Hst as [Hst Hn]. split; [done|]. cbn in Hn. subst n'. destruct Hst as (_ & ? & _). lia.
    + destruct Hst as [-> ->]. destruct Hinv as (_ & _ & ts & Hts & ->). exists ts. by rewrite ztake_all in Hts.
Qed.

Lemma wp_ttl_loop ps s E :
  parsing s -> znth starts ns_s_an = Some ps ->
  wp (loop (Z.to_nat (zlen ps) + 1) (ttl_step tmp0 (zlen ps)) (0, 0)) s
     (fun r _ => exists ts, Forall2 (answer_ttl b eom) ps ts /\ r = least ts) E.
Proof.
  intros Hs Hps. apply wp_least_loop; [done|]. intros n result st Hinv. pose proof Hinv as (Hst & Hn & _). unfold ttl_step.
  destruct (Z.ltb_spec n (zlen ps)) as [Hlt|Hge]; cbn [negb]; [|wp_step; split; [done|lia]].
  wp_step. eapply wp_conseq; [apply (wp_nth_record ns_s_an n ps); [done|done|lia]|].
  intros ok [h r] (Hpar & p & m & Hp & Hspan & Hm & _ & Hok). wp_step. apply wp_getS. destruct ok as [?|?]; wp_step; (split; [|done]).
  - cbn [snd] in Hok. rewrite Hok. cbn [fixed_at ttl]. apply (so_far_next _ _ _ _ _ _ _ (Some (u32_at b (m + 4))) Hinv Hpar Hp).
    + by exists m.
    + pose proof (u32_at_range (m + 4)). cbn. lia.
  - by apply (so_far_next _ _ _ _ _ _ _ None Hinv Hpar Hp).
Qed.

Lemma wp_try_skipname {S} p edata (st : S) E : 0 <= p -> edata <= zlen b ->
  wp (try (dn_skipname b p edata)) st
     (fun r st' => st' = st /\ match r with
        | inl n => 0 <= n /\ p + n <= edata /\ (p + n < edata -> span_at b p (p + n)) /\
            (forall q, span_at b p q -> q <= edata -> q = p + n)
        | inr _ => forall q, span_at b p q -> edata < q
        end) E.
Proof.
  intros Hp He.
  assert (Hspan : forall q, span_at b p q -> q <= edata -> wp (dn_skipname b p edata) st (fun r _ => q = p + r) (fun _ _ => False)).
  { intros q Hq Hle. unfold dn_skipname. wp_step. eapply wp_conseq; [by apply (wp_skip b edata Hb He p q)|].
    intros r st' [-> _]. wp_step. lia. }
  pose proof (wp_skipname b edata Hb He p st Hp) as Hw. unfold wp in Hspan.
  apply wp_eq in Hw as [(n & st' & Hrun & ? & ? & ? & ->)|(err & st' & Hrun & _ & ->)]; rewrite Hrun in Hspan.
  - apply wp_try. unfold wp. rewrite Hrun. split; [done|]. by split_and!.
  - apply wp_try. unfold wp. rewrite Hrun. split; [done|]. intros q Hq. destruct (Z.lt_ge_cases edata q); [done|].
    exfalso. by apply (Hspan q).
Qed.

(** The end of a name is before the end of the names that follow it. *)
Lemma soa_at_split data edata q : soa_at b data edata q -> exists q1, span_at b data q1 /\ span_at b q1 q /\ q1 < q /\ q + 20 = edata.
Proof. intros (q1 & H1 & H2 & H3). exists q1. pose proof (span_at_lt b Hb _ _ H2). split_and!; (done || lia). Qed.

Lemma wp_negative_loop ps s E :
  parsing s -> znth starts ns_s_ns = Some ps ->
  wp (loop (Z.to_nat (zlen ps) + 1) (negative_step tmp0 (zlen ps)) (0, 0)) s
     (fun r _ => exists ts, Forall2 (negative_ttl b eom) ps ts /\ r = least ts) E.
Proof.
  intros Hs Hps. apply wp_least_loop; [done|]. intros n result st Hinv. pose proof Hinv as (Hst & Hn & _). unfold negative_step.
  destruct (Z.ltb_spec n (zlen ps)) as [Hlt|Hge]; cbn [negb]; [|wp_step; split; [done|lia]].
  wp_step. eapply wp_conseq; [apply (wp_nth_record ns_s_ns n ps); [done|done|lia]|].
  intros ok [h r] (Hpar & p & m & Hp & Hspan & Hm & Hfit & Hok). wp_step. apply wp_getS.
  assert (Hnone : negative_ttl b eom p None -> so_far (negative_ttl b eom) ps (n + 1, result) (h, r) /\ n + 1 = n + 1)
    by (intros Hno; split; [by apply (so_far_next _ _ _ _ _ _ _ None Hinv Hpar Hp)|done]).
  destruct ok as [?|?]; [|wp_step; apply Hnone; by left].
  cbn [snd] in Hok. rewrite Hok. unfold fixed_at. change (ns_s_ns =? ns_s_qd) with false. cbn [type rdata rdlength ttl].
  destruct (Z.eqb_spec (u16_at b m) ns_t_soa) as [Hsoa|Hsoa]; cbn [negb]; [|wp_step; apply Hnone; right; exists m; by auto].
  cbn [non_null]. wp_step. wp_step. pose proof Hpar as (_ & Hmsg & _ & _). rewrite Hmsg.
  unfold rr_size in Hfit. change (ns_s_ns =? ns_s_qd) with false in Hfit. cbv iota in Hfit. destruct Hr as [Hle _].
  set (edata := m + 10 + u16_at b (m + 8)) in *.
  assert (Hnosoa : (forall q, ~ soa_at b (m + 10) edata q) -> so_far (negative_ttl b eom) ps (n + 1, result) (h, r) /\ n + 1 = n + 1)
    by (intros Hno; apply Hnone; right; exists m; by auto).
  wp_step. eapply wp_conseq; [apply (wp_try_skipname (m + 10) edata); lia|]. intros len1 st1 [-> H1]. destruct len1 as [len1|?].
  2: { wp_step. apply Hnosoa. intros q (q1 & Hq1 & Hq & Hlt1 & Hqe)%soa_at_split. specialize (H1 q1 Hq1). lia. }
  destruct H1 as (H10 & H1le & H1s & H1f).
  wp_step. eapply wp_conseq; [apply (wp_try_skipname (m + 10 + len1) edata); lia|]. intros len2 st2 [-> H2]. destruct len2 as [len2|?].
  2: { wp_step. apply Hnosoa. intros q (q1 & Hq1 & Hq & Hlt1 & Hqe)%soa_at_split.
       rewrite (H1f q1 Hq1) in Hq by lia. specialize (H2 q Hq). lia. }
  destruct H2 as (H20 & H2le & H2s & H2f). change (5 * NS_INT32SZ) with 20. change (NS_INT32SZ * 4) with 16.
  destruct (Z.eqb_spec (edata - (m + 10 + len1 + len2)) 20) as [H20e|H20e]; cbn [negb].
  2: { wp_step. apply Hnosoa. intros q (q1 & Hq1 & Hq & Hlt1 & Hqe)%soa_at_split.
       rewrite (H1f q1 Hq1) in Hq by lia. rewrite (H2f q Hq) in Hqe by lia. lia. }
  specialize (H1s ltac:(lia)). specialize (H2s ltac:(lia)).
  wp_step. apply wp_get32; [done|lia|lia|]. wp_step. split; [|done].
  set (mm := u32_at b (m + 10 + len1 + len2 + 16)). set (t := u32_at b (m + 4)).
  replace (if mm <? t then mm else t) with (Z.min t mm) by (destruct (Z.ltb_spec mm t); lia).
  apply (so_far_next _ _ _ _ _ _ _ (Some (Z.min t mm)) Hinv Hpar Hp).
  - exists m, (m + 10 + len1 + len2). split_and!; [done|done| |done]. exists (m + 10 + len1). split_and!; (done || lia).
  - pose proof (u32_at_range (m + 4)). pose proof (u32_at_range (m + 10 + len1 + len2 + 16)). cbn. lia.
Qed.
End loops.

(** ** The time to live of an answer *)

(** How long an answer is kept: 0 if it is not well-formed. *)
Definition lifetime (answer : list Z) (answerlen v : Z) : Prop :=
  (exists starts, well_formed answer answerlen starts /\ kept answer answerlen starts v) \/
  (~ exists starts, well_formed answer answerlen starts) /\ v = 0.

Lemma wp_answer_getTTL {S} (tmp0 : list Z) (handle : ns_msg) (rr : ns_rr) (answer : list Z) (answerlen : Z) (st : S) E :
  zlen tmp0 = NS_MAXCDNAME -> zlen (name rr) = NS_MAXDNAME -> zlen (_counts handle) = 4 -> zlen (_sections handle) = 4 ->
  bytes answer -> readable answer answerlen ->
  wp (answer_getTTL tmp0 handle rr answer answerlen) st (fun v st' => st' = st /\ lifetime answer answerlen v) E.
Proof.
  intros Htmp Hname Hc Hs Hb Hr. pose proof Hr as [Hle _]. unfold answer_getTTL.
  wp_step. apply wp_try, wp_on_local. eapply wp_mono; [by apply (wp_initparse answer answerlen Hb Hle handle)| |].
  2: { intros e _ [_ Hno]. wp_step. split; [done|]. by right. }
  intros _ h (starts & Hok & Hmsg & Heom & _). pose proof (ok_wf _ _ Hok) as Hwf. rewrite Hmsg, Heom in Hwf.
  assert (Hsec : forall k, 0 <= k < 4 -> exists ps, znth starts k = Some ps /\ znth (_counts h) k = Some (zlen ps)).
  { intros k Hk. destruct (znth_lt starts k) as [ps Hps]; [rewrite (four_sections _ _ _ Hwf); lia|].
    exists ps. split; [done|]. rewrite (ok_counts _ _ Hok), znth_map, Hps. done. }
  assert (Hpar : parsing answer answerlen starts (h, rr)) by by split_and!.
  assert (Hkept : forall v, kept answer answerlen starts v -> st = st /\
    ((exists starts, well_formed answer answerlen starts /\ kept answer answerlen starts v) \/
     (~ exists starts, well_formed answer answerlen starts) /\ v = 0)) by (intros v Hv; split; [done|]; left; by exists starts).
  destruct (Hsec 1 ltac:(lia)) as (ps1 & Hps1 & Hc1). destruct (Hsec 2 ltac:(lia)) as (ps2 & Hps2 & Hc2).
  unfold ns_msg_count. wp_step. apply (wp_rd _ _ _ _ _ _ Hc1). pose proof (zlen_nonneg ps1).
  destruct (Z.eqb_spec (zlen ps1) 0) as [Hz|Hz].
  - assert (ps1 = []) as -> by (destruct ps1 as [|x l]; [done|rewrite zlen_cons in Hz; pose proof (zlen_nonneg l); lia]).
    unfold answer_getNegativeTTL, ns_msg_count. wp_step. apply (wp_rd _ _ _ _ _ _ Hc2).
    wp_step. apply wp_on_local. eapply wp_mono; [apply (wp_negative_loop answer answerlen Hb Hr starts Hwf tmp0 Htmp ps2 _ (fun _ _ => False) Hpar Hps2)| |done].
    intros v _ (ts & Hts & ->). wp_step. apply Hkept. exists ps2, ts. rewrite Hps1. by split_and!.
  - wp_step. apply wp_on_local. eapply wp_mono; [apply (wp_ttl_loop answer answerlen Hb Hr starts Hwf tmp0 Htmp ps1 _ (fun _ _ => False) Hpar Hps1)| |done].
    intros v _ (ts & Hts & ->). wp_step. apply Hkept. exists ps1, ts. rewrite Hps1. by destruct ps1.
Qed.

Lemma lifetime_range answer answerlen v : bytes answer -> lifetime answer answerlen v -> 0 <= v < 2 ^ 32.
Proof.
  intros Hb [(starts & _ & ps & ts & Hts & ->)|[_ ->]]; [|lia].
  assert (Hall : Forall (fun t => match t with Some t => 0 <= t < 2 ^ 32 | None => True end) ts).
  { pose proof (u32_at_range answer Hb) as Hu.
    assert (Hk : forall R : Z -> option Z -> Prop, (forall p t, R p (Some t) -> 0 <= t < 2 ^ 32) -> Forall2 R ps ts ->
      Forall (fun t => match t with Some t => 0 <= t < 2 ^ 32 | None => True end) ts).
    { clear Hts. intros R HR H. induction H as [|p t ps' ts' Hp _ IH]; [done|]. apply Forall_cons. split; [|done]. destruct t; [by eapply HR|done]. }
    destruct (znth starts 1) as [[|p1 ps1]|]; [|destruct Hts as [_ Hts]|by destruct Hts].
    - destruct Hts as [_ Hts]. eapply Hk; [|exact Hts]. intros p t (m & q & _ & _ & _ & ->). pose proof (Hu (m + 4)). pose proof (Hu (q + 16)). lia.
    - eapply Hk; [|exact Hts]. intros p t (m & _ & ->). apply Hu. }
  unfold least. destruct ts as [|[t|] ts]; [lia| |lia]. apply Forall_cons in Hall as [Ht Hall].
  clear Hts. induction ts as [|[u|] ts IH]; cbn; [done| |]; apply Forall_cons in Hall as [? ?]; [|by apply IH]. specialize (IH ltac:(done)). cbn in IH. lia.
Qed.



(** An authority section with a record of another type before the SOA record:
    the answer is not kept at all. *)
Definition soa_second : list Z :=
  [0; 0; 0x81; 0x83; 0; 0; 0; 0; 0; 2; 0; 0;
   0; 0; 16; 0; 1; 0; 0; 0; 60; 0; 0;
   0; 0; 6; 0; 1; 0; 0; 0; 60; 0; 22; 0; 0; 0; 0; 0; 1; 0; 0; 0; 1; 0; 0; 0; 1; 0; 0; 0; 1; 0; 0; 0; 30].

Theorem soa_second_not_kept :
  fst (answer_getTTL (replicate 255 0) empty_handle blank_rr soa_second 56 tt) = Ret 0 /\
  fst (answer_getTTL (replicate 255 0) empty_handle blank_rr
    (ztake 8 soa_second ++ [0; 1; 0; 0] ++ zdrop 23 soa_second) 45 tt) = Ret 30.
Proof. by vm_compute. Qed.
