(* ===== verification/ResCache.v ===== *)
(** * The cache of answers: [dns/resolv/res_cache.c], second half

    A hash table with collision chains, whose entries are also in a doubly
    linked list from the most to the least recently used one. Entries are in a
    heap; their addresses are numbers, NULL is [None], and the number 0 is the
    address of [cache->mru_list], the head of the list. An entry that is freed
    leaves the heap, so a use of it is undefined. The state is the cache; the
    functions that read the clock, allocate or wait are over the resolver's
    state in [ResNet.v]. *)
From S2P Require Import Prelude CString NsName NsWire NsParse NsRecords ResPacket ResTtl.
From coqutil Require Import Datatypes.RecordSetters.
Import DoubleBraceUpdate.

(** ** Entries *)

Record Entry : Type := Entry_ {
  hash : Z; hlink : option Z; mru_prev : option Z; mru_next : option Z;
  query : list Z; querylen : Z; answer : list Z; answerlen : Z; expires : Z; id : Z }.

(** [memset(e, 0, sizeof( *e))] *)
Definition no_entry : Entry := Entry_ 0 None None None [] 0 [] 0 0 0.

Definition no_packet : DnsPacket := Packet [] 0 0.

Definition entry_hash {S} (e : Entry) : M S Z :=
  '(h, _) ← on_local no_packet (_dnsPacket_init (query e) (querylen e);; _dnsPacket_hashQuery);
  mret h.

(** The key, and whether the query can be cached. *)
Definition entry_init_key {S} (q : list Z) (qlen : Z) : M S (Entry * bool) :=
  let e := no_entry{{ query := q; querylen := qlen }} in
  h ← entry_hash e;
  let e := e{{ hash := h }} in
  '(ok, _) ← on_local no_packet (_dnsPacket_init q qlen;; _dnsPacket_checkQuery);
  mret (e, ok).

(** The contents of the block that [entry_alloc] allocates and fills. *)
Definition entry_alloc {S} (init : Entry) (a : list Z) (alen : Z) : M S Entry :=
  require ((0 <=? querylen init) && (querylen init <=? zlen (query init)) && (0 <=? alen) && (alen <=? zlen a));;
  mret (no_entry{{ hash := hash init; query := ztake (querylen init) (query init); querylen := querylen init;
             answer := ztake alen a; answerlen := alen }}).

Definition entry_equals {S} (e1 e2 : Entry) : M S bool :=
  if negb (querylen e1 =? querylen e2) then mret false else
  '(r, _) ← on_local (no_packet, no_packet)
    (on_pack1 (_dnsPacket_init (query e1) (querylen e1));; on_pack2 (_dnsPacket_init (query e2) (querylen e2));;
     _dnsPacket_isEqualQuery);
  mret r.

(** ** The cache *)

Record Cache : Type := Cache_ {
  max_entries : Z; num_entries : Z; heap : gmap Z Entry; last_id : Z;
  entries : list (option Z); pending_requests : list Z }.

(** [&cache->mru_list] *)
Definition mru_list : Z := 0.

Definition deref (p : Z) : M Cache Entry :=
  c ← getS;
  match heap c !! p with Some e => mret e | None => undef end.

Definition store (p : Z) (f : Entry -> Entry) : M Cache unit :=
  e ← deref p;
  updS (fun c => c{{ heap := <[p := f e]> (heap c) }}).

(** An [Entry**]: a bucket of the table, or the link of an entry. *)
Inductive slot : Type :=
  | Bucket (i : Z)
  | Hlink (p : Z).

Definition get_slot (s : slot) : M Cache (option Z) :=
  match s with
  | Bucket i => c ← getS; rd (entries c) i
  | Hlink p => e ← deref p; mret (hlink e)
  end.

Definition set_slot (s : slot) (v : option Z) : M Cache unit :=
  match s with
  | Bucket i => zoom entries (fun l c => c{{ entries := l }}) (wr i v)
  | Hlink p => store p (fun e => e{{ hlink := v }})
  end.

(** [e->mru_prev->mru_next = e->mru_next; e->mru_next->mru_prev = e->mru_prev;] *)
Definition entry_mru_remove (p : Z) : M Cache unit :=
  e ← deref p;
  prev ← non_null (mru_prev e);
  store prev (fun x => x{{ mru_next := mru_next e }});;
  e ← deref p;
  next ← non_null (mru_next e);
  store next (fun x => x{{ mru_prev := mru_prev e }}).

Definition entry_mru_add (p list : Z) : M Cache unit :=
  l ← deref list;
  let first := mru_next l in
  store p (fun e => e{{ mru_next := first }});;
  store p (fun e => e{{ mru_prev := Some list }});;
  store list (fun l => l{{ mru_next := Some p }});;
  first ← non_null first;
  store first (fun x => x{{ mru_prev := Some p }}).

(** ** The hash table *)

Definition lookup_step (key : Entry) (pnode : slot) : M Cache (step slot slot) :=
  node ← get_slot pnode;
  match node with
  | None => mret (Done pnode)
  | Some p =>
      e ← deref p;
      same ← (if hash e =? hash key then entry_equals e key else mret false);
      if same : bool then mret (Done pnode) else mret (Next (Hlink p))
  end.

(** [%] by zero is undefined. *)
Definition _cache_lookup_p (key : Entry) : M Cache slot :=
  c ← getS;
  require (negb (max_entries c =? 0));;
  let index := hash key mod max_entries c in
  loop (Datatypes.S (size (heap c))) (lookup_step key) (Bucket index).

(** The new entry [e] is at the address [p]; [last_id] is an [int]. *)
Definition _cache_add_p (lookup : slot) (p : Z) : M Cache unit :=
  set_slot lookup (Some p);;
  c ← getS;
  require (last_id c + 1 <? 2 ^ 31);;
  updS (fun c => c{{ last_id := last_id c + 1 }});;
  c ← getS;
  store p (fun e => e{{ id := last_id c }});;
  entry_mru_add p mru_list;;
  updS (fun c => c{{ num_entries := num_entries c + 1 }}).

Definition entry_free (p : Z) : M Cache unit :=
  deref p;; updS (fun c => c{{ heap := delete p (heap c) }}).

Definition _cache_remove_p (lookup : slot) : M Cache unit :=
  o ← get_slot lookup;
  p ← non_null o;
  entry_mru_remove p;;
  e ← deref p;
  set_slot lookup (hlink e);;
  entry_free p;;
  updS (fun c => c{{ num_entries := num_entries c - 1 }}).

Definition _cache_remove_oldest : M Cache unit :=
  l ← deref mru_list;
  oldest ← non_null (mru_prev l);
  key ← deref oldest;
  lookup ← _cache_lookup_p key;
  found ← get_slot lookup;
  match found with
  | None => mret tt
  | Some _ => _cache_remove_p lookup
  end.

Definition expired_step (now e : Z) : M Cache (step Z unit) :=
  if e =? mru_list then mret (Done tt) else
  x ← deref e;
  if expires x <=? now then
    lookup ← _cache_lookup_p x;
    found ← get_slot lookup;
    match found with
    | None => mret (Done tt)
    | Some _ =>
        next ← non_null (mru_next x);
        _cache_remove_p lookup;;
        mret (Next next)
    end
  else
    next ← non_null (mru_next x);
    mret (Next next).

Definition _cache_remove_expired (now : Z) : M Cache unit :=
  l ← deref mru_list;
  e ← non_null (mru_next l);
  c ← getS;
  loop (Datatypes.S (size (heap c))) (expired_step now) e.

(** ** Flushing *)

Definition flush_chain_step (pnode : slot) : M Cache (step slot unit) :=
  o ← get_slot pnode;
  match o with
  | None => mret (Done tt)
  | Some node =>
      e ← deref node;
      set_slot pnode (hlink e);;
      entry_free node;;
      mret (Next pnode)
  end.

Definition flush_step (nn : Z) : M Cache (step Z unit) :=
  c ← getS;
  if negb (nn <? max_entries c) then mret (Done tt) else
  loop (Datatypes.S (size (heap c))) flush_chain_step (Bucket nn);;
  mret (Next (nn + 1)).

Definition _cache_flush_pending_requests_locked : M Cache unit :=
  updS (fun c => c{{ pending_requests := [] }}).

Definition _cache_flush_locked : M Cache unit :=
  c ← getS;
  loop (Z.to_nat (max_entries c) + 1) flush_step 0;;
  _cache_flush_pending_requests_locked;;
  store mru_list (fun l => l{{ mru_next := Some mru_list; mru_prev := Some mru_list }});;
  updS (fun c => c{{ num_entries := 0; last_id := 0 }}).

(** ** Creation *)

Definition CONFIG_MAX_ENTRIES : Z := 64 * 2 * 5.

(** The environment variable ANDROID_DNS_MODE, if it is set. *)
Definition _res_cache_get_max_entries (cache_mode : option (list Z)) : Z :=
  match cache_mode with
  | Some m => if decide (m = [108; 111; 99; 97; 108]) then CONFIG_MAX_ENTRIES else 0
  | None => 0
  end.

(** Both [calloc]s succeed. *)
Definition _resolv_cache_create (cache_mode : option (list Z)) : Cache :=
  let n := _res_cache_get_max_entries cache_mode in
  Cache_ n 0 {[ mru_list := no_entry{{ mru_prev := Some mru_list; mru_next := Some mru_list }} ]} 0
    (replicate (Z.to_nat n) None) [].
