(* ===== verification/ResCacheRep.v ===== *)
(** * The cache implements a bounded list of answers, the last used one first

    [cache_rep c l]: the heap and the table of [c] hold the entries of [l], a
    list of addresses and items in the order of the MRU list. The lemmas say
    what the operations of [ResCache.v] do to that list. *)
From S2P Require Import Prelude CString NsName NsWire NsParse NsRecords ResPacket ResTtl ResCache.
From coqutil Require Import Datatypes.RecordSetters.
Import DoubleBraceUpdate.

(** ** Links *)

(** Along [ps], [nx] leads from each to the next and [pv] back. *)
Fixpoint links (nx pv : Z -> option Z) (ps : list Z) : Prop :=
  match ps with
  | a :: (b :: _) as t => nx a = Some b /\ pv b = Some a /\ links nx pv t
  | _ => True
  end.

(** A function changed at one place. *)
Definition upd {A} (f : Z -> A) (x : Z) (v : A) : Z -> A := fun y => if decide (y = x) then v else f y.

Lemma links_app nx pv u x v : links nx pv (u ++ x :: v) <-> links nx pv (u ++ [x]) /\ links nx pv (x :: v).
Proof.
  induction u as [|a [|b u] IH]; cbn [app] in *; [by split; [split|intros [_ ?]]| |].
  - cbn [links]. tauto.
  - cbn [links] in *. rewrite IH. tauto.
Qed.

Lemma links_ext nx pv nx' pv' ps :
  (forall a, a ∈ ps -> nx' a = nx a /\ pv' a = pv a) -> links nx pv ps -> links nx' pv' ps.
Proof.
  induction ps as [|a [|b ps] IH]; intros He Hl; [done|done|]. destruct Hl as (Hn & Hp & Hl).
  split_and!; [by rewrite (proj1 (He a ltac:(set_solver)))|by rewrite (proj2 (He b ltac:(set_solver)))|].
  apply IH; [|done]. intros c Hc. apply He. set_solver.
Qed.

(** The sources of links are all but the last, the targets all but the first. *)
Lemma links_upd_next nx pv x v ps z : x ∉ ps -> links nx pv (ps ++ [z]) -> links (upd nx x v) pv (ps ++ [z]).
Proof.
  intros Hx. induction ps as [|a [|b ps] IH]; cbn [app]; [done| |].
  - intros (Hn & Hp & _). split_and!; [|done|done]. unfold upd. rewrite decide_False by set_solver. done.
  - intros (Hn & Hp & Hl). split_and!; [|done|].
    + unfold upd. rewrite decide_False by set_solver. done.
    + apply IH; [set_solver|done].
Qed.

Lemma links_upd_prev nx pv x v ps z : x ∉ ps -> links nx pv (z :: ps) -> links nx (upd pv x v) (z :: ps).
Proof.
  intros Hx. revert z. induction ps as [|a ps IH]; intros z; [done|]. intros (Hn & Hp & Hl). split_and!; [done| |].
  - unfold upd. rewrite decide_False by set_solver. done.
  - apply IH; [set_solver|done].
Qed.

(** Two pieces of the cycle through [0] are joined by new links between their ends. *)
Lemma links_join nx pv u v x y u' v' :
  0 :: u = u' ++ [x] -> v ++ [0] = y :: v' -> NoDup (0 :: u ++ v) ->
  links nx pv (0 :: u) -> links nx pv (v ++ [0]) ->
  links (upd nx x (Some y)) (upd pv y (Some x)) ((0 :: u) ++ v ++ [0]).
Proof.
  intros Hu Hv Hnd Hlu Hlv. apply NoDup_cons in Hnd as [H0 Hnd]. apply NoDup_app in Hnd as (Hndu & Huv & Hndv).
  assert (Hx : x ∈ 0 :: u) by (rewrite Hu; set_solver). assert (Hy : y ∈ v ++ [0]) by (rewrite Hv; set_solver).
  assert (Hyu : y ∉ u) by set_solver. assert (Hxv : x ∉ v) by set_solver.
  assert (Hxu : x ∉ u').
  { assert (Hnd : NoDup (0 :: u)) by (apply NoDup_cons; set_solver). rewrite Hu in Hnd. apply NoDup_app in Hnd as (_ & Hnd & _). set_solver. }
  assert (Hyv : y ∉ v').
  { assert (Hnd : NoDup (v ++ [0])) by (apply NoDup_app; split_and!; [done|set_solver|apply NoDup_singleton]).
    rewrite Hv in Hnd. by apply NoDup_cons in Hnd as [? _]. }
  rewrite Hu, Hv, <- app_assoc. cbn [app]. apply links_app. split.
  - apply links_upd_next; [done|]. rewrite <- Hu. by apply links_upd_prev.
  - split_and!; [unfold upd; by rewrite decide_True|unfold upd; by rewrite decide_True|].
    apply links_upd_prev; [done|]. rewrite <- Hv. by apply links_upd_next.
Qed.

(** ** Chains *)

(** [seg h o ps o']: the links [h] lead from [o] through [ps] to [o']. *)
Fixpoint seg (hl : Z -> option (option Z)) (o : option Z) (ps : list Z) (o' : option Z) : Prop :=
  match ps with
  | [] => o = o'
  | p :: ps => o = Some p /\ exists n, hl p = Some n /\ seg hl n ps o'
  end.

Lemma seg_app hl o ps qs o' : seg hl o (ps ++ qs) o' <-> exists m, seg hl o ps m /\ seg hl m qs o'.
Proof.
  revert o. induction ps as [|p ps IH]; intros o; cbn [app seg].
  - split; [by exists o|by intros (m & -> & ?)].
  - setoid_rewrite IH. naive_solver.
Qed.

Lemma seg_ext hl hl' o ps o' : (forall p, p ∈ ps -> hl' p = hl p) -> seg hl o ps o' -> seg hl' o ps o'.
Proof.
  revert o. induction ps as [|p ps IH]; intros o He; [done|]. intros [-> (n & Hn & Hs)]. split; [done|].
  exists n. rewrite He by set_solver. split; [done|]. apply IH; [|done]. intros q Hq. apply He. set_solver.
Qed.

Lemma seg_upd_last hl o ps p o' v : p ∉ ps -> seg hl o (ps ++ [p]) o' -> seg (upd hl p (Some v)) o (ps ++ [p]) v.
Proof.
  intros Hp (m & Hm & -> & n & Hn & _)%seg_app. apply seg_app. exists (Some p). split.
  - eapply seg_ext; [|done]. intros q Hq. unfold upd. rewrite decide_False by set_solver. done.
  - split; [done|]. exists v. split; [|done]. unfold upd. by rewrite decide_True.
Qed.

(** ** The heap *)

Definition nx (h : gmap Z Entry) (p : Z) : option Z := h !! p ≫= mru_next.
Definition pv (h : gmap Z Entry) (p : Z) : option Z := h !! p ≫= mru_prev.
Definition hl (h : gmap Z Entry) (p : Z) : option (option Z) := hlink <$> h !! p.

(** What the MRU list does not use, what the chains do not use, and what neither
    does; [id] is not used at all. *)
Definition no_mru (e : Entry) : Entry := e{{ mru_prev := None; mru_next := None }}.
Definition no_link (e : Entry) : Entry := e{{ hlink := None; id := 0 }}.
Definition core (e : Entry) : Entry := no_link (no_mru e).
#[global] Arguments no_mru : simpl never.
#[global] Arguments no_link : simpl never.
#[global] Arguments core : simpl never.

Definition heap_like (f : Entry -> Entry) (h h' : gmap Z Entry) : Prop := forall q, f <$> h' !! q = f <$> h !! q.

Definition with_heap (h : gmap Z Entry) (c : Cache) : Cache :=
  Cache_ (max_entries c) (num_entries c) h (last_id c) (entries c) (pending_requests c).

Lemma with_heap_heap h c : heap (with_heap h c) = h.
Proof. done. Qed.

Lemma with_heap_with_heap h h' c : with_heap h (with_heap h' c) = with_heap h c.
Proof. done. Qed.

Lemma with_heap_id c : with_heap (heap c) c = c.
Proof. by destruct c. Qed.

Lemma heap_like_refl f h : heap_like f h h.
Proof. done. Qed.

Lemma heap_like_trans f h1 h2 h3 : heap_like f h1 h2 -> heap_like f h2 h3 -> heap_like f h1 h3.
Proof. intros H1 H2 q. by rewrite H2, H1. Qed.

Lemma heap_like_insert f h p e e' : h !! p = Some e -> f e' = f e -> heap_like f h (<[p := e']> h).
Proof.
  intros He Hf q. destruct (decide (q = p)) as [->|Hne]; [by rewrite lookup_insert_eq, He; cbn; f_equal|by rewrite lookup_insert_ne].
Qed.

Lemma heap_like_Some f h h' p e : heap_like f h h' -> h !! p = Some e -> exists e', h' !! p = Some e' /\ f e' = f e.
Proof. intros Hl He. specialize (Hl p). rewrite He in Hl. cbn in Hl. destruct (h' !! p) as [e'|]; [|done]. apply (inj Some) in Hl. eauto. Qed.

Lemma heap_like_core_mru h h' : heap_like no_mru h h' -> heap_like core h h'.
Proof.
  intros H q. specialize (H q). destruct (h !! q), (h' !! q); [|done..]. cbn in *. apply (inj Some) in H. f_equal. unfold core. by rewrite H.
Qed.

Lemma heap_like_core_link h h' : heap_like no_link h h' -> heap_like core h h'.
Proof.
  intros H q. specialize (H q). destruct (h !! q), (h' !! q); [|done..]. cbn in *. apply (inj Some) in H. f_equal.
  assert (Hcore : forall x, core x = no_mru (no_link x)) by done. by rewrite !Hcore, H.
Qed.

Lemma heap_like_hl h h' : heap_like no_mru h h' -> forall q, hl h' q = hl h q.
Proof.
  intros H q. specialize (H q). unfold hl. destruct (h !! q), (h' !! q); [|done..]. cbn in *. apply (inj Some) in H.
  f_equal. exact (f_equal hlink H).
Qed.

Lemma heap_like_nx h h' : heap_like no_link h h' -> forall q, nx h' q = nx h q /\ pv h' q = pv h q.
Proof.
  intros H q. specialize (H q). unfold nx, pv. destruct (h !! q), (h' !! q); [|done..]. cbn in *. apply (inj Some) in H.
  split; [exact (f_equal mru_next H)|exact (f_equal mru_prev H)].
Qed.

Section access.
Implicit Types (c : Cache) (E : Z -> Cache -> Prop).

Lemma wp_deref_entry p e c (Q : Entry -> Cache -> Prop) E : heap c !! p = Some e -> Q e c -> wp (deref p) c Q E.
Proof. intros He HQ. unfold deref. wp_step. apply wp_getS. rewrite He. by wp_step. Qed.

Lemma wp_store p f e c (Q : unit -> Cache -> Prop) E :
  heap c !! p = Some e -> Q tt (with_heap (<[p := f e]> (heap c)) c) -> wp (store p f) c Q E.
Proof. intros He HQ. unfold store. wp_step. eapply wp_deref_entry; [exact He|]. apply wp_updS. by destruct c. Qed.

Lemma nx_Some h p v : nx h p = Some v -> exists e, h !! p = Some e /\ mru_next e = Some v.
Proof. unfold nx. destruct (h !! p) as [e|]; [|done]. eauto. Qed.

Lemma pv_Some h p v : pv h p = Some v -> exists e, h !! p = Some e /\ mru_prev e = Some v.
Proof. unfold pv. destruct (h !! p) as [e|]; [|done]. eauto. Qed.

Lemma hl_Some h p v : hl h p = Some v -> exists e, h !! p = Some e /\ hlink e = v.
Proof. unfold hl. destruct (h !! p) as [e|]; [|done]. intros [= <-]. eauto. Qed.

(** [p] is taken out of the list. *)
Lemma wp_mru_remove c u p v (Q : unit -> Cache -> Prop) E :
  NoDup (0 :: u ++ p :: v) -> links (nx (heap c)) (pv (heap c)) (0 :: u ++ p :: v ++ [0]) ->
  (forall h', links (nx h') (pv h') (0 :: u ++ v ++ [0]) -> heap_like no_mru (heap c) h' -> h' !! p = heap c !! p ->
     Q tt (with_heap h' c)) ->
  wp (entry_mru_remove p) c Q E.
Proof.
  intros Hnd Hl HQ.
  destruct (exists_last (l := 0 :: u) ltac:(done)) as (u' & x & Hu). destruct (v ++ [0]) as [|y v'] eqn:Hv; [by destruct v|].
  assert (Hnd' : NoDup (0 :: u ++ v) /\ p <> x /\ p <> y).
  { assert (Hp : 0 :: u ++ p :: v ≡ₚ p :: 0 :: u ++ v) by (rewrite <- Permutation_middle; apply perm_swap).
    rewrite Hp in Hnd. apply NoDup_cons in Hnd as [Hp0 Hnd].
    assert (x ∈ 0 :: u) by (rewrite Hu; set_solver). assert (y ∈ v ++ [0]) by (rewrite Hv; set_solver).
    split_and!; [done|set_solver|set_solver]. }
  destruct Hnd' as (Hnd' & Hpx & Hpy).
  assert (Hsplit : links (nx (heap c)) (pv (heap c)) (0 :: u) /\ nx (heap c) x = Some p /\ pv (heap c) p = Some x /\
    nx (heap c) p = Some y /\ pv (heap c) y = Some p /\ links (nx (heap c)) (pv (heap c)) (v ++ [0])).
  { change (0 :: u ++ p :: y :: v') with ((0 :: u) ++ p :: y :: v') in Hl. rewrite Hu, <- app_assoc in Hl. cbn [app] in Hl.
    apply links_app in Hl as [Hl1 (H1 & H2 & H3 & H4 & H5)]. rewrite Hu, Hv. by split_and!. }
  destruct Hsplit as (Hlu & Hnx & Hpp & Hnp & Hpy' & Hlv).
  apply pv_Some in Hpp as (e & He & Hprev). assert (Hnext : mru_next e = Some y) by (unfold nx in Hnp; by rewrite He in Hnp).
  apply nx_Some in Hnx as (ex & Hex & _). apply pv_Some in Hpy' as (ey & Hey & _).
  unfold entry_mru_remove. wp_step. eapply wp_deref_entry; [exact He|]. rewrite Hprev. cbn [non_null]. wp_step. wp_step.
  wp_step. eapply wp_store; [exact Hex|]. set (h1 := <[x := _]> (heap c)).
  assert (Hp1 : h1 !! p = Some e) by (unfold h1; by rewrite lookup_insert_ne).
  wp_step. eapply wp_deref_entry; [exact Hp1|]. rewrite Hnext, Hprev. cbn [non_null]. wp_step. wp_step.
  assert (Hey1 : exists ey1, h1 !! y = Some ey1 /\ no_mru ey1 = no_mru ey /\ (x <> y -> mru_next ey1 = mru_next ey) /\
    (x = y -> mru_next ey1 = Some y)).
  { unfold h1. destruct (decide (y = x)) as [->|Hne].
    - rewrite lookup_insert_eq. eexists. split; [done|]. rewrite Hex in Hey. injection Hey as ->. split_and!; [done|done|done].
    - rewrite lookup_insert_ne by done. exists ey. by split_and!. }
  destruct Hey1 as (ey1 & Hey1 & Hno & Hn1 & Hn2). eapply wp_store; [exact Hey1|]. rewrite with_heap_with_heap. cbn [heap with_heap].
  apply HQ.
  - rewrite <- Hv. change (0 :: u ++ v ++ [0]) with ((0 :: u) ++ v ++ [0]).
    eapply links_ext; [|apply (links_join (nx (heap c)) (pv (heap c)) u v x y u' v' Hu Hv Hnd' Hlu Hlv)].
    intros a _. unfold nx, pv, upd, h1. split.
    + destruct (decide (a = y)) as [->|Hay]; [|rewrite lookup_insert_ne by done].
      * rewrite lookup_insert_eq. transitivity (mru_next ey1); [done|]. destruct (decide (y = x)) as [->|]; [by apply Hn2|]. rewrite Hn1, Hey by done. done.
      * destruct (decide (a = x)) as [->|]; [by rewrite lookup_insert_eq|by rewrite lookup_insert_ne].
    + destruct (decide (a = y)) as [->|Hay]; [by rewrite lookup_insert_eq|rewrite lookup_insert_ne by done].
      destruct (decide (a = x)) as [->|]; [by rewrite lookup_insert_eq, Hex|by rewrite lookup_insert_ne].
  - apply (heap_like_trans _ _ h1); [by apply (heap_like_insert _ _ x ex)|by apply (heap_like_insert _ _ y ey1)].
  - rewrite lookup_insert_ne by done. by rewrite Hp1.
Qed.

(** [p] is put at the front. *)
Lemma wp_mru_add c p ps e (Q : unit -> Cache -> Prop) E :
  NoDup (0 :: p :: ps) -> links (nx (heap c)) (pv (heap c)) (0 :: ps ++ [0]) -> heap c !! p = Some e ->
  (forall h', links (nx h') (pv h') (0 :: p :: ps ++ [0]) -> heap_like no_mru (heap c) h' -> Q tt (with_heap h' c)) ->
  wp (entry_mru_add p mru_list) c Q E.
Proof.
  intros Hnd Hl He HQ. apply NoDup_cons in Hnd as [H0 Hnd]. apply NoDup_cons in Hnd as [Hp Hnd].
  destruct (ps ++ [0]) as [|f rest] eqn:Hf; [by destruct ps|]. destruct Hl as (Hn0 & Hpf & Hrest).
  assert (Hfin : f ∈ ps ++ [0]) by (rewrite Hf; set_solver).
  assert (Hfp : f <> p) by set_solver. assert (H0p : p <> 0) by set_solver. assert (Hprest : p ∉ rest).
  { intros Hin. assert (p ∈ ps ++ [0]) by (rewrite Hf; set_solver). set_solver. }
  assert (Hfrest : f ∉ rest).
  { assert (Hnd' : NoDup (ps ++ [0])) by (apply NoDup_app; split_and!; [done|set_solver|apply NoDup_singleton]).
    rewrite Hf in Hnd'. by apply NoDup_cons in Hnd' as [? _]. }
  apply nx_Some in Hn0 as (e0 & He0 & Hn0). apply pv_Some in Hpf as (ef & Hef & _).
  unfold entry_mru_add, mru_list. wp_step. eapply wp_deref_entry; [exact He0|]. rewrite Hn0. cbv zeta.
  wp_step. eapply wp_store; [exact He|]. set (h1 := <[p := _]> (heap c)).
  wp_step. eapply wp_store; [apply lookup_insert_eq|]. rewrite with_heap_with_heap. cbn [heap with_heap].
  set (h2 := <[p := _]> h1). assert (H20 : h2 !! 0 = Some e0) by (unfold h2, h1; by rewrite !lookup_insert_ne by done).
  wp_step. eapply wp_store; [exact H20|]. rewrite with_heap_with_heap. cbn [heap with_heap non_null].
  set (h3 := <[0 := _]> h2). wp_step. wp_step.
  assert (H3 : exists ef3, h3 !! f = Some ef3 /\ no_mru ef3 = no_mru ef /\ (f <> 0 -> mru_next ef3 = mru_next ef) /\ (f = 0 -> mru_next ef3 = Some p)).
  { unfold h3. destruct (decide (f = 0)) as [->|Hne].
    - rewrite lookup_insert_eq. eexists. split; [done|]. rewrite Hef in He0. injection He0 as ->. by split_and!.
    - rewrite lookup_insert_ne by done. unfold h2, h1. rewrite !lookup_insert_ne by done. exists ef. by split_and!. }
  destruct H3 as (ef3 & Hef3 & Hno & Hn1 & Hn2). eapply wp_store; [exact Hef3|]. rewrite with_heap_with_heap. cbn [heap with_heap].
  set (h4 := <[f := _]> h3).
  assert (Hnx : forall a, nx h4 a = upd (upd (nx (heap c)) p (Some f)) 0 (Some p) a).
  { intros a. unfold nx, upd, h4. destruct (decide (a = f)) as [->|Haf].
    - rewrite lookup_insert_eq. transitivity (mru_next ef3); [done|]. destruct (decide (f = 0)) as [->|]; [by apply Hn2|].
      rewrite decide_False, Hn1, Hef by done. done.
    - rewrite lookup_insert_ne by done. unfold h3. destruct (decide (a = 0)) as [->|]; [by rewrite lookup_insert_eq|].
      rewrite lookup_insert_ne by done. unfold h2. destruct (decide (a = p)) as [->|]; [by rewrite lookup_insert_eq|].
      unfold h1. by rewrite !lookup_insert_ne by done. }
  assert (Hpv : forall a, pv h4 a = upd (upd (pv (heap c)) p (Some 0)) f (Some p) a).
  { intros a. unfold pv, upd, h4. destruct (decide (a = f)) as [->|Haf]; [by rewrite lookup_insert_eq|].
    rewrite lookup_insert_ne by done. unfold h3. destruct (decide (a = 0)) as [->|].
    - rewrite lookup_insert_eq. rewrite decide_False by done. by rewrite He0.
    - rewrite lookup_insert_ne by done. unfold h2. destruct (decide (a = p)) as [->|]; [by rewrite lookup_insert_eq|].
      unfold h1. by rewrite !lookup_insert_ne by done. }
  apply HQ.
  - eapply links_ext; [intros a _; exact (conj (Hnx a) (Hpv a))|]. split_and!.
    + unfold upd. by rewrite decide_True.
    + unfold upd. rewrite decide_False by done. by rewrite decide_True.
    + split_and!; [unfold upd; rewrite decide_False by done; by rewrite decide_True|unfold upd; by rewrite decide_True|].
      apply links_upd_prev; [done|]. apply links_upd_prev; [done|]. rewrite <- Hf in Hrest |- *.
      apply links_upd_next; [set_solver|]. by apply links_upd_next.
  - apply (heap_like_trans _ _ h1); [by apply (heap_like_insert _ _ p e)|].
    apply (heap_like_trans _ _ h2); [by eapply heap_like_insert; [apply lookup_insert_eq|]|].
    apply (heap_like_trans _ _ h3); [by apply (heap_like_insert _ _ 0 e0)|by apply (heap_like_insert _ _ f ef3)].
Qed.
End access.

(** ** Items *)

(** What the list keeps of an entry: the query, the answer and when it expires. *)
Record item : Type := Item { iq : list Z; ia : list Z; ix : Z }.

Definition item_of (e : Entry) : item := Item (query e) (answer e) (expires e).

(** A query that is cached: one that passes the check, complete. *)
Definition query_good (q : list Z) : Prop := bytes q /\ query_ok q (zlen q) /\ additional_ok q (zlen q).

Definition qhash (q : list Z) : Z := query_hash q (zlen q).

Definition key_ok (e : Entry) : Prop :=
  querylen e = zlen (query e) /\ hash e = qhash (query e) /\ query_good (query e).

Definition entry_ok (e : Entry) : Prop := key_ok e /\ answerlen e = zlen (answer e).

(** The same length, hash, flags, questions and additional records. *)
Definition matches (q1 q2 : list Z) : Prop :=
  zlen q1 = zlen q2 /\ qhash q1 = qhash q2 /\ same_query q1 q2 (zlen q1).

Lemma matches_refl q : query_good q -> matches q q.
Proof. intros (_ & ? & ?). split_and!; [done|done|by apply same_query_refl]. Qed.

Lemma matches_sym q1 q2 : query_good q1 -> matches q1 q2 -> matches q2 q1.
Proof. intros (? & _) (Hl & Hh & Hs). split_and!; [done|done|]. rewrite <- Hl. by apply same_query_sym. Qed.

Lemma matches_trans q1 q2 q3 : query_good q1 -> query_good q2 -> matches q1 q2 -> matches q2 q3 -> matches q1 q3.
Proof.
  intros (? & _) (? & _) (Hl & Hh & Hs) (Hl' & Hh' & Hs'). split_and!; [congruence|congruence|].
  rewrite <- Hl in Hs'. by eapply same_query_trans.
Qed.

Lemma core_facts e e' : core e' = core e -> item_of e' = item_of e /\ hash e' = hash e /\ (entry_ok e -> entry_ok e').
Proof.
  destruct e, e'. unfold core, no_link, no_mru. intros H. cbn in H. injection H as -> -> -> -> -> ->. split_and!; [done|done|].
  intros [(? & ? & ?) ?]. by split_and!.
Qed.

Lemma wp_entry_equals {S} e1 e2 (st : S) (Q : bool -> S -> Prop) E :
  key_ok e1 -> key_ok e2 ->
  (forall r, r = true <-> zlen (query e1) = zlen (query e2) /\ same_query (query e1) (query e2) (zlen (query e1)) -> Q r st) ->
  wp (entry_equals e1 e2) st Q E.
Proof.
  intros (Hl1 & _ & Hb1 & Hok1 & Hadd1) (Hl2 & _ & Hb2 & Hok2 & _) HQ. unfold entry_equals. rewrite Hl1, Hl2.
  destruct (Z.eqb_spec (zlen (query e1)) (zlen (query e2))) as [Heq|Hne]; cbn [negb].
  2: { wp_step. apply HQ. split; [done|]. by intros [? _]. }
  rewrite <- Heq. wp_step. apply wp_on_local. unfold no_packet.
  apply (wp_conseq _ _ (fun r _ => r = true <-> same_query (query e1) (query e2) (zlen (query e1)))).
  - wp_step. unfold on_pack1 at 1. apply wp_zoom, wp_setS. wp_step. unfold on_pack2 at 1. apply wp_zoom, wp_setS. cbn [fst snd].
    apply wp_isEqualQuery; [done|done|lia|lia|by destruct Hok1|done].
  - intros r _ Hr. wp_step. apply HQ. rewrite Hr. tauto.
Qed.

(** ** Slots *)

(** The slot behind the first entries [pre] of the bucket [k]. *)
Definition slot_at (k : Z) (pre : list Z) : slot :=
  match last pre with None => Bucket k | Some p => Hlink p end.

(** The chain of the bucket [k]. *)
Definition chain (c : Cache) (k : Z) (cs : list Z) : Prop :=
  exists o, znth (entries c) k = Some o /\ seg (hl (heap c)) o cs None.

Lemma slot_at_snoc k pre p : slot_at k (pre ++ [p]) = Hlink p.
Proof. unfold slot_at. by rewrite last_snoc. Qed.

Lemma wp_get_slot c k pre post (Q : option Z -> Cache -> Prop) E :
  chain c k (pre ++ post) -> Q (head post) c -> wp (get_slot (slot_at k pre)) c Q E.
Proof.
  intros (o & Ho & (m & Hpre & Hpost)%seg_app) HQ.
  assert (Hm : m = head post) by (destruct post; [by cbn in Hpost; subst|by destruct Hpost as [-> _]]).
  destruct pre as [|p pre' _] using rev_ind.
  - cbn in Hpre. subst. cbn. wp_step. apply wp_getS. by eapply wp_rd.
  - rewrite slot_at_snoc. apply seg_app in Hpre as (m' & _ & -> & n & Hn & Hn'). cbn in Hn'. subst n.
    apply hl_Some in Hn as (e & He & Hl). cbn [get_slot]. wp_step. eapply wp_deref_entry; [done|]. wp_step. by rewrite Hl, Hm.
Qed.

(** A chain changed behind [pre]; nothing but links in [pre] changes. *)
Lemma wp_set_slot c k pre post v (Q : unit -> Cache -> Prop) E :
  0 <= k < zlen (entries c) -> chain c k (pre ++ post) -> NoDup pre ->
  (forall h' es', let c' := Cache_ (max_entries c) (num_entries c) h' (last_id c) es' (pending_requests c) in
     zlen es' = zlen (entries c) -> heap_like no_link (heap c) h' -> (forall q, q ∉ pre -> h' !! q = heap c !! q) ->
     (forall j, j <> k -> znth es' j = znth (entries c) j) ->
     (exists o, znth es' k = Some o /\ seg (hl h') o pre v) -> Q tt c') ->
  wp (set_slot (slot_at k pre) v) c Q E.
Proof.
  intros Hk (o & Ho & Hseg) Hnd HQ. destruct pre as [|p pre' _] using rev_ind.
  - cbn [slot_at last set_slot]. apply wp_zoom. apply wp_wr; [done|]. destruct c as [mx nm h li es pe]. cbn [entries] in *.
    apply (HQ h (zupd es k v)); [apply zlen_zupd|done|done|intros j Hj; by apply znth_zupd_ne|]. exists v. by rewrite znth_zupd_eq.
  - rewrite slot_at_snoc. cbn [set_slot]. apply seg_app in Hseg as (m & Hpre & _).
    pose proof Hpre as (m' & _ & -> & n & Hn & _)%seg_app. apply hl_Some in Hn as (e & He & _).
    eapply wp_store; [done|]. apply NoDup_app in Hnd as (_ & Hnd & _). set (h' := <[p := _]> (heap c)).
    apply (HQ h' (entries c)); [done|by eapply heap_like_insert| |done|].
    + intros q Hq. unfold h'. rewrite lookup_insert_ne by set_solver. done.
    + exists o. split; [done|]. apply (seg_ext (upd (hl (heap c)) p (Some v))); [|apply (seg_upd_last _ _ _ _ m v); [set_solver|done]].
      intros q Hq. unfold hl, h', upd. destruct (decide (q = p)) as [->|]; [by rewrite lookup_insert_eq|by rewrite lookup_insert_ne].
Qed.

(** ** The representation *)

Definition bucket_of (c : Cache) (i : item) : Z := qhash (iq i) mod max_entries c.

(** The chain of the bucket [k] has the entries that belong there. *)
Definition bucket (c : Cache) (l : list (Z * item)) (k : Z) (cs : list Z) : Prop :=
  chain c k cs /\ NoDup cs /\ (forall p, p ∈ cs <-> exists i, (p, i) ∈ l /\ bucket_of c i = k).

Record cache_rep (c : Cache) (l : list (Z * item)) : Prop := CacheRep {
  rep_max : 0 < max_entries c /\ zlen (entries c) = max_entries c;
  rep_num : num_entries c = zlen l;
  rep_nodup : NoDup (0 :: l.*1);
  rep_dom : forall p, is_Some (heap c !! p) <-> p ∈ 0 :: l.*1;
  rep_items : forall p i, (p, i) ∈ l -> exists e, heap c !! p = Some e /\ entry_ok e /\ item_of e = i;
  rep_mru : links (nx (heap c)) (pv (heap c)) (0 :: l.*1 ++ [0]);
  rep_chains : forall k, 0 <= k < max_entries c -> exists cs, bucket c l k cs;
  rep_distinct : forall p i p' i', (p, i) ∈ l -> (p', i') ∈ l -> matches (iq i) (iq i') -> p = p' }.

Lemma rep_fun c l p i i' : cache_rep c l -> (p, i) ∈ l -> (p, i') ∈ l -> i = i'.
Proof.
  intros Hr H H'. destruct (rep_items _ _ Hr _ _ H) as (e & He & _ & <-). destruct (rep_items _ _ Hr _ _ H') as (e' & He' & _ & <-).
  congruence.
Qed.

Lemma rep_good c l p i : cache_rep c l -> (p, i) ∈ l -> query_good (iq i).
Proof. intros Hr H. destruct (rep_items _ _ Hr _ _ H) as (e & _ & [(_ & _ & Hg) _] & <-). exact Hg. Qed.

Lemma bucket_range c l i : cache_rep c l -> 0 <= bucket_of c i < max_entries c.
Proof. intros Hr. pose proof (rep_max _ _ Hr). apply Z.mod_pos_bound. lia. Qed.

(** The entries of the heap: those of the list and the head. *)
Lemma rep_size c l : cache_rep c l -> size (heap c) = Datatypes.S (length l).
Proof.
  intros Hr. rewrite <- size_dom. assert (Hd : dom (heap c) = list_to_set (0 :: l.*1)).
  { apply set_eq. intros p. rewrite elem_of_dom, elem_of_list_to_set. apply (rep_dom _ _ Hr). }
  rewrite Hd, size_list_to_set by apply (rep_nodup _ _ Hr). cbn. by rewrite length_fmap.
Qed.

(** The entries of a bucket are fewer than those of the heap. *)
Lemma chain_size c l k cs : cache_rep c l -> NoDup cs -> (forall p, p ∈ cs -> exists i, (p, i) ∈ l /\ bucket_of c i = k) ->
  (length cs < size (heap c))%nat.
Proof.
  intros Hr Hnd Hcs. rewrite (rep_size _ _ Hr). assert (length cs <= length l.*1)%nat; [|rewrite length_fmap in *; lia].
  apply submseteq_length, NoDup_submseteq; [done|]. intros p (i & Hi & _)%Hcs. apply list_elem_of_fmap. by exists (p, i).
Qed.

Section lookup.
Context (c : Cache) (l : list (Z * item)) (Hr : cache_rep c l) (key : Entry) (Hk : key_ok key).

Lemma wp_lookup_step pre post o k : chain c k (pre ++ post) ->
  (forall p, p ∈ pre ++ post -> exists i, (p, i) ∈ l /\ bucket_of c i = k) -> o = slot_at k pre ->
  wp (lookup_step key o) c
     (fun st c' => c' = c /\ match st with
        | Done s => s = slot_at k pre /\
            match post with [] => True | p :: _ => exists i, (p, i) ∈ l /\ matches (iq i) (query key) end
        | Next s => match post with
            | [] => False
            | p :: _ => s = slot_at k (pre ++ [p]) /\ exists i, (p, i) ∈ l /\ ~ matches (iq i) (query key)
            end
        end) (fun _ _ => False).
Proof.
  intros Hch Hin ->. unfold lookup_step. wp_step. eapply wp_get_slot; [done|]. destruct post as [|p post]; cbn [head].
  { by wp_step. }
  destruct (Hin p ltac:(set_solver)) as (i & Hi & _). destruct (rep_items _ _ Hr _ _ Hi) as (e & He & [Hek _] & Hit).
  assert (Hq : iq i = query e) by (by rewrite <- Hit). pose proof Hek as (_ & Hh & _). pose proof Hk as (_ & Hkh & _).
  wp_step. eapply wp_deref_entry; [done|]. wp_step.
  apply (wp_conseq _ _ (fun r c' => c' = c /\ (r = true <-> matches (iq i) (query key)))).
  - rewrite Hh, Hkh, Hq. unfold matches. destruct (Z.eqb_spec (qhash (query e)) (qhash (query key))) as [Heq|Hne].
    + apply wp_entry_equals; [done|done|]. intros r Hrr. split; [done|]. rewrite Hrr. tauto.
    + wp_step. split; [done|]. split; [done|]. by intros (_ & ? & _).
  - intros r c' [-> Hrr]. destruct r; wp_step.
    + split; [done|]. split; [done|]. exists i. split; [done|by apply Hrr].
    + split; [done|]. split; [by rewrite slot_at_snoc|]. exists i. split; [done|]. intros Hm. by apply Hrr in Hm.
Qed.

(** Where a look-up ends: behind entries that do not match, before one that does
    or at the end of the chain. *)
Definition found_at (k : Z) (pre post : list Z) : Prop :=
  k = hash key mod max_entries c /\ bucket c l k (pre ++ post) /\
  match post with
  | [] => forall p i, (p, i) ∈ l -> ~ matches (iq i) (query key)
  | p :: _ => exists i, (p, i) ∈ l /\ matches (iq i) (query key)
  end.

Lemma wp_lookup_loop k cs : chain c k cs ->
  (forall p, p ∈ cs -> exists i, (p, i) ∈ l /\ bucket_of c i = k) -> forall fuel pre post,
  cs = pre ++ post -> (length post < fuel)%nat -> (forall p i, p ∈ pre -> (p, i) ∈ l -> ~ matches (iq i) (query key)) ->
  wp (loop fuel (lookup_step key) (slot_at k pre)) c
     (fun s c' => c' = c /\ exists pre post, cs = pre ++ post /\ s = slot_at k pre /\
        (forall p i, p ∈ pre -> (p, i) ∈ l -> ~ matches (iq i) (query key)) /\
        match post with [] => True | p :: _ => exists i, (p, i) ∈ l /\ matches (iq i) (query key) end) (fun _ _ => False).
Proof.
  intros Hch Hcs. induction fuel as [|fuel IH]; intros pre post -> Hf Hpre; [lia|]. apply wp_loop_S.
  eapply wp_conseq; [by apply (wp_lookup_step pre post _ k)|]. intros [s'|s'] c' [-> Hs'].
  - destruct post as [|p post]; [done|]. destruct Hs' as (-> & i & Hi & Hno).
    apply (IH (pre ++ [p]) post); [by rewrite <- app_assoc|cbn in Hf; lia|].
    intros q j [Hq|Hq]%elem_of_app Hj; [by apply (Hpre q)|]. apply list_elem_of_singleton in Hq as ->.
    by rewrite (rep_fun _ _ _ _ _ Hr Hj Hi).
  - destruct Hs' as [-> Hs']. split; [done|]. exists pre, post. by split_and!.
Qed.

Lemma wp_lookup_p (Q : slot -> Cache -> Prop) E :
  (forall k pre post, found_at k pre post -> Q (slot_at k pre) c) -> wp (_cache_lookup_p key) c Q E.
Proof.
  intros HQ. pose proof (rep_max _ _ Hr) as [Hmax _]. unfold _cache_lookup_p. wp_step. apply wp_getS. wp_step.
  apply wp_require; [lia|]. cbv zeta. set (k := hash key mod max_entries c).
  destruct (rep_chains _ _ Hr k) as (cs & Hch & Hnd & Hcs); [by apply Z.mod_pos_bound|].
  pose proof (chain_size _ _ _ _ Hr Hnd (fun p => proj1 (Hcs p))) as Hsize.
  change (Bucket k) with (slot_at k []). eapply wp_mono.
  { apply (wp_lookup_loop k cs Hch (fun p => proj1 (Hcs p)) _ [] cs); [done|lia|]. intros p i Hp. by apply not_elem_of_nil in Hp. }
  - intros s c' (-> & pre & post & -> & -> & Hpre & Hpost). apply (HQ k pre post). split_and!; [done|done|].
    destruct post as [|p post]; [|done]. intros p i Hi Hm. apply (Hpre p i); [|done|done].
    rewrite <- (app_nil_r pre). apply Hcs. exists i. split; [done|]. destruct Hk as (_ & Hh & _), Hm as (_ & Hm & _).
    unfold bucket_of, k. by rewrite Hm, Hh.
  - done.
Qed.
End lookup.

(** ** Removing, adding and moving entries *)

Lemma heap_like_dom f h h' q : heap_like f h h' -> is_Some (h' !! q) <-> is_Some (h !! q).
Proof.
  intros Hl. specialize (Hl q). destruct (h !! q), (h' !! q); (done || by split; intros [? ?]).
Qed.

Lemma heap_like_item h h' p e : heap_like core h h' -> h !! p = Some e -> entry_ok e ->
  exists e', h' !! p = Some e' /\ entry_ok e' /\ item_of e' = item_of e.
Proof.
  intros Hl He Hok. destruct (heap_like_Some _ _ _ _ _ Hl He) as (e' & He' & Hc). destruct (core_facts _ _ Hc) as (Hi & _ & Hok').
  exists e'. split_and!; auto.
Qed.

Lemma chain_ext c c' k cs : entries c' = entries c -> (forall p, p ∈ cs -> hl (heap c') p = hl (heap c) p) ->
  chain c k cs -> chain c' k cs.
Proof. intros He Hh (o & Ho & Hs). exists o. rewrite He. split; [done|]. by eapply seg_ext. Qed.

(** The order of the list is in the MRU links only. *)
Lemma rep_reorder c l l' h' : cache_rep c l -> l ≡ₚ l' -> heap_like no_mru (heap c) h' ->
  links (nx h') (pv h') (0 :: l'.*1 ++ [0]) -> cache_rep (with_heap h' c) l'.
Proof.
  intros [Hm Hn Hnd Hd Hi Hmru Hch Hdis] Hp Hl Hlinks.
  assert (Hp1 : l.*1 ≡ₚ l'.*1) by (by rewrite Hp). constructor; cbn [max_entries num_entries entries heap with_heap].
  - done.
  - rewrite Hn. unfold zlen. by rewrite Hp.
  - by rewrite <- Hp1.
  - intros p. rewrite (heap_like_dom _ _ _ p Hl), Hd. by rewrite Hp1.
  - intros p i Hin. rewrite <- Hp in Hin. destruct (Hi _ _ Hin) as (e & He & Hok & <-).
    apply (heap_like_item (heap c) _ _ e); [by apply heap_like_core_mru|done|done].
  - done.
  - intros k Hk. destruct (Hch k Hk) as (cs & Hc & Hndc & Hcs). exists cs. split_and!; [|done|].
    + eapply (chain_ext c); [done| |exact Hc]. intros q _. by apply heap_like_hl.
    + intros p. rewrite Hcs. by setoid_rewrite Hp.
  - intros p i p' i' Hin Hin'. rewrite <- Hp in Hin, Hin'. by apply Hdis.
Qed.

Lemma fst_app {B} (u : list (Z * B)) p i v : (u ++ (p, i) :: v).*1 = u.*1 ++ p :: v.*1.
Proof. by rewrite fmap_app. Qed.

(** A used entry is moved to the front. *)
Lemma wp_move_front c u p i v (Q : unit -> Cache -> Prop) E :
  cache_rep c (u ++ (p, i) :: v) ->
  (forall h', cache_rep (with_heap h' c) ((p, i) :: u ++ v) -> Q tt (with_heap h' c)) ->
  wp (entry_mru_remove p;; entry_mru_add p mru_list) c Q E.
Proof.
  intros Hr HQ. pose proof (rep_nodup _ _ Hr) as Hnd. pose proof (rep_mru _ _ Hr) as Hl. rewrite fst_app in *.
  rewrite <- app_assoc in Hl. cbn [app] in Hl.
  assert (Hp0 : 0 :: u.*1 ++ p :: v.*1 ≡ₚ 0 :: p :: (u ++ v).*1) by (rewrite fmap_app; by rewrite <- Permutation_middle).
  rewrite Hp0 in Hnd. destruct (proj2 (rep_dom _ _ Hr p)) as [e He]; [rewrite fst_app, Hp0; set_solver|].
  wp_step. eapply (wp_mru_remove c u.*1 p v.*1); [by rewrite Hp0|done|]. intros h1 Hl1 Hlike1 Hp1.
  eapply (wp_mru_add (with_heap h1 c) p (u ++ v).*1 e); cbn [heap with_heap]; [done|rewrite fmap_app, <- app_assoc; exact Hl1|by rewrite Hp1|].
  intros h2 Hl2 Hlike2. rewrite with_heap_with_heap. apply HQ. eapply rep_reorder; [exact Hr| | |exact Hl2].
  - by rewrite <- Permutation_middle.
  - by eapply heap_like_trans.
Qed.

(** The entry at the slot is removed. *)
Lemma wp_remove_p c u p i v k pre post (Q : unit -> Cache -> Prop) E :
  cache_rep c (u ++ (p, i) :: v) -> 0 <= k < max_entries c -> bucket c (u ++ (p, i) :: v) k (pre ++ p :: post) ->
  (forall h' es' n', let c' := Cache_ (max_entries c) n' h' (last_id c) es' (pending_requests c) in
     cache_rep c' (u ++ v) -> Q tt c') ->
  wp (_cache_remove_p (slot_at k pre)) c Q E.
Proof.
  intros Hr Hk (Hc & Hndc & Hcs) HQ. pose proof Hr as [[Hmax Hlen] Hnum Hnd Hdom Hitems Hmru Hch Hdis].
  rewrite fst_app in *. rewrite <- app_assoc in Hmru. cbn [app] in Hmru.
  assert (Hp0 : 0 :: u.*1 ++ p :: v.*1 ≡ₚ p :: 0 :: u.*1 ++ v.*1) by (rewrite <- Permutation_middle; apply perm_swap).
  assert (Hnd' := Hnd). rewrite Hp0 in Hnd'. apply NoDup_cons in Hnd' as [Hpnew Hnd'].
  assert (Hsub : forall q j, (q, j) ∈ u ++ v <-> q <> p /\ (q, j) ∈ u ++ (p, i) :: v).
  { intros q j. rewrite !elem_of_app, elem_of_cons. split.
    - intros Hq. split; [|tauto]. intros ->. apply Hpnew. right. rewrite <- fmap_app. apply list_elem_of_fmap. exists (p, j). set_solver.
    - intros [Hne [?|[[= ? _]|?]]]; [tauto|done|tauto]. }
  unfold _cache_remove_p. wp_step. eapply wp_get_slot; [exact Hc|]. cbn [head non_null]. wp_step. wp_step.
  wp_step. eapply wp_mru_remove; [exact Hnd|exact Hmru|]. intros h1 Hl1 Hlike1 Hp1.
  destruct (Hitems p i ltac:(set_solver)) as (e & He & _ & _). rewrite He in Hp1.
  wp_step. eapply wp_deref_entry; [exact Hp1|].
  assert (Hpre : NoDup pre /\ (p ∉ pre) /\ (forall q, q ∈ post -> (q ∉ pre) /\ q <> p)).
  { apply NoDup_app in Hndc as (? & Hd & Hndp). apply NoDup_cons in Hndp as [? _]. split_and!; [done|set_solver|set_solver]. }
  destruct Hpre as (Hndpre & Hppre & Hpost).
  wp_step. apply (wp_set_slot _ k pre (p :: post)); cbn [entries with_heap heap max_entries num_entries last_id pending_requests].
  { by rewrite Hlen. }
  { eapply (chain_ext c); [done| |exact Hc]. intros q _. by apply heap_like_hl. }
  { done. }
  intros h2 es2 Hes2 Hlike2 Hsame Hother (o & Ho & Hseg).
  unfold entry_free. wp_step. wp_step. eapply (wp_deref_entry p e); [cbn; by rewrite Hsame|]. apply wp_updS. apply wp_updS. cbn.
  unfold constant. set (h3 := delete p h2).
  assert (Hlike : heap_like core (heap c) h2).
  { eapply heap_like_trans; [by apply heap_like_core_mru|by apply heap_like_core_link]. }
  assert (Hh3 : forall q, q <> p -> h3 !! q = h2 !! q) by (intros q Hq; unfold h3; by rewrite lookup_delete_ne).
  assert (Hchain : forall cs, (forall q, q ∈ cs -> (q ∉ pre) /\ q <> p) -> forall o, seg (hl (heap c)) o cs None -> seg (hl h3) o cs None).
  { intros cs Hq o'. apply (seg_ext (hl (heap c))). intros q Hin. destruct (Hq q Hin) as [Hqpre Hqp].
    unfold hl. rewrite Hh3, Hsame by done. by apply heap_like_hl. }
  apply (HQ h3 es2 (num_entries c - 1)). constructor; cbn [max_entries num_entries entries heap].
  - split; [done|lia].
  - rewrite Hnum, !zlen_app, zlen_cons. lia.
  - by rewrite fmap_app.
  - intros q. rewrite fmap_app. destruct (decide (q = p)) as [->|Hqp].
    + unfold h3. rewrite lookup_delete_eq. split; [intros [? ?]; done|by intros ?%Hpnew].
    + rewrite Hh3, (heap_like_dom _ _ _ q Hlike), Hdom, Hp0 by done. set_solver.
  - intros q j [Hqp Hin]%Hsub. destruct (Hitems _ _ Hin) as (e' & He' & Hok' & <-). rewrite Hh3 by done.
    by apply (heap_like_item _ _ _ _ Hlike).
  - rewrite fmap_app, <- app_assoc. eapply links_ext; [|exact Hl1]. intros q Hq.
    assert (Hqp : q <> p) by (intros ->; apply Hpnew; set_solver). unfold nx, pv. rewrite !Hh3 by done. apply heap_like_nx, Hlike2.
  - intros j Hj. destruct (decide (j = k)) as [->|Hjk].
    + exists (pre ++ post). split_and!.
      * exists o. split; [done|]. apply seg_app. exists (hlink e). split.
        -- eapply seg_ext; [|exact Hseg]. intros q Hq. unfold hl. rewrite Hh3 by set_solver. done.
        -- destruct Hc as (o' & _ & (m & _ & -> & n & Hn & Hs)%seg_app). assert (hlink e = n) as ->.
           { unfold hl in Hn. rewrite He in Hn. by injection Hn. }
           by apply Hchain.
      * apply NoDup_app in Hndc as (? & Hd & Hndp). apply NoDup_cons in Hndp as [_ ?]. apply NoDup_app. split_and!; [done|set_solver|done].
      * intros q. setoid_rewrite Hsub. transitivity (q ∈ pre ++ p :: post /\ q <> p); [set_solver|]. rewrite Hcs. naive_solver.
    + destruct (Hch j Hj) as (cs & (o' & Ho' & Hs) & Hndcs & Hcsj). exists cs.
      assert (Hout : forall q, q ∈ cs -> q ∉ pre ++ p :: post).
      { intros q (j1 & Hj1 & Hb1)%Hcsj (j2 & Hj2 & Hb2)%Hcs. rewrite (rep_fun _ _ _ _ _ Hr Hj1 Hj2) in Hb1. congruence. }
      split_and!; [|done|].
      * exists o'. rewrite Hother by done. split; [done|]. apply Hchain; [|done]. intros q Hq. specialize (Hout q Hq). set_solver.
      * intros q. setoid_rewrite Hsub. rewrite Hcsj. split; [|naive_solver]. intros (j1 & Hj1 & Hb1). exists j1. split_and!; [|done|done].
        intros ->. apply (Hout p); [apply Hcsj; by exists j1|set_solver].
  - intros q1 j1 q2 j2 [_ H1]%Hsub [_ H2]%Hsub. by apply Hdis.
Qed.

(** A new entry, at an address that was not in use, is added at the slot behind
    the chain of its bucket and at the front of the list. *)
Lemma wp_add_p c l p e k pre (Q : unit -> Cache -> Prop) E :
  cache_rep c l -> p ∉ 0 :: l.*1 -> entry_ok e -> hlink e = None -> last_id c + 1 < 2 ^ 31 ->
  k = bucket_of c (item_of e) -> bucket c l k pre -> (forall q j, (q, j) ∈ l -> ~ matches (iq j) (query e)) ->
  (forall h' es' n', let c' := Cache_ (max_entries c) n' h' (last_id c + 1) es' (pending_requests c) in
     cache_rep c' ((p, item_of e) :: l) -> Q tt c') ->
  wp (_cache_add_p (slot_at k pre) p) (with_heap (<[p := e]> (heap c)) c) Q E.
Proof.
  intros Hr Hp Hok Hlink Hid Hk (Hc & Hndc & Hcs) Hno HQ. pose proof Hr as [[Hmax Hlen] Hnum Hnd Hdom Hitems Hmru Hch Hdis].
  set (h0 := <[p := e]> (heap c)).
  assert (Hh0 : forall q, q <> p -> h0 !! q = heap c !! q) by (intros q Hq; unfold h0; by rewrite lookup_insert_ne).
  assert (Hpl : forall j, (p, j) ∉ l) by (intros j Hj; apply Hp; right; apply list_elem_of_fmap; by exists (p, j)).
  assert (Hppre : forall q, q ∈ pre -> q <> p) by (intros q (j & Hj & _)%Hcs ->; by apply (Hpl j)).
  unfold _cache_add_p. wp_step. apply (wp_set_slot _ k pre []); cbn [entries with_heap heap max_entries num_entries last_id pending_requests].
  { rewrite Hlen, Hk. by apply (bucket_range c l). }
  { rewrite app_nil_r. eapply (chain_ext c); [done| |exact Hc]. intros q Hq. unfold hl. cbn. by rewrite Hh0 by auto. }
  { done. }
  intros h1 es1 Hes1 Hlike1 Hsame Hother (o & Ho & Hseg).
  assert (Hp1 : h1 !! p = Some e) by (rewrite Hsame; [apply lookup_insert_eq|intros Hin; by apply (Hppre p)]).
  wp_step. apply wp_getS. wp_step. apply wp_require; [cbn [last_id]; lia|].
  wp_step. apply wp_updS. wp_step. apply wp_getS. wp_step. eapply (wp_store p _ e); [cbn; unfold constant; exact Hp1|].
  cbn. unfold constant, with_heap. cbn [max_entries num_entries entries last_id pending_requests heap].
  set (e2 := e{{ id := last_id c + 1 }}). set (h2 := <[p := e2]> h1).
  assert (Hlike2 : heap_like no_link h1 h2) by (by apply (heap_like_insert _ _ p e)).
  assert (Hnx : forall q, q <> p -> nx h2 q = nx (heap c) q /\ pv h2 q = pv (heap c) q).
  { intros q Hq. destruct (heap_like_nx _ _ Hlike2 q) as [-> ->]. destruct (heap_like_nx _ _ Hlike1 q) as [-> ->].
    unfold nx, pv. by rewrite Hh0. }
  wp_step. eapply (wp_mru_add _ p l.*1 e2); cbn [heap].
  { apply NoDup_cons in Hnd as [? ?]. apply NoDup_cons; split; [set_solver|]. apply NoDup_cons; split; [set_solver|done]. }
  { eapply links_ext; [|exact Hmru]. intros q Hq. apply Hnx. intros ->. apply Hp. set_solver. }
  { apply lookup_insert_eq. }
  intros h3 Hl3 Hlike3. apply wp_updS. cbn. unfold constant.
  assert (Hlike : heap_like core h0 h3).
  { eapply heap_like_trans; [by apply heap_like_core_link|]. eapply heap_like_trans; [by apply heap_like_core_link|].
    by apply heap_like_core_mru. }
  assert (Hhl : forall q, q ∉ pre -> hl h3 q = hl h0 q).
  { intros q Hq. rewrite (heap_like_hl _ _ Hlike3). unfold hl, h2. destruct (decide (q = p)) as [->|Hqp].
    - rewrite lookup_insert_eq. unfold h0. by rewrite lookup_insert_eq.
    - rewrite lookup_insert_ne by done. by rewrite Hsame. }
  apply (HQ h3 es1). constructor; cbn [max_entries num_entries entries heap].
  - split; [done|lia].
  - rewrite Hnum, zlen_cons. lia.
  - cbn [fmap list_fmap fst]. apply NoDup_cons in Hnd as [? ?]. apply NoDup_cons; split; [set_solver|]. apply NoDup_cons; split; [set_solver|done].
  - intros q. rewrite (heap_like_dom _ _ _ q Hlike). unfold h0. cbn. destruct (decide (q = p)) as [->|Hqp].
    + rewrite lookup_insert_eq. split; [set_solver|by eexists].
    + rewrite lookup_insert_ne, Hdom by done. set_solver.
  - intros q j [[= -> ->]|Hin]%elem_of_cons.
    + apply (heap_like_item _ _ _ e Hlike); [apply lookup_insert_eq|done].
    + assert (q <> p) by (intros ->; by apply (Hpl j)). destruct (Hitems _ _ Hin) as (e' & He' & Hok' & <-).
      apply (heap_like_item _ _ _ _ Hlike); [by rewrite Hh0|done].
  - exact Hl3.
  - intros j Hj. destruct (decide (j = k)) as [->|Hjk].
    + exists (pre ++ [p]). split_and!.
      * exists o. split; [done|]. apply seg_app. exists (Some p). split.
        -- eapply seg_ext; [|exact Hseg]. intros q Hq. rewrite (heap_like_hl _ _ Hlike3). unfold hl, h2.
           by rewrite lookup_insert_ne by (intros ->; by apply (Hppre q)).
        -- split; [done|]. exists None. split; [|done]. rewrite Hhl by (intros Hin; by apply (Hppre p)). unfold hl, h0.
           rewrite lookup_insert_eq. cbn. by rewrite Hlink.
      * apply NoDup_app. split_and!; [done| |apply NoDup_singleton]. intros q Hq. specialize (Hppre q Hq). set_solver.
      * intros q. rewrite elem_of_app, Hcs, list_elem_of_singleton. unfold bucket_of at 2. cbn [max_entries]. fold (bucket_of c).
        setoid_rewrite elem_of_cons. split.
        -- intros [(j & Hj' & Hb)| ->]; [exists j; by auto|]. exists (item_of e). split; [by left|]. by rewrite Hk.
        -- intros (j & [[= -> ->]|Hj'] & Hb); [by right|]. left. by exists j.
    + destruct (Hch j Hj) as (cs & (o' & Ho' & Hs) & Hndcs & Hcsj). exists cs.
      assert (Hout : forall q, q ∈ cs -> (q ∉ pre) /\ q <> p).
      { intros q (j1 & Hj1 & Hb1)%Hcsj. split; [|intros ->; by apply (Hpl j1)]. intros (j2 & Hj2 & Hb2)%Hcs.
        rewrite (rep_fun _ _ _ _ _ Hr Hj1 Hj2) in Hb1. congruence. }
      split_and!; [|done|].
      * exists o'. rewrite Hother by done. split; [done|]. eapply seg_ext; [|exact Hs]. intros q Hq. destruct (Hout q Hq).
        rewrite Hhl by done. unfold hl. by rewrite Hh0.
      * intros q. rewrite Hcsj. unfold bucket_of at 2. cbn [max_entries]. fold (bucket_of c). setoid_rewrite elem_of_cons. split.
        -- intros (j1 & Hj1 & Hb1). exists j1. by auto.
        -- intros (j1 & [[= -> ->]|Hj1] & Hb1); [by destruct Hjk; rewrite Hk|]. by exists j1.
  - intros q1 j1 q2 j2 [[= -> ->]|H1]%elem_of_cons [[= -> ->]|H2]%elem_of_cons Hm; [done| | |by eapply Hdis].
    + destruct (Hno q2 j2 H2). apply matches_sym; [|done]. by destruct Hok as [(_ & _ & ?) _].
    + by destruct (Hno q1 j1 H1).
Qed.
