(* ===== verification/ResCacheOps.v ===== *)
(** * Eviction, flushing and creation of the cache

    What the operations of [ResCache.v] on the whole cache do to the list of
    answers of [cache_rep]: the oldest entry and the expired ones go, a flush
    leaves the list empty, a new cache has the empty list. *)
From S2P Require Import Prelude CString NsName NsWire NsParse NsRecords ResPacket ResTtl ResCache ResCacheRep.
From coqutil Require Import Datatypes.RecordSetters.
Import DoubleBraceUpdate.

(** What changes with the entries only: the size, the pending requests and the last id do not. *)
Definition same_frame (c c' : Cache) : Prop :=
  max_entries c' = max_entries c /\ pending_requests c' = pending_requests c /\ last_id c' = last_id c.

Lemma same_frame_refl c : same_frame c c.
Proof. done. Qed.

Lemma same_frame_trans c1 c2 c3 : same_frame c1 c2 -> same_frame c2 c3 -> same_frame c1 c3.
Proof. intros (? & ? & ?) (? & ? & ?). split_and!; congruence. Qed.

(** An entry of the list is found at its own slot. *)
Lemma wp_lookup_own c u p i v e (Q : slot -> Cache -> Prop) E :
  cache_rep c (u ++ (p, i) :: v) -> heap c !! p = Some e ->
  (forall k pre post, 0 <= k < max_entries c -> bucket c (u ++ (p, i) :: v) k (pre ++ p :: post) -> Q (slot_at k pre) c) ->
  wp (_cache_lookup_p e) c Q E.
Proof.
  intros Hr He HQ. destruct (rep_items _ _ Hr p i) as (e' & He' & [Hk _] & Hit); [set_solver|].
  assert (e' = e) as -> by congruence. assert (Hq : iq i = query e) by (by rewrite <- Hit).
  apply (wp_lookup_p c _ Hr e Hk). intros k pre post (-> & Hb & Hpost).
  assert (Hm : matches (query e) (query e)) by (apply matches_refl, Hk).
  destruct post as [|p' post].
  - destruct (Hpost p i); [set_solver|]. by rewrite Hq.
  - destruct Hpost as (i' & Hi' & Hm'). rewrite <- Hq in Hm'.
    assert (p' = p) as -> by (apply (rep_distinct _ _ Hr _ i' _ i); [done|set_solver|done]).
    apply (HQ _ pre post); [|done]. apply Z.mod_pos_bound. apply (rep_max _ _ Hr).
Qed.

(** The entry of the list that a look-up has found is removed. *)
Lemma wp_remove_found c u p i v e (Q : unit -> Cache -> Prop) E :
  cache_rep c (u ++ (p, i) :: v) -> heap c !! p = Some e ->
  (forall c', cache_rep c' (u ++ v) -> same_frame c c' -> Q tt c') ->
  wp (lookup ← _cache_lookup_p e; found ← get_slot lookup;
      match found with None => mret tt | Some _ => _cache_remove_p lookup end) c Q E.
Proof.
  intros Hr He HQ. wp_step. eapply wp_lookup_own; [done|done|]. intros k pre post Hk Hb.
  wp_step. eapply wp_get_slot; [exact (proj1 Hb)|]. cbn [head]. eapply wp_remove_p; [done|done|exact Hb|].
  intros h' es' n' c' Hr'. by apply HQ.
Qed.

Lemma wp_remove_oldest c u p i (Q : unit -> Cache -> Prop) E :
  cache_rep c (u ++ [(p, i)]) -> (forall c', cache_rep c' u -> same_frame c c' -> Q tt c') ->
  wp _cache_remove_oldest c Q E.
Proof.
  intros Hr HQ. pose proof (rep_mru _ _ Hr) as Hl. rewrite fst_app in Hl.
  assert (Hp0 : pv (heap c) 0 = Some p).
  { cbn [fmap list_fmap] in Hl. rewrite <- app_assoc in Hl. cbn [app] in Hl.
    change (0 :: u.*1 ++ [p; 0]) with ((0 :: u.*1) ++ p :: [0]) in Hl. by apply links_app in Hl as [_ (_ & ? & _)]. }
  apply pv_Some in Hp0 as (e0 & He0 & Hprev). destruct (rep_items _ _ Hr p i) as (e & He & _); [set_solver|].
  unfold _cache_remove_oldest. wp_step. eapply wp_deref_entry; [exact He0|]. rewrite Hprev. cbn [non_null]. wp_step. wp_step.
  wp_step. eapply wp_deref_entry; [exact He|]. eapply wp_remove_found; [done|done|]. rewrite app_nil_r. exact HQ.
Qed.

(** ** Expired entries *)

(** The entries that live on at [now]. *)
Definition live (now : Z) (l : list (Z * item)) : list (Z * item) := filter (fun pi => now < ix pi.2) l.

Lemma live_Forall now l : Forall (fun pi => now < ix pi.2) (live now l).
Proof. apply Forall_forall. intros pi Hin. by apply list_elem_of_filter in Hin as [? _]. Qed.

Lemma live_length now l : (length (live now l) <= length l)%nat.
Proof. apply length_filter. Qed.

Lemma wp_expired_loop now : forall rest fuel c u (Q : unit -> Cache -> Prop) E,
  cache_rep c (u ++ rest) -> (length rest < fuel)%nat ->
  (forall c', cache_rep c' (u ++ live now rest) -> same_frame c c' -> Q tt c') ->
  wp (loop fuel (expired_step now) (default 0 (head rest.*1))) c Q E.
Proof.
  induction rest as [|[p i] rest IH]; intros [|fuel] c u Q E Hr Hf HQ; try (cbn in Hf; lia); apply wp_loop_S; unfold expired_step.
  { cbn. apply HQ; [by rewrite app_nil_r in *|done]. }
  cbn [fmap list_fmap head default fst length] in *. pose proof (rep_nodup _ _ Hr) as Hnd. rewrite fst_app in Hnd.
  assert (Hp : p <> 0) by (intros ->; apply NoDup_cons in Hnd as [Hn _]; set_solver).
  unfold mru_list, Datatypes.id. rewrite (proj2 (Z.eqb_neq p 0)) by done.
  destruct (rep_items _ _ Hr p i) as (e & He & _ & Hit); [set_solver|]. assert (Hx : ix i = expires e) by (by rewrite <- Hit).
  assert (Hnext : mru_next e = Some (default 0 (head rest.*1))).
  { pose proof (rep_mru _ _ Hr) as Hl. rewrite fst_app in Hl. change (0 :: (u.*1 ++ p :: rest.*1) ++ [0]) with
      (((0 :: u.*1) ++ p :: rest.*1) ++ [0]) in Hl. rewrite <- app_assoc in Hl. cbn [app] in Hl.
    change (0 :: u.*1 ++ p :: rest.*1 ++ [0]) with ((0 :: u.*1) ++ p :: rest.*1 ++ [0]) in Hl.
    apply links_app in Hl as [_ Hl]. destruct rest as [|[q j] rest]; cbn in Hl; destruct Hl as (Hn & _); unfold nx in Hn;
      rewrite He in Hn; exact Hn. }
  wp_step. eapply wp_deref_entry; [exact He|]. destruct (Z.leb_spec (expires e) now) as [Hle|Hgt].
  - wp_step. eapply wp_lookup_own; [done|exact He|]. intros k pre post Hk Hb.
    wp_step. eapply wp_get_slot; [exact (proj1 Hb)|]. cbn [head]. rewrite Hnext. cbn [non_null]. wp_step. wp_step. wp_step.
    eapply wp_remove_p; [done|done|exact Hb|]. intros h' es' n' c' Hr'. wp_step. eapply IH; [exact Hr'|lia|].
    intros c'' Hr'' Hs. apply HQ; [|eapply same_frame_trans; [|exact Hs]; done].
    unfold live. rewrite filter_cons_False by (cbn; lia). exact Hr''.
  - rewrite Hnext. cbn [non_null]. wp_step. wp_step. wp_step. apply (IH _ _ (u ++ [(p, i)])); [by rewrite <- app_assoc|lia|].
    intros c'' Hr'' Hs. apply HQ; [|done]. unfold live. rewrite filter_cons_True by (cbn; lia). by rewrite <- app_assoc in Hr''.
Qed.

Lemma wp_remove_expired now c l (Q : unit -> Cache -> Prop) E :
  cache_rep c l -> (forall c', cache_rep c' (live now l) -> same_frame c c' -> Q tt c') ->
  wp (_cache_remove_expired now) c Q E.
Proof.
  intros Hr HQ. assert (Hn : nx (heap c) 0 = Some (default 0 (head l.*1))).
  { pose proof (rep_mru _ _ Hr) as Hl. destruct l as [|[p i] l]; by destruct Hl as (? & _). }
  apply nx_Some in Hn as (e0 & He0 & Hn). unfold _cache_remove_expired. wp_step. eapply wp_deref_entry; [exact He0|]. rewrite Hn.
  cbn [non_null]. wp_step. wp_step. wp_step. apply wp_getS. apply (wp_expired_loop now l _ c []); [done| |done].
  rewrite (rep_size _ _ Hr). lia.
Qed.

(** ** Flushing *)

(** The entries of the bucket [k] are freed. *)
Lemma wp_flush_chain k : forall cs fuel c (Q : unit -> Cache -> Prop) E,
  0 <= k < zlen (entries c) -> chain c k cs -> NoDup cs -> (length cs < fuel)%nat ->
  (forall h' es', let c' := Cache_ (max_entries c) (num_entries c) h' (last_id c) es' (pending_requests c) in
     zlen es' = zlen (entries c) -> znth es' k = Some None -> (forall j, j <> k -> znth es' j = znth (entries c) j) ->
     (forall q, q ∈ cs -> h' !! q = None) -> (forall q, q ∉ cs -> h' !! q = heap c !! q) -> Q tt c') ->
  wp (loop fuel flush_chain_step (Bucket k)) c Q E.
Proof.
  induction cs as [|p cs IH]; intros [|fuel] c Q E Hk Hc Hnd Hf HQ; try (cbn in Hf; lia); apply wp_loop_S; unfold flush_chain_step;
    destruct Hc as (o & Ho & Hs).
  - cbn in Hs. subst o. wp_step. apply (wp_get_slot c k [] []); [by exists None|]. cbn [head]. wp_step.
    destruct c as [mx nm h li es pe]. apply (HQ h es); [done|done|done|set_solver|done].
  - pose proof Hs as (-> & n & Hn & Hs'). apply hl_Some in Hn as (e & He & Hn). apply NoDup_cons in Hnd as [Hp Hnd].
    wp_step. apply (wp_get_slot c k [] (p :: cs)); [by exists (Some p)|]. cbn [head].
    wp_step. eapply wp_deref_entry; [exact He|]. wp_step.
    apply (wp_set_slot c k [] (p :: cs) (hlink e)); [done|by exists (Some p)|apply NoDup_nil_2|].
    cbv zeta. intros h1 es1 Hes1 _ Hh1 Hoth (o1 & Ho1 & Hs1). unfold entry_free. wp_step. wp_step.
    assert (Hhp : h1 !! p = Some e) by (by rewrite Hh1 by set_solver).
    eapply (wp_deref_entry p e); [exact Hhp|]. apply wp_updS. wp_step.
    cbn in Hs1. subst o1. rewrite Hn in Ho1. cbn. unfold constant.
    apply IH; cbn [entries heap max_entries num_entries last_id pending_requests]; [lia| |done|cbn in Hf; lia|].
    + exists n. split; [done|]. eapply seg_ext; [|exact Hs']. intros q Hq. unfold hl. cbn.
      rewrite lookup_delete_ne, Hh1 by set_solver. done.
    + intros h2 es2 Hes2 Hk2 Hoth2 Hin2 Hout2. apply (HQ h2 es2); [lia|done| | |].
      * intros j Hj. by rewrite Hoth2, Hoth.
      * intros q [->|Hq]%elem_of_cons; [|by apply Hin2]. rewrite Hout2 by done. apply lookup_delete_eq.
      * intros q Hq. rewrite Hout2, lookup_delete_ne, Hh1 by set_solver. done.
Qed.

(** The buckets before [nn] are empty, the others as they were. *)
Definition flushed (c0 : Cache) (l : list (Z * item)) (nn : Z) (c : Cache) : Prop :=
  same_frame c0 c /\ zlen (entries c) = zlen (entries c0) /\
  (forall j, 0 <= j < nn -> znth (entries c) j = Some None) /\
  (forall j, nn <= j -> znth (entries c) j = znth (entries c0) j) /\
  heap c !! 0 <> None /\
  (forall p i, (p, i) ∈ l -> bucket_of c0 i < nn -> heap c !! p = None) /\
  (forall p i, (p, i) ∈ l -> nn <= bucket_of c0 i -> heap c !! p = heap c0 !! p) /\
  (forall p, heap c !! p <> None -> p ∈ 0 :: l.*1).

Lemma flushed_chain c0 l nn c k cs : cache_rep c0 l -> flushed c0 l nn c -> nn <= k -> bucket c0 l k cs ->
  chain c k cs /\ (length cs < Datatypes.S (size (heap c)))%nat.
Proof.
  intros Hr (_ & _ & _ & Hes & _ & _ & Hkeep & _) Hk ((o & Ho & Hs) & Hnd & Hcs).
  assert (Hsame : forall q, q ∈ cs -> heap c !! q = heap c0 !! q).
  { intros q (i & Hi & Hb)%Hcs. apply (Hkeep q i); [done|lia]. }
  split.
  - exists o. rewrite Hes by lia. split; [done|]. eapply seg_ext; [|exact Hs]. intros q Hq. unfold hl. by rewrite Hsame.
  - rewrite <- (size_dom (heap c)), <- (size_list_to_set (C := gset Z) cs) by done. assert (list_to_set cs ⊆ dom (heap c)) as H; [|apply subseteq_size in H; lia].
    intros q Hq%elem_of_list_to_set. apply elem_of_dom. rewrite Hsame by done. apply Hcs in Hq as (i & Hi & _).
    destruct (rep_items _ _ Hr _ _ Hi) as (e & He & _). by exists e.
Qed.

Lemma flushed_next c0 l nn c cs h' es' : cache_rep c0 l -> flushed c0 l nn c -> bucket c0 l nn cs ->
  zlen es' = zlen (entries c) -> znth es' nn = Some None -> (forall j, j <> nn -> znth es' j = znth (entries c) j) ->
  (forall q, q ∈ cs -> h' !! q = None) -> (forall q, q ∉ cs -> h' !! q = heap c !! q) ->
  flushed c0 l (nn + 1) (Cache_ (max_entries c) (num_entries c) h' (last_id c) es' (pending_requests c)).
Proof.
  intros Hr (Hf & Hl & Hdone & Hes & H0 & Hgone & Hkeep & Hdom) (_ & _ & Hcs) Hl' Hnn Hoth Hin Hout.
  assert (Hfun : forall p i i', (p, i) ∈ l -> (p, i') ∈ l -> i = i') by (intros; by eapply rep_fun).
  split_and!; cbn [entries heap].
  - done.
  - lia.
  - intros j Hj. destruct (decide (j = nn)) as [->|]; [done|]. rewrite Hoth by done. apply Hdone. lia.
  - intros j Hj. rewrite Hoth by lia. apply Hes. lia.
  - rewrite Hout; [done|]. intros (i & Hi & _)%Hcs. pose proof (rep_nodup _ _ Hr) as [Hn _]%NoDup_cons.
    apply Hn, list_elem_of_fmap. by exists (0, i).
  - intros p i Hi Hb. destruct (decide (p ∈ cs)) as [Hp|Hp]; [by apply Hin|]. rewrite Hout by done. apply (Hgone p i); [done|].
    assert (bucket_of c0 i <> nn); [|lia]. intros Heq. apply Hp, Hcs. by exists i.
  - intros p i Hi Hb. rewrite Hout; [apply (Hkeep p i); [done|lia]|]. intros (i' & Hi' & Hb')%Hcs. rewrite (Hfun p i i') in Hb by done. lia.
  - intros p Hp. destruct (decide (p ∈ cs)) as [Hc|Hc]; [by rewrite Hin in Hp|]. rewrite Hout in Hp by done. by apply Hdom.
Qed.

Lemma wp_flush_loop c0 l (Hr : cache_rep c0 l) : forall fuel nn c (Q : unit -> Cache -> Prop) E,
  0 <= nn <= max_entries c0 -> flushed c0 l nn c -> (Z.to_nat (max_entries c0 - nn) < fuel)%nat ->
  (forall c', flushed c0 l (max_entries c0) c' -> Q tt c') ->
  wp (loop fuel flush_step nn) c Q E.
Proof.
  induction fuel as [|fuel IH]; intros nn c Q E Hnn Hf Hfuel HQ; [lia|]. apply wp_loop_S. unfold flush_step. wp_step. apply wp_getS.
  pose proof Hf as ((Hmax & _) & Hl & _). pose proof (rep_max _ _ Hr) as [_ Hlen]. rewrite Hmax.
  destruct (Z.ltb_spec nn (max_entries c0)); cbn [negb].
  - destruct (rep_chains _ _ Hr nn) as (cs & Hb); [lia|]. destruct (flushed_chain _ _ _ _ _ _ Hr Hf (Z.le_refl nn) Hb) as [Hc Hlt].
    wp_step. apply (wp_flush_chain nn cs); [lia|done|exact (proj1 (proj2 Hb))|done|].
    intros h' es' c' H1 H2 H3 H4 H5. wp_step. apply IH; [lia|by eapply flushed_next|lia|done].
  - wp_step. apply HQ. by replace (max_entries c0) with nn by lia.
Qed.

Lemma wp_flush_locked c l (Q : unit -> Cache -> Prop) E :
  cache_rep c l -> (forall c', cache_rep c' [] -> max_entries c' = max_entries c -> pending_requests c' = [] -> last_id c' = 0 -> Q tt c') ->
  wp _cache_flush_locked c Q E.
Proof.
  intros Hr HQ. pose proof (rep_max _ _ Hr) as [Hmax Hlen]. pose proof (rep_dom _ _ Hr) as Hdom.
  pose proof (rep_nodup _ _ Hr) as [H0 _]%NoDup_cons. unfold _cache_flush_locked. wp_step. apply wp_getS. wp_step.
  apply (wp_flush_loop c l Hr); [lia| |lia|].
  { split_and!; [apply same_frame_refl|done|lia|done| | |done|].
    - intros Hn. destruct (proj2 (Hdom 0)) as [? ?]; [set_solver|congruence].
    - intros p i Hi Hb. pose proof (bucket_range _ _ i Hr). lia.
    - intros p Hp. apply Hdom. by apply not_eq_None_Some. }
  intros [mx nm h1 li es pe] ((Hf & _) & Hl & Hdone & _ & Hh0 & Hgone & _ & Hd1). cbn [max_entries heap entries] in *. unfold _cache_flush_pending_requests_locked. wp_step. apply wp_updS.
  apply not_eq_None_Some in Hh0 as [e0 He0]. wp_step. eapply (wp_store _ _ e0); [exact He0|]. apply wp_updS.
  cbn. unfold constant. apply HQ; [|done|done|done]. constructor; cbn [max_entries num_entries entries heap].
  - rewrite Hf. split; [lia|]. by rewrite Hl.
  - done.
  - apply NoDup_singleton.
  - intros p. rewrite list_elem_of_singleton. destruct (decide (p = 0)) as [->|Hp].
    + unfold mru_list. rewrite lookup_insert_eq. split; [done|by eexists].
    + unfold mru_list. rewrite lookup_insert_ne by done. split; [|done]. intros Hs.
      assert (Hin : p ∈ 0 :: l.*1) by (apply Hd1; by apply not_eq_None_Some). apply elem_of_cons in Hin as [|Hin]; [done|].
      apply list_elem_of_fmap in Hin as ([q i] & -> & Hi). cbn in Hs. rewrite (Hgone q i) in Hs; [by destruct Hs|done|].
      apply (bucket_range _ _ i Hr).
  - intros p i Hi. by apply not_elem_of_nil in Hi.
  - cbn [fmap list_fmap app links]. unfold nx, pv, mru_list. by rewrite lookup_insert_eq.
  - intros k Hk. exists []. split_and!; [|apply NoDup_nil_2|].
    + exists None. split; [|done]. apply Hdone. lia.
    + intros p. split; [set_solver|]. intros (i & Hi & _). by apply not_elem_of_nil in Hi.
  - intros p i p' i' Hi. by apply not_elem_of_nil in Hi.
Qed.

(** ** Creation *)

(** The cache is used in the mode "local" only; in the others it has no slots. *)
Lemma create_rep c : c = _resolv_cache_create (Some [108; 111; 99; 97; 108]) ->
  cache_rep c [] /\ max_entries c = CONFIG_MAX_ENTRIES /\ last_id c = 0.
Proof.
  intros ->. split_and!; [|done|done]. constructor.
  - done.
  - done.
  - apply NoDup_singleton.
  - intros p. rewrite list_elem_of_singleton. cbn [heap _resolv_cache_create]. rewrite lookup_singleton_is_Some. done.
  - intros p i Hi. by apply not_elem_of_nil in Hi.
  - cbn [fmap list_fmap app heap _resolv_cache_create links]. unfold nx, pv, mru_list. rewrite lookup_singleton_eq. done.
  - intros k Hk. exists []. split_and!; [|apply NoDup_nil_2|].
    + exists None. split; [|done]. cbn [entries _resolv_cache_create]. unfold znth.
      change (max_entries (_resolv_cache_create (Some [108; 111; 99; 97; 108]))) with CONFIG_MAX_ENTRIES in Hk.
      rewrite (proj2 (Z.ltb_ge k 0)) by lia. apply lookup_replicate_2. change (_res_cache_get_max_entries (Some [108; 111; 99; 97; 108])) with CONFIG_MAX_ENTRIES. lia.
    + intros p. split; [set_solver|]. intros (i & Hi & _). by apply not_elem_of_nil in Hi.
  - intros p i p' i' Hi. by apply not_elem_of_nil in Hi.
Qed.
