(* ===== verification/ResStats.v ===== *)
(** * Reachability of name servers: [dns/resolv/res_stats.c]

    The samples of the last queries to a server are in a ring buffer, filled by
    [_res_cache_add_stats_sample_locked] of [dns/resolv/res_cache.c] and read by
    the functions that tell which servers to use. The state is the
    [__res_stats] of a server; [uint8_t] counters wrap. The clock
    ([evNowTime]) is an argument. *)
From S2P Require Import Prelude.
From coqutil Require Import Datatypes.RecordSetters.
Import DoubleBraceUpdate.

(** ** Data *)

Record __res_sample : Type := Sample { at_ : Z; rtt : Z; rcode : Z }.

Record __res_stats : Type := Stats { samples : list __res_sample; sample_count : Z; sample_next : Z }.

Record __res_params : Type := Params {
  sample_validity : Z; success_threshold : Z; min_samples : Z; max_samples : Z; base_timeout_msec : Z }.

Definition MAXNS : Z := 4.
Definition MAXNSSAMPLES : Z := 64.
Definition SUCCESS_THRESHOLD : Z := 75.
Definition NSSAMPLE_VALIDITY : Z := 1800.
Definition RCODE_INTERNAL_ERROR : Z := 254.
Definition RCODE_TIMEOUT : Z := 255.
Definition NOERROR : Z := 0.
Definition NXDOMAIN : Z := 3.
Definition NOTAUTH : Z := 9.

(** ** Samples *)

(** [struct timespec]: seconds and nanoseconds. C's division truncates; [int] and [long] have 32 and 64 bits. *)
Definition _res_stats_calculate_rtt '((s1, n1) : Z * Z) '((s0, n0) : Z * Z) : Z :=
  let ms0 := s0 * 1000 + Z.quot n0 1000000 in
  let ms1 := s1 * 1000 + Z.quot n1 1000000 in
  s32 (ms1 - ms0).

(** [rcode] is a [uint8_t], [rtt] a [uint16_t]. *)
Definition _res_stats_set_sample (now rcode rtt : Z) : __res_sample := Sample now (u16 rtt) (u8 rcode).

Definition _res_stats_clear_samples : M __res_stats unit :=
  updS (fun st => st{{ sample_next := 0 }}{{ sample_count := 0 }}).

Definition _res_cache_add_stats_sample_locked (sample : __res_sample) (max_samples : Z) : M __res_stats unit :=
  st ← getS;
  zoom samples (fun l st => st{{ samples := l }}) (wr (sample_next st) sample);;
  (if sample_count st <? max_samples then updS (fun st => st{{ sample_count := u8 (sample_count st + 1) }}) else mret tt);;
  updS (fun st => st{{ sample_next := u8 (sample_next st + 1) }});;
  st ← getS;
  if max_samples <=? sample_next st then updS (fun st => st{{ sample_next := 0 }}) else mret tt.

(** ** Aggregation *)

Record tally : Type := Tally { s_ : Z; e_ : Z; t_ : Z; ie_ : Z; rtt_sum : Z; rtt_count : Z }.

Record aggregated : Type := Aggregated {
  successes : Z; errors : Z; timeouts : Z; internal_errors : Z; rtt_avg : Z; last_sample_time : Z }.

(** The [switch]. *)
Definition tally_sample (a : tally) (x : __res_sample) : tally :=
  if (rcode x =? NOERROR) || (rcode x =? NOTAUTH) || (rcode x =? NXDOMAIN)
  then a{{ s_ := s_ a + 1 }}{{ rtt_sum := rtt_sum a + rtt x }}{{ rtt_count := rtt_count a + 1 }}
  else if rcode x =? RCODE_TIMEOUT then a{{ t_ := t_ a + 1 }}
  else if rcode x =? RCODE_INTERNAL_ERROR then a{{ ie_ := ie_ a + 1 }}
  else a{{ e_ := e_ a + 1 }}.

Definition aggregate_step '((i, a) : Z * tally) : M __res_stats (step (Z * tally) tally) :=
  st ← getS;
  if negb (i <? sample_count st) then mret (Done a) else
  x ← rd (samples st) i;
  mret (Next (i + 1, tally_sample a x)).

Definition android_net_res_stats_aggregate : M __res_stats aggregated :=
  st ← getS;
  a ← loop (Z.to_nat (sample_count st) + 1) aggregate_step (0, Tally 0 0 0 0 0 0);
  let avg := if negb (rtt_count a =? 0) then Z.quot (rtt_sum a) (rtt_count a) else -1 in
  last ← (if 0 <? sample_count st then
            x ← rd (samples st) (if 0 <? sample_next st then sample_next st - 1 else sample_count st - 1);
            mret (at_ x)
          else mret 0);
  mret (Aggregated (s_ a) (e_ a) (t_ a) (ie_ a) avg last).

(** ** Usable servers *)

(** [now] is [evNowTime().tv_sec]. *)
Definition _res_stats_usable_server (now : Z) (params : __res_params) : M __res_stats bool :=
  a ← android_net_res_stats_aggregate;
  if negb ((0 <=? successes a) && (0 <=? errors a) && (0 <=? timeouts a)) then mret true else
  let total := successes a + errors a + timeouts a in
  if negb ((min_samples params <=? total) && ((0 <? errors a) || (0 <? timeouts a))) then mret true else
  let success_rate := Z.quot (successes a * 100) total in
  if negb (success_rate <? success_threshold params) then mret true else
  if sample_validity params <? now - last_sample_time a then _res_stats_clear_samples;; mret true
  else mret false.

Definition usable_step (now : Z) (params : __res_params) (nscount : Z) '((ns, usable_servers, found) : Z * list bool * Z)
    : M (list __res_stats) (step (Z * list bool * Z) (list bool * Z)) :=
  if negb (ns <? nscount) then mret (Done (usable_servers, found)) else
  usable ← on_elem ns (_res_stats_usable_server now params);
  '(_, usable_servers) ← on_local usable_servers (wr ns usable);
  mret (Next (ns + 1, usable_servers, if usable : bool then found + 1 else found)).

Definition all_usable_step (nscount : Z) (ns : Z) : M (list bool) (step Z unit) :=
  if negb (ns <? nscount) then mret (Done tt) else wr ns true;; mret (Next (ns + 1)).

(** [usable_servers] is the array of the caller. *)
Definition android_net_res_stats_get_usable_servers (now : Z) (params : __res_params) (nscount : Z) (usable_servers : list bool)
    : M (list __res_stats) (list bool) :=
  '(usable_servers, found) ← loop (Z.to_nat nscount + 1) (usable_step now params nscount) (0, usable_servers, 0);
  if found =? 0 then
    '(_, usable_servers) ← on_local usable_servers (loop (Z.to_nat nscount + 1) (all_usable_step nscount) 0);
    mret usable_servers
  else mret usable_servers.

(** ** Specification

    [ring mx st r]: the buffer keeps the last samples [r], the newest first, at
    most [mx] of them. *)

Definition ring (mx : Z) (st : __res_stats) (r : list __res_sample) : Prop :=
  0 < mx <= MAXNSSAMPLES /\ zlen (samples st) = MAXNSSAMPLES /\ 0 <= sample_next st < mx /\ sample_count st = zlen r /\
  ((zlen r = sample_next st /\ ztake (sample_next st) (samples st) = reverse r) \/
   (zlen r = mx /\ zdrop (sample_next st) (ztake mx (samples st)) ++ ztake (sample_next st) (samples st) = reverse r)).

(** What holds of a buffer whatever values of [mx] it was filled with. *)
Definition stats_fit (st : __res_stats) : Prop :=
  zlen (samples st) = MAXNSSAMPLES /\ 0 <= sample_count st <= MAXNSSAMPLES /\ 0 <= sample_next st < MAXNSSAMPLES.

Definition answered (x : __res_sample) : Prop := rcode x = NOERROR \/ rcode x = NOTAUTH \/ rcode x = NXDOMAIN.
Definition timed_out (x : __res_sample) : Prop := rcode x = RCODE_TIMEOUT.
Definition internal (x : __res_sample) : Prop := rcode x = RCODE_INTERNAL_ERROR.

#[export] Instance answered_dec x : Decision (answered x).
Proof. unfold answered. apply _. Defined.
#[export] Instance timed_out_dec x : Decision (timed_out x).
Proof. unfold timed_out. apply _. Defined.
#[export] Instance internal_dec x : Decision (internal x).
Proof. unfold internal. apply _. Defined.

Definition total_rtt (l : list __res_sample) : Z := foldr Z.add 0 (rtt <$> l).

(** The numbers for the samples [r]. *)
Definition summary (r : list __res_sample) : aggregated :=
  let ok := filter answered r in
  Aggregated (zlen ok) (zlen (filter (fun x => ~ answered x /\ ~ timed_out x /\ ~ internal x) r)) (zlen (filter timed_out r))
    (zlen (filter internal r)) (match ok with [] => -1 | _ => Z.quot (total_rtt ok) (zlen ok) end)
    (match r with [] => 0 | x :: _ => at_ x end).

(** Enough samples, with failures, and too few of them answered. *)
Definition failing (params : __res_params) (r : list __res_sample) : Prop :=
  let a := summary r in
  let total := successes a + errors a + timeouts a in
  min_samples params <= total /\ 0 < errors a + timeouts a /\ successes a * 100 < success_threshold params * total.

(** Failing by samples that are not too old. *)
Definition rejected (now : Z) (params : __res_params) (r : list __res_sample) : Prop :=
  failing params r /\ now - last_sample_time (summary r) <= sample_validity params.

#[export] Instance failing_dec params r : Decision (failing params r).
Proof. unfold failing. apply _. Defined.

#[export] Instance rejected_dec now params r : Decision (rejected now params r).
Proof. unfold rejected. apply _. Defined.

(** The samples of a failing server that are too old are forgotten. *)
Definition kept (now : Z) (params : __res_params) (r : list __res_sample) : list __res_sample :=
  if decide (failing params r /\ ~ rejected now params r) then [] else r.

(** ** The ring buffer *)

Lemma ring_nil mx st : 0 < mx <= MAXNSSAMPLES -> zlen (samples st) = MAXNSSAMPLES -> sample_count st = 0 -> sample_next st = 0 ->
  ring mx st [].
Proof. intros Hm Hl Hc Hn. split_and!; try lia; [done|]. left. by rewrite Hn. Qed.

Lemma ring_length mx st r : ring mx st r -> zlen r <= mx.
Proof. intros (? & ? & ? & ? & [[? _]|[? _]]); lia. Qed.

(** A sample is added, the oldest one drops out of a full buffer. *)
Lemma ring_push mx st r x l' : ring mx st r -> l' = zupd (samples st) (sample_next st) x ->
  let c := if zlen r <? mx then zlen r + 1 else zlen r in
  let n := if mx <=? sample_next st + 1 then 0 else sample_next st + 1 in
  ring mx (Stats l' c n) (ztake mx (x :: r)).
Proof.
  intros (Hm & Hl & Hn & Hc & Hr) -> c n. set (k := sample_next st) in *. set (b := samples st) in *. unfold MAXNSSAMPLES in *.
  assert (Hb : zupd b k x = ztake k b ++ x :: zdrop (k + 1) b) by (rewrite zupd_splice by lia; done).
  assert (Ht : ztake (k + 1) (zupd b k x) = ztake k b ++ [x]) by (rewrite zupd_splice by lia; by apply ztake_splice; [lia|]).
  assert (Hd : zdrop (k + 1) (ztake mx (zupd b k x)) = zdrop (k + 1) (ztake mx b)).
  { apply znth_ext. intros i Hi. rewrite !znth_zdrop by lia. destruct (Z.lt_ge_cases (k + 1 + i) mx).
    - rewrite !znth_ztake by lia. apply znth_zupd_ne. lia.
    - rewrite !znth_None; [done| |]; right; rewrite zlen_ztake; rewrite ?zlen_zupd; lia. }
  assert (Hnn : 0 <= n < mx) by (unfold n; destruct (Z.leb_spec mx (k + 1)); lia).
  destruct Hr as [[Hr Hrev]|[Hr Hrev]].
  - assert (Hx : ztake mx (x :: r) = x :: r) by (apply ztake_ge; rewrite zlen_cons; lia).
    assert (Hc' : c = k + 1) by (unfold c; destruct (Z.ltb_spec (zlen r) mx); lia).
    rewrite Hx. unfold ring, MAXNSSAMPLES. cbn [samples sample_count sample_next]. rewrite zlen_zupd, zlen_cons. split_and!; try lia.
    rewrite reverse_cons, <- Hrev, <- Ht, Hr. unfold n. destruct (Z.leb_spec mx (k + 1)).
    + right. replace mx with (k + 1) by lia. split; [done|]. change (ztake 0 _) with (@nil __res_sample). by rewrite zdrop_0, app_nil_r.
    + left. done.
  - assert (Hc' : c = mx) by (unfold c; rewrite Hr, Z.ltb_irrefl; done).
    destruct (znth_lt (ztake mx b) k) as [y Hy]; [rewrite zlen_ztake; lia|]. rewrite (zdrop_cons _ _ _ Hy) in Hrev. cbn [app] in Hrev.
    set (D := zdrop (k + 1) (ztake mx b)) in *. set (T := ztake k b) in *.
    assert (Hreq : r = reverse (D ++ T) ++ [y]) by (rewrite <- (reverse_involutive r), <- Hrev; by rewrite reverse_cons).
    assert (Hx : ztake mx (x :: r) = x :: reverse (D ++ T)).
    { rewrite Hreq. change (x :: reverse (D ++ T) ++ [y]) with ((x :: reverse (D ++ T)) ++ [y]). apply ztake_app_alt.
      rewrite <- Hr, Hreq, zlen_cons, zlen_app. done. }
    assert (Hlen : zlen (x :: reverse (D ++ T)) = mx) by (rewrite <- Hx; apply zlen_ztake; rewrite zlen_cons; lia).
    rewrite Hx. unfold ring, MAXNSSAMPLES. cbn [samples sample_count sample_next]. rewrite zlen_zupd, Hlen. split_and!; try lia.
    right. split; [done|]. rewrite reverse_cons, reverse_involutive, <- app_assoc, <- Ht. unfold n. destruct (Z.leb_spec mx (k + 1)).
    + assert (HD : D = []) by (unfold D, zdrop; apply drop_ge, Nat2Z.inj_le; change (zlen (ztake mx b) <= Z.of_nat (Z.to_nat (k + 1))); rewrite zlen_ztake; lia). change (ztake 0 _) with (@nil __res_sample).
      rewrite zdrop_0, app_nil_r, HD. by replace mx with (k + 1) by lia.
    + by rewrite Hd.
Qed.

Lemma wp_add_sample mx st r x (Q : unit -> __res_stats -> Prop) E :
  ring mx st r -> (forall st', ring mx st' (ztake mx (x :: r)) -> Q tt st') ->
  wp (_res_cache_add_stats_sample_locked x mx) st Q E.
Proof.
  intros Hr HQ. pose proof (ring_push mx st r x _ Hr eq_refl) as Hp. cbv zeta in Hp. pose proof (ring_length _ _ _ Hr). pose proof (zlen_nonneg r).
  destruct Hr as (Hm & Hl & Hn & Hc & _). destruct st as [l c n]. cbn [samples sample_count sample_next] in *. unfold MAXNSSAMPLES in *.
  unfold _res_cache_add_stats_sample_locked. wp_step. apply wp_getS. wp_step. apply wp_zoom. cbn [samples sample_next].
  apply wp_wr; [lia|]. wp_step.
  apply (wp_conseq _ _ (fun _ s => s = Stats (zupd l n x) (if zlen r <? mx then zlen r + 1 else zlen r) n)).
  - rewrite <- Hc. cbn [sample_count]. destruct (Z.ltb_spec c mx); wp_step; [|done].
    change (Stats (zupd l n x) (u8 (c + 1)) n = Stats (zupd l n x) (c + 1) n). unfold u8. by rewrite Z.mod_small by lia.
  - intros _ s ->. wp_step. apply wp_updS. wp_step. apply wp_getS. cbn [sample_next].
    assert (Hu : u8 (n + 1) = n + 1) by (unfold u8; apply Z.mod_small; lia).
    set (c' := if zlen r <? mx then zlen r + 1 else zlen r) in *.
    change (wp (if mx <=? u8 (n + 1) then updS (fun st => st{{ sample_next := 0 }}) else mret tt)
              (Stats (zupd l n x) c' (u8 (n + 1))) Q E).
    rewrite Hu. destruct (mx <=? n + 1); wp_step; by apply HQ.
Qed.

Lemma ring_fit mx st r : ring mx st r -> stats_fit st.
Proof. intros Hr. pose proof (ring_length _ _ _ Hr). pose proof (zlen_nonneg r). destruct Hr as (? & ? & ? & ? & _). split_and!; lia. Qed.

Lemma wp_add_sample_fit mx st x (Q : unit -> __res_stats -> Prop) E :
  0 < mx <= MAXNSSAMPLES -> stats_fit st -> (forall st', stats_fit st' -> Q tt st') -> wp (_res_cache_add_stats_sample_locked x mx) st Q E.
Proof.
  intros Hm (Hl & Hc & Hn) HQ. destruct st as [l c n]. unfold stats_fit, MAXNSSAMPLES in *. cbn [samples sample_count sample_next] in *.
  assert (Hu : forall k, 0 <= k <= 64 -> u8 (k + 1) = k + 1) by (intros; unfold u8; apply Z.mod_small; lia).
  unfold _res_cache_add_stats_sample_locked. wp_step. apply wp_getS. wp_step. apply wp_zoom, wp_wr; [cbn; lia|]. wp_step.
  apply (wp_conseq _ _ (fun _ s => exists c', s = Stats (zupd l n x) c' n /\ 0 <= c' <= 64)).
  - cbn [sample_count]. destruct (Z.ltb_spec c mx); wp_step; [exists (u8 (c + 1))|exists c]; (split; [done|]); [rewrite Hu|]; lia.
  - intros _ s (c' & -> & Hc'). wp_step. apply wp_updS. wp_step. apply wp_getS.
    change (wp (if mx <=? u8 (n + 1) then updS (fun st => st{{ sample_next := 0 }}) else mret tt) (Stats (zupd l n x) c' (u8 (n + 1))) Q E).
    rewrite Hu by lia. destruct (Z.leb_spec mx (n + 1)); wp_step;
      apply HQ; (split; [exact (eq_trans (zlen_zupd l n x) Hl)|]); [change (0 <= c' <= 64 /\ 0 <= 0 < 64)|change (0 <= c' <= 64 /\ 0 <= n + 1 < 64)]; lia.
Qed.

(** ** Aggregation *)

Definition tally_of (l : list __res_sample) : tally := foldl tally_sample (Tally 0 0 0 0 0 0) l.

Lemma wp_aggregate_loop st l : ztake (sample_count st) (samples st) = l -> 0 <= sample_count st <= zlen (samples st) ->
  forall fuel i, 0 <= i <= sample_count st -> (Z.to_nat (sample_count st - i) < fuel)%nat ->
  forall (Q : tally -> __res_stats -> Prop) E, Q (tally_of l) st ->
  wp (loop fuel aggregate_step (i, tally_of (ztake i l))) st Q E.
Proof.
  intros Hl Hc. induction fuel as [|fuel IH]; intros i Hi Hf Q E HQ; [lia|]. apply wp_loop_S. unfold aggregate_step. wp_step. apply wp_getS.
  destruct (Z.ltb_spec i (sample_count st)); cbn [negb].
  - destruct (znth_lt (samples st) i) as [x Hx]; [lia|]. wp_step. eapply wp_rd; [exact Hx|]. wp_step.
    assert (Hs : ztake (i + 1) l = ztake i l ++ [x]) by (apply ztake_snoc; rewrite <- Hl, znth_ztake; [done|lia]).
    replace (tally_sample (tally_of (ztake i l)) x) with (tally_of (ztake (i + 1) l)).
    + apply IH; [lia|lia|done].
    + unfold tally_of. by rewrite Hs, foldl_app.
  - wp_step. replace i with (sample_count st) by lia. rewrite ztake_ge; [done|]. rewrite <- Hl, zlen_ztake; lia.
Qed.

(** The cases of the [switch] exclude each other. *)
Lemma tally_sample_cases a x :
  answered x /\ ~ timed_out x /\ ~ internal x /\
    tally_sample a x = Tally (s_ a + 1) (e_ a) (t_ a) (ie_ a) (rtt_sum a + rtt x) (rtt_count a + 1) \/
  ~ answered x /\ timed_out x /\ ~ internal x /\ tally_sample a x = Tally (s_ a) (e_ a) (t_ a + 1) (ie_ a) (rtt_sum a) (rtt_count a) \/
  ~ answered x /\ ~ timed_out x /\ internal x /\ tally_sample a x = Tally (s_ a) (e_ a) (t_ a) (ie_ a + 1) (rtt_sum a) (rtt_count a) \/
  ~ answered x /\ ~ timed_out x /\ ~ internal x /\ tally_sample a x = Tally (s_ a) (e_ a + 1) (t_ a) (ie_ a) (rtt_sum a) (rtt_count a).
Proof.
  destruct a, x as [at' rt rc]. unfold answered, timed_out, internal, tally_sample, NOERROR, NOTAUTH, NXDOMAIN, RCODE_TIMEOUT, RCODE_INTERNAL_ERROR.
  cbn [rcode rtt s_ e_ t_ ie_ rtt_sum rtt_count].
  destruct (Z.eqb_spec rc 0), (Z.eqb_spec rc 9), (Z.eqb_spec rc 3), (Z.eqb_spec rc 255), (Z.eqb_spec rc 254); cbn [orb]; try lia;
    (left; split_and!; [lia|lia|lia|done]) || (right; left; split_and!; [lia|lia|lia|done]) ||
    (right; right; left; split_and!; [lia|lia|lia|done]) || (right; right; right; split_and!; [lia|lia|lia|done]).
Qed.

Lemma foldr_add_app (k l : list Z) : foldr Z.add 0 (k ++ l) = foldr Z.add 0 k + foldr Z.add 0 l.
Proof. induction k as [|z k IH]; cbn; [done|]. rewrite IH. lia. Qed.

Lemma total_rtt_perm l k : l ≡ₚ k -> total_rtt l = total_rtt k.
Proof. unfold total_rtt. induction 1; cbn in *; lia. Qed.

(** What the [switch] counts. *)
Lemma tally_filter l :
  let a := tally_of l in let ok := filter answered l in
  s_ a = zlen ok /\ e_ a = zlen (filter (fun x => ~ answered x /\ ~ timed_out x /\ ~ internal x) l) /\
  t_ a = zlen (filter timed_out l) /\ ie_ a = zlen (filter internal l) /\ rtt_sum a = total_rtt ok /\ rtt_count a = zlen ok.
Proof.
  induction l as [|x l IH] using rev_ind; [done|]. cbv zeta in *. unfold tally_of in *. rewrite foldl_app. cbn [foldl].
  set (a := foldl tally_sample _ l) in *. unfold total_rtt in *. rewrite !filter_app, !zlen_app, fmap_app, foldr_add_app, !filter_cons, !filter_nil.
  destruct IH as (IH1 & IH2 & IH3 & IH4 & IH5 & IH6).
  destruct (tally_sample_cases a x) as [(? & ? & ? & ->)|[(? & ? & ? & ->)|[(? & ? & ? & ->)|(? & ? & ? & ->)]]];
    repeat case_decide; try tauto; cbn [s_ e_ t_ ie_ rtt_sum rtt_count fmap list_fmap foldr];
    change (zlen [x]) with 1; change (zlen (@nil __res_sample)) with 0; unfold total_rtt in *;
    rewrite ?IH1, ?IH2, ?IH3, ?IH4, ?IH5, ?IH6; split_and!; lia.
Qed.

Lemma znth_last {A} (u : list A) x : znth (u ++ [x]) (zlen u) = Some x.
Proof. apply znth_middle. Qed.

Lemma ring_perm mx st r : ring mx st r -> ztake (sample_count st) (samples st) ≡ₚ r.
Proof.
  intros (Hm & Hl & Hn & Hc & [[Hr Hrev]|[Hr Hrev]]); rewrite Hc, Hr.
  - rewrite Hrev. apply reverse_Permutation.
  - rewrite <- (ztake_zdrop (sample_next st) (ztake mx (samples st))), ztake_ztake, Permutation_app_comm by lia.
    rewrite Hrev. apply reverse_Permutation.
Qed.

(** The newest sample is the one before [sample_next]. *)
Lemma ring_newest mx st x r : ring mx st (x :: r) ->
  znth (samples st) (if 0 <? sample_next st then sample_next st - 1 else sample_count st - 1) = Some x.
Proof.
  intros (Hm & Hl & Hn & Hc & Hr). pose proof (zlen_nonneg r). rewrite reverse_cons, zlen_cons in *.
  destruct Hr as [[Hr Hrev]|[Hr Hrev]].
  - rewrite (proj2 (Z.ltb_lt _ _)) by lia. rewrite <- (znth_ztake _ (sample_next st)) by lia. rewrite Hrev.
    replace (sample_next st - 1) with (zlen (reverse r)); [apply znth_last|]. unfold zlen in *. rewrite length_reverse. lia.
  - destruct (Z.ltb_spec 0 (sample_next st)).
    + destruct (ztake (sample_next st) (samples st)) as [|z T _] eqn:HT using rev_ind.
      { apply (f_equal zlen) in HT. rewrite zlen_ztake in HT by lia. change (zlen (@nil __res_sample)) with 0 in HT. lia. }
      rewrite app_assoc in Hrev. apply app_inj_tail in Hrev as [_ ->]. rewrite <- (znth_ztake _ (sample_next st)) by lia. rewrite HT.
      apply (f_equal zlen) in HT. rewrite zlen_ztake, zlen_app in HT by lia. change (zlen [x]) with 1 in HT.
      replace (sample_next st - 1) with (zlen T) by lia. apply znth_last.
    + replace (sample_next st) with 0 in Hrev by lia. change (ztake 0 _) with (@nil __res_sample) in Hrev. rewrite zdrop_0, app_nil_r in Hrev.
      rewrite Hc, Hr, <- (znth_ztake _ mx) by lia. rewrite Hrev. replace (mx - 1) with (zlen (reverse r)); [apply znth_last|].
      unfold zlen in *. rewrite length_reverse. lia.
Qed.

Lemma wp_aggregate mx st r (Q : aggregated -> __res_stats -> Prop) E :
  ring mx st r -> Q (summary r) st -> wp android_net_res_stats_aggregate st Q E.
Proof.
  intros Hr HQ. pose proof (ring_perm _ _ _ Hr) as Hp. pose proof (ring_length _ _ _ Hr). pose proof (zlen_nonneg r).
  pose proof Hr as (Hm & Hl & _ & Hc & _). unfold android_net_res_stats_aggregate. wp_step. apply wp_getS. wp_step.
  apply (wp_aggregate_loop st _ eq_refl) with (i := 0); [lia|lia|lia|].
  destruct (tally_filter (ztake (sample_count st) (samples st))) as (H1 & H2 & H3 & H4 & H5 & H6). set (a := tally_of _) in *.
  wp_step. apply (wp_conseq _ _ (fun last s => s = st /\ last = last_sample_time (summary r))).
  - destruct r as [|x r'].
    + rewrite Hc. change (zlen (@nil __res_sample)) with 0. cbn [Z.ltb Z.compare]. by wp_step.
    + rewrite (proj2 (Z.ltb_lt 0 _)) by (rewrite Hc, zlen_cons in *; pose proof (zlen_nonneg r'); lia).
      wp_step. eapply wp_rd; [by eapply ring_newest|]. by wp_step.
  - intros last s [-> ->]. wp_step. assert (Hq : forall P `{!forall x, Decision (P x)}, zlen (filter P (ztake (sample_count st) (samples st))) = zlen (filter P r)).
    { intros P ?. unfold zlen. by rewrite Hp. }
    assert (Hsum : total_rtt (filter answered (ztake (sample_count st) (samples st))) = total_rtt (filter answered r)).
    { apply total_rtt_perm. by rewrite Hp. }
    rewrite H1, H2, H3, H4, H5, H6, Hsum, !Hq. unfold summary in *. cbv zeta in *. cbn [last_sample_time].
    destruct (filter answered r) as [|y ok] eqn:Hok; [exact HQ|]. rewrite (proj2 (Z.eqb_neq _ 0)); [exact HQ|].
    rewrite zlen_cons. pose proof (zlen_nonneg ok). lia.
Qed.

(** ** Usable servers *)

Lemma wp_usable_server now params mx st r (Q : bool -> __res_stats -> Prop) E :
  ring mx st r -> (forall b st', (b = false <-> rejected now params r) -> ring mx st' (kept now params r) -> Q b st') ->
  wp (_res_stats_usable_server now params) st Q E.
Proof.
  intros Hr HQ. unfold _res_stats_usable_server. wp_step. eapply wp_aggregate; [exact Hr|].
  pose proof (zlen_nonneg (filter answered r)) as H1. pose proof (zlen_nonneg (filter timed_out r)) as H2.
  pose proof (zlen_nonneg (filter (fun x => ~ answered x /\ ~ timed_out x /\ ~ internal x) r)) as H3.
  set (a := summary r). assert (Hs : 0 <= successes a) by done. assert (He : 0 <= errors a) by done. assert (Ht : 0 <= timeouts a) by done.
  assert (Hb : (0 <=? successes a) && (0 <=? errors a) && (0 <=? timeouts a) = true) by lia. rewrite Hb. cbn [negb].
  set (total := successes a + errors a + timeouts a).
  assert (Hkeep : ~ failing params r -> forall b, b = true -> Q b st).
  { intros Hf b ->. apply HQ; [split; [done|]; by intros [? _]|]. unfold kept. by rewrite decide_False by tauto. }
  destruct ((min_samples params <=? total) && ((0 <? errors a) || (0 <? timeouts a))) eqn:Hen; cbn [negb].
  2: { wp_step. apply Hkeep; [|done]. intros (? & ? & _). fold a in H, H0. lia. }
  assert (Htot : 0 < total) by lia. rewrite Z.quot_div_nonneg by lia.
  assert (Hfail : failing params r <-> successes a * 100 / total < success_threshold params).
  { unfold failing. cbv zeta. fold a total. split.
    - intros (_ & _ & Hlt). apply Z.div_lt_upper_bound; lia.
    - intros Hlt. split_and!; [lia|lia|]. pose proof (Z.mod_pos_bound (successes a * 100) total Htot).
      pose proof (Z.div_mod (successes a * 100) total ltac:(lia)). nia. }
  destruct (Z.ltb_spec (successes a * 100 / total) (success_threshold params)); cbn [negb].
  2: { wp_step. apply Hkeep; [|done]. rewrite Hfail. lia. }
  assert (Hf : failing params r) by (by apply Hfail).
  destruct (Z.ltb_spec (sample_validity params) (now - last_sample_time a)) as [Hold|Hold].
  - assert (Hno : ~ rejected now params r) by (intros [_ ?]; fold a in H0; lia).
    wp_step. apply wp_updS. wp_step. destruct st as [l c n]. apply HQ; [done|]. unfold kept. rewrite decide_True by done.
    destruct Hr as (? & ? & _). by apply ring_nil.
  - assert (Hrej : rejected now params r) by (by split). wp_step. apply HQ; [done|]. unfold kept. by rewrite decide_False by tauto.
Qed.

Section usable.
Context (now : Z) (params : __res_params) (mx : Z) (rs : list (list __res_sample)) (us0 : list bool) (nscount : Z).
Hypothesis (Hn : 0 <= nscount <= zlen rs) (Hus : nscount <= zlen us0).

(** The servers before [ns] are judged. *)
Definition judged (ns : Z) (us : list bool) (found : Z) (l : list __res_stats) : Prop :=
  0 <= ns <= nscount /\ zlen us = zlen us0 /\ 0 <= found /\
  (forall i r, 0 <= i < ns -> znth rs i = Some r -> znth us i = Some (bool_decide (~ rejected now params r))) /\
  (found = 0 <-> forall i r, 0 <= i < ns -> znth rs i = Some r -> rejected now params r) /\
  zlen l = zlen rs /\
  (forall i st r, znth l i = Some st -> znth rs i = Some r -> ring mx st (if i <? ns then kept now params r else r)).

Lemma judged_0 l : zlen l = zlen rs -> (forall i st r, znth l i = Some st -> znth rs i = Some r -> ring mx st r) -> judged 0 us0 0 l.
Proof.
  intros Hl Hring. unfold judged. split; [lia|]. split; [done|]. split; [lia|]. split; [intros; lia|].
  split; [split; [intros _ i r Hi; lia|done]|]. split; [done|]. intros i st r Hi Hr. pose proof (znth_Some _ _ _ Hi).
  rewrite (proj2 (Z.ltb_ge _ _)) by lia. by eapply Hring.
Qed.

Lemma wp_usable_step ns us found l (Q : _ -> list __res_stats -> Prop) E :
  judged ns us found l ->
  (ns < nscount -> forall us' found' l', judged (ns + 1) us' found' l' -> Q (Next (ns + 1, us', found')) l') ->
  (ns = nscount -> Q (Done (us, found)) l) ->
  wp (usable_step now params nscount (ns, us, found)) l Q E.
Proof.
  intros (Hns & Hlu & Hf & Hdone & Hcnt & Hl & Hst) HN HD. unfold usable_step.
  destruct (Z.ltb_spec ns nscount); cbn [negb]; [|wp_step; apply HD; lia].
  destruct (znth_lt l ns) as [st Hs]; [lia|]. destruct (znth_lt rs ns) as [r Hr]; [lia|].
  pose proof (Hst ns st r Hs Hr) as Hring. rewrite Z.ltb_irrefl in Hring.
  wp_step. eapply wp_on_elem; [exact Hs|]. eapply wp_usable_server; [exact Hring|]. intros b st' Hb Hk.
  wp_step. apply wp_on_local. apply wp_wr; [lia|]. wp_step. apply HN; [done|].
  assert (Hbd : b = bool_decide (~ rejected now params r)).
  { destruct b; symmetry; [apply bool_decide_eq_true_2|apply bool_decide_eq_false_2]; intuition congruence. }
  split_and!; try (rewrite ?zlen_zupd; lia).
  - destruct b; lia.
  - intros i r' Hi Hr'. destruct (decide (i = ns)) as [->|].
    + rewrite znth_zupd_eq by lia. assert (r' = r) as -> by congruence. by rewrite Hbd.
    + rewrite znth_zupd_ne by done. apply Hdone; [lia|done].
  - split.
    + intros H0 i r' Hi Hr'. destruct (decide (i = ns)) as [->|]; [|apply (proj1 Hcnt) with i; [destruct b; lia|lia|done]].
      assert (r' = r) as -> by congruence. apply Hb. destruct b; [lia|done].
    + intros Hall. assert (b = false) as -> by (apply Hb, (Hall ns r); [lia|done]). apply Hcnt. intros i r' Hi. apply Hall. lia.
  - intros i st1 r' Hi Hr'. destruct (decide (i = ns)) as [->|].
    + rewrite znth_zupd_eq in Hi by lia. apply (inj Some) in Hi as <-. assert (r' = r) as -> by congruence. rewrite (proj2 (Z.ltb_lt _ _)) by lia. done.
    + rewrite znth_zupd_ne in Hi by done. specialize (Hst i st1 r' Hi Hr').
      by replace (i <? ns + 1) with (i <? ns) by (destruct (Z.ltb_spec i ns), (Z.ltb_spec i (ns + 1)); lia).
Qed.

Lemma wp_all_usable : forall fuel ns us (Q : unit -> list bool -> Prop) E,
  0 <= ns <= nscount -> zlen us = zlen us0 -> (forall i, 0 <= i < ns -> znth us i = Some true) ->
  (Z.to_nat (nscount - ns) < fuel)%nat ->
  (forall us', zlen us' = zlen us0 -> (forall i, 0 <= i < nscount -> znth us' i = Some true) -> Q tt us') ->
  wp (loop fuel (all_usable_step nscount) ns) us Q E.
Proof.
  induction fuel as [|fuel IH]; intros ns us Q E Hns Hl Hdone Hf HQ; [lia|]. apply wp_loop_S. unfold all_usable_step.
  destruct (Z.ltb_spec ns nscount); cbn [negb].
  - wp_step. apply wp_wr; [lia|]. wp_step. apply IH; [lia|by rewrite zlen_zupd| |lia|done].
    intros i Hi. destruct (decide (i = ns)) as [->|]; [by rewrite znth_zupd_eq by lia|]. rewrite znth_zupd_ne by done. apply Hdone. lia.
  - wp_step. apply HQ; [done|]. intros i Hi. apply Hdone. lia.
Qed.
End usable.

(** ** Theorems *)

(** C28: Recording a sample and aggregating gives the counts, the average
    round-trip time and the time of the last sample for the last [mx] samples,
    the new one first: the ring buffer forgets the oldest sample when it is full
    and stays a ring buffer; nothing is written out of bounds as long as [mx]
    is at most MAXNSSAMPLES. *)
Theorem add_sample_aggregate mx st r x :
  ring mx st r ->
  wp (_res_cache_add_stats_sample_locked x mx;; android_net_res_stats_aggregate) st
     (fun a st' => a = summary (ztake mx (x :: r)) /\ last_sample_time a = at_ x /\ ring mx st' (ztake mx (x :: r)))
     (fun _ _ => False).
Proof.
  intros Hr. wp_step. eapply wp_add_sample; [exact Hr|]. intros st' Hr'. eapply wp_aggregate; [exact Hr'|].
  split_and!; [done| |done]. destruct Hr as (Hm & _). unfold summary. cbn [last_sample_time]. unfold ztake.
  destruct (Z.to_nat mx) eqn:Hz; [lia|done].
Qed.

Definition full_ring : __res_stats :=
  Stats ([Sample 12 70 0; Sample 10 50 0; Sample 11 60 255] ++ replicate 61 (Sample 0 0 0)) 3 1.

Lemma add_sample_aggregate_witness :
  ring 3 full_ring [Sample 12 70 0; Sample 11 60 255; Sample 10 50 0] /\
  wp (_res_cache_add_stats_sample_locked (Sample 13 20 2) 3;; android_net_res_stats_aggregate) full_ring
     (fun a st' => a = summary (ztake 3 [Sample 13 20 2; Sample 12 70 0; Sample 11 60 255; Sample 10 50 0]) /\
        last_sample_time a = 13 /\ ring 3 st' (ztake 3 [Sample 13 20 2; Sample 12 70 0; Sample 11 60 255; Sample 10 50 0]))
     (fun _ _ => False).
Proof.
  assert (Hr : ring 3 full_ring [Sample 12 70 0; Sample 11 60 255; Sample 10 50 0]).
  { split_and!; try done. right. by vm_compute. }
  split; [exact Hr|]. exact (add_sample_aggregate 3 full_ring _ (Sample 13 20 2) Hr).
Defined.

(** C27: A server is reported as not usable exactly if its samples are enough,
    have failures, have fewer answers than the threshold and are not too old,
    unless that holds of every server: then all of them are reported as usable.
    So a server is always left. The samples of a failing server that are too
    old are forgotten, the others are kept. *)
Theorem get_usable_servers_correct now params mx l rs us0 nscount :
  0 <= nscount <= zlen rs -> nscount <= zlen us0 -> zlen l = zlen rs ->
  (forall i st r, znth l i = Some st -> znth rs i = Some r -> ring mx st r) ->
  wp (android_net_res_stats_get_usable_servers now params nscount us0) l
     (fun us l' =>
        zlen us = zlen us0 /\
        (forall i r, 0 <= i < nscount -> znth rs i = Some r ->
           (znth us i = Some false <-> rejected now params r /\ ~ (forall j r', 0 <= j < nscount -> znth rs j = Some r' -> rejected now params r'))) /\
        (0 < nscount -> exists i, 0 <= i < nscount /\ znth us i = Some true) /\
        (forall i st r, znth l' i = Some st -> znth rs i = Some r -> ring mx st (if i <? nscount then kept now params r else r)))
     (fun _ _ => False).
Proof.
  intros Hn Hus Hl Hring. unfold android_net_res_stats_get_usable_servers. wp_step.
  apply (wp_loop (fun '(ns, us, found) l => judged now params mx rs us0 nscount ns us found l) (fun '(ns, _, _) _ => Z.to_nat (nscount - ns))).
  { by apply judged_0. }
  { lia. }
  intros [[ns us] found] l1 HJ. eapply wp_usable_step; [exact Hn|exact Hus|exact HJ|intros Hlt us' f' l' HJ'; split; [exact HJ'|lia]|].
  intros ->. destruct HJ as (_ & Hlu & _ & Hdone & Hcnt & _ & Hst). destruct (Z.eqb_spec found 0) as [H0|H0].
  - assert (Hall := proj1 Hcnt H0). wp_step. apply wp_on_local.
    apply (wp_all_usable us0 nscount Hus _ 0 us); [lia|done|lia|lia|]. intros us' Hlu' Ht. wp_step. split_and!; [done| | |done].
    + intros i r Hi Hr. rewrite Ht by done. split; [done|]. by intros [_ []].
    + intros Hpos. exists 0. split; [lia|]. apply Ht. lia.
  - wp_step. split_and!; [done| | |done].
    + intros i r Hi Hr. rewrite (Hdone i r Hi Hr). rewrite <- Hcnt. split; [|intros [? _]; by rewrite bool_decide_eq_false_2 by tauto].
      intros [= Hd]. apply bool_decide_eq_false_1, dec_stable in Hd. by split.
    + intros Hpos. destruct (decide (Forall (rejected now params) (ztake nscount rs))) as [Hall|Hno].
      * destruct H0. apply Hcnt. intros i r Hi Hr. rewrite Forall_forall in Hall. apply Hall, (list_elem_of_lookup_2 _ (Z.to_nat i)).
        rewrite <- (znth_ztake i nscount) in Hr by lia. unfold znth in Hr. by rewrite (proj2 (Z.ltb_ge i 0)) in Hr by lia.
      * apply not_Forall_Exists in Hno; [|apply _]. apply Exists_exists in Hno as (r & Hin & Hrej).
        apply list_elem_of_lookup in Hin as [k Hk]. assert (Hk' : znth (ztake nscount rs) (Z.of_nat k) = Some r).
        { unfold znth. rewrite (proj2 (Z.ltb_ge _ 0)) by lia. by rewrite Nat2Z.id. }
        pose proof (znth_Some _ _ _ Hk') as Hb. rewrite zlen_ztake in Hb by lia. rewrite znth_ztake in Hk' by lia.
        exists (Z.of_nat k). split; [lia|]. rewrite (Hdone _ r); [|lia|done]. by rewrite bool_decide_eq_true_2.
Qed.

Lemma get_usable_servers_correct_witness :
  let params := Params 1800 75 2 3 0 in
  let r1 := [Sample 12 70 2; Sample 11 60 255; Sample 10 50 0] in
  wp (android_net_res_stats_get_usable_servers 100 params 2 [false; false])
     [Stats ([Sample 12 70 2; Sample 10 50 0; Sample 11 60 255] ++ replicate 61 (Sample 0 0 0)) 3 1; full_ring]
     (fun us l' =>
        zlen us = zlen [false; false] /\
        (forall i r, 0 <= i < 2 -> znth [r1; [Sample 12 70 0; Sample 11 60 255; Sample 10 50 0]] i = Some r ->
           (znth us i = Some false <-> rejected 100 params r /\ ~ (forall j r', 0 <= j < 2 ->
              znth [r1; [Sample 12 70 0; Sample 11 60 255; Sample 10 50 0]] j = Some r' -> rejected 100 params r'))) /\
        (0 < 2 -> exists i, 0 <= i < 2 /\ znth us i = Some true) /\
        (forall i st r, znth l' i = Some st -> znth [r1; [Sample 12 70 0; Sample 11 60 255; Sample 10 50 0]] i = Some r ->
           ring 3 st (if i <? 2 then kept 100 params r else r)))
     (fun _ _ => False).
Proof.
  intros params r1.
  apply (get_usable_servers_correct 100 params 3
           [Stats ([Sample 12 70 2; Sample 10 50 0; Sample 11 60 255] ++ replicate 61 (Sample 0 0 0)) 3 1; full_ring]
           [r1; [Sample 12 70 0; Sample 11 60 255; Sample 10 50 0]] [false; false] 2); [done|done|done|].
  intros i st r Hi Hr. pose proof (znth_Some _ _ _ Hi) as Hb. change (zlen _) with 2 in Hb.
  assert (i = 0 \/ i = 1) as [-> | ->] by lia; cbv in Hi, Hr; apply (inj Some) in Hi as <-; apply (inj Some) in Hr as <-.
  - split_and!; try done. right. by vm_compute.
  - split_and!; try done. right. by vm_compute.
Defined.

(** [max_samples] is a [uint8_t] that nothing compares with MAXNSSAMPLES: with
    255 the 65th sample is written behind the array. *)
Lemma sample_65_out_of_bounds :
  let add st := snd (_res_cache_add_stats_sample_locked (Sample 1 2 0) 255 st) in
  fst (_res_cache_add_stats_sample_locked (Sample 1 2 0) 255 (Nat.iter 64 add (Stats (replicate 64 (Sample 0 0 0)) 0 0))) = Undef.
Proof. by vm_compute. Qed.
