(* ===== verification/ResNet.v ===== *)
(** * The caches of all networks: [dns/resolv/res_cache.c], the interface

    One cache for each network, in a list behind one mutex: looking up and
    adding an answer, the requests that other threads wait for, flushing and
    deleting. The state is the list, the mutex and the reading of the clock; a
    pointer to a [resolv_cache_info] is its position in the list. The clock,
    [calloc], [getenv] and the wait on a condition are a class. *)
From S2P Require Import Prelude CString NsName NsWire NsParse NsRecords ResPacket ResTtl ResCache ResCacheRep ResCacheOps ResStats.
From coqutil Require Import Datatypes.RecordSetters.
Import DoubleBraceUpdate.

(** ** State *)

(** An address [getaddrinfo] has found: the address, and whether there is another one. *)
Record addrinfo : Type := Addrinfo { ai_addrlen : Z; ai_addr : option (list Z); ai_next : bool }.

Record resolv_cache_info : Type := Info {
  netid : Z; cache : option Cache; nscount : Z; nameservers : list (option (list Z)); nsaddrinfo : list (option addrinfo);
  revision_id : Z; params : __res_params; nsstats : list __res_stats; defdname : list Z; dnsrch_offset : list Z }.

Record resolver : Type := Resolver {
  _res_cache_list : list resolv_cache_info; _res_cache_list_lock : bool; _res_cache_once : bool; ticks : nat }.

Definition MAXDNSRCH : Z := 6.
Definition MAXDNSRCHPATH : Z := 256.
Definition PENDING_REQUEST_TIMEOUT : Z := 20.
Definition sizeof_sockaddr : Z := 16.
Definition sizeof_sockaddr_storage : Z := 128.

Inductive ResolvCacheStatus : Type :=
  | RESOLV_CACHE_UNSUPPORTED
  | RESOLV_CACHE_NOTFOUND
  | RESOLV_CACHE_FOUND.

(** The system: the readings of [gettimeofday], whether [calloc] finds memory,
    the address of a new entry, the value of ANDROID_DNS_MODE, the contents of
    the local variables of [answer_getTTL], what other threads do while the
    caller waits on a condition, and the address [getaddrinfo] finds for a
    numeric name of a server, if it is one ([dns/net/getaddrinfo.c]). *)
Class System : Type := {
  clock : nat -> Z;
  memory : resolver -> bool;
  new_address : gmap Z Entry -> Z;
  dns_mode : option (list Z);
  tmp0 : list Z; local_handle : ns_msg; local_rr : ns_rr;
  cond_timedwait : Z -> M resolver unit;
  getaddrinfo : list Z -> option addrinfo }.

(** ** The mutex and the list *)

Definition on_list {A} (m : M (list resolv_cache_info) A) : M resolver A :=
  zoom _res_cache_list (fun l s => s{{ _res_cache_list := l }}) m.

(** A thread that locks the mutex it holds never goes on. *)
Definition pthread_mutex_lock : M resolver unit :=
  s ← getS; require (negb (_res_cache_list_lock s));; updS (fun s => s{{ _res_cache_list_lock := true }}).

Definition pthread_mutex_unlock : M resolver unit := updS (fun s => s{{ _res_cache_list_lock := false }}).

Definition _res_cache_init : M resolver unit := updS (fun s => s{{ _res_cache_list := []; _res_cache_list_lock := false }}).

(** [pthread_once(&_res_cache_once, _res_cache_init)] *)
Definition once_init : M resolver unit :=
  s ← getS;
  if _res_cache_once s then mret tt else _res_cache_init;; updS (fun s => s{{ _res_cache_once := true }}).

Fixpoint find_info (id : Z) (l : list resolv_cache_info) : option Z :=
  match l with
  | [] => None
  | cache_info :: next => if netid cache_info =? id then Some 0 else (fun i => i + 1) <$> find_info id next
  end.

Definition _find_cache_info_locked (id : Z) : M resolver (option Z) :=
  s ← getS; mret (find_info id (_res_cache_list s)).

Definition on_info {A} (i : Z) (m : M resolv_cache_info A) : M resolver A := on_list (on_elem i m).

(** The cache at [info->cache]. *)
Definition info_cache {A} (m : M Cache A) : M resolv_cache_info A :=
  info ← getS;
  match cache info with
  | Some c => zoom (fun _ => c) (fun c info => info{{ cache := Some c }}) m
  | None => undef
  end.

Definition on_cache {A} (i : Z) (m : M Cache A) : M resolver A := on_info i (info_cache m).

(** The result stands for [info->cache]. *)
Definition _find_named_cache_locked (id : Z) : M resolver (option Z) :=
  info ← _find_cache_info_locked id;
  match info with
  | None => mret None
  | Some i => info ← on_info i getS; mret (match cache info with Some _ => Some i | None => None end)
  end.

Definition _insert_cache_info_locked (cache_info : resolv_cache_info) : M resolver unit :=
  on_list (updS (fun l => l ++ [cache_info])).

(** ** Pending requests *)

(** The list of the hashes that are asked for; a request that is not found is appended. *)
Definition _cache_notify_waiting_tid_locked (key : Entry) : M Cache unit :=
  updS (fun c => c{{ pending_requests :=
    match list_find (eq (hash key)) (pending_requests c) with
    | Some (k, _) => delete k (pending_requests c)
    | None => pending_requests c
    end }}).

Section system.
Context `{System}.

Definition _time_now : M resolver Z :=
  s ← getS; setS (s{{ ticks := Datatypes.S (ticks s) }});; mret (clock (ticks s)).

(** Whether the request is pending, and the cache afterwards. *)
Definition _cache_check_pending_request_locked (i : Z) (key : Entry) (id : Z) : M resolver (bool * option Z) :=
  c ← on_cache i getS;
  if decide (hash key ∈ pending_requests c) then
    now ← _time_now;
    cond_timedwait (now + PENDING_REQUEST_TIMEOUT);;
    i ← _find_named_cache_locked id;
    mret (true, i)
  else
    s ← getS;
    (if memory s then on_cache i (updS (fun c => c{{ pending_requests := pending_requests c ++ [hash key] }})) else mret tt);;
    mret (false, Some i).

(** ** Creation *)

Definition no_stats : __res_stats := Stats (replicate (Z.to_nat MAXNSSAMPLES) (Sample 0 0 0)) 0 0.

Definition _create_cache_info : M resolver (option resolv_cache_info) :=
  s ← getS;
  mret (if memory s then Some (Info 0 None 0 (replicate 4 None) (replicate 4 None) 0 (Params 0 0 0 0 0) (replicate 4 no_stats)
                                 (replicate 256 0) (replicate 7 0)) else None).

(** The cache of the network, new if there is none: [None] if there is no memory for it. *)
Definition _get_res_cache_for_net_locked (id : Z) : M resolver (option Z) :=
  named ← _find_named_cache_locked id;
  match named with
  | Some i => mret (Some i)
  | None =>
      cache_info ← _create_cache_info;
      match cache_info with
      | None => mret None
      | Some cache_info =>
          s ← getS;
          if memory s then
            _insert_cache_info_locked (cache_info{{ cache := Some (_resolv_cache_create dns_mode); netid := id }});;
            mret (Some (zlen (_res_cache_list s)))
          else mret None
      end
  end.

(** ** Looking up *)

(** The entry [e] at the slot [lookup] is used: the part of [_resolv_cache_lookup] behind the two look-ups. The contents of
    [answer] and of [*answerlen] are arguments and results. *)
Definition serve_locked (i : Z) (lookup : slot) (e : Z) (buf : list Z) (answersize len : Z) : M resolver (ResolvCacheStatus * list Z * Z) :=
  now ← _time_now;
  x ← on_cache i (deref e);
  if expires x <=? now then on_cache i (_cache_remove_p lookup);; mret (RESOLV_CACHE_NOTFOUND, buf, len) else
  let len := answerlen x in
  if answersize <? answerlen x then mret (RESOLV_CACHE_UNSUPPORTED, buf, len) else
  '(_, buf) ← on_local buf (memcpy (answer x) 0 0 (answerlen x));
  l ← on_cache i (deref mru_list);
  (if decide (mru_next l = Some e) then mret tt else on_cache i (entry_mru_remove e;; entry_mru_add e mru_list));;
  mret (RESOLV_CACHE_FOUND, buf, len).

Definition lookup_locked (id : Z) (key : Entry) (buf : list Z) (answersize len : Z) : M resolver (ResolvCacheStatus * list Z * Z) :=
  named ← _find_named_cache_locked id;
  match named with
  | None => mret (RESOLV_CACHE_UNSUPPORTED, buf, len)
  | Some i =>
      lookup ← on_cache i (_cache_lookup_p key);
      e ← on_cache i (get_slot lookup);
      found ←
        match e with
        | Some e => mret (Some (i, lookup, e))
        | None =>
            '(exist_, named) ← _cache_check_pending_request_locked i key id;
            match exist_, named with
            | true, Some i =>
                lookup ← on_cache i (_cache_lookup_p key);
                e ← on_cache i (get_slot lookup);
                mret (match e with Some e => Some (i, lookup, e) | None => None end)
            | _, _ => mret None
            end
        end;
      match found with
      | None => mret (RESOLV_CACHE_NOTFOUND, buf, len)
      | Some (i, lookup, e) =>
          serve_locked i lookup e buf answersize len
      end
  end.

Definition _resolv_cache_lookup (id : Z) (query : list Z) (querylen : Z) (buf : list Z) (answersize len : Z)
    : M resolver (ResolvCacheStatus * list Z * Z) :=
  '(key, ok) ← entry_init_key query querylen;
  if negb ok : bool then mret (RESOLV_CACHE_UNSUPPORTED, buf, len) else
  once_init;;
  pthread_mutex_lock;;
  result ← lookup_locked id key buf answersize len;
  pthread_mutex_unlock;;
  mret result.

(** ** Adding *)

(** The slot for the new entry after there is room; [None] if the key is found. *)
Definition make_room (i : Z) (key : Entry) (lookup : slot) : M resolver (option slot) :=
  c ← on_cache i getS;
  if max_entries c <=? num_entries c then
    now ← _time_now;
    on_cache i (_cache_remove_expired now);;
    c ← on_cache i getS;
    (if max_entries c <=? num_entries c then on_cache i _cache_remove_oldest else mret tt);;
    lookup ← on_cache i (_cache_lookup_p key);
    e ← on_cache i (get_slot lookup);
    mret (match e with Some _ => None | None => Some lookup end)
  else mret (Some lookup).

(** [calloc]: the new entry is put at an address. *)
Definition new_entry (e : Entry) : M Cache Z :=
  c ← getS;
  let p := new_address (heap c) in
  updS (fun c => c{{ heap := <[p := e]> (heap c) }});;
  mret p.

Definition add_locked (i : Z) (key : Entry) (a : list Z) (alen : Z) : M resolver unit :=
  lookup ← on_cache i (_cache_lookup_p key);
  e ← on_cache i (get_slot lookup);
  match e with
  | Some _ => mret tt
  | None =>
      room ← make_room i key lookup;
      match room with
      | None => mret tt
      | Some lookup =>
          ttl ← answer_getTTL tmp0 local_handle local_rr a alen;
          if negb (0 <? ttl) then mret tt else
          s ← getS;
          if negb (memory s) then mret tt else
          e ← entry_alloc key a alen;
          now ← _time_now;
          let e := e{{ expires := s64 (u64 (ttl + u64 now)) }} in
          on_cache i (p ← new_entry e; _cache_add_p lookup p)
      end
  end.

Definition _resolv_cache_add (id : Z) (query : list Z) (querylen : Z) (a : list Z) (alen : Z) : M resolver unit :=
  '(key, ok) ← entry_init_key query querylen;
  if negb ok : bool then mret tt else
  pthread_mutex_lock;;
  named ← _find_named_cache_locked id;
  match named with
  | None => mret tt
  | Some i => add_locked i key a alen;; on_cache i (_cache_notify_waiting_tid_locked key)
  end;;
  pthread_mutex_unlock.
End system.

Definition _resolv_cache_query_failed (id : Z) (query : list Z) (querylen : Z) : M resolver unit :=
  '(key, ok) ← entry_init_key query querylen;
  if negb ok : bool then mret tt else
  pthread_mutex_lock;;
  named ← _find_named_cache_locked id;
  match named with
  | None => mret tt
  | Some i => on_cache i (_cache_notify_waiting_tid_locked key)
  end;;
  pthread_mutex_unlock.

(** ** Flushing and deleting *)

(** The loop clears the statistics of the first server, MAXNS times. *)
Definition clear_stats_step (i : Z) : M resolv_cache_info (step Z unit) :=
  if negb (i <? MAXNS) then mret (Done tt) else
  zoom nsstats (fun l info => info{{ nsstats := l }})
    (on_elem 0 (updS (fun st => st{{ sample_next := 0 }}{{ sample_count := 0 }})));;
  mret (Next (i + 1)).

Definition _res_cache_clear_stats_locked : M resolv_cache_info unit := loop (Z.to_nat MAXNS + 1) clear_stats_step 0.

(** The null check of [_res_cache_clear_stats_locked] is here. *)
Definition _flush_cache_for_net_locked (id : Z) : M resolver unit :=
  named ← _find_named_cache_locked id;
  match named with Some i => on_cache i _cache_flush_locked | None => mret tt end;;
  info ← _find_cache_info_locked id;
  match info with Some i => on_info i _res_cache_clear_stats_locked | None => mret tt end.

Definition _resolv_flush_cache_for_net (id : Z) : M resolver unit :=
  once_init;; pthread_mutex_lock;; _flush_cache_for_net_locked id;; pthread_mutex_unlock.

(** The name server and the address of the server [i] are freed. *)
Definition free_nameservers_step (i : Z) : M resolv_cache_info (step Z unit) :=
  info ← getS;
  if negb (i <? nscount info) then mret (Done tt) else
  zoom nameservers (fun l info => info{{ nameservers := l }}) (wr i None);;
  zoom nsaddrinfo (fun l info => info{{ nsaddrinfo := l }}) (wr i None);;
  zoom nsstats (fun l info => info{{ nsstats := l }})
    (on_elem i (updS (fun st => st{{ sample_next := 0 }}{{ sample_count := 0 }})));;
  mret (Next (i + 1)).

(** [revision_id] is an [int]. *)
Definition bump_revision : M resolv_cache_info unit :=
  info ← getS; require (revision_id info + 1 <? 2 ^ 31);; updS (fun info => info{{ revision_id := revision_id info + 1 }}).

Definition _free_nameservers_locked : M resolv_cache_info unit :=
  info ← getS;
  loop (Z.to_nat (nscount info) + 1) free_nameservers_step 0;;
  updS (fun info => info{{ nscount := 0 }});;
  _res_cache_clear_stats_locked;;
  bump_revision.

Definition _resolv_delete_cache_for_net (id : Z) : M resolver unit :=
  once_init;;
  pthread_mutex_lock;;
  info ← _find_cache_info_locked id;
  match info with
  | None => mret tt
  | Some i =>
      cache_info ← on_info i getS;
      on_list (updS (fun l => delete (Z.to_nat i) l));;
      on_local cache_info (info_cache _cache_flush_locked;; _free_nameservers_locked);;
      mret tt
  end;;
  pthread_mutex_unlock.
