(* ===== verification/ResServers.v ===== *)
(** * Name servers and search domains of a network: [dns/resolv/res_cache.c], end

    Setting the name servers, their search domains and the parameters of a
    network, and reading them and the statistics back. The addresses are found
    by [getaddrinfo], an operation of [System]. *)
From S2P Require Import Prelude CString ResCache ResStats ResNet.
From coqutil Require Import Datatypes.RecordSetters.
Import DoubleBraceUpdate.

Definition E2BIG : Z := 7.
Definition EFAULT : Z := 14.
Definition ENOTUNIQ : Z := 76.

(** ** Fields *)

Definition on_defdname {A} (m : M (list Z) A) : M resolv_cache_info A :=
  zoom defdname (fun l info => info{{ defdname := l }}) m.

Definition on_offsets {A} (m : M (list Z) A) : M resolv_cache_info A :=
  zoom dnsrch_offset (fun l info => info{{ dnsrch_offset := l }}) m.

(** ** Comparing *)

(** [strcmp(cache_info->nameservers[i], servers[j])]; a null pointer is undefined. *)
Definition same_server (info : resolv_cache_info) (servers : list (list Z)) (i j : Z) : M resolv_cache_info bool :=
  a ← rd (nameservers info) i;
  b ← rd servers j;
  match a with
  | Some a => r ← strcmp a b; mret (r =? 0)
  | None => undef
  end.

Definition among_step (servers : list (list Z)) (numservers i j : Z) : M resolv_cache_info (step Z bool) :=
  if numservers <=? j then mret (Done false) else
  info ← getS;
  same ← same_server info servers i j;
  if same : bool then mret (Done true) else mret (Next (j + 1)).

Definition equal_step (servers : list (list Z)) (numservers i : Z) : M resolv_cache_info (step Z bool) :=
  if negb (i <? numservers) then mret (Done true) else
  found ← loop (Z.to_nat numservers + 1) (among_step servers numservers i) 0;
  if found : bool then mret (Next (i + 1)) else mret (Done false).

Definition _resolv_is_nameservers_equal_locked (servers : list (list Z)) (numservers : Z) : M resolv_cache_info bool :=
  info ← getS;
  if negb (nscount info =? numservers) then mret false else
  loop (Z.to_nat numservers + 1) (equal_step servers numservers) 0.

(** ** Search domains *)

Definition blank (c : Z) : bool := (c =? 32) || (c =? 9).

(** [while ( *cp == ' ' || *cp == '\t') cp++;] *)
Definition skip_step (cp : Z) : M (list Z) (step Z Z) :=
  c ← rdS cp;
  if blank c then mret (Next (cp + 1)) else mret (Done cp).

(** [while ( *cp) { if ( *cp == ' ' || *cp == '\t') { *cp++ = '\0'; break; } cp++; }] *)
Definition terminate_step (cp : Z) : M (list Z) (step Z Z) :=
  c ← rdS cp;
  if c =? 0 then mret (Done cp)
  else if blank c then wr cp 0;; mret (Done (cp + 1))
  else mret (Next (cp + 1)).

Definition domain_step '((cp, offset) : Z * Z) : M resolv_cache_info (step (Z * Z) Z) :=
  if negb (offset <? MAXDNSRCH) then mret (Done offset) else
  cp ← on_defdname (loop (Z.to_nat MAXDNSRCHPATH) skip_step cp);
  c ← on_defdname (rdS cp);
  if c =? 0 then mret (Done offset) else
  on_offsets (wr offset cp);;
  cp ← on_defdname (loop (Z.to_nat MAXDNSRCHPATH) terminate_step cp);
  mret (Next (cp, offset + 1)).

(** The end of [_resolv_set_nameservers_for_net], from [strlcpy] on. *)
Definition set_search_domains (domains : list Z) : M resolv_cache_info unit :=
  on_defdname (strlcpy domains MAXDNSRCHPATH);;
  info ← getS;
  cp ← strchr (defdname info) 10;
  match cp with
  | Some cp => on_defdname (wr cp 0)
  | None => mret tt
  end;;
  offset ← loop (Z.to_nat MAXDNSRCH + 1) domain_step (0, 0);
  on_offsets (wr offset (-1)).

(** ** Setting *)

Definition _resolv_set_default_params : __res_params := Params NSSAMPLE_VALIDITY SUCCESS_THRESHOLD 0 0 0.

(** [strdup], with memory. *)
Definition strdup {S} (s : list Z) : M S (list Z) := l ← strlen s; mret (ztake (l + 1) s).

Definition set_server_step (servers : list (list Z)) (numservers : Z) (ads : list addrinfo) (i : Z) : M resolv_cache_info (step Z unit) :=
  if negb (i <? numservers) then mret (Done tt) else
  ad ← rd ads i;
  zoom nsaddrinfo (fun l info => info{{ nsaddrinfo := l }}) (wr i (Some ad));;
  name ← rd servers i;
  name ← strdup name;
  zoom nameservers (fun l info => info{{ nameservers := l }}) (wr i (Some name));;
  mret (Next (i + 1)).

Definition set_servers (servers : list (list Z)) (numservers : Z) (ads : list addrinfo) (prm : option __res_params)
    : M resolv_cache_info unit :=
  info ← getS;
  let old_max_samples := max_samples (params info) in
  updS (fun info => info{{ params := match prm with Some p => p | None => _resolv_set_default_params end }});;
  same ← _resolv_is_nameservers_equal_locked servers numservers;
  if negb same : bool then
    _free_nameservers_locked;;
    loop (Z.to_nat numservers + 1) (set_server_step servers numservers ads) 0;;
    updS (fun info => info{{ nscount := numservers }});;
    _res_cache_clear_stats_locked;;
    bump_revision
  else
    info ← getS;
    if negb (max_samples (params info) =? old_max_samples) then _res_cache_clear_stats_locked;; bump_revision else mret tt.

Section system.
Context `{System}.

(** The addresses found so far; [None] when one is not found. *)
Definition resolve_step (servers : list (list Z)) (numservers : Z) '((i, ads) : Z * list addrinfo)
    : M resolver (step (Z * list addrinfo) (option (list addrinfo))) :=
  if negb (i <? numservers) then mret (Done (Some ads)) else
  name ← rd servers i;
  match getaddrinfo name with
  | None => mret (Done None)
  | Some ad => mret (Next (i + 1, ads ++ [ad]))
  end.

(** The result is 0 or an error number. *)
Definition _resolv_set_nameservers_for_net (id : Z) (servers : list (list Z)) (numservers : Z) (domains : list Z)
    (prm : option __res_params) : M resolver Z :=
  if MAXNS <? numservers then mret E2BIG else
  ads ← loop (Z.to_nat numservers + 1) (resolve_step servers numservers) (0, []);
  match ads with
  | None => mret EINVAL
  | Some ads =>
      once_init;;
      pthread_mutex_lock;;
      _get_res_cache_for_net_locked id;;
      info ← _find_cache_info_locked id;
      match info with
      | None => mret tt
      | Some i => on_info i (set_servers servers numservers ads prm;; set_search_domains domains)
      end;;
      pthread_mutex_unlock;;
      mret 0
  end.
End system.

(** ** Statistics *)

(** The contents of [*params] and [stats] are arguments and results; -1 without a cache. *)
Definition _resolv_cache_get_resolver_stats (id : Z) (prm : __res_params) (stats : list __res_stats)
    : M resolver (Z * __res_params * list __res_stats) :=
  pthread_mutex_lock;;
  info ← _find_cache_info_locked id;
  result ←
    match info with
    | None => mret (-1, prm, stats)
    | Some i => info ← on_info i getS; mret (revision_id info, params info, nsstats info)
    end;
  pthread_mutex_unlock;;
  mret result.

Definition _resolv_cache_add_resolver_stats_sample (id revision ns : Z) (sample : __res_sample) (max_samples : Z) : M resolver unit :=
  if max_samples <=? 0 then mret tt else
  pthread_mutex_lock;;
  info ← _find_cache_info_locked id;
  match info with
  | None => mret tt
  | Some i =>
      info ← on_info i getS;
      if revision_id info =? revision then
        on_info i (zoom nsstats (fun l info => info{{ nsstats := l }}) (on_elem ns (_res_cache_add_stats_sample_locked sample max_samples)))
      else mret tt
  end;;
  pthread_mutex_unlock.

(** ** What a network uses *)

(** What [android_net_res_stats_get_info_for_net] writes: the arrays are the caller's. *)
Record net_info : Type := NetInfo {
  o_nscount : Z; o_servers : list (list Z); o_dcount : Z; o_domains : list (list Z); o_params : __res_params; o_stats : list __res_stats }.

(** The checks of the addresses: 0 or an error number. *)
Definition check_addr_step (info : resolv_cache_info) (i : Z) : M resolver (step Z Z) :=
  if negb (i <? nscount info) then mret (Done 0) else
  ad ← rd (nsaddrinfo info) i;
  match ad with
  | None => undef
  | Some ad =>
      if (ai_addrlen ad <? sizeof_sockaddr) || (sizeof_sockaddr_storage <? ai_addrlen ad) then mret (Done EMSGSIZE)
      else match ai_addr ad with
           | None => mret (Done ENOENT)
           | Some _ => if ai_next ad then mret (Done ENOTUNIQ) else mret (Next (i + 1))
           end
  end.

Definition copy_addr_step (info : resolv_cache_info) (i : Z) : M net_info (step Z unit) :=
  if negb (i <? nscount info) then mret (Done tt) else
  ad ← rd (nsaddrinfo info) i;
  match ad with
  | Some (Addrinfo len (Some addr) _) =>
      zoom o_servers (fun l o => o{{ o_servers := l }}) (on_elem i (memcpy addr 0 0 len));;
      st ← rd (nsstats info) i;
      zoom o_stats (fun l o => o{{ o_stats := l }}) (wr i st);;
      mret (Next (i + 1))
  | _ => undef
  end.

Definition copy_domain_step (info : resolv_cache_info) (i : Z) : M net_info (step Z Z) :=
  if negb (i <? MAXDNSRCH) then mret (Done i) else
  off ← rd (dnsrch_offset info) i;
  if (off <? 0) || (MAXDNSRCHPATH <=? off) then mret (Done i) else
  c ← rd (defdname info) off;
  if c =? 0 then mret (Done i) else
  zoom o_domains (fun l o => o{{ o_domains := l }}) (on_elem i (strlcpy (zdrop off (defdname info)) MAXDNSRCHPATH));;
  mret (Next (i + 1)).

(** The revision, or -1 with an error number or without a cache; and what is written. *)
Definition android_net_res_stats_get_info_for_net (id : Z) (out : net_info) : M resolver (Z * Z * net_info) :=
  pthread_mutex_lock;;
  found ← _find_cache_info_locked id;
  match found with
  | None => pthread_mutex_unlock;; mret (-1, 0, out)
  | Some i =>
      info ← on_info i getS;
      if MAXNS <? nscount info then pthread_mutex_unlock;; mret (-1, EFAULT, out) else
      err ← loop (Z.to_nat (nscount info) + 1) (check_addr_step info) 0;
      if negb (err =? 0) then pthread_mutex_unlock;; mret (-1, err, out) else
      '(_, out) ← on_local out (
        updS (fun o => o{{ o_nscount := nscount info }});;
        loop (Z.to_nat (nscount info) + 1) (copy_addr_step info) 0;;
        n ← loop (Z.to_nat MAXDNSRCH + 1) (copy_domain_step info) 0;
        updS (fun o => o{{ o_dcount := n; o_params := params info }}));
      pthread_mutex_unlock;;
      mret (revision_id info, 0, out)
  end.
