(* ===== verification/ResNetRep.v ===== *)
(** * The resolver's caches as a map from networks to lists of answers

    [net_rep s m]: the state [s] of [ResNet.v] holds for each network [id] the
    answers [items] of [m !! id], the last used first, at most CONFIG_MAX_ENTRIES
    of them, and the hashes of the requests that are pending. The functions of
    the interface are proved against this map. *)
From S2P Require Import Prelude CString NsName NsWire NsParse NsRecords ResPacket ResTtl ResCache ResCacheRep ResCacheOps ResStats ResNet ResServers.
From coqutil Require Import Datatypes.RecordSetters.
Import DoubleBraceUpdate.

(** ** The map *)

Record view : Type := View { items : list (Z * item); pending : list Z; lastid : Z; revision : Z }.

Record cache_view (c : Cache) (v : view) : Prop := CacheView {
  cv_rep : cache_rep c (items v);
  cv_pending : pending_requests c = pending v;
  cv_id : last_id c = lastid v;
  cv_max : max_entries c = CONFIG_MAX_ENTRIES;
  cv_bound : zlen (items v) <= CONFIG_MAX_ENTRIES }.

(** The first entries of an array of MAXNS pointers; the others are NULL. *)
Definition padded {A} (l : list A) : list (option A) := (Some <$> l) ++ replicate (Z.to_nat MAXNS - length l) None.

(** A single address of a proper size. *)
Definition good_addr (ad : addrinfo) : Prop :=
  sizeof_sockaddr <= ai_addrlen ad <= sizeof_sockaddr_storage /\ ai_next ad = false /\
  exists a, ai_addr ad = Some a /\ ai_addrlen ad <= zlen a.

(** A search domain: something without blanks. *)
Definition word (w : list Z) : Prop := w <> [] /\ Forall (fun c => blank c = false) w.

(** The words that have been recorded: where they start, and that they are behind each other. *)
Definition recorded (b : list Z) (bound : Z) (os : list Z) (ws : list (list Z)) : Prop :=
  Forall2 (fun o w => cstr b o w /\ word w /\ o + zlen w < bound) os ws.

(** The first [zlen os] offsets are [os]. *)
Definition offsets (offs os : list Z) : Prop := zlen offs = MAXDNSRCH + 1 /\ ztake (zlen os) offs = os.

(** The search domains [ws] are recorded, with -1 behind the last one. *)
Definition domains_ok (info : resolv_cache_info) (ws : list (list Z)) : Prop :=
  exists os, recorded (defdname info) MAXDNSRCHPATH os ws /\ offsets (dnsrch_offset info) (os ++ [-1]).

(** Search domains, or none yet. *)
Definition has_domains (info : resolv_cache_info) (ws : list (list Z)) : Prop :=
  domains_ok info ws \/ (defdname info = replicate 256 0 /\ dnsrch_offset info = replicate 7 0 /\ ws = []).

(** The arrays of a [resolv_cache_info]: the name servers [ns] with their
    addresses [ads], the statistics and the search domains. *)
Record info_servers (info : resolv_cache_info) (ns : list (list Z)) (ads : list addrinfo) : Prop := InfoServers {
  is_count : nscount info = zlen ns /\ zlen ads = zlen ns /\ zlen ns <= MAXNS;
  is_names : nameservers info = padded ns /\ Forall is_cstr ns;
  is_addrs : nsaddrinfo info = padded ads /\ Forall good_addr ads;
  is_stats : zlen (nsstats info) = MAXNS /\ Forall stats_fit (nsstats info);
  is_domains : zlen (defdname info) = MAXDNSRCHPATH /\ zlen (dnsrch_offset info) = MAXDNSRCH + 1 /\
    exists ws, has_domains info ws }.

Definition info_shape (info : resolv_cache_info) : Prop := exists ns ads, info_servers info ns ads.

Lemma zlen_padded {A} (l : list A) : zlen l <= MAXNS -> zlen (padded l) = MAXNS.
Proof. unfold padded, zlen. rewrite length_app, length_fmap, length_replicate. unfold MAXNS. lia. Qed.

Record net_rep (s : resolver) (m : gmap Z view) : Prop := NetRep {
  net_names : NoDup (netid <$> _res_cache_list s);
  net_keys : forall id, is_Some (m !! id) <-> id ∈ netid <$> _res_cache_list s;
  net_infos : forall i info, znth (_res_cache_list s) i = Some info ->
    info_shape info /\ exists c v, cache info = Some c /\ m !! netid info = Some v /\ revision_id info = revision v /\ cache_view c v;
  net_once : _res_cache_once s = false -> _res_cache_list s = [] }.

(** The network [id], its position, its record and its cache. *)
Record at_net (s : resolver) (m : gmap Z view) (id i : Z) (info : resolv_cache_info) (c : Cache) (v : view) : Prop := AtNet {
  at_rep : net_rep s m;
  at_find : find_info id (_res_cache_list s) = Some i;
  at_info : znth (_res_cache_list s) i = Some info;
  at_id : netid info = id;
  at_cache : cache info = Some c;
  at_key : m !! id = Some v;
  at_rev : revision_id info = revision v;
  at_view : cache_view c v }.

Lemma find_info_Some id l i : find_info id l = Some i -> exists info, znth l i = Some info /\ netid info = id.
Proof.
  revert i. induction l as [|x l IH]; intros i; cbn [find_info]; [done|]. destruct (Z.eqb_spec (netid x) id) as [Hx|Hx].
  - intros [= <-]. exists x. split; [apply znth_cons_0|done].
  - destruct (find_info id l) as [j|]; [|done]. intros [= <-]. destruct (IH j eq_refl) as (info & Hj & Hid).
    exists info. pose proof (znth_Some _ _ _ Hj). split; [|done]. rewrite znth_cons_S by lia. by replace (j + 1 - 1) with j by lia.
Qed.

Lemma find_info_None id l : find_info id l = None <-> id ∉ netid <$> l.
Proof.
  induction l as [|x l IH]; cbn [find_info fmap list_fmap]; [by split; [intros _; apply not_elem_of_nil|]|].
  rewrite not_elem_of_cons, <- IH. destruct (Z.eqb_spec (netid x) id) as [Hx|Hx]; [split; [done|intros [? _]; congruence]|].
  destruct (find_info id l); cbn; split; intuition congruence.
Qed.

Lemma net_at s m id v : net_rep s m -> m !! id = Some v -> exists i info c, at_net s m id i info c v.
Proof.
  intros Hr Hv. destruct (find_info id (_res_cache_list s)) as [i|] eqn:Hf.
  - destruct (find_info_Some _ _ _ Hf) as (info & Hi & Hid). destruct (net_infos _ _ Hr i info Hi) as (_ & c & v' & Hc & Hv' & Hrv & Hcv).
    exists i, info, c. rewrite Hid in Hv'. assert (v' = v) as -> by congruence. by constructor.
  - apply find_info_None in Hf. destruct Hf. apply (net_keys _ _ Hr). by exists v.
Qed.

Lemma net_none s m id : net_rep s m -> m !! id = None -> find_info id (_res_cache_list s) = None.
Proof. intros Hr Hn. apply find_info_None. rewrite <- (net_keys _ _ Hr), Hn. by intros [? ?]. Qed.

(** ** The state with another cache of a network *)

Definition with_cache (c : Cache) (info : resolv_cache_info) : resolv_cache_info :=
  Info (netid info) (Some c) (nscount info) (nameservers info) (nsaddrinfo info) (revision_id info) (params info) (nsstats info)
    (defdname info) (dnsrch_offset info).

Lemma with_cache_shape c info : info_shape info -> info_shape (with_cache c info).
Proof. intros (ns & ads & []). exists ns, ads. by constructor. Qed.

Definition put_info (i : Z) (info : resolv_cache_info) (n : nat) (s : resolver) : resolver :=
  Resolver (zupd (_res_cache_list s) i info) (_res_cache_list_lock s) (_res_cache_once s) n.

Definition put (s : resolver) (i : Z) (info : resolv_cache_info) (c : Cache) (n : nat) : resolver :=
  put_info i (with_cache c info) n s.

Lemma zupd_same {A} (l : list A) i x : znth l i = Some x -> zupd l i x = l.
Proof. unfold znth, zupd. destruct (i <? 0); [done|]. apply list_insert_id. Qed.

Lemma zupd_zupd {A} (l : list A) i x y : zupd (zupd l i x) i y = zupd l i y.
Proof. unfold zupd. destruct (i <? 0); [done|]. apply list_insert_insert_eq. Qed.

Lemma netid_zupd l i info info' : znth l i = Some info -> netid info' = netid info -> netid <$> zupd l i info' = netid <$> l.
Proof.
  unfold znth, zupd. destruct (i <? 0); [done|]. intros Hi He. rewrite list_fmap_insert, He. apply list_insert_id. by rewrite list_lookup_fmap, Hi.
Qed.

Lemma find_info_names id l l' : netid <$> l' = netid <$> l -> find_info id l' = find_info id l.
Proof.
  revert l'. induction l as [|x l IH]; intros [|x' l'] He; [done|done|done|]. injection He as Hx He. cbn [find_info].
  by rewrite Hx, (IH l').
Qed.

(** A record is changed, and with it the answers of its network. *)
Lemma net_put_info s m id i info c v info' c' v' n :
  at_net s m id i info c v -> netid info' = id -> cache info' = Some c' -> revision_id info' = revision v' -> cache_view c' v' -> info_shape info' ->
  net_rep (put_info i info' n s) (<[id := v']> m) /\ find_info id (_res_cache_list (put_info i info' n s)) = Some i.
Proof.
  intros [Hr Hf Hi Hid Hc Hk Hrv Hcv] Hid' Hc' Hrv' Hv' Hs'. unfold put_info. cbn [_res_cache_list].
  assert (Hn : netid <$> zupd (_res_cache_list s) i info' = netid <$> _res_cache_list s) by (eapply netid_zupd; [exact Hi|congruence]).
  split; [|by rewrite (find_info_names _ _ _ Hn)]. constructor; cbn [_res_cache_list _res_cache_once].
  - rewrite Hn. apply (net_names _ _ Hr).
  - intros id1. rewrite Hn, <- (net_keys _ _ Hr). destruct (decide (id1 = id)) as [->|].
    + rewrite lookup_insert_eq, Hk. by split; intros _; eexists.
    + by rewrite lookup_insert_ne.
  - intros j info1 Hj. destruct (decide (j = i)) as [->|Hji].
    + rewrite znth_zupd_eq in Hj by (by eapply znth_Some). apply (inj Some) in Hj as <-. split; [done|]. exists c', v'.
      rewrite Hid', lookup_insert_eq. by split_and!.
    + rewrite znth_zupd_ne in Hj by done. destruct (net_infos _ _ Hr j info1 Hj) as (Hs1 & c1 & v1 & Hc1 & Hv1 & Hrv1 & Hcv1). split; [done|].
      exists c1, v1. rewrite lookup_insert_ne; [done|]. intros Heq. apply Hji.
      pose proof (net_names _ _ Hr) as Hnd. rewrite NoDup_alt in Hnd. unfold znth in Hi, Hj.
      destruct (Z.ltb_spec j 0), (Z.ltb_spec i 0); try done.
      apply Z2Nat.inj; [done|done|]. apply (Hnd _ _ id); rewrite list_lookup_fmap; [by rewrite Hj; cbn; congruence|by rewrite Hi; cbn; congruence].
  - intros Ho. rewrite (net_once _ _ Hr Ho) in Hi. apply znth_Some in Hi. change (zlen _) with 0 in Hi. lia.
Qed.

Lemma wp_find_named s m id (Q : option Z -> resolver -> Prop) E :
  net_rep s m -> (m !! id = None -> Q None s) ->
  (forall i info c v, at_net s m id i info c v -> Q (Some i) s) -> wp (_find_named_cache_locked id) s Q E.
Proof.
  intros Hr HN HS. unfold _find_named_cache_locked, _find_cache_info_locked. wp_step. wp_step. apply wp_getS. wp_step.
  destruct (m !! id) as [v|] eqn:Hm.
  - destruct (net_at _ _ _ _ Hr Hm) as (i & info & c & Hat). rewrite (at_find _ _ _ _ _ _ _ Hat). wp_step.
    unfold on_info, on_list. apply wp_zoom. eapply wp_on_elem; [exact (at_info _ _ _ _ _ _ _ Hat)|]. apply wp_getS.
    rewrite zupd_same by exact (at_info _ _ _ _ _ _ _ Hat). rewrite (at_cache _ _ _ _ _ _ _ Hat). wp_step. destruct s. by eapply HS.
  - rewrite (net_none _ _ _ Hr Hm). wp_step. by apply HN.
Qed.

Section focus.
Context (s : resolver) (m : gmap Z view) (id i : Z) (info : resolv_cache_info) (c0 : Cache) (v0 : view).
Context (Hat : at_net s m id i info c0 v0).

Lemma put_start : put s i info c0 (ticks s) = s.
Proof.
  destruct Hat as [_ _ Hi _ Hc _ _ _]. unfold put, put_info. replace (with_cache c0 info) with info by (destruct info; cbn in *; by subst).
  rewrite zupd_same by done. by destruct s.
Qed.

Lemma net_put c v n : revision v = revision v0 -> cache_view c v ->
  net_rep (put s i info c n) (<[id := v]> m) /\ find_info id (_res_cache_list (put s i info c n)) = Some i.
Proof.
  intros Hrv Hv. pose proof Hat as [Hr _ Hi Hid _ _ Hrv0 _]. destruct (net_infos _ _ Hr _ _ Hi) as [Hs _].
  apply (net_put_info s m id i info c0 v0 (with_cache c info) c v n); [done|done|done|by rewrite Hrv|done|by apply with_cache_shape].
Qed.

Lemma wp_on_cache {A} c n (mm : M Cache A) (Q : A -> resolver -> Prop) E :
  wp mm c (fun a c' => Q a (put s i info c' n)) (fun e c' => E e (put s i info c' n)) -> wp (on_cache i mm) (put s i info c n) Q E.
Proof.
  intros Hm. pose proof (znth_Some _ _ _ (at_info _ _ _ _ _ _ _ Hat)) as Hi. unfold on_cache, on_info, on_list. apply wp_zoom.
  unfold put, put_info at 1. cbn [_res_cache_list]. eapply wp_on_elem; [by apply znth_zupd_eq|].
  unfold info_cache. wp_step. apply wp_getS. cbn [cache with_cache]. apply wp_zoom. eapply wp_mono; [exact Hm| |];
    intros ? c' H; cbn; unfold constant, put_info; by rewrite zupd_zupd.
Qed.

Context `{System}.

Lemma wp_time_now c n (Q : Z -> resolver -> Prop) E :
  Q (clock n) (put s i info c (Datatypes.S n)) -> wp _time_now (put s i info c n) Q E.
Proof. intros HQ. unfold _time_now. wp_step. apply wp_getS. wp_step. apply wp_setS. wp_step. exact HQ. Qed.
End focus.

(** ** Keys *)

Lemma wp_entry_init_key {S} (q : list Z) (st : S) (Q : Entry * bool -> S -> Prop) E :
  bytes q -> 3 <= zlen q ->
  (forall ok, let e := Entry_ (qhash q) None None None q (zlen q) [] 0 0 0 in (ok = true <-> query_ok q (zlen q)) -> Q (e, ok) st) ->
  wp (entry_init_key q (zlen q)) st Q E.
Proof.
  intros Hb H3 HQ. unfold entry_init_key, entry_hash. wp_step. wp_step. apply wp_on_local. unfold _dnsPacket_init. wp_step. apply wp_setS.
  eapply wp_mono; [apply (wp_hashQuery q (zlen q) (Z.le_refl _) 0 (fun _ _ => False) H3)| |done].
  intros h k [-> _]. wp_step. wp_step. apply wp_on_local. wp_step. apply wp_setS.
  eapply wp_mono; [apply (wp_checkQuery q (zlen q) Hb (Z.le_refl _) 0 (fun _ _ => False))| |done]. intros ok k' [Hok _]. wp_step. by apply (HQ ok).
Qed.

(** ** What a look-up does with the entry it finds *)

Definition with_items (l : list (Z * item)) (v : view) : view := View l (pending v) (lastid v) (revision v).

Definition outcome_ : Type := (ResolvCacheStatus * list Z * Z).

Inductive served (now asize : Z) (buf : list Z) (len : Z) (v : view) (u : list (Z * item)) (p : Z) (x : item) (w : list (Z * item))
    : outcome_ -> view -> Prop :=
  | Stale : ix x <= now -> served now asize buf len v u p x w (RESOLV_CACHE_NOTFOUND, buf, len) (with_items (u ++ w) v)
  | Too_long : now < ix x -> asize < zlen (ia x) -> served now asize buf len v u p x w (RESOLV_CACHE_UNSUPPORTED, buf, zlen (ia x)) v
  | Found : now < ix x -> zlen (ia x) <= asize ->
      served now asize buf len v u p x w (RESOLV_CACHE_FOUND, splice buf 0 (ia x), zlen (ia x)) (with_items ((p, x) :: u ++ w) v).

Lemma served_revision now asize buf len v u p x w r v' : served now asize buf len v u p x w r v' -> revision v' = revision v.
Proof. by destruct 1. Qed.

Lemma cache_view_frame c c' v l : cache_view c v -> cache_rep c' l -> same_frame c c' -> zlen l <= zlen (items v) ->
  cache_view c' (with_items l v).
Proof.
  intros [Hr Hp Hid Hm Hb] Hr' (Hm' & Hp' & Hid') Hl. constructor; cbn [items pending lastid with_items]; [done|congruence|congruence|congruence|lia].
Qed.

Section serve.
Context (s : resolver) (m : gmap Z view) (id i : Z) (info : resolv_cache_info) (c0 : Cache) (v0 : view).
Context (Hat : at_net s m id i info c0 v0) `{System}.

Lemma wp_serve c n v u p x w k pre post buf asize len (Q : outcome_ -> resolver -> Prop) E :
  cache_view c v -> items v = u ++ (p, x) :: w -> 0 <= k < max_entries c ->
  bucket c (u ++ (p, x) :: w) k (pre ++ p :: post) -> 0 <= asize <= zlen buf ->
  (forall r c' v', served (clock n) asize buf len v u p x w r v' -> cache_view c' v' -> Q r (put s i info c' (Datatypes.S n))) ->
  wp (serve_locked i (slot_at k pre) p buf asize len) (put s i info c n) Q E.
Proof.
  intros Hv Hl Hk Hb Hsz HQ. pose proof (cv_rep _ _ Hv) as Hr. rewrite Hl in Hr.
  destruct (rep_items _ _ Hr p x ltac:(set_solver)) as (e & He & [_ Hlen] & Hit).
  assert (Ha : ia x = answer e /\ ix x = expires e) by (by rewrite <- Hit). destruct Ha as [Ha Hx].
  unfold serve_locked. wp_step. apply wp_time_now. wp_step. apply (wp_on_cache s m id i info c0 v0 Hat). eapply wp_deref_entry; [exact He|].
  destruct (Z.leb_spec (expires e) (clock n)) as [Hle|Hgt].
  - wp_step. apply (wp_on_cache s m id i info c0 v0 Hat). eapply wp_remove_p; [exact Hr|exact Hk|exact Hb|]. intros h' es' n' c' Hr'. wp_step.
    eapply HQ; [apply Stale; lia|]. apply (cache_view_frame c); [done|exact Hr'|done|]. rewrite Hl, !zlen_app, zlen_cons. lia.
  - cbv zeta. rewrite Hlen. destruct (Z.ltb_spec asize (zlen (answer e))) as [Hs|Hs].
    { wp_step. rewrite <- Ha. eapply HQ; [apply Too_long; [lia|by rewrite Ha]|done]. }
    wp_step. apply wp_on_local. apply wp_memcpy; [pose proof (zlen_nonneg (answer e)); lia|lia|lia|lia|lia|].
    rewrite zdrop_0, ztake_all. assert (Hres : forall c', cache_rep c' ((p, x) :: u ++ w) -> same_frame c c' ->
      Q (RESOLV_CACHE_FOUND, splice buf 0 (answer e), zlen (answer e)) (put s i info c' (Datatypes.S n))).
    { intros c' Hr' Hf. rewrite <- Ha. eapply HQ; [apply Found; rewrite ?Ha; lia|]. apply (cache_view_frame c); [done|done|done|].
      rewrite Hl, zlen_cons, !zlen_app, zlen_cons. lia. }
    pose proof (rep_mru _ _ Hr) as Hlinks. rewrite fst_app in Hlinks. cbn [fmap list_fmap] in Hlinks.
    assert (H0 : exists e0, heap c !! 0 = Some e0 /\ (mru_next e0 = Some p <-> u = [])).
    { destruct u as [|[p1 x1] u']; cbn [fmap list_fmap app links fst] in Hlinks; destruct Hlinks as (Hn & _); apply nx_Some in Hn as (e0 & He0 & Hn);
        exists e0; (split; [done|]); [by rewrite Hn|]. rewrite Hn. split; [|done]. intros [= ->].
      pose proof (rep_nodup _ _ Hr) as Hnd. cbn in Hnd. apply NoDup_cons in Hnd as [_ Hnd]. apply NoDup_cons in Hnd as [Hnd _].
      rewrite fst_app in Hnd. set_solver. }
    destruct H0 as (e0 & He0 & Hfirst). wp_step. apply (wp_on_cache s m id i info c0 v0 Hat). eapply wp_deref_entry; [exact He0|]. wp_step.
    destruct (decide (mru_next e0 = Some p)) as [Hd|Hd].
    + wp_step. wp_step. apply Hfirst in Hd as ->. by apply Hres.
    + apply (wp_on_cache s m id i info c0 v0 Hat). eapply wp_move_front; [exact Hr|]. intros h' Hr'. wp_step. by apply Hres.
Qed.
End serve.

(** ** Looking up *)

Definition no_match (q : list Z) (l : list (Z * item)) : Prop := forall p x, (p, x) ∈ l -> ~ matches (iq x) q.

(** The key of a query. *)
Definition key_of (q : list Z) : Entry := Entry_ (qhash q) None None None q (zlen q) [] 0 0 0.

Lemma key_of_ok q : query_good q -> key_ok (key_of q).
Proof. done. Qed.

(** What other threads do while the caller waits is not known, but they leave
    caches behind and give the mutex back. A numeric name of a server has one
    address. *)
Class SystemOk `{System} : Prop := {
  clock_range : forall n, 0 <= clock n < 2 ^ 62;
  address_free : forall h, h !! new_address h = None;
  mode_local : dns_mode = Some [108; 111; 99; 97; 108];
  locals_ok : zlen tmp0 = NS_MAXCDNAME /\ zlen (name local_rr) = NS_MAXDNAME /\ zlen (_counts local_handle) = 4 /\
    zlen (_sections local_handle) = 4;
  address_good : forall n ad, getaddrinfo n = Some ad -> good_addr ad;
  wait_ok : forall ts s m E, net_rep s m -> _res_cache_list_lock s = true ->
    wp (cond_timedwait ts) s (fun _ s' => _res_cache_list_lock s' = true /\ exists m', net_rep s' m') E }.

(** A match is served; without one there is no answer. *)
Inductive looked_up (q : list Z) (asize : Z) (buf : list Z) (len : Z) (v : view) : outcome_ -> view -> Prop :=
  | Hit now u p x w r v' : items v = u ++ (p, x) :: w -> matches (iq x) q -> served now asize buf len v u p x w r v' ->
      looked_up q asize buf len v r v'
  | Miss : no_match q (items v) -> looked_up q asize buf len v (RESOLV_CACHE_NOTFOUND, buf, len) v.

Definition with_pending (l : list Z) (v : view) : view := View (items v) l (lastid v) (revision v).

(** A look-up of [q] in the network [id] of [m] leads to [m']. Without a match, a
    request that is not pending becomes so (if there is memory); one that is
    pending is waited for, and the caches may then be others, [m1]. *)
Inductive net_looked_up (id : Z) (q : list Z) (asize : Z) (buf : list Z) (len : Z) (m : gmap Z view) : outcome_ -> gmap Z view -> Prop :=
  | No_net : m !! id = None -> net_looked_up id q asize buf len m (RESOLV_CACHE_UNSUPPORTED, buf, len) m
  | At_once v r v' : m !! id = Some v -> (exists p x, (p, x) ∈ items v /\ matches (iq x) q) -> looked_up q asize buf len v r v' ->
      net_looked_up id q asize buf len m r (<[id := v']> m)
  | Asked v l : m !! id = Some v -> no_match q (items v) -> qhash q ∉ pending v -> l = pending v \/ l = pending v ++ [qhash q] ->
      net_looked_up id q asize buf len m (RESOLV_CACHE_NOTFOUND, buf, len) (<[id := with_pending l v]> m)
  | Waited_no_net v m1 : m !! id = Some v -> no_match q (items v) -> qhash q ∈ pending v -> m1 !! id = None ->
      net_looked_up id q asize buf len m (RESOLV_CACHE_NOTFOUND, buf, len) m1
  | Waited v m1 v1 r v' : m !! id = Some v -> no_match q (items v) -> qhash q ∈ pending v -> m1 !! id = Some v1 ->
      looked_up q asize buf len v1 r v' -> net_looked_up id q asize buf len m r (<[id := v']> m1).

(** The entries do not depend on the pending requests. *)
Lemma cache_view_pending c v l : cache_view c v -> cache_view (c{{ pending_requests := l }}) (with_pending l v).
Proof. destruct c. intros [[] _ ? ? ?]. constructor; try done. Qed.

Lemma looked_up_revision q asize buf len v r v' : looked_up q asize buf len v r v' -> revision v' = revision v.
Proof. destruct 1; [by eapply served_revision|done]. Qed.

Section lookup_net.
Context `{Hok : SystemOk}.

(** The two calls of a look-up. *)
Lemma wp_look {A} s m id i info c0 v0 (Hat : at_net s m id i info c0 v0) c n v q (K : slot -> option Z -> M resolver A)
    (Q : A -> resolver -> Prop) E :
  cache_view c v -> query_good q ->
  (forall k pre u p x w post, items v = u ++ (p, x) :: w -> matches (iq x) q -> 0 <= k < max_entries c ->
     bucket c (u ++ (p, x) :: w) k (pre ++ p :: post) -> wp (K (slot_at k pre) (Some p)) (put s i info c n) Q E) ->
  (forall k pre, k = qhash q mod max_entries c -> bucket c (items v) k pre -> no_match q (items v) ->
     wp (K (slot_at k pre) None) (put s i info c n) Q E) ->
  wp (lookup ← on_cache i (_cache_lookup_p (key_of q)); e ← on_cache i (get_slot lookup); K lookup e) (put s i info c n) Q E.
Proof.
  intros Hv Hq HS HN. pose proof (cv_rep _ _ Hv) as Hr. pose proof (rep_max _ _ Hr) as [Hmax _].
  wp_step. apply (wp_on_cache s m id i info c0 v0 Hat). apply (wp_lookup_p c _ Hr (key_of q) (key_of_ok q Hq)).
  intros k pre post (-> & Hb & Hpost). cbn [hash query key_of] in *. wp_step. apply (wp_on_cache s m id i info c0 v0 Hat).
  eapply wp_get_slot; [exact (proj1 Hb)|]. destruct post as [|p post]; cbn [head].
  - rewrite app_nil_r in Hb. by apply HN.
  - destruct Hpost as (x & Hin & Hm). apply list_elem_of_split in Hin as (u & w & Hl). rewrite Hl in Hb.
    eapply HS; [exact Hl|exact Hm| |exact Hb]. by apply Z.mod_pos_bound.
Qed.

Lemma wp_lookup_locked s m id q buf asize len (Q : outcome_ -> resolver -> Prop) E :
  net_rep s m -> _res_cache_list_lock s = true -> query_good q -> 0 <= asize <= zlen buf ->
  (forall r m' s', net_rep s' m' -> _res_cache_list_lock s' = true -> net_looked_up id q asize buf len m r m' -> Q r s') ->
  wp (lookup_locked id (key_of q) buf asize len) s Q E.
Proof.
  intros Hr Hlk Hq Hsz HQ. unfold lookup_locked. wp_step. apply wp_find_named with (m := m); [done| |].
  { intros Hn. wp_step. by eapply HQ; [exact Hr|done|apply No_net]. }
  intros i info c v Hat. pose proof (at_key _ _ _ _ _ _ _ Hat) as Hkey. pose proof (at_view _ _ _ _ _ _ _ Hat) as Hv.
  rewrite <- (put_start s m id i info c v Hat). eapply wp_look; [exact Hat|exact Hv|exact Hq| |].
  - intros k pre u p x w post Hl Hm Hk Hb. wp_step. wp_step. eapply wp_serve; [exact Hat|exact Hv|exact Hl|exact Hk|exact Hb|done|].
    intros r c' v' Hs Hv'. eapply HQ; [apply (net_put s m id i info c v Hat c' v'); [by eapply served_revision|done]|done|]. eapply At_once; [exact Hkey| |by eapply Hit].
    exists p, x. rewrite Hl. split; [set_solver|done].
  - intros k pre _ _ Hno. wp_step. unfold _cache_check_pending_request_locked. wp_step. wp_step.
    apply (wp_on_cache s m id i info c v Hat). apply wp_getS. cbn [hash key_of]. rewrite (cv_pending _ _ Hv). case_decide as Hp.
    + wp_step. apply wp_time_now with (c := c). wp_step. eapply wp_conseq; [apply (wait_ok _ _ (<[id := v]> m)); [by apply (net_put s m id i info c v Hat)|done]|].
      intros _ s1 (Hlk1 & m1 & Hr1). wp_step. apply wp_find_named with (m := m1); [done| |].
      { intros Hn. do 3 wp_step. by eapply HQ; [exact Hr1|done|eapply Waited_no_net]. }
      intros i1 info1 c1 v1 Hat1. pose proof (at_view _ _ _ _ _ _ _ Hat1) as Hv1. wp_step.
      rewrite <- (put_start s1 m1 id i1 info1 c1 v1 Hat1). eapply wp_look; [exact Hat1|exact Hv1|exact Hq| |].
      * intros k1 pre1 u p x w post Hl Hm Hk1 Hb. wp_step. eapply wp_serve; [exact Hat1|exact Hv1|exact Hl|exact Hk1|exact Hb|done|].
        intros r c' v' Hs Hv'. eapply HQ; [apply (net_put s1 m1 id i1 info1 c1 v1 Hat1 c' v'); [by eapply served_revision|done]|done|].
        eapply Waited; [exact Hkey|done|done|exact (at_key _ _ _ _ _ _ _ Hat1)|by eapply Hit].
      * intros k1 pre1 _ _ Hno1. wp_step. wp_step. eapply HQ; [by apply (net_put s1 m1 id i1 info1 c1 v1 Hat1)|done|].
        eapply Waited; [exact Hkey|done|done|exact (at_key _ _ _ _ _ _ _ Hat1)|by apply Miss].
    + wp_step. apply wp_getS. wp_step.
      assert (Hfin : forall c' l, cache_view c' (with_pending l v) -> l = pending v \/ l = pending v ++ [qhash q] ->
        Q (RESOLV_CACHE_NOTFOUND, buf, len) (put s i info c' (ticks s))).
      { intros c' l Hv' Hl. eapply HQ; [by apply (net_put s m id i info c v Hat c' (with_pending l v))|done|]. by eapply Asked. }
      destruct (memory _).
      * apply (wp_on_cache s m id i info c v Hat). apply wp_updS. do 3 wp_step. eapply Hfin; [|by right].
        rewrite <- (cv_pending _ _ Hv). by apply cache_view_pending.
      * do 4 wp_step. eapply Hfin; [|by left]. by destruct v.
Qed.
End lookup_net.

Lemma wp_once_init s m (Q : unit -> resolver -> Prop) E :
  net_rep s m -> _res_cache_list_lock s = false ->
  (forall s', net_rep s' m -> _res_cache_list_lock s' = false -> _res_cache_once s' = true -> Q tt s') -> wp once_init s Q E.
Proof.
  intros Hr Hlk HQ. unfold once_init, _res_cache_init. wp_step. apply wp_getS. destruct (_res_cache_once s) eqn:Ho; wp_step; [by apply HQ|].
  apply wp_updS. apply wp_updS. apply HQ; [|done|done]. pose proof (net_once _ _ Hr Ho) as Hl. destruct Hr as [H1 H2 H3 _], s. cbn in Hl. subst.
  by constructor.
Qed.

Lemma wp_locked {A} s m (mm : M resolver A) (Q : A -> resolver -> Prop) E :
  net_rep s m -> _res_cache_list_lock s = false ->
  (forall s', net_rep s' m -> _res_cache_list_lock s' = true -> _res_cache_once s' = _res_cache_once s -> wp mm s' Q E) ->
  wp (pthread_mutex_lock;; mm) s Q E.
Proof.
  intros Hr Hlk HQ. unfold pthread_mutex_lock. wp_step. wp_step. apply wp_getS. wp_step. apply wp_require; [by rewrite Hlk|].
  apply wp_updS. destruct s. apply HQ; [|done|done]. by destruct Hr; constructor.
Qed.

Lemma wp_net_unlock s m (Q : unit -> resolver -> Prop) E :
  net_rep s m -> (forall s', net_rep s' m -> _res_cache_list_lock s' = false -> Q tt s') -> wp pthread_mutex_unlock s Q E.
Proof. intros Hr HQ. unfold pthread_mutex_unlock. apply wp_updS. destruct s. apply HQ; [|done]. by destruct Hr; constructor. Qed.

(** ** Adding *)

(** What is left of [l] to make room for another entry. *)
Definition roomy (now : Z) (l : list (Z * item)) : list (Z * item) :=
  if CONFIG_MAX_ENTRIES <=? zlen l then
    if CONFIG_MAX_ENTRIES <=? zlen (live now l) then removelast (live now l) else live now l
  else l.

Definition unpend (h : Z) (l : list Z) : list Z :=
  match list_find (eq h) l with Some (k, _) => delete k l | None => l end.

(** An answer [a] to [q] is added to [v]: only if there is none yet, with room made
    at [now], and kept for its lifetime [t] from [now'] on. *)
Inductive added (q a : list Z) (alen : Z) (v : view) : view -> Prop :=
  | Present : (exists p x, (p, x) ∈ items v /\ matches (iq x) q) -> added q a alen v v
  | Not_kept now t : no_match q (items v) -> lifetime a alen t -> added q a alen v (with_items (roomy now (items v)) v)
  | Kept now now' t p : no_match q (items v) -> lifetime a alen t -> 0 < t -> p ∉ (roomy now (items v)).*1 ->
      added q a alen v (View ((p, Item q (ztake alen a) (t + now')) :: roomy now (items v)) (pending v) (lastid v + 1) (revision v)).

Lemma live_sub now l pi : pi ∈ live now l -> pi ∈ l.
Proof. by intros [_ ?]%list_elem_of_filter. Qed.

Lemma removelast_sub {A} (l : list A) x : x ∈ removelast l -> x ∈ l.
Proof.
  destruct l as [|y l _] using rev_ind; [done|]. rewrite removelast_last. set_solver.
Qed.

Lemma roomy_sub now l pi : pi ∈ roomy now l -> pi ∈ l.
Proof. unfold roomy. repeat case_match; [by intros ?%removelast_sub%live_sub|apply live_sub|done]. Qed.

Lemma zlen_live now l : zlen (live now l) <= zlen l.
Proof. unfold zlen. pose proof (live_length now l). lia. Qed.

Lemma zlen_removelast {A} (l : list A) : 0 < zlen l -> zlen (removelast l) = zlen l - 1.
Proof.
  destruct l as [|y l _] using rev_ind; [done|]. intros _. rewrite removelast_last, zlen_app. change (zlen [y]) with 1. lia.
Qed.

Lemma roomy_length now l : zlen l <= CONFIG_MAX_ENTRIES -> zlen (roomy now l) < CONFIG_MAX_ENTRIES.
Proof.
  intros Hl. pose proof (zlen_live now l). unfold roomy, CONFIG_MAX_ENTRIES in *.
  destruct (Z.leb_spec (64 * 2 * 5) (zlen l)); [|lia]. destruct (Z.leb_spec (64 * 2 * 5) (zlen (live now l))); [|lia].
  rewrite zlen_removelast; lia.
Qed.

Lemma no_match_sub q l l' : no_match q l -> (forall pi, pi ∈ l' -> pi ∈ l) -> no_match q l'.
Proof. intros Hn Hs p x Hin. by eapply Hn, Hs. Qed.

Section add_net.
Context `{Hok : SystemOk}.
Context (s : resolver) (m : gmap Z view) (id i : Z) (info : resolv_cache_info) (c0 : Cache) (v0 : view).
Context (Hat : at_net s m id i info c0 v0) (q : list Z) (Hq : query_good q).

Lemma wp_evict c n v (Q : unit -> resolver -> Prop) E :
  cache_view c v -> CONFIG_MAX_ENTRIES <= zlen (items v) ->
  (forall c', cache_view c' (with_items (roomy (clock n) (items v)) v) -> Q tt (put s i info c' (Datatypes.S n))) ->
  wp (now ← _time_now;
      on_cache i (_cache_remove_expired now);;
      c ← on_cache i getS;
      if max_entries c <=? num_entries c then on_cache i _cache_remove_oldest else mret tt) (put s i info c n) Q E.
Proof.
  intros Hv Hfull HQ. pose proof (zlen_live (clock n) (items v)). unfold roomy in HQ. rewrite (proj2 (Z.leb_le _ _)) in HQ by done.
  wp_step. apply wp_time_now. wp_step. apply (wp_on_cache s m id i info c0 v0 Hat). eapply wp_remove_expired; [exact (cv_rep _ _ Hv)|].
  intros c1 Hr1 Hf1. assert (Hv1 : cache_view c1 (with_items (live (clock n) (items v)) v)) by (by eapply cache_view_frame).
  wp_step. apply (wp_on_cache s m id i info c0 v0 Hat). apply wp_getS. rewrite (cv_max _ _ Hv1), (rep_num _ _ Hr1).
  destruct (Z.leb_spec CONFIG_MAX_ENTRIES (zlen (live (clock n) (items v)))) as [Hge|Hlt]; [|wp_step; by apply HQ].
  apply (wp_on_cache s m id i info c0 v0 Hat). destruct (live (clock n) (items v)) as [|[p x] u _] eqn:Hl using rev_ind; [done|].
  eapply wp_remove_oldest; [exact Hr1|]. intros c2 Hr2 Hf2. apply HQ. rewrite removelast_last.
  apply (cache_view_frame c1 c2 _ u Hv1 Hr2 Hf2). cbn [items with_items]. rewrite zlen_app. pose proof (zlen_nonneg [(p, x)]). lia.
Qed.

Lemma wp_make_room c n v k pre (Q : option slot -> resolver -> Prop) E :
  cache_view c v -> no_match q (items v) -> k = qhash q mod max_entries c -> bucket c (items v) k pre ->
  (forall c' n' k' pre', let l := roomy (clock n) (items v) in
     cache_view c' (with_items l v) -> k' = qhash q mod max_entries c' -> bucket c' l k' pre' ->
     Q (Some (slot_at k' pre')) (put s i info c' n')) ->
  wp (make_room i (key_of q) (slot_at k pre)) (put s i info c n) Q E.
Proof.
  intros Hv Hno Hk Hb HQ. unfold make_room. wp_step. apply (wp_on_cache s m id i info c0 v0 Hat). apply wp_getS.
  rewrite (cv_max _ _ Hv), (rep_num _ _ (cv_rep _ _ Hv)). destruct (Z.leb_spec CONFIG_MAX_ENTRIES (zlen (items v))) as [Hge|Hlt].
  - apply (wp_run _ ((now ← _time_now; on_cache i (_cache_remove_expired now);; c ← on_cache i getS;
        if max_entries c <=? num_entries c then on_cache i _cache_remove_oldest else mret tt);;
        lookup ← on_cache i (_cache_lookup_p (key_of q)); e ← on_cache i (get_slot lookup);
        mret (match e with Some _ => None | None => Some lookup end)) _ (put s i info c n)).
    { unfold mbind, M_bind. destruct (_time_now _) as [[]?]; [|done..]. destruct (on_cache i (_cache_remove_expired _) _) as [[]?]; [|done..].
      destruct (on_cache i getS _) as [[]?]; done. }
    wp_step. eapply wp_evict; [exact Hv|exact Hge|]. intros c' Hv'. eapply wp_look; [exact Hat|exact Hv'|exact Hq| |].
    + intros k' pre' u p x w post Hl Hm _ _. exfalso. cbn [items with_items] in Hl. apply (no_match_sub q _ _ Hno (roomy_sub (clock n) _) p x); [|exact Hm].
      rewrite Hl. set_solver.
    + intros k' pre' Hk' Hb' _. wp_step. by eapply HQ.
  - wp_step. apply (HQ c); [|done|]; unfold roomy; rewrite (proj2 (Z.leb_gt _ _)) by done; [by destruct v|done].
Qed.

Lemma wp_add_locked c n v a alen (Q : unit -> resolver -> Prop) E :
  cache_view c v -> lastid v + 1 < 2 ^ 31 -> bytes a -> readable a alen -> 0 <= alen ->
  (forall c' n' v', added q a alen v v' -> cache_view c' v' -> Q tt (put s i info c' n')) ->
  wp (add_locked i (key_of q) a alen) (put s i info c n) Q E.
Proof.
  intros Hv Hid Ha Hra Hal HQ. pose proof Hra as [Hale _]. unfold add_locked. eapply wp_look; [exact Hat|exact Hv|exact Hq| |].
  { intros k pre u p x w post Hl Hm _ _. wp_step. eapply HQ; [|exact Hv]. apply Present. exists p, x. rewrite Hl. split; [set_solver|done]. }
  intros k pre Hk Hb Hno. wp_step. eapply wp_make_room; [exact Hv|exact Hno|exact Hk|exact Hb|].
  intros c1 n1 k1 pre1 l Hv1 Hk1 Hb1. destruct locals_ok as (L1 & L2 & L3 & L4).
  wp_step. eapply wp_conseq; [by apply (wp_answer_getTTL tmp0 local_handle local_rr a alen)|]. intros t s1 [-> Ht].
  pose proof (lifetime_range _ _ _ Ha Ht) as Htr. destruct (Z.ltb_spec 0 t) as [Hpos|Hz]; cbn [negb].
  2: { wp_step. eapply HQ; [|exact Hv1]. by eapply Not_kept. }
  wp_step. apply wp_getS. destruct (memory _); cbn [negb].
  2: { wp_step. eapply HQ; [|exact Hv1]. by eapply Not_kept. }
  wp_step. unfold entry_alloc. wp_step. apply wp_require; [cbn [querylen query key_of]; pose proof (zlen_nonneg q); lia|]. wp_step.
  wp_step. apply wp_time_now. apply (wp_on_cache s m id i info c0 v0 Hat).
  cbn [hash querylen query key_of]. rewrite ztake_all.
  pose proof (clock_range n1) as Hcl. assert (Hx : s64 (u64 (t + u64 (clock n1))) = t + clock n1).
  { rewrite (u64_id (clock n1)) by lia. rewrite u64_id by lia. apply s64_id. lia. }
  rewrite Hx. set (e := Entry_ (qhash q) None None None q (zlen q) (ztake alen a) alen (t + clock n1) 0).
  change (wp (p ← new_entry e; _cache_add_p (slot_at k1 pre1) p) c1 (fun r c' => Q r (put s i info c' (Datatypes.S n1)))
    (fun err c' => E err (put s i info c' (Datatypes.S n1)))).
  pose proof (cv_rep _ _ Hv1) as Hr1. cbn [items with_items] in Hr1.
  assert (Hp : new_address (heap c1) ∉ 0 :: l.*1) by (rewrite <- (rep_dom _ _ Hr1), address_free; by intros [? ?]).
  unfold new_entry. wp_step. wp_step. apply wp_getS. wp_step. apply wp_updS. wp_step.
  change (wp (_cache_add_p (slot_at k1 pre1) (new_address (heap c1))) (with_heap (<[new_address (heap c1) := e]> (heap c1)) c1)
    (fun r c' => Q r (put s i info c' (Datatypes.S n1))) (fun err c' => E err (put s i info c' (Datatypes.S n1)))).
  pose proof (cv_id _ _ Hv1) as Hid1. cbn [lastid with_items] in Hid1.
  eapply (wp_add_p c1 l); [exact Hr1|exact Hp|split; [split; [done|split; [done|exact Hq]]|cbn; by rewrite zlen_ztake]|done|lia|exact Hk1|exact Hb1|exact (no_match_sub _ _ _ Hno (roomy_sub _ _))|].
  intros h' es' n' c' Hr'. eapply HQ.
  - apply (Kept q a alen v (clock n) (clock n1) t); [done|exact Ht|done|]. fold l. intros Hin. apply Hp. by right.
  - pose proof (roomy_length (clock n) (items v) (cv_bound _ _ Hv)). constructor; cbn [items pending lastid last_id pending_requests max_entries].
    + exact Hr'.
    + exact (cv_pending _ _ Hv1).
    + unfold c'. cbn [last_id]. by rewrite Hid1.
    + exact (cv_max _ _ Hv1).
    + rewrite zlen_cons. fold l. fold l in H0. lia.
Qed.
End add_net.
