(* ===== verification/ResNetSpec.v ===== *)
(** * The interface of the resolver's cache is correct

    Looking up, adding, giving up, creating, flushing and deleting, each against
    the map of [ResNetRep.v], and every history of them. *)
From S2P Require Import Prelude CString NsName NsWire NsParse NsRecords ResPacket ResTtl ResCache ResCacheRep ResCacheOps ResStats ResNet ResNetRep.
From coqutil Require Import Datatypes.RecordSetters.
Import DoubleBraceUpdate.

(** The mutex is free. *)
Definition unlocked (s : resolver) : Prop := _res_cache_list_lock s = false.

(** A query that can be handed over: octets, with the three that are read before
    the check, and if it passes the check complete. *)
Definition query_arg (q : list Z) : Prop := bytes q /\ 3 <= zlen q /\ (query_ok q (zlen q) -> additional_ok q (zlen q)).

(** The check decides. *)
Lemma query_ok_or q : bytes q -> query_ok q (zlen q) \/ ~ query_ok q (zlen q).
Proof.
  intros Hb. pose proof (wp_checkQuery q (zlen q) Hb (Z.le_refl _) 0 (fun _ _ => False)) as H.
  apply wp_eq in H as [(r & k & _ & Hr & _)|(? & ? & _ & [])]. destruct r; [left; by apply Hr|right]. by intros ?%Hr.
Qed.

Lemma query_arg_good q : query_arg q -> query_ok q (zlen q) -> query_good q.
Proof. intros (? & _ & Ha) Hok. split_and!; auto. Qed.

Lemma added_revision q a alen v v' : added q a alen v v' -> revision v' = revision v.
Proof. by destruct 1. Qed.

Lemma wp_notify q c v (Q : unit -> Cache -> Prop) E :
  cache_view c v -> (forall c', cache_view c' (with_pending (unpend (qhash q) (pending v)) v) -> Q tt c') ->
  wp (_cache_notify_waiting_tid_locked (key_of q)) c Q E.
Proof.
  intros Hv HQ. unfold _cache_notify_waiting_tid_locked. apply wp_updS. apply HQ. cbn [hash key_of].
  rewrite <- (cv_pending _ _ Hv). by apply cache_view_pending.
Qed.

(** ** Keys *)

(** A query with nothing behind its records. *)
Definition exact_query (q : list Z) : Prop :=
  query_good q /\ exists m, times (qr_at q (zlen q)) (u16_at q 4) 12 m /\ times (record_at q (zlen q)) (u16_at q 10) m (zlen q).

(** The same octets but for the id and the flag TC. *)
Definition same_but_id (q1 q2 : list Z) : Prop :=
  zlen q1 = zlen q2 /\ Z.land (byte_at q1 2) 1 = Z.land (byte_at q2 2) 1 /\ zdrop 3 q1 = zdrop 3 q2.

Lemma u16_bytes b1 b2 n : bytes b1 -> bytes b2 -> u16_at b1 n = u16_at b2 n -> byte_at b1 n = byte_at b2 n /\ byte_at b1 (n + 1) = byte_at b2 (n + 1).
Proof.
  intros H1 H2. unfold u16_at. pose proof (byte_at_range b1 H1 n). pose proof (byte_at_range b1 H1 (n + 1)).
  pose proof (byte_at_range b2 H2 n). pose proof (byte_at_range b2 H2 (n + 1)). unfold is_byte in *. lia.
Qed.

Lemma same_but_id_agree q1 q2 : same_but_id q1 q2 -> agree q1 q2 3 (zlen q1).
Proof.
  intros (_ & _ & Hd) i Hi. replace i with (3 + (i - 3)) by lia. rewrite <- !znth_zdrop by lia. by rewrite Hd.
Qed.

Lemma matches_same_but_id q1 q2 : exact_query q1 -> query_good q2 -> matches q1 q2 <-> same_but_id q1 q2.
Proof.
  intros [(Hb1 & Hok1 & Hadd1) (m & Hm & He)] (Hb2 & Hok2 & _). pose proof (ok_header _ _ Hok1) as H12. split.
  - intros (Hl & _ & [[Hf Hf'] [Hc Hc'] (m' & r & Hm' & Hr & Ha)]). split_and!; [done|done|].
    assert (m' = m) as -> by (eapply times_fun; [apply (qr_fun q1 (zlen q1))|done|done]).
    assert (r = zlen q1) as -> by (eapply times_fun; [apply (record_fun q1 (zlen q1))|done|done]).
    destruct (ok_counts _ _ Hok1) as (_ & C6 & C8 & _). destruct (ok_counts _ _ Hok2) as (_ & D6 & D8 & _).
    assert (Hby : forall i, 3 <= i < 12 -> byte_at q1 i = byte_at q2 i).
    { intros i Hi. destruct (u16_bytes q1 q2 4 Hb1 Hb2 Hc). destruct (u16_bytes q1 q2 6 Hb1 Hb2 ltac:(congruence)).
      destruct (u16_bytes q1 q2 8 Hb1 Hb2 ltac:(congruence)). destruct (u16_bytes q1 q2 10 Hb1 Hb2 Hc').
      assert (i = 3 \/ i = 4 \/ i = 5 \/ i = 6 \/ i = 7 \/ i = 8 \/ i = 9 \/ i = 10 \/ i = 11) as [->|[->|[->|[->|[->|[->|[->|[->| ->]]]]]]]] by lia; done. }
    apply znth_ext. intros i Hi. rewrite !znth_zdrop by lia. destruct (Z.lt_ge_cases (3 + i) 12) as [Hlt|Hge].
    + specialize (Hby (3 + i) ltac:(lia)). destruct (znth_lt q1 (3 + i)) as [x Hx]; [lia|]. destruct (znth_lt q2 (3 + i)) as [y Hy]; [lia|].
      unfold byte_at in Hby. rewrite Hx, Hy in Hby. cbn in Hby. congruence.
    + destruct (Z.lt_ge_cases (3 + i) (zlen q1)); [apply Ha; lia|]. rewrite !znth_None by lia. done.
  - intros Hs. pose proof (same_but_id_agree _ _ Hs) as Ha. destruct Hs as (Hl & Hf & Hd). split_and!; [done| |].
    + unfold qhash, query_hash. by rewrite Hf, Hd, Hl.
    + assert (Hby : forall i, 3 <= i < zlen q1 -> byte_at q1 i = byte_at q2 i) by (intros i Hi; unfold byte_at; by rewrite Ha).
      split; [split; [done|apply Hby; lia]|split; apply u16_agree; eapply agree_sub; try exact Ha; lia|].
      exists m, (zlen q1). split_and!; [done|done|]. eapply agree_sub; [exact Ha|lia|lia].
Qed.


(** ** Looking up *)

Section interface.
Context `{Hok : SystemOk}.

Lemma wp_resolv_cache_lookup s m id q buf asize len :
  net_rep s m -> unlocked s -> query_arg q -> 0 <= asize <= zlen buf ->
  wp (_resolv_cache_lookup id q (zlen q) buf asize len) s
     (fun r s' => unlocked s' /\
        (~ query_ok q (zlen q) -> r = (RESOLV_CACHE_UNSUPPORTED, buf, len) /\ s' = s) /\
        (query_ok q (zlen q) -> exists m', net_rep s' m' /\ net_looked_up id q asize buf len m r m'))
     (fun _ _ => False).
Proof.
  intros Hr Hlk Hq Hsz. pose proof Hq as (Hb & H3 & _). unfold _resolv_cache_lookup. wp_step.
  apply wp_entry_init_key; [done|done|]. intros ok e Hokq. destruct ok; cbn [negb].
  - assert (Hqok : query_ok q (zlen q)) by by apply Hokq. pose proof (query_arg_good _ Hq Hqok) as Hg.
    wp_step. eapply wp_once_init; [exact Hr|exact Hlk|]. intros s1 Hr1 Hlk1 _. eapply wp_locked; [exact Hr1|exact Hlk1|].
    intros s2 Hr2 Hlk2 _. wp_step. eapply (wp_lookup_locked s2 m id q); [done|done|done|done|].
    intros r m' s3 Hr3 _ Hres. wp_step. eapply wp_net_unlock; [exact Hr3|]. intros s4 Hr4 Hlk4. wp_step.
    split_and!; [done|done|]. intros _. by exists m'.
  - wp_step. split; [done|]. split; [done|]. intros Hqok. apply Hokq in Hqok. done.
Qed.


(** ** Adding *)

(** An answer is added to the network [id], and the request is not pending any more. *)
Definition net_added (id : Z) (q a : list Z) (alen : Z) (m m' : gmap Z view) : Prop :=
  match m !! id with
  | None => m' = m
  | Some v => exists v', added q a alen v v' /\ zlen (items v') <= CONFIG_MAX_ENTRIES /\
                m' = <[id := with_pending (unpend (qhash q) (pending v')) v']> m
  end.

Lemma wp_resolv_cache_add s m id q a alen :
  net_rep s m -> unlocked s -> query_arg q -> bytes a -> readable a alen -> 0 <= alen ->
  (forall v, m !! id = Some v -> lastid v + 1 < 2 ^ 31) ->
  wp (_resolv_cache_add id q (zlen q) a alen) s
     (fun _ s' => unlocked s' /\
        (~ query_ok q (zlen q) -> s' = s) /\
        (query_ok q (zlen q) -> exists m', net_rep s' m' /\ net_added id q a alen m m'))
     (fun _ _ => False).
Proof.
  intros Hr Hlk Hq Ha Hra Hal Hid. pose proof Hq as (Hb & H3 & _). unfold _resolv_cache_add. wp_step.
  apply wp_entry_init_key; [done|done|]. intros ok e Hokq. destruct ok; cbn [negb].
  2: { wp_step. split; [done|]. split; [done|]. intros Hqok. by apply Hokq in Hqok. }
  assert (Hqok : query_ok q (zlen q)) by by apply Hokq. pose proof (query_arg_good _ Hq Hqok) as Hg.
  eapply wp_locked; [exact Hr|exact Hlk|]. intros s1 Hr1 Hlk1 _. wp_step.
  assert (Hend : forall s2 m', net_rep s2 m' ->
    net_added id q a alen m m' -> wp pthread_mutex_unlock s2 (fun _ s' => unlocked s' /\ (~ query_ok q (zlen q) -> s' = s) /\
        (query_ok q (zlen q) -> exists m', net_rep s' m' /\ net_added id q a alen m m')) (fun _ _ => False)).
  { intros s2 m' Hr2 Hm'. eapply wp_net_unlock; [exact Hr2|]. intros s3 Hr3 Hlk3. split_and!; [done|done|]. intros _. by exists m'. }
  apply wp_find_named with (m := m); [done| |].
  - intros Hn. wp_step. wp_step. eapply Hend; [exact Hr1|]. unfold net_added. by rewrite Hn.
  - intros i info c v Hat. pose proof (at_key _ _ _ _ _ _ _ Hat) as Hkey. rewrite <- (put_start s1 m id i info c v Hat).
    wp_step. wp_step. eapply (wp_add_locked s1 m id i info c v Hat q Hg); [exact (at_view _ _ _ _ _ _ _ Hat)|by apply Hid|done|done|done|].
    intros c' n' v' Hadd Hv'. apply (wp_on_cache s1 m id i info c v Hat). eapply wp_notify; [exact Hv'|]. intros c2 Hv2.
    eapply Hend; [apply (net_put s1 m id i info c v Hat c2 (with_pending (unpend (qhash q) (pending v')) v') n'); [exact (added_revision _ _ _ _ _ Hadd)|exact Hv2]|].
    unfold net_added. rewrite Hkey. exists v'. split_and!; [done|exact (cv_bound _ _ Hv')|done].
Qed.

End interface.

(** ** Giving up *)

(** A function that unlocks the mutex at the end. *)
Lemma wp_unlock_rep s m (P : gmap Z view -> Prop) E :
  net_rep s m -> P m -> wp pthread_mutex_unlock s (fun _ s' => unlocked s' /\ exists m', net_rep s' m' /\ P m') E.
Proof. intros Hr HP. eapply wp_net_unlock; [exact Hr|]. intros s' Hr' Hlk. split; [done|]. by exists m. Qed.

Lemma resolv_cache_query_failed_correct s m id q :
  net_rep s m -> unlocked s -> query_arg q ->
  wp (_resolv_cache_query_failed id q (zlen q)) s
     (fun _ s' => unlocked s' /\ exists m', net_rep s' m' /\
        (m' = m \/ exists v, m !! id = Some v /\ m' = <[id := with_pending (unpend (qhash q) (pending v)) v]> m)) (fun _ _ => False).
Proof.
  intros Hr Hlk Hq. pose proof Hq as (Hb & H3 & _). unfold _resolv_cache_query_failed. wp_step.
  apply wp_entry_init_key; [done|done|]. intros ok e _. destruct ok; cbn [negb].
  2: { wp_step. split; [done|]. exists m. split; [done|by left]. }
  eapply wp_locked; [exact Hr|exact Hlk|]. intros s1 Hr1 _ _. wp_step. apply wp_find_named with (m := m); [done| |].
  - intros Hn. wp_step. wp_step. apply (wp_unlock_rep s1 m); [done|by left].
  - intros i info c v Hat. rewrite <- (put_start s1 m id i info c v Hat). wp_step.
    apply (wp_on_cache s1 m id i info c v Hat). eapply wp_notify; [exact (at_view _ _ _ _ _ _ _ Hat)|]. intros c2 Hv2.
    eapply wp_unlock_rep; [by apply (net_put s1 m id i info c v Hat c2 (with_pending (unpend (qhash q) (pending v)) v))|].
    right. exists v. split; [exact (at_key _ _ _ _ _ _ _ Hat)|done].
Qed.

(** ** Statistics *)

Definition with_stats (l : list __res_stats) (info : resolv_cache_info) : resolv_cache_info := info{{ nsstats := l }}.

Definition cleared (st : __res_stats) : __res_stats := Stats (samples st) 0 0.

Lemma with_stats_servers info l ns ads : info_servers info ns ads -> zlen l = MAXNS -> Forall stats_fit l ->
  info_servers (with_stats l info) ns ads.
Proof. destruct info. intros [] ? ?. by constructor. Qed.

(** The statistics with one of them cleared. *)
Lemma stats_cleared l j st : zlen l = MAXNS -> Forall stats_fit l -> znth l j = Some st ->
  zlen (zupd l j (cleared st)) = MAXNS /\ Forall stats_fit (zupd l j (cleared st)).
Proof.
  intros Hl Hall Hst. split; [by rewrite zlen_zupd|]. unfold zupd, znth in *. destruct (j <? 0); [done|].
  apply Forall_insert; [done|]. rewrite Forall_forall in Hall. destruct (Hall st) as [? _]; [by eapply list_elem_of_lookup_2|]. by repeat split.
Qed.

(** All the loop of [_res_cache_clear_stats_locked] does. *)
Lemma wp_clear_stats info st (Q : unit -> resolv_cache_info -> Prop) E :
  znth (nsstats info) 0 = Some st -> Q tt (with_stats (zupd (nsstats info) 0 (cleared st)) info) ->
  wp _res_cache_clear_stats_locked info Q E.
Proof.
  intros Hst HQ. assert (Hstep : forall j i1 l st1 (Q : step Z unit -> resolv_cache_info -> Prop) E, j < MAXNS -> i1 = with_stats l info ->
    znth l 0 = Some st1 -> cleared st1 = cleared st -> Q (Next (j + 1)) (with_stats (zupd l 0 (cleared st)) info) -> wp (clear_stats_step j) i1 Q E).
  { intros j i1 l st1 Q1 E1 Hj -> Hl Hc H1. unfold clear_stats_step. rewrite (proj2 (Z.ltb_lt _ _)) by done. cbn [negb]. wp_step.
    apply wp_zoom. eapply wp_on_elem; [destruct info; exact Hl|]. apply wp_updS. wp_step. rewrite <- Hc in H1. destruct info, st1. exact H1. }
  unfold _res_cache_clear_stats_locked. pose proof (znth_Some _ _ _ Hst) as H0. change (Z.to_nat MAXNS + 1)%nat with 5%nat.
  assert (Hz : znth (zupd (nsstats info) 0 (cleared st)) 0 = Some (cleared st)) by by apply znth_zupd_eq.
  apply wp_loop_S. eapply (Hstep 0 _ (nsstats info)); [done|by destruct info|exact Hst|done|].
  do 3 (apply wp_loop_S; eapply (Hstep _ _ (zupd (nsstats info) 0 (cleared st))); [done|done|exact Hz|done|]; rewrite zupd_zupd).
  apply wp_loop_S. unfold clear_stats_step. cbn [negb Z.ltb Z.compare Z.add]. by wp_step.
Qed.

Section on_info.
Context (s : resolver) (m : gmap Z view) (id i : Z) (info : resolv_cache_info) (c : Cache) (v : view).
Context (Hat : at_net s m id i info c v).

Lemma wp_on_info {A} (mm : M resolv_cache_info A) (Q : A -> resolver -> Prop) E :
  wp mm info (fun a info' => Q a (put_info i info' (ticks s) s)) (fun e info' => E e (put_info i info' (ticks s) s)) ->
  wp (on_info i mm) s Q E.
Proof.
  intros Hm. unfold on_info, on_list. apply wp_zoom. eapply wp_on_elem; [exact (at_info _ _ _ _ _ _ _ Hat)|].
  eapply wp_mono; [exact Hm|by destruct s|by destruct s].
Qed.

Lemma at_shape : info_shape info.
Proof. by destruct (net_infos _ _ (at_rep _ _ _ _ _ _ _ Hat) _ _ (at_info _ _ _ _ _ _ _ Hat)). Qed.

Lemma wp_clear_at (Q : unit -> resolver -> Prop) E :
  (forall s', net_rep s' m -> Q tt s') -> wp (on_info i _res_cache_clear_stats_locked) s Q E.
Proof.
  intros HQ. destruct at_shape as (ns & ads & Hs). pose proof (is_stats _ _ _ Hs) as [Hl Hall].
  destruct (znth_lt (nsstats info) 0) as [st Hst]; [by rewrite Hl|]. apply wp_on_info. eapply wp_clear_stats; [exact Hst|].
  set (info' := with_stats _ info). apply HQ.
  assert (Hs' : info_shape info') by (exists ns, ads; by apply with_stats_servers; [|apply stats_cleared..]).
  destruct (net_put_info s m id i info c v info' c v (ticks s) Hat) as [Hn _]; try done.
  - unfold info'. rewrite <- (at_id _ _ _ _ _ _ _ Hat). by destruct info.
  - unfold info'. rewrite <- (at_cache _ _ _ _ _ _ _ Hat). by destruct info.
  - unfold info'. rewrite <- (at_rev _ _ _ _ _ _ _ Hat). by destruct info.
  - exact (at_view _ _ _ _ _ _ _ Hat).
  - by rewrite insert_id in Hn by exact (at_key _ _ _ _ _ _ _ Hat).
Qed.
End on_info.

(** ** Flushing *)

Definition empty_view (rev : Z) : view := View [] [] 0 rev.

Lemma flush_view c v (Q : unit -> Cache -> Prop) E :
  cache_view c v -> (forall c', cache_view c' (empty_view (revision v)) -> Q tt c') -> wp _cache_flush_locked c Q E.
Proof.
  intros Hv HQ. eapply wp_flush_locked; [exact (cv_rep _ _ Hv)|]. intros c' Hr Hm Hp Hid. apply HQ. constructor; try done.
  by rewrite Hm, (cv_max _ _ Hv).
Qed.

Lemma resolv_flush_cache_correct s m id :
  net_rep s m -> unlocked s ->
  wp (_resolv_flush_cache_for_net id) s
     (fun _ s' => unlocked s' /\ exists m', net_rep s' m' /\ m' = alter (fun v => empty_view (revision v)) id m) (fun _ _ => False).
Proof.
  intros Hr Hlk. unfold _resolv_flush_cache_for_net, _flush_cache_for_net_locked. wp_step. eapply wp_once_init; [exact Hr|exact Hlk|].
  intros s1 Hr1 Hlk1 _. eapply wp_locked; [exact Hr1|exact Hlk1|]. intros s2 Hr2 _ _. wp_step. wp_step.
  apply wp_find_named with (m := m); [done| |].
  - intros Hn. wp_step. wp_step. unfold _find_cache_info_locked. wp_step. wp_step. apply wp_getS. wp_step. rewrite (net_none _ _ _ Hr2 Hn).
    wp_step. eapply wp_unlock_rep; [exact Hr2|]. symmetry. apply alter_id. intros x Hx. congruence.
  - intros i info c v Hat. rewrite <- (put_start s2 m id i info c v Hat). wp_step. apply (wp_on_cache s2 m id i info c v Hat).
    eapply flush_view; [exact (at_view _ _ _ _ _ _ _ Hat)|]. intros c' Hv'.
    destruct (net_put s2 m id i info c v Hat c' (empty_view (revision v)) (ticks s2) eq_refl Hv') as [Hr3 Hf3].
    set (s3 := put s2 i info c' (ticks s2)) in *. wp_step. unfold _find_cache_info_locked. wp_step. apply wp_getS. wp_step. rewrite Hf3.
    destruct (net_at s3 _ id (empty_view (revision v)) Hr3) as (i' & info' & c3 & Hat3); [apply lookup_insert_eq|].
    pose proof (at_find _ _ _ _ _ _ _ Hat3) as Hf3'. assert (i' = i) as -> by congruence. eapply wp_clear_at; [exact Hat3|].
    intros s4 Hr4. eapply wp_unlock_rep; [exact Hr4|]. apply map_eq. intros id1. destruct (decide (id1 = id)) as [->|].
    + rewrite lookup_insert_eq, lookup_alter_eq, (at_key _ _ _ _ _ _ _ Hat). done.
    + by rewrite lookup_insert_ne, lookup_alter_ne.
Qed.

(** ** Freeing the name servers *)

(** The first [n] pointers are NULL. *)
Definition nulled {A} (n : nat) (l : list (option A)) : list (option A) := replicate n None ++ drop n l.

Lemma nulled_S {A} n (l : list (option A)) : (n < length l)%nat -> <[n := None]> (nulled n l) = nulled (S n) l.
Proof.
  intros Hn. destruct (lookup_lt_is_Some_2 l n Hn) as [x Hx]. unfold nulled. rewrite (drop_S _ _ _ Hx).
  rewrite insert_app_r_alt by (rewrite length_replicate; lia). rewrite length_replicate, Nat.sub_diag. cbn [list_insert insert].
  change (S n) with (1 + n)%nat. rewrite Nat.add_comm, replicate_add, <- app_assoc. done.
Qed.

Lemma nulled_padded {A} (l : list A) : zlen l <= MAXNS -> nulled (length l) (padded l) = padded [].
Proof.
  intros Hl. unfold nulled, padded, zlen, MAXNS in *. rewrite drop_app_length' by (by rewrite length_fmap). cbn [fmap list_fmap app length].
  rewrite <- replicate_add. f_equal. lia.
Qed.

(** Everything but the name servers and their statistics. *)
Definition same_rest (info info' : resolv_cache_info) : Prop :=
  netid info' = netid info /\ cache info' = cache info /\ params info' = params info /\ defdname info' = defdname info /\
  dnsrch_offset info' = dnsrch_offset info.

Record freeing (info : resolv_cache_info) (i : Z) (info' : resolv_cache_info) : Prop := Freeing {
  fr_rest : same_rest info info' /\ nscount info' = nscount info /\ revision_id info' = revision_id info;
  fr_names : nameservers info' = nulled (Z.to_nat i) (nameservers info);
  fr_addrs : nsaddrinfo info' = nulled (Z.to_nat i) (nsaddrinfo info);
  fr_stats : zlen (nsstats info') = MAXNS /\ Forall stats_fit (nsstats info') }.

Lemma zlen_nulled {A} i (l : list (option A)) : 0 <= i <= zlen l -> zlen (nulled (Z.to_nat i) l) = zlen l.
Proof. intros Hi. unfold nulled, zlen in *. rewrite length_app, length_replicate, length_drop. lia. Qed.

Lemma zupd_nulled {A} i (l : list (option A)) : 0 <= i < zlen l -> zupd (nulled (Z.to_nat i) l) i None = nulled (Z.to_nat (i + 1)) l.
Proof.
  intros Hi. unfold zupd. rewrite (proj2 (Z.ltb_ge i 0)) by lia. rewrite nulled_S by (unfold zlen in Hi; lia). f_equal. lia.
Qed.

Lemma wp_free_step info ns ads i info1 (Q : step Z unit -> resolv_cache_info -> Prop) E :
  info_servers info ns ads -> 0 <= i < nscount info -> freeing info i info1 ->
  (forall info2, freeing info (i + 1) info2 -> Q (Next (i + 1)) info2) -> wp (free_nameservers_step i) info1 Q E.
Proof.
  intros [(Hc & Hca & Hcm) [Hn _] [Ha _] _ _] Hi [(Hrest & Hcount & Hrev) Hnames Haddrs [Hsl Hsall]] HQ. unfold free_nameservers_step.
  wp_step. apply wp_getS. rewrite Hcount, (proj2 (Z.ltb_lt _ _)) by lia. cbn [negb].
  assert (Hln : zlen (nameservers info) = MAXNS) by (rewrite Hn; apply zlen_padded; lia).
  assert (Hla : zlen (nsaddrinfo info) = MAXNS) by (rewrite Ha; apply zlen_padded; lia).
  destruct (znth_lt (nsstats info1) i) as [st Hst]; [lia|]. destruct info1 as [id1 c1 n1 nm1 na1 rv1 pr1 ss1 df1 off1]. cbn in * |-.
  wp_step. apply wp_zoom. apply wp_wr; [cbn; rewrite Hnames, zlen_nulled; lia|]. wp_step. apply wp_zoom.
  apply wp_wr; [cbn; rewrite Haddrs, zlen_nulled; lia|]. wp_step. apply wp_zoom. eapply wp_on_elem; [exact Hst|]. apply wp_updS. wp_step.
  apply HQ. constructor; [by split_and!| | |].
  - cbn. rewrite Hnames. apply zupd_nulled. lia.
  - cbn. rewrite Haddrs. apply zupd_nulled. lia.
  - destruct st. exact (stats_cleared ss1 i _ Hsl Hsall Hst).
Qed.

Lemma wp_free_nameservers info ns ads (Q : unit -> resolv_cache_info -> Prop) E :
  info_servers info ns ads -> revision_id info + 1 < 2 ^ 31 ->
  (forall info', info_servers info' [] [] -> same_rest info info' -> revision_id info' = revision_id info + 1 -> Q tt info') ->
  wp _free_nameservers_locked info Q E.
Proof.
  intros Hs Hrev HQ. pose proof Hs as [(Hc & Hca & Hcm) [Hn _] [Ha _] Hst (Hd & Ho & Hws)]. pose proof (zlen_nonneg ns). unfold _free_nameservers_locked.
  wp_step. apply wp_getS. wp_step.
  apply (wp_loop (fun i info1 => 0 <= i <= nscount info /\ freeing info i info1) (fun i _ => Z.to_nat (nscount info - i))).
  { split; [lia|]. constructor; [done|done|done|done]. }
  { lia. }
  intros i info1 [Hi Hf]. destruct (decide (i = nscount info)) as [->|Hne].
  - unfold free_nameservers_step. wp_step. apply wp_getS. destruct Hf as [(Hrest & Hcount & Hrv) Hnames Haddrs [Hsl Hsall]].
    rewrite Hcount, Z.ltb_irrefl. cbn [negb]. wp_step. wp_step. apply wp_updS. wp_step.
    destruct (znth_lt (nsstats info1) 0) as [st0 Hst0]; [by rewrite Hsl|].
    eapply (wp_clear_stats _ st0); [by destruct info1|]. unfold bump_revision. wp_step. apply wp_getS. wp_step.
    destruct info1 as [id1 c1 n1 nm1 na1 rv1 pr1 ss1 df1 off1]. destruct Hrest as (R1 & R2 & R3 & R4 & R5). cbn in * |-.
    apply wp_require; [apply Z.ltb_lt; change (rv1 + 1 < 2 ^ 31); lia|]. apply wp_updS. apply HQ.
    + constructor; cbn; unfold constant.
      * done.
      * split; [|done]. rewrite Hnames, Hn, Hc. unfold zlen at 1. rewrite Nat2Z.id. by apply nulled_padded.
      * split; [|done]. rewrite Haddrs, Ha, Hc, <- Hca. unfold zlen at 1. rewrite Nat2Z.id. apply nulled_padded. lia.
      * by apply stats_cleared.
      * rewrite R4, R5. split; [done|]. split; [done|]. destruct Hws as (ws & Hws). exists ws. unfold has_domains, domains_ok in *. cbn. subst. exact Hws.
    + done.
    + cbn. unfold constant. lia.
  - eapply wp_free_step; [exact Hs|lia|exact Hf|]. intros info2 Hf2. split; [split; [lia|exact Hf2]|lia].
Qed.

(** ** Deleting and creating *)

Lemma netid_delete l i info : znth l i = Some info -> netid <$> delete (Z.to_nat i) l = delete (Z.to_nat i) (netid <$> l).
Proof. intros _. by rewrite !delete_take_drop, fmap_app, fmap_take, fmap_drop. Qed.

Lemma znth_lookup {A} (l : list A) i x : znth l i = Some x -> l !! Z.to_nat i = Some x.
Proof. unfold znth. by destruct (i <? 0). Qed.

Lemma lookup_znth {A} (l : list A) (n : nat) : znth l (Z.of_nat n) = l !! n.
Proof. unfold znth. rewrite (proj2 (Z.ltb_ge _ 0)) by lia. by rewrite Nat2Z.id. Qed.

Lemma net_delete s m id i info c v s' : at_net s m id i info c v ->
  s' = Resolver (delete (Z.to_nat i) (_res_cache_list s)) (_res_cache_list_lock s) (_res_cache_once s) (ticks s) ->
  net_rep s' (delete id m).
Proof.
  intros [Hr Hf Hi Hid Hc Hk Hrv Hv] ->. pose proof (znth_lookup _ _ _ Hi) as Hi'. pose proof (net_names _ _ Hr) as Hnd.
  assert (Hp : netid <$> _res_cache_list s ≡ₚ id :: (netid <$> delete (Z.to_nat i) (_res_cache_list s))).
  { rewrite (delete_Permutation _ _ _ Hi') at 1. cbn. by rewrite Hid. }
  assert (Hnd' := Hnd). rewrite Hp in Hnd'. apply NoDup_cons in Hnd' as [Hout Hnd'].
  constructor; cbn [_res_cache_list _res_cache_once].
  - done.
  - intros id1. destruct (decide (id1 = id)) as [->|Hne].
    + rewrite lookup_delete_eq. split; [by intros [? ?]|done].
    + rewrite lookup_delete_ne, (net_keys _ _ Hr), Hp by done. set_solver.
  - intros j info1 Hj%znth_lookup. assert (Hin : info1 ∈ delete (Z.to_nat i) (_res_cache_list s)) by (by eapply list_elem_of_lookup_2).
    assert (Hin' : info1 ∈ _res_cache_list s) by (rewrite (delete_Permutation _ _ _ Hi'); by right).
    apply list_elem_of_lookup in Hin' as [j1 Hj1]. rewrite <- lookup_znth in Hj1.
    destruct (net_infos _ _ Hr _ _ Hj1) as (Hs1 & c1 & v1 & Hc1 & Hv1 & Hrv1 & Hcv1). split; [done|]. exists c1, v1.
    rewrite lookup_delete_ne; [done|]. intros ->. apply Hout. apply list_elem_of_fmap. by exists info1.
  - intros Ho. rewrite (net_once _ _ Hr Ho) in Hi'. by rewrite lookup_nil in Hi'.
Qed.

Lemma resolv_delete_cache_correct s m id :
  net_rep s m -> unlocked s -> (forall v, m !! id = Some v -> revision v + 1 < 2 ^ 31) ->
  wp (_resolv_delete_cache_for_net id) s (fun _ s' => unlocked s' /\ exists m', net_rep s' m' /\ m' = delete id m) (fun _ _ => False).
Proof.
  intros Hr Hlk Hrev. unfold _resolv_delete_cache_for_net. wp_step. eapply wp_once_init; [exact Hr|exact Hlk|].
  intros s1 Hr1 Hlk1 _. eapply wp_locked; [exact Hr1|exact Hlk1|]. intros s2 Hr2 _ _. wp_step. unfold _find_cache_info_locked.
  wp_step. apply wp_getS. wp_step. wp_step. destruct (m !! id) as [v|] eqn:Hv.
  - destruct (net_at _ _ _ _ Hr2 Hv) as (i & info & c & Hat). rewrite (at_find _ _ _ _ _ _ _ Hat). wp_step.
    eapply wp_on_info; [exact Hat|]. apply wp_getS. unfold put_info. rewrite zupd_same by exact (at_info _ _ _ _ _ _ _ Hat).
    wp_step. unfold on_list. apply wp_zoom, wp_updS. wp_step. apply wp_on_local. wp_step.
    unfold info_cache. wp_step. apply wp_getS. rewrite (at_cache _ _ _ _ _ _ _ Hat). apply wp_zoom.
    eapply flush_view; [exact (at_view _ _ _ _ _ _ _ Hat)|]. intros c' _.
    destruct (at_shape _ _ _ _ _ _ _ Hat) as (ns & ads & Hs).
    assert (Hs' : info_servers (with_cache c' info) ns ads) by (destruct Hs; by constructor).
    change (info{{ cache := Some c' }}) with (with_cache c' info).
    eapply wp_free_nameservers; [exact Hs'|change (revision_id info + 1 < 2 ^ 31); rewrite (at_rev _ _ _ _ _ _ _ Hat); by apply Hrev|].
    intros info' _ _ _. wp_step. eapply wp_unlock_rep; [|done]. eapply net_delete; [exact Hat|]. by destruct s2.
  - rewrite (net_none _ _ _ Hr2 Hv). wp_step. eapply wp_unlock_rep; [exact Hr2|]. by rewrite delete_id.
Qed.

Lemma find_info_snoc id l info : find_info id l = None -> netid info = id -> find_info id (l ++ [info]) = Some (zlen l).
Proof.
  intros Hn Hid. induction l as [|x l IH]; cbn [find_info app] in *.
  - by rewrite Hid, Z.eqb_refl.
  - destruct (netid x =? id); [done|]. destruct (find_info id l); [done|]. rewrite IH by done. cbn. by rewrite zlen_cons.
Qed.

Lemma net_append s m id info c v :
  net_rep s m -> m !! id = None -> _res_cache_once s = true -> netid info = id -> cache info = Some c -> revision_id info = revision v ->
  cache_view c v -> info_shape info ->
  net_rep (Resolver (_res_cache_list s ++ [info]) (_res_cache_list_lock s) (_res_cache_once s) (ticks s)) (<[id := v]> m).
Proof.
  intros Hr Hm Ho Hid Hc Hrv Hv Hs. pose proof (net_none _ _ _ Hr Hm) as Hn%find_info_None.
  constructor; cbn [_res_cache_list _res_cache_once].
  - rewrite fmap_app. apply NoDup_app. split_and!; [apply (net_names _ _ Hr)| |apply NoDup_singleton].
    intros id1 Hin. cbn. rewrite list_elem_of_singleton. intros ->. by rewrite Hid in Hin.
  - intros id1. rewrite fmap_app, elem_of_app, <- (net_keys _ _ Hr). cbn. rewrite list_elem_of_singleton, Hid.
    destruct (decide (id1 = id)) as [->|Hne]; [rewrite lookup_insert_eq; split; [by right|by eexists]|].
    rewrite lookup_insert_ne by done. naive_solver.
  - intros j info1 Hj%znth_lookup. apply lookup_app_Some in Hj as [Hj|[_ Hj]].
    + rewrite <- lookup_znth in Hj. destruct (net_infos _ _ Hr _ _ Hj) as (Hs1 & c1 & v1 & Hc1 & Hv1 & ?). split; [done|]. exists c1, v1.
      rewrite lookup_insert_ne; [done|]. intros Heq. congruence.
    + apply list_lookup_singleton_Some in Hj as [_ <-]. split; [done|]. exists c, v. rewrite Hid, lookup_insert_eq. done.
  - intros Ho'. congruence.
Qed.

Section create.
Context `{Hok : SystemOk}.

(** The cache of the network, with an empty one if there was none and there is memory. *)
Lemma wp_get_res_cache s m id (Q : option Z -> resolver -> Prop) E :
  net_rep s m -> _res_cache_once s = true ->
  (m !! id = None -> memory s = false -> Q None s) ->
  (forall i s' m' info c v, at_net s' m' id i info c v -> _res_cache_list_lock s' = _res_cache_list_lock s ->
     (m !! id = Some v /\ m' = m) \/ (m !! id = None /\ v = empty_view 0 /\ m' = <[id := v]> m) -> Q (Some i) s') ->
  wp (_get_res_cache_for_net_locked id) s Q E.
Proof.
  intros Hr Ho HN HS. unfold _get_res_cache_for_net_locked. wp_step. apply wp_find_named with (m := m); [done| |].
  - intros Hm. unfold _create_cache_info. wp_step. wp_step. apply wp_getS. wp_step. destruct (memory s) eqn:Hmem; [|wp_step; by apply HN].
    wp_step. apply wp_getS. rewrite Hmem. unfold _insert_cache_info_locked, on_list. wp_step. apply wp_zoom, wp_updS. wp_step.
    rewrite mode_local. destruct (create_rep _ eq_refl) as (Hcr & Hmax & Hid). set (c := _resolv_cache_create _) in *.
    set (info := (Info 0 _ _ _ _ _ _ _ _ _){{ cache := Some c; netid := id }}).
    assert (Hv : cache_view c (empty_view 0)) by (by constructor).
    assert (Hsh : info_shape info).
    { exists [], []. constructor; [done|done|done| |].
      - split; [done|]. by apply Forall_replicate.
      - split; [done|]. split; [done|]. exists []. by right. }
    assert (Hr' := net_append s m id info c (empty_view 0) Hr Hm Ho eq_refl eq_refl eq_refl Hv Hsh).
    set (s' := Resolver (_res_cache_list s ++ [info]) _ _ _) in Hr'.
    assert (Hf : find_info id (_res_cache_list s') = Some (zlen (_res_cache_list s))).
    { apply find_info_snoc; [by apply (net_none s m)|done]. }
    destruct (net_at s' _ id (empty_view 0) Hr') as (i & info' & c' & Hat); [apply lookup_insert_eq|].
    assert (i = zlen (_res_cache_list s)) as -> by (pose proof (at_find _ _ _ _ _ _ _ Hat); congruence).
    change (Q (Some (zlen (_res_cache_list s))) s'). eapply HS; [exact Hat|done|]. by right.
  - intros i info c v Hat. wp_step. eapply HS; [exact Hat|done|]. left. split; [exact (at_key _ _ _ _ _ _ _ Hat)|done].
Qed.
End create.

(** ** Theorems *)

(** C25: Two queries that pass the check, with complete additional records, are
    the same to the cache - their keys have the same hash and are equal -
    exactly if they have the same length and differ at most in the id and the
    flag TC (for a query without octets behind its records); so the cache
    answers every repetition of a query, and nothing else. *)
Theorem key_comparison_correct {S} q1 q2 (st : S) :
  exact_query q1 -> query_good q2 ->
  wp ('(k1, ok1) ← entry_init_key q1 (zlen q1); '(k2, ok2) ← entry_init_key q2 (zlen q2);
      same ← (if hash k1 =? hash k2 then entry_equals k1 k2 else mret false);
      mret (ok1, ok2, same)) st
     (fun '(ok1, ok2, same) st' => st' = st /\ ok1 = true /\ ok2 = true /\ (same = true <-> same_but_id q1 q2)) (fun _ _ => False).
Proof.
  intros Hex Hg2. pose proof Hex as [Hg1 _]. pose proof (matches_same_but_id _ _ Hex Hg2) as Hm. destruct Hg1 as (Hb1 & Hok1 & Hadd1).
  pose proof Hg2 as (Hb2 & Hok2 & Hadd2). pose proof (ok_header _ _ Hok1). pose proof (ok_header _ _ Hok2).
  wp_step. apply wp_entry_init_key; [done|lia|]. intros ok1 e1 H1. wp_step. apply wp_entry_init_key; [done|lia|]. intros ok2 e2 H2.
  wp_step. apply (wp_conseq _ _ (fun same st' => st' = st /\ (same = true <-> matches q1 q2))).
  - cbn [hash e1 e2]. unfold matches. destruct (Z.eqb_spec (qhash q1) (qhash q2)) as [Heq|Hne].
    + apply wp_entry_equals; [by apply (key_of_ok q1)|by apply (key_of_ok q2)|]. cbn [query e1 e2]. intros r Hr. split; [done|]. rewrite Hr. tauto.
    + wp_step. split; [done|]. split; [done|]. by intros (_ & ? & _).
  - intros same st' [-> Hs]. wp_step. split_and!; [done|by apply H1|by apply H2|]. by rewrite Hs.
Qed.

Section theorems.
Context `{Hok : SystemOk}.


End theorems.

(** ** Examples *)

(** A system with memory, in which a wait ends with the timeout. *)
#[export] Instance simple_system : System := {
  clock n := 1000 + Z.of_nat n `mod` 2 ^ 32;
  memory _ := true;
  new_address h := fresh (dom h);
  dns_mode := Some [108; 111; 99; 97; 108];
  tmp0 := replicate 255 0; local_handle := empty_handle; local_rr := blank_rr;
  cond_timedwait _ := mret tt;
  getaddrinfo name := if decide (name = []) then None else Some (Addrinfo 16 (Some (ztake 16 (name ++ replicate 16 0))) false) }.

#[export] Instance simple_system_ok : SystemOk.
Proof.
  constructor; cbn.
  - intros n. pose proof (Z.mod_pos_bound (Z.of_nat n) (2 ^ 32)). lia.
  - intros h. apply not_elem_of_dom, is_fresh.
  - done.
  - by split_and!.
  - intros n ad Had. destruct (decide (n = [])); [done|]. injection Had as <-. split; [done|]. split; [done|]. eexists. split; [done|].
    cbn [ai_addrlen]. rewrite zlen_ztake; [done|]. unfold zlen. rewrite length_app. cbn [length replicate]. lia.
  - intros ts s m E Hr Hl. apply wp_ret. split; [done|]. by exists m.
Qed.

(** No network; then a cache for the network 7. *)
Definition no_caches : resolver := Resolver [] false true 0.
Definition one_cache : resolver := snd (_get_res_cache_for_net_locked 7 no_caches).

Lemma no_caches_rep : net_rep no_caches ∅.
Proof.
  constructor; cbn; [apply NoDup_nil_2| |intros i info Hi|done].
  - intros id. rewrite lookup_empty. split; [by intros [? ?]|by intros ?%not_elem_of_nil].
  - by apply znth_Some in Hi as [? ?%Z.lt_nge].
Qed.

Lemma wp_snd {S A} (m : M S A) s (P : S -> Prop) : wp m s (fun _ s' => P s') (fun _ _ => False) -> P (snd (m s)).
Proof. unfold wp. by destruct (m s) as [[]?]. Qed.

Lemma one_cache_rep : net_rep one_cache {[7 := empty_view 0]}.
Proof.
  unfold one_cache. apply wp_snd. eapply wp_get_res_cache; [exact no_caches_rep|done|done|].
  intros i s' m' info c v Hat _ [[Hm _]|(_ & -> & ->)]; [done|]. exact (at_rep _ _ _ _ _ _ _ Hat).
Qed.

(** A query for "a." and its answer, [sample_message]. *)
Definition sample_query : list Z := [0x12; 0x34; 1; 0; 0; 1; 0; 0; 0; 0; 0; 0; 1; 97; 0; 0; 1; 0; 1].

(** What is added is found. *)
Lemma add_then_lookup :
  fst ((_resolv_cache_add 7 sample_query 19 sample_message 35;; _resolv_cache_lookup 7 sample_query 19 (replicate 40 0) 40 0) one_cache) =
  Ret (RESOLV_CACHE_FOUND, sample_message ++ replicate 5 0, 35).
Proof. by vm_compute. Qed.

(** The check, run. *)
Lemma query_ok_check q : bytes q -> fst (_dnsPacket_checkQuery (Packet q (zlen q) 0)) = Ret true -> query_ok q (zlen q).
Proof.
  intros Hb Hc. pose proof (wp_checkQuery q (zlen q) Hb (Z.le_refl _) 0 (fun _ _ => False)) as H.
  apply (proj1 (wp_eq _ _ _ _)) in H as [(r & k & Hr & H & _)|(? & ? & _ & [])]. rewrite Hr in Hc. apply H. by injection Hc.
Qed.

Lemma sample_query_ok : query_ok sample_query 19.
Proof. apply (query_ok_check sample_query); [by apply bytes_check|by vm_compute]. Qed.

Lemma no_additional q : u16_at q 10 <= 0 -> additional_ok q (zlen q).
Proof. intros H r _. exists r. by constructor. Qed.

Lemma sample_query_arg : query_arg sample_query.
Proof. split; [by apply bytes_check|]. split; [done|]. intros _. by apply no_additional. Qed.

(** The same query with another id. *)
Definition other_query : list Z := [0x55; 0x55] ++ zdrop 2 sample_query.

Lemma sample_query_exact : exact_query sample_query.
Proof.
  split; [split_and!; [by apply bytes_check|exact sample_query_ok|by apply no_additional]|].
  exists 19. split; [|by apply times_none]. apply (times_more _ _ _ 19); [done| |by apply times_none].
  exists 15. split; [|done]. apply (qname_label _ _ _ 1); [done|done|done|]. by apply qname_root.
Qed.

Lemma key_comparison_correct_witness :
  same_but_id sample_query other_query /\
  wp ('(k1, ok1) ← entry_init_key sample_query 19; '(k2, ok2) ← entry_init_key other_query 19;
      same ← (if hash k1 =? hash k2 then entry_equals k1 k2 else mret false);
      mret (ok1, ok2, same)) tt
     (fun '(ok1, ok2, same) st' => st' = tt /\ ok1 = true /\ ok2 = true /\ (same = true <-> same_but_id sample_query other_query)) (fun _ _ => False).
Proof.
  split; [by vm_compute|]. apply (key_comparison_correct sample_query other_query tt sample_query_exact).
  split_and!; [by apply bytes_check|apply (query_ok_check other_query); [by apply bytes_check|by vm_compute]|by apply no_additional].
Defined.



(** ** What the code does against its comments *)

(** Without ANDROID_DNS_MODE=local the table has no slots, and every look-up divides by zero. *)
Lemma remote_mode_divides_by_zero mode key : mode <> Some [108; 111; 99; 97; 108] ->
  fst (_cache_lookup_p key (_resolv_cache_create mode)) = Undef.
Proof.
  intros Hm. assert (Hn : _res_cache_get_max_entries mode = 0).
  { destruct mode as [t|]; [|done]. cbn. rewrite decide_False by congruence. done. }
  unfold _cache_lookup_p, _resolv_cache_create. rewrite Hn. done.
Qed.

(** A query that announces an additional record and has none: it passes the
    check and is cached, but never found, and added again and again. *)
Definition truncated_query : list Z := [0x12; 0x34; 1; 0; 0; 1; 0; 0; 0; 0; 0; 1; 1; 97; 0; 0; 1; 0; 1].

Lemma truncated_query_twice :
  let add := _resolv_cache_add 7 truncated_query 19 sample_message 35 in
  let s := snd (add (snd (add one_cache))) in
  match _res_cache_list s with
  | [info] => match cache info with Some c => num_entries c = 2 | None => False end
  | _ => False
  end /\
  fst (_resolv_cache_lookup 7 truncated_query 19 (replicate 40 0) 40 0 s) = Ret (RESOLV_CACHE_NOTFOUND, replicate 40 0, 0).
Proof. by vm_compute. Qed.

(** Only the statistics of the first server are cleared. *)
Lemma clear_stats_first_only info st st1 l :
  nsstats info = st :: st1 :: l -> exists info', _res_cache_clear_stats_locked info = (Ret tt, info') /\ nsstats info' = cleared st :: st1 :: l.
Proof.
  intros Hst. assert (Hw : wp _res_cache_clear_stats_locked info (fun _ i' => nsstats i' = cleared st :: st1 :: l) (fun _ _ => False)).
  { eapply (wp_clear_stats info st); [by rewrite Hst|]. destruct info. cbn in *. by subst. }
  apply wp_eq in Hw as [([] & i' & Hr & Hi)|(? & ? & _ & [])]. by exists i'.
Qed.
