(* ===== verification/ResMkquery.v ===== *)
(** * Making queries: [dns/resolv/res_mkquery.c]

    [res_nmkquery] builds a query in a buffer, [res_nopt] appends the EDNS0
    record. The buffer starts at [buf] and is the state; [options] is
    [statp->options] and [id] what [res_randomid] returns. Returning -1 leaves
    [errno] alone where the functions called did not set it: the error 0. The
    theorems compose them with the parser and with the cache. *)
From S2P Require Import Prelude CString NsName NsWire NsText NsNtop NsPton NsPack NsParse NsRecords ResPacket ResTtl ResCache ResCacheRep ResCacheOps ResStats ResNet ResNetRep ResNetSpec.

(** ** Constants: [arpa/nameser.h], [resolv_private.h], [resolv_params.h] *)

Definition HFIXEDSZ : Z := 12.
Definition QFIXEDSZ : Z := 4.
Definition RRFIXEDSZ : Z := 10.
Definition INT16SZ : Z := 2.
Definition INT32SZ : Z := 4.
Definition QUERY : Z := 0.
Definition IQUERY : Z := 1.
Definition NS_NOTIFY_OP : Z := 4.
Definition NOERROR : Z := 0.
Definition T_NULL : Z := 10.
Definition T_OPT : Z := 41.
Definition RES_RECURSE : Z := 0x40.
Definition RES_USE_DNSSEC : Z := 0x200000.
Definition NS_OPT_DNSSEC_OK : Z := 0x8000.
Definition NS_OPT_PADDING : Z := 12.
Definition EDNS0_PADDING : Z := 128.

(** ** The header *)

(** [memset(buf + d, v, n)] *)
Definition memset (d v n : Z) : M (list Z) unit := fun b =>
  if (0 <=? n) && (0 <=? d) && (d + n <=? zlen b)
  then (Ret tt, splice b d (replicate (Z.to_nat n) (u8 v))) else (Undef, b).

(** A bit-field of [HEADER] of [w] bits from bit [sh] of octet [k] on. *)
Definition set_field (k sh w v : Z) : M (list Z) unit :=
  x ← rdS k;
  wr k (Z.lor (Z.ldiff x (Z.shiftl (Z.ones w) sh)) (Z.shiftl (Z.land v (Z.ones w)) sh)).

(** The fields in network order, stored with [htons]. *)
Definition set_count (k v : Z) : M (list Z) unit := put16 v k;; mret tt.

Definition has_option (options bit : Z) : Z := if Z.land options bit =? 0 then 0 else 1.

Definition dn_comp (tmp0 src : list Z) (dst dstsiz : Z) (lastdnptr : option Z) : M packing Z :=
  ns_name_compress tmp0 src dst (u64 dstsiz) true lastdnptr.

(** The header, up to [switch (op)]. *)
Definition mk_header (options id op : Z) : M (list Z) unit :=
  memset 0 0 HFIXEDSZ;;
  set_count 0 id;;
  set_field 2 3 4 op;;
  set_field 2 0 1 (has_option options RES_RECURSE);;
  set_field 3 5 1 (has_option options RES_USE_DNSSEC);;
  set_field 3 0 4 NOERROR.

(** [case QUERY] and [case NS_NOTIFY_OP]. *)
Definition mk_question (tmp0 dname : list Z) (op class typ : Z) (data : option (list Z)) (cp ep : Z)
    (lastdnptr : option Z) : M packing Z :=
  fail_if (ep - cp <? QFIXEDSZ) 0;;
  n ← dn_comp tmp0 dname cp (ep - cp - QFIXEDSZ) lastdnptr;
  let cp := cp + n in
  cp ← on_buf (put16 typ cp);
  cp ← on_buf (put16 class cp);
  on_buf (set_count 4 1);;
  match data with
  | Some data =>
      if op =? QUERY then mret cp
      else
        fail_if (ep - cp <? RRFIXEDSZ) 0;;
        n ← dn_comp tmp0 data cp (ep - cp - RRFIXEDSZ) lastdnptr;
        let cp := cp + n in
        cp ← on_buf (put16 T_NULL cp);
        cp ← on_buf (put16 class cp);
        cp ← on_buf (put32 0 cp);
        cp ← on_buf (put16 0 cp);
        on_buf (set_count 10 1);;
        mret cp
  | None => mret cp
  end.

(** [case IQUERY]; the sum on the right of the comparison is an [int]. *)
Definition mk_iquery (class typ : Z) (data : option (list Z)) (datalen cp ep : Z) : M (list Z) Z :=
  require (1 + RRFIXEDSZ + datalen <? 2 ^ 31);;
  fail_if (ep - cp <? 1 + RRFIXEDSZ + datalen) 0;;
  wr cp 0;;
  let cp := cp + 1 in
  cp ← put16 typ cp;
  cp ← put16 class cp;
  cp ← put32 0 cp;
  cp ← put16 datalen cp;
  cp ← (if negb (datalen =? 0) then
          match data with
          | Some data => memcpy data cp 0 datalen;; mret (cp + datalen)
          | None => undef
          end
        else mret cp);
  set_count 6 1;;
  mret cp.

(** [dnptrs0] is what the array [dnptrs] holds before it is initialised. *)
Definition res_nmkquery (tmp0 : list Z) (dnptrs0 : list (option Z)) (options id op : Z)
    (dname : list Z) (class typ : Z) (data : option (list Z)) (datalen buflen : Z) : M (list Z) Z :=
  fail_if (buflen <? HFIXEDSZ) 0;;
  mk_header options id op;;
  let cp := HFIXEDSZ in
  let ep := buflen in
  zoom (fun b => Packing b dnptrs0) (fun p _ => pk_buf p) (
    on_dnptrs (wr 0 (Some 0);; wr 1 None);;
    let lastdnptr := Some (zlen dnptrs0) in
    if (op =? QUERY) || (op =? NS_NOTIFY_OP) then mk_question tmp0 dname op class typ data cp ep lastdnptr
    else if op =? IQUERY then on_buf (mk_iquery class typ data datalen cp ep)
    else fail 0).

(** ** EDNS0 *)

Definition res_nopt (options n0 buflen anslen : Z) : M (list Z) Z :=
  let cp := n0 in
  let ep := buflen in
  fail_if (ep - cp <? 1 + RRFIXEDSZ) 0;;
  wr cp 0;;
  let cp := cp + 1 in
  cp ← put16 T_OPT cp;
  let anslen := if 0xffff <? anslen then 0xffff else anslen in
  cp ← put16 anslen cp;
  wr cp NOERROR;;
  let cp := cp + 1 in
  wr cp 0;;
  let cp := cp + 1 in
  let flags := if negb (Z.land options RES_USE_DNSSEC =? 0) then NS_OPT_DNSSEC_OK else 0 in
  cp ← put16 flags cp;
  let minlen := u16 (cp + 3 * INT16SZ) in
  let extra := u16 (minlen mod EDNS0_PADDING) in
  let padlen := u16 ((EDNS0_PADDING - extra) mod EDNS0_PADDING) in
  fail_if (buflen <? minlen) 0;;
  let padlen := u16 (Z.min padlen (buflen - minlen)) in
  cp ← put16 (padlen + 2 * INT16SZ) cp;
  cp ← put16 NS_OPT_PADDING cp;
  cp ← put16 padlen cp;
  memset cp 0 padlen;;
  let cp := cp + padlen in
  b ← getS;
  n ← get16 b 10;
  set_count 10 (n + 1);;
  mret cp.

(** ** What is written *)

Definition be16 (v : Z) : list Z := [u8 (Z.shiftr v 8); u8 v].

(** The header of a message with [qd] questions and [ar] additional records. *)
Definition header (options id op qd ar : Z) : list Z :=
  be16 id ++ [op * 8 + has_option options RES_RECURSE; has_option options RES_USE_DNSSEC * 32] ++
  be16 qd ++ [0; 0; 0; 0] ++ be16 ar.

Definition question (ls : list (list Z)) (typ class : Z) : list Z := wire ls ++ be16 typ ++ be16 class.

(** The padding of a message of [minlen] octets in a buffer of [buflen]. *)
Definition padding (minlen buflen : Z) : Z := Z.min ((128 - minlen mod 128) mod 128) (buflen - minlen).

Definition opt_record (options anslen pad : Z) : list Z :=
  0 :: be16 T_OPT ++ be16 (Z.min anslen 0xffff) ++ [0; 0] ++
  be16 (has_option options RES_USE_DNSSEC * 0x8000) ++ be16 (pad + 4) ++ be16 NS_OPT_PADDING ++ be16 pad ++
  replicate (Z.to_nat pad) 0.

Lemma zlen_be16 v : zlen (be16 v) = 2.
Proof. done. Qed.

Lemma zlen_header options id op qd ar : zlen (header options id op qd ar) = 12.
Proof. done. Qed.

Lemma zlen_fill {A} n (x : A) : 0 <= n -> zlen (replicate (Z.to_nat n) x) = n.
Proof. intros. rewrite zlen_replicate. lia. Qed.

Lemma zlen_opt_record options anslen pad : 0 <= pad -> zlen (opt_record options anslen pad) = 15 + pad.
Proof. intros. unfold opt_record. rewrite zlen_cons, !zlen_app, zlen_fill by done. rewrite !zlen_be16. change (zlen [0; 0]) with 2. lia. Qed.

Lemma be16_bytes v : bytes (be16 v).
Proof. unfold be16, u8. repeat constructor; unfold is_byte; apply Z.mod_pos_bound; lia. Qed.

Lemma has_option_01 options bit : has_option options bit = 0 \/ has_option options bit = 1.
Proof. unfold has_option. destruct (_ =? _); auto. Qed.

(** ** The writers on a buffer that is filled from the start *)

Lemma wp_put16_end b w v cp (Q : Z -> list Z -> Prop) E :
  cp = zlen w -> zlen w + 2 <= zlen b -> Q (zlen (w ++ be16 v)) (splice b 0 (w ++ be16 v)) ->
  wp (put16 v cp) (splice b 0 w) Q E.
Proof.
  intros -> Hl HQ. pose proof (zlen_nonneg w). unfold put16.
  wp_step. wp_step; [rewrite zlen_splice; lia|]. rewrite splice_snoc_alt by lia.
  wp_step. wp_step; [rewrite zlen_splice; zlen_simpl; lia|]. rewrite splice_snoc_alt by (zlen_simpl; lia).
  wp_step. rewrite <- app_assoc. rewrite zlen_app in HQ. exact HQ.
Qed.

Lemma wp_wr_end b w v cp (Q : unit -> list Z -> Prop) E :
  cp = zlen w -> zlen w + 1 <= zlen b -> Q tt (splice b 0 (w ++ [v])) -> wp (wr cp v) (splice b 0 w) Q E.
Proof.
  intros -> Hl HQ. pose proof (zlen_nonneg w). wp_step; [rewrite zlen_splice; lia|]. by rewrite splice_snoc_alt by lia.
Qed.

Lemma wp_memset_end b w v n cp (Q : unit -> list Z -> Prop) E :
  cp = zlen w -> 0 <= n -> zlen w + n <= zlen b -> Q tt (splice b 0 (w ++ replicate (Z.to_nat n) (u8 v))) ->
  wp (memset cp v n) (splice b 0 w) Q E.
Proof.
  intros -> Hn Hl HQ. pose proof (zlen_nonneg w). unfold wp, memset. rewrite zlen_splice by lia.
  rewrite (proj2 (Z.leb_le 0 n)), (proj2 (Z.leb_le 0 (zlen w))), (proj2 (Z.leb_le (zlen w + n) _)) by lia.
  cbn [andb]. by rewrite splice_app_alt by (rewrite ?zlen_fill; lia).
Qed.

(** A 16-bit field of what is written already. *)
Lemma zupd_app_shift {A} (u w : list A) i v : zlen u <= i -> zupd (u ++ w) i v = u ++ zupd w (i - zlen u) v.
Proof. intros Hi. apply zupd_app_r; lia. Qed.

Lemma wp_set_count b u x y w v k (Q : unit -> list Z -> Prop) E :
  k = zlen u -> zlen u + 2 + zlen w <= zlen b -> Q tt (splice b 0 (u ++ be16 v ++ w)) ->
  wp (set_count k v) (splice b 0 (u ++ x :: y :: w)) Q E.
Proof.
  intros -> Hl HQ. pose proof (zlen_nonneg u). pose proof (zlen_nonneg w). unfold set_count, put16.
  assert (Hz : zlen (u ++ x :: y :: w) = zlen u + 2 + zlen w) by (zlen_simpl; lia).
  assert (Hz' : zlen (splice b 0 (u ++ x :: y :: w)) = zlen b) by (apply zlen_splice; lia).
  wp_step. wp_step. wp_step; [lia|]. rewrite <- (Z.add_0_l (zlen u)), splice_upd by lia.
  rewrite (zupd_app_shift u), Z.sub_diag by lia. change (zupd (x :: y :: w) 0 ?a) with (a :: y :: w).
  wp_step. wp_step.
  { rewrite zlen_splice by (zlen_simpl; lia). lia. }
  rewrite Z.add_0_l, <- (Z.add_0_l (zlen u + 1)), splice_upd by (zlen_simpl; lia).
  rewrite (zupd_app_shift u), Z.add_simpl_l by lia. change (zupd (?a :: y :: w) 1 ?c) with (a :: c :: w).
  wp_step. wp_step. exact HQ.
Qed.

Lemma wp_set_field b u x w k sh wd v (Q : unit -> list Z -> Prop) E :
  k = zlen u -> zlen u + 1 + zlen w <= zlen b ->
  Q tt (splice b 0 (u ++ Z.lor (Z.ldiff x (Z.shiftl (Z.ones wd) sh)) (Z.shiftl (Z.land v (Z.ones wd)) sh) :: w)) ->
  wp (set_field k sh wd v) (splice b 0 (u ++ x :: w)) Q E.
Proof.
  intros -> Hl HQ. pose proof (zlen_nonneg u). pose proof (zlen_nonneg w). unfold set_field, rdS.
  assert (Hz : zlen (u ++ x :: w) = zlen u + 1 + zlen w) by (zlen_simpl; lia).
  assert (Hr : wp (rd (splice b 0 (u ++ x :: w)) (zlen u)) (splice b 0 (u ++ x :: w))
    (fun y s => y = x /\ s = splice b 0 (u ++ x :: w)) E).
  { apply (wp_rd _ _ _ _ _ x); [|done]. rewrite <- (Z.add_0_l (zlen u)), znth_splice_new by lia. apply znth_middle. }
  wp_step. eapply wp_run; [|eapply wp_conseq; [exact Hr|]]; [done|]. intros ? ? [-> ->].
  wp_step; [rewrite zlen_splice; lia|]. rewrite <- (Z.add_0_l (zlen u)), splice_upd by lia.
  rewrite (zupd_app_shift u), Z.sub_diag by lia. exact HQ.
Qed.

(** The header, for the opcodes that are handled. *)
Lemma wp_mk_header options id op b (Q : unit -> list Z -> Prop) E :
  op ∈ [QUERY; IQUERY; NS_NOTIFY_OP] -> 12 <= zlen b -> Q tt (splice b 0 (header options id op 0 0)) ->
  wp (mk_header options id op) b Q E.
Proof.
  intros Hop Hl HQ. unfold mk_header. wp_step. rewrite <- (splice_nil b 0) at 1.
  apply wp_memset_end; [done|by vm_compute|change (zlen (@nil Z)) with 0; unfold HFIXEDSZ; lia|].
  change ([] ++ replicate (Z.to_nat HFIXEDSZ) (u8 0)) with ([] ++ 0 :: 0 :: replicate 10 0).
  wp_step. apply wp_set_count; [done|change (0 + 2 + 10 <= zlen b); lia|].
  change ([] ++ be16 id ++ replicate 10 0) with (be16 id ++ 0 :: replicate 9 0).
  wp_step. apply wp_set_field; [done|change (2 + 1 + 9 <= zlen b); lia|].
  wp_step. apply wp_set_field; [done|change (2 + 1 + 9 <= zlen b); lia|].
  match goal with |- wp _ (splice b 0 (be16 id ++ ?x :: _)) _ _ => set (o := x) end.
  change (be16 id ++ o :: replicate 9 0) with ((be16 id ++ [o]) ++ 0 :: replicate 8 0).
  wp_step. apply wp_set_field; [done|change (3 + 1 + 8 <= zlen b); lia|].
  apply wp_set_field; [done|change (3 + 1 + 8 <= zlen b); lia|].
  match goal with |- Q tt ?s => replace s with (splice b 0 (header options id op 0 0)); [exact HQ|] end.
  f_equal. unfold header. rewrite <- !app_assoc. cbn [app]. f_equal.
  assert (Hops : op = 0 \/ op = 1 \/ op = 4) by (unfold QUERY, IQUERY, NS_NOTIFY_OP in Hop; set_solver).
  unfold o. destruct (has_option_01 options RES_RECURSE) as [-> | ->], (has_option_01 options RES_USE_DNSSEC) as [-> | ->],
    Hops as [->|[->| ->]]; reflexivity.
Qed.

Lemma header_bytes options id op qd ar : 0 <= op <= 31 -> bytes (header options id op qd ar).
Proof.
  intros Hop. unfold header. repeat (apply Forall_app; split); try apply be16_bytes; [|by apply bytes_check].
  destruct (has_option_01 options RES_RECURSE) as [-> | ->], (has_option_01 options RES_USE_DNSSEC) as [-> | ->];
    repeat constructor; unfold is_byte; lia.
Qed.

Lemma zdrop_splice_end {A} (b w : list A) m : zlen w <= m -> m <= zlen b -> zdrop m (splice b 0 w) = zdrop m b.
Proof.
  intros Hw Hm. pose proof (zlen_nonneg w). rewrite splice_0, zdrop_app_ge, zdrop_zdrop by lia. f_equal. lia.
Qed.

Lemma zlen_question ls typ class : zlen (question ls typ class) = zlen (wire ls) + 4.
Proof. unfold question. rewrite !zlen_app, !zlen_be16. lia. Qed.

Section query.
Context (tmp0 : list Z) (dnptrs0 : list (option Z)) (options id class typ : Z) (dname t : list Z) (ls : list (list Z)) (r : Z).
Context (Ht : bytes t) (Hc : cstr dname 0 t) (Hnb : no_bits t = true) (Hparse : parse t [] = Some (ls, r)).
Context (Hmax : zlen (wire ls) <= NS_MAXCDNAME) (H64 : Forall (fun x => zlen x <= 64) ls).
Context (Htmp : zlen tmp0 = NS_MAXCDNAME) (Hdn : 2 <= zlen dnptrs0).

Lemma dnptrs_init : exists free, zupd (zupd dnptrs0 0 (Some 0)) 1 None = Some 0 :: map Some [] ++ None :: free.
Proof.
  destruct dnptrs0 as [|x [|y free]]; [change (zlen []) with 0 in Hdn; lia|change (zlen [x]) with 1 in Hdn; lia|].
  by exists free.
Qed.

(** The first name of a message is written in full. *)
Lemma wp_dn_comp_first b cp dstsiz last free (Q : Z -> packing -> Prop) E :
  bytes b -> 0 <= cp -> 0 <= dstsiz < 2 ^ 31 -> cp + dstsiz <= zlen b ->
  (forall l, last = Some l -> l <= zlen (Some 0 :: map Some [] ++ None :: free)) ->
  (Forall plain ls -> zlen (wire ls) < dstsiz -> forall d, Q (zlen (wire ls)) (Packing (splice b cp (wire ls)) d)) ->
  (dstsiz <= zlen (wire ls) -> forall e w d, zlen w <= dstsiz -> E e (Packing (splice b cp w) d)) ->
  wp (dn_comp tmp0 dname cp dstsiz last) (Packing b (Some 0 :: map Some [] ++ None :: free)) Q E.
Proof.
  intros Hb Hcp Hsiz Hend Hlast HQ HE. unfold dn_comp. rewrite u64_id by lia.
  eapply (wp_compress _ _ t ls r); try done. intros tail Hls. eapply wp_mono.
  { apply (wp_pack (wire ls ++ tail) tail ls b cp dstsiz eq_refl Hls Hb Hcp ltac:(lia) Hend (Some 0) [] _ last
      ltac:(done) (fun _ => Hlast) true); [done|]. split; [done|]. split; [done|]. by exists free. }
  - intros n [b' d] (ps' & w & Hbuf & Hn & _ & _ & _ & _ & _ & _ & _ & Hw). cbn in Hbuf.
    destruct (Hw (or_intror eq_refl)) as [-> Hlt]. subst. by apply HQ.
  - intros e [b' d] (_ & w & Hbuf & Hw & _ & Hno). cbn in Hbuf. subst. apply HE; [lia|done].
Qed.

(** [res_nmkquery] for a query. *)
Lemma wp_nmkquery b data datalen buflen :
  bytes b -> buflen <= zlen b -> buflen < 2 ^ 31 ->
  wp (res_nmkquery tmp0 dnptrs0 options id QUERY dname class typ data datalen buflen) b
     (fun n b' => n = 16 + zlen (wire ls) /\ n < buflen /\ Forall plain ls /\
        b' = splice b 0 (header options id QUERY 1 0 ++ question ls typ class))
     (fun _ b' => buflen <= 16 + zlen (wire ls) /\ zdrop buflen b' = zdrop buflen b).
Proof.
  intros Hb Hlen H31. pose proof (zlen_wire_pos ls). unfold res_nmkquery, HFIXEDSZ, QFIXEDSZ. wp_step. wp_step; [split; [lia|done]|].
  wp_step. apply wp_mk_header; [unfold QUERY; set_solver|lia|]. cbv zeta. apply wp_zoom. cbn [pk_buf].
  destruct dnptrs_init as [free Hfree].
  wp_step. apply wp_zoom. cbn [pk_dnptrs]. wp_step. wp_step; [lia|]. wp_step; [rewrite zlen_zupd; lia|].
  rewrite Hfree. cbn [pk_buf]. change ((QUERY =? QUERY) || _) with true. cbn iota.
  set (hd := header options id QUERY 0 0). assert (Hhd : zlen hd = 12) by done.
  unfold mk_question, QFIXEDSZ. wp_step. wp_step.
  { cbn [pk_buf]. split; [lia|]. apply zdrop_splice_end; lia. }
  wp_step. apply wp_dn_comp_first; try lia.
  - apply bytes_splice; [done|]. apply header_bytes. by vm_compute.
  - rewrite zlen_splice by lia. lia.
  - intros l [= <-]. rewrite <- Hfree, !zlen_zupd. lia.
  - intros Hls Hlt d. rewrite splice_app_alt by (lia || (rewrite ?Hhd; lia)).
    wp_step. apply wp_zoom. cbn [pk_buf].
    apply wp_put16_end; [rewrite zlen_app; lia|rewrite zlen_app; lia|]. cbn [pk_dnptrs].
    wp_step. apply wp_zoom. cbn [pk_buf]. apply wp_put16_end; [done|rewrite !zlen_app, zlen_be16; lia|].
    wp_step. apply wp_zoom. cbn [pk_buf pk_dnptrs].
    assert (Hz : zlen ((((hd ++ wire ls) ++ be16 typ) ++ be16 class)) = 16 + zlen (wire ls))
      by (rewrite !zlen_app, !zlen_be16; lia).
    assert (Hw : (((hd ++ wire ls) ++ be16 typ) ++ be16 class) =
      (be16 id ++ [QUERY * 8 + has_option options RES_RECURSE; has_option options RES_USE_DNSSEC * 32]) ++
       0 :: 0 :: ([0; 0; 0; 0; 0; 0] ++ question ls typ class)).
    { unfold hd, header, question. rewrite <- !app_assoc. done. }
    rewrite Hz, Hw. apply wp_set_count; [done|change (4 + 2 + zlen ([0; 0; 0; 0; 0; 0] ++ question ls typ class) <= zlen b);
      rewrite zlen_app, zlen_question; change (zlen [0; 0; 0; 0; 0; 0]) with 6; lia|]. cbn [pk_dnptrs pk_buf].
    assert (Hres : forall p, pk_buf p = splice b 0 ((be16 id ++ [QUERY * 8 + has_option options RES_RECURSE; has_option options RES_USE_DNSSEC * 32]) ++
       be16 1 ++ [0; 0; 0; 0; 0; 0] ++ question ls typ class) ->
      16 + zlen (wire ls) = 16 + zlen (wire ls) /\ 16 + zlen (wire ls) < buflen /\ Forall plain ls /\
        pk_buf p = splice b 0 (header options id QUERY 1 0 ++ question ls typ class)).
    { intros p ->. split; [done|]. split; [lia|]. split; [done|]. done. }
    destruct data; wp_step; by apply Hres.
  - intros Hfull e w d Hw. cbn [pk_buf]. split; [lia|].
    rewrite splice_app_alt by (lia || (rewrite ?Hhd; lia)). apply zdrop_splice_end; [rewrite zlen_app; lia|lia].
Qed.
End query.

(** ** res_nopt *)

Lemma be16_value v : 0 <= v < 65536 -> Z.lor (Z.shiftl (u8 (Z.shiftr v 8)) 8) (u8 v) = v.
Proof.
  intros Hv. unfold u8. rewrite Z.shiftr_div_pow2 by lia. change (2 ^ 8) with 256.
  rewrite lor_shiftl_add by (change (2 ^ 8) with 256; Z.div_mod_to_equations; lia).
  change (2 ^ 8) with 256. Z.div_mod_to_equations; lia.
Qed.

Lemma padding_spec minlen buflen : minlen <= buflen ->
  0 <= padding minlen buflen < 128 /\ minlen + padding minlen buflen <= buflen /\
  ((minlen + padding minlen buflen) mod 128 = 0 \/ minlen + padding minlen buflen = buflen).
Proof. intros H. unfold padding. destruct (Z.min_spec ((128 - minlen mod 128) mod 128) (buflen - minlen)) as [[? ->]|[? ->]]; Z.div_mod_to_equations; lia. Qed.

(** The padding as the code computes it, in 16 bits. *)
Lemma padding_code minlen buflen : 0 <= minlen < 65536 -> minlen <= buflen ->
  u16 (Z.min (u16 ((EDNS0_PADDING - u16 (u16 minlen mod EDNS0_PADDING)) mod EDNS0_PADDING)) (buflen - u16 minlen)) =
  padding minlen buflen.
Proof.
  intros Hm Hb. unfold u16, EDNS0_PADDING. change (2 ^ 16) with 65536. rewrite (Z.mod_small minlen) by lia.
  rewrite (Z.mod_small (minlen mod 128)) by (Z.div_mod_to_equations; lia).
  rewrite (Z.mod_small ((128 - minlen mod 128) mod 128)) by (Z.div_mod_to_equations; lia).
  pose proof (padding_spec minlen buflen Hb). unfold padding in *. apply Z.mod_small. lia.
Qed.

(** Lengths of what is written. *)
Ltac zl := repeat (rewrite ?zlen_app, ?zlen_be16, ?zlen_cons, ?zlen_nil); lia.

Section nopt.
Context (options buflen anslen ar : Z) (b u v : list Z).
Context (Hu : zlen u = 10) (Har : 0 <= ar < 65536) (Hans : 0 <= anslen).

(** The message so far, with its count of additional records. *)
Definition so_far (n : Z) : list Z := u ++ be16 n ++ v.

Lemma zlen_so_far n : zlen (so_far n) = 12 + zlen v.
Proof. unfold so_far. rewrite !zlen_app, zlen_be16. lia. Qed.

Lemma flags_eq : (if negb (Z.land options RES_USE_DNSSEC =? 0) then NS_OPT_DNSSEC_OK else 0) =
  has_option options RES_USE_DNSSEC * 0x8000.
Proof. unfold has_option. by destruct (_ =? 0). Qed.

Lemma wp_count_next x (Q : Z -> list Z -> Prop) E r :
  12 + zlen v + zlen x <= zlen b -> Q r (splice b 0 (so_far (ar + 1) ++ x)) ->
  wp (b ← getS; n ← get16 b 10; set_count 10 (n + 1);; mret r) (splice b 0 (so_far ar ++ x)) Q E.
Proof.
  intros Hl HQ. pose proof (zlen_nonneg v). pose proof (zlen_nonneg x).
  assert (Hz : zlen (so_far ar ++ x) = 12 + zlen v + zlen x) by (rewrite zlen_app, zlen_so_far; lia).
  assert (H10 : znth (splice b 0 (so_far ar ++ x)) 10 = Some (u8 (Z.shiftr ar 8))).
  { rewrite <- (Z.add_0_l 10), znth_splice_new by lia. unfold so_far.
    rewrite <- app_assoc, znth_app_r, Hu, Z.sub_diag by lia. done. }
  assert (H11 : znth (splice b 0 (so_far ar ++ x)) 11 = Some (u8 ar)).
  { rewrite <- (Z.add_0_l 11), znth_splice_new by lia. unfold so_far.
    rewrite <- app_assoc, znth_app_r, Hu by lia. done. }
  wp_step. wp_step. unfold get16. wp_step. wp_step. apply (wp_rd _ _ _ _ _ _ H10). wp_step. apply (wp_rd _ _ _ _ _ _ H11).
  wp_step. rewrite be16_value by done. wp_step.
  change (so_far ar) with (u ++ [u8 (Z.shiftr ar 8); u8 ar] ++ v). rewrite <- !app_assoc. cbn [app].
  apply wp_set_count; [done|rewrite zlen_app; lia|]. wp_step. unfold so_far in HQ. by rewrite <- !app_assoc in HQ.
Qed.

Lemma wp_nopt :
  27 + zlen v < 65536 -> buflen <= zlen b -> 12 + zlen v <= zlen b ->
  wp (res_nopt options (12 + zlen v) buflen anslen) (splice b 0 (so_far ar))
     (fun r b' => let pad := padding (27 + zlen v) buflen in r = 27 + zlen v + pad /\ 27 + zlen v <= buflen /\
        b' = splice b 0 (so_far (ar + 1) ++ opt_record options anslen pad))
     (fun _ b' => buflen < 27 + zlen v /\ exists x, zlen x <= 9 /\ 12 + zlen v + zlen x <= Z.max buflen (12 + zlen v) /\
        b' = splice b 0 (so_far ar ++ x)).
Proof.
  intros Hlb Hbl Hn0. pose proof (zlen_nonneg v). pose proof (zlen_so_far ar) as Hsf. pose proof (zlen_so_far (ar + 1)) as Hsf1.
  unfold res_nopt, RRFIXEDSZ. cbv zeta. rewrite flags_eq. wp_step. wp_step.
  { split; [lia|]. exists []. rewrite app_nil_r. split; [by vm_compute|]. split; [change (zlen (@nil Z)) with 0; lia|done]. }
  assert (Hlong : forall x, zlen x <= 9 -> (buflen - (12 + zlen v) <? 1 + 10) = false -> zlen (so_far ar ++ x) + 2 <= zlen b)
    by (intros x Hx Hb; zl).
  wp_step. apply wp_wr_end; [zl|zl|].
  wp_step. apply wp_put16_end; [zl|zl|].
  replace (if 0xffff <? anslen then 0xffff else anslen) with (Z.min anslen 0xffff) by (destruct (Z.ltb_spec 0xffff anslen); lia).
  wp_step. apply wp_put16_end; [done|zl|].
  wp_step. apply wp_wr_end; [done|zl|].
  wp_step. apply wp_wr_end; [zl|zl|].
  wp_step. apply wp_put16_end; [zl|zl|].
  match goal with |- context [splice b 0 ?w] => set (w9 := w) end.
  assert (H9 : exists x, w9 = so_far ar ++ x /\ zlen x = 9 /\ forall y, w9 ++ be16 (padding (27 + zlen v) buflen + 4) ++ y =
    so_far ar ++ 0 :: be16 T_OPT ++ be16 (Z.min anslen 0xffff) ++ [0; 0] ++ be16 (has_option options RES_USE_DNSSEC * 0x8000) ++
      be16 (padding (27 + zlen v) buflen + 4) ++ y).
  { unfold w9. rewrite <- !app_assoc. eexists. split; [reflexivity|]. split; [by vm_compute|]. intros y. rewrite <- !app_assoc. done. }
  destruct H9 as (x & Hx & Hx9 & Hy). clearbody w9.
  assert (Hz9 : zlen w9 = 21 + zlen v) by (rewrite Hx; zl).
  rewrite Hz9. replace (21 + zlen v + 3 * INT16SZ) with (27 + zlen v) by (unfold INT16SZ; lia).
  assert (Hu16 : u16 (27 + zlen v) = 27 + zlen v) by (unfold u16; apply Z.mod_small; lia).
  wp_step. wp_step; rewrite Hu16 in *.
  { split; [lia|]. exists x. split; [lia|]. split; [lia|]. by rewrite Hx. }
  assert (Hpc : u16 (Z.min (u16 ((EDNS0_PADDING - u16 ((27 + zlen v) mod EDNS0_PADDING)) mod EDNS0_PADDING)) (buflen - (27 + zlen v))) =
    padding (27 + zlen v) buflen) by (rewrite <- Hu16 at 1 2; apply padding_code; lia).
  rewrite Hpc. pose proof (padding_spec (27 + zlen v) buflen ltac:(lia)) as (Hp1 & Hp2 & _).
  set (pad := padding (27 + zlen v) buflen) in *.
  wp_step. apply wp_put16_end; [lia|zl|].
  wp_step. apply wp_put16_end; [done|zl|].
  wp_step. apply wp_put16_end; [done|zl|].
  wp_step. apply wp_memset_end; [done|lia|zl|]. change (u8 0) with 0.
  match goal with |- context [splice b 0 ?w] => replace w with (so_far ar ++ opt_record options anslen pad) end.
  2: { unfold opt_record. rewrite <- (Hy _), <- !app_assoc. done. }
  apply wp_count_next.
  - rewrite zlen_opt_record by lia. lia.
  - split; [|split; [lia|done]]. rewrite !zlen_app, !zlen_be16. lia.
Qed.
End nopt.

(** ** Reading what was written *)

Lemma znth_of_zdrop {A} (b : list A) p i : 0 <= p -> 0 <= i -> znth b (p + i) = znth (zdrop p b) i.
Proof. intros. by rewrite znth_zdrop. Qed.

Lemma u16_at_drop b p v t : 0 <= p -> zdrop p b = be16 v ++ t -> u16_at b p = v mod 65536.
Proof.
  intros Hp Hd. unfold u16_at, byte_at. rewrite <- (Z.add_0_r p) at 1. rewrite !znth_of_zdrop, Hd by lia.
  change (u8 (Z.shiftr v 8) * 256 + u8 v = v mod 65536). unfold u8. rewrite Z.shiftr_div_pow2 by lia.
  change (2 ^ 8) with 256. Z.div_mod_to_equations. lia.
Qed.

Section wire_name.
Context (b : list Z) (tail : list Z) (ls : list (list Z)) (Hls : Forall plain ls).

Lemma wire_name_at p eom : 0 <= p -> zdrop p b = wire ls ++ tail -> p + zlen (wire ls) <= eom ->
  name_at b eom 0 p ls /\ span_at b p (p + zlen (wire ls)).
Proof.
  intros Hp Hd He. rewrite zlen_wire in *. pose proof (zlen_nonneg (concat ls)).
  unfold wire in Hd. rewrite <- app_assoc in Hd.
  assert (Hz : znth b (p + zlen (concat ls)) = Some 0) by (rewrite znth_of_zdrop, Hd by lia; apply znth_middle).
  split.
  - rewrite <- (app_nil_r ls) at 1. eapply name_at_labels; [done|exact Hd|done|lia|by constructor].
  - eapply span_at_labels; [done|exact Hd|done|]. rewrite Z.add_assoc. by constructor.
Qed.
End wire_name.

Lemma wire_qname_at b tail ls p e : Forall plain ls -> 0 <= p -> zdrop p b = wire ls ++ tail ->
  p + zlen (wire ls) <= e -> qname_at b e p (p + zlen (wire ls)).
Proof.
  intros Hls. revert p. induction Hls as [|x ls (l & -> & _ & Hn) _ IH]; intros p Hp Hd He.
  - change (zlen (wire [])) with 1 in *. apply qname_root; [lia|]. rewrite <- (Z.add_0_r p), znth_of_zdrop, Hd by lia. done.
  - rewrite wire_cons, <- app_assoc in Hd. rewrite wire_cons, zlen_app, zlen_cons in *. pose proof (zlen_wire_pos ls).
    apply (qname_label _ _ p (zlen l)); [lia| |lia|].
    + rewrite <- (Z.add_0_r p), znth_of_zdrop, Hd by lia. done.
    + replace (p + (zlen l + 1 + zlen (wire ls))) with (p + 1 + zlen l + zlen (wire ls)) by lia. apply IH; [lia| |lia].
      replace (p + 1 + zlen l) with (p + zlen (zlen l :: l)) by (rewrite zlen_cons; lia).
      pose proof (zlen_nonneg (zlen l :: l)). rewrite <- zdrop_zdrop, Hd by lia. apply zdrop_app.
Qed.

Lemma times_one R p e : times R 1 p e <-> R p e.
Proof.
  split.
  - inversion 1 as [|? ? e' ? _ HR H']; subst; [lia|]. inversion H'; subst; [done|lia].
  - intros HR. apply (times_more _ 1 p e e); [lia|done|by constructor].
Qed.

(** ** Messages with one question *)

Lemma opt_record_last options anslen pad : 0 <= pad -> exists y, opt_record options anslen pad = y ++ [0].
Proof.
  intros Hp. unfold opt_record. destruct (Z.eq_dec pad 0) as [->|Hp0].
  - eexists (0 :: be16 T_OPT ++ be16 (Z.min anslen 0xffff) ++ [0; 0] ++
      be16 (has_option options RES_USE_DNSSEC * 0x8000) ++ be16 (0 + 4) ++ be16 NS_OPT_PADDING ++ [0]). done.
  - replace (Z.to_nat pad) with (Z.to_nat (pad - 1) + 1)%nat by lia. rewrite replicate_add, !app_assoc, app_comm_cons.
    eexists. reflexivity.
Qed.

Section made.
Context (options id typ class : Z) (ls : list (list Z)) (Hls : Forall plain ls).
Context (Htyp : 0 <= typ < 65536) (Hclass : 0 <= class < 65536).

(** What follows the question: nothing, or the EDNS0 record. *)
Definition extra (ar : Z) (x : list Z) : Prop :=
  (ar = 0 /\ x = []) \/ (ar = 1 /\ exists anslen pad, 0 <= pad < 128 /\ x = opt_record options anslen pad).

Context (ar : Z) (x : list Z) (Hx : extra ar x) (tail b : list Z).
Context (Hb : b = header options id QUERY 1 ar ++ question ls typ class ++ x ++ tail).
Let q := 16 + zlen (wire ls).
Let n := q + zlen x.

Lemma made_len : 17 <= q /\ q <= n /\ n + zlen tail = zlen b.
Proof.
  pose proof (zlen_wire_pos ls). pose proof (zlen_nonneg x). unfold q, n. split; [lia|]. split; [lia|].
  rewrite Hb, !zlen_app, zlen_header, zlen_question. lia.
Qed.

Lemma made_name : zdrop 12 b = wire ls ++ be16 typ ++ be16 class ++ x ++ tail.
Proof. rewrite Hb. unfold question. rewrite <- !app_assoc. by apply (zdrop_app_alt (header options id QUERY 1 ar)). Qed.

Lemma made_behind : zdrop (q - 4) b = be16 typ ++ be16 class ++ x ++ tail.
Proof.
  pose proof (zlen_wire_pos ls). unfold q. replace (16 + zlen (wire ls) - 4) with (12 + zlen (wire ls)) by lia.
  rewrite <- zdrop_zdrop, made_name by lia. apply zdrop_app.
Qed.

Lemma made_type : u16_at b (q - 4) = typ /\ u16_at b (q - 2) = class /\ zdrop q b = x ++ tail.
Proof.
  pose proof made_len as (? & _ & _). pose proof made_behind as Hd.
  assert (Hd2 : zdrop (q - 2) b = be16 class ++ x ++ tail).
  { replace (q - 2) with (q - 4 + 2) by lia. rewrite <- zdrop_zdrop, Hd by lia. done. }
  split; [|split].
  - rewrite (u16_at_drop b (q - 4) typ _ ltac:(lia) Hd). apply Z.mod_small. lia.
  - rewrite (u16_at_drop b (q - 2) class _ ltac:(lia) Hd2). apply Z.mod_small. lia.
  - replace q with (q - 2 + 2) by lia. rewrite <- zdrop_zdrop, Hd2 by lia. done.
Qed.

Lemma made_counts : header_counts b = [1; 0; 0; ar] /\ u16_at b 0 = id mod 65536 /\ u16_at b 4 = 1 /\ u16_at b 6 = 0 /\
  u16_at b 8 = 0 /\ u16_at b 10 = ar.
Proof.
  assert (H4 : u16_at b 4 = 1) by (by rewrite Hb). assert (H6 : u16_at b 6 = 0) by (by rewrite Hb).
  assert (H8 : u16_at b 8 = 0) by (by rewrite Hb).
  assert (H10 : u16_at b 10 = ar).
  { rewrite (u16_at_drop b 10 ar (question ls typ class ++ x ++ tail)); [|lia|by rewrite Hb]. apply Z.mod_small. destruct Hx as [[-> _]|[-> _]]; lia. }
  assert (H0 : u16_at b 0 = id mod 65536) by (eapply (u16_at_drop b 0 id); [lia|by rewrite Hb]).
  unfold header_counts. by rewrite H4, H6, H8, H10.
Qed.

(** The EDNS0 record: the root's name and ten octets before the data. *)
Lemma made_opt : ar = 1 -> znth b q = Some 0 /\ u16_at b (q + 1) = T_OPT /\ q + 1 + 10 + u16_at b (q + 1 + 8) = n /\ q + 11 <= n.
Proof.
  intros Har. pose proof made_len as (Hq & _ & _). pose proof made_type as (_ & _ & Hd).
  destruct Hx as [[-> _]|(_ & anslen & pad & Hp & Ex)]; [done|]. pose proof (zlen_opt_record options anslen pad ltac:(lia)) as Hl.
  assert (Hd1 : zdrop (q + 1) b = be16 T_OPT ++ be16 (Z.min anslen 0xffff) ++ [0; 0] ++
    be16 (has_option options RES_USE_DNSSEC * 0x8000) ++ be16 (pad + 4) ++ be16 NS_OPT_PADDING ++ be16 pad ++
    replicate (Z.to_nat pad) 0 ++ tail).
  { rewrite <- zdrop_zdrop, Hd, Ex by lia. unfold opt_record. cbn [app]. rewrite <- !app_assoc. done. }
  assert (Hd9 : zdrop (q + 1 + 8) b = be16 (pad + 4) ++ be16 NS_OPT_PADDING ++ be16 pad ++ replicate (Z.to_nat pad) 0 ++ tail).
  { rewrite <- zdrop_zdrop, Hd1 by lia. done. }
  rewrite (u16_at_drop b (q + 1) _ _ ltac:(lia) Hd1), (u16_at_drop b (q + 1 + 8) _ _ ltac:(lia) Hd9).
  rewrite (Z.mod_small (pad + 4)) by lia. unfold n. rewrite Ex, Hl.
  split; [|split; [done|split; lia]]. rewrite <- (Z.add_0_r q), znth_of_zdrop, Hd, Ex by lia. done.
Qed.

Definition made_starts : list (list Z) := [[12]; []; []; if ar =? 0 then [] else [q]].

Lemma made_well_formed : well_formed b n made_starts.
Proof.
  pose proof made_len as (Hq & Hqn & _). pose proof made_counts as (Hc & _). split; [lia|]. split.
  { rewrite Hc. unfold made_starts. by destruct Hx as [[-> _]|[-> _]]. }
  destruct (wire_name_at b _ ls Hls 12 n ltac:(lia) made_name) as [_ Hspan]; [unfold q in Hqn; lia|].
  replace (12 + zlen (wire ls)) with (q - 4) in Hspan by (unfold q; lia).
  eapply (layout_cons _ _ 0 12 [12] q).
  { apply (records_cons _ _ _ 12 (q - 4)); [done|unfold rr_size; change (0 =? ns_s_qd) with true; cbn iota; lia|].
    unfold rr_size. change (0 =? ns_s_qd) with true. cbn iota. replace (q - 4 + 4) with q by lia. constructor. }
  do 2 (eapply layout_cons; [constructor|]). destruct Hx as [[Ea Ex]|(Ea & _)]; rewrite Ea; cbn [Z.eqb].
  - eapply layout_cons; [constructor|]. unfold n. rewrite Ex. change (zlen (@nil Z)) with 0. rewrite Z.add_0_r. constructor.
  - destruct (made_opt Ea) as (Hz & _ & Hn & Hn'). eapply (layout_cons _ _ _ q [q] n); [|constructor].
    assert (Hs : rr_size b (0 + 1 + 1 + 1) (q + 1) = 10 + u16_at b (q + 1 + 8)) by done.
    apply (records_cons _ _ _ q (q + 1)); [by constructor|rewrite Hs; lia|].
    rewrite Hs. replace (q + 1 + (10 + u16_at b (q + 1 + 8))) with n by lia. constructor.
Qed.

(** Whatever the parser found, the first question is where it was written. *)
Lemma made_first starts h : handle_ok starts h -> _msg h = b -> nth_record starts 0 0 = Some 12.
Proof.
  intros [(_ & Hm & Hl) _ _ _] Hh. rewrite Hh in *. pose proof made_counts as (Hc & _). rewrite Hc in Hm.
  destruct starts as [|ps starts]; [done|]. injection Hm as Hps _.
  inversion Hl as [|? ? ? ? ? ? Hr]; subst. unfold nth_record. cbn.
  inversion Hr as [|? ? ? ? _ _ Hr']; subst; [done|]. done.
Qed.

(** The last octet is not the start of a bit-string label. *)
Lemma made_readable : (x = [] -> n < zlen b) -> readable b n.
Proof.
  intros Hx0. pose proof made_len as (Hq & Hqn & Hnt). split; [pose proof (zlen_nonneg tail); lia|].
  intros Hend. destruct Hx as [[_ ->]|(_ & anslen & pad & Hp & Ex)]; [specialize (Hx0 eq_refl); lia|].
  destruct (opt_record_last options anslen pad ltac:(lia)) as [y Hy].
  assert (tail = []) as Et by (destruct tail as [|c u]; [done|]; rewrite zlen_cons in Hnt; pose proof (zlen_nonneg u); lia).
  rewrite Hend, Hb, Et, app_nil_r, Ex, Hy, !app_assoc, zlen_app. change (zlen [0]) with 1. rewrite Z.add_simpl_r.
  by rewrite znth_middle.
Qed.

(** ** The question, read again *)

Lemma wp_read_question h :
  bytes b -> zlen (_counts h) = 4 -> zlen (_sections h) = 4 -> readable b n ->
  wp (ns_initparse b n) h
     (fun _ h' => _id h' = id mod 65536 /\ forall tmp0 r, zlen tmp0 = NS_MAXCDNAME -> zlen (name r) = NS_MAXDNAME ->
        zlen (host_text ls) + 1 <= NS_MAXDNAME -> zlen (wire ls) <= NS_MAXCDNAME ->
        wp (ns_parserr tmp0 ns_s_qd 0) (h', r)
           (fun _ '(_, r') => ztake (zlen (host_text ls) + 1) (name r') = host_text ls ++ [0] /\
              fixed r' = Fixed typ class 0 0 None)
           (fun e '(_, r') => e = EMSGSIZE /\ ~ expandable b n 12 NS_MAXDNAME ls))
     (fun _ _ => False).
Proof.
  intros Hby Hc Hs Hn. pose proof made_len as (Hq & Hqn & _). pose proof (proj1 Hn) as Hnb. pose proof made_counts as (_ & Hid & _).
  eapply wp_mono; [apply (wp_initparse b n Hby ltac:(lia) h Hc Hs)| |].
  2: { intros e h' [_ Hno]. destruct Hno. eexists. exact made_well_formed. }
  intros _ h' (starts & Hok & Hm & He & Hi & _). split; [congruence|]. intros tmp0 r Htmp Hr Hlt Hmax.
  destruct (wire_name_at b _ ls Hls 12 n ltac:(lia) made_name) as [Hname Hspan]; [unfold q in Hqn; lia|].
  replace (12 + zlen (wire ls)) with (q - 4) in Hspan by (unfold q; lia).
  pose proof (made_first _ _ Hok Hm) as Hf. pose proof made_type as (Ht & Hcl & _).
  eapply wp_mono; [apply (wp_parserr_handle tmp0 starts h' r ns_s_qd 0); try done| |].
  - by rewrite Hm.
  - by rewrite Hm, He.
  - change (target h' ns_s_qd 0) with 0. intros _ [h2 r2] (p & m & ls2 & Hp & Hn2 & Hs2 & Htk & _ & Hfx & _).
    change (nth_record starts ns_s_qd 0) with (nth_record starts 0 0) in Hp. rewrite Hf in Hp. injection Hp as <-. rewrite Hm, He in *. rewrite (name_at_fun _ _ _ _ _ _ Hn2 Hname) in *.
    rewrite (span_at_fun _ _ _ _ Hs2 Hspan) in Hfx. split; [done|]. rewrite Hfx. unfold fixed_at.
    change (ns_s_qd =? ns_s_qd) with true. cbn iota. replace (q - 4 + 2) with (q - 2) by lia. by rewrite Ht, Hcl.
  - change (target h' ns_s_qd 0) with 0. intros e [h2 r2] (_ & _ & _ & Hno). change (nth_record starts ns_s_qd 0) with (nth_record starts 0 0) in Hno.
    rewrite Hf in Hno. destruct Hno as [-> Hno]. split; [done|]. rewrite Hm, He in Hno. apply Hno.
Qed.

(** ** The question, as the cache sees it *)

Lemma made_qname : qname_at b n 12 (q - 4).
Proof.
  pose proof made_len as (Hq & Hqn & _). replace (q - 4) with (12 + zlen (wire ls)) by (unfold q; lia).
  eapply wire_qname_at; [done|lia|exact made_name|unfold q in *; lia].
Qed.

Lemma made_query_ok : query_ok b n <-> typ ∈ cached_types /\ class = 1.
Proof.
  pose proof made_len as (Hq & Hqn & _). pose proof made_type as (Ht & Hcl & _).
  pose proof made_counts as (_ & _ & H4 & H6 & H8 & H10). split.
  - intros [_ _ _ (e & He)]. rewrite H4, times_one in He. destruct He as (m & Hm & _ & _ & Htm & Hcm). rewrite (qname_fun _ _ _ _ _ Hm made_qname) in *.
    rewrite Ht in Htm. replace (q - 4 + 2) with (q - 2) in Hcm by lia. by rewrite Hcl in Hcm.
  - intros [Hct Hc1]. split; [lia| | |].
    + rewrite Hb. change (Z.land (0 * 8 + has_option options RES_RECURSE) 0xFC = 0 /\
        Z.land (has_option options RES_USE_DNSSEC * 32) 0xCF = 0).
      destruct (has_option_01 options RES_RECURSE) as [-> | ->], (has_option_01 options RES_USE_DNSSEC) as [-> | ->]; done.
    + rewrite H4, H6, H8, H10. destruct Hx as [[-> _]|[-> _]]; lia.
    + rewrite H4. exists q. apply times_one. exists (q - 4). split; [exact made_qname|]. split; [lia|]. split; [lia|]. rewrite Ht.
      replace (q - 4 + 2) with (q - 2) by lia. by rewrite Hcl.
Qed.

Lemma made_record : ar = 1 -> record_at b n q n.
Proof.
  intros Ha. pose proof made_len as (Hq & Hqn & _). destruct (made_opt Ha) as (Hz & _ & Hn & Hn').
  exists (q + 1). split; [apply qname_root; [lia|done]|]. lia.
Qed.

Lemma made_additional_ok : additional_ok b n.
Proof.
  pose proof made_len as (Hq & Hqn & _). pose proof made_counts as (_ & _ & H4 & _ & _ & H10).
  intros e He. rewrite H4 in He. rewrite H10. apply times_one in He as (m & Hm & -> & _).
  rewrite (qname_fun _ _ _ _ _ Hm made_qname). replace (q - 4 + 4) with q by lia.
  destruct Hx as [[-> _]|[Ha _]]; [eexists; by constructor|].
  exists n. rewrite Ha. apply times_one. by apply made_record.
Qed.

Lemma made_exact : tail = [] -> bytes b -> typ ∈ cached_types -> class = 1 -> exact_query b.
Proof.
  intros Et Hby Hct Hc1. pose proof made_len as (Hq & Hqn & Hnt). rewrite Et in Hnt. change (zlen (@nil Z)) with 0 in Hnt.
  pose proof made_counts as (_ & _ & H4 & _ & _ & H10). assert (En : zlen b = n) by lia.
  unfold exact_query, query_good. rewrite En.
  split; [split; [done|split; [by apply made_query_ok|exact made_additional_ok]]|].
  exists q. rewrite H4, H10, times_one. split; [exists (q - 4); split; [exact made_qname|lia]|].
  destruct Hx as [[Ea Ex]|[Ea _]]; rewrite Ea; [|apply times_one; by apply made_record].
  unfold n. rewrite Ex. change (zlen (@nil Z)) with 0. rewrite Z.add_0_r. by constructor.
Qed.
End made.

(** ** The query of a name *)

(** The start of [res_nquery] in [res_query.c]: the query, with the EDNS0 record
    where [edns] says so. *)
Definition make_query (tmp0 : list Z) (dnptrs0 : list (option Z)) (options id : Z) (edns : bool)
    (name : list Z) (class typ buflen anslen : Z) : M (list Z) Z :=
  n ← res_nmkquery tmp0 dnptrs0 options id QUERY name class typ None 0 buflen;
  if (0 <? n) && edns then res_nopt options n buflen anslen else mret n.

(** What it writes. *)
Definition message (options id : Z) (edns : bool) (ls : list (list Z)) (class typ buflen anslen : Z) : list Z :=
  if edns then
    header options id QUERY 1 1 ++ question ls typ class ++ opt_record options anslen (padding (31 + zlen (wire ls)) buflen)
  else header options id QUERY 1 0 ++ question ls typ class.

(** A name fits its text buffer, and what is read is what was asked. *)
Lemma esc_len4 c : zlen (esc c) <= 4.
Proof. unfold esc. by repeat case_match. Qed.

Lemma escs_len4 l : zlen (escs l) <= 4 * zlen l.
Proof.
  induction l as [|c l IH]; [done|]. rewrite escs_cons, zlen_cons, zlen_app. pose proof (esc_len4 c). lia.
Qed.

Lemma text_len4 ls : Forall plain ls -> zlen (text ls) <= 4 * zlen (wire ls).
Proof.
  destruct 1 as [|x ls Hx Hls]; [by vm_compute|]. change (zlen (join (x :: ls)) <= 4 * zlen (wire (x :: ls))).
  revert x Hx. induction Hls as [|y ls Hy _ IH]; intros x Hx; destruct Hx as (l & -> & Hl & Hn);
    rewrite wire_cons, zlen_app, zlen_cons; pose proof (escs_len4 l).
  - cbn [join label_text]. rewrite (proj2 (Z.eqb_neq _ _)) by lia. change (zlen (wire [])) with 1. lia.
  - change (join ((zlen l :: l) :: y :: ls)) with (label_text (zlen l :: l) ++ [46] ++ join (y :: ls)).
    cbn [label_text]. rewrite (proj2 (Z.eqb_neq _ _)) by lia. rewrite !zlen_app. change (zlen [46]) with 1. specialize (IH y Hy). lia.
Qed.

Section made_query.
Context (options id class typ : Z) (ls : list (list Z)) (Hls : Forall plain ls) (Hmax : zlen (wire ls) <= NS_MAXCDNAME).
Context (Htyp : 0 <= typ < 65536) (Hclass : 0 <= class < 65536).
Context (edns : bool) (buflen anslen : Z).
Let W := message options id edns ls class typ buflen anslen.
Context (Hfit : zlen W <= buflen) (Hroom : edns = true -> 31 + zlen (wire ls) <= buflen).

Lemma message_extra : exists ar x, extra options ar x /\
  (forall i, message options i edns ls class typ buflen anslen = header options i QUERY 1 ar ++ question ls typ class ++ x) /\
  (x = [] <-> edns = false) /\ 16 + zlen (wire ls) + zlen x = zlen W.
Proof.
  unfold W, message. destruct edns.
  - pose proof (padding_spec (31 + zlen (wire ls)) buflen (Hroom eq_refl)) as (Hp & _).
    exists 1, (opt_record options anslen (padding (31 + zlen (wire ls)) buflen)). split; [right; split; [done|by eexists _, _]|].
    split; [done|]. split; [done|]. rewrite !zlen_app, zlen_header, zlen_question. lia.
  - exists 0, []. split; [by left|]. split; [intros i; by rewrite app_nil_r|]. split; [done|].
    rewrite zlen_app, zlen_header, zlen_question. change (zlen (@nil Z)) with 0. lia.
Qed.

Lemma message_bytes : bytes W.
Proof.
  assert (Hq : bytes (question ls typ class)).
  { unfold question. apply Forall_app. split; [by apply plain_wire_bytes|]. apply Forall_app. split; apply be16_bytes. }
  assert (Ho : forall p, bytes (opt_record options anslen p)).
  { intros p. unfold opt_record. constructor; [unfold is_byte; lia|].
    repeat (apply Forall_app; split); try apply be16_bytes; [by apply bytes_check|].
    apply Forall_replicate. unfold is_byte. lia. }
  unfold W, message. destruct edns; (apply Forall_app; split; [by apply header_bytes|]); [|done].
  apply Forall_app. split; [done|apply Ho].
Qed.

(** The parser's view of the buffer. *)
Lemma message_read b h :
  bytes b -> buflen <= zlen b -> (edns = false -> zlen W < zlen b) -> zlen (_counts h) = 4 -> zlen (_sections h) = 4 ->
  wp (ns_initparse (splice b 0 W) (zlen W)) h
     (fun _ h' => _id h' = id mod 65536 /\ forall tmp0 r, zlen tmp0 = NS_MAXCDNAME -> zlen (name r) = NS_MAXDNAME ->
        wp (ns_parserr tmp0 ns_s_qd 0) (h', r)
           (fun _ '(_, r') => ztake (zlen (host_text ls) + 1) (name r') = host_text ls ++ [0] /\ fixed r' = Fixed typ class 0 0 None)
           (fun _ _ => False))
     (fun _ _ => False).
Proof.
  intros Hb Hbl Hlt Hc Hs. destruct message_extra as (ar & x & Hx & HW & Hx0 & Hn).
  assert (Hsp : splice b 0 W = header options id QUERY 1 ar ++ question ls typ class ++ x ++ zdrop (zlen W) b).
  { rewrite splice_0. unfold W at 1. rewrite HW, <- !app_assoc. done. }
  pose proof (zlen_nonneg W). assert (Hlb : zlen (splice b 0 W) = zlen b) by (apply zlen_splice; lia).
  pose proof (made_readable options id typ class ls ar x Hx _ _ Hsp) as Hr. rewrite Hn, Hlb in Hr.
  pose proof (wp_read_question options id typ class ls Hls Htyp Hclass ar x Hx _ _ Hsp h) as Hw. rewrite Hn in Hw.
  eapply wp_conseq; [apply Hw; [by apply bytes_splice; [|apply message_bytes]|done|done|apply Hr; intros Ex; apply Hlt; by apply Hx0]|].
  intros _ h' [Hid Hrd]. split; [done|]. intros tmp0 r Htmp Hrn. pose proof (text_len4 ls Hls). unfold NS_MAXCDNAME in Hmax.
  assert (Ht1 : zlen (text ls) + 1 <= NS_MAXDNAME) by (unfold NS_MAXDNAME; lia).
  eapply wp_mono; [apply Hrd; [done|done| |done]|by intros _ []|].
  - destruct ls; [by vm_compute|exact Ht1].
  - intros e [h2 r2] [_ Hno]. apply Hno. split; [|split; [done|rewrite (spare_plain _ Hls); unfold NsParse.NS_MAXDNAME, NS_MAXDNAME in *; lia]].
    apply (wire_name_at _ (be16 typ ++ be16 class ++ x ++ zdrop (zlen W) b) ls Hls 12); [lia| |].
    + exact (made_name options id typ class ls ar x _ _ Hsp).
    + rewrite <- Hn. pose proof (zlen_nonneg x). lia.
Qed.

(** The cache's view of the message. *)
Lemma message_cached : query_arg W /\ (query_ok W (zlen W) <-> typ ∈ cached_types /\ class = 1) /\
  (typ ∈ cached_types -> class = 1 -> exact_query W).
Proof.
  destruct message_extra as (ar & x & Hx & HW & _ & Hn). specialize (HW id). fold W in HW.
  assert (Hsp : W = header options id QUERY 1 ar ++ question ls typ class ++ x ++ []) by (by rewrite app_nil_r).
  pose proof (made_query_ok options id typ class ls Hls Htyp Hclass ar x Hx _ _ Hsp) as H1.
  pose proof (made_additional_ok options id typ class ls Hls Htyp Hclass ar x Hx _ _ Hsp) as H2.
  pose proof (made_exact options id typ class ls Hls Htyp Hclass ar x Hx _ _ Hsp eq_refl message_bytes) as H3.
  rewrite Hn in H1, H2. split; [|by split]. split; [exact message_bytes|]. split; [|done].
  rewrite <- Hn. pose proof (zlen_wire_pos ls). pose proof (zlen_nonneg x). lia.
Qed.

(** Queries of the same name with another id. *)
Lemma message_same id' : same_but_id W (message options id' edns ls class typ buflen anslen).
Proof.
  destruct message_extra as (ar & x & _ & HW & _). unfold W. rewrite !HW. split; [|split; done]. by rewrite !zlen_app.
Qed.
End made_query.

Section make.
Context (tmp0 : list Z) (dnptrs0 : list (option Z)) (options id class typ : Z) (dname t : list Z) (ls : list (list Z)) (r : Z).
Context (Ht : bytes t) (Hc : cstr dname 0 t) (Hnb : no_bits t = true) (Hparse : parse t [] = Some (ls, r)).
Context (Hmax : zlen (wire ls) <= NS_MAXCDNAME) (H64 : Forall (fun x => zlen x <= 64) ls).
Context (Htmp : zlen tmp0 = NS_MAXCDNAME) (Hdn : 2 <= zlen dnptrs0).
Context (edns : bool) (buflen anslen : Z) (Hans : 0 <= anslen).

(** The room that a query needs; the name has to leave one octet. *)
Definition query_room : Prop := 16 + zlen (wire ls) < buflen /\ (edns = true -> 31 + zlen (wire ls) <= buflen).

Lemma wp_make_query b :
  bytes b -> buflen <= zlen b -> buflen < 2 ^ 31 ->
  wp (make_query tmp0 dnptrs0 options id edns dname class typ buflen anslen) b
     (fun n b' => let q := message options id edns ls class typ buflen anslen in
        n = zlen q /\ n <= buflen /\ query_room /\ Forall plain ls /\ b' = splice b 0 q)
     (fun _ b' => ~ query_room /\ zdrop buflen b' = zdrop buflen b).
Proof.
  intros Hb Hbl H31. pose proof (zlen_wire_pos ls). unfold make_query, query_room. wp_step.
  eapply wp_mono; [by apply (wp_nmkquery tmp0 dnptrs0 options id class typ dname t ls r)| |].
  2: { intros e b' [? ?]. split; [lia|done]. }
  intros n b' (-> & Hn & Hls & ->). rewrite (proj2 (Z.ltb_lt 0 _)) by lia. cbn [andb]. unfold message.
  assert (Hzq : zlen (question ls typ class) = zlen (wire ls) + 4) by apply zlen_question.
  destruct edns.
  - set (u := be16 id ++ [QUERY * 8 + has_option options RES_RECURSE; has_option options RES_USE_DNSSEC * 32] ++ be16 1 ++ [0; 0; 0; 0]).
    assert (Hsf : forall ar, header options id QUERY 1 ar ++ question ls typ class = so_far u (question ls typ class) ar).
    { intros ar. unfold so_far, u, header. by rewrite <- !app_assoc. }
    rewrite Hsf. replace (16 + zlen (wire ls)) with (12 + zlen (question ls typ class)) in Hn |- * by lia.
    unfold NS_MAXCDNAME in Hmax. eapply wp_mono.
    { apply (wp_nopt options buflen anslen 0 b u (question ls typ class)); try done; lia. }
    + cbv zeta. intros n b' (-> & Hfit & ->). replace (27 + zlen (question ls typ class)) with (31 + zlen (wire ls)) in * by lia.
      pose proof (padding_spec (31 + zlen (wire ls)) buflen Hfit) as (Hp & Hpb & _).
      rewrite app_assoc, Hsf, zlen_app, zlen_opt_record by lia. rewrite (zlen_so_far u (question ls typ class)) by done.
      split; [lia|]. split; [lia|]. split; [split; [lia|done]|]. done.
    + intros e b' (Hno & x & Hx & Hx' & ->). split; [intros [_ Hr]; specialize (Hr eq_refl); lia|].
      apply zdrop_splice_end; [|lia]. rewrite zlen_app, (zlen_so_far u (question ls typ class)) by done. lia.
  - wp_step. split; [rewrite zlen_app, zlen_header, zlen_question; lia|]. split; [lia|]. done.
Qed.
End make.

(** ** Properties *)

(** C10: A query and what becomes of it: for every name within the limits, type,
    class and options, building the query - with or without the EDNS0 record -
    terminates inside the buffer and succeeds exactly when it fits. Then the
    parser accepts what was written, whatever follows it in the buffer, and reads
    the name, type and class that were given; and it is a query the cache can be
    handed, accepted by its check exactly if the type is one that is cached and
    the class IN, and identified there up to its id. *)
Theorem make_query_correct tmp0 dnptrs0 options id class typ dname t ls r edns buflen anslen b :
  bytes t -> cstr dname 0 t -> no_bits t = true -> parse t [] = Some (ls, r) ->
  zlen (wire ls) <= NS_MAXCDNAME -> Forall (fun x => zlen x <= 64) ls ->
  zlen tmp0 = NS_MAXCDNAME -> zlen dnptrs0 = 20 -> 0 <= anslen -> 0 <= typ < 65536 -> 0 <= class < 65536 ->
  bytes b -> buflen <= zlen b -> buflen < 2 ^ 31 ->
  wp (make_query tmp0 dnptrs0 options id edns dname class typ buflen anslen) b
     (fun n b' => let q := message options id edns ls class typ buflen anslen in
        query_room ls edns buflen /\ n = zlen q /\ n <= buflen /\ b' = splice b 0 q /\
        (forall h, zlen (_counts h) = 4 -> zlen (_sections h) = 4 ->
           wp (ns_initparse b' n) h
              (fun _ h' => _id h' = id mod 65536 /\
                 forall tmp1 rec, zlen tmp1 = NS_MAXCDNAME -> zlen (name rec) = NS_MAXDNAME ->
                 wp (ns_parserr tmp1 ns_s_qd 0) (h', rec)
                    (fun _ '(_, rec') => ztake (zlen (host_text ls) + 1) (name rec') = host_text ls ++ [0] /\
                       fixed rec' = Fixed typ class 0 0 None)
                    (fun _ _ => False))
              (fun _ _ => False)) /\
        query_arg q /\ (query_ok q n <-> typ ∈ cached_types /\ class = 1) /\
        (typ ∈ cached_types -> class = 1 -> exact_query q) /\
        (forall id', same_but_id q (message options id' edns ls class typ buflen anslen)))
     (fun _ b' => ~ query_room ls edns buflen /\ zdrop buflen b' = zdrop buflen b).
Proof.
  intros Ht Hc Hnb Hparse Hmax H64 Htmp Hdn Hans Htyp Hclass Hb Hbl H31.
  eapply wp_conseq; [by apply (wp_make_query tmp0 dnptrs0 options id class typ dname t ls r); try done; lia|].
  intros n b' (-> & Hn & [Hroom He] & Hls & ->).
  pose proof (message_cached options id class typ ls Hls Htyp Hclass edns buflen anslen Hn He) as (Hq & Hok & Hex).
  split; [by split|]. split; [done|]. split; [done|]. split; [done|]. split; [|split; [done|split; [done|split; [done|]]]].
  - intros h Hhc Hhs. apply message_read; try done. intros ->. unfold message in *.
    rewrite zlen_app, zlen_header, zlen_question in *. lia.
  - intros id'. by apply message_same.
Qed.

Lemma make_query_correct_witness :
  fst (make_query (replicate 255 0) (replicate 20 None) RES_RECURSE 0x1234 true [97; 46; 98; 0] 1 28 60 4096 (replicate 60 7)) = Ret 60 /\
  ztake 25 (snd (make_query (replicate 255 0) (replicate 20 None) RES_RECURSE 0x1234 true [97; 46; 98; 0] 1 28 60 4096 (replicate 60 7))) =
    [0x12; 0x34; 1; 0; 0; 1; 0; 0; 0; 0; 0; 1; 1; 97; 1; 98; 0; 0; 28; 0; 1; 0; 0; 41; 16] /\
  wp (make_query (replicate 255 0) (replicate 20 None) RES_RECURSE 0x1234 true [97; 46; 98; 0] 1 28 60 4096) (replicate 60 7)
     (fun n b' => let q := message RES_RECURSE 0x1234 true [[1; 97]; [1; 98]] 1 28 60 4096 in
        query_room [[1; 97]; [1; 98]] true 60 /\ n = zlen q /\ n <= 60 /\ b' = splice (replicate 60 7) 0 q /\
        (forall h, zlen (_counts h) = 4 -> zlen (_sections h) = 4 ->
           wp (ns_initparse b' n) h
              (fun _ h' => _id h' = 0x1234 mod 65536 /\
                 forall tmp1 rec, zlen tmp1 = NS_MAXCDNAME -> zlen (name rec) = NS_MAXDNAME ->
                 wp (ns_parserr tmp1 ns_s_qd 0) (h', rec)
                    (fun _ '(_, rec') => ztake (zlen (host_text [[1; 97]; [1; 98]]) + 1) (name rec') = host_text [[1; 97]; [1; 98]] ++ [0] /\
                       fixed rec' = Fixed 28 1 0 0 None)
                    (fun _ _ => False))
              (fun _ _ => False)) /\
        query_arg q /\ (query_ok q n <-> 28 ∈ cached_types /\ 1 = 1) /\
        (28 ∈ cached_types -> 1 = 1 -> exact_query q) /\
        (forall id', same_but_id q (message RES_RECURSE id' true [[1; 97]; [1; 98]] 1 28 60 4096)))
     (fun _ b' => ~ query_room [[1; 97]; [1; 98]] true 60 /\ zdrop 60 b' = zdrop 60 (replicate 60 7)).
Proof.
  split; [by vm_compute|]. split; [by vm_compute|].
  apply (make_query_correct _ _ RES_RECURSE 0x1234 1 28 [97; 46; 98; 0] [97; 46; 98] [[1; 97]; [1; 98]] 0).
  - by apply bytes_check.
  - apply (cstr_intro [97; 46; 98] []). repeat constructor; discriminate.
  - reflexivity.
  - reflexivity.
  - by vm_compute.
  - repeat constructor; by vm_compute.
  - by vm_compute.
  - by vm_compute.
  - lia.
  - lia.
  - lia.
  - by apply bytes_check.
  - by vm_compute.
  - by vm_compute.
Defined.
