(* ===== verification/ResQuery.v ===== *)
(** * Asking: [dns/resolv/res_query.c]

    [res_nquery] makes a query, has it answered and judges the answer,
    [res_nquerydomain] joins a name and a domain, [res_nsearch] tries the names
    that the search list gives. What goes over the network is a parameter:
    [res_nsend] is an operation on the client's state, to which it may do
    anything, as are [res_randomid] and [_resolv_populate_res_for_net]. The
    functions return an [int], -1 included, as a value. *)
From S2P Require Import Prelude CString NsName NsWire NsText NsNtop NsPton NsPack NsParse NsRecords ResNet ResMkquery.
From coqutil Require Import Datatypes.RecordSetters.
Import DoubleBraceUpdate.

(** ** Constants: [netdb.h], [resolv_private.h], [arpa/nameser.h] *)

Definition HOST_NOT_FOUND : Z := 1.
Definition TRY_AGAIN : Z := 2.
Definition NO_RECOVERY : Z := 3.
Definition NO_DATA : Z := 4.
Definition SERVFAIL : Z := 2.
Definition NXDOMAIN : Z := 3.
Definition RES_F_EDNS0ERR : Z := 4.
Definition RES_DEFNAMES : Z := 0x80.
Definition RES_DNSRCH : Z := 0x200.
Definition RES_NOTLDQUERY : Z := 0x100000.
Definition RES_USE_EDNS0 : Z := 0x40000000.
Definition MAXPACKET : Z := 1024.
Definition MAXDNAME : Z := 1025.
Definition ECONNREFUSED : Z := 111.

(** [options & bits] as a condition. *)
Definition has (options bits : Z) : bool := negb (Z.land options bits =? 0).

(** ** strncpy: [upstream-openbsd/lib/libc/string/strncpy.c] *)

(** [while (--n != 0) *d++ = 0;] *)
Definition strncpy_pad '((d, n) : Z * Z) : M (list Z) (step (Z * Z) unit) :=
  let n := n - 1 in
  if negb (n =? 0) then wr d 0;; mret (Next (d + 1, n)) else mret (Done tt).

Definition strncpy_step (src : list Z) '((d, s, n) : Z * Z * Z) : M (list Z) (step (Z * Z * Z) unit) :=
  c ← rd src s;
  wr d c;;
  let d := d + 1 in
  let s := s + 1 in
  if c =? 0 then loop (Datatypes.S (Z.to_nat n)) strncpy_pad (d, n);; mret (Done tt)
  else
    let n := n - 1 in
    if negb (n =? 0) then mret (Next (d, s, n)) else mret (Done tt).

Definition strncpy (src : list Z) (n : Z) : M (list Z) unit :=
  if negb (n =? 0) then loop (Datatypes.S (Z.to_nat n)) (strncpy_step src) (0, 0, n) else mret tt.

Section resolver.
Context {W : Type}.

(** [struct __res_state] as far as the file uses it, [errno], [h_errno], the
    answer buffer of the caller, and the rest of the world. An element of
    [dnsrch] is a string or NULL. *)
Record client : Type := Client {
  options : Z; _flags : Z; ndots : Z; dnsrch : list (option (list Z)); res_h_errno : Z;
  h_errno : Z; errno : Z; answer : list Z; world : W }.

(** [res_nsend(statp, buf, n, answer, anslen)], on the octets of the query. *)
Context (res_nsend : list Z -> Z -> M client Z).
Context (res_randomid : M client Z).
Context (_resolv_populate_res_for_net : M client unit).

(** What the arrays of the functions' frames hold before they are written. *)
Context (tmp0 buf0 nbuf0 : list Z) (dnptrs0 : list (option Z)).

Definition RES_SET_H_ERRNO (x : Z) : M client unit :=
  updS (fun s => s{{ res_h_errno := x; h_errno := x }}).

Definition on_answer {A} (m : M (list Z) A) : M client A :=
  zoom answer (fun a s => s{{ answer := a }}) m.

(** [hp->rcode] and [ntohs(hp->ancount)] *)
Definition get_rcode : M client Z := on_answer (x ← rdS 3; mret (Z.land x 15)).
Definition get_ancount : M client Z := on_answer (a ← getS; get16 a 6).

(** ** res_nquery *)

(** [n] and the octets of [buf], the error returns of the calls being -1. *)
Definition nquery_make (name : list Z) (class typ anslen : Z) : M client (Z * list Z) :=
  id ← res_randomid;
  s ← getS;
  let edns := negb (has (_flags s) RES_F_EDNS0ERR) && has (options s) (Z.lor RES_USE_EDNS0 RES_USE_DNSSEC) in
  r ← try (on_local buf0 (make_query tmp0 dnptrs0 (options s) id edns name class typ MAXPACKET anslen));
  match r with
  | inl nb => mret nb
  | inr e => (if e =? 0 then mret tt else updS (fun s => s{{ errno := e }}));; mret (-1, buf0)
  end.

(** The [switch] over [hp->rcode]. *)
Definition rcode_h_errno (rcode : Z) : Z :=
  if rcode =? NXDOMAIN then HOST_NOT_FOUND
  else if rcode =? SERVFAIL then TRY_AGAIN
  else if rcode =? NOERROR then NO_DATA
  else NO_RECOVERY.

(** From the label [again] to the [goto] or to a [return]. *)
Definition nquery_step (name : list Z) (class typ anslen oflags : Z) (_ : unit) : M client (step unit Z) :=
  on_answer (set_field 3 0 4 NOERROR);;
  '(n, buf) ← nquery_make name class typ anslen;
  if n <=? 0 then
    RES_SET_H_ERRNO NO_RECOVERY;;
    mret (Done n)
  else
    n ← res_nsend (ztake n buf) anslen;
    if n <? 0 then
      s ← getS;
      if has (options s) (Z.lor RES_USE_EDNS0 RES_USE_DNSSEC) && has (Z.lxor oflags (_flags s)) RES_F_EDNS0ERR then
        updS (fun s => s{{ _flags := Z.lor (_flags s) RES_F_EDNS0ERR }});;
        mret (Next tt)
      else
        RES_SET_H_ERRNO TRY_AGAIN;;
        mret (Done n)
    else
      rcode ← get_rcode;
      ancount ← get_ancount;
      if negb (rcode =? NOERROR) || (ancount =? 0) then
        RES_SET_H_ERRNO (rcode_h_errno rcode);;
        mret (Done (-1))
      else mret (Done n).

(** [fuel] bounds the number of attempts. *)
Definition res_nquery (fuel : nat) (name : list Z) (class typ anslen : Z) : M client Z :=
  s ← getS;
  let oflags := _flags s in
  loop fuel (nquery_step name class typ anslen oflags) tt.

(** ** res_nquerydomain *)

Definition res_nquerydomain (fuel : nat) (name : list Z) (domain : option (list Z)) (class typ anslen : Z) : M client Z :=
  match domain with
  | None =>
      n ← strlen name;
      if MAXDNAME <=? n then RES_SET_H_ERRNO NO_RECOVERY;; mret (-1)
      else
        let n := n - 1 in
        c ← (if 0 <=? n then rd name n else mret 0);
        if (0 <=? n) && (c =? 46) then
          '(_, nbuf) ← on_local nbuf0 (strncpy name n;; wr n 0);
          res_nquery fuel nbuf class typ anslen
        else res_nquery fuel name class typ anslen
  | Some domain =>
      n ← strlen name;
      d ← strlen domain;
      if MAXDNAME <=? n + d + 1 then RES_SET_H_ERRNO NO_RECOVERY;; mret (-1)
      else
        '(_, nbuf) ← on_local nbuf0 (snprintf 0 MAXDNAME (ztake n name ++ [46] ++ ztake d domain));
        res_nquery fuel nbuf class typ anslen
  end.

Definition res_hostalias (name : list Z) : option (list Z) := None.

(** ** res_nsearch *)

(** [for (cp = name; *cp != '\0'; cp++) dots += ( *cp == '.');] with the end. *)
Definition dots_step {S} (name : list Z) '((cp, dots) : Z * Z) : M S (step (Z * Z) (Z * Z)) :=
  c ← rd name cp;
  if c =? 0 then mret (Done (cp, dots))
  else mret (Next (cp + 1, u32 (dots + if c =? 46 then 1 else 0))).

(** The counters of the loop over the search list. *)
Record tally : Type := Tally { got_nodata : Z; got_servfail : Z; root_on_list : Z; searched : Z }.

(** [domain[0][0] == '\0' || (domain[0][0] == '.' && domain[0][1] == '\0')] *)
Definition is_root {S} (domain : list Z) : M S bool :=
  a ← rd domain 0;
  if a =? 0 then mret true
  else if a =? 46 then b ← rd domain 1; mret (b =? 0)
  else mret false.

(** How the loop ends: with a [return], or to go on behind it. *)
Inductive search_exit : Type :=
  | Returned (ret : Z)
  | Searched (t : tally).

(** One iteration; [domain] points to the element [i] of [dnsrch]. *)
Definition search_step (fuel : nat) (name : list Z) (class typ anslen : Z) '((i, done, t) : Z * Z * tally)
    : M client (step (Z * Z * tally) search_exit) :=
  s ← getS;
  domain ← rd (dnsrch s) i;
  match domain with
  | Some domain =>
      if negb (done =? 0) then mret (Done (Searched t))
      else
        root ← is_root domain;
        let t := Tally (got_nodata t) (got_servfail t) (root_on_list t + if root : bool then 1 else 0) 1 in
        ret ← res_nquerydomain fuel name (Some domain) class typ anslen;
        if 0 <? ret then mret (Done (Returned ret))
        else
          s ← getS;
          if errno s =? ECONNREFUSED then
            RES_SET_H_ERRNO TRY_AGAIN;;
            mret (Done (Returned (-1)))
          else
            '(t, done) ←
              (if res_h_errno s =? NO_DATA then
                 mret (Tally (got_nodata t + 1) (got_servfail t) (root_on_list t) (searched t), done)
               else if res_h_errno s =? HOST_NOT_FOUND then mret (t, done)
               else if res_h_errno s =? TRY_AGAIN then
                 rcode ← get_rcode;
                 if rcode =? SERVFAIL then
                   mret (Tally (got_nodata t) (got_servfail t + 1) (root_on_list t) (searched t), done)
                 else mret (t, done + 1)
               else mret (t, done + 1));
            let done := if has (options s) RES_DNSRCH then done else done + 1 in
            mret (Next (i + 1, done, t))
  | None => mret (Done (Searched t))
  end.

(** What follows the loop; [saved_herrno] is -1 unless the name was tried as it is. *)
Definition search_end (fuel : nat) (name : list Z) (class typ anslen dots tried_as_is saved_herrno : Z) (t : tally)
    : M client Z :=
  s ← getS;
  ret ←
    (if (negb (dots =? 0) || (searched t =? 0) || negb (has (options s) RES_NOTLDQUERY)) &&
        negb (negb (tried_as_is =? 0) || negb (root_on_list t =? 0))
     then res_nquerydomain fuel name None class typ anslen
     else mret 0);
  if 0 <? ret then mret ret
  else
    (if negb (saved_herrno =? -1) then RES_SET_H_ERRNO saved_herrno
     else if negb (got_nodata t =? 0) then RES_SET_H_ERRNO NO_DATA
     else if negb (got_servfail t =? 0) then RES_SET_H_ERRNO TRY_AGAIN
     else mret tt);;
    mret (-1).

Definition res_nsearch (fuel : nat) (name : list Z) (class typ anslen : Z) : M client Z :=
  updS (fun s => s{{ errno := 0 }});;
  RES_SET_H_ERRNO HOST_NOT_FOUND;;
  '(cp, dots) ← loop (Datatypes.S (length name)) (dots_step name) (0, 0);
  c ← (if 0 <? cp then rd name (cp - 1) else mret 0);
  let trailing_dot := if (0 <? cp) && (c =? 46) then 1 else 0 in
  match (if dots =? 0 then res_hostalias name else None) with
  | Some cp => res_nquery fuel cp class typ anslen
  | None =>
      s ← getS;
      as_is ←
        (if (ndots s <=? dots) || negb (trailing_dot =? 0) then
           ret ← res_nquerydomain fuel name None class typ anslen;
           if (0 <? ret) || negb (trailing_dot =? 0) then mret (inl ret)
           else s ← getS; mret (inr (res_h_errno s, 1))
         else mret (inr (-1, 0)));
      match as_is with
      | inl ret => mret ret
      | inr (saved_herrno, tried_as_is) =>
          s ← getS;
          x ←
            (if ((dots =? 0) && has (options s) RES_DEFNAMES) ||
                (negb (dots =? 0) && (trailing_dot =? 0) && has (options s) RES_DNSRCH)
             then
               _resolv_populate_res_for_net;;
               loop (Z.to_nat MAXDNSRCH + 2) (search_step fuel name class typ anslen) (0, 0, Tally 0 0 0 0)
             else mret (Searched (Tally 0 0 0 0)));
          match x with
          | Returned ret => mret ret
          | Searched t => search_end fuel name class typ anslen dots tried_as_is saved_herrno t
          end
      end
  end.
End resolver.

#[global] Arguments client : clear implicits.

(** ** strncpy *)

Lemma wp_strncpy_pad b w n fuel (Q : unit -> list Z -> Prop) E :
  1 <= n <= Z.of_nat fuel -> zlen w + (n - 1) <= zlen b ->
  Q tt (splice b 0 (w ++ replicate (Z.to_nat (n - 1)) 0)) ->
  wp (loop fuel strncpy_pad (zlen w, n)) (splice b 0 w) Q E.
Proof.
  revert w n. induction fuel as [|fuel IH]; intros w n Hn Hl HQ; [lia|]. apply wp_loop_S. unfold strncpy_pad.
  destruct (Z.eqb_spec (n - 1) 0) as [H0|H0]; cbn [negb].
  - wp_step. rewrite H0, app_nil_r in HQ. exact HQ.
  - pose proof (zlen_nonneg w). wp_step. wp_step; [rewrite zlen_splice; lia|]. rewrite splice_snoc_alt by lia. wp_step.
    replace (zlen w + 1) with (zlen (w ++ [0])) by (rewrite zlen_app; done).
    apply IH; [lia|rewrite zlen_app; change (zlen [0]) with 1; lia|].
    rewrite <- app_assoc. change ([0] ++ replicate (Z.to_nat (n - 1 - 1)) 0) with (replicate (Datatypes.S (Z.to_nat (n - 1 - 1))) 0).
    by replace (Datatypes.S (Z.to_nat (n - 1 - 1))) with (Z.to_nat (n - 1)) by lia.
Qed.

Lemma wp_strncpy_loop b src w t n fuel E :
  cstr src (zlen w) t -> 1 <= n <= Z.of_nat fuel -> zlen w + n <= zlen b ->
  wp (loop fuel (strncpy_step src) (zlen w, zlen w, n)) (splice b 0 w)
     (fun _ s => s = splice b 0 (w ++ ztake n t ++ replicate (Z.to_nat (n - zlen t)) 0)) E.
Proof.
  revert w t n. induction fuel as [|fuel IH]; intros w t n Hc Hn Hl; [lia|]. apply wp_loop_S. unfold strncpy_step.
  pose proof (zlen_nonneg w). destruct t as [|c t].
  - wp_step. eapply wp_rd; [rewrite <- (Z.add_0_r (zlen w)); exact (cstr_nul _ _ _ Hc)|]. wp_step. wp_step; [rewrite zlen_splice; lia|]. rewrite splice_snoc_alt by lia.
    cbn [Z.eqb]. wp_step. replace (zlen w + 1) with (zlen (w ++ [0])) by (rewrite zlen_app; done).
    apply wp_strncpy_pad; [lia|rewrite zlen_app; change (zlen [0]) with 1; lia|]. wp_step.
    rewrite <- app_assoc. change (zlen (@nil Z)) with 0. rewrite Z.sub_0_r. unfold ztake. rewrite take_nil. cbn [app].
    change (0 :: replicate (Z.to_nat (n - 1)) 0) with (replicate (Datatypes.S (Z.to_nat (n - 1))) 0).
    by replace (Datatypes.S (Z.to_nat (n - 1))) with (Z.to_nat n) by lia.
  - destruct (cstr_cons_l _ _ _ _ Hc) as (Hc0 & Hz & Hc').
    wp_step. apply (wp_rd _ _ _ _ _ _ Hz). wp_step. wp_step; [rewrite zlen_splice; lia|]. rewrite splice_snoc_alt by lia.
    rewrite (proj2 (Z.eqb_neq c 0)) by done.
    assert (Ht : ztake n (c :: t) = c :: ztake (n - 1) t).
    { unfold ztake. replace (Z.to_nat n) with (Datatypes.S (Z.to_nat (n - 1))) by lia. done. }
    rewrite Ht, zlen_cons. destruct (Z.eqb_spec (n - 1) 0) as [H0|H0]; cbn [negb]; wp_step.
    + rewrite H0. pose proof (zlen_nonneg t). replace (Z.to_nat (n - (zlen t + 1))) with 0%nat by lia. done.
    + replace (zlen w + 1) with (zlen (w ++ [c])) in * by (rewrite zlen_app; done).
      eapply wp_conseq; [apply (IH (w ++ [c]) t); [done|lia|rewrite zlen_app; change (zlen [c]) with 1; lia]|].
      intros _ s ->. rewrite <- app_assoc. cbn [app]. by replace (n - 1 - zlen t) with (n - (zlen t + 1)) by lia.
Qed.

(** [strncpy]: at most [n] characters, filled up with NULs to [n]. *)
Lemma wp_strncpy b src t n E :
  cstr src 0 t -> 0 <= n <= zlen b ->
  wp (strncpy src n) b (fun _ s => s = splice b 0 (ztake n t ++ replicate (Z.to_nat (n - zlen t)) 0)) E.
Proof.
  intros Hc Hn. unfold strncpy. destruct (Z.eqb_spec n 0) as [->|H0]; cbn [negb].
  - wp_step. pose proof (zlen_nonneg t). replace (Z.to_nat (0 - zlen t)) with 0%nat by lia. change (ztake 0 t ++ replicate 0 0) with (@nil Z). by rewrite splice_nil.
  - rewrite <- (splice_nil b 0) at 1. apply (wp_strncpy_loop b src []); [done|lia|change (zlen (@nil Z)) with 0; lia].
Qed.

(** ** Names that can be asked for *)

Definition sendable (t : list Z) (ls : list (list Z)) : Prop :=
  exists r, parse t [] = Some (ls, r) /\ zlen (wire ls) <= NS_MAXCDNAME /\ Forall (fun x => zlen x <= 64) ls.

Lemma sendable_fun t ls ls' : sendable t ls -> sendable t ls' -> ls = ls'.
Proof. intros (r & H & _) (r' & H' & _). congruence. Qed.

Lemma wp_compress_bad tmp0 mem t dst dstsiz use_ptrs last p (Q : Z -> packing -> Prop) E :
  bytes t -> cstr mem 0 t -> no_bits t = true -> zlen tmp0 = NS_MAXCDNAME -> (forall ls, ~ sendable t ls) ->
  E EMSGSIZE p -> wp (ns_name_compress tmp0 mem dst dstsiz use_ptrs last) p Q E.
Proof.
  intros Hb Hc Hnb Htmp Hno HE.
  pose proof (wp_pton mem t tmp0 NS_MAXCDNAME Hb Hc Hnb ltac:(unfold NS_MAXCDNAME in *; lia)) as Hw.
  destruct (proj1 (wp_eq _ _ _ _) Hw) as [([r' n] & tmp & _ & Ha)|(e & tmp & Hrun & -> & _)].
  - destruct (accepted_plain _ _ _ _ _ _ Ha) as (ls & Hp & -> & Hmax & _ & Hpl). destruct (Hno ls). exists r'.
    split; [done|]. split; [done|]. eapply Forall_impl; [exact Hpl|]. intros x (l & -> & _ & Hl). rewrite zlen_cons. lia.
  - eapply (wp_run _ (fail EMSGSIZE)); [|by wp_step]. unfold ns_name_compress, ns_name_pton, mbind, M_bind. by rewrite Hrun.
Qed.

Lemma wp_make_query_bad tmp0 dnptrs0 opts id edns dname t class typ anslen b (Q : Z -> list Z -> Prop) :
  bytes t -> cstr dname 0 t -> no_bits t = true -> zlen tmp0 = NS_MAXCDNAME -> 2 <= zlen dnptrs0 -> zlen b = MAXPACKET ->
  (forall ls, ~ sendable t ls) ->
  wp (make_query tmp0 dnptrs0 opts id edns dname class typ MAXPACKET anslen) b Q (fun _ _ => True).
Proof.
  intros Hb Hc Hnb Htmp Hdn Hl Hno. unfold MAXPACKET in *. unfold make_query, res_nmkquery. wp_step. wp_step.
  change (1024 <? HFIXEDSZ) with false. wp_step; [done|].
  wp_step. apply wp_mk_header; [unfold QUERY; set_solver|lia|]. cbv zeta. apply wp_zoom. cbn [pk_buf].
  wp_step. apply wp_zoom. cbn [pk_dnptrs]. wp_step. wp_step; [lia|]. wp_step; [rewrite zlen_zupd; lia|].
  change ((QUERY =? QUERY) || _) with true. cbn iota. unfold mk_question. wp_step. wp_step; [done|].
  wp_step. unfold dn_comp. by eapply wp_compress_bad.
Qed.

(** ** res_nquery *)

Section correct.
Context {W : Type} (res_nsend : list Z -> Z -> M (client W) Z) (res_randomid : M (client W) Z).
Context (_resolv_populate_res_for_net : M (client W) unit).
Context (tmp0 buf0 nbuf0 : list Z) (dnptrs0 : list (option Z)).
Context (class typ anslen : Z).
Implicit Types (s : client W).

(** What holds of the rest of the world all the time. *)
Context (inv : W -> Prop).

(** The client's buffer holds at least the header of an answer. *)
Definition answer_ok s : Prop := (bytes (answer s) /\ 12 <= zlen (answer s)) /\ inv (world s).

(** The configuration that asking leaves alone. *)
Definition same_conf s s' : Prop := options s' = options s /\ ndots s' = ndots s /\ dnsrch s' = dnsrch s.

(** A query for [ls] as [res_nsend] is handed it. *)
Definition query_for s (ls : list (list Z)) (q : list Z) : Prop :=
  exists id edns, q = message (options s) id edns ls class typ MAXPACKET anslen /\
    (edns = true -> has (options s) (Z.lor RES_USE_EDNS0 RES_USE_DNSSEC) = true /\ has (_flags s) RES_F_EDNS0ERR = false).

(** How often the network can still fail while it has the EDNS0 error recorded. *)
Context (patience : W -> nat).

Definition spends s s' : Prop := (patience (world s') <= patience (world s))%nat.

Record environment : Prop := Environment {
  env_tmp : zlen tmp0 = NS_MAXCDNAME;
  env_buf : bytes buf0 /\ zlen buf0 = MAXPACKET;
  env_nbuf : zlen nbuf0 = MAXDNAME;
  env_dnptrs : zlen dnptrs0 = 20;
  env_class : 0 <= class < 65536;
  env_type : 0 <= typ < 65536;
  env_anslen : 0 <= anslen;
  env_id : forall s, exists id w, res_randomid s = (Ret id, Client (options s) (_flags s) (ndots s) (dnsrch s) (res_h_errno s)
     (h_errno s) (errno s) (answer s) w) /\ (patience w <= patience (world s))%nat /\ (inv (world s) -> inv w) }.

(** A network that the client can live with: it answers or fails, whatever it does
    to the flags and the world, and does not fail for ever while it has the
    EDNS0 error recorded. *)
Definition network : Prop := forall s ls q, answer_ok s -> query_for s ls q ->
  wp (res_nsend q anslen) s
     (fun n s' => answer_ok s' /\ same_conf s s' /\ spends s s' /\
        (has (_flags s) RES_F_EDNS0ERR = true -> has (_flags s') RES_F_EDNS0ERR = true) /\
        (n < 0 -> has (_flags s') RES_F_EDNS0ERR = true -> (patience (world s') < patience (world s))%nat))
     (fun _ _ => False).

Context (env : environment).

(** What a query comes to. *)
Inductive verdict (t : list Z) s' : Z -> Prop :=
  | Bad_name : (forall ls, ~ sendable t ls) -> res_h_errno s' = NO_RECOVERY -> verdict t s' (-1)
  | Send_failed n ls : sendable t ls -> n < 0 -> res_h_errno s' = TRY_AGAIN -> verdict t s' n
  | Bad_answer ls : sendable t ls -> (Z.land (byte_at (answer s') 3) 15 <> NOERROR \/ u16_at (answer s') 6 = 0) ->
      res_h_errno s' = rcode_h_errno (Z.land (byte_at (answer s') 3) 15) -> verdict t s' (-1)
  | Answered n ls : sendable t ls -> 0 <= n -> Z.land (byte_at (answer s') 3) 15 = NOERROR -> u16_at (answer s') 6 <> 0 -> verdict t s' n.

Lemma same_conf_trans s1 s2 s3 : same_conf s1 s2 -> same_conf s2 s3 -> same_conf s1 s3.
Proof. unfold same_conf. intros (-> & -> & ->) (-> & -> & ->). done. Qed.

(** The octets handed over for a name that can be asked for. *)
Lemma wp_nquery_make mem t s :
  bytes t -> cstr mem 0 t -> no_bits t = true ->
  wp (nquery_make res_randomid tmp0 buf0 dnptrs0 mem class typ anslen) s
     (fun '(n, buf) s' => exists w e, s' = Client (options s) (_flags s) (ndots s) (dnsrch s) (res_h_errno s)
        (h_errno s) e (answer s) w /\ (patience w <= patience (world s))%nat /\ (inv (world s) -> inv w) /\
        ((0 < n /\ exists ls, sendable t ls /\ query_for s ls (ztake n buf)) \/
         (n = -1 /\ forall ls, ~ sendable t ls)))
     (fun _ _ => False).
Proof.
  intros Hb Hc Hnb. destruct env as [Htmp [Hbb Hbl] _ Hdn Hcl Hty Hans Hid].
  destruct (Hid s) as (id & w & Hrid & Hw & Hwi). unfold nquery_make.
  wp_step. eapply (wp_run _ (mret id)); [exact Hrid|]. wp_step. wp_step. wp_step. cbn [_flags options].
  set (s1 := Client _ _ _ _ _ _ _ _ w). wp_step. wp_step. apply wp_on_local.
  set (edns := negb (has (_flags s) RES_F_EDNS0ERR) && has (options s) (Z.lor RES_USE_EDNS0 RES_USE_DNSSEC)).
  assert (Hdec : (exists ls, sendable t ls) \/ forall ls, ~ sendable t ls).
  { destruct (parse t []) as [[ls r]|] eqn:Hp; [|right; intros ls (r & Hr & _); congruence].
    destruct (decide (zlen (wire ls) <= NS_MAXCDNAME /\ Forall (fun x => zlen x <= 64) ls)) as [Hd|Hd].
    - left. exists ls, r. tauto.
    - right. intros ls' (r' & Hr & Hd'). assert (ls' = ls) as -> by congruence. tauto. }
  assert (Herr : forall e, (forall ls, ~ sendable t ls) ->
    wp ((if e =? 0 then mret tt else updS (fun s0 => s0{{ errno := e }}));; mret (-1, buf0)) s1
     (fun '(n, buf) s' => exists w e, s' = Client (options s) (_flags s) (ndots s) (dnsrch s) (res_h_errno s)
        (h_errno s) e (answer s) w /\ (patience w <= patience (world s))%nat /\ (inv (world s) -> inv w) /\
        ((0 < n /\ exists ls, sendable t ls /\ query_for s ls (ztake n buf)) \/ (n = -1 /\ forall ls, ~ sendable t ls)))
     (fun _ _ => False)).
  { intros e Hno. wp_step. destruct (e =? 0); wp_step; wp_step; (eexists w, _; split; [reflexivity|split; [done|split; [done|by right]]]). }
  destruct Hdec as [[ls (r & Hp & Hmax & H64)]|Hno].
  2: { eapply wp_mono; [apply (wp_make_query_bad _ _ _ _ _ _ t); try done; lia|intros ? ? H; exact H|]. intros e b' _. by apply Herr. }
  eapply wp_mono.
  { apply (wp_make_query tmp0 dnptrs0 (options s) id class typ mem t ls r); try done; unfold MAXPACKET in *; lia. }
  2: { intros e b' [Hno _]. destruct Hno. unfold query_room, NS_MAXCDNAME, MAXPACKET in *. lia. }
  cbv zeta. intros n b' (-> & _ & _ & _ & ->). wp_step. exists w, (errno s). split; [done|]. split; [done|]. split; [done|]. left.
  assert (Hpos : 0 < zlen (message (options s) id edns ls class typ MAXPACKET anslen)).
  { unfold message. pose proof (zlen_wire_pos ls). destruct edns; rewrite !zlen_app, zlen_header, zlen_question;
      [|lia]. pose proof (zlen_nonneg (opt_record (options s) anslen (padding (31 + zlen (wire ls)) MAXPACKET))). lia. }
  split; [done|]. exists ls. split; [by exists r|]. exists id, edns. rewrite ztake_splice_0. split; [done|].
  unfold edns. intros [H1%negb_true_iff H2]%andb_true_iff. done.
Qed.

(** ** The outcome of a query *)

(** Evaluates updates and projections of a literal client. *)
Ltac cl_simpl :=
  cbn [apply_update constant options _flags ndots dnsrch res_h_errno h_errno errno answer world] in *;
  unfold constant in *.

Lemma has_edns0err x : has x RES_F_EDNS0ERR = Z.testbit x 2.
Proof.
  unfold has, RES_F_EDNS0ERR. assert (Z.land x 4 = if Z.testbit x 2 then 4 else 0) as ->; [|by destruct (Z.testbit x 2)].
  apply Z.bits_inj'. intros i Hi. rewrite Z.land_spec. change 4 with (2 ^ 2) at 1. rewrite Z.pow2_bits_eqb by lia.
  destruct (Z.eqb_spec 2 i) as [<-|Hne]; [rewrite andb_true_r; by destruct (Z.testbit x 2)|].
  rewrite andb_false_r. destruct (Z.testbit x 2); [|by rewrite Z.bits_0].
  change 4 with (2 ^ 2). symmetry. rewrite Z.pow2_bits_eqb by lia. by apply Z.eqb_neq.
Qed.

Lemma wp_clear_rcode s (Q : unit -> client W -> Prop) E :
  answer_ok s ->
  (forall a, bytes a -> zlen a = zlen (answer s) -> Q tt (Client (options s) (_flags s) (ndots s) (dnsrch s) (res_h_errno s)
        (h_errno s) (errno s) a (world s))) ->
  wp (on_answer (set_field 3 0 4 NOERROR)) s Q E.
Proof.
  intros [[Hb Hl] _] HQ. apply wp_zoom. unfold set_field, rdS. wp_step.
  destruct (znth_lt (answer s) 3) as [x Hx]; [lia|].
  apply (wp_run _ (mret x) _ (answer s)); [unfold rd; by rewrite Hx|]. wp_step. wp_step; [lia|].
  apply HQ; [|apply zlen_zupd]. pose proof (bytes_znth _ _ _ Hb Hx) as Hbx.
  assert (Hv : is_byte (Z.lor (Z.ldiff x (Z.shiftl (Z.ones 4) 0)) (Z.shiftl (Z.land NOERROR (Z.ones 4)) 0))).
  { pose proof (byte_check (fun x => let y := Z.lor (Z.ldiff x (Z.shiftl (Z.ones 4) 0)) (Z.shiftl (Z.land NOERROR (Z.ones 4)) 0) in
      (0 <=? y) && (y <? 256)) x eq_refl Hbx) as Hc. cbv beta zeta in Hc. unfold is_byte. lia. }
  rewrite zupd_splice by lia. apply bytes_splice; [done|]. constructor; [exact Hv|constructor].
Qed.

Lemma wp_rdS_byte b k (Q : Z -> list Z -> Prop) E : 0 <= k < zlen b -> Q (byte_at b k) b -> wp (rdS k) b Q E.
Proof. intros Hk HQ. eapply wp_run; [reflexivity|]. by apply wp_rd_byte. Qed.

(** The judgement of the answer. *)
Lemma wp_judge t ls n s (Q : step unit Z -> client W -> Prop) E :
  answer_ok s -> sendable t ls -> 0 <= n ->
  (forall m s', verdict t s' m -> answer_ok s' -> same_conf s s' -> spends s s' -> Q (Done m) s') ->
  wp (rcode ← get_rcode; ancount ← get_ancount;
      if negb (rcode =? NOERROR) || (ancount =? 0) then
        RES_SET_H_ERRNO (rcode_h_errno rcode);; mret (Done (-1))
      else mret (Done n)) s Q E.
Proof.
  intros [[Hb Hl] Hi] Hls Hn HQ. unfold RES_SET_H_ERRNO. wp_step. apply wp_zoom. wp_step. apply wp_rdS_byte; [lia|]. wp_step.
  wp_step. apply wp_zoom. cbn [answer]. wp_step. wp_step. apply (wp_get16 (answer s) Hb); [lia|lia|]. 
  destruct s as [o f nd ds hr h e a w]. cbn [answer] in *. cl_simpl.
  destruct (Z.eqb_spec (Z.land (byte_at a 3) 15) NOERROR) as [Hr|Hr]; cbn [negb orb].
  - destruct (Z.eqb_spec (u16_at a 6) 0) as [Ha|Ha].
    + wp_step. wp_step. wp_step. cl_simpl. apply HQ; [|by split|done|unfold spends; cbn; lia].
      eapply (Bad_answer _ _ ls); [done|by right|done].
    + wp_step. apply HQ; [by eapply (Answered _ _ n ls)|by split|done|unfold spends; cbn; lia].
  - wp_step. wp_step. wp_step. cl_simpl. apply HQ; [|by split|done|unfold spends; cbn; lia].
    eapply (Bad_answer _ _ ls); [done|by left|done].
Qed.

Context (net : network).

(** Every attempt, from [again] on. *)
Lemma wp_nquery_step mem t oflags s :
  bytes t -> cstr mem 0 t -> no_bits t = true -> answer_ok s ->
  (has oflags RES_F_EDNS0ERR = true -> has (_flags s) RES_F_EDNS0ERR = true) ->
  wp (nquery_step res_nsend res_randomid tmp0 buf0 dnptrs0 mem class typ anslen oflags tt) s
     (fun r s' => answer_ok s' /\ same_conf s s' /\ spends s s' /\
        match r with
        | Next _ => (patience (world s') < patience (world s))%nat /\ has (_flags s') RES_F_EDNS0ERR = true
        | Done n => verdict t s' n
        end) (fun _ _ => False).
Proof.
  intros Hb Hc Hnb Hok Hof. unfold nquery_step. wp_step. apply wp_clear_rcode; [done|]. intros a Ha Hla.
  set (s1 := Client _ _ _ _ _ _ _ _ _). wp_step. eapply wp_conseq; [by apply (wp_nquery_make mem t s1)|].
  intros [n buf] s2 (w & e & -> & Hw & Hwi & Hn). cbn [s1 options _flags ndots dnsrch res_h_errno h_errno errno answer world] in *.
  set (s2 := Client _ _ _ _ _ _ _ _ w). assert (Hok2 : answer_ok s2) by (destruct Hok as [[? ?] ?]; split; [split; [done|cbn; lia]|by apply Hwi]).
  destruct Hn as [[Hn (ls & Hls & Hq)]|[-> Hno]].
  2: { change (-1 <=? 0) with true. unfold RES_SET_H_ERRNO. wp_step. wp_step. wp_step. unfold s2. cl_simpl.
       split; [done|]. split; [done|]. split; [unfold spends; cbn; lia|]. by apply Bad_name. }
  rewrite (proj2 (Z.leb_gt n 0)) by lia. wp_step.
  assert (Hq2 : query_for s2 ls (ztake n buf)) by done.
  eapply wp_conseq; [by apply (net s2 ls)|]. clear Hn Hq Hq2. intros n' s' (Hok' & Hconf & Hsp & Hkeep & Hpat).
  assert (Hconf0 : same_conf s s') by done. assert (Hsp0 : spends s s') by (unfold spends in *; cbn in *; lia).
  destruct (Z.ltb_spec n' 0) as [Hneg|Hpos].
  - wp_step. wp_step. unfold RES_SET_H_ERRNO.
    destruct (has (options s') _); cbn [andb]; [destruct (has (Z.lxor oflags (_flags s')) RES_F_EDNS0ERR) eqn:Hx|].
    + assert (He : has (_flags s') RES_F_EDNS0ERR = true).
      { rewrite has_edns0err, Z.lxor_spec, <- !has_edns0err in Hx.
        destruct (has oflags RES_F_EDNS0ERR); [by apply Hkeep, Hof|]. by destruct (has (_flags s') RES_F_EDNS0ERR). }
      wp_step. wp_step. wp_step. destruct s' as [o f nd ds hr h e' a' w']. cl_simpl.
      split; [done|]. split; [done|]. split; [done|]. split; [unfold spends in *; specialize (Hpat Hneg He); cbn in *; lia|].
      rewrite has_edns0err, Z.lor_spec. rewrite has_edns0err in He. by rewrite He.
    + wp_step. wp_step. wp_step. destruct s' as [o f nd ds hr h e' a' w']. cl_simpl.
      split; [done|]. split; [done|]. split; [done|]. by apply (Send_failed _ _ _ ls).
    + wp_step. wp_step. wp_step. destruct s' as [o f nd ds hr h e' a' w']. cl_simpl.
      split; [done|]. split; [done|]. split; [done|]. by apply (Send_failed _ _ _ ls).
  - apply (wp_judge t ls n' s'); [done|done|done|]. intros m s3 Hv Hok3 Hconf3 Hsp3. split; [done|].
    split; [by eapply same_conf_trans|]. split; [unfold spends in *; lia|done].
Qed.

Lemma wp_nquery fuel mem t s :
  bytes t -> cstr mem 0 t -> no_bits t = true -> answer_ok s -> (patience (world s) < fuel)%nat ->
  wp (res_nquery res_nsend res_randomid tmp0 buf0 dnptrs0 fuel mem class typ anslen) s
     (fun n s' => answer_ok s' /\ same_conf s s' /\ spends s s' /\ verdict t s' n) (fun _ _ => False).
Proof.
  intros Hb Hc Hnb Hok Hf. unfold res_nquery. wp_step. wp_step.
  apply (wp_loop (fun _ s' => answer_ok s' /\ same_conf s s' /\ spends s s' /\
      (has (_flags s) RES_F_EDNS0ERR = true -> has (_flags s') RES_F_EDNS0ERR = true)) (fun _ s' => patience (world s')));
    [unfold spends; split_and!; try done; lia|done|].
  intros [] s1 (Hok1 & Hconf1 & Hsp1 & Hfl). eapply wp_conseq; [by apply (wp_nquery_step mem t (_flags s) s1)|].
  intros [[]|n] s2 (Hok2 & Hconf2 & Hsp2 & Hr).
  - destruct Hr as [Hp He]. split; [|done]. split; [done|]. split; [by eapply same_conf_trans|].
    split; [unfold spends in *; lia|done].
  - split; [done|]. split; [by eapply same_conf_trans|]. split; [unfold spends in *; lia|done].
Qed.

(** ** res_nquerydomain *)

(** The name with a trailing dot removed, or with a domain behind it. *)
Definition strip_dot (t : list Z) : list Z := if znth t (zlen t - 1) is Some 46 then ztake (zlen t - 1) t else t.

Definition joined (t : list Z) (domain : option (list Z)) : list Z :=
  match domain with None => strip_dot t | Some d => t ++ [46] ++ d end.

Definition too_long (t : list Z) (domain : option (list Z)) : Prop :=
  match domain with None => MAXDNAME <= zlen t | Some d => MAXDNAME <= zlen t + zlen d + 1 end.

(** A query for the joined name, unless it is too long. *)
Definition domain_verdict (t : list Z) (domain : option (list Z)) s' (n : Z) : Prop :=
  (too_long t domain /\ n = -1 /\ res_h_errno s' = NO_RECOVERY) \/ (~ too_long t domain /\ verdict (joined t domain) s' n).

Lemma cstr_splice b t : Forall (fun c => c <> 0) t -> cstr (splice b 0 (t ++ [0])) 0 t.
Proof. intros Ht. rewrite splice_0, <- app_assoc. by apply cstr_intro. Qed.

Lemma bytes_app u v : bytes (u ++ v) <-> bytes u /\ bytes v.
Proof. apply Forall_app. Qed.

Lemma wp_nquerydomain fuel mem t d s :
  bytes t -> cstr mem 0 t -> (forall x, d = Some x -> bytes x /\ Forall (fun c => c <> 0) x) -> no_bits (joined t d) = true ->
  answer_ok s -> (patience (world s) < fuel)%nat ->
  wp (res_nquerydomain res_nsend res_randomid tmp0 buf0 nbuf0 dnptrs0 fuel mem ((fun x => x ++ [0]) <$> d) class typ anslen) s
     (fun n s' => answer_ok s' /\ same_conf s s' /\ spends s s' /\ domain_verdict t d s' n) (fun _ _ => False).
Proof.
  intros Hb Hc Hd Hnb Hok Hf. pose proof (env_nbuf env) as Hnl. unfold MAXDNAME in Hnl. pose proof (zlen_nonneg t).
  assert (Hlong : too_long t d -> wp (RES_SET_H_ERRNO NO_RECOVERY;; mret (-1)) s
     (fun n s' => answer_ok s' /\ same_conf s s' /\ spends s s' /\ domain_verdict t d s' n) (fun _ _ => False)).
  { intros Hl. unfold RES_SET_H_ERRNO. wp_step. wp_step. wp_step. destruct s as [o f nd ds hr h e a w]. cl_simpl.
    split; [done|]. split; [done|]. split; [unfold spends; cbn; lia|]. by left. }
  assert (Hask : forall nb, ~ too_long t d -> bytes (joined t d) -> cstr nb 0 (joined t d) ->
     wp (res_nquery res_nsend res_randomid tmp0 buf0 dnptrs0 fuel nb class typ anslen) s
     (fun n s' => answer_ok s' /\ same_conf s s' /\ spends s s' /\ domain_verdict t d s' n) (fun _ _ => False)).
  { intros nb Hl Hbj Hcj. eapply wp_conseq; [by apply (wp_nquery fuel nb (joined t d) s)|].
    intros n s' (H1 & H2 & H3 & H4). do 3 (split; [done|]). by right. }
  pose proof (cstr_nonzero _ _ _ Hc) as Hnz. pose proof (cstr_ztake _ _ Hc) as Htk.
  destruct d as [x|]; cbn [fmap option_fmap option_map res_nquerydomain joined too_long] in *.
  - destruct (Hd x eq_refl) as [Hbx Hx0]. pose proof (zlen_nonneg x).
    assert (Hcx : cstr (x ++ [0]) 0 x) by (by apply cstr_intro).
    wp_step. eapply wp_conseq; [by apply wp_strlen|]. intros ? ? [-> ->].
    wp_step. eapply wp_conseq; [by apply wp_strlen|]. intros ? ? [-> ->].
    destruct (Z.leb_spec MAXDNAME (zlen t + zlen x + 1)) as [Hl|Hl]; [by apply Hlong|]. unfold MAXDNAME in Hl.
    wp_step. apply wp_on_local. rewrite Htk, (cstr_ztake _ _ Hcx).
    assert (Hzj : zlen (t ++ [46] ++ x) = zlen t + zlen x + 1) by (rewrite !zlen_app; change (zlen [46]) with 1; lia).
    unfold snprintf, MAXDNAME. change (1025 =? 0) with false. cbv zeta. rewrite (ztake_ge (1025 - 1)) by lia.
    assert (Hz0 : zlen ((t ++ [46] ++ x) ++ [0]) = zlen t + zlen x + 2) by (rewrite zlen_app, Hzj; change (zlen [0]) with 1; lia).
    wp_step. apply wp_memcpy; [lia|lia|lia|lia|lia|].
    rewrite zdrop_0, ztake_all. wp_step. apply Hask; [unfold MAXDNAME; lia| |].
    + apply bytes_app. split; [done|]. constructor; [unfold is_byte; lia|done].
    + apply cstr_splice. apply Forall_app. split; [done|]. by constructor.
  - wp_step. eapply wp_conseq; [by apply wp_strlen|]. intros ? ? [-> ->].
    destruct (Z.leb_spec MAXDNAME (zlen t)) as [Hl|Hl]; [by apply Hlong|]. unfold MAXDNAME in Hl.
    unfold strip_dot in *. destruct (Z.leb_spec 0 (zlen t - 1)) as [Hpos|Hpos].
    + destruct (cstr_at _ _ _ (zlen t - 1) Hc) as (c & Hct & _ & Hcm); [lia|]. rewrite Z.add_0_l in Hcm.
      rewrite Hct in *. wp_step. apply (wp_rd _ _ _ _ _ _ Hcm). cbn [andb].
      destruct (Z.eqb_spec c 46) as [->|Hc46].
      * wp_step. apply wp_on_local. wp_step. eapply wp_conseq; [by apply (wp_strncpy nbuf0 mem t); [done|lia]|].
        intros _ nb ->. replace (Z.to_nat (zlen t - 1 - zlen t)) with 0%nat by lia. rewrite app_nil_r.
        assert (Hzt : zlen (ztake (zlen t - 1) t) = zlen t - 1) by (apply zlen_ztake; lia).
        wp_step; [rewrite zlen_splice; lia|]. rewrite splice_snoc_alt by lia.
        apply Hask; [unfold MAXDNAME; lia|by apply Forall_take|]. apply cstr_splice. by apply Forall_take.
      * apply Hask; [unfold MAXDNAME; lia| |]; destruct c as [|p|p]; try done; by repeat case_match.
    + rewrite znth_None in * by lia. wp_step. wp_step. cbn [andb]. by apply Hask; [unfold MAXDNAME; lia| |].
Qed.

(** ** res_nsearch *)

Section search.
Context (fuel : nat) (mem t : list Z) (ds : list (list Z)).
Context (Hb : bytes t) (Hc : cstr mem 0 t) (Hlt : zlen t < 2 ^ 32).
Context (Hds : Forall (fun d => bytes d /\ Forall (fun c => c <> 0) d) ds) (Hdl : zlen ds <= MAXDNSRCH).
Context (Hnb : no_bits (strip_dot t) = true) (Hnbd : Forall (fun d => no_bits (t ++ [46] ++ d) = true) ds).

(** The search list in memory, ended by NULL. *)
Definition search_list s : Prop := exists junk, dnsrch s = map (fun d => Some (d ++ [0])) ds ++ None :: junk.

(** [_resolv_populate_res_for_net] gives the client its search list. *)
Definition populates : Prop := forall s, answer_ok s ->
  wp _resolv_populate_res_for_net s
     (fun _ s' => answer_ok s' /\ options s' = options s /\ ndots s' = ndots s /\ spends s s' /\ search_list s')
     (fun _ _ => False).
Context (pop : populates).

(** What was asked, what came back, and the client behind it. *)
Definition entry : Type := option (list Z) * Z * client W.

Inductive trace : client W -> list entry -> client W -> Prop :=
  | trace_nil s : trace s [] s
  | trace_ask s d n s1 l s2 :
      res_nquerydomain res_nsend res_randomid tmp0 buf0 nbuf0 dnptrs0 fuel mem ((fun x => x ++ [0]) <$> d) class typ anslen s = (Ret n, s1) ->
      domain_verdict t d s1 n -> trace s1 l s2 -> trace s ((d, n, s1) :: l) s2.

Lemma trace_app s l1 s1 l2 s2 : trace s l1 s1 -> trace s1 l2 s2 -> trace s (l1 ++ l2) s2.
Proof. induction 1; intros H'; [done|eapply trace_ask; eauto]. Qed.

(** The answer to a domain lets the search go on with the next one. *)
Definition goes_on s : Prop :=
  has (options s) RES_DNSRCH = true /\
  (res_h_errno s = NO_DATA \/ res_h_errno s = HOST_NOT_FOUND \/
   (res_h_errno s = TRY_AGAIN /\ Z.land (byte_at (answer s) 3) 15 = SERVFAIL)).

Definition refused s : Prop := errno s = ECONNREFUSED.

(** A domain that makes the joined name the name itself. *)
Definition root_domain (d : list Z) : bool := bool_decide (d = [] \/ d = [46]).

(** Domains that were asked in turn without success. *)
Definition domain_asked (e : entry) (d : list Z) : Prop := exists n s', e = (Some d, n, s') /\ n <= 0 /\ ~ refused s'.

Definition counted (l : list entry) (tl : tally) : Prop :=
  0 <= got_nodata tl /\ 0 <= got_servfail tl /\ 0 <= root_on_list tl /\
  (got_nodata tl <> 0 <-> Exists (fun e : entry => res_h_errno e.2 = NO_DATA) l) /\
  (got_servfail tl <> 0 <-> Exists (fun e : entry => res_h_errno e.2 = TRY_AGAIN /\ Z.land (byte_at (answer e.2) 3) 15 = SERVFAIL) l) /\
  (root_on_list tl <> 0 <-> Exists (fun d => root_domain d = true) (take (length l) ds)) /\
  (searched tl = if decide (l = []) then 0 else 1).

(** After [length l] domains; [stop] tells whether the last one ends the search. *)
Definition loop_inv s0 (l : list entry) '((i, done, tl) : Z * Z * tally) s : Prop :=
  trace s0 l s /\ Forall2 domain_asked l (take (length l) ds) /\ i = zlen l /\ counted l tl /\ 0 <= done /\
  answer_ok s /\ same_conf s0 s /\ spends s0 s /\ search_list s /\
  (done = 0 -> Forall (fun e : entry => goes_on e.2) l) /\
  (done <> 0 -> exists l' e, l = l' ++ [e] /\ Forall (fun e : entry => goes_on e.2) l' /\ ~ goes_on e.2).

(** What the loop over the search list comes to. *)
Definition loop_post s0 (x : search_exit) s : Prop :=
  match x with
  | Returned n => exists l d n' s1, trace s0 (l ++ [(Some d, n', s1)]) s1 /\
      Forall2 domain_asked l (take (length l) ds) /\ ds !! length l = Some d /\ answer_ok s /\
      ((0 < n /\ n' = n /\ s = s1) \/
       (n = -1 /\ n' <= 0 /\ refused s1 /\ s = s1{{ res_h_errno := TRY_AGAIN; h_errno := TRY_AGAIN }}))
  | Searched tl => exists l, trace s0 l s /\ Forall2 domain_asked l (take (length l) ds) /\ counted l tl /\
      answer_ok s /\ same_conf s0 s /\ spends s0 s /\
      ((length l = length ds /\ Forall (fun e : entry => goes_on e.2) l) \/
       exists l' e, l = l' ++ [e] /\ Forall (fun e : entry => goes_on e.2) l' /\ ~ goes_on e.2)
  end.

Lemma wp_is_root {S} d (st : S) (Q : bool -> S -> Prop) E :
  Forall (fun c => c <> 0) d -> Q (root_domain d) st -> wp (is_root (d ++ [0])) st Q E.
Proof.
  intros Hd HQ. unfold is_root, root_domain in *. wp_step. destruct d as [|a d].
  - eapply wp_rd; [reflexivity|]. wp_step. exact HQ.
  - apply Forall_cons in Hd as [Ha Hd]. eapply wp_rd; [reflexivity|]. rewrite (proj2 (Z.eqb_neq a 0)) by done.
    destruct (Z.eqb_spec a 46) as [->|Ha46].
    + wp_step. destruct d as [|b d]; [eapply wp_rd; [reflexivity|]; wp_step; exact HQ|].
      apply Forall_cons in Hd as [Hb0 _]. eapply wp_rd; [reflexivity|]. wp_step. rewrite (proj2 (Z.eqb_neq b 0)) by done.
      rewrite bool_decide_eq_false_2 in HQ; [done|]. intros [?|?]; congruence.
    + wp_step. rewrite bool_decide_eq_false_2 in HQ; [done|]. intros [?|?]; congruence.
Qed.

Lemma wp_keep {S A} (m : M S A) (st : S) Q E : wp m st Q E -> wp m st (fun a st' => m st = (Ret a, st') /\ Q a st') E.
Proof. unfold wp. destruct (m st) as [[]?]; auto. Qed.

Lemma Exists_snoc {A} (P : A -> Prop) l x : Exists P (l ++ [x]) <-> Exists P l \/ P x.
Proof. rewrite Exists_app, Exists_cons, Exists_nil. tauto. Qed.

(** One more domain in the tally. *)
Definition tally_next (tl : tally) (d : list Z) s : tally :=
  Tally (got_nodata tl + if res_h_errno s =? NO_DATA then 1 else 0)
        (got_servfail tl + if (res_h_errno s =? TRY_AGAIN) && (Z.land (byte_at (answer s) 3) 15 =? SERVFAIL) then 1 else 0)
        (root_on_list tl + if root_domain d then 1 else 0) 1.

Lemma counted_snoc l tl d n s : counted l tl -> ds !! length l = Some d -> counted (l ++ [(Some d, n, s)]) (tally_next tl d s).
Proof.
  intros (Hn & Hs & Hr & H1 & H2 & H3 & _) Hd. unfold counted, tally_next. cbn [got_nodata got_servfail root_on_list searched].
  rewrite length_app, !Exists_snoc, <- H1, <- H2. cbn [length snd]. rewrite Nat.add_1_r, (take_S_r _ _ _ Hd), Exists_snoc, <- H3.
  assert (Hif : forall (b : bool), 0 <= (if b then 1 else 0)) by (by intros []).
  assert (Hiff : forall k (b : bool), 0 <= k -> k + (if b then 1 else 0) <> 0 <-> k <> 0 \/ b = true)
    by (intros k []; split; intros; try lia; destruct H; try done; lia).
  rewrite !Hiff by done. split; [specialize (Hif (res_h_errno s =? NO_DATA)); lia|].
  split; [specialize (Hif ((res_h_errno s =? TRY_AGAIN) && (Z.land (byte_at (answer s) 3) 15 =? SERVFAIL))); lia|].
  split; [specialize (Hif (root_domain d)); lia|]. rewrite andb_true_iff, !Z.eqb_eq.
  split; [done|]. split; [done|]. split; [done|]. rewrite decide_False; [done|]. by destruct l.
Qed.

Lemma goes_on_stop s :
  ~ goes_on s <-> has (options s) RES_DNSRCH = false \/ (res_h_errno s <> NO_DATA /\ res_h_errno s <> HOST_NOT_FOUND /\
    (res_h_errno s <> TRY_AGAIN \/ Z.land (byte_at (answer s) 3) 15 <> SERVFAIL)).
Proof.
  unfold goes_on. destruct (has (options s) RES_DNSRCH); split; intros H; try (left; done).
  - right. destruct (Z.eq_dec (res_h_errno s) NO_DATA), (Z.eq_dec (res_h_errno s) HOST_NOT_FOUND),
      (Z.eq_dec (res_h_errno s) TRY_AGAIN), (Z.eq_dec (Z.land (byte_at (answer s) 3) 15) SERVFAIL); tauto.
  - intros [_ Ho]. destruct H as [?|(? & ? & ?)]; [done|]. tauto.
  - intros [? _]. done.
Qed.

Lemma asked_length l : Forall2 domain_asked l (take (length l) ds) -> (length l <= length ds)%nat.
Proof. intros H. apply Forall2_length in H. rewrite length_take in H. lia. Qed.

(** The judgement of a failed domain: the code's [switch]. *)
Lemma wp_switch done tl d s (Q : step (Z * Z * tally) search_exit -> client W -> Prop) E i :
  answer_ok s ->
  (forall done', (done' = done <-> goes_on s) -> done <= done' -> Q (Next (i + 1, done', tally_next tl d s)) s) ->
  wp ('(t0, done0) ←
        (if res_h_errno s =? NO_DATA then
           mret (Tally (got_nodata tl + 1) (got_servfail tl) (root_on_list tl + if root_domain d then 1 else 0) 1, done)
         else if res_h_errno s =? HOST_NOT_FOUND then
           mret (Tally (got_nodata tl) (got_servfail tl) (root_on_list tl + if root_domain d then 1 else 0) 1, done)
         else if res_h_errno s =? TRY_AGAIN then
           rcode ← get_rcode;
           if rcode =? SERVFAIL then
             mret (Tally (got_nodata tl) (got_servfail tl + 1) (root_on_list tl + if root_domain d then 1 else 0) 1, done)
           else mret (Tally (got_nodata tl) (got_servfail tl) (root_on_list tl + if root_domain d then 1 else 0) 1, done + 1)
         else mret (Tally (got_nodata tl) (got_servfail tl) (root_on_list tl + if root_domain d then 1 else 0) 1, done + 1));
      let done0 := if has (options s) RES_DNSRCH then done0 else done0 + 1 in
      mret (Next (i + 1, done0, t0))) s Q E.
Proof.
  intros [[Hbs Hls] _] HQ. unfold tally_next in HQ.
  assert (Hend : forall (b : bool) tl', (b = true <-> res_h_errno s = NO_DATA \/ res_h_errno s = HOST_NOT_FOUND \/
      (res_h_errno s = TRY_AGAIN /\ Z.land (byte_at (answer s) 3) 15 = SERVFAIL)) -> tl' = tally_next tl d s ->
    Q (Next (i + 1, if has (options s) RES_DNSRCH then if b then done else done + 1 else (if b then done else done + 1) + 1, tl')) s).
  { intros b tl' Hb' ->. apply HQ; [|destruct (has _ _), b; lia]. unfold goes_on. rewrite <- Hb'.
    destruct (has (options s) RES_DNSRCH), b; split; intros; try lia; try done; destruct H; done. }
  unfold tally_next in Hend. wp_step. destruct (Z.eqb_spec (res_h_errno s) NO_DATA) as [E1|E1].
  { wp_step. cbv zeta. wp_step. apply (Hend true); [tauto|]. rewrite E1. cbn [Z.eqb andb]. by rewrite Z.add_0_r. }
  destruct (Z.eqb_spec (res_h_errno s) HOST_NOT_FOUND) as [E2|E2].
  { wp_step. cbv zeta. wp_step. apply (Hend true); [tauto|]. rewrite E2. cbn. by rewrite !Z.add_0_r. }
  destruct (Z.eqb_spec (res_h_errno s) TRY_AGAIN) as [E3|E3].
  - wp_step. unfold get_rcode. apply wp_zoom. wp_step. apply wp_rdS_byte; [lia|]. wp_step. destruct s as [o f nd dss hr h e a w].
    cl_simpl. destruct (Z.eqb_spec (Z.land (byte_at a 3) 15) SERVFAIL) as [E4|E4]; wp_step; cbv zeta; wp_step.
    + apply (Hend true); [tauto|]. by rewrite !Z.add_0_r.
    + apply (Hend false); [split; [done|tauto]|]. by rewrite !Z.add_0_r.
  - wp_step. cbv zeta. wp_step. apply (Hend false); [split; [done|tauto]|]. cbn [andb]. by rewrite !Z.add_0_r.
Qed.

Lemma search_list_conf s s' : same_conf s s' -> search_list s -> search_list s'.
Proof. intros (_ & _ & Hd) [junk H]. exists junk. congruence. Qed.

Lemma search_list_znth s i : search_list s -> 0 <= i <= zlen ds ->
  znth (dnsrch s) i = Some ((fun d => d ++ [0]) <$> ds !! Z.to_nat i).
Proof.
  intros [junk ->] Hi. destruct (Z.eq_dec i (zlen ds)) as [->|Hne].
  - rewrite znth_app_r, zlen_map, Z.sub_diag by (rewrite zlen_map; lia).
    unfold zlen. rewrite Nat2Z.id, lookup_ge_None_2 by lia. done.
  - rewrite znth_app_l by (rewrite zlen_map; lia). rewrite znth_map. unfold znth. rewrite (proj2 (Z.ltb_ge i 0)) by lia.
    destruct (lookup_lt_is_Some_2 ds (Z.to_nat i)) as [d Hd]; [unfold zlen in *; lia|]. by rewrite Hd.
Qed.

(** How an iteration leaves the loop without asking. *)
Lemma loop_leave s0 l i done tl s : loop_inv s0 l (i, done, tl) s -> length l = length ds \/ done <> 0 -> loop_post s0 (Searched tl) s.
Proof.
  intros (H1 & H2 & _ & H4 & _ & H6 & H7 & H8 & _ & H10 & H11) Hend. exists l. do 6 (split; [done|]).
  destruct (Z.eq_dec done 0) as [Hd|Hd]; [left; split; [tauto|by apply H10]|right; by apply H11].
Qed.

Lemma wp_search_step s0 l st s :
  loop_inv s0 l st s -> (patience (world s0) < fuel)%nat ->
  wp (search_step res_nsend res_randomid tmp0 buf0 nbuf0 dnptrs0 fuel mem class typ anslen st) s
     (fun r s' => match r with
                  | Next st' => exists l', loop_inv s0 l' st' s' /\ length l' = Datatypes.S (length l)
                  | Done x => loop_post s0 x s'
                  end) (fun _ _ => False).
Proof.
  destruct st as [[i done] tl]. intros Hinv Hf. pose proof Hinv as (Htr & Hask & -> & Hcnt & Hdn & Hok & Hconf & Hsp & Hsl & Hgo & _).
  pose proof (asked_length _ Hask) as Hll. unfold search_step. wp_step. wp_step. wp_step.
  eapply wp_rd; [apply search_list_znth; [done|unfold zlen; lia]|]. unfold zlen at 1. rewrite Nat2Z.id.
  destruct (ds !! length l) as [d|] eqn:Hd; cbn [fmap option_fmap option_map].
  2: { wp_step. apply (loop_leave _ _ _ _ _ _ Hinv). left. apply lookup_ge_None in Hd. lia. }
  destruct (Z.eqb_spec done 0) as [->|Hdone]; cbn [negb]; [|wp_step; apply (loop_leave _ _ _ _ _ _ Hinv); by right].
  rewrite Forall_forall in Hds, Hnbd. pose proof (list_elem_of_lookup_2 _ _ _ Hd) as Hin. destruct (Hds d Hin) as [Hbd Hd0].
  wp_step. apply wp_is_root; [done|]. cbv zeta. wp_step.
  eapply wp_conseq; [apply wp_keep; apply (wp_nquerydomain fuel mem t (Some d) s Hb Hc); try done|].
  { intros x [= <-]. done. }
  { by apply Hnbd. }
  { unfold spends in Hsp. lia. }
  intros n s1 (Hrun & Hok1 & Hconf1 & Hsp1 & Hv).
  assert (Htr1 : trace s0 (l ++ [(Some d, n, s1)]) s1) by (eapply trace_app; [exact Htr|]; eapply trace_ask; [exact Hrun|exact Hv|constructor]).
  destruct (Z.ltb_spec 0 n) as [Hpos|Hneg].
  { wp_step. exists l, d, n, s1. split; [done|]. split; [done|]. split; [done|]. split; [done|]. by left. }
  wp_step. wp_step. destruct (Z.eqb_spec (errno s1) ECONNREFUSED) as [Href|Href].
  { unfold RES_SET_H_ERRNO. wp_step. wp_step. wp_step. exists l, d, n, s1. split; [done|]. split; [done|]. split; [done|].
    split; [by destruct s1|]. right. split; [done|]. split; [done|]. split; [done|]. by destruct s1. }
  apply (wp_switch 0 tl d s1); [done|]. intros done' Hgo' Hle. exists (l ++ [(Some d, n, s1)]).
  split; [|rewrite length_app; cbn; lia]. split; [done|]. split.
  { rewrite length_app, Nat.add_1_r, (take_S_r _ _ _ Hd). apply Forall2_app; [done|]. constructor; [|done]. by exists n, s1. }
  split; [by rewrite zlen_app|]. split; [by apply counted_snoc|]. split; [done|]. split; [done|].
  split; [by eapply same_conf_trans|]. split; [unfold spends in *; lia|]. split; [by eapply search_list_conf|]. split.
  - intros ->. apply Forall_app. split; [by apply Hgo|]. constructor; [by apply Hgo'|done].
  - intros Hne. exists l, (Some d, n, s1). split; [done|]. split; [by apply Hgo|]. cbn. tauto.
Qed.

Lemma wp_search_list s :
  answer_ok s -> search_list s -> (patience (world s) < fuel)%nat ->
  wp (loop (Z.to_nat MAXDNSRCH + 2) (search_step res_nsend res_randomid tmp0 buf0 nbuf0 dnptrs0 fuel mem class typ anslen) (0, 0, Tally 0 0 0 0)) s
     (loop_post s) (fun _ _ => False).
Proof.
  intros Hok Hsl Hf. eapply wp_conseq.
  { apply (wp_loop (fun st s' => exists l, loop_inv s l st s') (fun '(i, _, _) _ => Z.to_nat (zlen ds - i))).
    - exists []. split; [constructor|]. split; [constructor|]. split; [done|].
      split; [unfold counted; cbn; rewrite !Exists_nil; split_and!; try lia; try done|].
      split; [done|]. split; [done|]. split; [done|]. split; [unfold spends; lia|]. split; [done|]. split; [done|]. done.
    - unfold MAXDNSRCH in *. lia.
    - intros [[i done] tl] s1 (l & Hinv). eapply wp_conseq; [by apply (wp_search_step s l)|].
      intros [st'|x] s2; [|intros H; exact H]. intros (l' & Hinv' & Hl'). destruct st' as [[i' done'] tl'].
      destruct Hinv as (_ & _ & -> & _). pose proof Hinv' as (_ & Hask' & -> & _). pose proof (asked_length _ Hask').
      split; [by exists l'|]. unfold zlen in *. lia. }
  intros x s' H. exact H.
Qed.

(** ** What a search comes to *)

Definition dots_of (l : list Z) : Z := zlen (filter (fun c => c = 46) l).
Definition trailing (l : list Z) : bool := bool_decide (znth l (zlen l - 1) = Some 46).

(** The name is tried as it is before the search list; the search list is tried;
    the name is tried as it is behind it, [ld] being the domains asked. *)
Definition as_is_first s : bool := (ndots s <=? dots_of t) || trailing t.
Definition searches s : bool :=
  ((dots_of t =? 0) && has (options s) RES_DEFNAMES) ||
  (negb (dots_of t =? 0) && negb (trailing t) && has (options s) RES_DNSRCH).
Definition as_is_last s (ld : list entry) : bool :=
  negb (as_is_first s) && (negb (dots_of t =? 0) || bool_decide (ld = []) || negb (has (options s) RES_NOTLDQUERY)) &&
  negb (bool_decide (Exists (fun d => root_domain d = true) (take (length ld) ds))).

(** A try of the name as it is, without success, if it is made. *)
Definition as_is_part (l : list entry) (b : bool) : Prop :=
  if b then exists n s', l = [(None, n, s')] /\ n <= 0 else l = [].

Definition domains_part (ld : list entry) : Prop := Forall2 domain_asked ld (take (length ld) ds).

(** The search list is used up, or its last answer was definite. *)
Definition domains_done s (ld : list entry) : Prop :=
  domains_part ld /\
  if searches s then
    (length ld = length ds /\ Forall (fun e : entry => goes_on e.2) ld) \/
    (exists l' e, ld = l' ++ [e] /\ Forall (fun e : entry => goes_on e.2) l' /\ ~ goes_on e.2)
  else ld = [].

(** The error left behind: that of the first try, else the best one known. *)
Definition with_h_errno (x : Z) s : client W := s{{ res_h_errno := x; h_errno := x }}.
Definition left_errno (la ld : list entry) s : client W :=
  let saved := match la with e :: _ => res_h_errno e.2 | [] => -1 end in
  if decide (saved <> -1) then with_h_errno saved s
  else if decide (Exists (fun e : entry => res_h_errno e.2 = NO_DATA) ld) then with_h_errno NO_DATA s
  else if decide (Exists (fun e : entry => res_h_errno e.2 = TRY_AGAIN /\ Z.land (byte_at (answer e.2) 3) 15 = SERVFAIL) ld)
  then with_h_errno TRY_AGAIN s else s.

Definition start s : client W := with_h_errno HOST_NOT_FOUND (s{{ errno := 0 }}).

(** The search list is loaded between the first try and the domains. *)
Definition loaded s s1 s2 : Prop := if searches s then _resolv_populate_res_for_net s1 = (Ret tt, s2) else s2 = s1.
Definition path s (la l : list entry) s' : Prop := exists s1 s2, trace (start s) la s1 /\ loaded s s1 s2 /\ trace s2 l s'.

Inductive outcome s : Z -> client W -> Prop :=
  | First_hit n s' : as_is_first s = true -> trace (start s) [(None, n, s')] s' -> 0 < n -> outcome s n s'
  | Dotted_miss n s' : trailing t = true -> trace (start s) [(None, n, s')] s' -> n <= 0 -> outcome s n s'
  | Domain_hit la ld d n s' : trailing t = false -> searches s = true -> as_is_part la (as_is_first s) -> domains_part ld ->
      ds !! length ld = Some d -> path s la (ld ++ [(Some d, n, s')]) s' -> 0 < n -> outcome s n s'
  | Refused la ld d n s1 : trailing t = false -> searches s = true -> as_is_part la (as_is_first s) -> domains_part ld ->
      ds !! length ld = Some d -> path s la (ld ++ [(Some d, n, s1)]) s1 -> n <= 0 -> refused s1 ->
      outcome s (-1) (with_h_errno TRY_AGAIN s1)
  | Last_hit ld n s' : trailing t = false -> domains_done s ld -> as_is_last s ld = true ->
      path s [] (ld ++ [(None, n, s')]) s' -> 0 < n -> outcome s n s'
  | Exhausted la ld lf s1 : trailing t = false -> as_is_part la (as_is_first s) -> domains_done s ld ->
      as_is_part lf (as_is_last s ld) -> path s la (ld ++ lf) s1 -> outcome s (-1) (left_errno la ld s1).

Lemma wp_dots {S} (st : S) E :
  wp (loop (Datatypes.S (length mem)) (dots_step mem) (0, 0)) st (fun r st' => r = (zlen t, dots_of t) /\ st' = st) E.
Proof.
  pose proof (cstr_len _ _ _ Hc) as Hlm. pose proof (zlen_nonneg t). rewrite Z.add_0_l in Hlm.
  eapply (wp_loop (fun '(cp, dots) st' => st' = st /\ 0 <= cp <= zlen t /\ dots = dots_of (ztake cp t))
            (fun '(cp, _) _ => Z.to_nat (zlen t - cp))); [split; [done|split; [lia|done]]|unfold zlen in *; lia|].
  intros [cp dots] st' (-> & Hcp & ->). unfold dots_step. wp_step.
  destruct (Z.eq_dec cp (zlen t)) as [->|Hne].
  - eapply wp_rd; [exact (cstr_nul _ _ _ Hc)|]. cbn [Z.eqb]. wp_step. by rewrite ztake_all.
  - destruct (cstr_at _ _ _ cp Hc) as (c & Hct & Hc0 & Hcm); [lia|]. rewrite Z.add_0_l in Hcm.
    apply (wp_rd _ _ _ _ _ _ Hcm). rewrite (proj2 (Z.eqb_neq c 0)) by done. wp_step.
    assert (Hd : dots_of (ztake (cp + 1) t) = dots_of (ztake cp t) + if c =? 46 then 1 else 0).
    { rewrite (ztake_snoc _ _ _ Hct). unfold dots_of. rewrite filter_app, zlen_app. f_equal.
      destruct (Z.eqb_spec c 46) as [->|Hc46]; [by rewrite filter_cons_True|by rewrite filter_cons_False]. }
    assert (Hle : forall l, 0 <= dots_of l <= zlen l).
    { intros l. unfold dots_of, zlen. pose proof (length_filter (fun c => c = 46) l). lia. }
    pose proof (Hle (ztake (cp + 1) t)) as Hb'. rewrite zlen_ztake in Hb' by lia.
    split; [|lia]. split; [done|]. split; [lia|]. rewrite Hd. unfold u32. apply Z.mod_small. lia.
Qed.

Lemma answer_ok_with x s : answer_ok s -> answer_ok (with_h_errno x s).
Proof. by destruct s. Qed.

Lemma wp_with x s (Q : unit -> client W -> Prop) E : Q tt (with_h_errno x s) -> wp (RES_SET_H_ERRNO x) s Q E.
Proof. intros HQ. unfold RES_SET_H_ERRNO. by wp_step. Qed.

(** A try of the name as it is. *)
Lemma wp_as_is s : answer_ok s -> (patience (world s) < fuel)%nat ->
  wp (res_nquerydomain res_nsend res_randomid tmp0 buf0 nbuf0 dnptrs0 fuel mem None class typ anslen) s
     (fun n s' => trace s [(None, n, s')] s' /\ answer_ok s' /\ same_conf s s' /\ spends s s') (fun _ _ => False).
Proof.
  intros Hok Hf. eapply wp_conseq; [apply wp_keep; by apply (wp_nquerydomain fuel mem t None s Hb Hc)|].
  intros n s' (Hrun & Hok' & Hconf & Hsp & Hv). split; [|done]. eapply trace_ask; [exact Hrun|exact Hv|constructor].
Qed.

(** The error left behind, from the code's counters. *)
Lemma wp_left_errno la ld tl s1 (Q : Z -> client W -> Prop) E :
  counted ld tl -> Q (-1) (left_errno la ld s1) ->
  wp ((if negb ((match la with e :: _ => res_h_errno e.2 | [] => -1 end) =? -1)
       then RES_SET_H_ERRNO (match la with e :: _ => res_h_errno e.2 | [] => -1 end)
       else if negb (got_nodata tl =? 0) then RES_SET_H_ERRNO NO_DATA
       else if negb (got_servfail tl =? 0) then RES_SET_H_ERRNO TRY_AGAIN
       else mret tt);; mret (-1)) s1 Q E.
Proof.
  intros (_ & _ & _ & H1 & H2 & _) HQ. unfold left_errno in HQ. cbv zeta in HQ. set (saved := match la with [] => -1 | e :: _ => res_h_errno e.2 end) in *.
  wp_step. destruct (Z.eqb_spec saved (-1)) as [Hs|Hs]; cbn [negb].
  2: { rewrite decide_True in HQ by done. apply wp_with. by wp_step. }
  rewrite decide_False in HQ by tauto. destruct (Z.eqb_spec (got_nodata tl) 0) as [Hn|Hn]; cbn [negb].
  2: { rewrite decide_True in HQ by tauto. apply wp_with. by wp_step. }
  rewrite decide_False in HQ by tauto. destruct (Z.eqb_spec (got_servfail tl) 0) as [Hv|Hv]; cbn [negb].
  2: { rewrite decide_True in HQ by tauto. apply wp_with. by wp_step. }
  rewrite decide_False in HQ by tauto. wp_step. by wp_step.
Qed.

Lemma left_ok la ld s : answer_ok s -> answer_ok (left_errno la ld s).
Proof. intros H. unfold left_errno. cbv zeta. repeat case_decide; try done; by apply answer_ok_with. Qed.

(** The code's condition for the last try. *)
Lemma last_cond s s1 (ld : list entry) tl : counted ld tl -> options s1 = options s ->
  (negb (dots_of t =? 0) || (searched tl =? 0) || negb (has (options s1) RES_NOTLDQUERY)) &&
    negb (negb ((if as_is_first s then 1 else 0) =? 0) || negb (root_on_list tl =? 0)) = as_is_last s ld.
Proof.
  intros (_ & _ & _ & _ & _ & H3 & H4) ->. unfold as_is_last. rewrite H4.
  assert (E1 : ((if decide (ld = []) then 0 else 1) =? 0) = bool_decide (ld = [])) by (by rewrite decide_bool_decide; destruct (bool_decide _)).
  assert (E2 : negb (root_on_list tl =? 0) = bool_decide (Exists (fun d => root_domain d = true) (take (length ld) ds))).
  { symmetry. destruct (Z.eqb_spec (root_on_list tl) 0) as [He|He]; [apply bool_decide_eq_false_2|apply bool_decide_eq_true_2]; tauto. }
  rewrite E1, E2. destruct (as_is_first s), (negb (dots_of t =? 0) || _ || _), (bool_decide (Exists _ _)); done.
Qed.

(** From the loop on. *)
Lemma wp_search_end s la ld tl s1 :
  trailing t = false -> as_is_part la (as_is_first s) -> domains_done s ld -> counted ld tl -> path s la ld s1 ->
  answer_ok s1 -> options s1 = options s -> (patience (world s1) < fuel)%nat ->
  wp (search_end res_nsend res_randomid tmp0 buf0 nbuf0 dnptrs0 fuel mem class typ anslen (dots_of t)
        (if as_is_first s then 1 else 0) (match la with e :: _ => res_h_errno e.2 | [] => -1 end) tl) s1
     (fun n s' => answer_ok s' /\ outcome s n s') (fun _ _ => False).
Proof.
  intros Htr Hla Hld Hcnt (sa & sb & Ha & Hlo & Hb') Hok Hopt Hf. unfold search_end. wp_step. wp_step.
  rewrite (last_cond s s1 ld tl Hcnt Hopt). wp_step.
  destruct (as_is_last s ld) eqn:Hlast.
  - eapply wp_conseq; [by apply wp_as_is|]. intros n s2 (Htr2 & Hok2 & _ & _).
    pose proof (trace_app _ _ _ _ _ Hb' Htr2) as Hb2. destruct (Z.ltb_spec 0 n) as [Hn|Hn].
    + wp_step. split; [done|]. eapply Last_hit; try done. exists sa, sb.
      unfold as_is_last in Hlast. destruct (as_is_first s); [done|]. cbn in Hla. by subst la.
    + apply (wp_left_errno la ld tl); [done|]. split; [by apply left_ok|]. apply (Exhausted s la ld [(None, n, s2)]); try done.
      * rewrite Hlast. by exists n, s2.
      * by exists sa, sb.
  - wp_step. change (0 <? 0) with false. cbn iota. apply (wp_left_errno la ld tl); [done|]. split; [by apply left_ok|].
    apply (Exhausted s la ld []); try done; [by rewrite Hlast|]. rewrite app_nil_r. by exists sa, sb.
Qed.

Lemma wp_trailing {S} (st : S) (Q : Z -> S -> Prop) E :
  (forall c, (0 <? zlen t) && (c =? 46) = trailing t -> Q c st) ->
  wp (if 0 <? zlen t then rd mem (zlen t - 1) else mret 0) st Q E.
Proof.
  intros HQ. unfold trailing in HQ. pose proof (zlen_nonneg t). destruct (Z.ltb_spec 0 (zlen t)) as [Hp|Hp].
  - destruct (cstr_at _ _ _ (zlen t - 1) Hc) as (c & Hct & _ & Hcm); [lia|]. rewrite Z.add_0_l in Hcm.
    apply (wp_rd _ _ _ _ _ _ Hcm). apply HQ. cbn [andb]. rewrite Hct. destruct (Z.eqb_spec c 46) as [->|Hne]; symmetry.
    + by apply bool_decide_eq_true_2.
    + apply bool_decide_eq_false_2. congruence.
  - wp_step. apply HQ. cbn [andb]. rewrite znth_None by lia. symmetry. by apply bool_decide_eq_false_2.
Qed.

Lemma start_conf s : same_conf s (start s) /\ world (start s) = world s.
Proof. by destruct s. Qed.

Lemma start_ok s : answer_ok s -> answer_ok (start s).
Proof. by destruct s. Qed.

(** Up to the search list. *)
Lemma wp_first s s0 : s0 = start s -> answer_ok s -> (patience (world s) < fuel)%nat ->
  wp (if (ndots s0 <=? dots_of t) || negb ((if trailing t then 1 else 0) =? 0) then
        ret ← res_nquerydomain res_nsend res_randomid tmp0 buf0 nbuf0 dnptrs0 fuel mem None class typ anslen;
        if (0 <? ret) || negb ((if trailing t then 1 else 0) =? 0) then mret (inl ret)
        else s ← getS; mret (inr (res_h_errno s, 1))
      else mret (inr (-1, 0))) s0
     (fun r s1 => answer_ok s1 /\ options s1 = options s /\ spends s s1 /\
        match r with
        | inl n => outcome s n s1
        | inr (saved, tried) => trailing t = false /\ exists la, as_is_part la (as_is_first s) /\ trace (start s) la s1 /\
            saved = (match la with e :: _ => res_h_errno e.2 | [] => -1 end) /\ tried = if as_is_first s then 1 else 0
        end) (fun _ _ => False).
Proof.
  intros -> Hok Hf. destruct (start_conf s) as [(Ho & Hnd & _) Hw]. rewrite Hnd.
  assert (Et : negb ((if trailing t then 1 else 0) =? 0) = trailing t) by (by destruct (trailing t)). rewrite !Et.
  destruct ((ndots s <=? dots_of t) || trailing t) eqn:Hfirst.
  - wp_step. eapply wp_conseq; [apply wp_as_is; [by apply start_ok|by rewrite Hw]|].
    intros n s1 (Htr & Hok1 & (Ho1 & _) & Hsp). unfold spends in *. rewrite Hw in Hsp. rewrite Ho in Ho1.
    destruct (Z.ltb_spec 0 n) as [Hn|Hn]; cbn [orb].
    + wp_step. do 3 (split; [done|]). by apply First_hit.
    + destruct (trailing t) eqn:Htd; wp_step.
      * do 3 (split; [done|]). by apply Dotted_miss.
      * wp_step. wp_step. do 3 (split; [done|]). split; [done|]. exists [(None, n, s1)]. rewrite <- Htd in Hfirst. 
        assert (Hf1 : as_is_first s = true) by exact Hfirst. rewrite Hf1. split; [by exists n, s1|]. done.
  - wp_step. split; [by apply start_ok|]. split; [done|]. split; [unfold spends; rewrite Hw; lia|].
    assert (Hf1 : as_is_first s = false) by exact Hfirst. rewrite Hf1. apply orb_false_iff in Hfirst as [_ Htd].
    split; [done|]. exists []. split; [done|]. split; [constructor|done].
Qed.

(** The search list. *)
Lemma wp_domains s la s1 :
  trailing t = false -> as_is_part la (as_is_first s) -> trace (start s) la s1 -> answer_ok s1 -> options s1 = options s ->
  (patience (world s1) < fuel)%nat ->
  wp (if ((dots_of t =? 0) && has (options s1) RES_DEFNAMES) ||
         (negb (dots_of t =? 0) && ((if trailing t then 1 else 0) =? 0) && has (options s1) RES_DNSRCH)
      then
        _resolv_populate_res_for_net;;
        loop (Z.to_nat MAXDNSRCH + 2) (search_step res_nsend res_randomid tmp0 buf0 nbuf0 dnptrs0 fuel mem class typ anslen)
          (0, 0, Tally 0 0 0 0)
      else mret (Searched (Tally 0 0 0 0))) s1
     (fun x s2 => answer_ok s2 /\
        match x with
        | Returned n => outcome s n s2
        | Searched tl => exists ld, domains_done s ld /\ counted ld tl /\ path s la ld s2 /\ options s2 = options s /\ spends s1 s2
        end) (fun _ _ => False).
Proof.
  intros Htd Hla Htr Hok Ho Hf.
  assert (Es : ((dots_of t =? 0) && has (options s1) RES_DEFNAMES) ||
         (negb (dots_of t =? 0) && ((if trailing t then 1 else 0) =? 0) && has (options s1) RES_DNSRCH) = searches s).
  { unfold searches. rewrite Ho. by destruct (trailing t). }
  rewrite Es. destruct (searches s) eqn:Hse.
  - wp_step. eapply wp_conseq; [apply wp_keep, (pop s1 Hok)|]. intros [] s2 (Hrun & Hok2 & Ho2 & _ & Hsp2 & Hsl2).
    assert (Hlo : loaded s s1 s2) by (unfold loaded; by rewrite Hse).
    eapply wp_conseq; [apply (wp_search_list s2); [done|done|unfold spends in *; lia]|]. intros [n|tl] s3; cbn [loop_post].
    + intros (l & d & n' & s4 & Htr3 & Hask & Hd & Hok3 & [(Hn & -> & ->)|(-> & Hn & Href & ->)]); (split; [done|]).
      * eapply Domain_hit; try done. by exists s1, s2.
      * eapply (Refused s la l d n' s4); try done. by exists s1, s2.
    + intros (l & Htr3 & Hask & Hcnt & Hok3 & (Ho3 & _) & Hsp3 & Hend). split; [done|]. exists l.
      split; [split; [done|by rewrite Hse]|]. split; [done|]. split; [by exists s1, s2|]. split; [congruence|unfold spends in *; lia].
  - wp_step. split; [done|]. exists []. split; [split; [constructor|by rewrite Hse]|].
    split; [unfold counted; cbn; rewrite !Exists_nil; split_and!; try lia; try done|].
    split; [exists s1, s1; split; [done|split; [unfold loaded; by rewrite Hse|constructor]]|]. split; [done|]. unfold spends. lia.
Qed.

Lemma wp_nsearch s :
  answer_ok s -> (patience (world s) < fuel)%nat ->
  wp (res_nsearch res_nsend res_randomid _resolv_populate_res_for_net tmp0 buf0 nbuf0 dnptrs0 fuel mem class typ anslen) s
     (fun n s' => answer_ok s' /\ outcome s n s') (fun _ _ => False).
Proof.
  intros Hok Hf. unfold res_nsearch. wp_step. wp_step. wp_step. apply wp_with.
  change (with_h_errno HOST_NOT_FOUND (s{{errno := 0}})) with (start s).
  wp_step. eapply wp_conseq; [apply wp_dots|]. intros [cp dots] ? [[= -> ->] ->]. wp_step. apply wp_trailing. intros c ->. cbv zeta.
  assert (Eh : (if dots_of t =? 0 then res_hostalias mem else None) = None) by (by destruct (dots_of t =? 0)). rewrite Eh. clear Eh.
  wp_step. wp_step. wp_step. eapply wp_conseq; [by apply (wp_first s _ eq_refl)|]. intros [n|[saved tried]] s1 (Hok1 & Ho1 & Hsp1 & Hr).
  { by wp_step. }
  destruct Hr as (Htd & la & Hla & Htr & -> & ->). wp_step. wp_step. wp_step. unfold spends in *.
  eapply wp_conseq; [apply (wp_domains s la s1); try done; lia|]. intros [n|tl] s2 [Hok2 Hx].
  { wp_step. done. }
  destruct Hx as (ld & Hdone & Hcnt & Hpath & Ho2 & Hsp2). unfold spends in *. apply (wp_search_end s la ld tl s2); try done. lia.
Qed.
End search.
End correct.

(** ** Properties *)

(** A network for the examples: it chokes on the first query and records that,
    finds no such name on the second, and has answers from then on. *)
Module Demo.
Definition put (a : list Z) (flags : Z) (s : client nat) : client nat :=
  Client (options s) (Z.lor (_flags s) flags) (ndots s) (dnsrch s) (res_h_errno s) (h_errno s) (errno s)
    (splice (answer s) 0 a) (Datatypes.S (world s)).

Definition res_nsend (q : list Z) (anslen : Z) : M (client nat) Z := fun s =>
  match world s with
  | O => (Ret (-1), put [] RES_F_EDNS0ERR s)
  | Datatypes.S O => (Ret 12, put [0; 1; 0x81; 0x83; 0; 1; 0; 0; 0; 0; 0; 0] 0 s)
  | _ => (Ret 40, put [0; 1; 0x81; 0x80; 0; 1; 0; 1; 0; 0; 0; 0] 0 s)
  end.

Definition res_randomid : M (client nat) Z := fun s => (Ret 1, Client (options s) (_flags s) (ndots s) (dnsrch s)
  (res_h_errno s) (h_errno s) (errno s) (answer s) (world s)).

(** The search list [a], [b]. *)
Definition fill : M (client nat) unit := fun s => (Ret tt, Client (options s) (_flags s) (ndots s)
  [Some [97; 0]; Some [98; 0]; None] (res_h_errno s) (h_errno s) (errno s) (answer s) (world s)).

Definition tmp0 : list Z := replicate 255 0.
Definition buf0 : list Z := replicate 1024 0.
Definition nbuf0 : list Z := replicate 1025 0.
Definition dnptrs0 : list (option Z) := replicate 20 None.
Definition inv (w : nat) : Prop := True.
Definition patience (w : nat) : nat := (1 - w)%nat.

Definition client0 : client nat := Client (RES_USE_EDNS0 + RES_DEFNAMES + RES_DNSRCH) 0 1 [] 0 0 0 (replicate 64 0) 0%nat.

Lemma environment_holds : environment res_randomid tmp0 buf0 nbuf0 dnptrs0 1 28 64 inv patience.
Proof.
  constructor; try (by vm_compute); try lia.
  - split; [by apply bytes_check|by vm_compute].
  - intros s. exists 1, (world s). done.
Qed.

Lemma network_holds : network res_nsend 1 28 64 inv patience.
Proof.
  intros s ls q [[Hb Hl] _] _.
  assert (Hput : forall a fl, bytes a -> zlen a <= 12 -> Z.testbit fl 2 = true \/ fl = 0 ->
    answer_ok inv (put a fl s) /\ same_conf s (put a fl s) /\ spends patience s (put a fl s) /\
    (has (_flags s) RES_F_EDNS0ERR = true -> has (_flags (put a fl s)) RES_F_EDNS0ERR = true)).
  { intros a fl Ha Hla Hfl. split; [split; [split; cbn; [by apply bytes_splice|rewrite zlen_splice; lia]|done]|]. split; [done|].
    split; [unfold spends, patience; cbn; lia|]. rewrite !has_edns0err. intros Hx. unfold put. cbn [_flags]. by rewrite Z.lor_spec, Hx. }
  unfold res_nsend, wp. destruct (world s) as [|[|w]] eqn:Hw.
  - destruct (Hput [] RES_F_EDNS0ERR) as (H1 & H2 & H3 & H4); [constructor|by vm_compute|by left|].
    do 4 (split; [done|]). intros _ _. unfold patience. cbn. rewrite Hw. lia.
  - destruct (Hput [0; 1; 0x81; 0x83; 0; 1; 0; 0; 0; 0; 0; 0] 0) as (H1 & H2 & H3 & H4); [by apply bytes_check|by vm_compute|by right|].
    do 4 (split; [done|]). intros; lia.
  - destruct (Hput [0; 1; 0x81; 0x80; 0; 1; 0; 1; 0; 0; 0; 0] 0) as (H1 & H2 & H3 & H4); [by apply bytes_check|by vm_compute|by right|].
    do 4 (split; [done|]). intros; lia.
Qed.

Lemma populates_holds : populates fill inv patience [[97]; [98]].
Proof.
  intros s Hok. unfold wp, fill. split; [done|]. do 2 (split; [done|]). split; [apply Nat.le_refl|]. by exists [].
Qed.

Lemma client0_ok : answer_ok inv client0.
Proof. split; [split; [by apply bytes_check|by vm_compute]|done]. Qed.
End Demo.





(** A loop whose body never leaves it. *)
Lemma loop_endless {S L R} (I : S -> Prop) (body : L -> M S (step L R)) l :
  (forall s, I s -> wp (body l) s (fun r s' => r = Next l /\ I s') (fun _ _ => False)) ->
  forall fuel s, I s -> fst (loop fuel body l s) = NoFuel.
Proof.
  intros Hbody fuel. induction fuel as [|fuel IH]; intros s Hs; [done|]. specialize (Hbody s Hs). unfold wp in Hbody.
  change (loop (Datatypes.S fuel) body l) with (st ← body l; match st with Next l' => loop fuel body l' | Done r => mret r end).
  unfold mbind, M_bind. destruct (body l s) as [[r|e| |] s']; try done. destruct Hbody as [-> HI]. by apply IH.
Qed.

(** [RES_F_EDNS0ERR] is compared with its value at the start of the function, not
    with that of the attempt: when a server rejects the query without EDNS0 the
    same way, and this is recorded again, the function tries without end. *)
Lemma res_nquery_endless {W} (res_nsend : list Z -> Z -> M (client W) Z) res_randomid tmp0 buf0 nbuf0 dnptrs0 class typ anslen
    inv mem t ls s :
  environment res_randomid tmp0 buf0 nbuf0 dnptrs0 class typ anslen inv (fun _ => 0%nat) ->
  (forall s1 q, answer_ok inv s1 -> exists s2, res_nsend q anslen s1 = (Ret (-1), s2) /\ answer_ok inv s2 /\ options s2 = options s1 /\
     has (_flags s2) RES_F_EDNS0ERR = true) ->
  bytes t -> cstr mem 0 t -> no_bits t = true -> sendable t ls -> answer_ok inv s ->
  has (options s) (Z.lor RES_USE_EDNS0 RES_USE_DNSSEC) = true -> has (_flags s) RES_F_EDNS0ERR = false ->
  forall fuel, fst (res_nquery res_nsend res_randomid tmp0 buf0 dnptrs0 fuel mem class typ anslen s) = NoFuel.
Proof.
  intros env Hsend Hb Hc Hnb Hls Hok Ho Hf fuel.
  assert (Hstep : forall s1, answer_ok inv s1 -> options s1 = options s -> 
    wp (nquery_step res_nsend res_randomid tmp0 buf0 dnptrs0 mem class typ anslen (_flags s) tt) s1
       (fun r s2 => r = Next tt /\ answer_ok inv s2 /\ options s2 = options s) (fun _ _ => False)).
  { intros s1 Hok1 Ho1. unfold nquery_step. wp_step. apply (wp_clear_rcode inv); [done|]. intros a Ha Hla.
    wp_step. eapply wp_conseq; [by apply (wp_nquery_make res_nsend res_randomid tmp0 buf0 nbuf0 dnptrs0 class typ anslen inv _ env mem t)|].
    intros [n buf] s2 (w & e & -> & _ & Hwi & [[Hn _]|[_ Hno]]); [|by destruct (Hno ls)].
    rewrite (proj2 (Z.leb_gt n 0)) by lia. wp_step.
    set (s2 := Client _ _ _ _ _ _ _ _ w). assert (Hok2 : answer_ok inv s2) by (destruct Hok1 as [[? ?] ?]; split; [split; [done|cbn; lia]|by apply Hwi]).
    destruct (Hsend s2 (ztake n buf) Hok2) as (s3 & Hrun & Hok3 & Ho3 & Hf3).
    eapply (wp_run _ (mret (-1))); [exact Hrun|]. wp_step. change (-1 <? 0) with true. cbn iota. wp_step. wp_step.
    assert (Hopt : options s3 = options s) by (rewrite Ho3; exact Ho1). rewrite Hopt, Ho.
    assert (Hx : has (Z.lxor (_flags s) (_flags s3)) RES_F_EDNS0ERR = true).
    { rewrite has_edns0err in *. by rewrite Z.lxor_spec, Hf, Hf3. }
    rewrite Hx. cbn [andb]. wp_step. wp_step. wp_step. by destruct s3. }
  apply (loop_endless (fun s1 => answer_ok inv s1 /\ options s1 = options s)); [|done].
  intros s1 [Hok1 Ho1]. by apply Hstep.
Qed.
