(* ===== verification/ResServersSpec.v ===== *)
(** * Name servers and search domains are kept and reported *)
From S2P Require Import Prelude CString NsRecords ResPacket ResTtl ResCache ResCacheRep ResCacheOps ResStats ResNet ResNetRep ResNetSpec ResServers.
From coqutil Require Import Datatypes.RecordSetters.
Import DoubleBraceUpdate.

(** ** Comparing *)

Lemma is_cstr_cstr b : is_cstr b -> exists t, b = t ++ [0] /\ cstr b 0 t.
Proof.
  intros (t & -> & Ht). exists t. split; [done|]. split; [lia|]. split.
  - intros i Hi. destruct (znth_lt t i Hi) as [c Hc]. exists c. split; [done|]. rewrite Z.add_0_l, znth_app_l by lia. split; [|done].
    intros ->. apply Ht. unfold znth in Hc. destruct (i <? 0); [done|]. by eapply list_elem_of_lookup_2.
  - rewrite Z.add_0_l. apply znth_middle.
Qed.

(** ** The same servers *)

(** [_resolv_is_nameservers_equal_locked] asks for as many servers, and for each
    of the current ones among the new ones. *)
Definition same_servers (ns servers : list (list Z)) : Prop := zlen ns = zlen servers /\ forall n, n ∈ ns -> n ∈ servers.

Lemma znth_padded {A} (l : list A) i x : znth l i = Some x -> znth (padded l) i = Some (Some x).
Proof.
  intros Hi. pose proof (znth_Some _ _ _ Hi). unfold padded. rewrite znth_app_l by (unfold zlen in *; rewrite length_fmap; lia).
  unfold znth in *. destruct (i <? 0); [done|]. by rewrite list_lookup_fmap, Hi.
Qed.

Section equal.
Context (info : resolv_cache_info) (ns : list (list Z)) (ads : list addrinfo) (Hs : info_servers info ns ads).
Context (servers : list (list Z)) (Hc : Forall is_cstr servers).

Lemma elem_cstr l i x : Forall is_cstr l -> znth l i = Some x -> is_cstr x.
Proof. intros Hall Hi%znth_lookup. rewrite Forall_forall in Hall. apply (Hall x). by eapply list_elem_of_lookup_2. Qed.

Lemma wp_same_server i j x y (Q : bool -> resolv_cache_info -> Prop) E :
  znth ns i = Some x -> znth servers j = Some y -> (forall r, r = true <-> x = y -> Q r info) ->
  wp (same_server info servers i j) info Q E.
Proof.
  intros Hx Hy HQ. unfold same_server. destruct (is_names _ _ _ Hs) as [-> Hns].
  wp_step. eapply wp_rd; [by apply znth_padded|]. wp_step. eapply wp_rd; [exact Hy|].
  wp_step. eapply wp_strcmp; [exact (elem_cstr ns i x Hns Hx)|exact (elem_cstr servers j y Hc Hy)|]. intros r Hr. wp_step. apply HQ. rewrite <- Hr. apply Z.eqb_eq.
Qed.

Lemma wp_among i x : znth ns i = Some x -> forall fuel j (Q : bool -> resolv_cache_info -> Prop) E,
  0 <= j <= zlen servers -> (Z.to_nat (zlen servers - j) < fuel)%nat -> (x ∉ ztake j servers) ->
  (forall r, r = true <-> x ∈ servers -> Q r info) -> wp (loop fuel (among_step servers (zlen servers) i) j) info Q E.
Proof.
  intros Hx. induction fuel as [|fuel IH]; intros j Q E Hj Hf Hno HQ; [lia|]. apply wp_loop_S. unfold among_step.
  destruct (Z.leb_spec (zlen servers) j).
  - wp_step. apply HQ. rewrite ztake_ge in Hno by lia. by split; [|intros ?].
  - destruct (znth_lt servers j) as [y Hy]; [lia|]. wp_step. apply wp_getS. wp_step. eapply wp_same_server; [exact Hx|exact Hy|].
    intros r Hr. destruct r; wp_step.
    + apply HQ. split; [|done]. intros _. rewrite (proj1 Hr eq_refl). apply znth_lookup in Hy. by eapply list_elem_of_lookup_2.
    + apply IH; [lia|lia| |done]. rewrite (ztake_snoc _ _ _ Hy). rewrite not_elem_of_app, not_elem_of_cons. split_and!; [done| |apply not_elem_of_nil].
      intros ->. by pose proof (proj2 Hr eq_refl).
Qed.

Lemma wp_equal_loop : zlen ns = zlen servers -> forall fuel i (Q : bool -> resolv_cache_info -> Prop) E,
  0 <= i <= zlen servers -> (Z.to_nat (zlen servers - i) < fuel)%nat -> (forall n, n ∈ ztake i ns -> n ∈ servers) ->
  (forall r, r = true <-> (forall n, n ∈ ns -> n ∈ servers) -> Q r info) ->
  wp (loop fuel (equal_step servers (zlen servers)) i) info Q E.
Proof.
  intros Hl. induction fuel as [|fuel IH]; intros i Q E Hi Hf Hdone HQ; [lia|]. apply wp_loop_S. unfold equal_step.
  destruct (Z.ltb_spec i (zlen servers)); cbn [negb].
  - destruct (znth_lt ns i) as [x Hx]; [lia|]. wp_step. eapply (wp_among i x Hx); [lia|lia|apply not_elem_of_nil|].
    intros r Hr. destruct r; wp_step.
    + apply IH; [lia|lia| |done]. rewrite (ztake_snoc _ _ _ Hx). intros n [Hn|Hn]%elem_of_app; [by apply Hdone|].
      apply list_elem_of_singleton in Hn as ->. by apply Hr.
    + apply HQ. split; [done|]. intros Hall. assert (Hin : x ∈ servers); [|by apply Hr in Hin]. apply Hall. apply znth_lookup in Hx. by eapply list_elem_of_lookup_2.
  - wp_step. apply HQ. split; [|done]. intros _. by rewrite ztake_ge in Hdone by lia.
Qed.

Lemma wp_is_equal (Q : bool -> resolv_cache_info -> Prop) E :
  (forall r, r = true <-> same_servers ns servers -> Q r info) -> wp (_resolv_is_nameservers_equal_locked servers (zlen servers)) info Q E.
Proof.
  intros HQ. unfold _resolv_is_nameservers_equal_locked. wp_step. apply wp_getS. destruct (is_count _ _ _ Hs) as [-> _].
  destruct (Z.eqb_spec (zlen ns) (zlen servers)) as [He|He]; cbn [negb].
  - pose proof (zlen_nonneg servers). apply wp_equal_loop; [done|lia|lia|intros n ?%not_elem_of_nil; done|]. intros r Hr. apply HQ. rewrite Hr. split; [by split|by intros [_ ?]].
  - wp_step. apply HQ. split; [done|]. by intros [? _].
Qed.
End equal.

(** ** Setting the servers *)

Lemma padded_snoc {A} (l : list A) x : zlen l < MAXNS -> zupd (padded l) (zlen l) (Some x) = padded (l ++ [x]).
Proof.
  intros Hl. unfold padded. assert (Hr : (Z.to_nat MAXNS - length l)%nat = S (Z.to_nat MAXNS - length (l ++ [x]))).
  { rewrite length_app. unfold zlen, MAXNS in *. cbn. lia. }
  rewrite Hr. cbn [replicate]. replace (zlen l) with (zlen (Some <$> l)) by (unfold zlen; by rewrite length_fmap).
  rewrite zupd_middle, fmap_app, <- app_assoc. done.
Qed.

Lemma padded_upd {A} (l : list A) i x : znth l i = Some x -> zlen l <= MAXNS -> zupd (padded (ztake i l)) i (Some x) = padded (ztake (i + 1) l).
Proof.
  intros Hx Hl. pose proof (znth_Some _ _ _ Hx). rewrite (ztake_snoc _ _ _ Hx), <- padded_snoc; rewrite zlen_ztake; done || lia.
Qed.

Lemma wp_strdup {S} b (st : S) (Q : list Z -> S -> Prop) E : is_cstr b -> Q b st -> wp (strdup b) st Q E.
Proof.
  intros (t & -> & Hc)%is_cstr_cstr HQ. unfold strdup. wp_step. eapply wp_conseq; [by apply (wp_strlen _ t)|].
  intros r st' [-> ->]. wp_step. rewrite ztake_ge; [done|]. rewrite zlen_app. done.
Qed.

(** Everything but the servers, the parameters and the revision. *)
Definition same_domains (info info' : resolv_cache_info) : Prop :=
  netid info' = netid info /\ cache info' = cache info /\ defdname info' = defdname info /\ dnsrch_offset info' = dnsrch_offset info.

Section set.
Context (servers : list (list Z)) (ads : list addrinfo) (Hc : Forall is_cstr servers).
Context (Hla : zlen ads = zlen servers) (Hm : zlen servers <= MAXNS) (Hga : Forall good_addr ads).

(** The first [i] servers are set. *)
Record setting (info0 : resolv_cache_info) (i : Z) (info : resolv_cache_info) : Prop := Setting {
  st_rest : same_domains info0 info /\ params info = params info0 /\ revision_id info = revision_id info0 /\ nsstats info = nsstats info0;
  st_names : nameservers info = padded (ztake i servers);
  st_addrs : nsaddrinfo info = padded (ztake i ads) }.

Lemma wp_set_loop info0 : forall fuel i info (Q : unit -> resolv_cache_info -> Prop) E,
  0 <= i <= zlen servers -> (Z.to_nat (zlen servers - i) < fuel)%nat -> setting info0 i info ->
  (forall info', setting info0 (zlen servers) info' -> Q tt info') ->
  wp (loop fuel (set_server_step servers (zlen servers) ads) i) info Q E.
Proof.
  induction fuel as [|fuel IH]; intros i info Q E Hi Hf Hset HQ; [lia|]. apply wp_loop_S. unfold set_server_step.
  destruct (Z.ltb_spec i (zlen servers)); cbn [negb].
  - destruct (znth_lt ads i) as [ad Had]; [lia|]. destruct (znth_lt servers i) as [nm Hnm]; [lia|].
    destruct Hset as [(Hr & Hp & Hv & Hst) Hns Has]. destruct info as [id1 c1 n1 nm1 na1 rv1 pr1 ss1 df1 off1]. cbn in * |-.
    assert (Hl1 : zlen na1 = MAXNS) by (rewrite Has; apply zlen_padded; rewrite zlen_ztake; lia).
    assert (Hl2 : zlen nm1 = MAXNS) by (rewrite Hns; apply zlen_padded; rewrite zlen_ztake; lia).
    wp_step. eapply wp_rd; [exact Had|]. wp_step. apply wp_zoom, wp_wr; [cbn; lia|]. wp_step. eapply wp_rd; [exact Hnm|].
    wp_step. eapply wp_strdup; [exact (elem_cstr servers i nm Hc Hnm)|]. wp_step. apply wp_zoom, wp_wr; [cbn; lia|]. wp_step.
    apply IH; [lia|lia| |done]. constructor; [done| |].
    + cbn. rewrite Hns. by apply padded_upd.
    + cbn. rewrite Has. apply padded_upd; [done|lia].
  - wp_step. apply HQ. by replace (zlen servers) with i by lia.
Qed.

(** What [set_servers] leaves. *)
Definition servers_set (info : resolv_cache_info) (ns : list (list Z)) (ads0 : list addrinfo) (p : __res_params) (info' : resolv_cache_info) : Prop :=
  same_domains info info' /\ params info' = p /\
  ((same_servers ns servers /\ info_servers info' ns ads0 /\
      revision_id info' = if max_samples p =? max_samples (params info) then revision_id info else revision_id info + 1) \/
   (~ same_servers ns servers /\ info_servers info' servers ads /\ revision_id info' = revision_id info + 2)).

(** Clearing and counting, at the end of both branches. *)
Lemma wp_clear_bump info ns ads1 (Q : unit -> resolv_cache_info -> Prop) E :
  info_servers info ns ads1 -> revision_id info + 1 < 2 ^ 31 ->
  (forall info', info_servers info' ns ads1 -> same_domains info info' -> params info' = params info ->
     revision_id info' = revision_id info + 1 -> Q tt info') ->
  wp (_res_cache_clear_stats_locked;; bump_revision) info Q E.
Proof.
  intros Hs Hr HQ. destruct Hs as [Hcnt Hn Ha [Hsl Hsall] Hd]. destruct (znth_lt (nsstats info) 0) as [st Hst]; [by rewrite Hsl|].
  wp_step. eapply wp_clear_stats; [exact Hst|]. unfold bump_revision. wp_step. apply wp_getS. destruct info. cbn in * |-.
  wp_step. apply wp_require; [apply Z.ltb_lt; cbn; lia|]. apply wp_updS. apply HQ; [|done|done|done].
  constructor; [done|done|done| |done]. by apply stats_cleared.
Qed.

Lemma wp_set_servers info ns ads0 prm (Q : unit -> resolv_cache_info -> Prop) E :
  info_servers info ns ads0 -> revision_id info + 2 < 2 ^ 31 ->
  (forall info', servers_set info ns ads0 (default _resolv_set_default_params prm) info' -> Q tt info') ->
  wp (set_servers servers (zlen servers) ads prm) info Q E.
Proof.
  intros Hs Hr HQ. unfold set_servers. wp_step. apply wp_getS. cbv zeta. wp_step. apply wp_updS.
  set (p := default _resolv_set_default_params prm) in *. set (info1 := info{{ params := _ }}).
  assert (H1 : info_servers info1 ns ads0) by (destruct Hs, info; by constructor).
  assert (E1 : same_domains info info1 /\ params info1 = p /\ revision_id info1 = revision_id info) by (by destruct info).
  destruct E1 as ((D1 & D2 & D3 & D4) & Hp1 & Hr1). pose proof (zlen_nonneg servers).
  wp_step. eapply (wp_is_equal _ _ _ H1 servers Hc). intros r Hsame. destruct r; cbn [negb].
  - wp_step. apply wp_getS. rewrite Hp1. destruct (max_samples p =? max_samples (params info)) eqn:Hmx; cbn [negb].
    + wp_step. apply HQ. split; [by split_and!|]. split; [done|]. left. split; [by apply Hsame|]. by rewrite Hmx.
    + eapply wp_clear_bump; [exact H1|lia|]. intros info2 H2 (? & ? & ? & ?) Hp2 Hr2. apply HQ.
      split; [split_and!; congruence|]. split; [congruence|]. left. split; [by apply Hsame|]. rewrite Hmx. split; [done|congruence].
  - wp_step. eapply wp_free_nameservers; [exact H1|lia|]. intros info2 H2 (R1 & R2 & R3 & R4 & R5) Hr2.
    wp_step. eapply (wp_set_loop info2); [lia|lia| |].
    { destruct H2 as [_ [Hn2 _] [Ha2 _] _ _]. constructor; [done|by rewrite Hn2|by rewrite Ha2]. }
    intros info3 [((S1 & S2 & S3 & S4) & Hp3 & Hr3 & Hst3) Hn3 Ha3]. wp_step. apply wp_updS.
    rewrite (ztake_all servers) in Hn3. rewrite <- Hla, ztake_all in Ha3. set (info4 := info3{{ nscount := _ }}).
    assert (H4 : info_servers info4 servers ads).
    { destruct H2 as [_ _ _ Hst2 Hd2]. destruct info3. cbn in * |-. constructor; cbn; [done|done|done|by rewrite Hst3|].
      destruct Hd2 as (Hl1 & Hl2 & ws & Hws). rewrite S3, S4. split; [done|]. split; [done|]. exists ws.
      unfold has_domains, domains_ok in *. cbn. by rewrite S3, S4. }
    assert (E4 : same_domains info3 info4 /\ params info4 = params info3 /\ revision_id info4 = revision_id info3) by (by destruct info3).
    destruct E4 as ((T1 & T2 & T3 & T4) & Hp4 & Hr4).
    eapply wp_clear_bump; [exact H4|lia|]. intros info5 H5 (? & ? & ? & ?) Hp5 Hr5. apply HQ. unfold servers_set.
    split; [split_and!; congruence|]. split; [congruence|]. right. split; [by intros ?%Hsame|]. split; [done|lia].
Qed.
End set.

(** ** Search domains *)

(** The words of a text between blanks. *)
Fixpoint words_from (w : list Z) (t : list Z) : list (list Z) :=
  match t with
  | [] => match w with [] => [] | _ => [w] end
  | c :: t => if blank c then match w with [] => words_from [] t | _ => w :: words_from [] t end else words_from (w ++ [c]) t
  end.

Definition words (t : list Z) : list (list Z) := words_from [] t.

Lemma words_from_app w u t : Forall (fun c => blank c = false) u -> words_from w (u ++ t) = words_from (w ++ u) t.
Proof.
  intros Hu. revert w. induction Hu as [|c u Hc _ IH]; intros w; cbn [app words_from]; [by rewrite app_nil_r|].
  rewrite Hc, IH. by rewrite <- app_assoc.
Qed.

Lemma words_blank c t : blank c = true -> words (c :: t) = words t.
Proof. intros Hc. unfold words. cbn [words_from]. by rewrite Hc. Qed.

Lemma words_word u : word u -> words u = [u].
Proof.
  intros [Hne Hu]. unfold words. rewrite <- (app_nil_r u) at 1. rewrite words_from_app by done. cbn. by destruct u.
Qed.

Lemma words_cons u c t : word u -> blank c = true -> words (u ++ c :: t) = u :: words t.
Proof.
  intros [Hne Hu] Hc. unfold words. rewrite words_from_app by done. cbn [words_from app]. rewrite Hc. by destruct u.
Qed.

Lemma blank_nul : blank 0 = false.
Proof. done. Qed.

Lemma cstr_cons b off c t : cstr b off (c :: t) -> c <> 0 /\ znth b off = Some c /\ cstr b (off + 1) t.
Proof.
  intros (Ho & Hc & Hn). rewrite zlen_cons in *. pose proof (zlen_nonneg t).
  destruct (Hc 0) as (d & [= <-] & Hd & Hm); [lia|]. rewrite Z.add_0_r in Hm.
  split; [done|]. split; [done|]. split; [lia|]. split.
  - intros i Hi. destruct (Hc (i + 1)) as (e & G & ? & ?); [lia|]. rewrite znth_cons_S, Z.add_simpl_r in G by lia. exists e.
    by replace (off + 1 + i) with (off + (i + 1)) by lia.
  - by replace (off + 1 + zlen t) with (off + (zlen t + 1)) by lia.
Qed.

Lemma cstr_nil b off : cstr b off [] -> znth b off = Some 0.
Proof. intros (_ & _ & H). by rewrite Z.add_0_r in H. Qed.

Lemma cstr_agree b b' off t : cstr b off t -> (forall i, off <= i <= off + zlen t -> znth b' i = znth b i) -> cstr b' off t.
Proof.
  intros (Ho & Hc & Hn) He. pose proof (zlen_nonneg t). split; [done|]. split.
  - intros i Hi. rewrite He by lia. by apply Hc.
  - by rewrite He by lia.
Qed.

Lemma wp_rdS {A} (b : list A) i v (Q : A -> list A -> Prop) E : znth b i = Some v -> Q v b -> wp (rdS i) b Q E.
Proof. intros Hv HQ. unfold wp, rdS, rd. by rewrite Hv. Qed.

(** Skipping blanks. *)
Lemma wp_skip_blanks b : forall t fuel cp (Q : Z -> list Z -> Prop) E,
  cstr b cp t -> (length t < fuel)%nat ->
  (forall cp' t', cp <= cp' -> cstr b cp' t' -> words t' = words t -> (match t' with c :: _ => blank c = false | [] => True end) -> Q cp' b) ->
  wp (loop fuel skip_step cp) b Q E.
Proof.
  induction t as [|c t IH]; intros [|fuel] cp Q E Hc Hf HQ; try (cbn in Hf; lia); apply wp_loop_S; unfold skip_step.
  - wp_step. eapply wp_rdS; [by apply cstr_nil|]. cbn. wp_step. apply (HQ _ []); [lia|done|done|done].
  - destruct (cstr_cons _ _ _ _ Hc) as (Hc0 & Hz & Hc'). wp_step. eapply wp_rdS; [exact Hz|]. destruct (blank c) eqn:Hb; wp_step.
    + apply IH; [done|cbn in Hf; lia|]. intros cp' t' Hle Ht Hw Hh. apply (HQ cp' t'); [lia|done|by rewrite words_blank|done].
    + apply (HQ _ (c :: t)); [lia|done|done|done].
Qed.

(** The word [u] at [cp] gets its terminator; what is before [cp] stays. *)
Lemma wp_terminate : forall t fuel b cp (Q : Z -> list Z -> Prop) E,
  cstr b cp t -> (length t < fuel)%nat ->
  (forall u b' cp' t', Forall (fun c => blank c = false) u -> cstr b' cp u -> cstr b' cp' t' -> cp + zlen u <= cp' ->
     zlen b' = zlen b -> (forall i, i < cp -> znth b' i = znth b i) ->
     (t = u /\ t' = [] \/ exists c, blank c = true /\ t = u ++ c :: t' /\ cp + zlen u < cp') -> Q cp' b') ->
  wp (loop fuel terminate_step cp) b Q E.
Proof.
  induction t as [|c t IH]; intros [|fuel] b cp Q E Hc Hf HQ; try (cbn in Hf; lia); apply wp_loop_S; unfold terminate_step.
  - wp_step. eapply wp_rdS; [by apply cstr_nil|]. cbn. wp_step. apply (HQ [] b cp []); try done; [change (zlen (@nil Z)) with 0; lia|by left].
  - destruct (cstr_cons _ _ _ _ Hc) as (Hc0 & Hz & Hc'). wp_step. eapply wp_rdS; [exact Hz|]. rewrite (proj2 (Z.eqb_neq c 0)) by done.
    pose proof (znth_Some _ _ _ Hz). destruct (blank c) eqn:Hb.
    + wp_step. apply wp_wr; [lia|]. wp_step. apply (HQ [] _ (cp + 1) t); [by constructor| | |change (zlen (@nil Z)) with 0; lia|apply zlen_zupd| |].
      * split; [lia|]. split; [intros i Hi; change (zlen (@nil Z)) with 0 in Hi; lia|]. rewrite Z.add_0_r, znth_zupd_eq by lia. done.
      * eapply cstr_agree; [exact Hc'|]. intros i Hi. apply znth_zupd_ne. lia.
      * intros i Hi. apply znth_zupd_ne. lia.
      * right. exists c. split_and!; [done|done|]. change (zlen (@nil Z)) with 0. lia.
    + wp_step. apply IH; [done|cbn in Hf; lia|]. intros u b' cp' t' Hu Hcu Ht' Hle Hlb Hbef Hsplit.
      apply (HQ (c :: u) b' cp' t'); [by constructor| |done|rewrite zlen_cons; lia|done|intros i Hi; apply Hbef; lia|].
      * destruct Hcu as (Hcp & Hcc & Hcn). pose proof (zlen_nonneg u). split; [lia|]. rewrite zlen_cons. split.
        -- intros i Hi. destruct (decide (i = 0)) as [->|].
           ++ exists c. rewrite Z.add_0_r, Hbef by lia. done.
           ++ destruct (Hcc (i - 1)) as (d & Hd & ? & Hd2); [lia|]. exists d. rewrite znth_cons_S by lia.
              split_and!; [done|done|]. by replace (cp + i) with (cp + 1 + (i - 1)) by lia.
        -- by replace (cp + (zlen u + 1)) with (cp + 1 + zlen u) by lia.
      * destruct Hsplit as [[-> ->]|(d & Hd & -> & Hlt)]; [by left|]. right. exists d. rewrite zlen_cons. split_and!; [done|done|lia].
Qed.

Lemma recorded_mono b b' bound bound' os ws :
  recorded b bound os ws -> bound <= bound' -> (forall i, i < bound -> znth b' i = znth b i) -> recorded b' bound' os ws.
Proof.
  intros Hr Hle He. eapply Forall2_impl; [exact Hr|]. intros o w (Hc & Hw & Hb). split_and!; [|done..|lia].
  eapply cstr_agree; [exact Hc|]. intros i Hi. apply He. lia.
Qed.

Definition with_domains (b offs : list Z) (info : resolv_cache_info) : resolv_cache_info := info{{ defdname := b; dnsrch_offset := offs }}.

Lemma wp_on_defdname {A} (mm : M (list Z) A) b offs info (Q : A -> resolv_cache_info -> Prop) E :
  wp mm b (fun a b' => Q a (with_domains b' offs info)) (fun e b' => E e (with_domains b' offs info)) ->
  wp (on_defdname mm) (with_domains b offs info) Q E.
Proof. intros H. unfold on_defdname. apply wp_zoom. destruct info. exact H. Qed.

Lemma wp_on_offsets {A} (mm : M (list Z) A) b offs info (Q : A -> resolv_cache_info -> Prop) E :
  wp mm offs (fun a offs' => Q a (with_domains b offs' info)) (fun e offs' => E e (with_domains b offs' info)) ->
  wp (on_offsets mm) (with_domains b offs info) Q E.
Proof. intros H. unfold on_offsets. apply wp_zoom. destruct info. exact H. Qed.

Lemma offsets_snoc offs os x : offsets offs os -> zlen os < MAXDNSRCH + 1 -> offsets (zupd offs (zlen os) x) (os ++ [x]).
Proof.
  intros [Hl Ht] Hlt. pose proof (zlen_nonneg os). split; [by rewrite zlen_zupd|]. rewrite zlen_app. change (zlen [x]) with 1.
  rewrite zupd_splice by lia. rewrite (ztake_splice _ _ [x]) by (done || lia). by rewrite Ht.
Qed.

(** The end of the text. *)
Lemma wp_domain_end info fuel b offs cp offset (Q : Z -> resolv_cache_info -> Prop) E :
  cstr b cp [] -> Q offset (with_domains b offs info) -> wp (loop (S fuel) domain_step (cp, offset)) (with_domains b offs info) Q E.
Proof.
  intros Hc HQ. apply cstr_nil in Hc. apply wp_loop_S. unfold domain_step. destruct (negb _); [by wp_step|].
  wp_step. apply wp_on_defdname. apply (wp_loop_S _ 255). unfold skip_step. wp_step. eapply wp_rdS; [exact Hc|]. cbn. wp_step.
  wp_step. apply wp_on_defdname. eapply wp_rdS; [exact Hc|]. cbn. by wp_step.
Qed.

Lemma wp_domain_loop info : forall fuel t b offs cp os ws (Q : Z -> resolv_cache_info -> Prop) E,
  (Z.to_nat (MAXDNSRCH - zlen os) < fuel)%nat -> zlen b = MAXDNSRCHPATH -> cstr b cp t -> recorded b cp os ws ->
  zlen os <= MAXDNSRCH -> offsets offs os ->
  (forall b' offs' os', zlen b' = MAXDNSRCHPATH -> recorded b' MAXDNSRCHPATH os' (ztake MAXDNSRCH (ws ++ words t)) ->
     offsets offs' os' -> zlen os' <= MAXDNSRCH -> Q (zlen os') (with_domains b' offs' info)) ->
  wp (loop fuel domain_step (cp, zlen os)) (with_domains b offs info) Q E.
Proof.
  induction fuel as [|fuel IH]; intros t b offs cp os ws Q E Hf Hb Hc Hrec Hos Hoff HQ; [lia|]. apply wp_loop_S. unfold domain_step.
  pose proof (cstr_len _ _ _ Hc) as Hlen. pose proof Hc as [Hcp _]. pose proof (zlen_nonneg os). pose proof (zlen_nonneg t).
  assert (Hlw : zlen os = zlen ws) by (unfold zlen; by rewrite (Forall2_length _ _ _ Hrec)).
  destruct (Z.ltb_spec (zlen os) MAXDNSRCH); cbn [negb].
  2: { wp_step. apply (HQ b offs os); [done| |done|done]. rewrite ztake_app_le, ztake_ge by lia.
       eapply recorded_mono; [exact Hrec|rewrite <- Hb; lia|done]. }
  wp_step. apply wp_on_defdname. eapply (wp_skip_blanks b t); [exact Hc|unfold zlen, MAXDNSRCHPATH in *; lia|].
  intros cp1 t1 Hle1 Hc1 Hw1 Hhead. pose proof (cstr_len _ _ _ Hc1) as Hlen1. pose proof (zlen_nonneg t1).
  assert (Hrec1 : recorded b cp1 os ws) by (by eapply recorded_mono; [exact Hrec|lia|]).
  wp_step. apply wp_on_defdname. destruct t1 as [|x t1].
  { eapply wp_rdS; [by apply cstr_nil|]. cbn. wp_step. apply (HQ b offs os); [done| |done|done].
    rewrite <- Hw1. change (words []) with (@nil (list Z)). rewrite app_nil_r, ztake_ge by lia.
    eapply recorded_mono; [exact Hrec1|rewrite <- Hb; lia|done]. }
  destruct (cstr_cons _ _ _ _ Hc1) as (Hx0 & Hx & _). eapply wp_rdS; [exact Hx|]. rewrite (proj2 (Z.eqb_neq x 0)) by done.
  destruct Hoff as [Hol Hot]. wp_step. apply wp_on_offsets. apply wp_wr; [lia|].
  wp_step. apply wp_on_defdname. eapply (wp_terminate (x :: t1)); [exact Hc1|unfold zlen, MAXDNSRCHPATH in *; lia|].
  intros u b' cp' t' Hu Hcu Hc' Hle' Hlb' Hbef Hsplit. wp_step.
  assert (Hword : word u).
  { split; [|done]. intros ->. destruct Hsplit as [[? _]|(c & Hcb & Heq & _)]; [done|]. cbn in Heq. injection Heq as -> _. congruence. }
  assert (Hbound : recorded b' (cp1 + zlen u + 1) (os ++ [cp1]) (ws ++ [u])).
  { apply Forall2_app; [eapply recorded_mono; [exact Hrec1|pose proof (zlen_nonneg u); lia|done]|]. constructor; [|constructor]. split; [done|]. split; [done|lia]. }
  assert (Hws : (ws ++ [u]) ++ words t' = ws ++ words t).
  { rewrite <- Hw1, <- app_assoc. f_equal. destruct Hsplit as [[-> ->]|(c & Hcb & -> & _)]; [by rewrite (words_word u)|by rewrite words_cons]. }
  assert (Hl1 : zlen (os ++ [cp1]) = zlen os + 1) by (rewrite zlen_app; done). rewrite <- Hl1.
  assert (Hoff' : offsets (zupd offs (zlen os) cp1) (os ++ [cp1])) by (by apply offsets_snoc; [|lia]).
  destruct Hsplit as [[_ ->]|(c & _ & _ & Hlt)].
  - destruct fuel as [|fuel']; [lia|]. eapply wp_domain_end; [exact Hc'|]. apply HQ; [congruence| |done|lia].
    rewrite <- Hws. change (words []) with (@nil (list Z)). rewrite app_nil_r, ztake_ge by (rewrite zlen_app; change (zlen [u]) with 1; lia).
    pose proof (cstr_len _ _ _ Hcu). eapply recorded_mono; [exact Hbound|rewrite <- Hb, <- Hlb'; lia|done].
  - eapply (IH t' b' _ cp' (os ++ [cp1]) (ws ++ [u])); [lia|congruence|exact Hc'| |lia|exact Hoff'|].
    + eapply recorded_mono; [exact Hbound|lia|done].
    + intros b2 offs2 os2. rewrite Hws. apply HQ.
Qed.

(** A text up to the end of its first line. *)
Fixpoint line (t : list Z) : list Z :=
  match t with
  | [] => []
  | c :: t => if c =? 10 then [] else c :: line t
  end.

(** The search domains in [d]: words of the first line of what the buffer takes. *)
Definition search_words (d : list Z) : list (list Z) := ztake MAXDNSRCH (words (line (ztake (MAXDNSRCHPATH - 1) d))).

Lemma wp_strchr {S} b : forall t fuel i (st : S) (Q : option Z -> S -> Prop) E,
  cstr b i t -> (length t < fuel)%nat ->
  (forall r, match r with
     | None => line t = t
     | Some k => i <= k <= i + zlen t /\ ztake (k - i) t = line t
     end -> Q r st) -> wp (loop fuel (strchr_step b 10) i) st Q E.
Proof.
  induction t as [|c t IH]; intros [|fuel] i st Q E Hc Hf HQ; try (cbn in Hf; lia); apply wp_loop_S; unfold strchr_step.
  - apply cstr_nil in Hc. wp_step. eapply wp_rd; [exact Hc|]. cbn. wp_step. by apply (HQ None).
  - destruct (cstr_cons _ _ _ _ Hc) as (Hc0 & Hz & Hc'). pose proof (zlen_nonneg t). wp_step. eapply wp_rd; [exact Hz|].
    destruct (Z.eqb_spec c 10) as [->|Hne].
    + wp_step. apply (HQ (Some i)). rewrite Z.sub_diag. split; [rewrite zlen_cons; lia|done].
    + rewrite (proj2 (Z.eqb_neq c 0)) by done. wp_step. apply IH; [done|cbn in Hf; lia|]. intros r Hr. apply HQ.
      destruct r as [k|]; cbn [line]; rewrite (proj2 (Z.eqb_neq c 10)) by done; [|by f_equal].
      destruct Hr as [Hk <-]. split; [rewrite zlen_cons; lia|]. unfold ztake.
      replace (Z.to_nat (k - i)) with (Datatypes.S (Z.to_nat (k - (i + 1)))) by lia. done.
Qed.

Lemma cstr_cut b t k : cstr b 0 t -> 0 <= k <= zlen t -> cstr (zupd b k 0) 0 (ztake k t).
Proof.
  intros Hc Hk. pose proof (cstr_len _ _ _ Hc). split; [lia|]. rewrite zlen_ztake by lia. split.
  - intros i Hi. destruct (cstr_at _ _ _ i Hc) as (c & Hc1 & Hc0 & Hc2); [lia|]. exists c. rewrite znth_ztake by lia.
    split_and!; [done|done|]. rewrite znth_zupd_ne by lia. done.
  - rewrite Z.add_0_l. apply znth_zupd_eq. lia.
Qed.

Lemma wp_set_search_domains domains d info (Q : unit -> resolv_cache_info -> Prop) E :
  cstr domains 0 d -> zlen (defdname info) = MAXDNSRCHPATH -> zlen (dnsrch_offset info) = MAXDNSRCH + 1 ->
  (forall b offs os, zlen b = MAXDNSRCHPATH -> recorded b MAXDNSRCHPATH os (search_words d) -> offsets offs (os ++ [-1]) ->
     Q tt (with_domains b offs info)) ->
  wp (set_search_domains domains) info Q E.
Proof.
  intros Hd Hlb Hlo HQ. set (info0 := info) at 1. assert (Hi : info0 = with_domains (defdname info) (dnsrch_offset info) info) by (by destruct info).
  rewrite Hi. clear Hi info0. set (t := ztake (MAXDNSRCHPATH - 1) d). unfold set_search_domains. wp_step. apply wp_on_defdname.
  eapply wp_conseq; [apply (wp_strlcpy _ d); [exact Hd|unfold MAXDNSRCHPATH in *; lia]|]. intros r b [_ ->].
  change (MAXDNSRCHPATH =? 0) with false. cbv iota. set (b := strlcpy_buf _ _ _).
  assert (Hb : zlen b = MAXDNSRCHPATH).
  { unfold b, strlcpy_buf. rewrite zlen_splice; [done|lia|]. pose proof (zlen_nonneg d). rewrite zlen_app, zlen_ztake; unfold MAXDNSRCHPATH in *; change (zlen [0]) with 1; lia. }
  assert (Hc : cstr b 0 t).
  { assert (Ht : t = ztake (Z.min (zlen d) (MAXDNSRCHPATH - 1)) d).
    { unfold t. destruct (Z.le_ge_cases (zlen d) (MAXDNSRCHPATH - 1)); [by rewrite Z.min_l, !ztake_ge by lia|by rewrite Z.min_r by lia]. }
    rewrite Ht. eapply cstr_strlcpy_buf; [exact Hd|unfold MAXDNSRCHPATH in *; lia]. }
  pose proof (cstr_len _ _ _ Hc) as Hlen. wp_step. apply wp_getS.
  change (defdname (with_domains b (dnsrch_offset info) info)) with b. wp_step.
  eapply (wp_strchr b t); [exact Hc|unfold zlen in *; lia|]. intros cp Hcp. wp_step.
  apply (wp_conseq _ _ (fun _ s => exists b1, s = with_domains b1 (dnsrch_offset info) info /\ zlen b1 = MAXDNSRCHPATH /\ cstr b1 0 (line t))).
  - destruct cp as [k|].
    + destruct Hcp as [Hk Hl]. rewrite Z.sub_0_r in Hl. apply wp_on_defdname, wp_wr; [lia|]. eexists. split; [done|].
      rewrite zlen_zupd, <- Hl. split; [done|]. apply cstr_cut; [done|lia].
    + wp_step. exists b. by rewrite Hcp.
  - intros _ s (b1 & -> & Hb1 & Hc1). wp_step. change 0 with (zlen (@nil Z)) at 2.
    eapply (wp_domain_loop info _ (line t) b1 _ 0 [] []); [change (zlen (@nil Z)) with 0; unfold MAXDNSRCH; lia|exact Hb1|exact Hc1|constructor|done|by split|].
    intros b2 offs2 os2 Hb2 Hrec Hoff Hos. apply wp_on_offsets. destruct Hoff as [Hol Hot]. pose proof (zlen_nonneg os2).
    apply wp_wr; [unfold MAXDNSRCH in *; lia|]. eapply HQ; [exact Hb2|exact Hrec|]. apply offsets_snoc; [by split|lia].
Qed.

(** ** Setting the name servers of a network *)

(** What a network uses after the call: the new servers, or old ones that are the same. *)
Definition configured (servers : list (list Z)) (ads : list addrinfo) (d : list Z) (p : __res_params) (ns : list (list Z)) (ads' : list addrinfo)
    (info : resolv_cache_info) : Prop :=
  info_servers info ns ads' /\ (ns = servers /\ ads' = ads \/ same_servers ns servers) /\
  params info = p /\ domains_ok info (search_words d).

Lemma servers_domains servers ads info ns0 ads0 p info1 b offs d :
  servers_set servers ads info ns0 ads0 p info1 -> zlen b = MAXDNSRCHPATH ->
  (exists os, recorded b MAXDNSRCHPATH os (search_words d) /\ offsets offs (os ++ [-1])) ->
  exists ns ads', configured servers ads d p ns ads' (with_domains b offs info1) /\
    revision_id info <= revision_id info1 <= revision_id info + 2.
Proof.
  intros (_ & Hp & Hcase) Hb Hd. assert (Hconf : forall ns ads', info_servers info1 ns ads' ->
    info_servers (with_domains b offs info1) ns ads').
  { intros ns ads' [Hc Hn Ha Hst _]. destruct Hd as (os & Hrec & Hoff). destruct info1. constructor; [done|done|done|done|].
    split; [done|]. split; [apply Hoff|]. exists (search_words d). left. by exists os. }
  destruct Hcase as [(Hsame & Hs & Hr)|(_ & Hs & Hr)].
  - exists ns0, ads0. split; [split_and!; [by apply Hconf|by right|by destruct info1|by destruct info1]|].
    rewrite Hr. destruct (_ =? _); lia.
  - exists servers, ads. split; [split_and!; [by apply Hconf|by left|by destruct info1|by destruct info1]|]. lia.
Qed.

Definition with_revision (r : Z) (v : view) : view := View (items v) (pending v) (lastid v) r.

Lemma cache_view_revision c v r : cache_view c v -> cache_view c (with_revision r v).
Proof. intros []. by constructor. Qed.

(** The state with the mutex free. *)
Definition unlock (s : resolver) : resolver := Resolver (_res_cache_list s) false (_res_cache_once s) (ticks s).

Lemma wp_unlock_at s (Q : unit -> resolver -> Prop) E : Q tt (unlock s) -> wp pthread_mutex_unlock s Q E.
Proof. intros HQ. apply wp_updS. by destruct s. Qed.

Lemma at_net_unlock s m id i info c v : at_net s m id i info c v -> at_net (unlock s) m id i info c v.
Proof. intros [Hr ? ? ? ? ? ? ?]. constructor; try done. by destruct Hr; constructor. Qed.

Section setting_net.
Context `{Hok : SystemOk} (servers : list (list Z)) (Hc : Forall is_cstr servers).

Lemma wp_resolve s : forall fuel i ads (Q : option (list addrinfo) -> resolver -> Prop) E,
  0 <= i <= zlen servers -> (Z.to_nat (zlen servers - i) < fuel)%nat -> mapM getaddrinfo (ztake i servers) = Some ads ->
  Q (mapM getaddrinfo servers) s -> wp (loop fuel (resolve_step servers (zlen servers)) (i, ads)) s Q E.
Proof.
  induction fuel as [|fuel IH]; intros i ads Q E Hi Hf Hads HQ; [lia|]. apply wp_loop_S. unfold resolve_step.
  destruct (Z.ltb_spec i (zlen servers)); cbn [negb].
  - destruct (znth_lt servers i) as [nm Hnm]; [lia|]. wp_step. eapply wp_rd; [exact Hnm|].
    assert (Happ : forall l k : list (list Z), mapM getaddrinfo (l ++ k) = (mapM getaddrinfo l ≫= fun x => mapM getaddrinfo k ≫= fun y => Some (x ++ y))).
    { clear. induction l as [|x l IHl]; intros k; cbn; [by destruct (mapM getaddrinfo k)|]. destruct (getaddrinfo x); [|done]. cbn.
      rewrite IHl. destruct (mapM getaddrinfo l); [|done]. cbn. by destruct (mapM getaddrinfo k). }
    destruct (getaddrinfo nm) as [ad|] eqn:Had; wp_step.
    + apply IH; [lia|lia| |done]. rewrite (ztake_snoc _ _ _ Hnm), Happ, Hads. cbn. by rewrite Had.
    + replace (mapM getaddrinfo servers) with (@None (list addrinfo)) in HQ; [done|].
      rewrite <- (ztake_zdrop i servers), (zdrop_cons _ _ _ Hnm), Happ, Hads. cbn. by rewrite Had.
  - wp_step. replace i with (zlen servers) in Hads by lia. rewrite ztake_all in Hads. by rewrite Hads in HQ.
Qed.

Lemma mapM_good ads : mapM getaddrinfo servers = Some ads -> zlen ads = zlen servers /\ Forall good_addr ads.
Proof.
  intros Hm%mapM_Some_1. split; [unfold zlen; by rewrite (Forall2_length _ _ _ Hm)|].
  clear Hc. induction Hm as [|x ad l ads' Hx _ IH]; constructor; [by eapply address_good|done].
Qed.

Lemma wp_set_nameservers s m id domains d prm :
  net_rep s m -> unlocked s -> cstr domains 0 d -> (forall v, m !! id = Some v -> revision v + 2 < 2 ^ 31) ->
  wp (_resolv_set_nameservers_for_net id servers (zlen servers) domains prm) s
     (fun r s' => unlocked s' /\
        (MAXNS < zlen servers -> r = E2BIG /\ s' = s) /\
        (zlen servers <= MAXNS -> match mapM getaddrinfo servers with
         | None => r = EINVAL /\ s' = s
         | Some ads => r = 0 /\
             ((m !! id = None /\ net_rep s' m) \/
              exists i info c v rev ns ads', at_net s' (<[id := with_revision rev v]> m) id i info c (with_revision rev v) /\
                v = default (empty_view 0) (m !! id) /\ revision v <= rev <= revision v + 2 /\
                configured servers ads d (default _resolv_set_default_params prm) ns ads' info)
         end))
     (fun _ _ => False).
Proof.
  intros Hr Hlk Hd Hrev. unfold _resolv_set_nameservers_for_net.
  destruct (Z.ltb_spec MAXNS (zlen servers)) as [Hmany|Hfew]; [wp_step; split_and!; [done|done|lia]|].
  pose proof (zlen_nonneg servers). wp_step. apply wp_resolve; [lia|lia|done|].
  destruct (mapM getaddrinfo servers) as [ads|] eqn:Hm; [|wp_step; split_and!; [done|lia|done]].
  destruct (mapM_good ads Hm) as [Hla Hga]. wp_step. eapply wp_once_init; [exact Hr|exact Hlk|]. intros s1 Hr1 Hlk1 Ho1.
  eapply wp_locked; [exact Hr1|exact Hlk1|]. intros s2 Hr2 Hlk2 Ho2. rewrite Ho1 in Ho2. wp_step.
  eapply wp_get_res_cache; [exact Hr2|exact Ho2| |].
  - intros Hn _. unfold _find_cache_info_locked. wp_step. wp_step. apply wp_getS. wp_step. rewrite (net_none _ _ _ Hr2 Hn). wp_step.
    wp_step. wp_step. eapply wp_net_unlock; [exact Hr2|]. intros s3 Hr3 Hlk3. wp_step. split_and!; [done|lia|]. intros _. split; [done|]. by left.
  - intros i s3 m3 info c v Hat _ Hm3. assert (Hv : v = default (empty_view 0) (m !! id)) by (by destruct Hm3 as [[-> _]|(-> & -> & _)]).
    assert (Hrv : revision v + 2 < 2 ^ 31) by (destruct Hm3 as [[Hk _]|(_ & -> & _)]; [by apply Hrev|done]).
    assert (Hmm : forall v', <[id := v']> m3 = <[id := v']> m) by (intros v'; destruct Hm3 as [[_ ->]|(_ & _ & ->)]; [done|by rewrite insert_insert_eq]).
    destruct (at_shape _ _ _ _ _ _ _ Hat) as (ns0 & ads0 & Hs). unfold _find_cache_info_locked. wp_step. wp_step. apply wp_getS. wp_step.
    rewrite (at_find _ _ _ _ _ _ _ Hat). wp_step. eapply wp_on_info; [exact Hat|]. wp_step.
    eapply (wp_set_servers servers ads Hc Hla Hfew Hga); [exact Hs|rewrite (at_rev _ _ _ _ _ _ _ Hat); lia|]. intros info1 Hset.
    destruct (is_domains _ _ _ Hs) as (Hd1 & Hd2 & _). pose proof Hset as ((S1 & S2 & S3 & S4) & _).
    eapply (wp_set_search_domains domains d); [exact Hd|by rewrite S3|by rewrite S4|]. intros b offs os Hb Hrec Hoff.
    destruct (servers_domains servers ads info ns0 ads0 _ info1 b offs d Hset Hb) as (ns & ads' & Hconf & Hrr); [by exists os|].
    set (info2 := with_domains b offs info1) in *. pose proof Hconf as (Hs2 & _).
    destruct (net_put_info s3 m3 id i info c v info2 c (with_revision (revision_id info1) v) (ticks s3) Hat) as [Hr4 Hf4].
    { rewrite <- (at_id _ _ _ _ _ _ _ Hat), <- S1. by destruct info1. }
    { rewrite <- (at_cache _ _ _ _ _ _ _ Hat), <- S2. by destruct info1. }
    { by destruct info1. }
    { apply cache_view_revision. exact (at_view _ _ _ _ _ _ _ Hat). }
    { by exists ns, ads'. }
    rewrite Hmm in Hr4. wp_step. apply wp_unlock_at. wp_step. split_and!; [done|lia|]. intros _. split; [done|]. right.
    exists i, info2, c, v, (revision_id info1), ns, ads'. rewrite (at_rev _ _ _ _ _ _ _ Hat) in Hrr. split_and!; [|done|lia|lia|done].
    apply at_net_unlock. constructor; [exact Hr4|exact Hf4| | | |apply lookup_insert_eq|by destruct info1|].
    + unfold put_info. cbn. apply znth_zupd_eq. exact (znth_Some _ _ _ (at_info _ _ _ _ _ _ _ Hat)).
    + rewrite <- (at_id _ _ _ _ _ _ _ Hat), <- S1. by destruct info1.
    + rewrite <- (at_cache _ _ _ _ _ _ _ Hat), <- S2. by destruct info1.
    + apply cache_view_revision. exact (at_view _ _ _ _ _ _ _ Hat).
Qed.
End setting_net.

(** ** What a network uses *)

(** The arrays of the caller of [android_net_res_stats_get_info_for_net]. *)
Definition room_for_info (out : net_info) : Prop :=
  zlen (o_servers out) = MAXNS /\ Forall (fun b => zlen b = sizeof_sockaddr_storage) (o_servers out) /\ zlen (o_stats out) = MAXNS /\
  zlen (o_domains out) = MAXDNSRCH /\ Forall (fun b => zlen b = MAXDNSRCHPATH) (o_domains out).

(** [out] has the addresses [ads], the statistics [stats], the search domains [ws] and the parameters [p]. *)
Record reports (out : net_info) (ads : list addrinfo) (stats : list __res_stats) (ws : list (list Z)) (p : __res_params) : Prop := Reports {
  rp_count : o_nscount out = zlen ads;
  rp_servers : forall k ad, znth ads k = Some ad -> exists b a, znth (o_servers out) k = Some b /\ ai_addr ad = Some a /\
    ztake (ai_addrlen ad) b = ztake (ai_addrlen ad) a;
  rp_stats : forall k, 0 <= k < zlen ads -> znth (o_stats out) k = znth stats k;
  rp_dcount : o_dcount out = zlen ws;
  rp_domains : forall k w, znth ws k = Some w -> exists b, znth (o_domains out) k = Some b /\ cstr b 0 w;
  rp_params : o_params out = p }.

Section info.
Context (info : resolv_cache_info) (ns : list (list Z)) (ads : list addrinfo) (Hs : info_servers info ns ads).

Lemma addr_at i : 0 <= i < nscount info -> exists ad, znth ads i = Some ad /\ znth (nsaddrinfo info) i = Some (Some ad) /\ good_addr ad.
Proof.
  destruct Hs as [(Hc & Hl & Hm) _ [Ha Hg] _ _]. intros Hi. destruct (znth_lt ads i) as [ad Had]; [lia|]. exists ad.
  split; [done|]. split; [rewrite Ha; by apply znth_padded|]. rewrite Forall_forall in Hg. apply (Hg ad). apply znth_lookup in Had. by eapply list_elem_of_lookup_2.
Qed.

Lemma wp_check_addrs s : forall fuel i (Q : Z -> resolver -> Prop) E, 0 <= i <= nscount info -> (Z.to_nat (nscount info - i) < fuel)%nat ->
  Q 0 s -> wp (loop fuel (check_addr_step info) i) s Q E.
Proof.
  induction fuel as [|fuel IH]; intros i Q E Hi Hf HQ; [lia|]. apply wp_loop_S. unfold check_addr_step.
  destruct (Z.ltb_spec i (nscount info)); cbn [negb]; [|by wp_step].
  destruct (addr_at i) as (ad & _ & Had & (Hlen & Hnext & a & Ha & _)); [lia|]. wp_step. eapply wp_rd; [exact Had|].
  cbv beta iota. rewrite Ha, Hnext. destruct (Z.ltb_spec (ai_addrlen ad) sizeof_sockaddr); [lia|].
  destruct (Z.ltb_spec sizeof_sockaddr_storage (ai_addrlen ad)); [lia|]. cbn [orb]. wp_step. apply IH; [lia|lia|done].
Qed.

(** The first [i] addresses and statistics are copied. *)
Record copied (out0 : net_info) (i : Z) (out : net_info) : Prop := Copied {
  cp_room : room_for_info out;
  cp_count : o_nscount out = o_nscount out0;
  cp_addrs : forall k ad, k < i -> znth ads k = Some ad -> exists b a, znth (o_servers out) k = Some b /\ ai_addr ad = Some a /\
    ztake (ai_addrlen ad) b = ztake (ai_addrlen ad) a;
  cp_stats : forall k, 0 <= k < i -> znth (o_stats out) k = znth (nsstats info) k }.

Lemma Forall_zupd {A} (P : A -> Prop) l i x : Forall P l -> P x -> Forall P (zupd l i x).
Proof. intros Hl Hx. unfold zupd. destruct (i <? 0); [done|]. by apply Forall_insert. Qed.

Lemma wp_copy_addrs out0 : forall fuel i out (Q : unit -> net_info -> Prop) E, 0 <= i <= nscount info -> (Z.to_nat (nscount info - i) < fuel)%nat ->
  copied out0 i out -> (forall out', copied out0 (nscount info) out' -> Q tt out') -> wp (loop fuel (copy_addr_step info) i) out Q E.
Proof.
  pose proof (is_count _ _ _ Hs) as (Hnc & Hla & Hm). pose proof (is_stats _ _ _ Hs) as [Hsl _].
  induction fuel as [|fuel IH]; intros i out Q E Hi Hf Hcp HQ; [lia|]. apply wp_loop_S. unfold copy_addr_step.
  destruct (Z.ltb_spec i (nscount info)); cbn [negb]; [|wp_step; apply HQ; by replace (nscount info) with i by lia].
  destruct (addr_at i) as (ad & Had & Had' & (Hlen & _ & a & Ha & Hal)); [lia|]. wp_step. eapply wp_rd; [exact Had'|].
  destruct ad as [len addr nxt]. cbn [ai_addr ai_addrlen] in *. subst addr.
  destruct Hcp as [(R1 & R2 & R3 & R4 & R5) Hcnt Haddrs Hstats]. destruct (znth_lt (o_servers out) i) as [b Hb]; [lia|].
  pose proof (Forall_znth _ _ _ _ R2 Hb) as Hbl. cbn beta in Hbl. unfold sizeof_sockaddr, sizeof_sockaddr_storage in *.
  destruct out as [nc0 sv0 dc0 dm0 pr0 ss0]. cbn in * |-.
  wp_step. apply wp_zoom. eapply wp_on_elem; [exact Hb|]. apply wp_memcpy; [lia|lia|lia|lia|lia|]. rewrite zdrop_0.
  destruct (znth_lt (nsstats info) i) as [st Hst]; [lia|]. wp_step. eapply wp_rd; [exact Hst|]. wp_step. apply wp_zoom, wp_wr; [cbn; lia|].
  wp_step. apply IH; [lia|lia| |done].
  assert (Hbz : zlen (splice b 0 (ztake len a)) = 128) by (rewrite zlen_splice; rewrite ?zlen_ztake; lia).
  change (copied out0 (i + 1) (NetInfo nc0 (zupd sv0 i (splice b 0 (ztake len a))) dc0 dm0 pr0 (zupd ss0 i st))).
  constructor; cbn [o_nscount o_servers o_stats].
  - unfold room_for_info. cbn [o_servers o_stats o_domains]. rewrite !zlen_zupd. split_and!; [done|by apply Forall_zupd|done|done|done].
  - done.
  - intros k ad Hk Hak. destruct (decide (k = i)) as [->|Hne].
    + rewrite znth_zupd_eq by lia. rewrite Had in Hak. apply (inj Some) in Hak as <-. exists (splice b 0 (ztake len a)), a.
      split_and!; [done|done|]. cbn [ai_addrlen]. rewrite <- (zlen_ztake len a) at 1 by lia. apply ztake_splice_0.
    + rewrite znth_zupd_ne by done. apply (Haddrs k ad); [lia|done].
  - intros k Hk. destruct (decide (k = i)) as [->|Hne]; [by rewrite znth_zupd_eq by lia|]. rewrite znth_zupd_ne by done. apply Hstats. lia.
Qed.
End info.

Lemma recorded_at b bound os ws i o w : recorded b bound os ws -> znth os i = Some o -> znth ws i = Some w ->
  cstr b o w /\ word w /\ o + zlen w < bound.
Proof. intros Hr Ho%znth_lookup Hw%znth_lookup. by eapply Forall2_lookup_lr in Hr. Qed.

Lemma cstr_word b o w : cstr b o w -> word w -> exists c, znth b o = Some c /\ c <> 0.
Proof. intros Hc [Hne _]. destruct w as [|c w]; [done|]. apply cstr_cons in Hc as (? & ? & _). by exists c. Qed.

(** The first [i] search domains are copied, the rest is as in [out0]. *)
Record named (ws : list (list Z)) (out0 : net_info) (i : Z) (out : net_info) : Prop := Named {
  nm_room : room_for_info out;
  nm_rest : o_nscount out = o_nscount out0 /\ o_servers out = o_servers out0 /\ o_stats out = o_stats out0;
  nm_domains : forall k w, k < i -> znth ws k = Some w -> exists b, znth (o_domains out) k = Some b /\ cstr b 0 w }.

(** Where the search domains are: the offsets, at most MAXDNSRCH, and the end mark. *)
Lemma domains_offsets info ws : domains_ok info ws ->
  exists os, recorded (defdname info) MAXDNSRCHPATH os ws /\ zlen os = zlen ws /\ zlen ws <= MAXDNSRCH /\
    forall i, 0 <= i <= zlen os -> znth (dnsrch_offset info) i = znth (os ++ [-1]) i.
Proof.
  intros (os & Hrec & Hol & Hot). assert (Hlw : zlen os = zlen ws) by (unfold zlen; by rewrite (Forall2_length _ _ _ Hrec)).
  exists os. split_and!; [done|done| |].
  - assert (zlen (os ++ [-1]) <= MAXDNSRCH + 1); [|rewrite zlen_app in *; change (zlen [-1]) with 1 in *; lia].
    rewrite <- Hot at 1. unfold zlen, ztake in *. rewrite length_take. lia.
  - intros i Hi. rewrite <- (znth_ztake i (zlen (os ++ [-1]))); [by rewrite Hot|]. rewrite zlen_app. change (zlen [-1]) with 1. lia.
Qed.

Lemma wp_copy_domains info ws out0 : domains_ok info ws -> zlen (defdname info) = MAXDNSRCHPATH ->
  forall fuel i out (Q : Z -> net_info -> Prop) E, 0 <= i <= zlen ws -> (Z.to_nat (MAXDNSRCH - i) < fuel)%nat -> named ws out0 i out ->
  (forall out', named ws out0 (zlen ws) out' -> Q (zlen ws) out') -> wp (loop fuel (copy_domain_step info) i) out Q E.
Proof.
  intros Hd Hb. destruct (domains_offsets _ _ Hd) as (os & Hrec & Hlw & H6 & Hoffs).
  induction fuel as [|fuel IH]; intros i out Q E Hi Hf Hn HQ; [lia|]. apply wp_loop_S. unfold copy_domain_step.
  destruct (Z.ltb_spec i MAXDNSRCH); cbn [negb]; [|wp_step; replace i with (zlen ws) in * by lia; by apply HQ].
  destruct (decide (i = zlen ws)) as [->|Hne].
  - wp_step. eapply wp_rd; [rewrite Hoffs, <- Hlw by lia; apply znth_middle|]. cbn. wp_step. by apply HQ.
  - destruct (znth_lt os i) as [o Ho]; [lia|]. destruct (znth_lt ws i) as [w Hw]; [lia|].
    destruct (recorded_at _ _ _ _ _ _ _ Hrec Ho Hw) as (Hc & Hword & Hlt). destruct (cstr_word _ _ _ Hc Hword) as (c & Hoc & Hc0).
    pose proof Hc as [Ho0 _]. pose proof (zlen_nonneg w). wp_step. eapply wp_rd; [rewrite Hoffs, znth_app_l by lia; exact Ho|].
    destruct (Z.ltb_spec o 0); [lia|]. destruct (Z.leb_spec MAXDNSRCHPATH o); [lia|]. cbn [orb].
    wp_step. eapply wp_rd; [exact Hoc|]. rewrite (proj2 (Z.eqb_neq c 0)) by done.
    destruct Hn as [(R1 & R2 & R3 & R4 & R5) Hrest Hdom]. destruct (znth_lt (o_domains out) i) as [b Hbuf]; [lia|].
    pose proof (Forall_znth _ _ _ _ R5 Hbuf) as Hbl. cbn beta in Hbl. destruct out as [nc0 sv0 dc0 dm0 pr0 ss0]. cbn in * |-.
    assert (Hcz := cstr_zdrop _ _ _ Hc). wp_step. apply wp_zoom. eapply wp_on_elem; [exact Hbuf|].
    eapply wp_conseq; [apply (wp_strlcpy _ w b MAXDNSRCHPATH); [exact Hcz|unfold MAXDNSRCHPATH in *; lia]|].
    intros r b' [_ ->]. change (MAXDNSRCHPATH =? 0) with false. cbv iota. wp_step. apply IH; [lia|lia| |done].
    change (named ws out0 (i + 1) (NetInfo nc0 sv0 dc0 (zupd dm0 i (strlcpy_buf b w MAXDNSRCHPATH)) pr0 ss0)).
    assert (Hcb : cstr (strlcpy_buf b w MAXDNSRCHPATH) 0 w).
    { pose proof (cstr_strlcpy_buf b w _ _ MAXDNSRCHPATH Hcz) as Hsc. rewrite Z.min_l, ztake_all in Hsc by lia. apply Hsc. unfold MAXDNSRCHPATH in *. lia. }
    constructor; cbn [o_nscount o_servers o_stats o_domains].
    + unfold room_for_info. cbn [o_servers o_stats o_domains]. rewrite !zlen_zupd. split_and!; [done|done|done|done|]. apply Forall_zupd; [done|].
      unfold strlcpy_buf, MAXDNSRCHPATH in *. rewrite zlen_splice; [done|lia|]. rewrite zlen_app, zlen_ztake by lia. change (zlen [0]) with 1. lia.
    + done.
    + intros k w' Hk Hw'. destruct (decide (k = i)) as [->|Hki].
      * rewrite znth_zupd_eq by lia. rewrite Hw in Hw'. apply (inj Some) in Hw' as <-. by eexists.
      * rewrite znth_zupd_ne by done. apply (Hdom k w'); [lia|done].
Qed.

(** There are none before the first call. *)
Lemma wp_copy_no_domains info out (Q : Z -> net_info -> Prop) E :
  defdname info = replicate 256 0 -> dnsrch_offset info = replicate 7 0 -> Q 0 out ->
  wp (loop (Z.to_nat MAXDNSRCH + 1) (copy_domain_step info) 0) out Q E.
Proof.
  intros Hd Ho HQ. apply (wp_loop_S _ 6). unfold copy_domain_step. cbn [negb Z.ltb Z.compare MAXDNSRCH].
  wp_step. eapply wp_rd; [by rewrite Ho|]. cbn. wp_step. eapply wp_rd; [by rewrite Hd|]. cbn. by wp_step.
Qed.

Lemma wp_copy_has_domains info ws out0 (Q : Z -> net_info -> Prop) E :
  has_domains info ws -> zlen (defdname info) = MAXDNSRCHPATH -> named ws out0 0 out0 -> (forall out', named ws out0 (zlen ws) out' -> Q (zlen ws) out') ->
  wp (loop (Z.to_nat MAXDNSRCH + 1) (copy_domain_step info) 0) out0 Q E.
Proof.
  intros [Hd|(Hd & Ho & ->)] Hl Hn HQ; [|apply wp_copy_no_domains; [done|done|by apply (HQ out0)]].
  eapply (wp_copy_domains info ws out0 Hd Hl); [pose proof (zlen_nonneg ws); lia|unfold MAXDNSRCH; lia|exact Hn|exact HQ].
Qed.

Lemma wp_get_info s m id i info c v ns ads ws out (Q : Z * Z * net_info -> resolver -> Prop) E :
  at_net s m id i info c v -> unlocked s -> info_servers info ns ads -> has_domains info ws -> room_for_info out ->
  (forall out' s', unlocked s' -> at_net s' m id i info c v -> reports out' ads (nsstats info) ws (params info) -> Q (revision_id info, 0, out') s') ->
  wp (android_net_res_stats_get_info_for_net id out) s Q E.
Proof.
  intros Hat Hlk Hs Hd Hroom HQ. pose proof (is_count _ _ _ Hs) as (Hnc & Hla & Hm). pose proof (zlen_nonneg ns).
  unfold android_net_res_stats_get_info_for_net, pthread_mutex_lock. wp_step. wp_step. apply wp_getS. wp_step. apply wp_require; [by rewrite Hlk|].
  apply wp_updS. set (s1 := s{{ _res_cache_list_lock := true }}).
  assert (Hat1 : at_net s1 m id i info c v) by (destruct s; destruct Hat as [[] ? ? ? ? ? ? ?]; by constructor).
  unfold _find_cache_info_locked. wp_step. wp_step. apply wp_getS. wp_step. rewrite (at_find _ _ _ _ _ _ _ Hat1).
  wp_step. eapply wp_on_info; [exact Hat1|]. apply wp_getS.
  replace (put_info i info (ticks s1) s1) with s1 by (unfold put_info; rewrite zupd_same by exact (at_info _ _ _ _ _ _ _ Hat1); done).
  rewrite (proj2 (Z.ltb_ge _ _)) by lia. wp_step. eapply wp_check_addrs; [exact Hs|lia|lia|]. cbn [negb Z.eqb].
  wp_step. apply wp_on_local. wp_step. apply wp_updS. set (out1 := out{{ o_nscount := nscount info }}).
  assert (Hcp : copied info ads out1 0 out1).
  { constructor; [by destruct out|done| |]; [intros k ad Hk [? _]%znth_Some|intros k Hk]; lia. }
  wp_step. eapply (wp_copy_addrs info ns ads Hs out1); [lia|lia|exact Hcp|]. intros out2 [Hroom2 Hcnt2 Haddrs2 Hstats2].
  wp_step. eapply (wp_copy_has_domains info ws out2 _ _ Hd (proj1 (is_domains _ _ _ Hs))).
  { constructor; [done|done|]. intros k w Hk [? _]%znth_Some. lia. }
  intros out3 [_ (Hr1 & Hr2 & Hr3) Hdoms]. apply wp_updS. wp_step. apply wp_unlock_at. wp_step.
  apply HQ; [done|exact (at_net_unlock _ _ _ _ _ _ _ Hat1)|]. destruct out3 as [nc3 sv3 dc3 dm3 pr3 ss3]. cbn in * |-.
  constructor; cbn; unfold constant; [|rewrite Hr2|rewrite Hr3|done| |done].
  - transitivity (nscount info); [|lia]. rewrite Hr1, Hcnt2. by destruct out.
  - intros k ad Hk. apply Haddrs2; [|done]. pose proof (znth_Some _ _ _ Hk). lia.
  - intros k Hk. apply Hstats2. lia.
  - intros k w Hk. apply Hdoms; [|done]. by apply znth_Some in Hk as [_ ?].
Qed.

Lemma wp_get_info_none s m id out (Q : Z * Z * net_info -> resolver -> Prop) E :
  net_rep s m -> unlocked s -> m !! id = None -> (forall s', unlocked s' -> net_rep s' m -> Q (-1, 0, out) s') ->
  wp (android_net_res_stats_get_info_for_net id out) s Q E.
Proof.
  intros Hr Hlk Hn HQ. unfold android_net_res_stats_get_info_for_net. eapply wp_locked; [exact Hr|exact Hlk|]. intros s2 Hr2 _ _.
  unfold _find_cache_info_locked. wp_step. wp_step. apply wp_getS. wp_step. rewrite (net_none _ _ _ Hr2 Hn).
  wp_step. eapply wp_net_unlock; [exact Hr2|]. intros s3 Hr3 Hlk3. wp_step. by apply HQ.
Qed.

(** ** Theorems *)


(** Servers "1.2" and "8", the search domains "lan" and "a.b", and the default parameters. *)
Definition sample_servers : list (list Z) := [[49; 46; 50; 0]; [56; 0]].
Definition sample_domains : list Z := [32; 108; 97; 110; 9; 97; 46; 98; 10; 120; 0].
Definition sample_room : net_info :=
  NetInfo 0 (replicate 4 (replicate 128 0)) 0 (replicate 6 (replicate 256 0)) (Params 0 0 0 0 0) (replicate 4 no_stats).

Lemma sample_servers_ok : Forall is_cstr sample_servers.
Proof. repeat constructor; [exists [49; 46; 50]|exists [56]]; (split; [done|set_solver]). Qed.

Lemma sample_domains_ok : cstr sample_domains 0 [32; 108; 97; 110; 9; 97; 46; 98; 10; 120].
Proof. apply (cstr_intro [32; 108; 97; 110; 9; 97; 46; 98; 10; 120] []). repeat constructor; done. Qed.

Lemma sample_room_ok : room_for_info sample_room.
Proof. split_and!; [done|by apply Forall_replicate|done|done|by apply Forall_replicate]. Qed.

Lemma one_cache_revision v : ({[7 := empty_view 0]} : gmap Z view) !! 7 = Some v -> revision v + 2 < 2 ^ 31.
Proof. rewrite lookup_singleton_eq. by intros [= <-]. Qed.

