(* ===== verification/ResState.v ===== *)
(** * The state of a resolver: [_resolv_populate_res_for_net] of [dns/resolv/res_cache.c]

    Before a query the name servers and search domains of the network are copied
    into the caller's [res_state]. A pointer in [dnsrch] is an offset into
    [defdname], NULL is [None]. *)
From S2P Require Import Prelude CString ResCache ResCacheRep ResStats ResNet ResServers ResNetRep ResNetSpec ResServersSpec.
From coqutil Require Import Datatypes.RecordSetters.
Import DoubleBraceUpdate.

(** ** The code *)

(** The fields that are used of [struct __res_state]; [ext] is [_u._ext.ext->nsaddrs], if there is an extension. *)
Record res_state : Type := ResState {
  s_netid : Z; s_nscount : Z; nsaddr_list : list (list Z); dnsrch : list (option Z); s_defdname : list Z; ext : option (list (list Z)) }.

Definition sizeof_sockaddr_in : Z := 16.
Definition sizeof_sockaddr_union : Z := 128.

(** [statp->nsaddr_list[nserv].sin_family = AF_UNSPEC;] *)
Definition unspec (nserv : Z) : M res_state unit :=
  zoom nsaddr_list (fun l st => st{{ nsaddr_list := l }}) (on_elem nserv (wr 0 0;; wr 1 0)).

(** The address of the server [nserv], of [len] octets, is copied. *)
Definition put_address (nserv : Z) (a : list Z) (len : Z) : M res_state unit :=
  st ← getS;
  match ext st with
  | Some e =>
      '(_, e) ← on_local e (on_elem nserv (memcpy a 0 0 len));
      updS (fun st => st{{ ext := Some e }});;
      unspec nserv
  | None =>
      if u64 len <=? sizeof_sockaddr_in
      then zoom nsaddr_list (fun l st => st{{ nsaddr_list := l }}) (on_elem nserv (memcpy a 0 0 len))
      else unspec nserv
  end.

Definition populate_step (info : resolv_cache_info) (nserv : Z) : M res_state (step Z Z) :=
  if negb (nserv <? MAXNS) then mret (Done nserv) else
  ai ← rd (nsaddrinfo info) nserv;
  match ai with
  | None => mret (Done nserv)
  | Some ai =>
      (if u64 (ai_addrlen ai) <=? sizeof_sockaddr_union
       then match ai_addr ai with Some a => put_address nserv a (ai_addrlen ai) | None => undef end
       else mret tt);;
      mret (Next (nserv + 1))
  end.

(** [*pp++ = &statp->defdname[0] + *p++;] with [pp] and [p] at the same index. *)
Definition search_step (info : resolv_cache_info) (p : Z) : M res_state (step Z unit) :=
  if negb (p <? MAXDNSRCH) then mret (Done tt) else
  off ← rd (dnsrch_offset info) p;
  if off =? -1 then mret (Done tt) else
  zoom dnsrch (fun l st => st{{ dnsrch := l }}) (wr p (Some off));;
  mret (Next (p + 1)).

Definition populate (info : resolv_cache_info) : M res_state unit :=
  nserv ← loop (Z.to_nat MAXNS + 1) (populate_step info) 0;
  updS (fun st => st{{ s_nscount := nserv }});;
  zoom s_defdname (fun l st => st{{ s_defdname := l }}) (memcpy (defdname info) 0 0 MAXDNSRCHPATH);;
  loop (Z.to_nat MAXDNSRCH + 1) (search_step info) 0.

Definition _resolv_populate_res_for_net (statp : option res_state) : M resolver (option res_state) :=
  match statp with
  | None => mret None
  | Some st =>
      once_init;;
      pthread_mutex_lock;;
      info ← _find_cache_info_locked (s_netid st);
      st ←
        match info with
        | None => mret st
        | Some i => info ← on_info i getS; '(_, st) ← on_local st (populate info); mret st
        end;
      pthread_mutex_unlock;;
      mret (Some st)
  end.

(** ** What the caller gets *)

Definition arrays (n len : Z) (l : list (list Z)) : Prop := zlen l = n /\ Forall (fun b => zlen b = len) l.

(** The arrays of a [res_state]. *)
Definition state_ok (st : res_state) : Prop :=
  arrays MAXNS sizeof_sockaddr_in (nsaddr_list st) /\ zlen (dnsrch st) = MAXDNSRCH + 1 /\ zlen (s_defdname st) = MAXDNSRCHPATH /\
  forall e, ext st = Some e -> arrays MAXNS sizeof_sockaddr_union e.

(** The entry is marked as not used. *)
Definition unspecified (st : res_state) (k : Z) : Prop :=
  exists b, znth (nsaddr_list st) k = Some b /\ ztake 2 b = [0; 0].

(** The address is in the entry of the server [k]. *)
Definition holds_address (l : list (list Z)) (k : Z) (ad : addrinfo) : Prop :=
  exists b a, znth l k = Some b /\ ai_addr ad = Some a /\ ztake (ai_addrlen ad) b = ztake (ai_addrlen ad) a.

(** An extension takes every address; without one an address of IPv4 is kept, another one is left out. *)
Definition address_used (st : res_state) (k : Z) (ad : addrinfo) : Prop :=
  match ext st with
  | Some e => holds_address e k ad /\ unspecified st k
  | None => if decide (ai_addrlen ad <= sizeof_sockaddr_in) then holds_address (nsaddr_list st) k ad else unspecified st k
  end.

(** [st] has the addresses [ads] and the search domains [ws]; the pointers behind them are those of [st0]. *)
Record uses (st0 : res_state) (ads : list addrinfo) (ws : list (list Z)) (st : res_state) : Prop := Uses {
  us_ok : state_ok st;
  us_netid : s_netid st = s_netid st0;
  us_count : s_nscount st = zlen ads;
  us_addrs : forall k ad, znth ads k = Some ad -> address_used st k ad;
  us_domains : forall k w, znth ws k = Some w -> exists o, znth (dnsrch st) k = Some (Some o) /\ cstr (s_defdname st) o w;
  us_rest : forall k, zlen ws <= k -> znth (dnsrch st) k = znth (dnsrch st0) k }.

(** ** Addresses *)

Lemma arrays_znth n len l i : arrays n len l -> 0 <= i < n -> exists b, znth l i = Some b /\ zlen b = len.
Proof.
  intros [Hn Hl] Hi. destruct (znth_lt l i) as [b Hb]; [lia|]. exists b. split; [done|]. exact (Forall_znth _ _ _ _ Hl Hb).
Qed.

Lemma arrays_zupd n len l i b : arrays n len l -> zlen b = len -> arrays n len (zupd l i b).
Proof. intros [Hn Hl] Hb. split; [by rewrite zlen_zupd|]. by apply Forall_zupd. Qed.

Lemma wp_put_array n len l i a c (Q : unit -> list (list Z) -> Prop) E :
  arrays n len l -> 0 <= i < n -> 0 <= c <= len -> c <= zlen a ->
  (forall l', arrays n len l' -> (forall k, k <> i -> znth l' k = znth l k) ->
     (exists b, znth l' i = Some b /\ ztake c b = ztake c a) -> Q tt l') ->
  wp (on_elem i (memcpy a 0 0 c)) l Q E.
Proof.
  intros Hl Hi Hc Ha HQ. destruct (arrays_znth _ _ _ _ Hl Hi) as (b & Hb & Hbl). eapply wp_on_elem; [exact Hb|].
  apply wp_memcpy; [lia|lia|lia|lia|lia|]. rewrite zdrop_0. apply HQ.
  - apply arrays_zupd; [done|]. rewrite zlen_splice; rewrite ?zlen_ztake; lia.
  - intros k Hk. by apply znth_zupd_ne.
  - eexists. split; [apply znth_zupd_eq; pose proof (proj1 Hl); lia|]. rewrite <- (zlen_ztake c a) at 1 by lia. apply ztake_splice_0.
Qed.

Lemma wp_unspec st i (Q : unit -> res_state -> Prop) E :
  arrays MAXNS sizeof_sockaddr_in (nsaddr_list st) -> 0 <= i < MAXNS ->
  (forall l, arrays MAXNS sizeof_sockaddr_in l -> (forall k, k <> i -> znth l k = znth (nsaddr_list st) k) ->
     (exists b, znth l i = Some b /\ ztake 2 b = [0; 0]) -> Q tt (st{{ nsaddr_list := l }})) ->
  wp (unspec i) st Q E.
Proof.
  intros Hl Hi HQ. destruct (arrays_znth _ _ _ _ Hl Hi) as (b & Hb & Hbl). unfold sizeof_sockaddr_in in *.
  unfold unspec. apply wp_zoom. eapply wp_on_elem; [exact Hb|]. wp_step. apply wp_wr; [lia|]. apply wp_wr; [rewrite zlen_zupd; lia|].
  apply HQ.
  - apply arrays_zupd; [done|]. by rewrite !zlen_zupd.
  - intros k Hk. by apply znth_zupd_ne.
  - eexists. split; [apply znth_zupd_eq; pose proof (proj1 Hl); lia|].
    destruct b as [|x [|y b]]; [done|cbn in Hbl; unfold zlen in Hbl; cbn in Hbl; lia|done].
Qed.

(** Another address in the entries; the other fields are the same. *)
Definition same_search (st st' : res_state) : Prop :=
  s_netid st' = s_netid st /\ dnsrch st' = dnsrch st /\ s_defdname st' = s_defdname st.

Definition with_addrs (l : list (list Z)) (e : option (list (list Z))) (st : res_state) : res_state :=
  ResState (s_netid st) (s_nscount st) l (dnsrch st) (s_defdname st) e.

Lemma wp_put_address st i a len nxt (Q : unit -> res_state -> Prop) E :
  let ad := Addrinfo len (Some a) nxt in
  state_ok st -> 0 <= i < MAXNS -> good_addr ad ->
  (forall st', state_ok st' -> same_search st st' -> address_used st' i ad ->
     (forall k ad', k <> i -> address_used st k ad' -> address_used st' k ad') -> Q tt st') ->
  wp (put_address i a len) st Q E.
Proof.
  intros ad (Hl & Hd & Hb & He) Hi (Hlen & _ & a' & Ha & Hal) HQ. cbn [ai_addr ai_addrlen ad] in *. apply (inj Some) in Ha as <-.
  unfold sizeof_sockaddr, sizeof_sockaddr_storage in *.
  assert (Hmove : forall l e l' e' k ad', znth l' k = znth l k -> (forall x x', e = Some x -> e' = Some x' -> znth x' k = znth x k) ->
    (is_Some e <-> is_Some e') -> address_used (with_addrs l e st) k ad' -> address_used (with_addrs l' e' st) k ad').
  { intros l e l' e' k ad' Hk Hek Hse. unfold address_used, unspecified, holds_address, with_addrs. cbn [ext nsaddr_list]. rewrite Hk.
    destruct e as [x|], e' as [x'|]; [by rewrite (Hek x x')| | |done]; exfalso; destruct Hse as [H1 H2];
      [by destruct H1 as [? ?]|by destruct H2 as [? ?]]. }
  destruct st as [nid cnt l ds dn e]. cbn [nsaddr_list dnsrch s_defdname ext] in *. unfold put_address. wp_step. apply wp_getS. cbn [ext].
  destruct e as [e|].
  - specialize (He e eq_refl). wp_step. apply wp_on_local. unfold sizeof_sockaddr_union in *.
    eapply wp_put_array; [exact He|done|lia|lia|]. intros e' Hae' Heo He'. wp_step. apply wp_updS.
    apply wp_unspec; [exact Hl|done|]. intros l' Hl' Hlo Hu. change (Q tt (with_addrs l' (Some e') (ResState nid cnt l ds dn (Some e)))).
    apply HQ; [|done| |].
    + split_and!; [done|done|done|]. by intros ? [= <-].
    + split; [|exact Hu]. destruct He' as (b & ? & ?). by exists b, a.
    + intros k ad' Hk Hu'. apply (Hmove l (Some e)); [by apply Hlo| |done|exact Hu']. intros x x' [= <-] [= <-]. by apply Heo.
  - rewrite u64_id by lia. unfold sizeof_sockaddr_in in *. destruct (Z.leb_spec len 16) as [Hs|Hs].
    + apply wp_zoom. cbn [nsaddr_list]. eapply wp_put_array; [exact Hl|done|lia|lia|]. intros l' Hl' Hlo Hu.
      change (Q tt (with_addrs l' None (ResState nid cnt l ds dn None))). apply HQ; [by split_and!|done| |].
      * unfold address_used. cbn [ext with_addrs ai_addrlen ad nsaddr_list]. rewrite decide_True by (unfold sizeof_sockaddr_in; lia). destruct Hu as (b & ? & ?). by exists b, a.
      * intros k ad' Hk. apply Hmove; [by apply Hlo|done|done].
    + apply wp_unspec; [exact Hl|done|]. intros l' Hl' Hlo Hu.
      change (Q tt (with_addrs l' None (ResState nid cnt l ds dn None))). apply HQ; [by split_and!|done| |].
      * unfold address_used. cbn [ext with_addrs ai_addrlen ad nsaddr_list]. rewrite decide_False by (unfold sizeof_sockaddr_in; lia). exact Hu.
      * intros k ad' Hk. apply Hmove; [by apply Hlo|done|done].
Qed.

Section populate.
Context (info : resolv_cache_info) (ns : list (list Z)) (ads : list addrinfo) (Hs : info_servers info ns ads).

Lemma znth_addrs i : 0 <= i < MAXNS -> znth (nsaddrinfo info) i = Some (znth ads i).
Proof.
  destruct Hs as [(Hc & Hl & Hm) _ [-> _] _ _]. intros Hi. destruct (Z.lt_ge_cases i (zlen ads)) as [Hlt|Hge].
  - destruct (znth_lt ads i) as [ad Had]; [lia|]. rewrite Had. by apply znth_padded.
  - rewrite (znth_None ads) by lia. unfold padded. assert (Hz : zlen (Some <$> ads) = zlen ads) by (unfold zlen; by rewrite length_fmap).
    rewrite znth_app_r, Hz by lia. unfold znth, zlen, MAXNS in *. destruct (Z.ltb_spec (i - Z.of_nat (length ads)) 0); [lia|].
    apply lookup_replicate. split; [done|lia].
Qed.

Lemma wp_populate_loop st0 : forall fuel i st (Q : Z -> res_state -> Prop) E,
  0 <= i <= zlen ads -> (Z.to_nat (MAXNS - i) < fuel)%nat ->
  state_ok st -> same_search st0 st -> (forall k ad, k < i -> znth ads k = Some ad -> address_used st k ad) ->
  (forall st', state_ok st' -> same_search st0 st' -> (forall k ad, znth ads k = Some ad -> address_used st' k ad) -> Q (zlen ads) st') ->
  wp (loop fuel (populate_step info) i) st Q E.
Proof.
  pose proof (is_count _ _ _ Hs) as (_ & Hla & Hm). destruct (is_addrs _ _ _ Hs) as [_ Hg].
  induction fuel as [|fuel IH]; intros i st Q E Hi Hf Hok Hss Hu HQ; [lia|]. apply wp_loop_S. unfold populate_step.
  assert (Hend : i = zlen ads -> Q i st).
  { intros ->. apply HQ; [done|done|]. intros k ad Hk. apply Hu; [|done]. by apply znth_Some in Hk as [_ ?]. }
  destruct (Z.ltb_spec i MAXNS); cbn [negb]; [|wp_step; apply Hend; lia].
  wp_step. eapply wp_rd; [apply znth_addrs; lia|]. destruct (znth ads i) as [ad|] eqn:Had.
  - pose proof (Forall_znth _ _ _ _ Hg Had) as Hga. pose proof Hga as (Hlen & _ & a & Ha & _). destruct ad as [len o nxt].
    cbn [ai_addr ai_addrlen] in *. subst o. unfold sizeof_sockaddr, sizeof_sockaddr_storage in Hlen. rewrite u64_id by lia.
    rewrite (proj2 (Z.leb_le len sizeof_sockaddr_union)) by (unfold sizeof_sockaddr_union; lia). wp_step.
    eapply (wp_put_address st i a len nxt); [exact Hok|lia|exact Hga|]. intros st' Hok' Hss' Hnew Hold. wp_step.
    pose proof (znth_Some _ _ _ Had) as Hlt. apply IH; [lia|lia|exact Hok'| | |exact HQ].
    + destruct Hss as (? & ? & ?), Hss' as (? & ? & ?). split_and!; congruence.
    + intros k ad Hk Hak. destruct (decide (k = i)) as [->|Hne]; [|apply Hold; [done|]; apply Hu; [lia|done]].
      rewrite Had in Hak. by apply (inj Some) in Hak as <-.
  - wp_step. apply Hend. destruct (Z.lt_ge_cases i (zlen ads)) as [Hlt|]; [|lia]. destruct (znth_lt ads i) as [? ?]; [lia|congruence].
Qed.

(** The pointers to the first [i] domains are set. *)
Lemma wp_search_loop ws st0 : domains_ok info ws -> zlen (dnsrch st0) = MAXDNSRCH + 1 ->
  forall fuel i ps (Q : unit -> res_state -> Prop) E, 0 <= i <= zlen ws -> (Z.to_nat (MAXDNSRCH - i) < fuel)%nat -> zlen ps = MAXDNSRCH + 1 ->
  (forall k w, k < i -> znth ws k = Some w -> exists o, znth ps k = Some (Some o) /\ cstr (defdname info) o w) ->
  (forall k, i <= k -> znth ps k = znth (dnsrch st0) k) ->
  (forall ps', zlen ps' = MAXDNSRCH + 1 -> (forall k w, znth ws k = Some w -> exists o, znth ps' k = Some (Some o) /\ cstr (defdname info) o w) ->
     (forall k, zlen ws <= k -> znth ps' k = znth (dnsrch st0) k) -> Q tt (st0{{ dnsrch := ps' }})) ->
  wp (loop fuel (search_step info) i) (st0{{ dnsrch := ps }}) Q E.
Proof.
  intros Hd Hl0. destruct (domains_offsets _ _ Hd) as (os & Hrec & Hlw & H6 & Hoffs).
  induction fuel as [|fuel IH]; intros i ps Q E Hi Hf Hl Hset Hrest HQ; [lia|]. apply wp_loop_S. unfold search_step.
  assert (Hend : i = zlen ws -> Q tt (st0{{ dnsrch := ps }})).
  { intros ->. apply HQ; [done| |done]. intros k w Hk. apply Hset; [|done]. by apply znth_Some in Hk as [_ ?]. }
  destruct (Z.ltb_spec i MAXDNSRCH); cbn [negb]; [|wp_step; apply Hend; lia].
  destruct (decide (i = zlen ws)) as [He|Hne].
  - wp_step. eapply wp_rd; [rewrite Hoffs, He, <- Hlw by lia; apply znth_middle|]. cbn. wp_step. by apply Hend.
  - destruct (znth_lt os i) as [o Ho]; [lia|]. destruct (znth_lt ws i) as [w Hw]; [lia|].
    destruct (recorded_at _ _ _ _ _ _ _ Hrec Ho Hw) as (Hc & _ & _). pose proof (proj1 Hc).
    wp_step. eapply wp_rd; [rewrite Hoffs, znth_app_l by lia; exact Ho|]. rewrite (proj2 (Z.eqb_neq o (-1))) by lia.
    wp_step. apply wp_zoom. destruct st0 as [nid cnt l ds dn e]. cbn [dnsrch] in *. apply wp_wr; [change (0 <= i < zlen ps); lia|]. wp_step.
    change (wp (loop fuel (search_step info) (i + 1)) ((ResState nid cnt l ds dn e){{ dnsrch := zupd ps i (Some o) }}) Q E).
    apply IH; [lia|lia|by rewrite zlen_zupd| | |exact HQ].
    + intros k w' Hk Hw'. destruct (decide (k = i)) as [->|Hki].
      * rewrite Hw in Hw'. apply (inj Some) in Hw' as <-. exists o. split; [apply znth_zupd_eq; lia|done].
      * rewrite znth_zupd_ne by done. apply Hset; [lia|done].
    + intros k Hk. rewrite znth_zupd_ne by lia. apply Hrest. lia.
Qed.
(** Whatever the offsets are, the pointers stay within their array. *)
Lemma wp_search_any st0 : zlen (dnsrch_offset info) = MAXDNSRCH + 1 ->
  forall fuel i ps (Q : unit -> res_state -> Prop) E, 0 <= i <= MAXDNSRCH -> (Z.to_nat (MAXDNSRCH - i) < fuel)%nat -> zlen ps = MAXDNSRCH + 1 ->
  (forall ps', zlen ps' = MAXDNSRCH + 1 -> Q tt (st0{{ dnsrch := ps' }})) ->
  wp (loop fuel (search_step info) i) (st0{{ dnsrch := ps }}) Q E.
Proof.
  intros Hol. induction fuel as [|fuel IH]; intros i ps Q E Hi Hf Hl HQ; [lia|]. apply wp_loop_S. unfold search_step.
  destruct (Z.ltb_spec i MAXDNSRCH); cbn [negb]; [|wp_step; by apply HQ].
  destruct (znth_lt (dnsrch_offset info) i) as [o Ho]; [lia|]. wp_step. eapply wp_rd; [exact Ho|].
  destruct (o =? -1); [wp_step; by apply HQ|]. wp_step. apply wp_zoom. destruct st0 as [nid cnt l ds dn e].
  apply wp_wr; [change (0 <= i < zlen ps); lia|]. wp_step.
  change (wp (loop fuel (search_step info) (i + 1)) ((ResState nid cnt l ds dn e){{ dnsrch := zupd ps i (Some o) }}) Q E).
  apply IH; [lia|lia|by rewrite zlen_zupd|exact HQ].
Qed.

(** The addresses and the buffer are copied; what is left is the loop that sets the pointers. *)
Lemma wp_populate_start st0 (Q : unit -> res_state -> Prop) E : state_ok st0 ->
  (forall l e, let st ps := ResState (s_netid st0) (zlen ads) l ps (defdname info) e in
     (forall ps, zlen ps = MAXDNSRCH + 1 -> state_ok (st ps)) ->
     (forall ps k ad, znth ads k = Some ad -> address_used (st ps) k ad) ->
     wp (loop (Z.to_nat MAXDNSRCH + 1) (search_step info) 0) ((st []){{ dnsrch := dnsrch st0 }}) Q E) ->
  wp (populate info) st0 Q E.
Proof.
  intros Hok HQ. destruct (is_domains _ _ _ Hs) as (Hdl & Hol & _). pose proof (zlen_nonneg ads).
  assert (Hu0 : forall k ad, k < 0 -> znth ads k = Some ad -> address_used st0 k ad) by (intros k ad Hk Hak; apply znth_Some in Hak; lia).
  unfold populate. wp_step. eapply (wp_populate_loop st0); [lia|unfold MAXNS; lia|exact Hok|done|exact Hu0|].
  intros st (Ha & Hd & Hb & He) (Hn & Hsd & _) Hu. destruct st as [nid cnt l ds dn e]. cbn [s_netid nsaddr_list dnsrch s_defdname ext] in *. subst ds nid.
  wp_step. apply wp_updS. wp_step. apply wp_zoom. apply wp_memcpy; [unfold MAXDNSRCHPATH; lia|lia|lia|lia|change (0 + MAXDNSRCHPATH <= zlen dn); lia|].
  change (wp (loop (Z.to_nat MAXDNSRCH + 1) (search_step info) 0)
    ((ResState (s_netid st0) (zlen ads) l [] (splice dn 0 (ztake MAXDNSRCHPATH (zdrop 0 (defdname info)))) e){{ dnsrch := dnsrch st0 }}) Q E).
  rewrite zdrop_0, <- Hdl, ztake_all. replace (splice dn 0 (defdname info)) with (defdname info).
  2: { unfold splice. rewrite Z.add_0_l, Hdl, <- Hb. unfold zdrop, zlen. rewrite drop_ge by lia. by rewrite app_nil_r. }
  apply HQ; [intros ps Hps; by split_and!|intros ps; exact Hu].
Qed.

Lemma wp_populate_any st0 (Q : unit -> res_state -> Prop) E :
  state_ok st0 -> (forall st, state_ok st -> Q tt st) -> wp (populate info) st0 Q E.
Proof.
  intros Hok HQ. destruct (is_domains _ _ _ Hs) as (_ & Hol & _). apply wp_populate_start; [done|]. intros l e st Hst _.
  eapply wp_search_any; [done|unfold MAXDNSRCH; lia|unfold MAXDNSRCH; lia|by destruct Hok as (_ & ? & _)|]. intros ps Hps. apply HQ. exact (Hst ps Hps).
Qed.

Lemma wp_populate ws st0 (Q : unit -> res_state -> Prop) E :
  state_ok st0 -> domains_ok info ws -> (forall st, uses st0 ads ws st -> Q tt st) -> wp (populate info) st0 Q E.
Proof.
  intros Hok Hdom HQ. pose proof Hok as (_ & Hd0 & _). pose proof (zlen_nonneg ws). apply wp_populate_start; [done|]. intros l e st Hst Hu.
  eapply (wp_search_loop ws (st (dnsrch st0)) Hdom Hd0 _ 0 (dnsrch st0)); [lia|unfold MAXDNSRCH; lia|done| |done|].
  { intros k w Hk [? _]%znth_Some. lia. }
  intros ps Hps Hset Hrest. apply HQ. change (uses st0 ads ws (st ps)). constructor; [by apply Hst|done|done|by apply Hu|exact Hset|exact Hrest].
Qed.
End populate.

(** ** The call *)

(** For a network with a cache, what is done with its record is [populate]. *)
Lemma wp_populate_at s m id i info c v st (Q : option res_state -> resolver -> Prop) E :
  at_net s m id i info c v -> unlocked s -> s_netid st = id ->
  (forall s', unlocked s' -> at_net s' m id i info c v -> wp (populate info) st (fun _ st' => Q (Some st') s') (fun _ _ => False)) ->
  wp (_resolv_populate_res_for_net (Some st)) s Q E.
Proof.
  intros Hat Hlk Hid HQ. assert (Ho : _res_cache_once s = true).
  { destruct (_res_cache_once s) eqn:Ho; [done|]. pose proof (net_once _ _ (at_rep _ _ _ _ _ _ _ Hat) Ho) as Hl.
    pose proof (at_info _ _ _ _ _ _ _ Hat) as Hi. rewrite Hl in Hi. apply znth_Some in Hi as [? ?%Z.lt_nge]. done. }
  unfold _resolv_populate_res_for_net, once_init, pthread_mutex_lock. wp_step. wp_step. apply wp_getS. rewrite Ho. wp_step.
  wp_step. wp_step. apply wp_getS. wp_step. apply wp_require; [by rewrite Hlk|].
  apply wp_updS. set (s1 := s{{ _res_cache_list_lock := true }}).
  assert (Hat1 : at_net s1 m id i info c v) by (destruct s; destruct Hat as [[] ? ? ? ? ? ? ?]; by constructor).
  unfold _find_cache_info_locked. wp_step. wp_step. apply wp_getS. wp_step. rewrite Hid, (at_find _ _ _ _ _ _ _ Hat1).
  wp_step. wp_step. eapply wp_on_info; [exact Hat1|]. apply wp_getS.
  replace (put_info i info (ticks s1) s1) with s1 by (unfold put_info; rewrite zupd_same by exact (at_info _ _ _ _ _ _ _ Hat1); done).
  wp_step. apply wp_on_local. eapply wp_mono; [apply (HQ (unlock s1)); [done|by apply at_net_unlock]| |done].
  intros [] st' HQ'. wp_step. wp_step. apply wp_unlock_at. by wp_step.
Qed.

(** Without a cache nothing is written. *)
Lemma wp_populate_none s m st (Q : option res_state -> resolver -> Prop) E :
  net_rep s m -> unlocked s -> m !! s_netid st = None -> (forall s', unlocked s' -> net_rep s' m -> Q (Some st) s') ->
  wp (_resolv_populate_res_for_net (Some st)) s Q E.
Proof.
  intros Hr Hlk Hn HQ. unfold _resolv_populate_res_for_net. wp_step. eapply wp_once_init; [exact Hr|exact Hlk|]. intros s1 Hr1 Hlk1 _.
  eapply wp_locked; [exact Hr1|exact Hlk1|]. intros s2 Hr2 _ _. unfold _find_cache_info_locked. wp_step. wp_step. apply wp_getS. wp_step.
  rewrite (net_none _ _ _ Hr2 Hn). wp_step. wp_step. wp_step. eapply wp_net_unlock; [exact Hr2|]. intros s3 Hr3 Hlk3. wp_step. by apply HQ.
Qed.

(** In every case the arrays stay what they are. *)
Lemma wp_populate_safe s m st (Q : option res_state -> resolver -> Prop) E :
  net_rep s m -> unlocked s -> state_ok st -> (forall st' s', unlocked s' -> net_rep s' m -> state_ok st' -> Q (Some st') s') ->
  wp (_resolv_populate_res_for_net (Some st)) s Q E.
Proof.
  intros Hr Hlk Hok HQ. destruct (m !! s_netid st) as [v|] eqn:Hv.
  - destruct (net_at _ _ _ _ Hr Hv) as (i & info & c & Hat). destruct (at_shape _ _ _ _ _ _ _ Hat) as (ns & ads & Hs).
    eapply wp_populate_at; [exact Hat|exact Hlk|done|]. intros s' Hlk' Hat'. eapply wp_populate_any; [exact Hs|exact Hok|]. intros st' Hok'. apply HQ; [done|by destruct Hat'|done].
  - eapply wp_populate_none; [exact Hr|exact Hlk|exact Hv|]. intros s' Hlk' Hr'. by apply HQ.
Qed.

(** ** Theorem *)


(** ** Examples *)

(** A state without servers and search domains, with an extension. *)
Definition sample_state : res_state :=
  ResState 7 0 (replicate 4 (replicate 16 0)) (replicate 7 None) (replicate 256 0) (Some (replicate 4 (replicate 128 0))).

Lemma sample_state_ok : state_ok sample_state.
Proof.
  assert (Ha : forall n, arrays MAXNS n (replicate 4 (replicate (Z.to_nat n) 0)) \/ n < 0).
  { intros n. destruct (Z.lt_ge_cases n 0); [by right|left]. split; [done|]. apply Forall_replicate. unfold zlen. rewrite length_replicate. lia. }
  split_and!; [by destruct (Ha 16)|done|done|]. intros e [= <-]. by destruct (Ha 128).
Qed.


(** The search domains "lan" and "a.b" are replaced by "x": a state that has been
    filled before still points to "a.b", and the buffer still has it. *)
Lemma removed_domain_still_used :
  let set d := _resolv_set_nameservers_for_net 7 sample_servers 2 d None in
  let search st := match st with
                   | Some st => (fun o => match o with Some o => ztake 4 (zdrop o (s_defdname st)) | None => [] end) <$> ztake 3 (dnsrch st)
                   | None => []
                   end in
  search_words [120] = [[120]] /\
  fst ((set sample_domains;; st ← _resolv_populate_res_for_net (Some sample_state);
        set [120; 0];; st ← _resolv_populate_res_for_net st; mret (search st)) one_cache) =
  Ret [[120; 0; 97; 110]; [97; 46; 98; 0]; []].
Proof. by vm_compute. Qed.
