(* ===== verification/ResSearch.v ===== *)
(** * A search on what was set: [res_cache.c] and [res_query.c] together

    [res_nsearch] calls [_resolv_populate_res_for_net], which copies into the
    caller's [res_state] what [_resolv_set_nameservers_for_net] was given. Here
    that call is the parameter of the search, and what is set is what is tried. *)
From S2P Require Import Prelude CString NsName NsText NsPton NsParse ResCache ResCacheRep ResStats ResNet ResServers ResNetRep ResNetSpec ResServersSpec ResState ResMkquery ResQuery.

Section search.
Context {Sys : System} {Hsys : SystemOk} {X : Type}.

(** The caches, the caller's [res_state] apart from the fields of the client, and
    the rest of the world. *)
Record machine : Type := Machine { caches : resolver; statp : res_state; rest : X }.

Definition with_world {V W} (w : W) (l : list (option (list Z))) (s : client V) : client W :=
  Client (options s) (_flags s) (ndots s) l (res_h_errno s) (h_errno s) (errno s) (answer s) w.

(** What a pointer to a string denotes, up to its NUL. *)
Fixpoint string_of (l : list Z) : list Z :=
  match l with
  | [] => []
  | c :: l => if c =? 0 then [0] else c :: string_of l
  end.

Definition pointers (st : res_state) : list (option (list Z)) :=
  map (option_map (fun o => string_of (zdrop o (s_defdname st)))) (ResState.dnsrch st).

(** The calls on the parts of the machine. *)
Definition on_caches {A} (m : M resolver A) : M (client machine) A :=
  zoom (fun s => caches (world s)) (fun r s => with_world (Machine r (statp (world s)) (rest (world s))) (dnsrch s) s) m.

Definition load : M (client machine) unit :=
  s ← getS;
  st ← on_caches (ResState._resolv_populate_res_for_net (Some (statp (world s))));
  match st with
  | Some st => updS (fun s => with_world (Machine (caches (world s)) st (rest (world s))) (pointers st) s)
  | None => mret tt
  end.

(** ** What [load] promises to the search *)

(** The network [id] has the search domains [ds], and the state has no pointers behind them. *)
Definition ready (id : Z) (ds : list (list Z)) (w : machine) : Prop := exists m i info c v ns ads,
  at_net (caches w) m id i info c v /\ unlocked (caches w) /\ info_servers info ns ads /\ domains_ok info ds /\
  s_netid (statp w) = id /\ state_ok (statp w) /\
  forall k, zlen ds <= k < MAXDNSRCH + 1 -> znth (ResState.dnsrch (statp w)) k = Some None.

Lemma string_of_cstr b o t : cstr b o t -> string_of (zdrop o b) = t ++ [0].
Proof.
  revert o. induction t as [|c t IH]; intros o Hc; pose proof (proj1 Hc).
  - apply cstr_nul_head in Hc. by rewrite (zdrop_cons _ _ _ Hc).
  - destruct (cstr_cons_l _ _ _ _ Hc) as (Hc0 & Hr & Hct). rewrite (zdrop_cons _ _ _ Hr). cbn [string_of].
    rewrite (proj2 (Z.eqb_neq c 0)) by done. by rewrite IH.
Qed.

(** The pointers of a state that uses the domains [ds]. *)
Lemma pointers_list st0 ads ds st :
  uses st0 ads ds st -> zlen ds <= MAXDNSRCH ->
  (forall k, zlen ds <= k < MAXDNSRCH + 1 -> znth (ResState.dnsrch st0) k = Some None) ->
  exists junk, pointers st = map (fun d => Some (d ++ [0])) ds ++ None :: junk.
Proof.
  intros [(_ & Hl & _) _ _ _ Hd Hr] Hds H0. pose proof (zlen_nonneg ds). exists (zdrop (zlen ds + 1) (pointers st)).
  assert (Hlp : zlen (pointers st) = MAXDNSRCH + 1) by (unfold pointers; by rewrite zlen_map).
  assert (Hend : znth (pointers st) (zlen ds) = Some None).
  { unfold pointers. rewrite znth_map, Hr, H0 by lia. done. }
  rewrite <- (zdrop_cons _ _ _ Hend), <- (ztake_zdrop (zlen ds) (pointers st)) at 1. f_equal. apply znth_ext. intros k Hk.
  destruct (Z.lt_ge_cases k (zlen ds)) as [Hlt|Hge]; [|rewrite !znth_None; [done|right; by rewrite zlen_map|right; rewrite zlen_ztake; lia]].
  destruct (znth_lt ds k) as [d Hdk]; [lia|]. destruct (Hd _ _ Hdk) as (o & Ho & Hc).
  rewrite znth_ztake, !znth_map, Hdk by lia. unfold pointers. rewrite znth_map, Ho. cbn. by rewrite (string_of_cstr _ _ _ Hc).
Qed.

Context (patience : X -> nat).

Lemma load_populates id ds : zlen ds <= MAXDNSRCH -> populates load (ready id ds) (fun w => patience (rest w)) ds.
Proof.
  intros Hds s [Ha (m & i & info & c & v & ns & ads & Hat & Hlk & Hs & Hdom & Hid & Hst & H0)]. unfold load. wp_step. wp_step.
  wp_step. unfold on_caches. apply wp_zoom. eapply wp_populate_at; [exact Hat|exact Hlk|exact Hid|]. intros r Hlkr Hatr.
  eapply wp_populate; [exact Hs|exact Hst|exact Hdom|]. intros st Hu. cbn. 
  split.
  - split; [exact Ha|]. exists m, i, info, c, v, ns, ads. do 4 (split; [done|]). split; [etransitivity; [exact (us_netid _ _ _ _ Hu)|exact Hid]|].
    split; [exact (us_ok _ _ _ _ Hu)|]. intros k Hk. cbn. rewrite (us_rest _ _ _ _ Hu) by lia. by apply H0.
  - do 2 (split; [done|]). split; [unfold spends; cbn; lia|]. by apply (pointers_list (statp (world s)) ads).
Qed.

(** ** A network that leaves the caches alone *)

Definition on_rest {A} (m : M (client X) A) : M (client machine) A :=
  zoom (fun s => with_world (rest (world s)) (dnsrch s) s)
       (fun c s => with_world (Machine (caches (world s)) (statp (world s)) (world c)) (dnsrch c) c) m.

Lemma network_on_rest send class typ anslen id ds :
  network send class typ anslen (fun _ => True) patience ->
  network (fun q n => on_rest (send q n)) class typ anslen (ready id ds) (fun w => patience (rest w)).
Proof.
  intros Hnet s ls q [Ha Hr] Hq. apply wp_zoom.
  eapply wp_conseq; [apply (Hnet (with_world (rest (world s)) (dnsrch s) s) ls q); [done|exact Hq]|].
  intros n c ([Ha' _] & Hc & Hs & Hk & Hp). split; [split; [exact Ha'|exact Hr]|]. done.
Qed.

Lemma environment_on_rest randomid tmp1 buf0 nbuf0 dnptrs0 class typ anslen id ds :
  environment randomid tmp1 buf0 nbuf0 dnptrs0 class typ anslen (fun _ => True) patience ->
  environment (on_rest randomid) tmp1 buf0 nbuf0 dnptrs0 class typ anslen (ready id ds) (fun w => patience (rest w)).
Proof.
  intros [? ? ? ? ? ? ? Hid]. constructor; try done. intros s.
  destruct (Hid (with_world (rest (world s)) (dnsrch s) s)) as (i & w & Hrun & Hp & _).
  exists i, (Machine (caches (world s)) (statp (world s)) w). unfold on_rest, zoom. rewrite Hrun. done.
Qed.

(** ** From the setting to the search *)

Lemma words_from_all (P : Z -> Prop) t w : Forall P w -> Forall P t -> Forall (Forall P) (words_from w t).
Proof.
  intros Hw Ht. revert w Hw. induction Ht as [|c t Hc _ IH]; intros w Hw; cbn [words_from].
  - destruct w; [by apply Forall_nil|]. apply Forall_cons. split; [done|by apply Forall_nil].
  - destruct (blank c).
    + destruct w; [by apply IH|]. apply Forall_cons. split; [done|by apply IH].
    + apply IH. apply Forall_app. split; [done|by constructor].
Qed.

Lemma line_all (P : Z -> Prop) t : Forall P t -> Forall P (line t).
Proof. induction 1 as [|c t Hc _ IH]; cbn [line]; [done|]. destruct (c =? 10); by constructor. Qed.

Lemma search_words_all (P : Z -> Prop) d : Forall P d -> Forall (Forall P) (search_words d).
Proof. intros Hd. apply Forall_take, words_from_all; [done|]. by apply line_all, Forall_take. Qed.

Lemma search_words_few d : zlen (search_words d) <= MAXDNSRCH.
Proof. unfold search_words, zlen, ztake. rewrite length_take. unfold MAXDNSRCH. lia. Qed.

(** A successful setting makes the machine ready. *)
Lemma wp_set_on_caches servers id domains d prm ads m v (s : client machine) :
  Forall is_cstr servers -> zlen servers <= MAXNS -> mapM getaddrinfo servers = Some ads -> cstr domains 0 d ->
  net_rep (caches (world s)) m -> unlocked (caches (world s)) -> m !! id = Some v -> revision v + 2 < 2 ^ 31 ->
  state_ok (statp (world s)) -> s_netid (statp (world s)) = id ->
  (forall k, 0 <= k < MAXDNSRCH + 1 -> znth (ResState.dnsrch (statp (world s))) k = Some None) ->
  wp (on_caches (_resolv_set_nameservers_for_net id servers (zlen servers) domains prm)) s
     (fun r s1 => r = 0 /\ exists w, s1 = with_world (Machine w (statp (world s)) (rest (world s))) (dnsrch s) s /\
        ready id (search_words d) (world s1))
     (fun _ _ => False).
Proof.
  intros Hserv Hfew Hads Hcd Hr Hlk Hv Hrev Hst Hid H0. unfold on_caches. apply wp_zoom.
  eapply wp_conseq; [apply (wp_set_nameservers servers Hserv _ m id domains d prm Hr Hlk Hcd)|].
  { intros v' Hv'. by simplify_eq. }
  intros r c' (Hlk1 & _ & Hcase). specialize (Hcase Hfew). rewrite Hads in Hcase.
  destruct Hcase as [-> [[Hn _]|(i & info & c & v' & rev & ns & ads' & Hat & _ & _ & Hs & _ & _ & Hdom)]]; [congruence|].
  split; [done|]. exists c'. split; [done|]. eexists _, i, info, c, _, ns, ads'. do 6 (split; [done|]).
  intros k Hk. apply H0. pose proof (zlen_nonneg (search_words d)). lia.
Qed.

Definition set_then_search {res_nsend res_randomid} tmp1 buf0 nbuf0 dnptrs0 id servers domains prm fuel name class typ anslen :
    M (client machine) (Z * Z) :=
  r ← on_caches (_resolv_set_nameservers_for_net id servers (zlen servers) domains prm);
  n ← res_nsearch res_nsend res_randomid load tmp1 buf0 nbuf0 dnptrs0 fuel name class typ anslen;
  mret (r, n).
End search.

Arguments machine : clear implicits.


(** The domains "lan" and "a.b" are set; "h" is found in the second. *)
Definition sample_client : client (machine nat) :=
  Client (RES_USE_EDNS0 + RES_DEFNAMES + RES_DNSRCH) 0 1 [] 0 0 0 (replicate 64 0) (Machine one_cache sample_state 0%nat).

Definition sample_run : M (client (machine nat)) (Z * Z) :=
  set_then_search (res_nsend := fun q n => on_rest (Demo.res_nsend q n)) (res_randomid := on_rest Demo.res_randomid)
    Demo.tmp0 Demo.buf0 Demo.nbuf0 Demo.dnptrs0 7 sample_servers sample_domains None 2 [104; 0] 1 28 64.

