(* ===== verification/ResHistory.v ===== *)
(** * Every history of calls of the resolver's cache is safe

    From the zeroed static state, any sequence of calls of the interface of
    [dns/resolv/res_cache.c] with proper arguments. *)
From S2P Require Import Prelude CString NsName NsWire NsParse NsRecords ResPacket ResTtl ResCache ResCacheRep ResCacheOps.
From S2P Require Import ResStats ResNet ResNetRep ResNetSpec ResServers ResServersSpec ResState.
From coqutil Require Import Datatypes.RecordSetters.
Import DoubleBraceUpdate.

(** ** Statistics of a network *)

(** A sample of an earlier revision is dropped, another one is recorded for the server. *)
Lemma wp_add_sample_at (P : __res_stats -> Prop) s m id i info c v rev ns x mx st :
  at_net s m id i info c v -> unlocked s -> znth (nsstats info) ns = Some st -> 0 < mx ->
  wp (_res_cache_add_stats_sample_locked x mx) st (fun _ st' => P st' /\ stats_fit st') (fun _ _ => False) ->
  wp (_resolv_cache_add_resolver_stats_sample id rev ns x mx) s
     (fun _ s' => unlocked s' /\ exists info', at_net s' m id i info' c v /\
        if decide (rev = revision_id info)
        then exists st', P st' /\ info' = with_stats (zupd (nsstats info) ns st') info
        else info' = info) (fun _ _ => False).
Proof.
  intros Hat Hlk Hst Hmx Hstep. unfold _resolv_cache_add_resolver_stats_sample, pthread_mutex_lock.
  rewrite (proj2 (Z.leb_gt mx 0)) by lia. wp_step. wp_step. apply wp_getS. wp_step. apply wp_require; [by rewrite Hlk|].
  apply wp_updS. set (s1 := s{{ _res_cache_list_lock := true }}).
  assert (Hat1 : at_net s1 m id i info c v) by (destruct s; destruct Hat as [[] ? ? ? ? ? ? ?]; by constructor).
  unfold _find_cache_info_locked. wp_step. wp_step. apply wp_getS. wp_step. rewrite (at_find _ _ _ _ _ _ _ Hat1). wp_step.
  wp_step. eapply wp_on_info; [exact Hat1|]. apply wp_getS.
  replace (put_info i info (ticks s1) s1) with s1 by (unfold put_info; rewrite zupd_same by exact (at_info _ _ _ _ _ _ _ Hat1); done).
  destruct (Z.eqb_spec (revision_id info) rev) as [Hrev|Hrev].
  - eapply wp_on_info; [exact Hat1|]. apply wp_zoom. eapply wp_on_elem; [exact Hst|].
    eapply wp_mono; [exact Hstep| |done]. intros [] st' [HP Hfit'].
    apply wp_unlock_at. split; [done|]. change (info{{ nsstats := ?l }}) with (with_stats l info). set (info' := with_stats _ info).
    exists info'. rewrite decide_True by done. split; [|by exists st'].
    destruct (at_shape _ _ _ _ _ _ _ Hat1) as (nm & ads & Hs). pose proof (is_stats _ _ _ Hs) as [Hsl Hsall].
    assert (Hs' : info_servers info' nm ads).
    { apply with_stats_servers; [done|by rewrite zlen_zupd|]. apply Forall_zupd; [done|]. exact Hfit'. }
    pose proof Hat1 as [Hr Hf Hi Hid Hc Hk Hrv Hv].
    destruct (net_put_info s1 m id i info c v info' c v (ticks s1) Hat1) as [Hr' Hf'].
    { rewrite <- Hid. by destruct info. } { rewrite <- Hc. by destruct info. } { rewrite <- Hrv. by destruct info. } { done. } { by exists nm, ads. }
    rewrite insert_id in Hr' by done. apply at_net_unlock. constructor; [exact Hr'|exact Hf'| | | |done| |done].
    + unfold put_info. cbn. apply znth_zupd_eq. exact (znth_Some _ _ _ Hi).
    + rewrite <- Hid. by destruct info.
    + rewrite <- Hc. by destruct info.
    + rewrite <- Hrv. by destruct info.
  - wp_step. apply wp_unlock_at. split; [done|]. exists info. rewrite decide_False by congruence. split; [|done]. by apply at_net_unlock.
Qed.

Lemma add_resolver_stats_sample_correct s m id i info c v rev ns x mx st r :
  at_net s m id i info c v -> unlocked s -> znth (nsstats info) ns = Some st -> ring mx st r ->
  wp (_resolv_cache_add_resolver_stats_sample id rev ns x mx) s
     (fun _ s' => unlocked s' /\ exists info', at_net s' m id i info' c v /\
        if decide (rev = revision_id info)
        then exists st', ring mx st' (ztake mx (x :: r)) /\ info' = with_stats (zupd (nsstats info) ns st') info
        else info' = info) (fun _ _ => False).
Proof.
  intros Hat Hlk Hst Hring. apply (wp_add_sample_at (fun st' => ring mx st' (ztake mx (x :: r))) _ _ _ _ _ _ _ _ _ _ _ st); [done|done|done|apply Hring|].
  eapply wp_add_sample; [exact Hring|]. intros st' Hr'. split; [done|by eapply ring_fit].
Qed.

(** ** Calls *)

Inductive call : Type :=
  | Lookup (id : Z) (query buf : list Z) (answersize : Z)
  | Add (id : Z) (query a : list Z) (alen : Z)
  | Failed (id : Z) (query : list Z)
  | Set_servers (id : Z) (servers : list (list Z)) (domains : list Z) (prm : option __res_params)
  | Get_info (id : Z) (out : net_info)
  | Populate (statp : option res_state)
  | Get_stats (id : Z) (prm : __res_params) (stats : list __res_stats)
  | Add_sample (id rev ns : Z) (x : __res_sample) (max_samples : Z)
  | Flush (id : Z)
  | Delete (id : Z).

(** Queries with complete additional records, answers and buffers as large as
    they are said to be, strings, a server of the array, at most as many samples
    as there is room for. *)
Definition call_ok (x : call) : Prop :=
  match x with
  | Lookup _ q buf asize => query_arg q /\ 0 <= asize <= zlen buf
  | Add _ q a alen => query_arg q /\ bytes a /\ readable a alen /\ 0 <= alen
  | Failed _ q => query_arg q
  | Set_servers _ servers domains _ => Forall is_cstr servers /\ exists d, cstr domains 0 d
  | Get_info _ out => room_for_info out
  | Populate statp => forall st, statp = Some st -> state_ok st
  | Get_stats _ _ _ => True
  | Add_sample _ _ ns _ mx => 0 <= ns < MAXNS /\ mx <= MAXNSSAMPLES
  | Flush _ | Delete _ => True
  end.

(** The counters [last_id] and [revision_id] have not come to the end of [int]. *)
Definition counters_fit (s : resolver) : Prop :=
  forall i info, znth (_res_cache_list s) i = Some info ->
    revision_id info + 2 < 2 ^ 31 /\ forall c, cache info = Some c -> last_id c + 1 < 2 ^ 31.

Section history.
Context `{Hok : SystemOk}.

Definition run (x : call) : M resolver unit :=
  match x with
  | Lookup id q buf asize => _resolv_cache_lookup id q (zlen q) buf asize 0;; mret tt
  | Add id q a alen => _resolv_cache_add id q (zlen q) a alen
  | Failed id q => _resolv_cache_query_failed id q (zlen q)
  | Set_servers id servers domains prm => _resolv_set_nameservers_for_net id servers (zlen servers) domains prm;; mret tt
  | Get_info id out => android_net_res_stats_get_info_for_net id out;; mret tt
  | Populate statp => _resolv_populate_res_for_net statp;; mret tt
  | Get_stats id prm stats => _resolv_cache_get_resolver_stats id prm stats;; mret tt
  | Add_sample id rev ns x mx => _resolv_cache_add_resolver_stats_sample id rev ns x mx
  | Flush id => _resolv_flush_cache_for_net id
  | Delete id => _resolv_delete_cache_for_net id
  end.

(** The static state before any call, and the states after calls. *)
Inductive history : resolver -> Prop :=
  | Start n : history (Resolver [] false false n)
  | Call s x s' : history s -> counters_fit s -> call_ok x -> run x s = (Ret tt, s') -> history s'.

(** The mutex is free and the state is a map from networks to bounded lists of answers. *)
Definition consistent (s : resolver) : Prop := unlocked s /\ exists m, net_rep s m.

Lemma fit_view s m id v : net_rep s m -> counters_fit s -> m !! id = Some v -> lastid v + 1 < 2 ^ 31 /\ revision v + 2 < 2 ^ 31.
Proof.
  intros Hr Hf Hv. destruct (net_at _ _ _ _ Hr Hv) as (i & info & c & Hat). destruct (Hf _ _ (at_info _ _ _ _ _ _ _ Hat)) as [H1 H2].
  specialize (H2 c (at_cache _ _ _ _ _ _ _ Hat)). rewrite (cv_id _ _ (at_view _ _ _ _ _ _ _ Hat)) in H2.
  rewrite (at_rev _ _ _ _ _ _ _ Hat) in H1. by split.
Qed.

Lemma wp_get_info_any s m id out E :
  net_rep s m -> unlocked s -> room_for_info out -> wp (android_net_res_stats_get_info_for_net id out) s (fun _ s' => consistent s') E.
Proof.
  intros Hr Hlk Ho. destruct (m !! id) as [v|] eqn:Hv.
  - destruct (net_at _ _ _ _ Hr Hv) as (i & info & c & Hat). destruct (at_shape _ _ _ _ _ _ _ Hat) as (ns & ads & Hs).
    destruct (is_domains _ _ _ Hs) as (_ & _ & ws & Hws). eapply wp_get_info; [exact Hat|exact Hlk|exact Hs|exact Hws|exact Ho|].
    intros out' s' Hlk' Hat' _. split; [done|]. exists m. exact (at_rep _ _ _ _ _ _ _ Hat').
  - eapply wp_get_info_none; [exact Hr|exact Hlk|exact Hv|]. intros s' Hlk' Hr'. split; [done|]. by exists m.
Qed.

Lemma wp_get_stats_any s m id prm stats E :
  net_rep s m -> unlocked s -> wp (_resolv_cache_get_resolver_stats id prm stats) s (fun _ s' => consistent s') E.
Proof.
  intros Hr Hlk. unfold _resolv_cache_get_resolver_stats. eapply wp_locked; [exact Hr|exact Hlk|]. intros s2 Hr2 _ _.
  unfold _find_cache_info_locked. wp_step. wp_step. apply wp_getS. wp_step.
  assert (Hend : forall r E, wp (pthread_mutex_unlock;; mret r : M resolver (Z * __res_params * list __res_stats)) s2 (fun _ s' => consistent s') E).
  { intros r E'. wp_step. eapply wp_net_unlock; [exact Hr2|]. intros s3 Hr3 Hlk3. wp_step. split; [done|]. by exists m. }
  destruct (m !! id) as [v|] eqn:Hv.
  - destruct (net_at _ _ _ _ Hr2 Hv) as (i & info & c & Hat). rewrite (at_find _ _ _ _ _ _ _ Hat). wp_step. wp_step.
    eapply wp_on_info; [exact Hat|]. apply wp_getS.
    replace (put_info i info (ticks s2) s2) with s2 by (unfold put_info; rewrite zupd_same by exact (at_info _ _ _ _ _ _ _ Hat); by destruct s2).
    wp_step. apply Hend.
  - rewrite (net_none _ _ _ Hr2 Hv). wp_step. wp_step. apply Hend.
Qed.

Lemma wp_add_sample_any s m id rev ns x mx :
  net_rep s m -> unlocked s -> 0 <= ns < MAXNS -> mx <= MAXNSSAMPLES ->
  wp (_resolv_cache_add_resolver_stats_sample id rev ns x mx) s (fun _ s' => consistent s') (fun _ _ => False).
Proof.
  intros Hr Hlk Hns Hmx. destruct (Z.le_gt_cases mx 0) as [H0|H0].
  { unfold _resolv_cache_add_resolver_stats_sample. rewrite (proj2 (Z.leb_le _ _)) by done. wp_step. split; [done|]. by exists m. }
  destruct (m !! id) as [v|] eqn:Hv.
  - destruct (net_at _ _ _ _ Hr Hv) as (i & info & c & Hat). destruct (at_shape _ _ _ _ _ _ _ Hat) as (nm & ads & Hs).
    destruct (is_stats _ _ _ Hs) as [Hl Hall]. destruct (znth_lt (nsstats info) ns) as [st Hst]; [lia|].
    eapply wp_conseq; [apply (wp_add_sample_at (fun _ => True) s m id i info c v rev ns x mx st Hat Hlk Hst H0)|].
    { apply wp_add_sample_fit; [lia|exact (Forall_znth _ _ _ _ Hall Hst)|done]. }
    intros [] s' (Hlk' & info' & Hat' & _). split; [done|]. exists m. exact (at_rep _ _ _ _ _ _ _ Hat').
  - unfold _resolv_cache_add_resolver_stats_sample. rewrite (proj2 (Z.leb_gt _ _)) by done.
    eapply wp_locked; [exact Hr|exact Hlk|]. intros s2 Hr2 _ _. unfold _find_cache_info_locked. wp_step. wp_step. apply wp_getS. wp_step.
    rewrite (net_none _ _ _ Hr2 Hv). wp_step. wp_step. eapply wp_net_unlock; [exact Hr2|]. intros s3 Hr3 Hlk3. split; [done|]. by exists m.
Qed.

Lemma wp_run_call s x : consistent s -> counters_fit s -> call_ok x -> wp (run x) s (fun _ s' => consistent s') (fun _ _ => False).
Proof.
  intros [Hlk (m & Hr)] Hf Hx. pose proof (fun id v => fit_view s m id v Hr Hf) as Hfit. destruct x; cbn [call_ok run] in *.
  - destruct Hx as [Hq Hsz]. wp_step. eapply wp_conseq; [apply (wp_resolv_cache_lookup s m id query buf answersize 0); done|].
    intros r s' (Hlk' & Hno & Hyes). wp_step. split; [done|]. destruct (query_ok_or query (proj1 Hq)) as [Hok'|Hok'].
    + destruct (Hyes Hok') as (m' & Hr' & _). by exists m'.
    + destruct (Hno Hok') as [_ ->]. by exists m.
  - destruct Hx as (Hq & Ha & Hra & Hal). eapply wp_conseq.
    { apply (wp_resolv_cache_add s m id query a alen); try done. intros v Hv. by destruct (Hfit _ _ Hv). }
    intros r s' (Hlk' & Hno & Hyes). split; [done|]. destruct (query_ok_or query (proj1 Hq)) as [Hok'|Hok'].
    + destruct (Hyes Hok') as (m' & Hr' & _). by exists m'.
    + rewrite (Hno Hok'). by exists m.
  - eapply wp_conseq; [by apply (resolv_cache_query_failed_correct s m)|]. intros [] s' (Hlk' & m' & Hr' & _). split; [done|]. by exists m'.
  - destruct Hx as [Hc (d & Hd)]. wp_step. eapply wp_conseq.
    { apply (wp_set_nameservers servers Hc s m id domains d prm); try done. intros v Hv. by destruct (Hfit _ _ Hv). }
    intros r s' (Hlk' & Hmany & Hfew). wp_step. split; [done|]. destruct (Z.lt_ge_cases MAXNS (zlen servers)) as [Hl|Hl].
    + destruct (Hmany Hl) as [_ ->]. by exists m.
    + specialize (Hfew Hl). destruct (mapM getaddrinfo servers); [|destruct Hfew as [_ ->]; by exists m].
      destruct Hfew as (_ & [[_ Hr']|(? & ? & ? & ? & ? & ? & ? & Hat & _)]); [by exists m|]. eexists. exact (at_rep _ _ _ _ _ _ _ Hat).
  - wp_step. eapply wp_conseq; [by apply (wp_get_info_any s m id out)|]. intros ? s' Hs'. by wp_step.
  - wp_step. destruct statp as [st|]; [|unfold _resolv_populate_res_for_net; wp_step; wp_step; split; [done|]; by exists m].
    eapply wp_populate_safe; [exact Hr|exact Hlk|by apply Hx|]. intros st' s' Hlk' Hr' _. wp_step. split; [done|]. by exists m.
  - wp_step. eapply wp_conseq; [by apply (wp_get_stats_any s m)|]. intros ? s' Hs'. by wp_step.
  - destruct Hx as [Hns Hmx]. by apply (wp_add_sample_any s m).
  - eapply wp_conseq; [by apply (resolv_flush_cache_correct s m)|]. intros [] s' (Hlk' & m' & Hr' & _). split; [done|]. by exists m'.
  - eapply wp_conseq; [apply (resolv_delete_cache_correct s m); [done|done|]|].
    { intros v Hv. destruct (Hfit _ _ Hv). lia. }
    intros [] s' (Hlk' & m' & Hr' & _). split; [done|]. by exists m'.
Qed.

Lemma start_consistent n : consistent (Resolver [] false false n).
Proof.
  split; [done|]. exists ∅. constructor; [apply NoDup_nil_2| |intros i info Hi|done].
  - intros id. rewrite lookup_empty. split; [by intros [? ?]|by intros ?%not_elem_of_nil].
  - by apply znth_Some in Hi as [? ?%Z.lt_nge].
Qed.

Lemma history_consistent s : history s -> consistent s.
Proof.
  induction 1 as [n|s x s' _ IH Hf Hx Hrun]; [apply start_consistent|]. pose proof (wp_run_call s x IH Hf Hx) as Hw.
  unfold wp in Hw. by rewrite Hrun in Hw.
Qed.

End history.

Definition counters_fitb (s : resolver) : bool :=
  forallb (fun info => (revision_id info + 2 <? 2 ^ 31) && match cache info with Some c => last_id c + 1 <? 2 ^ 31 | None => true end)
    (_res_cache_list s).

Lemma counters_fitb_ok s : counters_fitb s = true -> counters_fit s.
Proof.
  intros H i info Hi%znth_lookup. unfold counters_fitb in H. rewrite forallb_forall in H.
  assert (Hin : info ∈ _res_cache_list s) by (by eapply list_elem_of_lookup_2). apply list_elem_of_In, H in Hin.
  apply andb_prop in Hin as [H1 H2]. split; [lia|]. intros c Hc. rewrite Hc in H2. lia.
Qed.

(** Name servers are set, an answer is added and looked up. *)
Definition after_set : resolver := snd (run (Set_servers 7 sample_servers sample_domains None) (Resolver [] false false 0)).
Definition after_add : resolver := snd (run (Add 7 sample_query sample_message 35) after_set).

Lemma run_snd x s : fst (run x s) = Ret tt -> run x s = (Ret tt, snd (run x s)).
Proof. destruct (run x s). cbn. by intros ->. Qed.

Lemma after_add_history : history after_add.
Proof.
  assert (Hset : call_ok (Set_servers 7 sample_servers sample_domains None)).
  { split; [exact sample_servers_ok|]. eexists. exact sample_domains_ok. }
  assert (Hadd : call_ok (Add 7 sample_query sample_message 35)).
  { split; [exact sample_query_arg|]. split; [by apply bytes_check|]. split; [exact sample_readable|done]. }
  eapply Call; [eapply Call; [apply (Start 0)| |exact Hset|apply run_snd; by vm_compute]| |exact Hadd|apply run_snd; by vm_compute];
    apply counters_fitb_ok; by vm_compute.
Qed.

